(* ===== verification/_CoqProject ===== *)
-Q . S2P
Prelude.v
JsTime.v
JsVal.v
JsInt.v
JsonReader.v
Types.v
World.v
Logic.v
Manifest.v
StorageCatalog.v
StorageDeploy.v
StorageOps.v
Signing.v
BuildYaml.v
Build.v
Probes.v
Deploy.v
CloudTypes.v
Budget.v
Cloud.v
Scheduler.v
Events.v
Promotion.v
K8s.v
ReleaseDeploy.v
Http.v
HttpApp.v
Worker.v
Verbs.v
Cascade.v
Fixture.v
DeployFixture.v
ManifestSpec.v
K8sSpec.v
SigningSpec.v
BuildSpec.v
PromotionSpec.v
StorageSpec.v
SchedulerSpec.v
EventsSpec.v
BuildYamlSpec.v
ProbesSpec.v
DeploySpec.v
BudgetSpec.v
CloudSpec.v
CascadeSpec.v
ReleaseDeploySpec.v
VerbsSpec.v
HttpSpec.v
WorkerSpec.v
Registry.v
Oci.v
OciApp.v
RegistryAuth.v
RegistrySigning.v
OciVirtual.v
Cargo.v
RegistryApp.v
OciSpec.v
RegistryAuthSpec.v
RegistrySpec.v
CargoSpec.v
OciPages.v
Assertions.v
Narrative.v
Reporter.v
Scenario.v
ScenarioSpec.v
ScenarioRuns.v
ScenarioExamples.v
Bundles.v
BundlesSpec.v
BundlesExamples.v
