(* ===== verification/Prelude.v ===== *)
(** * The signalman control plane

    Signalman builds releases of a product, signs them, deploys them to virtual
    machines, Kubernetes clusters and cloud instances, watches their health, and
    promotes them from one target to the next.  This library models the control
    plane of the host program (src/host/src/control-plane, the cloud backends of
    src/host/src/cloud and the verbs of src/host/src/verbs/control-plane.ts that
    join them), its HTTP server and workers, and the artifact registry (its storage,
    OCI and Cargo facades, pull-through, credentials and HTTP application,
    src/registry/src),
    and proves what its parts promise each other.

    ** How the parts interact

    Every component is stateless code over one relational store (SQLite).
    [runBuild] clones a product at a tag, reads its build file, runs the
    component builds, records artifacts, signs the manifest and marks the release
    ready.  A ready release fires promotion policies; a policy files an approval
    and, when its gate opens, deploys through a callback.  [runDeploy] takes a
    checkpoint, stages the artifacts, runs the probes and makes the deployment
    the active one, or restores the checkpoint.  A scheduler tick runs probes
    periodically, a promotion tick opens delayed and health-gated approvals, the
    dispatcher sends events to webhook subscribers.  Cloud instances are
    provisioned behind a budget gate and reaped after their lifetime.  The
    registry is a service of its own: images are pushed to it in chunks, as
    manifests that name blobs by digest and tags that name manifests.

    ** The model

    [World.M X A] is the effect of an async TypeScript function: it takes a world
    (the database, the position of the clock, the position of the identifier
    generator, an external state [X]) to a result or a thrown error and the new
    world.  [try_catch] keeps the effects of a block that throws, as the language
    does; [runInTransaction] rolls the database back.  The clock and the
    identifiers are the class [Oracle] (readings between 1970 and 9999; that the
    clock moves on or that an identifier is fresh is a hypothesis where it
    matters).  Code
    that is not part of the repository is a class of operations on [X]: the
    guest's hypervisor ([DeployBackend]), blobs and files ([DeployHost],
    [BuildHost], [KeyFiles]), node's crypto ([Crypto]), EC2 ([Ec2]), HTTP, SMTP
    and HMAC ([Platform]), what ECMAScript leaves to the engine ([JsEngine]) and
    Zod's URL test ([Zod]).  What a theorem needs to know of them is a law of a
    class ([CryptoLaws], [KeyGenLaws]) or a named hypothesis; [Fixture] has a
    concrete instance of each, over which every witness is evaluated.  The
    registry has a state of its own, [Registry.Reg] (the tables of its index, the
    upload files, the blob files and their sidecars), a monad [RM] over it and a
    class [RegHost], in which any disk operation may fail, also half-way.  Node's keys
    and Ed25519 are [RegCrypto] there, the upstream registries and the network are
    [Upstream].

    Callbacks between components are classes with laws as well, so that the
    client is proved against the interface: [DeployInvoker] (promotion calls
    deploy), [ProbeInvoker] and [SchedulerSink] (the scheduler calls probes and
    emits events).  In production the deploy callback is the release deploy itself, which
    fires promotions again: [Cascade] ties that knot, and [CascadeSpec] shows that
    it ends.  The HTTP server puts every repository behind bearer keys of one
    organisation each; the verbs put them behind the command line.

    ** Files

    Prelude, JsTime, JsVal, JsInt: strings and lists, the calendar of ECMAScript
    with its ISO printer and parser, binary64 numbers, JSON, and the exactness of
    binary64 on integers below 2^53.
    Types: control-plane/types.ts.  World, Logic: the schema of the migrations,
    SQL statements with their constraints, the effect monad and its logic
    ([db_ok] is the schema invariant, [preserves] an invariant of a program).
    StorageCatalog, StorageDeploy, StorageOps: the repositories of
    control-plane/storage/sqlite.ts, one definition per method.
    Manifest, Signing, BuildYaml, Build: control-plane/build and
    control-plane/signing.  Probes, Deploy: control-plane/probes and
    control-plane/deploy.  CloudTypes, Budget, Cloud: cloud/types.ts, cost.ts,
    budget.ts, aws.ts and reaper.ts.  Scheduler: control-plane/scheduler.
    Events: control-plane/events.  Promotion: control-plane/promotion and the
    approval verbs.  K8s: k8s/.  ReleaseDeploy: cloud/connection.ts and the
    verbs that deploy and roll back on each kind of target.  Cascade: the
    production wiring of promotions.  Verbs: the other verbs of
    verbs/control-plane.ts.  Http, HttpApp: http/errors.ts, auth.ts and router.ts,
    and the route table of http/app.ts with one definition per handler.
    Worker: runner/client.ts, runner/http-control-plane.ts and the loops of
    runner/worker.ts, with the server of HttpApp at the other end of the network.
    JsonReader: JSON.parse, the reader of what JSON.stringify prints, for witnesses.
    Registry: the storage of the registry service (src/registry/src/types.ts and
    storage/).  Oci, OciApp: its OCI facade (oci/), first the names, parsers,
    uploads, tags and the reaper, then one definition per route.  RegistryAuth:
    http/auth.ts, oci/jwt.ts and oci/auth.ts.  RegistrySigning: signing.ts.
    OciVirtual: oci/virtual.ts, upstream-auth.ts and sigv4.ts.  Cargo: its Cargo
    facade (cargo/ and setCargoYanked of the index).  RegistryApp: the
    router, the generic and forensic routes and the whole application (http/).
    OciPages: a client that reads the tags page by page.
    Assertions, Narrative, Reporter, Scenario: the scenario engine
    (scenarios/assertions.ts, runner.ts, narrative.ts, envelope-hash.ts and
    orchestrator.ts, output/reporter.ts), first the evaluators, then the documents,
    references and capabilities, then the JUnit report, then the run.
    ScenarioSpec, ScenarioRuns, ScenarioExamples: its theorems and runs on a small host.
    Bundles, BundlesSpec, BundlesExamples: software bundles (provisioning/bundle-types.ts
    and install-bundle.ts), their theorems, and installations on a small guest.
    DeployFixture: instances and a store for the deploy, verb and HTTP theorems.
    Fixture: a concrete control plane.  Each [*Spec] file has the theorems about
    the component it is named after.

    ** What is proved

    Store: every sequence of repository writes keeps keys, unique indexes,
    references and checks; the job table is a FIFO queue, and no job is handed
    out twice.
    Deploy: success leaves the new deployment as the only active one; failure
    leaves the previous deployment active, unless dropping the checkpoint is what
    failed, and the guest's disk as it was, unless restoring it failed as well.
    Promotion: at most one live approval per release and target, decisions are
    final, a tick changes only what is due or gated and fires everything due that
    has no health gate, every gate kind does what it says, the allow-list is enforced.
    Adapters: a deploy to a cluster or a cloud target that returns is the only
    active one, one that throws keeps the previous one; a Kubernetes rollback
    leaves none.  Cascades end, within as many nested deploys as there are
    destinations.
    Verbs: each administrative change is audited once; a health check records
    what it saw; a build removes the tree it cloned.
    HTTP: every request is answered, callers change rows of their own
    organisation only, anonymous callers change nothing, a key opens its
    organisation until it expires or is revoked.
    Workers: against that server no two workers hold the same job, a turn takes
    the head of the queue to its outcome, and a turn is its phases.
    Registry: whatever its disk does, and as long as the generic manifest routes
    leave OCI names alone, blobs and manifests hash to their names and no tag
    dangles; blobs pushed in chunks and manifests come back byte by byte; following
    the links of the tag pages finds every tag; a sweep drops exactly the expired
    uploads.  What is
    pulled hashes to its digest, also through an upstream; exactly the four kinds of
    credential let a request in, and without one it changes nothing; tokens are
    accepted exactly during their lifetime; signed manifests verify, and are read
    back as they were pushed.  Crates: a publish body is read exactly as it is
    written, a published crate is downloaded byte by byte, a yank changes one flag,
    and the index path of a crate names that crate and no other.
    Scenarios: a run destroys the machines it created and throws only when its report
    cannot be written; in a run that passed no declared step and no tool block failed;
    a step is retried as its policy says and reported event by event; the host files a
    run copies are those its capabilities declare, its screenshots go where the
    workflow says; an upload writes the whole file.
    Bundles: a dependency graph is sorted just when it can be; an installation
    accounts for every package and starts it after all it requires, unless some of
    that failed; the arguments of a downloaded script stay in their literals.
    Build and signing: a build that throws leaves no new ready release; what was
    built and signed verifies; canonical JSON is injective on manifests; an
    envelope verifies exactly when its mode is satisfied; a nonce signs once;
    generated keys resolve.
    Build file: the schema accepts exactly the documents that obey its rules and
    reads them back; substitution replaces exactly the references.
    Probes: total, one verdict per probe; URLs cannot break out of their quotes.
    Scheduler, events: a tick and a dispatch never throw, the tick probes exactly
    the schedules that are due, and they touch exactly the rows they should.
    Cloud: the month is the UTC month, one provision at a time keeps the recorded
    spend within the limit, a refused provision reaches no vendor, the wait for an instance ends, reserved tags
    cannot be overridden, and a sweep terminates exactly the expired instances.

    ** Bounds and fuel

    [Cloud.aws_poll] takes fuel; [waitUntilRunning_terminates] shows that as many
    units as there are clock readings until the deadline are enough.
    [BuildYaml.segments] takes the length of its input, one unit per character.
    [Cascade.cascade_invoker] takes the depth of the nesting;
    [CascadeSpec.cascade_terminates] bounds it.  [Http.decode_with] and
    [Http.compile_with] take the length of their input, one unit per character.
    [Worker.worker_loop] and [Worker.runHeartbeatLoop] take the turns; the code's
    loops end when their signal aborts.  [JsonReader.read_json] takes twice the
    length of its text, and [JsonReader.read_json_stringify] shows that to be
    enough.  [OciPages.read_tags] takes the pages a client follows, one more than
    there are tags.  [OciVirtual.fill_repo] and [RegistryApp.reg_compile_with] take the
    length of their input, one unit per character, as do [Assertions.tokenize],
    [Narrative.extract_blocks], [Narrative.ref_parts] and [Scenario.pieces].
    [Scenario.poll_running] takes the turns of a poll, and
    [ScenarioRuns.poll_enough] shows that one per second and one more are enough.
    [Bundles.levels_from] takes the number of packages, one of which each turn completes;
    [BundlesSpec.dependency_levels_exact] shows that this is enough.
    Times are milliseconds in [Z]; the range of dates is checked where the source
    calls toISOString.  Strings are lists of 8-bit code units.

    ** Not modelled

    Loggers, progress output and stderr lines, which nothing reads back; timers
    (the loops around the ticks, the reaper's interval); opening, migrating and
    closing the database file; the Postgres driver, which repeats the
    repositories over a network client; Azure, OpenTofu, tunnels, the hypervisor
    drivers and the guest client, which invoke vendor tools; sockets; the command
    line and the MCP server around the verbs; disposable machines and their reaper; of the scenario engine its schema and
    loader, the wait for guest agents, the kernel debugger, what the tools of the user
    interface and the browser do in the guest, and the JSON and Markdown reports; of the registry the facades other than OCI and Cargo, cosign, the migrations of its index, and
    the temporary file through which a blob is written.  Concurrent requests are
    interleaved at the granularity of whole verbs, ticks and requests, as sequences of
    steps: closing an upload and provisioning an instance are single steps, although
    the code waits in between.  Reading the store does not fail, as it would once the
    database is closed.  Texts are bytes: what is not UTF-8 in the metadata of a crate
    is kept, where the code would put replacement characters.  Signing a manifest of
    the registry with an inline key is the check of the time and the signature. *)

From Stdlib Require Export Ascii.
From stdpp Require Export base list strings option numbers sorting.

Declare Scope signalman_scope.
Delimit Scope signalman_scope with sm.

(** Boolean string equality, the [===] of the source on strings. *)
Notation "s =?s t" := (bool_decide (s = t :> string)) (at level 70) : signalman_scope.

(** [a ?? b] of the source: the left operand unless it is [null]/[undefined]. *)
Notation "a ?? b" := (match a with Some v => v | None => b end)
  (at level 60, right associativity) : signalman_scope.

Global Open Scope signalman_scope.
Global Open Scope string_scope.
Global Open Scope list_scope.
Global Open Scope Z_scope.

Create HintDb signalman.

(** ** Tactics *)

(** Split a boolean test of the source into its cases. *)
Ltac bool_cases :=
  repeat match goal with
  | H : context [bool_decide ?P] |- _ => destruct (bool_decide_reflect P); simplify_eq/=
  | |- context [bool_decide ?P] => destruct (bool_decide_reflect P); simplify_eq/=
  end.

(** Turn conjunctions of boolean tests in the hypotheses into propositions. *)
Ltac bool_hyps :=
  repeat match goal with
  | H : (_ && _) = true |- _ => apply andb_true_iff in H as [? ?]
  | H : negb _ = true |- _ => apply negb_true_iff in H
  | H : negb _ = false |- _ => apply negb_false_iff in H
  | H : bool_decide _ = true |- _ => apply bool_decide_eq_true_1 in H
  | H : bool_decide _ = false |- _ => apply bool_decide_eq_false_1 in H
  end.

(** ** Strings *)

(** The order SQLite's BINARY collation and JavaScript's [<] use on these
    strings: bytewise lexicographic. *)
Definition str_leb (a b : string) : bool := String.leb a b.
Definition str_ltb (a b : string) : bool := negb (String.leb b a).

Lemma str_leb_le a b : str_leb a b = true ↔ String.le a b.
Proof. unfold str_leb, String.le. by destruct (String.leb a b). Qed.

Lemma str_leb_refl a : str_leb a a = true.
Proof. by apply str_leb_le. Qed.

Lemma str_leb_trans a b c : str_leb a b = true → str_leb b c = true → str_leb a c = true.
Proof. rewrite !str_leb_le. intros; by etrans. Qed.

Lemma str_leb_total a b : str_leb a b = true ∨ str_leb b a = true.
Proof. rewrite !str_leb_le. apply (total String.le). Qed.

Lemma str_leb_antisym a b : str_leb a b = true → str_leb b a = true → a = b.
Proof. rewrite !str_leb_le. intros. by apply (anti_symm String.le). Qed.

Lemma str_leb_false a b : str_leb a b = false → str_leb b a = true.
Proof. destruct (str_leb_total a b) as [H|H]; congruence. Qed.

Lemma str_ltb_irrefl a : str_ltb a a = false.
Proof. unfold str_ltb. by rewrite (str_leb_refl a : String.leb a a = true). Qed.

(** ** Stable sorting, the ORDER BY of the queries *)

Section order_by.
Context {R : Type} (le : R → R → bool).

Fixpoint insert_sorted (x : R) (l : list R) : list R :=
  match l with
  | [] => [x]
  | y :: l' => if le x y then x :: y :: l' else y :: insert_sorted x l'
  end.

(** Insertion sort; elements that compare equal keep their order. *)
Fixpoint order_by (l : list R) : list R :=
  match l with
  | [] => []
  | x :: l' => insert_sorted x (order_by l')
  end.

Lemma insert_sorted_perm x l : insert_sorted x l ≡ₚ x :: l.
Proof.
  induction l as [|y l IH]; simpl; [done|].
  destruct (le x y); [done|]. rewrite IH. apply Permutation_swap.
Qed.

Lemma order_by_perm l : order_by l ≡ₚ l.
Proof. induction l as [|x l IH]; simpl; [done|]. by rewrite insert_sorted_perm, IH. Qed.

Lemma order_by_elem x l : x ∈ order_by l ↔ x ∈ l.
Proof. by rewrite order_by_perm. Qed.

Lemma order_by_length l : length (order_by l) = length l.
Proof. by rewrite order_by_perm. Qed.

Lemma order_by_nil l : order_by l = [] → l = [].
Proof. intros H. apply Permutation_nil. by rewrite <- H, order_by_perm. Qed.

Context (le_total : ∀ x y, le x y = true ∨ le y x = true).
Context (le_trans : ∀ x y z, le x y = true → le y z = true → le x z = true).

Lemma insert_sorted_StronglySorted x l :
  StronglySorted (λ a b, le a b = true) l →
  StronglySorted (λ a b, le a b = true) (insert_sorted x l).
Proof.
  induction 1 as [|y l Hs IH Hall]; simpl; [by repeat constructor|].
  destruct (le x y) eqn:E.
  - constructor; [by constructor|]. constructor; [done|].
    eapply Forall_impl; [done|]. simpl. eauto.
  - constructor; [done|]. rewrite insert_sorted_perm. constructor; [|done].
    destruct (le_total x y); congruence.
Qed.

Lemma order_by_StronglySorted l : StronglySorted (λ a b, le a b = true) (order_by l).
Proof.
  induction l as [|x l IH]; simpl; [constructor|]. by apply insert_sorted_StronglySorted.
Qed.

Lemma order_by_head_min l x l' :
  order_by l = x :: l' → ∀ y, y ∈ l → le x y = true.
Proof.
  intros E y Hy. rewrite <- order_by_elem, E in Hy.
  pose proof (order_by_StronglySorted l) as Hs. rewrite E in Hs.
  apply StronglySorted_cons in Hs as [Hall _].
  apply elem_of_cons in Hy as [->|Hy]; [|by rewrite Forall_forall in Hall; apply Hall].
  by destruct (le_total x x).
Qed.
End order_by.

(** ORDER BY a text column, ascending and descending. *)
Definition order_asc {R} (key : R → string) : list R → list R :=
  order_by (λ a b, str_leb (key a) (key b)).
Definition order_desc {R} (key : R → string) : list R → list R :=
  order_by (λ a b, str_leb (key b) (key a)).

Lemma order_asc_elem {R} (key : R → string) x l : x ∈ order_asc key l ↔ x ∈ l.
Proof. apply order_by_elem. Qed.
Lemma order_desc_elem {R} (key : R → string) x l : x ∈ order_desc key l ↔ x ∈ l.
Proof. apply order_by_elem. Qed.

Lemma order_asc_head_min {R} (key : R → string) l x l' :
  order_asc key l = x :: l' → ∀ y, y ∈ l → str_leb (key x) (key y) = true.
Proof.
  apply order_by_head_min; [intros; apply str_leb_total|intros; by eapply str_leb_trans].
Qed.

Lemma order_desc_head_max {R} (key : R → string) l x l' :
  order_desc key l = x :: l' → ∀ y, y ∈ l → str_leb (key y) (key x) = true.
Proof.
  apply (order_by_head_min (λ a b, str_leb (key b) (key a)));
    [intros; apply str_leb_total|intros; by eapply str_leb_trans].
Qed.

(** ** First match, conditional update *)

(** The first row that satisfies a test. *)
Fixpoint find_first {R} (p : R → bool) (l : list R) : option R :=
  match l with
  | [] => None
  | x :: l' => if p x then Some x else find_first p l'
  end.

Lemma find_first_Some {R} (p : R → bool) l x :
  find_first p l = Some x → x ∈ l ∧ p x = true.
Proof.
  induction l as [|y l IH]; simpl; [done|]. case_match; intros; simplify_eq.
  - split; [left|done].
  - destruct IH; [done|]. split; [by right|done].
Qed.

Lemma find_first_None {R} (p : R → bool) l :
  find_first p l = None ↔ ∀ x, x ∈ l → p x = false.
Proof.
  induction l as [|y l IH]; simpl.
  - split; [intros _ x Hx; by apply elem_of_nil in Hx|done].
  - destruct (p y) eqn:E.
    + split; [done|]. intros H. specialize (H y (list_elem_of_here _ _)). congruence.
    + rewrite IH. split.
      * intros H x [->|Hx]%elem_of_cons; auto.
      * intros H x Hx. apply H. by right.
Qed.

Lemma find_first_is_Some {R} (p : R → bool) l x :
  x ∈ l → p x = true → is_Some (find_first p l).
Proof.
  intros Hx Hp. destruct (find_first p l) eqn:E; [by eexists|].
  rewrite find_first_None in E. rewrite (E x Hx) in Hp. done.
Qed.

Lemma find_first_unique {R} (p : R → bool) l x :
  x ∈ l → p x = true → (∀ y, y ∈ l → p y = true → y = x) → find_first p l = Some x.
Proof.
  intros Hx Hp Hu. destruct (find_first_is_Some p l x Hx Hp) as [y Hy]. rewrite Hy. f_equal.
  apply find_first_Some in Hy as [? ?]. auto.
Qed.

Lemma find_first_app {R} (p : R → bool) l1 l2 :
  find_first p (l1 ++ l2) =
  match find_first p l1 with Some x => Some x | None => find_first p l2 end.
Proof. induction l1 as [|x l1 IH]; simpl; [done|]. by destruct (p x). Qed.

(** [filter] with a boolean test. *)
Fixpoint select {R} (p : R → bool) (l : list R) : list R :=
  match l with
  | [] => []
  | x :: l' => if p x then x :: select p l' else select p l'
  end.

Lemma select_elem {R} (p : R → bool) l x : x ∈ select p l ↔ x ∈ l ∧ p x = true.
Proof.
  induction l as [|y l IH]; simpl; [split; [intros []%elem_of_nil|intros [[]%elem_of_nil _]]|].
  destruct (p y) eqn:E; rewrite ?elem_of_cons, IH.
  - split; [intros [->|[? ?]]; auto|intros [[->|?] ?]; auto].
  - split; [intros [? ?]; auto|intros [[->|?] ?]; [congruence|auto]].
Qed.

Lemma select_app {R} (p : R → bool) l1 l2 : select p (l1 ++ l2) = select p l1 ++ select p l2.
Proof. induction l1 as [|x l1 IH]; simpl; [done|]. case_match; simpl; congruence. Qed.

Lemma select_length {R} (p : R → bool) l : (length (select p l) ≤ length l)%nat.
Proof. induction l as [|x l IH]; simpl; [lia|]. destruct (p x); simpl; lia. Qed.

Lemma select_nil {R} (p : R → bool) l : (∀ x, x ∈ l → p x = false) → select p l = [].
Proof.
  induction l as [|x l IH]; simpl; [done|]. intros H.
  rewrite (H x (list_elem_of_here _ _)). apply IH. intros y Hy. apply H. by right.
Qed.

Lemma select_select {R} (p q : R → bool) l : select p (select q l) = select (λ x, q x && p x) l.
Proof. induction l as [|x l IH]; simpl; [done|]. destruct (q x); simpl; by rewrite IH. Qed.

Lemma select_ext {R} (p q : R → bool) l : (∀ x, x ∈ l → p x = q x) → select p l = select q l.
Proof.
  induction l as [|x l IH]; simpl; [done|]. intros H.
  rewrite (H x (list_elem_of_here _ _)), IH; [done|]. intros y Hy. apply H. by right.
Qed.

Lemma select_all {R} (p : R → bool) l : (∀ x, x ∈ l → p x = true) → select p l = l.
Proof.
  induction l as [|x l IH]; simpl; [done|]. intros H.
  rewrite (H x (list_elem_of_here _ _)). f_equal. apply IH. intros y Hy. apply H. by right.
Qed.

Lemma select_NoDup_fmap {A B} (f : A → B) p (l : list A) :
  NoDup (f <$> l) → NoDup (f <$> select p l).
Proof.
  induction l as [|x l IH]; csimpl; [done|]. intros [Hx Hn]%NoDup_cons.
  destruct (p x); csimpl; [|auto]. apply NoDup_cons. split; [|auto].
  intros (y & E & [Hy _]%select_elem)%list_elem_of_fmap. apply Hx. rewrite E.
  by apply list_elem_of_fmap_2.
Qed.

(** Sorting commutes with filtering: a stable sort only moves rows. *)
Section select_sorted.
Context {R : Type} (le : R → R → bool).
Context (le_total : ∀ x y, le x y = true ∨ le y x = true).
Context (le_trans : ∀ x y z, le x y = true → le y z = true → le x z = true).

Lemma insert_sorted_front x l : (∀ y, y ∈ l → le x y = true) → insert_sorted le x l = x :: l.
Proof. destruct l as [|y l]; simpl; [done|]. intros H. by rewrite H by left. Qed.

Lemma select_insert_sorted p x l :
  StronglySorted (λ a b, le a b = true) l →
  select p (insert_sorted le x l) =
  if p x then insert_sorted le x (select p l) else select p l.
Proof.
  induction 1 as [|y l Hs IH Hall]; simpl; [done|].
  destruct (le x y) eqn:E; simpl.
  - destruct (p x) eqn:Ex; [|done]. rewrite <- (insert_sorted_front x); [by destruct (p y)|].
    rewrite Forall_forall in Hall. intros z Hz.
    assert (Hz' : z ∈ select p (y :: l)) by (simpl; by destruct (p y)).
    apply select_elem in Hz' as [[->|Hz']%elem_of_cons _]; [done|]. by eapply le_trans, Hall.
  - rewrite IH. destruct (p y) eqn:Ey, (p x) eqn:Ex; simpl; rewrite ?E; done.
Qed.

Lemma select_order_by p l : select p (order_by le l) = order_by le (select p l).
Proof.
  induction l as [|x l IH]; simpl; [done|].
  rewrite select_insert_sorted by (by apply order_by_StronglySorted). rewrite IH.
  by destruct (p x).
Qed.
End select_sorted.

Lemma select_order_asc {R} (key : R → string) p l :
  select p (order_asc key l) = order_asc key (select p l).
Proof.
  apply select_order_by; [intros; apply str_leb_total|intros; by eapply str_leb_trans].
Qed.

(** The rows that satisfy [p] replaced by [f row]. *)
Definition update_where {R} (p : R → bool) (f : R → R) (l : list R) : list R :=
  map (λ r, if p r then f r else r) l.

Lemma update_where_elem {R} (p : R → bool) f (l : list R) x :
  x ∈ update_where p f l ↔
  (∃ y, y ∈ l ∧ p y = true ∧ x = f y) ∨ (x ∈ l ∧ p x = false).
Proof.
  unfold update_where. rewrite list_elem_of_fmap. split.
  - intros (y & -> & Hy). destruct (p y) eqn:E; naive_solver.
  - intros [(y & Hy & Hp & ->)|[Hx Hp]].
    + exists y. by rewrite Hp.
    + exists x. by rewrite Hp.
Qed.

Lemma update_where_none {R} (p : R → bool) f (l : list R) :
  (∀ x, x ∈ l → p x = false) → update_where p f l = l.
Proof.
  induction l as [|x l IH]; simpl; [done|]. intros H.
  rewrite (H x (list_elem_of_here _ _)). f_equal. apply IH. intros y Hy. apply H. by right.
Qed.

(** A test that fails on every rewritten row. *)
Lemma select_update_where {R} (p q : R → bool) f (l : list R) :
  (∀ x, x ∈ l → q x = true → p (f x) = false) →
  select p (update_where q f l) = select (λ x, p x && negb (q x)) l.
Proof.
  induction l as [|x l IH]; simpl; [done|]. intros H.
  rewrite IH by (intros y Hy; apply H; by right).
  destruct (q x) eqn:E; [rewrite H by (done || left)|]; rewrite ?andb_false_r, ?andb_true_r; done.
Qed.

Lemma update_where_length {R} (p : R → bool) f (l : list R) :
  length (update_where p f l) = length l.
Proof. apply length_fmap. Qed.

(** ** Concatenation of strings *)

Lemma str_app_cons c (a b : string) : String c a +:+ b = String c (a +:+ b).
Proof. reflexivity. Qed.

Lemma str_app_nil_r (s : string) : s +:+ "" = s.
Proof. induction s as [|c s IH]; [done|]. by rewrite str_app_cons, IH. Qed.

Lemma str_app_assoc (a b c : string) : a +:+ (b +:+ c) = (a +:+ b) +:+ c.
Proof. induction a as [|x a IH]; [done|]. by rewrite !str_app_cons, IH. Qed.

Lemma str_app_length (a b : string) :
  String.length (a +:+ b) = (String.length a + String.length b)%nat.
Proof. induction a as [|x a IH]; [done|]. rewrite str_app_cons. simpl. by rewrite IH. Qed.

(** ** Nulls, limits, substrings *)

(** [x IS NULL]. *)
Definition is_null {A} (o : option A) : bool := match o with None => true | Some _ => false end.

(** [a ?? b] when both sides may be null. *)
Definition coalesce {A} (a b : option A) : option A := match a with Some v => Some v | None => b end.

(** A string option used as a condition: the empty string is false. *)
Definition truthy (o : option string) : option string :=
  match o with Some s => if s =?s "" then None else Some s | None => None end.

(** LIMIT n; a negative limit is no limit. *)
Definition sql_limit {A} (n : Z) (l : list A) : list A :=
  if n <? 0 then l else take (Z.to_nat n) l.

Lemma sql_limit_sub {A} n (l : list A) x : x ∈ sql_limit n l → x ∈ l.
Proof.
  unfold sql_limit. case_match; [done|]. intros Hx.
  rewrite <- (take_drop (Z.to_nat n) l). apply elem_of_app. by left.
Qed.

Lemma sql_limit_nonneg {A} n (l : list A) : 0 ≤ n → sql_limit n l = take (Z.to_nat n) l.
Proof. intros. unfold sql_limit. destruct (Z.ltb_spec n 0); [lia|done]. Qed.

(** [s.startsWith(p)]. *)
Fixpoint starts_with (p s : string) : bool :=
  match p, s with
  | EmptyString, _ => true
  | String a p', String b s' => bool_decide (a = b) && starts_with p' s'
  | _, _ => false
  end.

Lemma starts_with_app p s : starts_with p (p +:+ s) = true.
Proof.
  induction p as [|c p IH]; [done|]. rewrite str_app_cons. simpl. by rewrite bool_decide_eq_true_2.
Qed.

Lemma substring_whole (s : string) : String.substring 0 (String.length s) s = s.
Proof. induction s as [|c s IH]; simpl; congruence. Qed.

(** [s.includes(p)]. *)
Fixpoint str_includes (s p : string) : bool :=
  starts_with p s ||
  match s with
  | EmptyString => false
  | String _ s' => str_includes s' p
  end.

#[export] Hint Resolve str_leb_refl : signalman.
