(* ===== verification/JsTime.v ===== *)
(** JavaScript dates.  The control plane stores every instant as the text that
    [Date.prototype.toISOString] prints, compares those texts in SQL, and reads
    them back with [Date.parse].  This file defines the calendar functions of
    the language on millisecond time values (the day, year and month functions
    of the ECMAScript specification), the printer and the parser, and proves
    the two facts the rest of the system depends on: printing and parsing round
    trip, and the order of the texts is the order of the instants. *)

From S2P Require Import Prelude.

#[local] Ltac Zify.zify_post_hook ::= Z.to_euclidean_division_equations.

(** ** Calendar *)

Definition msPerDay : Z := 86400000.

Definition DayFromYear (y : Z) : Z :=
  365 * (y - 1970) + (y - 1969) / 4 - (y - 1901) / 100 + (y - 1601) / 400.

(** 1 in a leap year, 0 otherwise. *)
Definition InLeapYear (y : Z) : Z := DayFromYear (y + 1) - DayFromYear y - 365.

(** The year that contains day [d]: an estimate from the mean year length,
    corrected by at most one. *)
Definition YearFromDay (d : Z) : Z :=
  let y := 1970 + d * 400 / 146097 in
  if d <? DayFromYear y then y - 1
  else if DayFromYear (y + 1) <=? d then y + 1 else y.

(** First day (0-based, within the year) of month [m], for [0 ≤ m ≤ 12]. *)
Definition month_start (leap m : Z) : Z :=
  match m with
  | 0 => 0 | 1 => 31 | 2 => 59 + leap | 3 => 90 + leap | 4 => 120 + leap
  | 5 => 151 + leap | 6 => 181 + leap | 7 => 212 + leap | 8 => 243 + leap
  | 9 => 273 + leap | 10 => 304 + leap | 11 => 334 + leap | _ => 365 + leap
  end.

Definition month_of (leap d : Z) : Z :=
  if d <? 31 then 0 else if d <? 59 + leap then 1 else if d <? 90 + leap then 2
  else if d <? 120 + leap then 3 else if d <? 151 + leap then 4
  else if d <? 181 + leap then 5 else if d <? 212 + leap then 6
  else if d <? 243 + leap then 7 else if d <? 273 + leap then 8
  else if d <? 304 + leap then 9 else if d <? 334 + leap then 10 else 11.

Definition getUTCFullYear (t : Z) : Z := YearFromDay (t / msPerDay).
Definition dayWithinYear (t : Z) : Z := t / msPerDay - DayFromYear (getUTCFullYear t).
Definition getUTCMonth (t : Z) : Z := month_of (InLeapYear (getUTCFullYear t)) (dayWithinYear t).
Definition getUTCDate (t : Z) : Z :=
  dayWithinYear t - month_start (InLeapYear (getUTCFullYear t)) (getUTCMonth t) + 1.
Definition getUTCHours (t : Z) : Z := (t mod msPerDay) / 3600000.
Definition getUTCMinutes (t : Z) : Z := (t mod 3600000) / 60000.
Definition getUTCSeconds (t : Z) : Z := (t mod 60000) / 1000.
Definition getUTCMilliseconds (t : Z) : Z := t mod 1000.

(** [Date.UTC(year, month, 1, 0, 0, 0, 0)]: months outside 0..11 carry into the
    year, and years 0..99 mean 1900..1999. *)
Definition Date_UTC (year month : Z) : Z :=
  let year := if (0 <=? year) && (year <=? 99) then 1900 + year else year in
  let ym := year + month / 12 in
  (DayFromYear ym + month_start (InLeapYear ym) (month mod 12)) * msPerDay.

(** ** Printing and parsing *)

Definition digit_char (n : Z) : ascii := ascii_of_nat (48 + Z.to_nat n).

(** The [k] low decimal digits of [n], leading zeros kept. *)
Fixpoint dec (k : nat) (n : Z) : string :=
  match k with
  | O => ""
  | S k' => String (digit_char ((n / 10 ^ Z.of_nat k') mod 10)) (dec k' n)
  end.

Definition iso_year (y : Z) : string :=
  if (0 <=? y) && (y <=? 9999) then dec 4 y
  else if y <? 0 then "-" +:+ dec 6 (- y) else "+" +:+ dec 6 y.

(** [new Date(t).toISOString()] for a valid time value. *)
Definition toISOString (t : Z) : string :=
  iso_year (getUTCFullYear t) +:+ String "-" (dec 2 (getUTCMonth t + 1) +:+
  String "-" (dec 2 (getUTCDate t) +:+ String "T" (dec 2 (getUTCHours t) +:+
  String ":" (dec 2 (getUTCMinutes t) +:+ String ":" (dec 2 (getUTCSeconds t) +:+
  String "." (dec 3 (getUTCMilliseconds t) +:+ "Z")))))).

(** A computed date may lie outside the range of time values; [toISOString]
    then throws a RangeError. *)
Definition toISOString_checked (t : Z) : option string :=
  if Z.abs t <=? 8640000000000000 then Some (toISOString t) else None.

Definition char_digit (c : ascii) : option Z :=
  let n := nat_of_ascii c in
  if ((48 <=? n) && (n <=? 57))%nat then Some (Z.of_nat (n - 48)) else None.

Fixpoint parse_dec (k : nat) (acc : Z) (s : string) : option (Z * string) :=
  match k with
  | O => Some (acc, s)
  | S k' =>
    match s with
    | String c s' =>
      match char_digit c with
      | Some v => parse_dec k' (10 * acc + v) s'
      | None => None
      end
    | EmptyString => None
    end
  end.

Definition expect (c : ascii) (s : string) : option string :=
  match s with
  | String c' s' => if bool_decide (c = c') then Some s' else None
  | EmptyString => None
  end.

(** The instant a text of the form YYYY-MM-DDTHH:mm:ss.sssZ denotes. *)
Definition iso_candidate (s : string) : option Z :=
  '(y, s) ← parse_dec 4 0 s; s ← expect "-" s;
  '(mo, s) ← parse_dec 2 0 s; s ← expect "-" s;
  '(d, s) ← parse_dec 2 0 s; s ← expect "T" s;
  '(h, s) ← parse_dec 2 0 s; s ← expect ":" s;
  '(mi, s) ← parse_dec 2 0 s; s ← expect ":" s;
  '(sec, s) ← parse_dec 2 0 s; s ← expect "." s;
  '(ms, s) ← parse_dec 3 0 s; s ← expect "Z" s;
  if bool_decide (s = "") then
    Some ((DayFromYear y + month_start (InLeapYear y) (mo - 1) + (d - 1)) * msPerDay
          + h * 3600000 + mi * 60000 + sec * 1000 + ms)
  else None.

(** [Date.parse].  On the texts [toISOString] prints the language fixes the
    result; every other text is up to the engine, which is the argument
    [legacy] ([None] is NaN). *)
Definition Date_parse (legacy : string → option Z) (s : string) : option Z :=
  match iso_candidate s with
  | Some t => if bool_decide (toISOString t = s) then Some t else legacy s
  | None => legacy s
  end.

(** The instants whose year prints with four digits. *)
Definition iso_range (t : Z) : Prop := 0 ≤ getUTCFullYear t ≤ 9999.

(** ** Calendar facts *)

Lemma DayFromYear_step y : 365 ≤ DayFromYear (y + 1) - DayFromYear y ≤ 366.
Proof. unfold DayFromYear. lia. Qed.

Lemma InLeapYear_01 y : 0 ≤ InLeapYear y ≤ 1.
Proof. unfold InLeapYear. pose proof (DayFromYear_step y). lia. Qed.

Lemma DayFromYear_mono y1 y2 : y1 < y2 → DayFromYear (y1 + 1) ≤ DayFromYear y2.
Proof. unfold DayFromYear. lia. Qed.

Lemma YearFromDay_spec d :
  DayFromYear (YearFromDay d) ≤ d < DayFromYear (YearFromDay d + 1).
Proof.
  unfold YearFromDay.
  assert (Hlo : DayFromYear (1970 + d * 400 / 146097 - 1) ≤ d) by (unfold DayFromYear; lia).
  assert (Hhi : d < DayFromYear (1970 + d * 400 / 146097 + 2)) by (unfold DayFromYear; lia).
  set (y := 1970 + d * 400 / 146097) in *. clearbody y.
  destruct (Z.ltb_spec d (DayFromYear y)) as [H|H].
  - replace (y - 1 + 1) with y by lia. lia.
  - destruct (Z.leb_spec (DayFromYear (y + 1)) d); [|lia].
    replace (y + 1 + 1) with (y + 2) by lia. lia.
Qed.

Lemma YearFromDay_unique d y : DayFromYear y ≤ d < DayFromYear (y + 1) → YearFromDay d = y.
Proof.
  intros H. pose proof (YearFromDay_spec d) as H'.
  destruct (Z.lt_trichotomy (YearFromDay d) y) as [L|[E|L]]; [|done|];
    apply DayFromYear_mono in L; lia.
Qed.

Lemma dayWithinYear_range t :
  0 ≤ dayWithinYear t < 365 + InLeapYear (getUTCFullYear t).
Proof.
  unfold dayWithinYear, getUTCFullYear, InLeapYear.
  pose proof (YearFromDay_spec (t / msPerDay)). lia.
Qed.

Lemma month_of_range leap d : 0 ≤ month_of leap d ≤ 11.
Proof.
  unfold month_of.
  repeat match goal with |- context [if ?b then _ else _] => destruct b end; lia.
Qed.

Ltac month_cases :=
  repeat match goal with
  | |- context [Z.ltb ?a ?b] => destruct (Z.ltb_spec a b)
  end; simpl; try lia.

Lemma month_of_spec leap d : 0 ≤ leap ≤ 1 → 0 ≤ d < 365 + leap →
  month_start leap (month_of leap d) ≤ d < month_start leap (month_of leap d + 1).
Proof. intros. unfold month_of. month_cases. Qed.

Lemma month_start_mono leap m1 m2 : 0 ≤ leap ≤ 1 → 0 ≤ m1 → m1 < m2 → m2 ≤ 12 →
  month_start leap (m1 + 1) ≤ month_start leap m2.
Proof.
  intros Hl H1 H2 H3.
  assert (m1 = 0 ∨ m1 = 1 ∨ m1 = 2 ∨ m1 = 3 ∨ m1 = 4 ∨ m1 = 5 ∨ m1 = 6 ∨ m1 = 7
          ∨ m1 = 8 ∨ m1 = 9 ∨ m1 = 10 ∨ m1 = 11) as Hm by lia.
  assert (m2 = 1 ∨ m2 = 2 ∨ m2 = 3 ∨ m2 = 4 ∨ m2 = 5 ∨ m2 = 6 ∨ m2 = 7
          ∨ m2 = 8 ∨ m2 = 9 ∨ m2 = 10 ∨ m2 = 11 ∨ m2 = 12) as Hm' by lia.
  repeat destruct Hm as [->|Hm]; try subst m1;
    repeat destruct Hm' as [->|Hm']; try subst m2; simpl; lia.
Qed.

Lemma month_of_unique leap d m : 0 ≤ leap ≤ 1 → 0 ≤ m ≤ 11 →
  month_start leap m ≤ d < month_start leap (m + 1) → month_of leap d = m.
Proof.
  intros Hl Hm H.
  assert (0 ≤ d < 365 + leap) as Hd.
  { assert (m = 0 ∨ m = 1 ∨ m = 2 ∨ m = 3 ∨ m = 4 ∨ m = 5 ∨ m = 6 ∨ m = 7
          ∨ m = 8 ∨ m = 9 ∨ m = 10 ∨ m = 11) as Hm' by lia.
    repeat destruct Hm' as [->|Hm']; try subst m; simpl in H; lia. }
  pose proof (month_of_spec leap d Hl Hd). pose proof (month_of_range leap d).
  destruct (Z.lt_trichotomy (month_of leap d) m) as [L|[E|L]]; [|done|];
    (apply (month_start_mono leap) in L; lia).
Qed.

Lemma getUTCMonth_range t : 0 ≤ getUTCMonth t ≤ 11.
Proof. apply month_of_range. Qed.

Lemma getUTCMonth_spec t : let leap := InLeapYear (getUTCFullYear t) in
  month_start leap (getUTCMonth t) ≤ dayWithinYear t < month_start leap (getUTCMonth t + 1).
Proof. simpl. apply month_of_spec; [apply InLeapYear_01|apply dayWithinYear_range]. Qed.

Lemma getUTCDate_range t : 1 ≤ getUTCDate t ≤ 31.
Proof.
  pose proof (getUTCMonth_spec t) as H. pose proof (getUTCMonth_range t) as Hm. simpl in H.
  pose proof (InLeapYear_01 (getUTCFullYear t)) as Hl.
  unfold getUTCDate. set (m := getUTCMonth t) in *. clearbody m.
  assert (m = 0 ∨ m = 1 ∨ m = 2 ∨ m = 3 ∨ m = 4 ∨ m = 5 ∨ m = 6 ∨ m = 7
          ∨ m = 8 ∨ m = 9 ∨ m = 10 ∨ m = 11) as Hm' by lia.
  repeat destruct Hm' as [->|Hm']; try subst m; simpl in *; lia.
Qed.

(** The fields determine the instant. *)
Lemma fields_instant t :
  (DayFromYear (getUTCFullYear t)
     + month_start (InLeapYear (getUTCFullYear t)) (getUTCMonth t)
     + (getUTCDate t - 1)) * msPerDay
  + getUTCHours t * 3600000 + getUTCMinutes t * 60000 + getUTCSeconds t * 1000
  + getUTCMilliseconds t = t.
Proof.
  unfold getUTCDate, dayWithinYear.
  set (m := month_start _ _). set (y := DayFromYear _). clearbody m y.
  unfold getUTCHours, getUTCMinutes, getUTCSeconds, getUTCMilliseconds, msPerDay. lia.
Qed.

(** ** Round trip of the text form *)

Lemma digit_char_parse n : 0 ≤ n < 10 → char_digit (digit_char n) = Some n.
Proof.
  intros H. assert (n = 0 ∨ n = 1 ∨ n = 2 ∨ n = 3 ∨ n = 4 ∨ n = 5 ∨ n = 6 ∨ n = 7
    ∨ n = 8 ∨ n = 9) as Hn by lia.
  by repeat destruct Hn as [->|Hn]; try subst n.
Qed.

Lemma append_cons c s t : (String c s +:+ t) = String c (s +:+ t).
Proof. done. Qed.

Lemma parse_dec_dec k n acc s :
  parse_dec k acc (dec k n +:+ s) = Some (acc * 10 ^ Z.of_nat k + n mod 10 ^ Z.of_nat k, s).
Proof.
  revert acc. induction k as [|k IH]; intros acc.
  - simpl. by rewrite Z.mod_1_r, Z.mul_1_r, Z.add_0_r.
  - cbn [dec]. rewrite append_cons. cbn [parse_dec]. rewrite digit_char_parse by (apply Z.mod_pos_bound; lia). rewrite IH. do 2 f_equal.
    replace (Z.of_nat (S k)) with (Z.of_nat k + 1) by lia.
    rewrite Z.pow_add_r, Z.pow_1_r by lia.
    rewrite Z.rem_mul_r by lia. ring.
Qed.

Lemma parse_dec_exact k n s : 0 ≤ n < 10 ^ Z.of_nat k →
  parse_dec k 0 (dec k n +:+ s) = Some (n, s).
Proof. intros H. rewrite parse_dec_dec, Z.mod_small by done. by rewrite Z.mul_0_l. Qed.

Lemma expect_head c s : expect c (String c s) = Some s.
Proof. unfold expect. by rewrite bool_decide_eq_true_2. Qed.

Lemma time_fields_range t :
  0 ≤ getUTCHours t < 100 ∧ 0 ≤ getUTCMinutes t < 100 ∧
  0 ≤ getUTCSeconds t < 100 ∧ 0 ≤ getUTCMilliseconds t < 1000.
Proof.
  unfold getUTCHours, getUTCMinutes, getUTCSeconds, getUTCMilliseconds, msPerDay.
  repeat split; lia.
Qed.

Lemma iso_candidate_toISOString t : iso_range t → iso_candidate (toISOString t) = Some t.
Proof.
  intros Hy. unfold iso_range in Hy. unfold toISOString, iso_year, iso_candidate.
  rewrite (proj2 (andb_true_iff _ _)) by (split; apply Z.leb_le; lia).
  pose proof (getUTCMonth_range t). pose proof (getUTCDate_range t).
  pose proof (time_fields_range t) as (?&?&?&?).
  rewrite (parse_dec_exact 4) by (change (10 ^ Z.of_nat 4) with 10000; lia).
  cbn [mbind option_bind]. rewrite expect_head. cbn [mbind option_bind].
  do 5 (rewrite (parse_dec_exact 2) by (change (10 ^ Z.of_nat 2) with 100; lia);
    cbn [mbind option_bind]; rewrite expect_head; cbn [mbind option_bind]).
  rewrite (parse_dec_exact 3) by (change (10 ^ Z.of_nat 3) with 1000; lia).
  cbn [mbind option_bind]. rewrite expect_head. cbn [mbind option_bind].
  rewrite Z.add_simpl_r. cbn [bool_decide decide_rel]. f_equal. apply fields_instant.
Qed.

Lemma Date_parse_toISOString legacy t :
  iso_range t → Date_parse legacy (toISOString t) = Some t.
Proof.
  intros Hy. unfold Date_parse. rewrite iso_candidate_toISOString by done.
  by rewrite bool_decide_eq_true_2.
Qed.

Lemma toISOString_inj t1 t2 :
  iso_range t1 → iso_range t2 → toISOString t1 = toISOString t2 → t1 = t2.
Proof.
  intros H1 H2 E. apply (f_equal iso_candidate) in E.
  rewrite !iso_candidate_toISOString in E by done. congruence.
Qed.

(** The instants from 0000-01-01 up to and excluding 10000-01-01. *)
Lemma iso_range_bounds t : iso_range t ↔ -62167219200000 ≤ t < 253402300800000.
Proof.
  unfold iso_range, getUTCFullYear. pose proof (YearFromDay_spec (t / msPerDay)) as H.
  set (y := YearFromDay (t / msPerDay)) in *. clearbody y.
  assert (D0 : DayFromYear 0 = -719528) by done.
  assert (D1 : DayFromYear 10000 = 2932897) by done.
  unfold msPerDay in *. split; intros H'.
  - assert (DayFromYear 0 ≤ DayFromYear y ∧ DayFromYear (y + 1) ≤ DayFromYear 10000)
      by (unfold DayFromYear; lia). lia.
  - assert (-719528 ≤ t / 86400000 < 2932897) by lia.
    split; apply Z.nlt_ge; intros L; apply DayFromYear_mono in L.
    + rewrite D0 in L. lia.
    + assert (DayFromYear (9999 + 1) = 2932897) by done. lia.
Qed.

(** ** Order of the text form *)

(** Lexicographic composition of comparisons. *)
Definition lex (c1 c2 : comparison) : comparison :=
  match c1 with Eq => c2 | _ => c1 end.

Lemma lex_assoc a b c : lex (lex a b) c = lex a (lex b c).
Proof. by destruct a. Qed.

(** Two numbers that lie in ordered buckets compare by bucket, then by offset. *)
Lemma compare_bucket (start : Z → Z) q1 q2 x1 x2 :
  (q1 < q2 → x1 < x2) → (q2 < q1 → x2 < x1) →
  (x1 ?= x2) = lex (q1 ?= q2) (x1 - start q1 ?= x2 - start q2).
Proof.
  intros L R. destruct (Z.compare_spec q1 q2) as [->|H|H]; simpl.
  - rewrite <- !Z.add_opp_r, !(Z.add_comm _ (- start q2)). symmetry. apply Z.add_compare_mono_l.
  - apply Z.compare_lt_iff. auto.
  - apply Z.compare_gt_iff. auto.
Qed.

Lemma compare_div_mod K x1 x2 : 0 < K →
  (x1 ?= x2) = lex (x1 / K ?= x2 / K) (x1 mod K ?= x2 mod K).
Proof.
  intros HK. rewrite !Z.mod_eq by lia.
  rewrite (compare_bucket (λ q, K * q) (x1 / K) (x2 / K)); [done|nia|nia].
Qed.

Lemma digit_char_compare a b : 0 ≤ a < 10 → 0 ≤ b < 10 →
  Ascii.compare (digit_char a) (digit_char b) = (a ?= b).
Proof.
  intros Ha Hb. unfold Ascii.compare, digit_char, N_of_ascii.
  assert (a = 0 ∨ a = 1 ∨ a = 2 ∨ a = 3 ∨ a = 4 ∨ a = 5 ∨ a = 6 ∨ a = 7
    ∨ a = 8 ∨ a = 9) as Hn by lia.
  assert (b = 0 ∨ b = 1 ∨ b = 2 ∨ b = 3 ∨ b = 4 ∨ b = 5 ∨ b = 6 ∨ b = 7
    ∨ b = 8 ∨ b = 9) as Hm by lia.
  by repeat destruct Hn as [->|Hn]; try subst a; repeat destruct Hm as [->|Hm]; try subst b.
Qed.

Lemma compare_cons a b x y :
  String.compare (String a x) (String b y) = lex (Ascii.compare a b) (String.compare x y).
Proof. cbn. by destruct (Ascii.compare a b). Qed.

Lemma compare_same c x y : String.compare (String c x) (String c y) = String.compare x y.
Proof.
  rewrite compare_cons. unfold Ascii.compare. by rewrite N.compare_refl.
Qed.

Lemma compare_dec k n m s t :
  String.compare (dec k n +:+ s) (dec k m +:+ t) =
  lex (n mod 10 ^ Z.of_nat k ?= m mod 10 ^ Z.of_nat k) (String.compare s t).
Proof.
  induction k as [|k IH]; cbn [dec].
  - simpl. by rewrite !Z.mod_1_r.
  - replace (Z.of_nat (S k)) with (Z.of_nat k + 1) by lia.
    rewrite Z.pow_add_r, Z.pow_1_r by lia.
    assert (0 < 10 ^ Z.of_nat k) by (apply Z.pow_pos_nonneg; lia).
    rewrite !Z.rem_mul_r by lia.
    rewrite !append_cons, compare_cons.
    rewrite digit_char_compare by (apply Z.mod_pos_bound; lia).
    rewrite IH, <- lex_assoc. f_equal.
    rewrite (compare_div_mod (10 ^ Z.of_nat k)
      (n mod 10 ^ Z.of_nat k + _) (m mod 10 ^ Z.of_nat k + _)) by lia.
    rewrite !(Z.mul_comm (10 ^ Z.of_nat k)).
    rewrite !Z.div_add, !Z.mod_add by lia.
    rewrite !(Z.div_small (_ mod _)) by (apply Z.mod_pos_bound; lia).
    rewrite !(Z.mod_small (_ mod 10 ^ _)) by (apply Z.mod_pos_bound; lia).
    by rewrite !Z.add_0_l.
Qed.

Lemma compare_dec_exact k n m s t :
  0 ≤ n < 10 ^ Z.of_nat k → 0 ≤ m < 10 ^ Z.of_nat k →
  String.compare (dec k n +:+ s) (dec k m +:+ t) = lex (n ?= m) (String.compare s t).
Proof. intros ? ?. rewrite compare_dec, !Z.mod_small by done. done. Qed.

Lemma compare_day t1 t2 :
  (t1 / msPerDay ?= t2 / msPerDay) =
  lex (getUTCFullYear t1 ?= getUTCFullYear t2)
    (lex (getUTCMonth t1 ?= getUTCMonth t2) (getUTCDate t1 ?= getUTCDate t2)).
Proof.
  pose proof (YearFromDay_spec (t1 / msPerDay)) as Y1.
  pose proof (YearFromDay_spec (t2 / msPerDay)) as Y2.
  fold (getUTCFullYear t1) in Y1. fold (getUTCFullYear t2) in Y2.
  rewrite (compare_bucket DayFromYear (getUTCFullYear t1) (getUTCFullYear t2));
    [|intros H; apply DayFromYear_mono in H; lia..].
  fold (dayWithinYear t1). fold (dayWithinYear t2).
  destruct (Z.compare_spec (getUTCFullYear t1) (getUTCFullYear t2)) as [E|E|E]; [|done..].
  pose proof (getUTCMonth_spec t1) as M1. pose proof (getUTCMonth_spec t2) as M2.
  pose proof (getUTCMonth_range t1). pose proof (getUTCMonth_range t2).
  pose proof (InLeapYear_01 (getUTCFullYear t2)).
  unfold getUTCDate. rewrite E in *. cbn [lex] in *.
  rewrite !(Z.add_comm _ 1), Z.add_compare_mono_l.
  apply compare_bucket; intros L;
    apply (month_start_mono (InLeapYear (getUTCFullYear t2))) in L; lia.
Qed.

Lemma compare_tod t1 t2 :
  (t1 mod msPerDay ?= t2 mod msPerDay) =
  lex (getUTCHours t1 ?= getUTCHours t2)
    (lex (getUTCMinutes t1 ?= getUTCMinutes t2)
      (lex (getUTCSeconds t1 ?= getUTCSeconds t2)
        (getUTCMilliseconds t1 ?= getUTCMilliseconds t2))).
Proof.
  assert (E1 : ∀ x, x mod msPerDay mod 3600000 = x mod 3600000) by (unfold msPerDay; lia).
  assert (E2 : ∀ x, x mod 3600000 mod 60000 = x mod 60000) by lia.
  assert (E3 : ∀ x, x mod 60000 mod 1000 = x mod 1000) by lia.
  rewrite (compare_div_mod 3600000 (t1 mod _)), !E1 by lia. f_equal.
  rewrite (compare_div_mod 60000 (t1 mod _)), !E2 by lia. f_equal.
  by rewrite (compare_div_mod 1000 (t1 mod _)), !E3 by lia.
Qed.

(** Comparing the printed texts is comparing the instants. *)
Lemma compare_toISOString t1 t2 : iso_range t1 → iso_range t2 →
  String.compare (toISOString t1) (toISOString t2) = (t1 ?= t2).
Proof.
  unfold iso_range. intros H1 H2. unfold toISOString, iso_year.
  rewrite !(proj2 (andb_true_iff _ _)) by (split; apply Z.leb_le; lia).
  pose proof (getUTCMonth_range t1). pose proof (getUTCDate_range t1).
  pose proof (getUTCMonth_range t2). pose proof (getUTCDate_range t2).
  pose proof (time_fields_range t1) as (?&?&?&?). pose proof (time_fields_range t2) as (?&?&?&?).
  rewrite (compare_dec_exact 4), compare_same by (change (10 ^ Z.of_nat 4) with 10000; lia).
  do 5 rewrite (compare_dec_exact 2), compare_same
    by (change (10 ^ Z.of_nat 2) with 100; lia).
  rewrite (compare_dec_exact 3) by (change (10 ^ Z.of_nat 3) with 1000; lia).
  rewrite !(Z.add_comm _ 1), Z.add_compare_mono_l.
  rewrite (compare_div_mod msPerDay t1 t2), compare_day, compare_tod by done.
  rewrite !lex_assoc. repeat f_equal.
  by destruct (getUTCMilliseconds t1 ?= getUTCMilliseconds t2).
Qed.

Lemma toISOString_leb t1 t2 : iso_range t1 → iso_range t2 →
  str_leb (toISOString t1) (toISOString t2) = (t1 <=? t2).
Proof.
  intros. unfold str_leb, String.leb. rewrite compare_toISOString by done.
  by unfold Z.leb.
Qed.

Lemma toISOString_ltb t1 t2 : iso_range t1 → iso_range t2 →
  str_ltb (toISOString t1) (toISOString t2) = (t1 <? t2).
Proof.
  intros. change (str_ltb (toISOString t1) (toISOString t2))
    with (negb (str_leb (toISOString t2) (toISOString t1))).
  rewrite toISOString_leb by done. by rewrite Z.ltb_antisym.
Qed.

(** ** Month boundaries *)

Lemma Date_UTC_year y m : 100 ≤ y →
  Date_UTC y m = (DayFromYear (y + m / 12)
     + month_start (InLeapYear (y + m / 12)) (m mod 12)) * msPerDay.
Proof.
  intros H. unfold Date_UTC.
  by replace ((0 <=? y) && (y <=? 99)) with false by (symmetry; apply andb_false_iff; right; lia).
Qed.

(** ** Calendar months *)

Lemma Date_UTC_month y m : 99 < y → 0 ≤ m ≤ 12 →
  Date_UTC y m = (DayFromYear y + month_start (InLeapYear y) m) * msPerDay.
Proof.
  intros Hy Hm. unfold Date_UTC.
  destruct (Z.leb_spec 0 y), (Z.leb_spec y 99); try lia; cbn [andb].
  destruct (Z.eq_dec m 12) as [->|Hne].
  - change (12 / 12) with 1. change (12 mod 12) with 0.
    change (month_start (InLeapYear (y + 1)) 0) with 0.
    change (month_start (InLeapYear y) 12) with (365 + InLeapYear y). unfold InLeapYear. lia.
  - rewrite Z.div_small, Z.mod_small by lia. by rewrite Z.add_0_r.
Qed.

(** The instants between two starts of months are those of the month. *)
Lemma month_interval y m t : 99 < y → 0 ≤ m ≤ 11 →
  Date_UTC y m ≤ t < Date_UTC y (m + 1) ↔ getUTCFullYear t = y ∧ getUTCMonth t = m.
Proof.
  intros Hy Hm. rewrite !Date_UTC_month by lia.
  pose proof (InLeapYear_01 y) as Hl.
  assert (H0 : 0 ≤ month_start (InLeapYear y) m ∧ month_start (InLeapYear y) (m + 1) ≤ 365 + InLeapYear y).
  { generalize dependent (InLeapYear y). intros leap Hl.
    assert (m = 0 ∨ m = 1 ∨ m = 2 ∨ m = 3 ∨ m = 4 ∨ m = 5 ∨ m = 6 ∨ m = 7 ∨ m = 8 ∨ m = 9
      ∨ m = 10 ∨ m = 11) as Hc by lia.
    repeat destruct Hc as [->|Hc]; try subst m; simpl; lia. }
  destruct H0 as [H0 H12].
  set (d := t / msPerDay).
  assert (Hd : ∀ a b, a * msPerDay ≤ t < b * msPerDay ↔ a ≤ d < b).
  { intros a b. unfold d, msPerDay. lia. }
  rewrite Hd. split.
  - intros [H1 H2]. assert (Ey : getUTCFullYear t = y).
    { unfold getUTCFullYear. fold d. apply YearFromDay_unique.
      assert (InLeapYear y = DayFromYear (y + 1) - DayFromYear y - 365) by done. lia. }
    split; [done|]. unfold getUTCMonth, dayWithinYear. rewrite Ey. fold d.
    apply month_of_unique; lia.
  - intros [Ey Em]. pose proof (getUTCMonth_spec t) as Hs. simpl in Hs.
    rewrite Ey, Em in Hs. unfold dayWithinYear in Hs. rewrite Ey in Hs. fold d in Hs. lia.
Qed.
