(* ===== verification/JsVal.v ===== *)
(** JavaScript values as the control plane meets them: binary64 numbers (the
    Standard Library's [spec_float] at precision 53 and exponent bound 1024),
    JSON values, the coercions the source applies to them, and [JSON.stringify].
    What the language leaves to the engine is the class [JsEngine]. *)

From Stdlib Require Export SpecFloat.
From stdpp Require Import pretty.
From S2P Require Import Prelude.

(** ** Numbers *)

Definition jsnum : Type := spec_float.

Definition num_of_Z (n : Z) : jsnum := binary_normalize 53 1024 n 0 false.

Definition num_add : jsnum → jsnum → jsnum := SFadd 53 1024.
Definition num_mul : jsnum → jsnum → jsnum := SFmul 53 1024.
Definition num_div : jsnum → jsnum → jsnum := SFdiv 53 1024.

(** [Number.isFinite]. *)
Definition num_isFinite (x : jsnum) : bool :=
  match x with S754_zero _ | S754_finite _ _ _ => true | _ => false end.

(** [Number.isInteger]. *)
Definition num_isInteger (x : jsnum) : bool :=
  match x with
  | S754_zero _ => true
  | S754_finite _ m e => if 0 <=? e then true else Z.pos m mod 2 ^ (- e) =? 0
  | _ => false
  end.

(** [Math.floor] of a finite number, as an integer. *)
Definition num_floor (x : jsnum) : Z :=
  match x with
  | S754_finite s m e =>
    let v := if s then Z.neg m else Z.pos m in
    if 0 <=? e then v * 2 ^ e else v / 2 ^ (- e)
  | _ => 0
  end.

(** [Math.ceil] of a finite number, as an integer. *)
Definition num_ceil (x : jsnum) : Z :=
  match x with
  | S754_finite s m e =>
    let v := if s then Z.neg m else Z.pos m in
    if 0 <=? e then v * 2 ^ e else - ((- v) / 2 ^ (- e))
  | _ => 0
  end.

(** ** JSON values *)

Inductive json :=
| JNull
| JBool (b : bool)
| JNum (n : jsnum)
| JStr (s : string)
| JArr (l : list json)
| JObj (fields : list (string * json)).

(** What [JSON.parse] gives for an object; [Record<string, unknown>]. *)
Definition json_object : Type := list (string * json).

(** Property access; [None] is [undefined]. *)
Definition get_prop (k : string) (o : json_object) : option json :=
  option_map snd (find_first (λ kv, kv.1 =?s k) o).

Class JsEngine := {
  (** [Date.parse] on a text that is not the output of [toISOString]. *)
  legacy_date_parse : string → option Z;
  (** [Number.prototype.toString]. *)
  num_to_string : jsnum → string;
  (** [Number.prototype.toFixed]. *)
  num_toFixed : jsnum → nat → string;
  (** [JSON.parse]; [None] is a SyntaxError. *)
  JSON_parse : string → option json;
  (** The message of that SyntaxError. *)
  json_syntax_error : string → string;
  (** [ToNumber] of a string, an array or an object. *)
  to_number_other : json → jsnum
}.

(** [Number(x)], where [None] is [undefined]. *)
Definition to_number `{JsEngine} (x : option json) : jsnum :=
  match x with
  | None => S754_nan
  | Some JNull => S754_zero false
  | Some (JBool b) => num_of_Z (if b then 1 else 0)
  | Some (JNum n) => n
  | Some v => to_number_other v
  end.

(** ** JSON.stringify *)

Definition hex_char (n : nat) : ascii :=
  match n with
  | 0%nat => "0" | 1%nat => "1" | 2%nat => "2" | 3%nat => "3" | 4%nat => "4"
  | 5%nat => "5" | 6%nat => "6" | 7%nat => "7" | 8%nat => "8" | 9%nat => "9"
  | 10%nat => "a" | 11%nat => "b" | 12%nat => "c" | 13%nat => "d" | 14%nat => "e"
  | _ => "f"
  end%char.

Definition dquote : ascii := Ascii.ascii_of_nat 34.
Definition backslash : ascii := Ascii.ascii_of_nat 92.

Definition quote_char (c : ascii) : string :=
  match Ascii.nat_of_ascii c with
  | 34%nat => String backslash (String dquote "")
  | 92%nat => String backslash (String backslash "")
  | 8%nat => String backslash "b"
  | 9%nat => String backslash "t"
  | 10%nat => String backslash "n"
  | 12%nat => String backslash "f"
  | 13%nat => String backslash "r"
  | n => if (n <? 32)%nat
         then String backslash ("u00" +:+ String (hex_char (n / 16)) (String (hex_char (n mod 16)) ""))
         else String c ""
  end.

Fixpoint quote_body (s : string) : string :=
  match s with
  | EmptyString => ""
  | String c s' => quote_char c +:+ quote_body s'
  end.

Definition json_quote (s : string) : string :=
  String dquote (quote_body s +:+ String dquote "").

Fixpoint join (sep : string) (l : list string) : string :=
  match l with
  | [] => ""
  | [s] => s
  | s :: l' => s +:+ sep +:+ join sep l'
  end.

Fixpoint json_stringify `{JsEngine} (v : json) : string :=
  match v with
  | JNull => "null"
  | JBool b => if b then "true" else "false"
  | JNum n => if num_isFinite n then num_to_string n else "null"
  | JStr s => json_quote s
  | JArr l => "[" +:+ join "," (map json_stringify l) +:+ "]"
  | JObj fs => "{" +:+ join "," (map (λ kv, json_quote kv.1 +:+ ":" +:+ json_stringify kv.2) fs) +:+ "}"
  end.

(** [String(v)]. *)
Fixpoint js_String `{JsEngine} (v : json) : string :=
  match v with
  | JNull => "null"
  | JBool b => if b then "true" else "false"
  | JNum n => num_to_string n
  | JStr s => s
  | JArr l => join "," (map (λ x, match x with JNull => "" | x => js_String x end) l)
  | JObj _ => "[object Object]"
  end.

Definition shown `{JsEngine} (v : option json) : string := match v with Some x => js_String x | None => "undefined" end.

Definition newline : string := String (Ascii.ascii_of_nat 10) "".

(** [JSON.stringify(v, null, 2)], at indentation [ind]. *)
Fixpoint json_pretty `{JsEngine} (ind : string) (v : json) : string :=
  let ind' := ind +:+ "  " in
  let block o c items := o +:+ newline +:+ ind' +:+ join ("," +:+ newline +:+ ind') items
                           +:+ newline +:+ ind +:+ c in
  match v with
  | JArr [] => "[]"
  | JArr l => block "[" "]" (map (json_pretty ind') l)
  | JObj [] => "{}"
  | JObj fs => block "{" "}" (map (λ kv, json_quote kv.1 +:+ ": " +:+ json_pretty ind' kv.2) fs)
  | v => json_stringify v
  end.

(** Template interpolation of an integer below 10^21. *)
Definition show_Z (n : Z) : string := pretty n.

(** Template interpolation of a number whose value is the integer [n]. *)
Definition show_int `{JsEngine} (n : Z) : string :=
  if Z.abs n <? 10 ^ 21 then show_Z n else num_to_string (num_of_Z n).

(** An integer, a nullable text, as JSON. *)
Definition JInt (n : Z) : json := JNum (num_of_Z n).
Definition JOptStr (o : option string) : json := match o with Some s => JStr s | None => JNull end.

(** A property that [JSON.stringify] leaves out when it is [undefined]. *)
Definition opt_prop (k : string) (v : option json) : json_object :=
  match v with Some x => [(k, x)] | None => [] end.

(** ** Facts *)

Lemma num_isInteger_isFinite x : num_isInteger x = true → num_isFinite x = true.
Proof. by destruct x. Qed.

(** A number that is an integer and not below one is a positive integer. *)
Lemma num_floor_positive x :
  num_isInteger x = true → SFltb x (num_of_Z 1) = false → 1 ≤ num_floor x.
Proof.
  assert (num_of_Z 1 = S754_finite false 4503599627370496 (-52)) as -> by (by vm_compute).
  intros Hi Hl. destruct x as [s| | |s m e]; cbn [num_isInteger num_floor] in *; [|done..|].
  { unfold SFltb in Hl. by destruct s. }
  destruct s; [by unfold SFltb in Hl|].
  destruct (Z.leb_spec 0 e) as [He|He].
  - assert (H2 : 0 < 2 ^ e) by (apply Z.pow_pos_nonneg; lia).
    generalize dependent (2 ^ e). intros p Hp. nia.
  - apply Z.eqb_eq in Hi. assert (0 < 2 ^ (- e)) by (apply Z.pow_pos_nonneg; lia).
    apply Z.div_le_lower_bound; [lia|]. rewrite Z.mul_1_r.
    apply Z.mod_divide in Hi as [q Hq]; [|lia]. rewrite Hq.
    generalize dependent (2 ^ (- e)). intros p Hq Hp.
    destruct (Z.le_gt_cases q 0); [|nia]. pose proof (Pos2Z.is_pos m). exfalso. nia.
Qed.
