(* ===== verification/JsInt.v ===== *)
(** Integers below 2^53 are exact in binary64: the number that stands for one, the
    sum, the difference and the order of two are what they are in [Z]. *)

From S2P Require Import Prelude JsTime JsVal.
From Stdlib Require Import SpecFloat.

Definition is_safe (n : Z) : Prop := 0 ≤ n < 2 ^ 53.

(** The number of binary digits, and the normal form of a positive integer. *)
Definition digits (n : Z) : Z := Z.log2 n + 1.
Definition canonical (n : Z) : jsnum := S754_finite false (Z.to_pos (n * 2 ^ (53 - digits n))) (digits n - 53).

Lemma digits2_log2 p : Z.pos (digits2_pos p) = digits (Z.pos p).
Proof.
  unfold digits. induction p as [p IH|p IH|]; [| |done]; cbn [digits2_pos]; rewrite Pos2Z.inj_succ, IH.
  - rewrite (Pos2Z.inj_xI p), Z.log2_succ_double by lia. lia.
  - rewrite (Pos2Z.inj_xO p), Z.log2_double by lia. lia.
Qed.

Lemma digits_bounds n : 0 < n → 2 ^ (digits n - 1) ≤ n < 2 ^ digits n.
Proof. intros Hn. unfold digits. pose proof (Z.log2_spec n Hn). rewrite <- Z.add_1_r in *. by replace (Z.log2 n + 1 - 1) with (Z.log2 n) by lia. Qed.

Lemma digits_shift n k : 0 < n → 0 ≤ k → digits (n * 2 ^ k) = digits n + k.
Proof. intros Hn Hk. unfold digits. rewrite Z.log2_mul_pow2 by lia. lia. Qed.

Lemma digits_safe n : 0 < n → n < 2 ^ 53 → 1 ≤ digits n ≤ 53.
Proof.
  intros Hn Hb. pose proof (Z.log2_nonneg n). assert (Z.log2 n < 53) by (by apply Z.log2_lt_pow2). unfold digits. lia.
Qed.

Lemma digits_mono n m : 0 < n → n ≤ m → digits n ≤ digits m.
Proof. intros Hn Hm. unfold digits. pose proof (Z.log2_le_mono n m Hm). lia. Qed.

(** Shifting zeros out loses nothing. *)
Lemma shr_exact p m : 0 < m → iter_pos shr_1 p (Build_shr_record (m * 2 ^ Z.pos p) false false) = Build_shr_record m false false.
Proof.
  assert (Hone : ∀ x, 0 < x → shr_1 (Build_shr_record (2 * x) false false) = Build_shr_record x false false) by (intros [|x|x] Hx; [lia|done|lia]).
  assert (Hdouble : ∀ q, 2 ^ (2 * Z.pos q) = 2 ^ Z.pos q * 2 ^ Z.pos q) by (intros q; rewrite <- Z.pow_add_r by lia; f_equal; lia).
  revert m. induction p as [p IH|p IH|]; intros m Hm; cbn [iter_pos].
  - rewrite (Pos2Z.inj_xI p). replace (m * 2 ^ (2 * Z.pos p + 1)) with (2 * (m * 2 ^ Z.pos p * 2 ^ Z.pos p)).
    + rewrite Hone, !IH; [done|lia| |]; repeat apply Z.mul_pos_pos; lia.
    + rewrite Z.pow_add_r, Z.pow_1_r, Hdouble by lia. ring.
  - rewrite (Pos2Z.inj_xO p), Hdouble, Z.mul_assoc. rewrite !IH; [done|lia|]. apply Z.mul_pos_pos; lia.
  - rewrite Z.pow_1_r, Z.mul_comm. by apply Hone.
Qed.

Lemma iter_xO p d : Z.pos (Pos.iter xO p d) = Z.pos p * 2 ^ Z.pos d.
Proof.
  induction d as [|d IH] using Pos.peano_ind; [simpl; lia|].
  rewrite Pos.iter_succ, (Pos2Z.inj_xO (Pos.iter xO p d)), IH, Pos2Z.inj_succ, Z.pow_succ_r by lia. ring.
Qed.

Lemma fexp_small d : 1 ≤ d → fexp 53 1024 d = d - 53.
Proof. unfold fexp, emin. lia. Qed.

(** Rounding a mantissa that has the value of a small integer. *)
Lemma round_aux_exact n k :
  0 < n → n < 2 ^ 53 → 53 - digits n ≤ k → binary_round_aux 53 1024 false (n * 2 ^ k) (- k) loc_Exact = canonical n.
Proof.
  intros Hn Hb Hk. pose proof (digits_safe n Hn Hb) as Hd. unfold binary_round_aux, shr_fexp, shr_record_of_loc.
  assert (Hz : ∀ x, 0 < x → Zdigits2 x = digits x) by (intros [|x|x] Hx; [lia| |lia]; simpl; apply digits2_log2).
  assert (Hpos : ∀ j, 0 ≤ j → 0 < n * 2 ^ j) by (intros j Hj; apply Z.mul_pos_pos; lia).
  rewrite Hz, digits_shift by auto with lia. replace (digits n + k + - k) with (digits n) by lia. rewrite fexp_small by lia.
  set (c := n * 2 ^ (53 - digits n)).
  assert (Hshr : shr (Build_shr_record (n * 2 ^ k) false false) (- k) (digits n - 53 - - k)
    = (Build_shr_record c false false, digits n - 53)).
  { unfold shr. destruct (digits n - 53 - - k) as [|p|p] eqn:E; [|  |lia].
    - unfold c. replace (53 - digits n) with k by lia. by replace (digits n - 53) with (- k) by lia.
    - f_equal; [|lia]. replace (n * 2 ^ k) with (c * 2 ^ Z.pos p); [apply shr_exact, Hpos; lia|].
      unfold c. rewrite <- Z.mul_assoc, <- Z.pow_add_r by lia. do 2 f_equal. lia. }
  rewrite Hshr. cbn [shr_m loc_of_shr_record round_nearest_even]. fold c.
  assert (Hc : 0 < c) by (apply Hpos; lia). assert (Hdc : digits c = 53) by (unfold c; rewrite digits_shift; lia).
  rewrite Hz, Hdc by done. replace (53 + (digits n - 53)) with (digits n) by lia. rewrite fexp_small by lia.
  replace (digits n - 53 - (digits n - 53)) with 0 by lia. cbn [shr shr_m]. unfold canonical. fold c.
  clearbody c. destruct c as [|p|p] eqn:Ec; [lia| |lia].
  replace (digits n - 53 <=? 1024 - 53) with true by lia. by cbn.
Qed.

Lemma round_exact n k : 0 < n → n < 2 ^ 53 → 0 ≤ k → binary_normalize 53 1024 (n * 2 ^ k) (- k) false = canonical n.
Proof.
  intros Hn Hb Hk. pose proof (digits_safe n Hn Hb) as Hd. assert (Hpos : 0 < n * 2 ^ k) by (apply Z.mul_pos_pos; lia).
  pose proof (round_aux_exact n) as Haux. unfold binary_normalize. destruct (n * 2 ^ k) as [|p|p] eqn:Ep; [lia| |lia].
  unfold binary_round. rewrite digits2_log2, <- Ep, digits_shift by lia. replace (digits n + k + - k) with (digits n) by lia.
  rewrite fexp_small by lia. unfold shl_align. destruct (digits n - 53 - - k) as [|d|d] eqn:E.
  - rewrite <- Ep. apply Haux; lia.
  - rewrite <- Ep. apply Haux; lia.
  - rewrite iter_xO, <- Ep, <- Z.mul_assoc, <- Z.pow_add_r by lia.
    replace (digits n - 53) with (- (k + Z.pos d)) by lia. apply Haux; lia.
Qed.

(** ** The arithmetic of small integers *)

Lemma num_of_Z_canonical n : 0 < n → n < 2 ^ 53 → num_of_Z n = canonical n.
Proof. intros Hn Hb. unfold num_of_Z. rewrite <- (round_exact n 0 Hn Hb) by lia. by rewrite Z.mul_1_r. Qed.

Lemma canonical_mantissa_pos n : 0 < n → n < 2 ^ 53 → Z.pos (Z.to_pos (n * 2 ^ (53 - digits n))) = n * 2 ^ (53 - digits n).
Proof. intros Hn Hb. pose proof (digits_safe n Hn Hb). apply Z2Pos.id, Z.mul_pos_pos; lia. Qed.

(** A mantissa moved to a smaller exponent. *)
Lemma align_canonical n k :
  0 < n → n < 2 ^ 53 → - k ≤ digits n - 53 →
  Z.pos (fst (shl_align (Z.to_pos (n * 2 ^ (53 - digits n))) (digits n - 53) (- k))) = n * 2 ^ k.
Proof.
  intros Hn Hb Hk. pose proof (digits_safe n Hn Hb). unfold shl_align.
  destruct (- k - (digits n - 53)) as [|d|d] eqn:E; [|lia|]; cbn [fst].
  - rewrite canonical_mantissa_pos by done. do 2 f_equal. lia.
  - rewrite iter_xO, canonical_mantissa_pos, <- Z.mul_assoc, <- Z.pow_add_r by lia. do 2 f_equal. lia.
Qed.

Lemma num_add_exact n m : is_safe n → is_safe m → is_safe (n + m) → num_add (num_of_Z n) (num_of_Z m) = num_of_Z (n + m).
Proof.
  intros Hn Hm Hs. destruct (decide (n = 0)) as [->|Hn0]; [|destruct (decide (m = 0)) as [->|Hm0]].
  - destruct (decide (m = 0)) as [->|Hm0]; [done|]. rewrite Z.add_0_l, (num_of_Z_canonical m) by (unfold is_safe in *; lia). done.
  - rewrite Z.add_0_r, (num_of_Z_canonical n) by (unfold is_safe in *; lia). done.
  - unfold is_safe in *. rewrite !num_of_Z_canonical by lia. unfold num_add, canonical at 1 2, SFadd.
    pose proof (digits_safe n ltac:(lia) ltac:(lia)). pose proof (digits_safe m ltac:(lia) ltac:(lia)).
    set (k := - Z.min (digits n - 53) (digits m - 53)).
    replace (Z.min (digits n - 53) (digits m - 53)) with (- k) by lia. cbn [cond_Zopp].
    rewrite !align_canonical by lia. rewrite <- Z.mul_add_distr_r. apply round_exact; lia.
Qed.

Lemma num_sub_exact n m : is_safe n → is_safe m → 0 < n - m → SFsub 53 1024 (num_of_Z n) (num_of_Z m) = num_of_Z (n - m).
Proof.
  intros Hn Hm Hs. unfold is_safe in *. destruct (decide (m = 0)) as [->|Hm0].
  - rewrite Z.sub_0_r, (num_of_Z_canonical n) by lia. done.
  - rewrite !num_of_Z_canonical by lia. unfold canonical at 1 2, SFsub.
    pose proof (digits_safe n ltac:(lia) ltac:(lia)). pose proof (digits_safe m ltac:(lia) ltac:(lia)).
    set (k := - Z.min (digits n - 53) (digits m - 53)).
    replace (Z.min (digits n - 53) (digits m - 53)) with (- k) by lia. cbn [cond_Zopp].
    rewrite !align_canonical by lia. rewrite <- Z.mul_sub_distr_r. apply round_exact; lia.
Qed.

Lemma canonical_compare n m :
  0 < n → 0 < m → n < 2 ^ 53 → m < 2 ^ 53 → SFcompare (canonical n) (canonical m) = Some (n ?= m).
Proof.
  intros Hn Hm Hnb Hmb. pose proof (digits_safe n Hn Hnb). pose proof (digits_safe m Hm Hmb).
  pose proof (digits_bounds n Hn). pose proof (digits_bounds m Hm). unfold canonical, SFcompare. f_equal.
  destruct (Z.compare_spec (digits n - 53) (digits m - 53)) as [E|E|E].
  - change (Pos.compare_cont Eq ?a ?b) with (Pos.compare a b).
    rewrite Pos2Z.inj_compare, !canonical_mantissa_pos by done. replace (digits m) with (digits n) by lia.
    symmetry. apply Zmult_compare_compat_r. lia.
  - symmetry. apply Z.compare_lt_iff. assert (2 ^ digits n ≤ 2 ^ (digits m - 1)) by (apply Z.pow_le_mono_r; lia). lia.
  - symmetry. apply Z.compare_gt_iff. assert (2 ^ digits m ≤ 2 ^ (digits n - 1)) by (apply Z.pow_le_mono_r; lia). lia.
Qed.

Lemma num_compare_exact n m : is_safe n → is_safe m → SFcompare (num_of_Z n) (num_of_Z m) = Some (n ?= m).
Proof.
  intros Hn Hm. unfold is_safe in *. destruct (decide (n = 0)) as [->|Hn0], (decide (m = 0)) as [->|Hm0]; [done| | |].
  - rewrite (num_of_Z_canonical m) by lia. destruct m; [done|done|lia].
  - rewrite (num_of_Z_canonical n) by lia. destruct n; [done|done|lia].
  - rewrite !num_of_Z_canonical by lia. by apply canonical_compare; lia.
Qed.

Lemma num_ltb_exact n m : is_safe n → is_safe m → SFltb (num_of_Z n) (num_of_Z m) = (n <? m).
Proof. intros Hn Hm. unfold SFltb. rewrite num_compare_exact by done. unfold Z.ltb. by destruct (n ?= m). Qed.
