(* ===== verification/JsonReader.v ===== *)
(** A JSON reader, and the proof that it inverts [json_stringify].  [JSON.parse]
    is an operation of the engine ([JsEngine]); theorems that send values over the
    wire assume that it reads back what was printed, and this reader shows that an
    engine can.  A number is read by [number], the engine's [ToNumber] of its
    text; characters are 8-bit code units, so escapes beyond them are refused; a
    repeated key keeps its first place and its last value. *)

From S2P Require Import Prelude JsTime JsVal.

Definition is_json_space (c : ascii) : bool :=
  let n := Ascii.nat_of_ascii c in (n =? 32)%nat || (n =? 9)%nat || (n =? 10)%nat || (n =? 13)%nat.

Fixpoint skip_space (s : string) : string :=
  match s with String c s' => if is_json_space c then skip_space s' else s | EmptyString => "" end.

Definition is_num_char (c : ascii) : bool :=
  let n := Ascii.nat_of_ascii c in
  ((48 <=? n) && (n <=? 57))%nat || (n =? 43)%nat || (n =? 45)%nat || (n =? 46)%nat || (n =? 69)%nat || (n =? 101)%nat.

Fixpoint num_token (s : string) : string * string :=
  match s with
  | String c s' => if is_num_char c then let (t, r) := num_token s' in (String c t, r) else ("", s)
  | EmptyString => ("", "")
  end.

Definition hex_digit (c : ascii) : option nat :=
  let n := Ascii.nat_of_ascii c in
  if ((48 <=? n) && (n <=? 57))%nat then Some (n - 48)%nat
  else if ((97 <=? n) && (n <=? 102))%nat then Some (n - 87)%nat
  else if ((65 <=? n) && (n <=? 70))%nat then Some (n - 55)%nat
  else None.

(** The code unit of an escape, after the backslash, and what follows it. *)
Definition read_escape (s : string) : option (ascii * string) :=
  match s with
  | EmptyString => None
  | String c s' =>
    match Ascii.nat_of_ascii c with
    | 34%nat | 92%nat | 47%nat => Some (c, s')
    | 98%nat => Some (Ascii.ascii_of_nat 8, s')
    | 116%nat => Some (Ascii.ascii_of_nat 9, s')
    | 110%nat => Some (Ascii.ascii_of_nat 10, s')
    | 102%nat => Some (Ascii.ascii_of_nat 12, s')
    | 114%nat => Some (Ascii.ascii_of_nat 13, s')
    | 117%nat =>
      match s' with
      | String "0" (String "0" (String a (String b s''))) =>
        match hex_digit a, hex_digit b with
        | Some x, Some y => Some (Ascii.ascii_of_nat (16 * x + y), s'')
        | _, _ => None
        end
      | _ => None
      end
    | _ => None
    end
  end.

(** A string, after its opening quote. *)
Fixpoint read_string (fuel : nat) (s : string) : option (string * string) :=
  match fuel with
  | O => None
  | S fuel' =>
    match s with
    | EmptyString => None
    | String c s' =>
      if Ascii.eqb c dquote then Some ("", s')
      else if Ascii.eqb c backslash then
        match read_escape s' with
        | Some (x, s'') =>
          match read_string fuel' s'' with Some (t, r) => Some (String x t, r) | None => None end
        | None => None
        end
      else if (Ascii.nat_of_ascii c <? 32)%nat then None
      else match read_string fuel' s' with Some (t, r) => Some (String c t, r) | None => None end
    end
  end.

Definition set_prop (k : string) (v : json) (o : json_object) : json_object :=
  if existsb (λ kv, kv.1 =?s k) o then map (λ kv, if kv.1 =?s k then (k, v) else kv) o else o ++ [(k, v)].

Section reader.
Context (number : string → jsnum).

Definition read_literal (lit : string) (v : json) (s : string) : option (json * string) :=
  if starts_with lit s then Some (v, String.substring (String.length lit) (String.length s - String.length lit) s)
  else None.

Definition read_number (s : string) : option (json * string) :=
  let (t, r) := num_token s in
  if t =?s "" then None else if num_isFinite (number t) then Some (JNum (number t), r) else None.

(** A value; the items of an array after the first bracket or comma; the members
    of an object likewise. *)
Fixpoint read_value (fuel : nat) (s : string) : option (json * string) :=
  match fuel with
  | O => None
  | S fuel' =>
    match skip_space s with
    | EmptyString => None
    | String c s' =>
      if Ascii.eqb c dquote then
        match read_string (S (String.length s')) s' with Some (t, r) => Some (JStr t, r) | None => None end
      else if Ascii.eqb c "[" then
        match skip_space s' with
        | String "]" r => Some (JArr [], r)
        | _ => match read_items fuel' s' [] with Some (l, r) => Some (JArr l, r) | None => None end
        end
      else if Ascii.eqb c "{" then
        match skip_space s' with
        | String "}" r => Some (JObj [], r)
        | _ => match read_members fuel' s' [] with Some (l, r) => Some (JObj l, r) | None => None end
        end
      else if Ascii.eqb c "n" then read_literal "null" JNull (String c s')
      else if Ascii.eqb c "t" then read_literal "true" (JBool true) (String c s')
      else if Ascii.eqb c "f" then read_literal "false" (JBool false) (String c s')
      else read_number (String c s')
    end
  end
with read_items (fuel : nat) (s : string) (acc : list json) : option (list json * string) :=
  match fuel with
  | O => None
  | S fuel' =>
    match read_value fuel' s with
    | Some (v, r) =>
      match skip_space r with
      | String "," r' => read_items fuel' r' (acc ++ [v])
      | String "]" r' => Some (acc ++ [v], r')
      | _ => None
      end
    | None => None
    end
  end
with read_members (fuel : nat) (s : string) (acc : json_object) : option (json_object * string) :=
  match fuel with
  | O => None
  | S fuel' =>
    match skip_space s with
    | String c s' =>
      if Ascii.eqb c dquote then
        match read_string (S (String.length s')) s' with
        | Some (k, r) =>
          match skip_space r with
          | String ":" r' =>
            match read_value fuel' r' with
            | Some (v, r'') =>
              match skip_space r'' with
              | String "," t => read_members fuel' t (set_prop k v acc)
              | String "}" t => Some (set_prop k v acc, t)
              | _ => None
              end
            | None => None
            end
          | _ => None
          end
        | None => None
        end
      else None
    | EmptyString => None
    end
  end.

(** Every call consumes a character or follows one that does. *)
Definition read_json (s : string) : option json :=
  match read_value (S (2 * String.length s)) s with
  | Some (v, r) => match skip_space r with EmptyString => Some v | _ => None end
  | None => None
  end.
End reader.

(** ** Reading back what was printed *)

Section json_ind.
Context (P : json → Prop) (Hnull : P JNull) (Hbool : ∀ b, P (JBool b)) (Hnum : ∀ n, P (JNum n))
  (Hstr : ∀ s, P (JStr s)) (Harr : ∀ l, Forall P l → P (JArr l))
  (Hobj : ∀ fs, Forall (λ kv, P kv.2) fs → P (JObj fs)).

Fixpoint json_nested_ind (v : json) : P v :=
  match v with
  | JNull => Hnull
  | JBool b => Hbool b
  | JNum n => Hnum n
  | JStr s => Hstr s
  | JArr l => Harr l ((fix go (l : list json) : Forall P l :=
      match l with [] => List.Forall_nil _ | v :: l' => @List.Forall_cons _ _ _ _ (json_nested_ind v) (go l') end) l)
  | JObj fs => Hobj fs ((fix go (l : list (string * json)) : Forall (λ kv, P kv.2) l :=
      match l with [] => List.Forall_nil _ | kv :: l' => @List.Forall_cons _ _ _ _ (json_nested_ind kv.2) (go l') end) fs)
  end.
End json_ind.

Fixpoint num_text (s : string) : bool :=
  match s with EmptyString => true | String c s' => is_num_char c && num_text s' end.

#[export] Instance jsnum_eq_dec : EqDecision jsnum.
Proof. unfold jsnum. solve_decision. Defined.

Section reading.
Context `{JsEngine} (number : string → jsnum).

(** A number whose text reads back as it. *)
Definition number_reads (n : jsnum) : bool :=
  num_isFinite n && negb (num_to_string n =?s "") && num_text (num_to_string n)
  && bool_decide (number (num_to_string n) = n).

(** Values that survive printing and reading: numbers whose text is theirs, and
    objects without repeated keys. *)
Fixpoint readable (v : json) : bool :=
  match v with
  | JNull | JBool _ | JStr _ => true
  | JNum n => number_reads n
  | JArr l => forallb readable l
  | JObj fs => forallb (λ kv, readable kv.2) fs && bool_decide (NoDup (map fst fs))
  end.

(** The fuel a value needs. *)
Fixpoint need (v : json) : nat :=
  match v with
  | JArr l => S (fold_right (λ x n, S (Nat.max (need x) n)) 0 l)%nat
  | JObj fs => S (fold_right (λ kv n, S (Nat.max (need kv.2) n)) 0 fs)%nat
  | _ => 1%nat
  end.

(** What may follow a value. *)
Definition delimited (rest : string) : bool :=
  match rest with EmptyString => true | String c _ => Ascii.eqb c "," || Ascii.eqb c "]" || Ascii.eqb c "}" end.

Lemma read_quote_char c rest fuel :
  read_string (S fuel) (quote_char c +:+ rest) =
  match read_string fuel rest with Some (t, r) => Some (String c t, r) | None => None end.
Proof. destruct c as [[] [] [] [] [] [] [] []]; reflexivity. Qed.

Lemma read_quote_body s rest fuel :
  (String.length s < fuel)%nat → read_string fuel (quote_body s +:+ String dquote rest) = Some (s, rest).
Proof.
  revert fuel. induction s as [|c s IH]; intros [|fuel] Hf; simpl in Hf; try lia; [done|].
  cbn [quote_body]. rewrite <- str_app_assoc, read_quote_char, IH by lia. done.
Qed.

Lemma quote_body_length s : (String.length s ≤ String.length (quote_body s))%nat.
Proof.
  induction s as [|c s IH]; [done|]. cbn [quote_body]. rewrite str_app_length. simpl.
  enough (1 ≤ String.length (quote_char c))%nat by lia. by destruct c as [[] [] [] [] [] [] [] []]; vm_compute; lia.
Qed.

Lemma quoted_read s rest :
  let t := quote_body s +:+ String dquote rest in read_string (S (String.length t)) t = Some (s, rest).
Proof.
  cbv zeta. apply read_quote_body. rewrite str_app_length. pose proof (quote_body_length s). lia.
Qed.

Lemma num_token_text t rest : num_text t = true → delimited rest = true → num_token (t +:+ rest) = (t, rest).
Proof.
  intros Ht Hr. induction t as [|c t IH].
  - destruct rest as [|c rest]; [done|]. unfold delimited in Hr. simpl.
    assert (is_num_char c = false) as ->; [|done].
    apply orb_true_iff in Hr as [[Hr|Hr]%orb_true_iff|Hr]; apply Ascii.eqb_eq in Hr as ->; done.
  - cbn [num_text] in Ht. apply andb_true_iff in Ht as [Hc Ht]. rewrite str_app_cons. cbn [num_token]. by rewrite Hc, IH.
Qed.

Lemma delimited_skip rest : delimited rest = true → skip_space rest = rest.
Proof.
  destruct rest as [|c rest]; [done|]. unfold delimited.
  intros [[Hr|Hr]%orb_true_iff|Hr]%orb_true_iff; apply Ascii.eqb_eq in Hr as ->; done.
Qed.

Lemma substring_app a b :
  String.substring (String.length a) (String.length (a +:+ b) - String.length a) (a +:+ b) = b.
Proof.
  rewrite str_app_length, Nat.add_comm, Nat.add_sub.
  induction a as [|c a IH]; [apply substring_whole|]. rewrite str_app_cons. exact IH.
Qed.

Lemma read_literal_app lit v rest : read_literal lit v (lit +:+ rest) = Some (v, rest).
Proof. unfold read_literal. by rewrite starts_with_app, substring_app. Qed.

Lemma num_char_head c :
  is_num_char c = true →
  is_json_space c = false ∧ Ascii.eqb c dquote = false ∧ Ascii.eqb c "[" = false ∧ Ascii.eqb c "{" = false ∧
  Ascii.eqb c "n" = false ∧ Ascii.eqb c "t" = false ∧ Ascii.eqb c "f" = false ∧ Ascii.eqb c "]" = false ∧
  Ascii.eqb c "}" = false.
Proof. destruct c as [[] [] [] [] [] [] [] []]; vm_compute; try discriminate; repeat split. Qed.

Lemma number_reads_text n :
  number_reads n = true → num_isFinite n = true ∧ number (num_to_string n) = n ∧ num_text (num_to_string n) = true ∧
  ∃ c t, num_to_string n = String c t ∧ is_num_char c = true.
Proof.
  unfold number_reads. intros [[[Hf Hne]%andb_true_iff Ht]%andb_true_iff Hn]%andb_true_iff.
  apply bool_decide_eq_true in Hn. destruct (num_to_string n) as [|c t] eqn:E; [done|].
  split; [done|]. split; [congruence|]. split; [done|]. exists c, t. split; [done|].
  cbn [num_text] in Ht. by apply andb_true_iff in Ht as [? _].
Qed.

(** A value starts with a character that ends nothing. *)
Lemma first_char v :
  readable v = true → ∃ c t, json_stringify v = String c t ∧ is_json_space c = false ∧
    Ascii.eqb c "]" = false ∧ Ascii.eqb c "}" = false.
Proof.
  destruct v as [|b|n|s|l|fs]; intros Hr; simpl; try by do 2 eexists.
  - destruct b; by do 2 eexists.
  - destruct (number_reads_text n Hr) as (Hf & _ & _ & c & t & E & Hc). rewrite Hf, E.
    exists c, t. split; [done|]. by apply num_char_head in Hc as (? & _ & _ & _ & _ & _ & _ & ? & ?).
Qed.

Lemma skip_first v rest : readable v = true → skip_space (json_stringify v +:+ rest) = json_stringify v +:+ rest.
Proof.
  intros Hr. destruct (first_char v Hr) as (c & t & -> & Hs & _). rewrite str_app_cons. cbn [skip_space]. by rewrite Hs.
Qed.

Definition reads_back (v : json) : Prop :=
  readable v = true → ∀ fuel rest, (need v ≤ fuel)%nat → delimited rest = true →
  read_value number fuel (json_stringify v +:+ rest) = Some (v, rest).

Definition need_items (l : list json) : nat := fold_right (λ x n, S (Nat.max (need x) n)) 0%nat l.
Definition need_members (l : json_object) : nat := fold_right (λ kv n, S (Nat.max (need kv.2) n)) 0%nat l.

Lemma read_items_printed l acc fuel rest :
  Forall reads_back l → forallb readable l = true → l ≠ [] → (need_items l ≤ fuel)%nat →
  read_items number fuel (join "," (map json_stringify l) +:+ "]" +:+ rest) acc = Some (acc ++ l, rest).
Proof.
  intros HF. revert acc fuel. induction HF as [|v l Hv HF IH]; [done|]. intros acc fuel Hr _ Hn.
  cbn [forallb] in Hr. apply andb_true_iff in Hr as [Hrv Hrl]. cbn [need_items fold_right] in Hn.
  fold (need_items l) in Hn. destruct fuel as [|fuel]; [lia|]. cbn [read_items map join].
  destruct l as [|v' l].
  - cbn [map]. rewrite Hv; [done|done|lia|done].
  - cbn [map]. cbn [map] in IH. rewrite <- !str_app_assoc, Hv; [|done|lia|done].
    cbn [skip_space]. change (skip_space ("," +:+ ?x)) with ("," +:+ x).
    change ("," +:+ ?x) with (String "," x). cbv beta iota.
    rewrite IH; [|done|done|lia]. by rewrite <- app_assoc.
Qed.

Definition member_text (kv : string * json) : string := json_quote kv.1 +:+ ":" +:+ json_stringify kv.2.

Lemma member_text_app k v t :
  member_text (k, v) +:+ t = String dquote (quote_body k +:+ String dquote (String ":" (json_stringify v +:+ t))).
Proof.
  unfold member_text, json_quote. cbn [fst snd]. rewrite <- str_app_assoc, str_app_cons. f_equal.
  rewrite <- str_app_assoc. done.
Qed.

Lemma set_prop_fresh k v o : k ∉ map fst o → set_prop k v o = o ++ [(k, v)].
Proof.
  intros Hk. unfold set_prop. destruct (existsb _ o) eqn:E; [|done]. exfalso. apply Hk.
  apply existsb_exists in E as ([k' v'] & Hin & E). apply bool_decide_eq_true in E as <-.
  apply list_elem_of_In, in_map_iff. by exists (k', v').
Qed.

(** Reading up to the value of a member. *)
Lemma read_member_step kv fuel t acc :
  reads_back kv.2 → readable kv.2 = true → (need kv.2 ≤ fuel)%nat → delimited t = true →
  read_members number (S fuel) (member_text kv +:+ t) acc =
  match t with
  | String "," t' => read_members number fuel t' (set_prop kv.1 kv.2 acc)
  | String "}" t' => Some (set_prop kv.1 kv.2 acc, t')
  | _ => None
  end.
Proof.
  intros Hv Hr Hn Ht. destruct kv as [k v]. cbn [fst snd] in *. rewrite member_text_app. cbn [read_members skip_space].
  change (is_json_space dquote) with false. cbv beta iota. change (Ascii.eqb dquote dquote) with true. cbv beta iota.
  rewrite quoted_read. cbn [skip_space]. change (is_json_space ":") with false. cbv beta iota.
  rewrite Hv by done. by rewrite delimited_skip.
Qed.

Lemma read_members_printed fs acc fuel rest :
  Forall (λ kv, reads_back kv.2) fs → forallb (λ kv, readable kv.2) fs = true → NoDup (map fst (acc ++ fs)) →
  fs ≠ [] → (need_members fs ≤ fuel)%nat →
  read_members number fuel (join "," (map member_text fs) +:+ "}" +:+ rest) acc = Some (acc ++ fs, rest).
Proof.
  intros HF. revert acc fuel. induction HF as [|kv fs Hv HF IH]; [done|]. intros acc fuel Hr Hd _ Hn.
  cbn [forallb] in Hr. apply andb_true_iff in Hr as [Hrv Hrl]. cbn [need_members fold_right] in Hn.
  fold (need_members fs) in Hn. destruct fuel as [|fuel]; [lia|].
  assert (Hk : kv.1 ∉ map fst acc).
  { rewrite map_app in Hd. apply NoDup_app in Hd as (_ & Hd & _). intros Hin. apply (Hd _ Hin). left. }
  assert (Hkv : (kv.1, kv.2) = kv) by (by destruct kv).
  cbn [map join]. destruct fs as [|kv' fs].
  - cbn [map]. rewrite read_member_step; [|done|done|lia|done].
    change ("}" +:+ rest) with (String "}" rest). cbv beta iota. by rewrite set_prop_fresh, Hkv by done.
  - cbn [map]. cbn [map] in IH. rewrite <- !str_app_assoc, read_member_step; [|done|done|lia|done].
    change ("," +:+ ?x) with (String "," x). cbv beta iota. rewrite set_prop_fresh, Hkv by done.
    rewrite IH; [|done|by rewrite <- app_assoc|done|lia]. by rewrite <- app_assoc.
Qed.

Lemma read_printed v : reads_back v.
Proof.
  induction v as [|b|n|s|l HF|fs HF] using json_nested_ind; intros Hr [|fuel] rest Hn Hd;
    try (by simpl in Hn; lia).
  - apply (read_literal_app "null").
  - destruct b; [apply (read_literal_app "true")|apply (read_literal_app "false")].
  - destruct (number_reads_text n Hr) as (Hf & Hnum & Ht & c & t & E & Hc).
    cbn [json_stringify]. rewrite Hf. cbn [read_value]. rewrite E, str_app_cons. cbn [skip_space].
    destruct (num_char_head c Hc) as (Hs & E1 & E2 & E3 & E4 & E5 & E6 & _). rewrite Hs, E1, E2, E3, E4, E5, E6.
    rewrite <- str_app_cons, <- E. unfold read_number. rewrite num_token_text, Hnum, Hf by done. by rewrite E.
  - cbn [json_stringify read_value]. unfold json_quote. rewrite str_app_cons. cbn [skip_space].
    change (is_json_space dquote) with false. cbv beta iota. change (Ascii.eqb dquote dquote) with true. cbv beta iota.
    rewrite <- str_app_assoc. change (String dquote "" +:+ rest) with (String dquote rest). by rewrite quoted_read.
  - cbn [json_stringify readable] in *. cbn [need] in Hn. fold (need_items l) in Hn.
    rewrite <- !str_app_assoc. change ("[" +:+ ?x) with (String "[" x). cbn [read_value skip_space].
    change (is_json_space "[") with false. change (Ascii.eqb "[" dquote) with false.
    change (Ascii.eqb "[" "[") with true. cbv beta iota.
    destruct l as [|v l]; [done|]. assert (Hitems := read_items_printed (v :: l) [] fuel rest HF Hr ltac:(done) ltac:(lia)).
    assert (Hr' := Hr). cbn [forallb] in Hr'. apply andb_true_iff in Hr' as [Hrv _].
    destruct (first_char v Hrv) as (c & t & Ec & Hs & Hb & _).
    assert (Ej : ∃ t', join "," (map json_stringify (v :: l)) +:+ "]" +:+ rest = String c t').
    { cbn [map join]. rewrite Ec. destruct (map json_stringify l); rewrite ?str_app_cons; eauto. }
    destruct Ej as [t' Ej]. rewrite Ej in *. cbn [skip_space]. rewrite Hs, Hitems.
    destruct c as [[] [] [] [] [] [] [] []]; done.
  - cbn [json_stringify readable] in *. cbn [need] in Hn. fold (need_members fs) in Hn. fold member_text.
    apply andb_true_iff in Hr as [Hr Hnd%bool_decide_eq_true].
    rewrite <- !str_app_assoc. change ("{" +:+ ?x) with (String "{" x). cbn [read_value skip_space].
    change (is_json_space "{") with false. change (Ascii.eqb "{" dquote) with false.
    change (Ascii.eqb "{" "[") with false. change (Ascii.eqb "{" "{") with true. cbv beta iota.
    destruct fs as [|kv fs]; [done|].
    assert (Hm := read_members_printed (kv :: fs) [] fuel rest HF Hr Hnd ltac:(done) ltac:(lia)).
    assert (Ej : ∃ t', join "," (map member_text (kv :: fs)) +:+ "}" +:+ rest = String dquote t').
    { destruct kv as [k v]. cbn [map join].
      destruct (map member_text fs); rewrite <- ?str_app_assoc, member_text_app; eauto. }
    destruct Ej as [t' Ej]. rewrite Ej in *. cbn [skip_space].
    change (is_json_space dquote) with false. cbv beta iota. by rewrite Hm.
Qed.

Lemma need_items_bound l :
  Forall (λ v, need v ≤ 2 * String.length (json_stringify v))%nat l →
  (need_items l ≤ 2 * String.length (join "," (map json_stringify l)) + 1)%nat.
Proof.
  induction 1 as [|v l Hv HF IH]; [simpl; lia|]. cbn [need_items fold_right map join]. fold (need_items l).
  destruct l as [|v' l]; [cbn [map need_items fold_right] in *; lia|]. cbn [map] in *. rewrite !str_app_length. cbn [String.length]. lia.
Qed.

Lemma need_members_bound fs :
  Forall (λ kv, need kv.2 ≤ 2 * String.length (json_stringify kv.2))%nat fs →
  (need_members fs ≤ 2 * String.length (join "," (map member_text fs)) + 1)%nat.
Proof.
  induction 1 as [|kv fs Hv HF IH]; [simpl; lia|]. cbn [need_members fold_right map join]. fold (need_members fs).
  assert (String.length (json_stringify kv.2) ≤ String.length (member_text kv))%nat
    by (unfold member_text; rewrite !str_app_length; lia).
  destruct fs as [|kv' fs]; [cbn [map need_members fold_right] in *; lia|]. cbn [map] in *. rewrite !str_app_length. cbn [String.length]. lia.
Qed.

Lemma need_bound v : readable v = true → (need v ≤ 2 * String.length (json_stringify v))%nat.
Proof.
  induction v as [|b|n|s|l HF|fs HF] using json_nested_ind; intros Hr;
    try (destruct (first_char _ Hr) as (c & t & -> & _); simpl; lia).
  - cbn [readable] in Hr. rewrite forallb_forall in Hr. cbn [need json_stringify]. fold (need_items l).
    pose proof (need_items_bound l) as Hb. rewrite !str_app_length. cbn [String.length].
    match type of Hb with ?P → _ => assert (Hp : P); [|specialize (Hb Hp); lia] end. rewrite Forall_forall in *. intros v Hv. apply HF; [done|]. apply Hr. by apply list_elem_of_In.
  - cbn [readable] in Hr. apply andb_true_iff in Hr as [Hr _]. rewrite forallb_forall in Hr.
    cbn [need json_stringify]. fold (need_members fs). change (λ kv, json_quote kv.1 +:+ _) with member_text.
    pose proof (need_members_bound fs) as Hb. rewrite !str_app_length. cbn [String.length].
    match type of Hb with ?P → _ => assert (Hp : P); [|specialize (Hb Hp); lia] end. rewrite Forall_forall in *. intros v Hv. apply HF; [done|]. apply Hr. by apply list_elem_of_In.
Qed.

(** Reading inverts printing. *)
Lemma read_json_stringify v : readable v = true → read_json number (json_stringify v) = Some v.
Proof.
  intros Hr. unfold read_json. pose proof (need_bound v Hr) as Hn.
  assert (E := read_printed v Hr (S (2 * String.length (json_stringify v))) "" ltac:(lia) ltac:(done)).
  rewrite str_app_nil_r in E. by rewrite E.
Qed.
End reading.
