(* ===== verification/Types.v ===== *)
(** Entity types of the control plane (src/host/src/control-plane/types.ts and
    the signing rows of storage/driver.ts).  One record per entity with the
    source's field names under a per-entity prefix, one inductive type per
    string union.  A nullable column is an [option]; JSON columns are held
    decoded, as the row mappers of storage/sqlite.ts hand them out. *)

From S2P Require Import Prelude JsVal.

(** ** String unions *)

Inductive OrgTier := OT_free | OT_paid.
Inductive ReleaseStatus := RS_building | RS_ready | RS_failed.
Inductive ArtifactKind := AK_blob | AK_image_ref.
Inductive TargetKind := TK_vm_test | TK_vm_demo | TK_docker_test | TK_docker_demo | TK_k8s_test | TK_k8s_demo | TK_cloud_vm | TK_cloud_stack.
Inductive DeploymentStatus := DS_pending | DS_deploying | DS_active | DS_failed | DS_superseded | DS_rolled_back.
Inductive HealthStatus := HS_pass | HS_fail | HS_degraded.
Inductive ScenarioSource := SS_disk | SS_db | SS_gitops.
Inductive RunTriggeredBy := RT_cli | RT_api | RT_deployment | RT_schedule.
Inductive PromotionGateKind := GK_auto | GK_manual | GK_time_delay.
Inductive ApprovalStatus := AS_pending | AS_approved | AS_rejected | AS_auto_approved.
Inductive WebhookKind := WK_generic | WK_slack | WK_email.
Inductive JobStatus := JS_pending | JS_claimed | JS_running | JS_succeeded | JS_failed.
Inductive KeyAlgorithm := KA_ed25519 | KA_ecdsa_p256_sha256 | KA_ml_dsa_65.
Inductive PairRole := PR_classical | PR_post_quantum.

#[export] Instance OrgTier_eq_dec : EqDecision OrgTier.
Proof. solve_decision. Defined.
#[export] Instance ReleaseStatus_eq_dec : EqDecision ReleaseStatus.
Proof. solve_decision. Defined.
#[export] Instance ArtifactKind_eq_dec : EqDecision ArtifactKind.
Proof. solve_decision. Defined.
#[export] Instance TargetKind_eq_dec : EqDecision TargetKind.
Proof. solve_decision. Defined.
#[export] Instance DeploymentStatus_eq_dec : EqDecision DeploymentStatus.
Proof. solve_decision. Defined.
#[export] Instance HealthStatus_eq_dec : EqDecision HealthStatus.
Proof. solve_decision. Defined.
#[export] Instance ScenarioSource_eq_dec : EqDecision ScenarioSource.
Proof. solve_decision. Defined.
#[export] Instance RunTriggeredBy_eq_dec : EqDecision RunTriggeredBy.
Proof. solve_decision. Defined.
#[export] Instance PromotionGateKind_eq_dec : EqDecision PromotionGateKind.
Proof. solve_decision. Defined.
#[export] Instance ApprovalStatus_eq_dec : EqDecision ApprovalStatus.
Proof. solve_decision. Defined.
#[export] Instance WebhookKind_eq_dec : EqDecision WebhookKind.
Proof. solve_decision. Defined.
#[export] Instance JobStatus_eq_dec : EqDecision JobStatus.
Proof. solve_decision. Defined.
#[export] Instance KeyAlgorithm_eq_dec : EqDecision KeyAlgorithm.
Proof. solve_decision. Defined.
#[export] Instance PairRole_eq_dec : EqDecision PairRole.
Proof. solve_decision. Defined.

(** The text of each status, as it is stored and interpolated. *)

Definition ReleaseStatus_text (x : ReleaseStatus) : string :=
  match x with
  | RS_building => "building"
  | RS_ready => "ready"
  | RS_failed => "failed"
  end.

Definition ArtifactKind_text (x : ArtifactKind) : string :=
  match x with
  | AK_blob => "blob"
  | AK_image_ref => "image_ref"
  end.

Definition TargetKind_text (x : TargetKind) : string :=
  match x with
  | TK_vm_test => "vm_test"
  | TK_vm_demo => "vm_demo"
  | TK_docker_test => "docker_test"
  | TK_docker_demo => "docker_demo"
  | TK_k8s_test => "k8s_test"
  | TK_k8s_demo => "k8s_demo"
  | TK_cloud_vm => "cloud_vm"
  | TK_cloud_stack => "cloud_stack"
  end.

Definition DeploymentStatus_text (x : DeploymentStatus) : string :=
  match x with
  | DS_pending => "pending"
  | DS_deploying => "deploying"
  | DS_active => "active"
  | DS_failed => "failed"
  | DS_superseded => "superseded"
  | DS_rolled_back => "rolled_back"
  end.

Definition HealthStatus_text (x : HealthStatus) : string :=
  match x with
  | HS_pass => "pass"
  | HS_fail => "fail"
  | HS_degraded => "degraded"
  end.

Definition PromotionGateKind_text (x : PromotionGateKind) : string :=
  match x with
  | GK_auto => "auto"
  | GK_manual => "manual"
  | GK_time_delay => "time_delay"
  end.

Definition ApprovalStatus_text (x : ApprovalStatus) : string :=
  match x with
  | AS_pending => "pending"
  | AS_approved => "approved"
  | AS_rejected => "rejected"
  | AS_auto_approved => "auto_approved"
  end.

Definition JobStatus_text (x : JobStatus) : string :=
  match x with
  | JS_pending => "pending"
  | JS_claimed => "claimed"
  | JS_running => "running"
  | JS_succeeded => "succeeded"
  | JS_failed => "failed"
  end.

(** ** Entities *)

Record Org := mkOrg {
  org_id : string;
  org_name : string;
  org_tier : OrgTier;
  org_createdAt : string;
  org_updatedAt : string;
  org_deletedAt : option string
}.

Record ApiKey := mkApiKey {
  ak_id : string;
  ak_orgId : string;
  ak_prefix : string;
  ak_hash : string;
  ak_name : string;
  ak_expiresAt : option string;
  ak_createdAt : string;
  ak_updatedAt : string;
  ak_deletedAt : option string
}.

Record Product := mkProduct {
  pr_id : string;
  pr_orgId : string;
  pr_name : string;
  pr_repoUrl : string;
  pr_buildYamlPath : string;
  pr_createdAt : string;
  pr_updatedAt : string;
  pr_deletedAt : option string
}.

Record Release := mkRelease {
  rel_id : string;
  rel_orgId : string;
  rel_productId : string;
  rel_tag : string;
  rel_commitSha : string;
  rel_manifestSha256 : option string;
  rel_signedBy : option string;
  rel_signatureB64 : option string;
  rel_builtAt : option string;
  rel_builtByRunnerId : option string;
  rel_status : ReleaseStatus;
  rel_buildYamlJson : option string;
  rel_createdAt : string;
  rel_updatedAt : string;
  rel_deletedAt : option string
}.

Record Artifact := mkArtifact {
  art_id : string;
  art_releaseId : string;
  art_component : string;
  art_kind : ArtifactKind;
  art_sha256 : option string;
  art_sizeBytes : option Z;
  art_blobUri : option string;
  art_imageRef : option string;
  art_createdAt : string;
  art_updatedAt : string;
  art_deletedAt : option string
}.

Record Target := mkTarget {
  tg_id : string;
  tg_orgId : string;
  tg_name : string;
  tg_kind : TargetKind;
  tg_connection : json_object;
  tg_createdAt : string;
  tg_updatedAt : string;
  tg_deletedAt : option string
}.

Record DeploymentHealthSummary := mkDeploymentHealthSummary {
  hsum_total : Z;
  hsum_pass : Z;
  hsum_fail : Z;
  hsum_degraded : Z;
  hsum_lastCheckedAt : option string
}.

Record Deployment := mkDeployment {
  dep_id : string;
  dep_orgId : string;
  dep_releaseId : string;
  dep_targetId : string;
  dep_status : DeploymentStatus;
  dep_startedAt : option string;
  dep_completedAt : option string;
  dep_previousDeploymentId : option string;
  dep_healthSummary : option DeploymentHealthSummary;
  dep_createdAt : string;
  dep_updatedAt : string;
  dep_deletedAt : option string
}.

Record HealthCheck := mkHealthCheck {
  hc_id : string;
  hc_deploymentId : string;
  hc_probeName : string;
  hc_status : HealthStatus;
  hc_latencyMs : option Z;
  hc_detail : option string;
  hc_checkedAt : string;
  hc_createdAt : string;
  hc_updatedAt : string;
  hc_deletedAt : option string
}.

Record Scenario := mkScenario {
  sc_id : string;
  sc_orgId : string;
  sc_path : string;
  sc_scenarioHash : string;
  sc_name : string;
  sc_tags : list string;
  sc_source : ScenarioSource;
  sc_createdAt : string;
  sc_updatedAt : string;
  sc_deletedAt : option string
}.

Record Run := mkRun {
  run_id : string;
  run_orgId : string;
  run_scenarioId : string;
  run_targetId : option string;
  run_triggeredBy : RunTriggeredBy;
  run_envelopeBlobUri : option string;
  run_result : option string;
  run_startedAt : option string;
  run_completedAt : option string;
  run_createdAt : string;
  run_updatedAt : string;
  run_deletedAt : option string
}.

Record PromotionPolicy := mkPromotionPolicy {
  pp_id : string;
  pp_orgId : string;
  pp_productId : string;
  pp_sourceTargetId : option string;
  pp_destTargetId : string;
  pp_gateKind : PromotionGateKind;
  pp_gateConfig : json_object;
  pp_active : bool;
  pp_description : option string;
  pp_createdAt : string;
  pp_updatedAt : string;
  pp_deletedAt : option string
}.

Record Approval := mkApproval {
  ap_id : string;
  ap_orgId : string;
  ap_policyId : string;
  ap_releaseId : string;
  ap_destTargetId : string;
  ap_status : ApprovalStatus;
  ap_autoApproveAt : option string;
  ap_decidedBy : option string;
  ap_decidedAt : option string;
  ap_reason : option string;
  ap_deployAttemptedAt : option string;
  ap_deployOutcome : option string;
  ap_deployDeploymentId : option string;
  ap_requiresHealthGate : bool;
  ap_createdAt : string;
  ap_updatedAt : string;
  ap_deletedAt : option string
}.

Record PromotionHealthGate := mkPromotionHealthGate {
  hg_min_pass_count : Z;
  hg_window_minutes : Z
}.

Record WebhookSubscription := mkWebhookSubscription {
  wh_id : string;
  wh_orgId : string;
  wh_kind : WebhookKind;
  wh_url : string;
  wh_secretHmacKey : option string;
  wh_eventKinds : list string;
  wh_active : bool;
  wh_description : option string;
  wh_createdAt : string;
  wh_updatedAt : string;
  wh_deletedAt : option string
}.

Record HealthSchedule := mkHealthSchedule {
  hs_id : string;
  hs_orgId : string;
  hs_targetId : string;
  hs_intervalSeconds : Z;
  hs_probeNames : list string;
  hs_lastRunAt : option string;
  hs_active : bool;
  hs_createdAt : string;
  hs_updatedAt : string;
  hs_deletedAt : option string
}.

Record Job := mkJob {
  job_id : string;
  job_orgId : string;
  job_kind : string;
  job_input : json_object;
  job_status : JobStatus;
  job_result : option json_object;
  job_error : option string;
  job_claimedBy : option string;
  job_claimedAt : option string;
  job_startedAt : option string;
  job_completedAt : option string;
  job_createdAt : string;
  job_updatedAt : string;
  job_deletedAt : option string
}.

Record Runner := mkRunner {
  rn_id : string;
  rn_orgId : string;
  rn_name : string;
  rn_lastSeenAt : string;
  rn_registeredAt : string;
  rn_meta : option json_object;
  rn_createdAt : string;
  rn_updatedAt : string;
  rn_deletedAt : option string
}.

Record AuditLogEntry := mkAuditLogEntry {
  al_id : string;
  al_orgId : string;
  al_actor : string;
  al_action : string;
  al_entityType : string;
  al_entityId : string;
  al_detail : option json_object;
  al_at : string;
  al_createdAt : string
}.

Record CloudOrgBudget := mkCloudOrgBudget {
  cb_orgId : string;
  cb_monthlyCentsLimit : Z;
  cb_softWarnPct : Z;
  cb_createdAt : string;
  cb_updatedAt : string
}.

Record CloudOrgUsage := mkCloudOrgUsage {
  cu_id : string;
  cu_orgId : string;
  cu_backend : string;
  cu_instanceId : string;
  cu_instanceType : string;
  cu_region : string;
  cu_startedAt : string;
  cu_terminatedAt : option string;
  cu_estimatedCents : Z
}.

Record CloudOrgCredential := mkCloudOrgCredential {
  cc_id : string;
  cc_orgId : string;
  cc_backend : string;
  cc_ciphertextB64 : string;
  cc_encryptionMethod : string;
  cc_redactedHint : string;
  cc_createdAt : string;
  cc_updatedAt : string
}.

Record SigningProviderKey := mkSigningProviderKey {
  sk_id : string;
  sk_orgId : string;
  sk_provider : string;
  sk_keyId : string;
  sk_algorithm : KeyAlgorithm;
  sk_fingerprint : string;
  sk_publicKeyB64 : string;
  sk_pairId : option string;
  sk_pairRole : option PairRole;
  sk_hybridAlias : option string;
  sk_label : option string;
  sk_addedBy : string;
  sk_addedAt : string;
  sk_revokedAt : option string;
  sk_revokedBy : option string;
  sk_revokeReason : option string;
  sk_rotatedTo : option string;
  sk_createdAt : string;
  sk_updatedAt : string;
  sk_deletedAt : option string
}.

Record SigningNonce := mkSigningNonce {
  sn_orgId : string;
  sn_actorCn : string;
  sn_nonce : string;
  sn_requestedAt : string;
  sn_fingerprint : option string
}.
