(* ===== verification/World.v ===== *)
(** The relational store and the effect monad.

    The schema is the one the migrations of
    src/host/src/control-plane/storage/migrations create: a database is one list
    of rows per table, in insertion order, with the primary keys, the partial
    UNIQUE indexes, the foreign keys and the CHECK constraints of the SQL.
    [sql_insert], [sql_update] and [sql_delete] are the INSERT, UPDATE and
    DELETE statements of storage/sqlite.ts: a statement that violates a
    constraint has no effect and reports the engine's message.

    [M X A] is the effect of the TypeScript code: it reads and writes the
    database, reads the clock, draws identifiers, acts on an external world
    [X], and returns a value or throws.  State changes made before a throw
    stay. *)

From S2P Require Import Prelude JsTime JsVal Types.

(** ** Schema *)

Inductive table :=
| T_org
| T_api_key
| T_product
| T_release
| T_artifact
| T_audit_log
| T_target
| T_deployment
| T_health_check
| T_scenario
| T_run
| T_job
| T_cloud_org_budget
| T_cloud_org_usage
| T_cloud_org_credential
| T_health_schedule
| T_webhook_subscription
| T_promotion_policy
| T_approval
| T_runner
| T_signing_provider_key
| T_signing_nonce.

#[export] Instance table_eq_dec : EqDecision table.
Proof. solve_decision. Defined.

Definition row_of (T : table) : Type :=
  match T with
  | T_org => Org
  | T_api_key => ApiKey
  | T_product => Product
  | T_release => Release
  | T_artifact => Artifact
  | T_audit_log => AuditLogEntry
  | T_target => Target
  | T_deployment => Deployment
  | T_health_check => HealthCheck
  | T_scenario => Scenario
  | T_run => Run
  | T_job => Job
  | T_cloud_org_budget => CloudOrgBudget
  | T_cloud_org_usage => CloudOrgUsage
  | T_cloud_org_credential => CloudOrgCredential
  | T_health_schedule => HealthSchedule
  | T_webhook_subscription => WebhookSubscription
  | T_promotion_policy => PromotionPolicy
  | T_approval => Approval
  | T_runner => Runner
  | T_signing_provider_key => SigningProviderKey
  | T_signing_nonce => SigningNonce
  end.

Record DB := mkDB {
  db_org : list Org;
  db_api_key : list ApiKey;
  db_product : list Product;
  db_release : list Release;
  db_artifact : list Artifact;
  db_audit_log : list AuditLogEntry;
  db_target : list Target;
  db_deployment : list Deployment;
  db_health_check : list HealthCheck;
  db_scenario : list Scenario;
  db_run : list Run;
  db_job : list Job;
  db_cloud_org_budget : list CloudOrgBudget;
  db_cloud_org_usage : list CloudOrgUsage;
  db_cloud_org_credential : list CloudOrgCredential;
  db_health_schedule : list HealthSchedule;
  db_webhook_subscription : list WebhookSubscription;
  db_promotion_policy : list PromotionPolicy;
  db_approval : list Approval;
  db_runner : list Runner;
  db_signing_provider_key : list SigningProviderKey;
  db_signing_nonce : list SigningNonce
}.

Definition empty_db : DB :=
  mkDB [] [] [] [] [] [] [] [] [] [] [] [] [] [] [] [] [] [] [] [] [] [].

Definition tget (T : table) : DB → list (row_of T) :=
  match T with
  | T_org => db_org
  | T_api_key => db_api_key
  | T_product => db_product
  | T_release => db_release
  | T_artifact => db_artifact
  | T_audit_log => db_audit_log
  | T_target => db_target
  | T_deployment => db_deployment
  | T_health_check => db_health_check
  | T_scenario => db_scenario
  | T_run => db_run
  | T_job => db_job
  | T_cloud_org_budget => db_cloud_org_budget
  | T_cloud_org_usage => db_cloud_org_usage
  | T_cloud_org_credential => db_cloud_org_credential
  | T_health_schedule => db_health_schedule
  | T_webhook_subscription => db_webhook_subscription
  | T_promotion_policy => db_promotion_policy
  | T_approval => db_approval
  | T_runner => db_runner
  | T_signing_provider_key => db_signing_provider_key
  | T_signing_nonce => db_signing_nonce
  end.

Definition tset (T : table) : list (row_of T) → DB → DB :=
  match T with
  | T_org => λ l d,
      mkDB l (db_api_key d) (db_product d) (db_release d) (db_artifact d) (db_audit_log d)
        (db_target d) (db_deployment d) (db_health_check d) (db_scenario d) (db_run d)
        (db_job d) (db_cloud_org_budget d) (db_cloud_org_usage d) (db_cloud_org_credential
        d) (db_health_schedule d) (db_webhook_subscription d) (db_promotion_policy d)
        (db_approval d) (db_runner d) (db_signing_provider_key d) (db_signing_nonce d)
  | T_api_key => λ l d,
      mkDB (db_org d) l (db_product d) (db_release d) (db_artifact d) (db_audit_log d)
        (db_target d) (db_deployment d) (db_health_check d) (db_scenario d) (db_run d)
        (db_job d) (db_cloud_org_budget d) (db_cloud_org_usage d) (db_cloud_org_credential
        d) (db_health_schedule d) (db_webhook_subscription d) (db_promotion_policy d)
        (db_approval d) (db_runner d) (db_signing_provider_key d) (db_signing_nonce d)
  | T_product => λ l d,
      mkDB (db_org d) (db_api_key d) l (db_release d) (db_artifact d) (db_audit_log d)
        (db_target d) (db_deployment d) (db_health_check d) (db_scenario d) (db_run d)
        (db_job d) (db_cloud_org_budget d) (db_cloud_org_usage d) (db_cloud_org_credential
        d) (db_health_schedule d) (db_webhook_subscription d) (db_promotion_policy d)
        (db_approval d) (db_runner d) (db_signing_provider_key d) (db_signing_nonce d)
  | T_release => λ l d,
      mkDB (db_org d) (db_api_key d) (db_product d) l (db_artifact d) (db_audit_log d)
        (db_target d) (db_deployment d) (db_health_check d) (db_scenario d) (db_run d)
        (db_job d) (db_cloud_org_budget d) (db_cloud_org_usage d) (db_cloud_org_credential
        d) (db_health_schedule d) (db_webhook_subscription d) (db_promotion_policy d)
        (db_approval d) (db_runner d) (db_signing_provider_key d) (db_signing_nonce d)
  | T_artifact => λ l d,
      mkDB (db_org d) (db_api_key d) (db_product d) (db_release d) l (db_audit_log d)
        (db_target d) (db_deployment d) (db_health_check d) (db_scenario d) (db_run d)
        (db_job d) (db_cloud_org_budget d) (db_cloud_org_usage d) (db_cloud_org_credential
        d) (db_health_schedule d) (db_webhook_subscription d) (db_promotion_policy d)
        (db_approval d) (db_runner d) (db_signing_provider_key d) (db_signing_nonce d)
  | T_audit_log => λ l d,
      mkDB (db_org d) (db_api_key d) (db_product d) (db_release d) (db_artifact d) l
        (db_target d) (db_deployment d) (db_health_check d) (db_scenario d) (db_run d)
        (db_job d) (db_cloud_org_budget d) (db_cloud_org_usage d) (db_cloud_org_credential
        d) (db_health_schedule d) (db_webhook_subscription d) (db_promotion_policy d)
        (db_approval d) (db_runner d) (db_signing_provider_key d) (db_signing_nonce d)
  | T_target => λ l d,
      mkDB (db_org d) (db_api_key d) (db_product d) (db_release d) (db_artifact d)
        (db_audit_log d) l (db_deployment d) (db_health_check d) (db_scenario d) (db_run d)
        (db_job d) (db_cloud_org_budget d) (db_cloud_org_usage d) (db_cloud_org_credential
        d) (db_health_schedule d) (db_webhook_subscription d) (db_promotion_policy d)
        (db_approval d) (db_runner d) (db_signing_provider_key d) (db_signing_nonce d)
  | T_deployment => λ l d,
      mkDB (db_org d) (db_api_key d) (db_product d) (db_release d) (db_artifact d)
        (db_audit_log d) (db_target d) l (db_health_check d) (db_scenario d) (db_run d)
        (db_job d) (db_cloud_org_budget d) (db_cloud_org_usage d) (db_cloud_org_credential
        d) (db_health_schedule d) (db_webhook_subscription d) (db_promotion_policy d)
        (db_approval d) (db_runner d) (db_signing_provider_key d) (db_signing_nonce d)
  | T_health_check => λ l d,
      mkDB (db_org d) (db_api_key d) (db_product d) (db_release d) (db_artifact d)
        (db_audit_log d) (db_target d) (db_deployment d) l (db_scenario d) (db_run d)
        (db_job d) (db_cloud_org_budget d) (db_cloud_org_usage d) (db_cloud_org_credential
        d) (db_health_schedule d) (db_webhook_subscription d) (db_promotion_policy d)
        (db_approval d) (db_runner d) (db_signing_provider_key d) (db_signing_nonce d)
  | T_scenario => λ l d,
      mkDB (db_org d) (db_api_key d) (db_product d) (db_release d) (db_artifact d)
        (db_audit_log d) (db_target d) (db_deployment d) (db_health_check d) l (db_run d)
        (db_job d) (db_cloud_org_budget d) (db_cloud_org_usage d) (db_cloud_org_credential
        d) (db_health_schedule d) (db_webhook_subscription d) (db_promotion_policy d)
        (db_approval d) (db_runner d) (db_signing_provider_key d) (db_signing_nonce d)
  | T_run => λ l d,
      mkDB (db_org d) (db_api_key d) (db_product d) (db_release d) (db_artifact d)
        (db_audit_log d) (db_target d) (db_deployment d) (db_health_check d) (db_scenario d)
        l (db_job d) (db_cloud_org_budget d) (db_cloud_org_usage d) (db_cloud_org_credential
        d) (db_health_schedule d) (db_webhook_subscription d) (db_promotion_policy d)
        (db_approval d) (db_runner d) (db_signing_provider_key d) (db_signing_nonce d)
  | T_job => λ l d,
      mkDB (db_org d) (db_api_key d) (db_product d) (db_release d) (db_artifact d)
        (db_audit_log d) (db_target d) (db_deployment d) (db_health_check d) (db_scenario d)
        (db_run d) l (db_cloud_org_budget d) (db_cloud_org_usage d) (db_cloud_org_credential
        d) (db_health_schedule d) (db_webhook_subscription d) (db_promotion_policy d)
        (db_approval d) (db_runner d) (db_signing_provider_key d) (db_signing_nonce d)
  | T_cloud_org_budget => λ l d,
      mkDB (db_org d) (db_api_key d) (db_product d) (db_release d) (db_artifact d)
        (db_audit_log d) (db_target d) (db_deployment d) (db_health_check d) (db_scenario d)
        (db_run d) (db_job d) l (db_cloud_org_usage d) (db_cloud_org_credential d)
        (db_health_schedule d) (db_webhook_subscription d) (db_promotion_policy d)
        (db_approval d) (db_runner d) (db_signing_provider_key d) (db_signing_nonce d)
  | T_cloud_org_usage => λ l d,
      mkDB (db_org d) (db_api_key d) (db_product d) (db_release d) (db_artifact d)
        (db_audit_log d) (db_target d) (db_deployment d) (db_health_check d) (db_scenario d)
        (db_run d) (db_job d) (db_cloud_org_budget d) l (db_cloud_org_credential d)
        (db_health_schedule d) (db_webhook_subscription d) (db_promotion_policy d)
        (db_approval d) (db_runner d) (db_signing_provider_key d) (db_signing_nonce d)
  | T_cloud_org_credential => λ l d,
      mkDB (db_org d) (db_api_key d) (db_product d) (db_release d) (db_artifact d)
        (db_audit_log d) (db_target d) (db_deployment d) (db_health_check d) (db_scenario d)
        (db_run d) (db_job d) (db_cloud_org_budget d) (db_cloud_org_usage d) l
        (db_health_schedule d) (db_webhook_subscription d) (db_promotion_policy d)
        (db_approval d) (db_runner d) (db_signing_provider_key d) (db_signing_nonce d)
  | T_health_schedule => λ l d,
      mkDB (db_org d) (db_api_key d) (db_product d) (db_release d) (db_artifact d)
        (db_audit_log d) (db_target d) (db_deployment d) (db_health_check d) (db_scenario d)
        (db_run d) (db_job d) (db_cloud_org_budget d) (db_cloud_org_usage d)
        (db_cloud_org_credential d) l (db_webhook_subscription d) (db_promotion_policy d)
        (db_approval d) (db_runner d) (db_signing_provider_key d) (db_signing_nonce d)
  | T_webhook_subscription => λ l d,
      mkDB (db_org d) (db_api_key d) (db_product d) (db_release d) (db_artifact d)
        (db_audit_log d) (db_target d) (db_deployment d) (db_health_check d) (db_scenario d)
        (db_run d) (db_job d) (db_cloud_org_budget d) (db_cloud_org_usage d)
        (db_cloud_org_credential d) (db_health_schedule d) l (db_promotion_policy d)
        (db_approval d) (db_runner d) (db_signing_provider_key d) (db_signing_nonce d)
  | T_promotion_policy => λ l d,
      mkDB (db_org d) (db_api_key d) (db_product d) (db_release d) (db_artifact d)
        (db_audit_log d) (db_target d) (db_deployment d) (db_health_check d) (db_scenario d)
        (db_run d) (db_job d) (db_cloud_org_budget d) (db_cloud_org_usage d)
        (db_cloud_org_credential d) (db_health_schedule d) (db_webhook_subscription d) l
        (db_approval d) (db_runner d) (db_signing_provider_key d) (db_signing_nonce d)
  | T_approval => λ l d,
      mkDB (db_org d) (db_api_key d) (db_product d) (db_release d) (db_artifact d)
        (db_audit_log d) (db_target d) (db_deployment d) (db_health_check d) (db_scenario d)
        (db_run d) (db_job d) (db_cloud_org_budget d) (db_cloud_org_usage d)
        (db_cloud_org_credential d) (db_health_schedule d) (db_webhook_subscription d)
        (db_promotion_policy d) l (db_runner d) (db_signing_provider_key d)
        (db_signing_nonce d)
  | T_runner => λ l d,
      mkDB (db_org d) (db_api_key d) (db_product d) (db_release d) (db_artifact d)
        (db_audit_log d) (db_target d) (db_deployment d) (db_health_check d) (db_scenario d)
        (db_run d) (db_job d) (db_cloud_org_budget d) (db_cloud_org_usage d)
        (db_cloud_org_credential d) (db_health_schedule d) (db_webhook_subscription d)
        (db_promotion_policy d) (db_approval d) l (db_signing_provider_key d)
        (db_signing_nonce d)
  | T_signing_provider_key => λ l d,
      mkDB (db_org d) (db_api_key d) (db_product d) (db_release d) (db_artifact d)
        (db_audit_log d) (db_target d) (db_deployment d) (db_health_check d) (db_scenario d)
        (db_run d) (db_job d) (db_cloud_org_budget d) (db_cloud_org_usage d)
        (db_cloud_org_credential d) (db_health_schedule d) (db_webhook_subscription d)
        (db_promotion_policy d) (db_approval d) (db_runner d) l (db_signing_nonce d)
  | T_signing_nonce => λ l d,
      mkDB (db_org d) (db_api_key d) (db_product d) (db_release d) (db_artifact d)
        (db_audit_log d) (db_target d) (db_deployment d) (db_health_check d) (db_scenario d)
        (db_run d) (db_job d) (db_cloud_org_budget d) (db_cloud_org_usage d)
        (db_cloud_org_credential d) (db_health_schedule d) (db_webhook_subscription d)
        (db_promotion_policy d) (db_approval d) (db_runner d) (db_signing_provider_key d) l
  end.

(** Primary key columns. *)
Definition row_pkey (T : table) : row_of T → list string :=
  match T with
  | T_org => λ r, [org_id r]
  | T_api_key => λ r, [ak_id r]
  | T_product => λ r, [pr_id r]
  | T_release => λ r, [rel_id r]
  | T_artifact => λ r, [art_id r]
  | T_audit_log => λ r, [al_id r]
  | T_target => λ r, [tg_id r]
  | T_deployment => λ r, [dep_id r]
  | T_health_check => λ r, [hc_id r]
  | T_scenario => λ r, [sc_id r]
  | T_run => λ r, [run_id r]
  | T_job => λ r, [job_id r]
  | T_cloud_org_budget => λ r, [cb_orgId r]
  | T_cloud_org_usage => λ r, [cu_id r]
  | T_cloud_org_credential => λ r, [cc_id r]
  | T_health_schedule => λ r, [hs_id r]
  | T_webhook_subscription => λ r, [wh_id r]
  | T_promotion_policy => λ r, [pp_id r]
  | T_approval => λ r, [ap_id r]
  | T_runner => λ r, [rn_id r]
  | T_signing_provider_key => λ r, [sk_id r]
  | T_signing_nonce => λ r, [sn_orgId r; sn_actorCn r; sn_nonce r]
  end.

(** The key columns of a row under the table's UNIQUE index, when the index
    covers the row (the WHERE clause of a partial index). *)
Definition row_ukey (T : table) : row_of T → option (list string) :=
  match T with
  | T_org => λ r, if org_deletedAt r then None else Some [org_name r]
  | T_api_key => λ r, if ak_deletedAt r then None else Some [ak_prefix r]
  | T_product => λ r, if pr_deletedAt r then None else Some [pr_orgId r; pr_name r]
  | T_release => λ r, if rel_deletedAt r then None else Some [rel_productId r; rel_tag r]
  | T_target => λ r, if tg_deletedAt r then None else Some [tg_orgId r; tg_name r]
  | T_deployment => λ r,
      if bool_decide (dep_status r = DS_active)
      then (if dep_deletedAt r then None else Some [dep_targetId r]) else None
  | T_scenario => λ r, if sc_deletedAt r then None else Some [sc_orgId r; sc_path r]
  | T_cloud_org_usage => λ r, Some [cu_orgId r; cu_instanceId r]
  | T_cloud_org_credential => λ r, Some [cc_orgId r; cc_backend r]
  | T_approval => λ r,
      if ap_deletedAt r then None
      else if bool_decide (ap_status r = AS_pending) || bool_decide (is_Some (ap_deployAttemptedAt r))
      then Some [ap_releaseId r; ap_destTargetId r] else None
  | T_runner => λ r, if rn_deletedAt r then None else Some [rn_orgId r; rn_name r]
  | T_signing_provider_key => λ r, if sk_deletedAt r then None else Some [sk_orgId r; sk_fingerprint r]
  | _ => λ _, None
  end.

(** Two distinct rows that may not be in the table together. *)
Definition row_clash (T : table) (a b : row_of T) : bool :=
  bool_decide (row_pkey T a = row_pkey T b) ||
  (bool_decide (is_Some (row_ukey T a)) && bool_decide (row_ukey T a = row_ukey T b)).

(** Existence of a parent row, soft-deleted or not. *)
Definition has_key (T : table) (id : string) (d : DB) : bool :=
  existsb (λ r, bool_decide (row_pkey T r = [id])) (tget T d).

Definition has_key_opt (T : table) (id : option string) (d : DB) : bool :=
  match id with Some i => has_key T i d | None => true end.

(** Foreign keys ([PRAGMA foreign_keys = ON]). *)
Definition row_fk (T : table) : DB → row_of T → bool :=
  match T with
  | T_api_key => λ d r,
      has_key T_org (ak_orgId r) d
  | T_product => λ d r,
      has_key T_org (pr_orgId r) d
  | T_release => λ d r,
      has_key T_org (rel_orgId r) d && has_key T_product (rel_productId r) d
  | T_artifact => λ d r,
      has_key T_release (art_releaseId r) d
  | T_audit_log => λ d r,
      has_key T_org (al_orgId r) d
  | T_target => λ d r,
      has_key T_org (tg_orgId r) d
  | T_deployment => λ d r,
      has_key T_org (dep_orgId r) d && has_key T_release (dep_releaseId r) d && has_key T_target (dep_targetId r) d && has_key_opt T_deployment (dep_previousDeploymentId r) d
  | T_health_check => λ d r,
      has_key T_deployment (hc_deploymentId r) d
  | T_scenario => λ d r,
      has_key T_org (sc_orgId r) d
  | T_run => λ d r,
      has_key T_org (run_orgId r) d && has_key T_scenario (run_scenarioId r) d && has_key_opt T_target (run_targetId r) d
  | T_job => λ d r,
      has_key T_org (job_orgId r) d
  | T_health_schedule => λ d r,
      has_key T_org (hs_orgId r) d && has_key T_target (hs_targetId r) d
  | T_webhook_subscription => λ d r,
      has_key T_org (wh_orgId r) d
  | T_promotion_policy => λ d r,
      has_key T_org (pp_orgId r) d && has_key T_product (pp_productId r) d && has_key_opt T_target (pp_sourceTargetId r) d && has_key T_target (pp_destTargetId r) d
  | T_approval => λ d r,
      has_key T_org (ap_orgId r) d && has_key T_promotion_policy (ap_policyId r) d && has_key T_release (ap_releaseId r) d && has_key T_target (ap_destTargetId r) d
  | T_runner => λ d r,
      has_key T_org (rn_orgId r) d
  | T_signing_provider_key => λ d r,
      has_key T_org (sk_orgId r) d
  | _ => λ _ _, true
  end.

(** CHECK constraints on numbers (those on text are the types' unions). *)
Definition row_check (T : table) : row_of T → bool :=
  match T with
  | T_cloud_org_budget => λ r, (0 <? cb_monthlyCentsLimit r) && (1 <=? cb_softWarnPct r) && (cb_softWarnPct r <=? 100)
  | T_cloud_org_usage => λ r, 0 <=? cu_estimatedCents r
  | T_health_schedule => λ r, 60 <=? hs_intervalSeconds r
  | _ => λ _, true
  end.

Definition table_name (T : table) : string :=
  match T with
  | T_org => "org"
  | T_api_key => "api_key"
  | T_product => "product"
  | T_release => "release"
  | T_artifact => "artifact"
  | T_audit_log => "audit_log"
  | T_target => "target"
  | T_deployment => "deployment"
  | T_health_check => "health_check"
  | T_scenario => "scenario"
  | T_run => "run"
  | T_job => "job"
  | T_cloud_org_budget => "cloud_org_budget"
  | T_cloud_org_usage => "cloud_org_usage"
  | T_cloud_org_credential => "cloud_org_credential"
  | T_health_schedule => "health_schedule"
  | T_webhook_subscription => "webhook_subscription"
  | T_promotion_policy => "promotion_policy"
  | T_approval => "approval"
  | T_runner => "runner"
  | T_signing_provider_key => "signing_provider_key"
  | T_signing_nonce => "signing_nonce"
  end.

(** ** Statements *)

(** What the engine reports for a new version [r] of a row beside [others]. *)
Definition row_error (T : table) (d : DB) (others : list (row_of T)) (r : row_of T)
    : option string :=
  if negb (row_check T r) then Some ("CHECK constraint failed: " +:+ table_name T)
  else if existsb (row_clash T r) others then Some ("UNIQUE constraint failed: " +:+ table_name T)
  else if negb (row_fk T d r) then Some "FOREIGN KEY constraint failed"
  else None.

(** INSERT INTO T VALUES r. *)
Definition sql_insert (T : table) (r : row_of T) (d : DB) : string + DB :=
  match row_error T d (tget T d) r with
  | Some msg => inl msg
  | None => inr (tset T (tget T d ++ [r]) d)
  end.

(** The rows [t] of T in turn, those before already rewritten into [pre]. *)
Fixpoint update_rows (T : table) (d : DB) (p : row_of T → bool) (f : row_of T → row_of T)
    (pre t : list (row_of T)) : string + list (row_of T) :=
  match t with
  | [] => inr pre
  | x :: t' =>
    if p x then
      match row_error T d (pre ++ t') (f x) with
      | Some msg => inl msg
      | None => update_rows T d p f (pre ++ [f x]) t'
      end
    else update_rows T d p f (pre ++ [x]) t'
  end.

(** UPDATE T SET f WHERE p; the count is the engine's number of changes. *)
Definition sql_update (T : table) (p : row_of T → bool) (f : row_of T → row_of T) (d : DB)
    : string + (DB * nat) :=
  match update_rows T d p f [] (tget T d) with
  | inl msg => inl msg
  | inr t' => inr (tset T t' d, length (select p (tget T d)))
  end.

(** DELETE FROM T WHERE p. *)
Definition sql_delete (T : table) (p : row_of T → bool) (d : DB) : DB * nat :=
  (tset T (select (λ r, negb (p r)) (tget T d)) d, length (select p (tget T d))).

(** ** Errors *)

Inductive Err :=
| EStorageConflict (msg : string)           (** StorageConflictError *)
| EStorageNotFound (entity id : string)     (** StorageNotFoundError *)
| ESqlite (msg : string)                    (** the engine's constraint error *)
| ERangeError                               (** toISOString of an invalid date *)
| EError (msg : string)                     (** new Error(msg) *)
| EDeployBlocked (msg : string)             (** DeployBlockedError *)
| EDeployHealthFailed (msg : string)        (** DeployHealthFailedError *)
| ECloudBackend (code msg : string)         (** CloudBackendError *)
| EHttp (status : Z) (msg code : string)    (** HttpError *)
| ESigning (code msg : string)              (** SigningError *)
| ESignatureVerification (msg : string)     (** SignatureVerificationError *)
| EComponentBuild (msg : string)            (** ComponentBuildError *)
| EMissingArtifact (msg : string)           (** MissingArtifactError *)
| EReleaseAlreadyExists (msg : string)      (** ReleaseAlreadyExistsError *)
| EUnknownBuildVariable (msg : string)      (** UnknownBuildVariableError *)
| ERepoUrlValidation (msg : string)         (** RepoUrlValidationError *)
| EGitRefValidation (msg : string)          (** GitRefValidationError *)
| EK8sDriver (code msg : string)            (** K8sDriverError *)
| EBlobNotFound (uri : string)              (** BlobNotFoundError *)
| EHttpClient (status : Z) (code msg : string). (** HttpClientError *)

(** [(err as Error).message]. *)
Definition err_message (e : Err) : string :=
  match e with
  | EStorageConflict msg => msg
  | EStorageNotFound entity id => entity +:+ " not found: " +:+ id
  | EBlobNotFound uri => "blob not found: " +:+ uri
  | ERangeError => "Invalid time value"
  | ESqlite msg | EError msg | EDeployBlocked msg | EDeployHealthFailed msg
  | ECloudBackend _ msg | EHttp _ msg _ | ESigning _ msg | ESignatureVerification msg
  | EComponentBuild msg | EMissingArtifact msg | EReleaseAlreadyExists msg
  | EUnknownBuildVariable msg | ERepoUrlValidation msg | EGitRefValidation msg
  | EK8sDriver _ msg | EHttpClient _ _ msg => msg
  end.

(** [(err as Error).name]. *)
Definition err_name (e : Err) : string :=
  match e with
  | EStorageConflict _ => "StorageConflictError"
  | EStorageNotFound _ _ => "StorageNotFoundError"
  | ERangeError => "RangeError"
  | ESqlite _ | EError _ => "Error"
  | EDeployBlocked _ => "DeployBlockedError"
  | EDeployHealthFailed _ => "DeployHealthFailedError"
  | ECloudBackend _ _ => "CloudBackendError"
  | EHttp _ _ _ => "HttpError"
  | ESigning code _ => if bool_decide (code = "algorithm-not-implemented")
                       then "AlgorithmNotImplementedError" else "SigningError"
  | ESignatureVerification _ => "SignatureVerificationError"
  | EComponentBuild _ => "ComponentBuildError"
  | EMissingArtifact _ => "MissingArtifactError"
  | EReleaseAlreadyExists _ => "ReleaseAlreadyExistsError"
  | EUnknownBuildVariable _ => "UnknownBuildVariableError"
  | ERepoUrlValidation _ => "RepoUrlValidationError"
  | EGitRefValidation _ => "GitRefValidationError"
  | EK8sDriver _ _ => "K8sDriverError"
  | EBlobNotFound _ => "BlobNotFoundError"
  | EHttpClient _ _ _ => "HttpClientError"
  end.

Inductive Res (A : Type) := Ok (a : A) | Throw (e : Err).
Arguments Ok {A} a.
Arguments Throw {A} e.

(** ** The monad *)

(** The clock and the ULID generator: the n-th reading of each. *)
Class Oracle := {
  clock : nat → Z;
  clock_range : ∀ n, 0 ≤ clock n < 253402300800000;
  fresh_id : nat → string
}.

Record World (X : Type) := mkWorld {
  w_db : DB;
  w_clock : nat;
  w_ids : nat;
  w_ext : X
}.
Arguments mkWorld {X}.
Arguments w_db {X}.
Arguments w_clock {X}.
Arguments w_ids {X}.
Arguments w_ext {X}.

Definition set_db {X} (d : DB) (w : World X) : World X :=
  mkWorld d (w_clock w) (w_ids w) (w_ext w).

Definition M (X A : Type) : Type := World X → Res A * World X.

#[export] Instance M_ret {X} : MRet (M X) := λ A a w, (Ok a, w).
#[export] Instance M_bind {X} : MBind (M X) := λ A B k m w,
  match m w with
  | (Ok a, w') => k a w'
  | (Throw e, w') => (Throw e, w')
  end.

Definition throw {X A} (e : Err) : M X A := λ w, (Throw e, w).

(** [try { m } catch (err) { h err }]. *)
Definition try_catch {X A} (m : M X A) (h : Err → M X A) : M X A := λ w,
  match m w with
  | (Ok a, w') => (Ok a, w')
  | (Throw e, w') => h e w'
  end.

Definition read {X A} (f : DB → A) : M X A := λ w, (Ok (f (w_db w)), w).

(** [for (const a of l) { body }]. *)
Fixpoint for_each {X A} (l : list A) (body : A → M X unit) : M X unit :=
  match l with
  | [] => mret ()
  | a :: l' => body a ≫= λ _, for_each l' body
  end.

(** A loop that pushes one result per element. *)
Fixpoint for_collect {X A B} (l : list A) (body : A → M X B) : M X (list B) :=
  match l with
  | [] => mret []
  | a :: l' => body a ≫= λ b, for_collect l' body ≫= λ bs, mret (b :: bs)
  end.

(** A loop that counts the elements whose body does not [continue] early. *)
Fixpoint for_count {X A} (l : list A) (body : A → M X bool) : M X nat :=
  match l with
  | [] => mret 0%nat
  | a :: l' => body a ≫= λ b : bool, for_count l' body ≫= λ n, mret (if b then S n else n)
  end.

Section effects.
Context {X : Type}.

(** An action of the external world; it does not touch the database. *)
Definition external {A} (f : X → Res A * X) : M X A := λ w,
  let (r, x) := f (w_ext w) in (r, mkWorld (w_db w) (w_clock w) (w_ids w) x).

Context `{Oracle}.

(** [new Date()]. *)
Definition nowDate : M X Z := λ w,
  (Ok (clock (w_clock w)), mkWorld (w_db w) (S (w_clock w)) (w_ids w) (w_ext w)).

Definition nowIso : M X string := nowDate ≫= λ t, mret (toISOString t).

Definition newId : M X string := λ w,
  (Ok (fresh_id (w_ids w)), mkWorld (w_db w) (w_clock w) (S (w_ids w)) (w_ext w)).

(** A statement; a violated constraint throws the engine's error and leaves
    the database as it was. *)
Definition db_insert_raw (T : table) (r : row_of T) : M X unit := λ w,
  match sql_insert T r (w_db w) with
  | inl msg => (Throw (ESqlite msg), w)
  | inr d => (Ok (), set_db d w)
  end.

Definition db_update_raw (T : table) (p : row_of T → bool) (f : row_of T → row_of T)
    : M X nat := λ w,
  match sql_update T p f (w_db w) with
  | inl msg => (Throw (ESqlite msg), w)
  | inr (d, n) => (Ok n, set_db d w)
  end.

Definition db_delete (T : table) (p : row_of T → bool) : M X nat := λ w,
  let (d, n) := sql_delete T p (w_db w) in (Ok n, set_db d w).

(** The handler around most statements: a constraint violation becomes a
    StorageConflictError, anything else is rethrown. *)
Definition mapSqliteError {A} (err : Err) : M X A :=
  match err with
  | ESqlite msg => throw (EStorageConflict msg)
  | e => throw e
  end.

Definition db_insert (T : table) (r : row_of T) : M X unit :=
  try_catch (db_insert_raw T r) mapSqliteError.

Definition db_update (T : table) (p : row_of T → bool) (f : row_of T → row_of T) : M X nat :=
  try_catch (db_update_raw T p f) mapSqliteError.

(** BEGIN; [fn]; COMMIT, with ROLLBACK of the database when [fn] throws. *)
Definition runInTransaction {A} (fn : M X A) : M X A := λ w,
  match fn w with
  | (Ok a, w') => (Ok a, w')
  | (Throw e, w') => (Throw e, set_db (w_db w) w')
  end.
End effects.
