(* ===== verification/Logic.v ===== *)
(** Reasoning about [M]: evaluation equations, a Hoare triple with a normal and
    an exceptional postcondition, preservation of an invariant by any program
    built from the statements, and the schema invariant [db_ok] that the engine
    maintains (keys unique, references live, checks hold). *)

From stdpp Require Import sets.
From S2P Require Import Prelude JsTime JsVal Types World.

Create HintDb preserve.

(** ** Evaluation *)

Lemma bind_eq {X A B} (m : M X A) (k : A → M X B) w :
  (m ≫= k) w = match m w with (Ok a, w') => k a w' | (Throw e, w') => (Throw e, w') end.
Proof. done. Qed.

Lemma bind_ok {X A B} (m : M X A) (k : A → M X B) w a w' :
  m w = (Ok a, w') → (m ≫= k) w = k a w'.
Proof. intros E. by rewrite bind_eq, E. Qed.

Lemma bind_throw {X A B} (m : M X A) (k : A → M X B) w e w' :
  m w = (Throw e, w') → (m ≫= k) w = (Throw e, w').
Proof. intros E. by rewrite bind_eq, E. Qed.

Lemma bind_inv_ok {X A B} (m : M X A) (k : A → M X B) w b w2 :
  (m ≫= k) w = (Ok b, w2) → ∃ a w1, m w = (Ok a, w1) ∧ k a w1 = (Ok b, w2).
Proof. rewrite bind_eq. destruct (m w) as [[a|e] w1] eqn:E; [naive_solver|done]. Qed.

(** Binds of the primitive actions. *)
Lemma bind_read {X A B} (f : DB → A) (k : A → M X B) w : (read f ≫= k) w = k (f (w_db w)) w.
Proof. done. Qed.

Lemma bind_nowIso {X B} `{Oracle} (k : string → M X B) w :
  (nowIso ≫= k) w = k (toISOString (clock (w_clock w))) (mkWorld (w_db w) (S (w_clock w)) (w_ids w) (w_ext w)).
Proof. done. Qed.

Lemma bind_newId {X B} `{Oracle} (k : string → M X B) w :
  (newId ≫= k) w = k (fresh_id (w_ids w)) (mkWorld (w_db w) (w_clock w) (S (w_ids w)) (w_ext w)).
Proof. done. Qed.

Lemma bind_inv_throw {X A B} (m : M X A) (k : A → M X B) w e w2 :
  (m ≫= k) w = (Throw e, w2) →
  m w = (Throw e, w2) ∨ ∃ a w1, m w = (Ok a, w1) ∧ k a w1 = (Throw e, w2).
Proof.
  rewrite bind_eq. destruct (m w) as [[a|e'] w1]; intros E.
  - right. by exists a, w1.
  - left. congruence.
Qed.

Lemma try_ok {X A} (m : M X A) h w a w' :
  m w = (Ok a, w') → try_catch m h w = (Ok a, w').
Proof. intros E. unfold try_catch. by rewrite E. Qed.

Lemma try_throw {X A} (m : M X A) h w e w' :
  m w = (Throw e, w') → try_catch m h w = h e w'.
Proof. intros E. unfold try_catch. by rewrite E. Qed.

Lemma for_each_app {X A} (l1 l2 : list A) (body : A → M X unit) w :
  for_each (l1 ++ l2) body w =
  match for_each l1 body w with (Ok _, w') => for_each l2 body w' | (Throw e, w') => (Throw e, w') end.
Proof.
  revert w. induction l1 as [|a l1 IH]; intros w; simpl; [done|].
  rewrite !bind_eq. destruct (body a w) as [[]]; [apply IH|done].
Qed.

(** ** Triples *)

Definition hoare {X A} (P : World X → Prop) (m : M X A)
    (Q : A → World X → Prop) (E : Err → World X → Prop) : Prop :=
  ∀ w, P w → match m w with (Ok a, w') => Q a w' | (Throw e, w') => E e w' end.

Lemma hoare_bind {X A B} P (m : M X A) Q (k : A → M X B) R E :
  hoare P m Q E → (∀ a, hoare (Q a) (k a) R E) → hoare P (m ≫= k) R E.
Proof.
  intros Hm Hk w Hw. rewrite bind_eq. specialize (Hm w Hw).
  destruct (m w) as [[a|e] w']; [by apply Hk|done].
Qed.

Lemma hoare_weaken {X A} P P' (m : M X A) Q Q' E E' :
  hoare P' m Q' E' → (∀ w, P w → P' w) →
  (∀ a w, Q' a w → Q a w) → (∀ e w, E' e w → E e w) → hoare P m Q E.
Proof.
  intros Hm HP HQ HE w Hw. specialize (Hm w (HP w Hw)).
  destruct (m w) as [[a|e] w']; auto.
Qed.

(** ** Preservation *)

(** Whatever the program does, throw included, [I] still holds afterwards. *)
Definition preserves {X A} (I : World X → Prop) (m : M X A) : Prop :=
  ∀ w, I w → I (m w).2.

Section preserves.
Context {X : Type} (I : World X → Prop).

Lemma preserves_ret {A} (a : A) : preserves I (mret a).
Proof. by intros w Hw. Qed.

Lemma preserves_throw {A} e : preserves I (throw e : M X A).
Proof. by intros w Hw. Qed.

Lemma preserves_bind {A B} (m : M X A) (k : A → M X B) :
  preserves I m → (∀ a, preserves I (k a)) → preserves I (m ≫= k).
Proof.
  intros Hm Hk w Hw. rewrite bind_eq. specialize (Hm w Hw).
  destruct (m w) as [[a|e] w']; [by apply Hk|done].
Qed.

Lemma preserves_try {A} (m : M X A) h :
  preserves I m → (∀ e, preserves I (h e)) → preserves I (try_catch m h).
Proof.
  intros Hm Hh w Hw. unfold try_catch. specialize (Hm w Hw).
  destruct (m w) as [[a|e] w']; [done|by apply Hh].
Qed.

Lemma preserves_read {A} (f : DB → A) : preserves I (read f).
Proof. by intros w Hw. Qed.

Lemma preserves_for_each {A} (l : list A) body :
  (∀ a, preserves I (body a)) → preserves I (for_each l body).
Proof.
  intros Hb. induction l; simpl; [apply preserves_ret|]. by apply preserves_bind.
Qed.

Lemma preserves_for_collect {A B} (l : list A) (body : A → M X B) :
  (∀ a, preserves I (body a)) → preserves I (for_collect l body).
Proof.
  intros Hb. induction l; simpl; [apply preserves_ret|].
  apply preserves_bind; [done|]. intros b. apply preserves_bind; [done|]. intros; apply preserves_ret.
Qed.

Lemma preserves_for_count {A} (l : list A) (body : A → M X bool) :
  (∀ a, preserves I (body a)) → preserves I (for_count l body).
Proof.
  intros Hb. induction l; simpl; [apply preserves_ret|].
  apply preserves_bind; [done|]. intros b. apply preserves_bind; [done|]. intros; apply preserves_ret.
Qed.

Lemma preserves_if {A} (b : bool) (m1 m2 : M X A) :
  preserves I m1 → preserves I m2 → preserves I (if b then m1 else m2).
Proof. by destruct b. Qed.

Lemma preserves_option {A B} (o : option B) (m1 : B → M X A) (m2 : M X A) :
  (∀ b, preserves I (m1 b)) → preserves I m2 →
  preserves I (match o with Some b => m1 b | None => m2 end).
Proof. destruct o; auto. Qed.
End preserves.

#[export] Hint Resolve preserves_ret preserves_throw preserves_read : preserve.

(** After [m] has established [I], a continuation that preserves it. *)
Lemma post_bind {X A B} I (m : M X A) (k : A → M X B) w :
  I (m w).2 → (∀ a, preserves I (k a)) → I ((m ≫= k) w).2.
Proof.
  intros Hm Hk. rewrite bind_eq. destruct (m w) as [[a|e] w']; [by apply Hk|done].
Qed.

(** A step that leaves the world as it is. *)
Lemma post_bind_const {X A B} (I : World X → Prop) (m : M X A) (k : A → M X B) w :
  (m w).2 = w → I w → (∀ a, I (k a w).2) → I ((m ≫= k) w).2.
Proof.
  intros Hm Hw Hk. rewrite bind_eq. destruct (m w) as [[a|e] w']; simpl in *; by subst w'.
Qed.

(** Invariants of the database alone. *)
Definition on_db {X} (I : DB → Prop) (w : World X) : Prop := I (w_db w).

Lemma preserves_and {X A} (I J : DB → Prop) (m : M X A) :
  preserves (on_db I) m → preserves (on_db J) m → preserves (on_db (λ d, I d ∧ J d)) m.
Proof. intros HI HJ w [? ?]. split; [by apply HI|by apply HJ]. Qed.

Lemma preserves_external {X A} I (f : X → Res A * X) : preserves (on_db I) (external f).
Proof. intros w Hw. unfold external. by destruct (f (w_ext w)). Qed.

Lemma preserves_nowDate {X} `{Oracle} I : preserves (X:=X) (on_db I) nowDate.
Proof. by intros w Hw. Qed.
Lemma preserves_nowIso {X} `{Oracle} I : preserves (X:=X) (on_db I) nowIso.
Proof. by intros w Hw. Qed.
Lemma preserves_newId {X} `{Oracle} I : preserves (X:=X) (on_db I) newId.
Proof. by intros w Hw. Qed.

#[export] Hint Resolve preserves_external preserves_nowDate preserves_nowIso preserves_newId
  : preserve.

(** Walk through a program, leaving the statements that write. *)
Ltac preserve :=
  repeat first
    [ done
    | solve [eauto with preserve]
    | apply preserves_bind; [|intros ?]
    | apply preserves_try; [|intros ?]
    | apply preserves_for_each; intros ?
    | apply preserves_for_collect; intros ?
    | apply preserves_for_count; intros ?
    | match goal with
      | |- preserves _ (match ?x with _ => _ end) => destruct x
      | |- preserves _ (let '_ := ?x in _) => destruct x
      end ].

(** ** The schema invariant *)

Section schema.
Context (T : table).

Fixpoint no_clash (t : list (row_of T)) : Prop :=
  match t with
  | [] => True
  | x :: t' => Forall (λ y, row_clash T x y = false) t' ∧ no_clash t'
  end.

Definition table_ok (d : DB) : Prop :=
  no_clash (tget T d) ∧
  ∀ r, r ∈ tget T d → row_fk T d r = true ∧ row_check T r = true.
End schema.

Definition db_ok (d : DB) : Prop := ∀ T, table_ok T d.

Lemma tget_tset_eq T l d : tget T (tset T l d) = l.
Proof. by destruct T. Qed.

Lemma tget_tset_ne T T' l d : T ≠ T' → tget T' (tset T l d) = tget T' d.
Proof. by destruct T, T'. Qed.

Lemma tset_tget T d : tset T (tget T d) d = d.
Proof. by destruct T, d. Qed.

Lemma row_clash_sym T a b : row_clash T a b = row_clash T b a.
Proof.
  unfold row_clash. f_equal; [apply bool_decide_ext; split; congruence|].
  bool_cases; try done; exfalso; destruct (row_ukey T a), (row_ukey T b);
    naive_solver eauto using mk_is_Some.
Qed.

Lemma no_clash_app T (t1 t2 : list (row_of T)) :
  no_clash T (t1 ++ t2) ↔
  no_clash T t1 ∧ no_clash T t2 ∧ (∀ a b, a ∈ t1 → b ∈ t2 → row_clash T a b = false).
Proof.
  induction t1 as [|x t1 IH]; simpl.
  - split; [intros; repeat split; try done; intros a b []%elem_of_nil|naive_solver].
  - rewrite Forall_app, IH, !Forall_forall. setoid_rewrite elem_of_cons. naive_solver.
Qed.

Lemma no_clash_snoc T t (r : row_of T) :
  no_clash T t → existsb (row_clash T r) t = false → no_clash T (t ++ [r]).
Proof.
  intros Ht Hr. apply no_clash_app. split; [done|]. split; [simpl; done|].
  intros a b Ha ->%list_elem_of_singleton. rewrite row_clash_sym.
  destruct (row_clash T r a) eqn:E; [|done].
  enough (existsb (row_clash T r) t = true) by congruence.
  apply existsb_exists. exists a. by rewrite <- list_elem_of_In.
Qed.

Lemma no_clash_select T p (t : list (row_of T)) : no_clash T t → no_clash T (select p t).
Proof.
  induction t as [|x t IH]; simpl; [done|]. intros [Hx Ht].
  destruct (p x); simpl; [|auto]. split; [|auto].
  rewrite Forall_forall in *. intros y [Hy _]%select_elem. auto.
Qed.

(** Under a unique key a row is determined by its key. *)
Lemma no_clash_unique T t (a b : row_of T) :
  no_clash T t → a ∈ t → b ∈ t → row_clash T a b = true → a = b.
Proof.
  induction t as [|x t IH]; simpl; [by intros _ []%elem_of_nil|].
  intros [Hx Ht] Ha Hb E. rewrite Forall_forall in Hx.
  apply elem_of_cons in Ha as [->|Ha]; apply elem_of_cons in Hb as [->|Hb]; [done|..].
  - by rewrite (Hx b Hb) in E.
  - by rewrite row_clash_sym, (Hx a Ha) in E.
  - by apply IH.
Qed.

Lemma row_clash_pkey T a b : row_pkey T a = row_pkey T b → row_clash T a b = true.
Proof. intros E. unfold row_clash. by rewrite bool_decide_eq_true_2. Qed.

Lemma row_clash_ukey T a b k :
  row_ukey T a = Some k → row_ukey T b = Some k → row_clash T a b = true.
Proof.
  intros Ea Eb. unfold row_clash. apply orb_true_iff. right.
  rewrite Ea, Eb. by rewrite !bool_decide_eq_true_2 by eauto.
Qed.

Lemma table_ok_pkey_unique T d a b :
  table_ok T d → a ∈ tget T d → b ∈ tget T d → row_pkey T a = row_pkey T b → a = b.
Proof. intros [H _] Ha Hb E. eapply no_clash_unique; eauto using row_clash_pkey. Qed.

Lemma table_ok_ukey_unique T d a b k :
  table_ok T d → a ∈ tget T d → b ∈ tget T d →
  row_ukey T a = Some k → row_ukey T b = Some k → a = b.
Proof. intros [H _] Ha Hb ? ?. eapply no_clash_unique; eauto using row_clash_ukey. Qed.

Lemma no_clash_NoDup T (t : list (row_of T)) : no_clash T t → NoDup (row_pkey T <$> t).
Proof.
  induction t as [|a t IH]; [constructor|]. intros [Hx Hn].
  rewrite fmap_cons. apply NoDup_cons. split; [|by apply IH].
  intros (b & E & Hb)%list_elem_of_fmap. rewrite Forall_forall in Hx.
  specialize (Hx b Hb). by rewrite row_clash_pkey in Hx.
Qed.

(** References survive when no parent key disappears. *)
Definition keys_le (d d' : DB) : Prop :=
  ∀ T id, has_key T id d = true → has_key T id d' = true.

Lemma table_NoDup T d : db_ok d → NoDup (row_pkey T <$> tget T d).
Proof. intros Hd. apply no_clash_NoDup, Hd. Qed.

Lemma query_rows_NoDup T d p le : db_ok d → NoDup (order_by le (select p (tget T d))).
Proof.
  intros Hd. rewrite order_by_perm. eapply NoDup_fmap_1.
  apply select_NoDup_fmap, (table_NoDup T d Hd).
Qed.

Lemma keys_le_opt d d' T id : keys_le d d' → has_key_opt T id d = true → has_key_opt T id d' = true.
Proof. intros H. destruct id; simpl; auto. Qed.

Lemma row_fk_mono T d d' r : keys_le d d' → row_fk T d r = true → row_fk T d' r = true.
Proof.
  intros H. destruct T; simpl; intros Hr; bool_hyps; rewrite ?andb_true_iff; repeat split;
    eauto using keys_le_opt.
Qed.

Lemma has_key_elem T id d :
  has_key T id d = true ↔ ∃ r, r ∈ tget T d ∧ row_pkey T r = [id].
Proof.
  unfold has_key. rewrite existsb_exists. setoid_rewrite bool_decide_eq_true.
  by setoid_rewrite list_elem_of_In.
Qed.

Lemma keys_le_tset T t d :
  (∀ r, r ∈ tget T d → ∃ r', r' ∈ t ∧ row_pkey T r' = row_pkey T r) → keys_le d (tset T t d).
Proof.
  intros H T' id. rewrite !has_key_elem. intros (r & Hr & E).
  destruct (decide (T = T')) as [->|Hne].
  - rewrite tget_tset_eq. destruct (H r Hr) as (r' & Hr' & E'). exists r'. by rewrite E'.
  - rewrite tget_tset_ne by done. eauto.
Qed.

Lemma row_error_None T d others r :
  row_error T d others r = None →
  row_check T r = true ∧ existsb (row_clash T r) others = false ∧ row_fk T d r = true.
Proof. unfold row_error. repeat case_match; intros; bool_hyps; done. Qed.

Lemma update_rows_spec T d p f pre t t' :
  update_rows T d p f pre t = inr t' →
  t' = pre ++ update_where p f t ∧
  (no_clash T (pre ++ t) → no_clash T t') ∧
  (∀ x, x ∈ t → p x = true → row_check T (f x) = true ∧ row_fk T d (f x) = true).
Proof.
  revert pre. induction t as [|x t IH]; intros pre; simpl.
  - intros [= <-]. rewrite app_nil_r. split; [done|]. split; [by auto|]. intros x []%elem_of_nil.
  - destruct (p x) eqn:E; [destruct (row_error T d (pre ++ t) (f x)) as [msg|] eqn:Er; [done|]|];
      intros (Et & Hc & Hx)%IH; rewrite <- app_assoc in Et, Hc; (split; [done|]).
    + apply row_error_None in Er as (Hck & Hcl & Hfk). split.
      * intros (Hp & [Hfx Ht] & Hpt)%no_clash_app.
        apply Hc. simpl.
        assert (Hnc : no_clash T ((pre ++ t) ++ [f x])).
        { apply no_clash_snoc; [|done]. apply no_clash_app. split; [done|]. split; [done|].
          intros a b Ha Hb. apply Hpt; [done|by right]. }
        apply no_clash_app in Hnc as (_ & _ & Hfx').
        apply no_clash_app. split; [done|]. split.
        { simpl. split; [|done]. rewrite Forall_forall. intros y Hy.
          rewrite row_clash_sym. apply Hfx'; [apply elem_of_app; by right|left]. }
        intros a b Ha [->|Hb]%elem_of_cons; [|apply Hpt; [done|by right]].
        apply Hfx'; [apply elem_of_app; by left|left].
      * intros y [->|Hy]%elem_of_cons; [done|by apply Hx].
    + split; [done|].
      intros y [->|Hy]%elem_of_cons Hp; [congruence|by apply Hx].
Qed.

Lemma sql_insert_inv T r d d' :
  sql_insert T r d = inr d' →
  d' = tset T (tget T d ++ [r]) d ∧ row_error T d (tget T d) r = None.
Proof. unfold sql_insert. case_match; [done|]. by intros [= <-]. Qed.

Lemma sql_update_inv T p f d d' n :
  sql_update T p f d = inr (d', n) →
  d' = tset T (update_where p f (tget T d)) d ∧ n = length (select p (tget T d)).
Proof.
  unfold sql_update. destruct (update_rows _ _ _ _ _ _) as [|t'] eqn:E; [done|].
  apply update_rows_spec in E as (-> & _). by intros [= <- <-].
Qed.

Lemma keys_le_insert T r d : keys_le d (tset T (tget T d ++ [r]) d).
Proof.
  apply keys_le_tset. intros r' Hr'. exists r'. split; [apply elem_of_app; by left|done].
Qed.

Lemma keys_le_update T p f d :
  (∀ r, row_pkey T (f r) = row_pkey T r) → keys_le d (tset T (update_where p f (tget T d)) d).
Proof.
  intros Hf. apply keys_le_tset. intros r Hr. destruct (p r) eqn:E.
  - exists (f r). split; [|done]. apply update_where_elem. left. eauto.
  - exists r. split; [|done]. apply update_where_elem. by right.
Qed.

Lemma db_ok_tset T t d :
  db_ok d → keys_le d (tset T t d) → no_clash T t →
  (∀ r, r ∈ t → row_fk T (tset T t d) r = true ∧ row_check T r = true) → db_ok (tset T t d).
Proof.
  intros Hd Hk Hn Hr T'. destruct (decide (T = T')) as [<-|Hne]; split.
  - by rewrite tget_tset_eq.
  - rewrite tget_tset_eq. done.
  - rewrite tget_tset_ne by done. apply Hd.
  - rewrite tget_tset_ne by done. intros r Hr'. destruct (Hd T') as [_ H].
    destruct (H r Hr'). split; [by eapply row_fk_mono|done].
Qed.

Lemma sql_insert_ok T r d d' : db_ok d → sql_insert T r d = inr d' → db_ok d'.
Proof.
  intros Hd [-> Er]%sql_insert_inv. apply row_error_None in Er as (Hc & Hcl & Hfk).
  destruct (Hd T) as [Hn Hrs]. apply db_ok_tset; [done|apply keys_le_insert|by apply no_clash_snoc|].
  intros r' [Hr'| ->%list_elem_of_singleton]%elem_of_app;
    (split; [eapply row_fk_mono; [apply keys_le_insert|]|]); naive_solver.
Qed.

Lemma sql_update_ok T p f d d' n :
  (∀ r, row_pkey T (f r) = row_pkey T r) → db_ok d → sql_update T p f d = inr (d', n) → db_ok d'.
Proof.
  intros Hf Hd E. destruct (Hd T) as [Hn Hrs].
  assert (E' := E). unfold sql_update in E'.
  destruct (update_rows T d p f [] (tget T d)) as [|t'] eqn:Er; [done|].
  apply update_rows_spec in Er as (-> & Hnc & Hx). injection E' as <- <-. simpl.
  assert (Hk := keys_le_update T p f d Hf). simpl in Hnc.
  apply db_ok_tset; [done|done|by apply Hnc|].
  intros r [(y & Hy & Hp & ->)|[Hr Hp]]%update_where_elem.
  - destruct (Hx y Hy Hp). split; [by eapply row_fk_mono|done].
  - destruct (Hrs r Hr). split; [by eapply row_fk_mono|done].
Qed.

(** Only tables nothing refers to are deleted from. *)
Definition childless (T : table) : Prop :=
  ∀ T' l d r, row_fk T' (tset T l d) r = row_fk T' d r.

Lemma sql_delete_ok T p d d' n :
  childless T → db_ok d → sql_delete T p d = (d', n) → db_ok d'.
Proof.
  intros Hc Hd [= <- <-] T'. destruct (decide (T = T')) as [<-|Hne]; split.
  - rewrite tget_tset_eq. apply no_clash_select, Hd.
  - rewrite tget_tset_eq. intros r [Hr _]%select_elem. rewrite Hc. by apply Hd.
  - rewrite tget_tset_ne by done. apply Hd.
  - rewrite tget_tset_ne by done. intros r Hr. rewrite Hc. by apply Hd.
Qed.

Section preserves_ok.
Context {X : Type}.

Lemma preserves_db_insert_raw T r : preserves (X:=X) (on_db db_ok) (db_insert_raw T r).
Proof.
  intros w Hw. unfold db_insert_raw. destruct (sql_insert T r (w_db w)) as [|d] eqn:E; [done|].
  by eapply sql_insert_ok.
Qed.

Lemma preserves_db_update_raw T p f :
  (∀ r, row_pkey T (f r) = row_pkey T r) → preserves (X:=X) (on_db db_ok) (db_update_raw T p f).
Proof.
  intros Hf w Hw. unfold db_update_raw.
  destruct (sql_update T p f (w_db w)) as [|[d n]] eqn:E; [done|].
  by eapply sql_update_ok.
Qed.

Lemma preserves_mapSqliteError {A} I e : preserves (X:=X) I (mapSqliteError e : M X A).
Proof. intros w Hw. by destruct e. Qed.

Lemma preserves_db_insert T r : preserves (X:=X) (on_db db_ok) (db_insert T r).
Proof.
  apply preserves_try; [apply preserves_db_insert_raw|]. intros; apply preserves_mapSqliteError.
Qed.

Lemma preserves_db_update T p f :
  (∀ r, row_pkey T (f r) = row_pkey T r) → preserves (X:=X) (on_db db_ok) (db_update T p f).
Proof.
  intros Hf. apply preserves_try; [by apply preserves_db_update_raw|].
  intros; apply preserves_mapSqliteError.
Qed.

Lemma preserves_runInTransaction {A} I (m : M X A) :
  preserves (on_db I) m → preserves (on_db I) (runInTransaction m).
Proof.
  intros Hm w Hw. unfold runInTransaction. specialize (Hm w Hw).
  by destruct (m w) as [[a|e] w'].
Qed.

Lemma preserves_db_delete T p : childless T → preserves (X:=X) (on_db db_ok) (db_delete T p).
Proof.
  intros Hc w Hw. unfold db_delete. destruct (sql_delete T p (w_db w)) as [d n] eqn:E.
  by eapply sql_delete_ok.
Qed.
End preserves_ok.

#[export] Hint Resolve preserves_db_insert preserves_db_insert_raw : preserve.
#[export] Hint Extern 2 (preserves _ (db_update _ _ _)) =>
  apply preserves_db_update; intros ?; reflexivity : preserve.
#[export] Hint Extern 2 (preserves _ (db_update_raw _ _ _)) =>
  apply preserves_db_update_raw; intros ?; reflexivity : preserve.
#[export] Hint Extern 2 (preserves _ (db_delete _ _)) =>
  apply preserves_db_delete; by intros [] : preserve.

Lemma empty_db_ok : db_ok empty_db.
Proof. intros T. destruct T; (split; [done|intros r []%elem_of_nil]). Qed.

(** ** Frames *)

(** [I] does not look at table [T]. *)
Definition indep (T : table) (I : DB → Prop) : Prop := ∀ l d, I d → I (tset T l d).

(** The rows of [T] are [l]. *)
Definition unchanged (T : table) (l : list (row_of T)) (d : DB) : Prop := tget T d = l.

Lemma unchanged_indep T T' l : T' ≠ T → indep T' (unchanged T l).
Proof. intros Hne l' d Hd. unfold unchanged. by rewrite tget_tset_ne. Qed.

Section frames.
Context {X : Type} (T : table) (I : DB → Prop) (HI : indep T I).

Lemma preserves_insert_raw_indep r : preserves (X:=X) (on_db I) (db_insert_raw T r).
Proof.
  intros w Hw. unfold db_insert_raw. destruct (sql_insert T r (w_db w)) eqn:E; [done|].
  apply sql_insert_inv in E as [-> _]. by apply HI.
Qed.

Lemma preserves_update_raw_indep p f : preserves (X:=X) (on_db I) (db_update_raw T p f).
Proof.
  intros w Hw. unfold db_update_raw. destruct (sql_update T p f (w_db w)) as [|[]] eqn:E; [done|].
  apply sql_update_inv in E as [-> _]. by apply HI.
Qed.

Lemma preserves_insert_indep r : preserves (X:=X) (on_db I) (db_insert T r).
Proof.
  apply preserves_try; [apply preserves_insert_raw_indep|]. intros; apply preserves_mapSqliteError.
Qed.

Lemma preserves_update_indep p f : preserves (X:=X) (on_db I) (db_update T p f).
Proof.
  apply preserves_try; [apply preserves_update_raw_indep|]. intros; apply preserves_mapSqliteError.
Qed.

Lemma preserves_delete_indep p : preserves (X:=X) (on_db I) (db_delete T p).
Proof. intros w Hw. unfold db_delete. simpl. by apply HI. Qed.
End frames.

#[export] Hint Extern 3 (preserves (on_db (unchanged _ _)) (db_insert _ _)) =>
  apply preserves_insert_indep, unchanged_indep; discriminate : preserve.
#[export] Hint Extern 3 (preserves (on_db (unchanged _ _)) (db_insert_raw _ _)) =>
  apply preserves_insert_raw_indep, unchanged_indep; discriminate : preserve.
#[export] Hint Extern 3 (preserves (on_db (unchanged _ _)) (db_update _ _ _)) =>
  apply preserves_update_indep, unchanged_indep; discriminate : preserve.
#[export] Hint Extern 3 (preserves (on_db (unchanged _ _)) (db_update_raw _ _ _)) =>
  apply preserves_update_raw_indep, unchanged_indep; discriminate : preserve.
#[export] Hint Extern 3 (preserves (on_db (unchanged _ _)) (db_delete _ _)) =>
  apply preserves_delete_indep, unchanged_indep; discriminate : preserve.

(** ** Statements that succeed *)

Lemma row_error_succeeds T d others r :
  row_check T r = true → row_fk T d r = true →
  (∀ x, x ∈ others → row_clash T r x = false) → row_error T d others r = None.
Proof.
  intros Hc Hf Hx. unfold row_error. rewrite Hc, Hf. simpl.
  destruct (existsb _ _) eqn:E; [|done].
  apply existsb_exists in E as (x & Hin & Hcl). apply list_elem_of_In in Hin.
  by rewrite Hx in Hcl.
Qed.

Lemma sql_insert_succeeds T r d :
  row_check T r = true → row_fk T d r = true →
  (∀ x, x ∈ tget T d → row_clash T r x = false) →
  sql_insert T r d = inr (tset T (tget T d ++ [r]) d).
Proof.
  intros Hc Hf Hx. unfold sql_insert. by rewrite row_error_succeeds.
Qed.

Lemma update_rows_skip T d p f pre t1 t2 :
  (∀ r, r ∈ t1 → p r = false) →
  update_rows T d p f pre (t1 ++ t2) = update_rows T d p f (pre ++ t1) t2.
Proof.
  revert pre. induction t1 as [|x t1 IH]; intros pre Hp; simpl; [by rewrite app_nil_r|].
  rewrite (Hp x) by left. rewrite IH by (intros; apply Hp; by right). by rewrite <- app_assoc.
Qed.

(** An UPDATE that addresses one row [e] by its primary key. *)
Lemma sql_update_row T d p f e :
  db_ok d → e ∈ tget T d → p e = true →
  (∀ r, r ∈ tget T d → p r = true → row_pkey T r = row_pkey T e) →
  ∃ others, (∀ r, r ∈ others ↔ r ∈ tget T d ∧ p r = false) ∧
  sql_update T p f d =
    match row_error T d others (f e) with
    | Some msg => inl msg
    | None => inr (tset T (update_where p f (tget T d)) d, 1%nat)
    end.
Proof.
  intros Hd He Hp Hk. destruct (Hd T) as [Hn _].
  apply list_elem_of_split in He as (t1 & t2 & Et). exists (t1 ++ t2).
  assert (Hother : ∀ r, r ∈ t1 ++ t2 → p r = false ∧ r ∈ tget T d).
  { intros r Hr. split; [|rewrite Et; set_solver].
    destruct (p r) eqn:Epr; [|done]. apply Hk in Epr; [|rewrite Et; set_solver]. exfalso.
    rewrite Et in Hn. apply no_clash_app in Hn as (_ & [Hn1 _] & Hn2).
    rewrite Forall_forall in Hn1. apply row_clash_pkey in Epr.
    apply elem_of_app in Hr as [Hr|Hr].
    - rewrite (Hn2 r e Hr) in Epr by left. done.
    - rewrite row_clash_sym, (Hn1 r Hr) in Epr. done. }
  split.
  { intros r. split; [naive_solver|]. rewrite Et, elem_of_app, elem_of_cons.
    intros [[?|[->|?]] ?]; [set_solver|congruence|set_solver]. }
  unfold sql_update. rewrite Et.
  rewrite update_rows_skip by (intros; apply Hother; set_solver). simpl. rewrite Hp.
  destruct (row_error T d (t1 ++ t2) (f e)); [done|].
  rewrite <- (app_nil_r t2) at 1.
  rewrite update_rows_skip by (intros; apply Hother; set_solver). simpl.
  rewrite select_app. simpl. rewrite Hp.
  rewrite !select_nil by (intros; apply Hother; set_solver). simpl.
  unfold update_where. rewrite map_app. simpl. rewrite Hp.
  fold (update_where p f t1) (update_where p f t2).
  rewrite !update_where_none by (intros; apply Hother; set_solver).
  by rewrite <- app_assoc.
Qed.

Lemma row_clash_false T a b :
  row_pkey T a ≠ row_pkey T b →
  (∀ k, row_ukey T a = Some k → row_ukey T b = Some k → False) → row_clash T a b = false.
Proof.
  intros Hk Hu. unfold row_clash. rewrite bool_decide_eq_false_2 by done. simpl.
  bool_cases; try done. destruct (row_ukey T a) eqn:E; [naive_solver|by destruct i].
Qed.

Section succeed.
Context {X : Type}.

Lemma db_update_raw_one T p f e (w : World X) :
  db_ok (w_db w) → e ∈ tget T (w_db w) → p e = true →
  (∀ r, r ∈ tget T (w_db w) → p r = true ↔ row_pkey T r = row_pkey T e) →
  row_pkey T (f e) = row_pkey T e →
  row_check T (f e) = true → row_fk T (w_db w) (f e) = true →
  (∀ r k, r ∈ tget T (w_db w) → p r = false →
     row_ukey T (f e) = Some k → row_ukey T r = Some k → False) →
  db_update_raw T p f w =
    (Ok 1%nat, set_db (tset T (update_where p f (tget T (w_db w))) (w_db w)) w).
Proof.
  intros Hd He Hp Hk Hfk Hc Hf Hu. unfold db_update_raw.
  destruct (sql_update_row T (w_db w) p f e Hd He Hp) as (others & Ho & ->);
    [by intros; apply Hk|].
  rewrite row_error_succeeds; [done|done|done|]. intros r [Hr Hpr]%Ho.
  apply row_clash_false; [|by intros; eapply Hu].
  rewrite Hfk. intros E. symmetry in E. apply Hk in E; [congruence|done].
Qed.

(** An UPDATE that matches no row changes nothing. *)
Lemma db_update_raw_none T p f (w : World X) :
  (∀ r, r ∈ tget T (w_db w) → p r = false) → db_update_raw T p f w = (Ok 0%nat, w).
Proof.
  intros Hp. unfold db_update_raw, sql_update.
  rewrite <- (app_nil_r (tget T (w_db w))) at 1. rewrite update_rows_skip by done. simpl.
  rewrite select_nil by done. rewrite tset_tget. by destruct w.
Qed.

(** An UPDATE whose new row clashes with another one is refused as a conflict. *)
Lemma db_update_conflict T p f e c (w : World X) :
  db_ok (w_db w) → e ∈ tget T (w_db w) → p e = true →
  (∀ r, r ∈ tget T (w_db w) → p r = true → row_pkey T r = row_pkey T e) →
  c ∈ tget T (w_db w) → p c = false → row_clash T (f e) c = true →
  ∃ msg, db_update T p f w = (Throw (EStorageConflict msg), w).
Proof.
  intros Hd He Hp Hk Hc Hpc Hcl. unfold db_update, try_catch, db_update_raw.
  destruct (sql_update_row T (w_db w) p f e Hd He Hp Hk) as (others & Ho & ->).
  assert (∃ msg, row_error T (w_db w) others (f e) = Some msg) as [msg ->]; [|by eexists].
  unfold row_error. destruct (negb (row_check T (f e))); [by eexists|].
  assert (existsb (row_clash T (f e)) others = true) as ->; [|by eexists].
  apply existsb_exists. exists c. rewrite <- list_elem_of_In. split; [by apply Ho|done].
Qed.

Lemma db_update_one T p f e (w : World X) :
  db_ok (w_db w) → e ∈ tget T (w_db w) → p e = true →
  (∀ r, r ∈ tget T (w_db w) → p r = true ↔ row_pkey T r = row_pkey T e) →
  row_pkey T (f e) = row_pkey T e →
  row_check T (f e) = true → row_fk T (w_db w) (f e) = true →
  (∀ r k, r ∈ tget T (w_db w) → p r = false →
     row_ukey T (f e) = Some k → row_ukey T r = Some k → False) →
  db_update T p f w =
    (Ok 1%nat, set_db (tset T (update_where p f (tget T (w_db w))) (w_db w)) w).
Proof. intros. unfold db_update. apply try_ok. by apply (db_update_raw_one T p f e). Qed.

Lemma db_insert_succeeds T r (w : World X) :
  row_check T r = true → row_fk T (w_db w) r = true →
  (∀ x, x ∈ tget T (w_db w) → row_clash T r x = false) →
  db_insert T r w = (Ok (), set_db (tset T (tget T (w_db w) ++ [r]) (w_db w)) w).
Proof.
  intros. unfold db_insert. apply try_ok. unfold db_insert_raw.
  by rewrite sql_insert_succeeds.
Qed.

(** What a successful INSERT did. *)
Lemma db_insert_inv T r (w w' : World X) :
  db_insert T r w = (Ok (), w') →
  w' = set_db (tset T (tget T (w_db w) ++ [r]) (w_db w)) w ∧
  (∀ x, x ∈ tget T (w_db w) → row_clash T r x = false).
Proof.
  unfold db_insert, try_catch, db_insert_raw.
  destruct (sql_insert T r (w_db w)) as [msg|d] eqn:E; [done|]. intros [= <-].
  apply sql_insert_inv in E as [-> Er]. split; [done|].
  apply row_error_None in Er as (_ & Hx & _). intros x Hin.
  destruct (row_clash T r x) eqn:Ec; [|done].
  enough (existsb (row_clash T r) (tget T (w_db w)) = true) by congruence.
  apply existsb_exists. exists x. by rewrite <- list_elem_of_In.
Qed.

Lemma db_insert_throw T r (w w' : World X) e :
  db_insert T r w = (Throw e, w') → w' = w ∧ ∃ msg, e = EStorageConflict msg.
Proof.
  unfold db_insert, try_catch, db_insert_raw.
  destruct (sql_insert T r (w_db w)) as [msg|d]; [|done]. intros [= <- <-]. eauto.
Qed.
End succeed.

(** ** Deciding the schema invariant *)

Definition all_tables : list table :=
  [T_org; T_api_key; T_product; T_release; T_artifact; T_audit_log; T_target; T_deployment;
   T_health_check; T_scenario; T_run; T_job; T_cloud_org_budget; T_cloud_org_usage;
   T_cloud_org_credential; T_health_schedule; T_webhook_subscription; T_promotion_policy;
   T_approval; T_runner; T_signing_provider_key; T_signing_nonce].

Fixpoint no_clashb (T : table) (t : list (row_of T)) : bool :=
  match t with
  | [] => true
  | x :: t' => forallb (λ y, negb (row_clash T x y)) t' && no_clashb T t'
  end.

Definition db_okb (d : DB) : bool :=
  forallb (λ T, no_clashb T (tget T d)
                && forallb (λ r, row_fk T d r && row_check T r) (tget T d)) all_tables.

Lemma no_clashb_sound T t : no_clashb T t = true → no_clash T t.
Proof.
  induction t as [|x t IH]; simpl; [done|]. rewrite andb_true_iff, forallb_forall.
  intros [Hx Ht]. split; [|by apply IH]. apply Forall_forall. intros y Hy.
  apply list_elem_of_In in Hy. by apply negb_true_iff, Hx.
Qed.

Lemma db_okb_sound d : db_okb d = true → db_ok d.
Proof.
  unfold db_okb. rewrite forallb_forall. intros Hd T.
  assert (HT : T ∈ all_tables) by (unfold all_tables; destruct T; set_solver).
  apply list_elem_of_In, Hd, andb_true_iff in HT as [Hn Hr]. split; [by apply no_clashb_sound|].
  rewrite forallb_forall in Hr. intros r Hin. apply list_elem_of_In, Hr in Hin. by bool_hyps.
Qed.
