(* ===== verification/Manifest.v ===== *)
(** Release manifests: control-plane/build/manifest.ts.  A manifest lists a
    release's artifacts; its canonical JSON (keys sorted, no white space) is
    what gets hashed and signed. *)

From S2P Require Import Prelude JsVal.

(** ** Data *)

Inductive ManifestKind := MK_blob | MK_image_ref.

Definition ManifestKind_text (k : ManifestKind) : string :=
  match k with MK_blob => "blob" | MK_image_ref => "image_ref" end.

Record ManifestEntry := mkManifestEntry {
  me_component : string;
  me_kind : ManifestKind;
  me_sha256 : option string;
  me_image_ref : option string
}.

(** [schema_version] is the literal 1. *)
Record ReleaseManifest := mkReleaseManifest {
  rm_product : string;
  rm_tag : string;
  rm_commit_sha : string;
  rm_artifacts : list ManifestEntry
}.

Definition entry_json (e : ManifestEntry) : json :=
  JObj ([("component", JStr (me_component e)); ("kind", JStr (ManifestKind_text (me_kind e)))]
        ++ opt_prop "sha256" (JStr <$> me_sha256 e)
        ++ opt_prop "image_ref" (JStr <$> me_image_ref e)).

Definition manifest_json (m : ReleaseManifest) : json :=
  JObj [("schema_version", JInt 1);
        ("product", JStr (rm_product m));
        ("tag", JStr (rm_tag m));
        ("commit_sha", JStr (rm_commit_sha m));
        ("artifacts", JArr (map entry_json (rm_artifacts m)))].

(** ** Canonical JSON *)

Section canonical.
Context `{JsEngine}.

(** [keys.sort()] then one [key:value] text per key. *)
Fixpoint canonicalize (value : json) : string :=
  match value with
  | JArr l => "[" +:+ join "," (map canonicalize l) +:+ "]"
  | JObj fields =>
    "{" +:+ join "," (map (λ kv, json_quote kv.1 +:+ ":" +:+ kv.2)
              (order_asc fst (map (λ kv, (kv.1, canonicalize kv.2)) fields))) +:+ "}"
  | v => json_stringify v
  end.

(** SHA-256 hex of the canonical JSON, given the digest. *)
Definition hashManifest (sha256_hex : string → string) (manifest : ReleaseManifest) : string :=
  sha256_hex (canonicalize (manifest_json manifest)).
End canonical.

(** ** Building a manifest *)

(** A [Map] from component to entries, in insertion order: push one entry. *)
Fixpoint push_entry (e : ManifestEntry) (byComponent : list (string * list ManifestEntry))
    : list (string * list ManifestEntry) :=
  match byComponent with
  | [] => [(me_component e, [e])]
  | (c, es) :: rest =>
    if c =?s me_component e then (c, es ++ [e]) :: rest else (c, es) :: push_entry e rest
  end.

Definition entries_of (c : string) (byComponent : list (string * list ManifestEntry))
    : list ManifestEntry :=
  match find_first (λ ce, ce.1 =?s c) byComponent with Some ce => ce.2 | None => [] end.

Definition buildManifest (product tag commitSha : string) (entries : list ManifestEntry)
    : ReleaseManifest :=
  let byComponent := foldl (λ m e, push_entry e m) [] entries in
  let sortedComponents := order_asc id (map fst byComponent) in
  mkReleaseManifest product tag commitSha
    (concat (map (λ c, entries_of c byComponent) sortedComponents)).
