(* ===== verification/StorageCatalog.v ===== *)
(** The catalog repositories of src/host/src/control-plane/storage/sqlite.ts:
    organisations, API keys, products, releases, artifacts, the audit log and
    targets.  Each method is one definition over [M]; reads are [SELECT]s over
    the table's rows, writes are the statements of [World].  The [_ok] lemmas
    show that every write keeps the schema invariant. *)

From S2P Require Import Prelude JsTime JsVal Types World Logic.

Section repos.
Context {X : Type} `{Oracle}.

(** ** Organisations *)

Definition OrgRepo_create (name : string) (tier : option OrgTier) : M X Org :=
  now ← nowIso; id ← newId;
  let row := mkOrg id name (tier ?? OT_free) now now None in
  db_insert T_org row;; mret row.

Definition OrgRepo_get (id : string) : M X (option Org) :=
  read (λ d, find_first (λ r, (org_id r =?s id) && is_null (org_deletedAt r)) (db_org d)).

Definition OrgRepo_getByName (name : string) : M X (option Org) :=
  read (λ d, find_first (λ r, (org_name r =?s name) && is_null (org_deletedAt r)) (db_org d)).

Definition OrgRepo_list : M X (list Org) :=
  read (λ d, order_asc org_createdAt (select (λ r, is_null (org_deletedAt r)) (db_org d))).

Definition OrgRepo_update (id : string) (name : option string) (tier : option OrgTier) : M X Org :=
  existing ← OrgRepo_get id;
  match existing with
  | None => throw (EStorageNotFound "org" id)
  | Some e =>
    now ← nowIso;
    let name' := name ?? org_name e in
    let tier' := tier ?? org_tier e in
    db_update T_org (λ r, org_id r =?s org_id e)
      (λ r, mkOrg (org_id r) name' tier' (org_createdAt r) now (org_deletedAt r));;
    mret (mkOrg (org_id e) name' tier' (org_createdAt e) now (org_deletedAt e))
  end.

Definition OrgRepo_softDelete (id : string) : M X unit :=
  now ← nowIso;
  changes ← db_update_raw T_org (λ r, (org_id r =?s id) && is_null (org_deletedAt r))
    (λ r, mkOrg (org_id r) (org_name r) (org_tier r) (org_createdAt r) now (Some now));
  if (changes =? 0)%nat then throw (EStorageNotFound "org" id) else mret ().

(** ** API keys *)

Definition ApiKeyRepo_create (orgId name prefix hash : string) (expiresAt : option string)
    : M X ApiKey :=
  now ← nowIso; id ← newId;
  let row := mkApiKey id orgId prefix hash name expiresAt now now None in
  db_insert T_api_key row;; mret row.

Definition ApiKeyRepo_get (id : string) : M X (option ApiKey) :=
  read (λ d, find_first (λ r, (ak_id r =?s id) && is_null (ak_deletedAt r)) (db_api_key d)).

Definition ApiKeyRepo_getByPrefix (prefix : string) : M X (option ApiKey) :=
  read (λ d, find_first (λ r, (ak_prefix r =?s prefix) && is_null (ak_deletedAt r)) (db_api_key d)).

Definition ApiKeyRepo_listForOrg (orgId : string) : M X (list ApiKey) :=
  read (λ d, order_asc ak_createdAt
    (select (λ r, (ak_orgId r =?s orgId) && is_null (ak_deletedAt r)) (db_api_key d))).

Definition ApiKeyRepo_softDelete (id : string) : M X unit :=
  now ← nowIso;
  changes ← db_update_raw T_api_key (λ r, (ak_id r =?s id) && is_null (ak_deletedAt r))
    (λ r, mkApiKey (ak_id r) (ak_orgId r) (ak_prefix r) (ak_hash r) (ak_name r)
            (ak_expiresAt r) (ak_createdAt r) now (Some now));
  if (changes =? 0)%nat then throw (EStorageNotFound "api_key" id) else mret ().

(** ** Products *)

Definition ProductRepo_create (orgId name repoUrl : string) (buildYamlPath : option string)
    : M X Product :=
  now ← nowIso; id ← newId;
  let row := mkProduct id orgId name repoUrl (buildYamlPath ?? "signalman.build.yaml") now now None in
  db_insert T_product row;; mret row.

Definition ProductRepo_get (id : string) : M X (option Product) :=
  read (λ d, find_first (λ r, (pr_id r =?s id) && is_null (pr_deletedAt r)) (db_product d)).

Definition ProductRepo_getByName (orgId name : string) : M X (option Product) :=
  read (λ d, find_first
    (λ r, (pr_orgId r =?s orgId) && (pr_name r =?s name) && is_null (pr_deletedAt r)) (db_product d)).

Definition ProductRepo_listForOrg (orgId : string) : M X (list Product) :=
  read (λ d, order_asc pr_name
    (select (λ r, (pr_orgId r =?s orgId) && is_null (pr_deletedAt r)) (db_product d))).

Definition ProductRepo_update (id : string) (name repoUrl buildYamlPath : option string)
    : M X Product :=
  existing ← ProductRepo_get id;
  match existing with
  | None => throw (EStorageNotFound "product" id)
  | Some e =>
    now ← nowIso;
    let name' := name ?? pr_name e in
    let repo' := repoUrl ?? pr_repoUrl e in
    let yaml' := buildYamlPath ?? pr_buildYamlPath e in
    db_update T_product (λ r, pr_id r =?s pr_id e)
      (λ r, mkProduct (pr_id r) (pr_orgId r) name' repo' yaml' (pr_createdAt r) now (pr_deletedAt r));;
    mret (mkProduct (pr_id e) (pr_orgId e) name' repo' yaml' (pr_createdAt e) now (pr_deletedAt e))
  end.

Definition ProductRepo_softDelete (id : string) : M X unit :=
  now ← nowIso;
  changes ← db_update_raw T_product (λ r, (pr_id r =?s id) && is_null (pr_deletedAt r))
    (λ r, mkProduct (pr_id r) (pr_orgId r) (pr_name r) (pr_repoUrl r) (pr_buildYamlPath r)
            (pr_createdAt r) now (Some now));
  if (changes =? 0)%nat then throw (EStorageNotFound "product" id) else mret ().

(** ** Releases *)

Definition ReleaseRepo_create (orgId productId tag commitSha : string)
    (status : option ReleaseStatus) : M X Release :=
  now ← nowIso; id ← newId;
  let row := mkRelease id orgId productId tag commitSha None None None None None
               (status ?? RS_building) None now now None in
  db_insert T_release row;; mret row.

Definition ReleaseRepo_get (id : string) : M X (option Release) :=
  read (λ d, find_first (λ r, (rel_id r =?s id) && is_null (rel_deletedAt r)) (db_release d)).

Definition ReleaseRepo_getByTag (productId tag : string) : M X (option Release) :=
  read (λ d, find_first
    (λ r, (rel_productId r =?s productId) && (rel_tag r =?s tag) && is_null (rel_deletedAt r))
    (db_release d)).

Definition ReleaseRepo_listForProduct (productId : string) (status : option ReleaseStatus)
    : M X (list Release) :=
  match status with
  | Some st => read (λ d, order_desc rel_createdAt
      (select (λ r, (rel_productId r =?s productId) && bool_decide (rel_status r = st)
                    && is_null (rel_deletedAt r)) (db_release d)))
  | None => read (λ d, order_desc rel_createdAt
      (select (λ r, (rel_productId r =?s productId) && is_null (rel_deletedAt r)) (db_release d)))
  end.

Record ReleasePatch := mkReleasePatch {
  rp_manifestSha256 : option string;
  rp_signedBy : option string;
  rp_signatureB64 : option string;
  rp_builtAt : option string;
  rp_builtByRunnerId : option string;
  rp_status : option ReleaseStatus;
  rp_buildYamlJson : option string
}.

(** The columns an update writes; [e] is the row it read. *)
Definition release_set (patch : ReleasePatch) (e : Release) (now : string) (r : Release) : Release :=
  mkRelease (rel_id r) (rel_orgId r) (rel_productId r) (rel_tag r) (rel_commitSha r)
    (coalesce (rp_manifestSha256 patch) (rel_manifestSha256 e))
    (coalesce (rp_signedBy patch) (rel_signedBy e))
    (coalesce (rp_signatureB64 patch) (rel_signatureB64 e))
    (coalesce (rp_builtAt patch) (rel_builtAt e))
    (coalesce (rp_builtByRunnerId patch) (rel_builtByRunnerId e))
    (rp_status patch ?? rel_status e)
    (coalesce (rp_buildYamlJson patch) (rel_buildYamlJson e))
    (rel_createdAt r) now (rel_deletedAt r).

Definition ReleaseRepo_update (id : string) (patch : ReleasePatch) : M X Release :=
  existing ← ReleaseRepo_get id;
  match existing with
  | None => throw (EStorageNotFound "release" id)
  | Some e =>
    now ← nowIso;
    db_update T_release (λ r, rel_id r =?s rel_id e) (release_set patch e now);;
    mret (release_set patch e now e)
  end.

Definition ReleaseRepo_softDelete (id : string) : M X unit :=
  now ← nowIso;
  changes ← db_update_raw T_release (λ r, (rel_id r =?s id) && is_null (rel_deletedAt r))
    (λ r, mkRelease (rel_id r) (rel_orgId r) (rel_productId r) (rel_tag r) (rel_commitSha r)
            (rel_manifestSha256 r) (rel_signedBy r) (rel_signatureB64 r) (rel_builtAt r)
            (rel_builtByRunnerId r) (rel_status r) (rel_buildYamlJson r) (rel_createdAt r)
            now (Some now));
  if (changes =? 0)%nat then throw (EStorageNotFound "release" id) else mret ().

(** ** Artifacts *)

Definition ArtifactRepo_create (releaseId component : string) (kind : ArtifactKind)
    (sha256 : option string) (sizeBytes : option Z) (blobUri imageRef : option string)
    : M X Artifact :=
  now ← nowIso; id ← newId;
  let row := mkArtifact id releaseId component kind sha256 sizeBytes blobUri imageRef now now None in
  db_insert T_artifact row;; mret row.

Definition ArtifactRepo_get (id : string) : M X (option Artifact) :=
  read (λ d, find_first (λ r, (art_id r =?s id) && is_null (art_deletedAt r)) (db_artifact d)).

Definition ArtifactRepo_listForRelease (releaseId : string) : M X (list Artifact) :=
  read (λ d, order_asc art_component
    (select (λ r, (art_releaseId r =?s releaseId) && is_null (art_deletedAt r)) (db_artifact d))).

Definition ArtifactRepo_softDelete (id : string) : M X unit :=
  now ← nowIso;
  changes ← db_update_raw T_artifact (λ r, (art_id r =?s id) && is_null (art_deletedAt r))
    (λ r, mkArtifact (art_id r) (art_releaseId r) (art_component r) (art_kind r) (art_sha256 r)
            (art_sizeBytes r) (art_blobUri r) (art_imageRef r) (art_createdAt r) now (Some now));
  if (changes =? 0)%nat then throw (EStorageNotFound "artifact" id) else mret ().

(** ** Audit log *)

Definition AuditLogRepo_append (orgId actor action entityType entityId : string)
    (detail : option json_object) : M X AuditLogEntry :=
  now ← nowIso; id ← newId;
  let row := mkAuditLogEntry id orgId actor action entityType entityId detail now now in
  db_insert T_audit_log row;; mret row.

Definition AuditLogRepo_listForOrg (orgId : string) (limit : option Z)
    (entityType entityId : option string) : M X (list AuditLogEntry) :=
  let limit' := limit ?? 100 in
  match truthy entityType, truthy entityId with
  | Some ty, Some en => read (λ d, sql_limit limit' (order_desc al_at
      (select (λ r, (al_orgId r =?s orgId) && (al_entityType r =?s ty) && (al_entityId r =?s en))
        (db_audit_log d))))
  | Some ty, None => read (λ d, sql_limit limit' (order_desc al_at
      (select (λ r, (al_orgId r =?s orgId) && (al_entityType r =?s ty)) (db_audit_log d))))
  | None, _ => read (λ d, sql_limit limit' (order_desc al_at
      (select (λ r, al_orgId r =?s orgId) (db_audit_log d))))
  end.

(** ** Targets *)

Definition TargetRepo_create (orgId name : string) (kind : TargetKind) (connection : json_object)
    : M X Target :=
  now ← nowIso; id ← newId;
  let row := mkTarget id orgId name kind connection now now None in
  db_insert T_target row;; mret row.

Definition TargetRepo_get (id : string) : M X (option Target) :=
  read (λ d, find_first (λ r, (tg_id r =?s id) && is_null (tg_deletedAt r)) (db_target d)).

Definition TargetRepo_getByName (orgId name : string) : M X (option Target) :=
  read (λ d, find_first
    (λ r, (tg_orgId r =?s orgId) && (tg_name r =?s name) && is_null (tg_deletedAt r)) (db_target d)).

Definition TargetRepo_listForOrg (orgId : string) : M X (list Target) :=
  read (λ d, order_asc tg_name
    (select (λ r, (tg_orgId r =?s orgId) && is_null (tg_deletedAt r)) (db_target d))).

Definition TargetRepo_update (id : string) (name : option string) (connection : option json_object)
    : M X Target :=
  existing ← TargetRepo_get id;
  match existing with
  | None => throw (EStorageNotFound "target" id)
  | Some e =>
    let name' := name ?? tg_name e in
    let conn' := connection ?? tg_connection e in
    now ← nowIso;
    db_update T_target (λ r, tg_id r =?s tg_id e)
      (λ r, mkTarget (tg_id r) (tg_orgId r) name' (tg_kind r) conn' (tg_createdAt r) now (tg_deletedAt r));;
    mret (mkTarget (tg_id e) (tg_orgId e) name' (tg_kind e) conn' (tg_createdAt e) now (tg_deletedAt e))
  end.

Definition TargetRepo_softDelete (id : string) : M X unit :=
  now ← nowIso;
  changes ← db_update_raw T_target (λ r, (tg_id r =?s id) && is_null (tg_deletedAt r))
    (λ r, mkTarget (tg_id r) (tg_orgId r) (tg_name r) (tg_kind r) (tg_connection r)
            (tg_createdAt r) now (Some now));
  if (changes =? 0)%nat then throw (EStorageNotFound "target" id) else mret ().

(** ** Every write keeps the schema invariant *)

Lemma OrgRepo_create_ok name tier : preserves (on_db db_ok) (OrgRepo_create name tier).
Proof. unfold OrgRepo_create. preserve. Qed.
Lemma OrgRepo_update_ok id name tier : preserves (on_db db_ok) (OrgRepo_update id name tier).
Proof. unfold OrgRepo_update, OrgRepo_get. preserve. Qed.
Lemma OrgRepo_softDelete_ok id : preserves (on_db db_ok) (OrgRepo_softDelete id).
Proof. unfold OrgRepo_softDelete. preserve. Qed.
Lemma ApiKeyRepo_create_ok o n p h e : preserves (on_db db_ok) (ApiKeyRepo_create o n p h e).
Proof. unfold ApiKeyRepo_create. preserve. Qed.
Lemma ApiKeyRepo_softDelete_ok id : preserves (on_db db_ok) (ApiKeyRepo_softDelete id).
Proof. unfold ApiKeyRepo_softDelete. preserve. Qed.
Lemma ProductRepo_create_ok o n r b : preserves (on_db db_ok) (ProductRepo_create o n r b).
Proof. unfold ProductRepo_create. preserve. Qed.
Lemma ProductRepo_update_ok id n r b : preserves (on_db db_ok) (ProductRepo_update id n r b).
Proof. unfold ProductRepo_update, ProductRepo_get. preserve. Qed.
Lemma ProductRepo_softDelete_ok id : preserves (on_db db_ok) (ProductRepo_softDelete id).
Proof. unfold ProductRepo_softDelete. preserve. Qed.
Lemma ReleaseRepo_create_ok o p t c s : preserves (on_db db_ok) (ReleaseRepo_create o p t c s).
Proof. unfold ReleaseRepo_create. preserve. Qed.
Lemma ReleaseRepo_update_ok id p : preserves (on_db db_ok) (ReleaseRepo_update id p).
Proof. unfold ReleaseRepo_update, ReleaseRepo_get. preserve. Qed.
Lemma ReleaseRepo_softDelete_ok id : preserves (on_db db_ok) (ReleaseRepo_softDelete id).
Proof. unfold ReleaseRepo_softDelete. preserve. Qed.
Lemma ArtifactRepo_create_ok r c k s z b i : preserves (on_db db_ok) (ArtifactRepo_create r c k s z b i).
Proof. unfold ArtifactRepo_create. preserve. Qed.
Lemma ArtifactRepo_softDelete_ok id : preserves (on_db db_ok) (ArtifactRepo_softDelete id).
Proof. unfold ArtifactRepo_softDelete. preserve. Qed.
Lemma AuditLogRepo_append_ok o a c t e d : preserves (on_db db_ok) (AuditLogRepo_append o a c t e d).
Proof. unfold AuditLogRepo_append. preserve. Qed.
Lemma TargetRepo_create_ok o n k c : preserves (on_db db_ok) (TargetRepo_create o n k c).
Proof. unfold TargetRepo_create. preserve. Qed.
Lemma TargetRepo_update_ok id n c : preserves (on_db db_ok) (TargetRepo_update id n c).
Proof. unfold TargetRepo_update, TargetRepo_get. preserve. Qed.
Lemma TargetRepo_softDelete_ok id : preserves (on_db db_ok) (TargetRepo_softDelete id).
Proof. unfold TargetRepo_softDelete. preserve. Qed.
End repos.

#[export] Hint Resolve OrgRepo_create_ok OrgRepo_update_ok OrgRepo_softDelete_ok
  ApiKeyRepo_create_ok ApiKeyRepo_softDelete_ok ProductRepo_create_ok ProductRepo_update_ok
  ProductRepo_softDelete_ok ReleaseRepo_create_ok ReleaseRepo_update_ok ReleaseRepo_softDelete_ok
  ArtifactRepo_create_ok ArtifactRepo_softDelete_ok AuditLogRepo_append_ok TargetRepo_create_ok
  TargetRepo_update_ok TargetRepo_softDelete_ok : preserve.
