(* ===== verification/StorageDeploy.v ===== *)
(** Repositories of storage/sqlite.ts for deployments, health checks, scenarios,
    runs, jobs and runners.  A patch field that may be absent, null or a value
    is an [option (option _)]: absent, [Some None], [Some (Some v)]. *)

From S2P Require Import Prelude JsTime JsVal Types World Logic.

Section repos.
Context {X : Type} `{Oracle}.

(** ** Deployments *)

Definition DeploymentRepo_create (orgId releaseId targetId : string)
    (previousDeploymentId : option string) : M X Deployment :=
  now ← nowIso; id ← newId;
  let row := mkDeployment id orgId releaseId targetId DS_pending None None
               previousDeploymentId None now now None in
  db_insert T_deployment row;; mret row.

Definition DeploymentRepo_get (id : string) : M X (option Deployment) :=
  read (λ d, find_first (λ r, (dep_id r =?s id) && is_null (dep_deletedAt r)) (db_deployment d)).

Definition DeploymentRepo_getActiveForTarget (targetId : string) : M X (option Deployment) :=
  read (λ d, find_first
    (λ r, (dep_targetId r =?s targetId) && bool_decide (dep_status r = DS_active)
          && is_null (dep_deletedAt r)) (db_deployment d)).

Definition DeploymentRepo_listForTarget (targetId : string) (limit : option Z)
    : M X (list Deployment) :=
  read (λ d, sql_limit (limit ?? 100) (order_desc dep_createdAt
    (select (λ r, (dep_targetId r =?s targetId) && is_null (dep_deletedAt r)) (db_deployment d)))).

Record DeploymentPatch := mkDeploymentPatch {
  dp_status : option DeploymentStatus;
  dp_startedAt : option string;
  dp_completedAt : option string;
  dp_healthSummary : option (option DeploymentHealthSummary)
}.

Definition deployment_set (patch : DeploymentPatch) (e : Deployment) (now : string) (r : Deployment)
    : Deployment :=
  mkDeployment (dep_id r) (dep_orgId r) (dep_releaseId r) (dep_targetId r)
    (dp_status patch ?? dep_status e)
    (coalesce (dp_startedAt patch) (dep_startedAt e))
    (coalesce (dp_completedAt patch) (dep_completedAt e))
    (dep_previousDeploymentId r)
    (dp_healthSummary patch ?? dep_healthSummary e)
    (dep_createdAt r) now (dep_deletedAt r).

Definition DeploymentRepo_update (id : string) (patch : DeploymentPatch) : M X Deployment :=
  existing ← DeploymentRepo_get id;
  match existing with
  | None => throw (EStorageNotFound "deployment" id)
  | Some e =>
    now ← nowIso;
    db_update T_deployment (λ r, dep_id r =?s dep_id e) (deployment_set patch e now);;
    mret (deployment_set patch e now e)
  end.

(** ** Health checks *)

Definition HealthCheckRepo_append (deploymentId probeName : string) (status : HealthStatus)
    (latencyMs : option Z) (detail : option string) : M X HealthCheck :=
  now ← nowIso; id ← newId;
  let row := mkHealthCheck id deploymentId probeName status latencyMs detail now now now None in
  db_insert T_health_check row;; mret row.

Definition HealthCheckRepo_listForDeployment (deploymentId : string) (since : option string)
    (limit : option Z) : M X (list HealthCheck) :=
  let limit' := limit ?? 100 in
  match truthy since with
  | Some s => read (λ d, sql_limit limit' (order_desc hc_checkedAt
      (select (λ r, (hc_deploymentId r =?s deploymentId) && str_leb s (hc_checkedAt r)
                    && is_null (hc_deletedAt r)) (db_health_check d))))
  | None => read (λ d, sql_limit limit' (order_desc hc_checkedAt
      (select (λ r, (hc_deploymentId r =?s deploymentId) && is_null (hc_deletedAt r))
        (db_health_check d))))
  end.

(** ** Scenarios *)

Definition ScenarioRepo_get (id : string) : M X (option Scenario) :=
  read (λ d, find_first (λ r, (sc_id r =?s id) && is_null (sc_deletedAt r)) (db_scenario d)).

Definition ScenarioRepo_getByPath (orgId p : string) : M X (option Scenario) :=
  read (λ d, find_first
    (λ r, (sc_orgId r =?s orgId) && (sc_path r =?s p) && is_null (sc_deletedAt r)) (db_scenario d)).

Definition ScenarioRepo_upsertFromDisk (orgId path scenarioHash name : string) (tags : list string)
    : M X Scenario :=
  existing ← ScenarioRepo_getByPath orgId path;
  match existing with
  | Some e =>
    now ← nowIso;
    let set (r : Scenario) :=
      mkScenario (sc_id r) (sc_orgId r) (sc_path r) scenarioHash name tags (sc_source r)
        (sc_createdAt r) now (sc_deletedAt r) in
    db_update T_scenario (λ r, sc_id r =?s sc_id e) set;;
    mret (set e)
  | None =>
    now ← nowIso; id ← newId;
    let row := mkScenario id orgId path scenarioHash name tags SS_disk now now None in
    db_insert T_scenario row;; mret row
  end.

Definition ScenarioRepo_listForOrg (orgId : string) : M X (list Scenario) :=
  read (λ d, order_asc sc_path
    (select (λ r, (sc_orgId r =?s orgId) && is_null (sc_deletedAt r)) (db_scenario d))).

Definition ScenarioRepo_softDelete (id : string) : M X unit :=
  now ← nowIso;
  changes ← db_update_raw T_scenario (λ r, (sc_id r =?s id) && is_null (sc_deletedAt r))
    (λ r, mkScenario (sc_id r) (sc_orgId r) (sc_path r) (sc_scenarioHash r) (sc_name r) (sc_tags r)
            (sc_source r) (sc_createdAt r) now (Some now));
  if (changes =? 0)%nat then throw (EStorageNotFound "scenario" id) else mret ().

(** ** Runs *)

Definition RunRepo_create (orgId scenarioId : string) (targetId : option string)
    (triggeredBy : RunTriggeredBy) : M X Run :=
  now ← nowIso; id ← newId;
  let row := mkRun id orgId scenarioId targetId triggeredBy None None None None now now None in
  db_insert T_run row;; mret row.

Definition RunRepo_get (id : string) : M X (option Run) :=
  read (λ d, find_first (λ r, (run_id r =?s id) && is_null (run_deletedAt r)) (db_run d)).

Definition RunRepo_listForScenario (scenarioId : string) (limit : option Z) : M X (list Run) :=
  read (λ d, sql_limit (limit ?? 50) (order_desc run_createdAt
    (select (λ r, (run_scenarioId r =?s scenarioId) && is_null (run_deletedAt r)) (db_run d)))).

Record RunPatch := mkRunPatch {
  rup_envelopeBlobUri : option string;
  rup_result : option string;
  rup_startedAt : option string;
  rup_completedAt : option string
}.

Definition RunRepo_update (id : string) (patch : RunPatch) : M X Run :=
  existing ← RunRepo_get id;
  match existing with
  | None => throw (EStorageNotFound "run" id)
  | Some e =>
    now ← nowIso;
    let set (r : Run) :=
      mkRun (run_id r) (run_orgId r) (run_scenarioId r) (run_targetId r) (run_triggeredBy r)
        (coalesce (rup_envelopeBlobUri patch) (run_envelopeBlobUri e))
        (coalesce (rup_result patch) (run_result e))
        (coalesce (rup_startedAt patch) (run_startedAt e))
        (coalesce (rup_completedAt patch) (run_completedAt e))
        (run_createdAt r) now (run_deletedAt r) in
    db_update T_run (λ r, run_id r =?s run_id e) set;;
    mret (set e)
  end.

(** ** Jobs *)

Definition JobRepo_create (orgId kind : string) (input : option json_object) : M X Job :=
  now ← nowIso; id ← newId;
  let row := mkJob id orgId kind (input ?? []) JS_pending None None None None None None now now None in
  db_insert T_job row;; mret row.

Definition JobRepo_get (id : string) : M X (option Job) :=
  read (λ d, find_first (λ r, (job_id r =?s id) && is_null (job_deletedAt r)) (db_job d)).

Definition JobRepo_listForOrg (orgId : string) (limit : option Z) (status : option JobStatus)
    : M X (list Job) :=
  let limit' := limit ?? 50 in
  match status with
  | Some st => read (λ d, sql_limit limit' (order_desc job_createdAt
      (select (λ r, (job_orgId r =?s orgId) && bool_decide (job_status r = st)
                    && is_null (job_deletedAt r)) (db_job d))))
  | None => read (λ d, sql_limit limit' (order_desc job_createdAt
      (select (λ r, (job_orgId r =?s orgId) && is_null (job_deletedAt r)) (db_job d))))
  end.

(** The test of claimNext's SELECT. *)
Definition job_claimable (orgId : string) (r : Job) : bool :=
  (job_orgId r =?s orgId) && bool_decide (job_status r = JS_pending) && is_null (job_deletedAt r).

Definition job_set_claimed (claimedBy now : string) (r : Job) : Job :=
  mkJob (job_id r) (job_orgId r) (job_kind r) (job_input r) JS_claimed (job_result r) (job_error r)
    (Some claimedBy) (Some now) (job_startedAt r) (job_completedAt r) (job_createdAt r) now
    (job_deletedAt r).

Definition JobRepo_claimNext (orgId claimedBy : string) : M X (option Job) :=
  runInTransaction (
    pending ← read (λ d, head (order_asc job_createdAt (select (job_claimable orgId) (db_job d))));
    match pending with
    | None => mret None
    | Some p =>
      now ← nowIso;
      changes ← db_update_raw T_job
        (λ r, (job_id r =?s job_id p) && bool_decide (job_status r = JS_pending))
        (job_set_claimed claimedBy now);
      if (changes =? 0)%nat then mret None
      else mret (Some (job_set_claimed claimedBy now p))
    end).

Record JobPatch := mkJobPatch {
  jp_status : option JobStatus;
  jp_result : option (option json_object);
  jp_error : option (option string);
  jp_startedAt : option (option string);
  jp_completedAt : option (option string)
}.

Definition JobRepo_update (id : string) (patch : JobPatch) : M X Job :=
  existing ← JobRepo_get id;
  match existing with
  | None => throw (EStorageNotFound "job" id)
  | Some e =>
    now ← nowIso;
    let set (r : Job) :=
      mkJob (job_id r) (job_orgId r) (job_kind r) (job_input r)
        (jp_status patch ?? job_status e)
        (jp_result patch ?? job_result e)
        (jp_error patch ?? job_error e)
        (job_claimedBy r) (job_claimedAt r)
        (jp_startedAt patch ?? job_startedAt e)
        (jp_completedAt patch ?? job_completedAt e)
        (job_createdAt r) now (job_deletedAt r) in
    db_update T_job (λ r, job_id r =?s job_id e) set;;
    mret (set e)
  end.

(** ** Runners *)

(** ORDER BY deleted_at IS NULL DESC, last_seen_at DESC. *)
Definition runner_before (a b : Runner) : bool :=
  if eqb (is_null (rn_deletedAt a)) (is_null (rn_deletedAt b))
  then str_leb (rn_lastSeenAt b) (rn_lastSeenAt a)
  else is_null (rn_deletedAt a).

(** [meta] absent, null, or an object. *)
Definition RunnerRepo_heartbeat (orgId name : string) (meta : option (option json_object))
    : M X Runner :=
  now ← nowIso;
  existing ← read (λ d, head (order_by runner_before
    (select (λ r, (rn_orgId r =?s orgId) && (rn_name r =?s name)) (db_runner d))));
  let metaJson := match meta with None => None | Some m => Some (m ?? []) end in
  match existing with
  | Some e =>
    if is_null (rn_deletedAt e) then
      let set (r : Runner) :=
        mkRunner (rn_id r) (rn_orgId r) (rn_name r) now (rn_registeredAt r)
          (coalesce metaJson (rn_meta e)) (rn_createdAt r) now (rn_deletedAt r) in
      db_update_raw T_runner (λ r, rn_id r =?s rn_id e) set;;
      mret (set e)
    else
      let set (r : Runner) :=
        mkRunner (rn_id r) (rn_orgId r) (rn_name r) now now metaJson (rn_createdAt r) now None in
      db_update_raw T_runner (λ r, rn_id r =?s rn_id e) set;;
      mret (set e)
  | None =>
    id ← newId;
    let row := mkRunner id orgId name now now metaJson now now None in
    db_insert T_runner row;; mret row
  end.

Definition RunnerRepo_get (id : string) : M X (option Runner) :=
  read (λ d, find_first (λ r, (rn_id r =?s id) && is_null (rn_deletedAt r)) (db_runner d)).

Definition RunnerRepo_getByName (orgId name : string) : M X (option Runner) :=
  read (λ d, find_first
    (λ r, (rn_orgId r =?s orgId) && (rn_name r =?s name) && is_null (rn_deletedAt r)) (db_runner d)).

Definition RunnerRepo_listForOrg (orgId : string) : M X (list Runner) :=
  read (λ d, order_desc rn_lastSeenAt
    (select (λ r, (rn_orgId r =?s orgId) && is_null (rn_deletedAt r)) (db_runner d))).

Definition RunnerRepo_softDelete (id : string) : M X unit :=
  now ← nowIso;
  changes ← db_update_raw T_runner (λ r, (rn_id r =?s id) && is_null (rn_deletedAt r))
    (λ r, mkRunner (rn_id r) (rn_orgId r) (rn_name r) (rn_lastSeenAt r) (rn_registeredAt r)
            (rn_meta r) (rn_createdAt r) now (Some now));
  if (changes =? 0)%nat then throw (EStorageNotFound "runner" id) else mret ().

(** ** Every write keeps the schema invariant *)

Lemma DeploymentRepo_create_ok o r t p : preserves (on_db db_ok) (DeploymentRepo_create o r t p).
Proof. unfold DeploymentRepo_create. preserve. Qed.
Lemma DeploymentRepo_update_ok id p : preserves (on_db db_ok) (DeploymentRepo_update id p).
Proof. unfold DeploymentRepo_update, DeploymentRepo_get. preserve. Qed.
Lemma HealthCheckRepo_append_ok d p s l t : preserves (on_db db_ok) (HealthCheckRepo_append d p s l t).
Proof. unfold HealthCheckRepo_append. preserve. Qed.
Lemma ScenarioRepo_upsertFromDisk_ok o p h n t :
  preserves (on_db db_ok) (ScenarioRepo_upsertFromDisk o p h n t).
Proof. unfold ScenarioRepo_upsertFromDisk, ScenarioRepo_getByPath. preserve. Qed.
Lemma ScenarioRepo_softDelete_ok id : preserves (on_db db_ok) (ScenarioRepo_softDelete id).
Proof. unfold ScenarioRepo_softDelete. preserve. Qed.
Lemma RunRepo_create_ok o s t b : preserves (on_db db_ok) (RunRepo_create o s t b).
Proof. unfold RunRepo_create. preserve. Qed.
Lemma RunRepo_update_ok id p : preserves (on_db db_ok) (RunRepo_update id p).
Proof. unfold RunRepo_update, RunRepo_get. preserve. Qed.
Lemma JobRepo_create_ok o k i : preserves (on_db db_ok) (JobRepo_create o k i).
Proof. unfold JobRepo_create. preserve. Qed.
Lemma JobRepo_claimNext_ok o c : preserves (on_db db_ok) (JobRepo_claimNext o c).
Proof. apply preserves_runInTransaction. preserve. Qed.
Lemma JobRepo_update_ok id p : preserves (on_db db_ok) (JobRepo_update id p).
Proof. unfold JobRepo_update, JobRepo_get. preserve. Qed.
Lemma RunnerRepo_heartbeat_ok o n m : preserves (on_db db_ok) (RunnerRepo_heartbeat o n m).
Proof. unfold RunnerRepo_heartbeat. preserve. Qed.
Lemma RunnerRepo_softDelete_ok id : preserves (on_db db_ok) (RunnerRepo_softDelete id).
Proof. unfold RunnerRepo_softDelete. preserve. Qed.
End repos.

#[export] Hint Resolve DeploymentRepo_create_ok DeploymentRepo_update_ok HealthCheckRepo_append_ok
  ScenarioRepo_upsertFromDisk_ok ScenarioRepo_softDelete_ok RunRepo_create_ok RunRepo_update_ok
  JobRepo_create_ok JobRepo_claimNext_ok JobRepo_update_ok RunnerRepo_heartbeat_ok
  RunnerRepo_softDelete_ok : preserve.
