(* ===== verification/StorageOps.v ===== *)
(** Repositories of storage/sqlite.ts for cloud budgets, usage and credentials,
    health schedules, webhook subscriptions, promotion policies, approvals, and
    the signing keys and nonces. *)

From S2P Require Import Prelude JsTime JsVal Types World Logic.

Section repos.
Context {X : Type} `{Oracle}.

(** ** Cloud budgets *)

Definition CloudBudgetRepo_get (orgId : string) : M X (option CloudOrgBudget) :=
  read (λ d, find_first (λ r, cb_orgId r =?s orgId) (db_cloud_org_budget d)).

Definition CloudBudgetRepo_upsert (orgId : string) (monthlyCentsLimit : Z)
    (softWarnPct : option Z) : M X CloudOrgBudget :=
  now ← nowIso;
  let pct := softWarnPct ?? 80 in
  existing ← CloudBudgetRepo_get orgId;
  match existing with
  | Some e =>
    db_update T_cloud_org_budget (λ r, cb_orgId r =?s orgId)
      (λ r, mkCloudOrgBudget (cb_orgId r) monthlyCentsLimit pct (cb_createdAt r) now);;
    mret (mkCloudOrgBudget orgId monthlyCentsLimit pct (cb_createdAt e) now)
  | None =>
    let row := mkCloudOrgBudget orgId monthlyCentsLimit pct now now in
    db_insert T_cloud_org_budget row;; mret row
  end.

Definition CloudBudgetRepo_remove (orgId : string) : M X unit :=
  db_delete T_cloud_org_budget (λ r, cb_orgId r =?s orgId);; mret ().

(** ** Cloud usage *)

Definition CloudUsageRepo_recordStart (orgId backend instanceId instanceType region startedAt : string)
    (estimatedCents : Z) : M X CloudOrgUsage :=
  id ← newId;
  let row := mkCloudOrgUsage id orgId backend instanceId instanceType region startedAt None
               estimatedCents in
  db_insert T_cloud_org_usage row;; mret row.

Definition CloudUsageRepo_recordTerminate (orgId instanceId terminatedAt : string) : M X unit :=
  db_update_raw T_cloud_org_usage
    (λ r, (cu_orgId r =?s orgId) && (cu_instanceId r =?s instanceId) && is_null (cu_terminatedAt r))
    (λ r, mkCloudOrgUsage (cu_id r) (cu_orgId r) (cu_backend r) (cu_instanceId r)
            (cu_instanceType r) (cu_region r) (cu_startedAt r) (Some terminatedAt)
            (cu_estimatedCents r));;
  mret ().

(** started_at >= from AND started_at < to. *)
Definition usage_in_range (orgId startedAtFrom startedAtTo : string) (r : CloudOrgUsage) : bool :=
  (cu_orgId r =?s orgId) && str_leb startedAtFrom (cu_startedAt r)
  && str_ltb (cu_startedAt r) startedAtTo.

Definition sum_cents (l : list CloudOrgUsage) : Z :=
  foldr (λ r acc, cu_estimatedCents r + acc) 0 l.

Definition CloudUsageRepo_sumForRange (orgId startedAtFrom startedAtTo : string) : M X Z :=
  read (λ d, sum_cents (select (usage_in_range orgId startedAtFrom startedAtTo) (db_cloud_org_usage d))).

Definition CloudUsageRepo_listForOrg (orgId : string) (startedAtFrom startedAtTo : option string)
    : M X (list CloudOrgUsage) :=
  read (λ d, order_asc cu_startedAt (select
    (λ r, (cu_orgId r =?s orgId)
          && match truthy startedAtFrom with Some f => str_leb f (cu_startedAt r) | None => true end
          && match truthy startedAtTo with Some t => str_ltb (cu_startedAt r) t | None => true end)
    (db_cloud_org_usage d))).

(** ** Cloud credentials *)

Definition CloudCredentialsRepo_get (orgId backend : string) : M X (option CloudOrgCredential) :=
  read (λ d, find_first (λ r, (cc_orgId r =?s orgId) && (cc_backend r =?s backend))
    (db_cloud_org_credential d)).

Definition CloudCredentialsRepo_upsert
    (orgId backend ciphertextB64 encryptionMethod redactedHint : string) : M X CloudOrgCredential :=
  now ← nowIso;
  existing ← CloudCredentialsRepo_get orgId backend;
  match existing with
  | Some e =>
    let set (r : CloudOrgCredential) :=
      mkCloudOrgCredential (cc_id r) (cc_orgId r) (cc_backend r) ciphertextB64 encryptionMethod
        redactedHint (cc_createdAt r) now in
    db_update T_cloud_org_credential (λ r, cc_id r =?s cc_id e) set;;
    mret (set e)
  | None =>
    id ← newId;
    let row := mkCloudOrgCredential id orgId backend ciphertextB64 encryptionMethod redactedHint
                 now now in
    db_insert T_cloud_org_credential row;; mret row
  end.

Definition CloudCredentialsRepo_remove (orgId backend : string) : M X unit :=
  db_delete T_cloud_org_credential (λ r, (cc_orgId r =?s orgId) && (cc_backend r =?s backend));;
  mret ().

Definition CloudCredentialsRepo_listForOrg (orgId : string) : M X (list CloudOrgCredential) :=
  read (λ d, order_asc cc_backend (select (λ r, cc_orgId r =?s orgId) (db_cloud_org_credential d))).

(** ** Health schedules *)

Definition HealthScheduleRepo_create (orgId targetId : string) (intervalSeconds : Z)
    (probeNames : list string) (active : option bool) : M X HealthSchedule :=
  now ← nowIso; id ← newId;
  let row := mkHealthSchedule id orgId targetId intervalSeconds probeNames None (active ?? true)
               now now None in
  db_insert T_health_schedule row;; mret row.

Definition HealthScheduleRepo_get (id : string) : M X (option HealthSchedule) :=
  read (λ d, find_first (λ r, (hs_id r =?s id) && is_null (hs_deletedAt r)) (db_health_schedule d)).

Definition HealthScheduleRepo_listForOrg (orgId : string) : M X (list HealthSchedule) :=
  read (λ d, order_asc hs_createdAt
    (select (λ r, (hs_orgId r =?s orgId) && is_null (hs_deletedAt r)) (db_health_schedule d))).

Definition HealthScheduleRepo_listForTarget (targetId : string) : M X (list HealthSchedule) :=
  read (λ d, order_asc hs_createdAt
    (select (λ r, (hs_targetId r =?s targetId) && is_null (hs_deletedAt r)) (db_health_schedule d))).

Definition HealthScheduleRepo_listActive (orgId : option string) : M X (list HealthSchedule) :=
  match truthy orgId with
  | Some o => read (λ d, order_asc hs_createdAt
      (select (λ r, (hs_orgId r =?s o) && hs_active r && is_null (hs_deletedAt r))
        (db_health_schedule d)))
  | None => read (λ d, order_asc hs_createdAt
      (select (λ r, hs_active r && is_null (hs_deletedAt r)) (db_health_schedule d)))
  end.

Record HealthSchedulePatch := mkHealthSchedulePatch {
  hsp_intervalSeconds : option Z;
  hsp_probeNames : option (list string);
  hsp_active : option bool;
  hsp_lastRunAt : option (option string)
}.

(** The columns an update writes; [e] is the row it read. *)
Definition schedule_set (patch : HealthSchedulePatch) (e : HealthSchedule) (now : string)
    (r : HealthSchedule) : HealthSchedule :=
  mkHealthSchedule (hs_id r) (hs_orgId r) (hs_targetId r)
    (hsp_intervalSeconds patch ?? hs_intervalSeconds e)
    (hsp_probeNames patch ?? hs_probeNames e)
    (hsp_lastRunAt patch ?? hs_lastRunAt e)
    (hsp_active patch ?? hs_active e)
    (hs_createdAt r) now (hs_deletedAt r).

Definition HealthScheduleRepo_update (id : string) (patch : HealthSchedulePatch)
    : M X HealthSchedule :=
  existing ← HealthScheduleRepo_get id;
  match existing with
  | None => throw (EStorageNotFound "health_schedule" id)
  | Some e =>
    now ← nowIso;
    db_update T_health_schedule (λ r, hs_id r =?s hs_id e) (schedule_set patch e now);;
    mret (schedule_set patch e now e)
  end.

Definition HealthScheduleRepo_softDelete (id : string) : M X unit :=
  now ← nowIso;
  changes ← db_update_raw T_health_schedule (λ r, (hs_id r =?s id) && is_null (hs_deletedAt r))
    (λ r, mkHealthSchedule (hs_id r) (hs_orgId r) (hs_targetId r) (hs_intervalSeconds r)
            (hs_probeNames r) (hs_lastRunAt r) (hs_active r) (hs_createdAt r) now (Some now));
  if (changes =? 0)%nat then throw (EStorageNotFound "health_schedule" id) else mret ().

(** ** Webhook subscriptions *)

Definition WebhookSubscriptionRepo_create (orgId : string) (kind : WebhookKind) (url : string)
    (secretHmacKey : option string) (eventKinds : option (list string)) (active : option bool)
    (description : option string) : M X WebhookSubscription :=
  now ← nowIso; id ← newId;
  let row := mkWebhookSubscription id orgId kind url secretHmacKey (eventKinds ?? [])
               (active ?? true) description now now None in
  db_insert T_webhook_subscription row;; mret row.

Definition WebhookSubscriptionRepo_get (id : string) : M X (option WebhookSubscription) :=
  read (λ d, find_first (λ r, (wh_id r =?s id) && is_null (wh_deletedAt r))
    (db_webhook_subscription d)).

Definition WebhookSubscriptionRepo_listForOrg (orgId : string) : M X (list WebhookSubscription) :=
  read (λ d, order_asc wh_createdAt
    (select (λ r, (wh_orgId r =?s orgId) && is_null (wh_deletedAt r)) (db_webhook_subscription d))).

Definition WebhookSubscriptionRepo_listActive (orgId : option string)
    : M X (list WebhookSubscription) :=
  match truthy orgId with
  | Some o => read (λ d, order_asc wh_createdAt
      (select (λ r, (wh_orgId r =?s o) && wh_active r && is_null (wh_deletedAt r))
        (db_webhook_subscription d)))
  | None => read (λ d, order_asc wh_createdAt
      (select (λ r, wh_active r && is_null (wh_deletedAt r)) (db_webhook_subscription d)))
  end.

Record WebhookPatch := mkWebhookPatch {
  whp_url : option string;
  whp_secretHmacKey : option (option string);
  whp_eventKinds : option (list string);
  whp_active : option bool;
  whp_description : option (option string)
}.

Definition WebhookSubscriptionRepo_update (id : string) (patch : WebhookPatch)
    : M X WebhookSubscription :=
  existing ← WebhookSubscriptionRepo_get id;
  match existing with
  | None => throw (EStorageNotFound "webhook_subscription" id)
  | Some e =>
    now ← nowIso;
    let set (r : WebhookSubscription) :=
      mkWebhookSubscription (wh_id r) (wh_orgId r) (wh_kind r)
        (whp_url patch ?? wh_url e)
        (whp_secretHmacKey patch ?? wh_secretHmacKey e)
        (whp_eventKinds patch ?? wh_eventKinds e)
        (whp_active patch ?? wh_active e)
        (whp_description patch ?? wh_description e)
        (wh_createdAt r) now (wh_deletedAt r) in
    db_update T_webhook_subscription (λ r, wh_id r =?s wh_id e) set;;
    mret (set e)
  end.

Definition WebhookSubscriptionRepo_softDelete (id : string) : M X unit :=
  now ← nowIso;
  changes ← db_update_raw T_webhook_subscription (λ r, (wh_id r =?s id) && is_null (wh_deletedAt r))
    (λ r, mkWebhookSubscription (wh_id r) (wh_orgId r) (wh_kind r) (wh_url r) (wh_secretHmacKey r)
            (wh_eventKinds r) (wh_active r) (wh_description r) (wh_createdAt r) now (Some now));
  if (changes =? 0)%nat then throw (EStorageNotFound "webhook_subscription" id) else mret ().

(** ** Promotion policies *)

Definition PromotionPolicyRepo_create (orgId productId : string) (sourceTargetId : option string)
    (destTargetId : string) (gateKind : PromotionGateKind) (gateConfig : option json_object)
    (active : option bool) (description : option string) : M X PromotionPolicy :=
  now ← nowIso; id ← newId;
  let row := mkPromotionPolicy id orgId productId sourceTargetId destTargetId gateKind
               (gateConfig ?? []) (active ?? true) description now now None in
  db_insert T_promotion_policy row;; mret row.

Definition PromotionPolicyRepo_get (id : string) : M X (option PromotionPolicy) :=
  read (λ d, find_first (λ r, (pp_id r =?s id) && is_null (pp_deletedAt r)) (db_promotion_policy d)).

Definition PromotionPolicyRepo_listForOrg (orgId : string) : M X (list PromotionPolicy) :=
  read (λ d, order_asc pp_createdAt
    (select (λ r, (pp_orgId r =?s orgId) && is_null (pp_deletedAt r)) (db_promotion_policy d))).

(** [source_target_id IS NULL] for a null source, [= ?] otherwise. *)
Definition policy_matches (productId : string) (sourceTargetId : option string)
    (r : PromotionPolicy) : bool :=
  (pp_productId r =?s productId) && bool_decide (pp_sourceTargetId r = sourceTargetId)
  && pp_active r && is_null (pp_deletedAt r).

Definition PromotionPolicyRepo_listMatchingForProduct (productId : string)
    (sourceTargetId : option string) : M X (list PromotionPolicy) :=
  read (λ d, order_asc pp_createdAt
    (select (policy_matches productId sourceTargetId) (db_promotion_policy d))).

Record PromotionPolicyPatch := mkPromotionPolicyPatch {
  ppp_gateKind : option PromotionGateKind;
  ppp_gateConfig : option json_object;
  ppp_active : option bool;
  ppp_description : option (option string);
  ppp_destTargetId : option string;
  ppp_sourceTargetId : option (option string)
}.

Definition PromotionPolicyRepo_update (id : string) (patch : PromotionPolicyPatch)
    : M X PromotionPolicy :=
  existing ← PromotionPolicyRepo_get id;
  match existing with
  | None => throw (EStorageNotFound "promotion_policy" id)
  | Some e =>
    now ← nowIso;
    let set (r : PromotionPolicy) :=
      mkPromotionPolicy (pp_id r) (pp_orgId r) (pp_productId r)
        (ppp_sourceTargetId patch ?? pp_sourceTargetId e)
        (ppp_destTargetId patch ?? pp_destTargetId e)
        (ppp_gateKind patch ?? pp_gateKind e)
        (ppp_gateConfig patch ?? pp_gateConfig e)
        (ppp_active patch ?? pp_active e)
        (ppp_description patch ?? pp_description e)
        (pp_createdAt r) now (pp_deletedAt r) in
    db_update T_promotion_policy (λ r, pp_id r =?s pp_id e) set;;
    mret (set e)
  end.

Definition PromotionPolicyRepo_softDelete (id : string) : M X unit :=
  now ← nowIso;
  changes ← db_update_raw T_promotion_policy (λ r, (pp_id r =?s id) && is_null (pp_deletedAt r))
    (λ r, mkPromotionPolicy (pp_id r) (pp_orgId r) (pp_productId r) (pp_sourceTargetId r)
            (pp_destTargetId r) (pp_gateKind r) (pp_gateConfig r) (pp_active r) (pp_description r)
            (pp_createdAt r) now (Some now));
  if (changes =? 0)%nat then throw (EStorageNotFound "promotion_policy" id) else mret ().

(** ** Approvals *)

Definition ApprovalRepo_create (orgId policyId releaseId destTargetId : string)
    (status : ApprovalStatus) (autoApproveAt : option string) (requiresHealthGate : option bool)
    : M X Approval :=
  now ← nowIso; id ← newId;
  let row := mkApproval id orgId policyId releaseId destTargetId status autoApproveAt
               None None None None None None (requiresHealthGate ?? false) now now None in
  db_insert T_approval row;; mret row.

Definition ApprovalRepo_get (id : string) : M X (option Approval) :=
  read (λ d, find_first (λ r, (ap_id r =?s id) && is_null (ap_deletedAt r)) (db_approval d)).

Definition ApprovalRepo_getForReleaseAndTarget (releaseId destTargetId : string)
    : M X (option Approval) :=
  read (λ d, head (order_desc ap_createdAt (select
    (λ r, (ap_releaseId r =?s releaseId) && (ap_destTargetId r =?s destTargetId)
          && is_null (ap_deletedAt r)) (db_approval d)))).

Definition ApprovalRepo_listForOrg (orgId : string) (status : option ApprovalStatus)
    (limit : option Z) : M X (list Approval) :=
  let limit' := limit ?? 100 in
  match status with
  | Some st => read (λ d, sql_limit limit' (order_desc ap_createdAt
      (select (λ r, (ap_orgId r =?s orgId) && bool_decide (ap_status r = st)
                    && is_null (ap_deletedAt r)) (db_approval d))))
  | None => read (λ d, sql_limit limit' (order_desc ap_createdAt
      (select (λ r, (ap_orgId r =?s orgId) && is_null (ap_deletedAt r)) (db_approval d))))
  end.

(** auto_approve_at IS NOT NULL AND auto_approve_at <= now, on text. *)
Definition approval_due_text (now : string) (r : Approval) : bool :=
  bool_decide (ap_status r = AS_pending)
  && match ap_autoApproveAt r with Some t => str_leb t now | None => false end
  && is_null (ap_deletedAt r).

Definition ApprovalRepo_listPendingAutoApprove (now : string) : M X (list Approval) :=
  read (λ d, order_asc (λ r, ap_autoApproveAt r ?? "") (select (approval_due_text now) (db_approval d))).

Definition ApprovalRepo_listPendingHealthGated : M X (list Approval) :=
  read (λ d, order_asc ap_createdAt (select
    (λ r, bool_decide (ap_status r = AS_pending) && ap_requiresHealthGate r
          && is_null (ap_deletedAt r)) (db_approval d))).

Record ApprovalPatch := mkApprovalPatch {
  app_status : option ApprovalStatus;
  app_decidedBy : option (option string);
  app_decidedAt : option (option string);
  app_reason : option (option string);
  app_deployAttemptedAt : option (option string);
  app_deployOutcome : option (option string);
  app_deployDeploymentId : option (option string)
}.

(** The columns of the UPDATE; requires_health_gate is not one of them. *)
Definition approval_set (patch : ApprovalPatch) (e : Approval) (now : string) (r : Approval)
    : Approval :=
  mkApproval (ap_id r) (ap_orgId r) (ap_policyId r) (ap_releaseId r) (ap_destTargetId r)
    (app_status patch ?? ap_status e)
    (ap_autoApproveAt r)
    (app_decidedBy patch ?? ap_decidedBy e)
    (app_decidedAt patch ?? ap_decidedAt e)
    (app_reason patch ?? ap_reason e)
    (app_deployAttemptedAt patch ?? ap_deployAttemptedAt e)
    (app_deployOutcome patch ?? ap_deployOutcome e)
    (app_deployDeploymentId patch ?? ap_deployDeploymentId e)
    (ap_requiresHealthGate r) (ap_createdAt r) now (ap_deletedAt r).

(** The object handed back is mapped from a row without the
    requires_health_gate column, which [mapApproval] reads as false. *)
Definition without_health_gate (r : Approval) : Approval :=
  mkApproval (ap_id r) (ap_orgId r) (ap_policyId r) (ap_releaseId r) (ap_destTargetId r)
    (ap_status r) (ap_autoApproveAt r) (ap_decidedBy r) (ap_decidedAt r) (ap_reason r)
    (ap_deployAttemptedAt r) (ap_deployOutcome r) (ap_deployDeploymentId r)
    false (ap_createdAt r) (ap_updatedAt r) (ap_deletedAt r).

Definition ApprovalRepo_update (id : string) (patch : ApprovalPatch) : M X Approval :=
  existing ← ApprovalRepo_get id;
  match existing with
  | None => throw (EStorageNotFound "approval" id)
  | Some e =>
    now ← nowIso;
    db_update T_approval (λ r, ap_id r =?s ap_id e) (approval_set patch e now);;
    mret (without_health_gate (approval_set patch e now e))
  end.

Definition ApprovalRepo_softDelete (id : string) : M X unit :=
  now ← nowIso;
  changes ← db_update_raw T_approval (λ r, (ap_id r =?s id) && is_null (ap_deletedAt r))
    (λ r, mkApproval (ap_id r) (ap_orgId r) (ap_policyId r) (ap_releaseId r) (ap_destTargetId r)
            (ap_status r) (ap_autoApproveAt r) (ap_decidedBy r) (ap_decidedAt r) (ap_reason r)
            (ap_deployAttemptedAt r) (ap_deployOutcome r) (ap_deployDeploymentId r)
            (ap_requiresHealthGate r) (ap_createdAt r) now (Some now));
  if (changes =? 0)%nat then throw (EStorageNotFound "approval" id) else mret ().

(** ** Signing keys *)

Record SigningKeyInput := mkSigningKeyInput {
  ski_orgId : string;
  ski_provider : string;
  ski_keyId : string;
  ski_algorithm : KeyAlgorithm;
  ski_fingerprint : string;
  ski_publicKeyB64 : string;
  ski_pairId : option string;
  ski_pairRole : option PairRole;
  ski_hybridAlias : option string;
  ski_label : option string;
  ski_addedBy : string
}.

Definition SigningProviderKeyRepo_insert (input : SigningKeyInput) : M X SigningProviderKey :=
  now ← nowIso; id ← newId;
  let row := mkSigningProviderKey id (ski_orgId input) (ski_provider input) (ski_keyId input)
               (ski_algorithm input) (ski_fingerprint input) (ski_publicKeyB64 input)
               (ski_pairId input) (ski_pairRole input) (ski_hybridAlias input) (ski_label input)
               (ski_addedBy input) now None None None None now now None in
  try_catch (db_insert_raw T_signing_provider_key row) (λ err,
    let msg := err_message err in
    if str_includes msg "UNIQUE" || str_includes msg "unique" then
      throw (EStorageConflict ("signing key fingerprint " +:+ ski_fingerprint input
               +:+ " already registered for org " +:+ ski_orgId input))
    else throw err);;
  mret row.

Definition signing_key_live (orgId fingerprint : string) (r : SigningProviderKey) : bool :=
  (sk_orgId r =?s orgId) && (sk_fingerprint r =?s fingerprint) && is_null (sk_deletedAt r).

Definition SigningProviderKeyRepo_getByFingerprint (orgId fingerprint : string)
    : M X (option SigningProviderKey) :=
  read (λ d, find_first (signing_key_live orgId fingerprint) (db_signing_provider_key d)).

(** NULLs sort first, then the roles by their text. *)
Definition pair_role_rank (p : option PairRole) : Z :=
  match p with None => 0 | Some PR_classical => 1 | Some PR_post_quantum => 2 end.

Definition SigningProviderKeyRepo_getByAlias (orgId keyId : string)
    : M X (list SigningProviderKey) :=
  read (λ d, order_by
    (λ a b, (pair_role_rank (sk_pairRole a) <? pair_role_rank (sk_pairRole b))
            || ((pair_role_rank (sk_pairRole a) =? pair_role_rank (sk_pairRole b))
                && str_leb (sk_addedAt a) (sk_addedAt b)))
    (select (λ r, (sk_orgId r =?s orgId) && (sk_keyId r =?s keyId) && is_null (sk_deletedAt r))
      (db_signing_provider_key d))).

Definition SigningProviderKeyRepo_list (orgId : string) (provider : option string)
    (includeRevoked : option bool) : M X (list SigningProviderKey) :=
  read (λ d, order_desc sk_addedAt (select
    (λ r, (sk_orgId r =?s orgId) && is_null (sk_deletedAt r)
          && match truthy provider with Some p => sk_provider r =?s p | None => true end
          && ((includeRevoked ?? false) || is_null (sk_revokedAt r)))
    (db_signing_provider_key d))).

Definition SigningProviderKeyRepo_revoke (orgId fingerprint revokedBy reason : string) : M X unit :=
  now ← nowIso;
  db_update_raw T_signing_provider_key
    (λ r, signing_key_live orgId fingerprint r && is_null (sk_revokedAt r))
    (λ r, mkSigningProviderKey (sk_id r) (sk_orgId r) (sk_provider r) (sk_keyId r) (sk_algorithm r)
            (sk_fingerprint r) (sk_publicKeyB64 r) (sk_pairId r) (sk_pairRole r) (sk_hybridAlias r)
            (sk_label r) (sk_addedBy r) (sk_addedAt r) (Some now) (Some revokedBy) (Some reason)
            (sk_rotatedTo r) (sk_createdAt r) now (sk_deletedAt r));;
  mret ().

Definition SigningProviderKeyRepo_recordRotation (orgId oldFingerprint newFingerprint : string)
    : M X unit :=
  now ← nowIso;
  newRow ← read (λ d, find_first (signing_key_live orgId newFingerprint) (db_signing_provider_key d));
  match newRow with
  | None => throw (EStorageNotFound "signing_provider_key"
      ("new fingerprint " +:+ newFingerprint +:+ " not in catalog"))
  | Some nr =>
    db_update_raw T_signing_provider_key (signing_key_live orgId oldFingerprint)
      (λ r, mkSigningProviderKey (sk_id r) (sk_orgId r) (sk_provider r) (sk_keyId r)
              (sk_algorithm r) (sk_fingerprint r) (sk_publicKeyB64 r) (sk_pairId r) (sk_pairRole r)
              (sk_hybridAlias r) (sk_label r) (sk_addedBy r) (sk_addedAt r) (sk_revokedAt r)
              (sk_revokedBy r) (sk_revokeReason r) (Some (sk_id nr)) (sk_createdAt r) now
              (sk_deletedAt r));;
    mret ()
  end.

(** ** Signing nonces *)

Definition SigningNonceRepo_insert (input : SigningNonce) : M X unit :=
  try_catch (db_insert_raw T_signing_nonce input) (λ err,
    let msg := err_message err in
    if str_includes msg "UNIQUE" || str_includes msg "unique" || str_includes msg "PRIMARY" then
      throw (EStorageConflict ("signing nonce already used: org=" +:+ sn_orgId input
               +:+ " actor=" +:+ sn_actorCn input +:+ " nonce=" +:+ sn_nonce input))
    else throw err).

Definition SigningNonceRepo_exists (orgId actorCn nonce : string) : M X bool :=
  read (λ d, existsb
    (λ r, (sn_orgId r =?s orgId) && (sn_actorCn r =?s actorCn) && (sn_nonce r =?s nonce))
    (db_signing_nonce d)).

Definition SigningNonceRepo_sweepOlderThan (cutoffIso : string) : M X nat :=
  db_delete T_signing_nonce (λ r, str_ltb (sn_requestedAt r) cutoffIso).

(** ** Every write keeps the schema invariant *)

Lemma CloudBudgetRepo_upsert_ok o m s : preserves (on_db db_ok) (CloudBudgetRepo_upsert o m s).
Proof. unfold CloudBudgetRepo_upsert, CloudBudgetRepo_get. preserve. Qed.
Lemma CloudBudgetRepo_remove_ok o : preserves (on_db db_ok) (CloudBudgetRepo_remove o).
Proof. unfold CloudBudgetRepo_remove. preserve. Qed.
Lemma CloudUsageRepo_recordStart_ok o b i t r s e :
  preserves (on_db db_ok) (CloudUsageRepo_recordStart o b i t r s e).
Proof. unfold CloudUsageRepo_recordStart. preserve. Qed.
Lemma CloudUsageRepo_recordTerminate_ok o i t :
  preserves (on_db db_ok) (CloudUsageRepo_recordTerminate o i t).
Proof. unfold CloudUsageRepo_recordTerminate. preserve. Qed.
Lemma CloudCredentialsRepo_upsert_ok o b c e r :
  preserves (on_db db_ok) (CloudCredentialsRepo_upsert o b c e r).
Proof. unfold CloudCredentialsRepo_upsert, CloudCredentialsRepo_get. preserve. Qed.
Lemma CloudCredentialsRepo_remove_ok o b : preserves (on_db db_ok) (CloudCredentialsRepo_remove o b).
Proof. unfold CloudCredentialsRepo_remove. preserve. Qed.
Lemma HealthScheduleRepo_create_ok o t i p a :
  preserves (on_db db_ok) (HealthScheduleRepo_create o t i p a).
Proof. unfold HealthScheduleRepo_create. preserve. Qed.
Lemma HealthScheduleRepo_update_ok id p : preserves (on_db db_ok) (HealthScheduleRepo_update id p).
Proof. unfold HealthScheduleRepo_update, HealthScheduleRepo_get. preserve. Qed.
Lemma HealthScheduleRepo_softDelete_ok id : preserves (on_db db_ok) (HealthScheduleRepo_softDelete id).
Proof. unfold HealthScheduleRepo_softDelete. preserve. Qed.
Lemma WebhookSubscriptionRepo_create_ok o k u s e a d :
  preserves (on_db db_ok) (WebhookSubscriptionRepo_create o k u s e a d).
Proof. unfold WebhookSubscriptionRepo_create. preserve. Qed.
Lemma WebhookSubscriptionRepo_update_ok id p :
  preserves (on_db db_ok) (WebhookSubscriptionRepo_update id p).
Proof. unfold WebhookSubscriptionRepo_update, WebhookSubscriptionRepo_get. preserve. Qed.
Lemma WebhookSubscriptionRepo_softDelete_ok id :
  preserves (on_db db_ok) (WebhookSubscriptionRepo_softDelete id).
Proof. unfold WebhookSubscriptionRepo_softDelete. preserve. Qed.
Lemma PromotionPolicyRepo_create_ok o p s d g c a t :
  preserves (on_db db_ok) (PromotionPolicyRepo_create o p s d g c a t).
Proof. unfold PromotionPolicyRepo_create. preserve. Qed.
Lemma PromotionPolicyRepo_update_ok id p : preserves (on_db db_ok) (PromotionPolicyRepo_update id p).
Proof. unfold PromotionPolicyRepo_update, PromotionPolicyRepo_get. preserve. Qed.
Lemma PromotionPolicyRepo_softDelete_ok id : preserves (on_db db_ok) (PromotionPolicyRepo_softDelete id).
Proof. unfold PromotionPolicyRepo_softDelete. preserve. Qed.
Lemma ApprovalRepo_create_ok o p r d s a h : preserves (on_db db_ok) (ApprovalRepo_create o p r d s a h).
Proof. unfold ApprovalRepo_create. preserve. Qed.
Lemma ApprovalRepo_update_ok id p : preserves (on_db db_ok) (ApprovalRepo_update id p).
Proof. unfold ApprovalRepo_update, ApprovalRepo_get. preserve. Qed.
Lemma ApprovalRepo_softDelete_ok id : preserves (on_db db_ok) (ApprovalRepo_softDelete id).
Proof. unfold ApprovalRepo_softDelete. preserve. Qed.
Lemma SigningProviderKeyRepo_insert_ok i : preserves (on_db db_ok) (SigningProviderKeyRepo_insert i).
Proof. unfold SigningProviderKeyRepo_insert. preserve. Qed.
Lemma SigningProviderKeyRepo_revoke_ok o f r t :
  preserves (on_db db_ok) (SigningProviderKeyRepo_revoke o f r t).
Proof. unfold SigningProviderKeyRepo_revoke. preserve. Qed.
Lemma SigningProviderKeyRepo_recordRotation_ok o f n :
  preserves (on_db db_ok) (SigningProviderKeyRepo_recordRotation o f n).
Proof. unfold SigningProviderKeyRepo_recordRotation. preserve. Qed.
Lemma SigningNonceRepo_insert_ok i : preserves (on_db db_ok) (SigningNonceRepo_insert i).
Proof. unfold SigningNonceRepo_insert. preserve. Qed.
Lemma SigningNonceRepo_sweepOlderThan_ok c : preserves (on_db db_ok) (SigningNonceRepo_sweepOlderThan c).
Proof. unfold SigningNonceRepo_sweepOlderThan. preserve. Qed.
End repos.

#[export] Hint Resolve CloudBudgetRepo_upsert_ok CloudBudgetRepo_remove_ok
  CloudUsageRepo_recordStart_ok CloudUsageRepo_recordTerminate_ok CloudCredentialsRepo_upsert_ok
  CloudCredentialsRepo_remove_ok HealthScheduleRepo_create_ok HealthScheduleRepo_update_ok
  HealthScheduleRepo_softDelete_ok WebhookSubscriptionRepo_create_ok
  WebhookSubscriptionRepo_update_ok WebhookSubscriptionRepo_softDelete_ok
  PromotionPolicyRepo_create_ok PromotionPolicyRepo_update_ok PromotionPolicyRepo_softDelete_ok
  ApprovalRepo_create_ok ApprovalRepo_update_ok ApprovalRepo_softDelete_ok
  SigningProviderKeyRepo_insert_ok SigningProviderKeyRepo_revoke_ok
  SigningProviderKeyRepo_recordRotation_ok SigningNonceRepo_insert_ok
  SigningNonceRepo_sweepOlderThan_ok : preserve.
