(* ===== verification/Signing.v ===== *)
(** Signing: control-plane/signing (types.ts, audit.ts, providers/local-disk.ts)
    and the manifest signatures of control-plane/build/signing.ts.

    Bytes are strings of 8-bit characters.  Node's [crypto], the ML-DSA-65
    library and the file system the keys live on are the classes [Crypto] and
    [KeyFiles]. *)

From S2P Require Import Prelude JsTime JsVal Types World Logic Manifest StorageCatalog StorageOps.

(** ** Data *)

Inductive SigAlgorithm := Alg_ed25519 | Alg_ecdsa_p256 | Alg_ml_dsa_65.

#[export] Instance SigAlgorithm_eq_dec : EqDecision SigAlgorithm.
Proof. solve_decision. Defined.

Definition SigAlgorithm_text (a : SigAlgorithm) : string :=
  match a with
  | Alg_ed25519 => "ed25519"
  | Alg_ecdsa_p256 => "ecdsa-p256-sha256"
  | Alg_ml_dsa_65 => "ml-dsa-65"
  end.

Record PublicKeyRef := mkPublicKeyRef {
  pk_keyId : string;
  pk_provider : string;
  pk_algorithm : SigAlgorithm;
  pk_publicKeyB64 : string;
  pk_fingerprint : string
}.

Inductive ActorKind := AK_user | AK_machine | AK_service.

Definition ActorKind_text (k : ActorKind) : string :=
  match k with AK_user => "user" | AK_machine => "machine" | AK_service => "service" end.

Record ActorRef := mkActorRef { ar_kind : ActorKind; ar_cn : string; ar_orgId : string }.

Record SignRequest := mkSignRequest {
  sr_keyId : string;
  sr_payload : string;
  sr_nonce : string;
  sr_requestedAt : string;
  sr_purpose : string;
  sr_actor : ActorRef
}.

Record SigEntry := mkSigEntry {
  se_signatureB64 : string;
  se_signedBy : string;
  se_algorithm : SigAlgorithm;
  se_signedAt : string
}.

Record SignEnvelope := mkSignEnvelope {
  env_signatures : list SigEntry;
  env_nonce : string;
  env_payloadSha256 : string
}.

Record VerifyResult := mkVerifyResult {
  vr_ok : bool;
  vr_reasonCode : option string;
  vr_reason : option string
}.

Inductive VerifyMode := VM_transition | VM_strict | VM_classical_only.

#[export] Instance VerifyMode_eq_dec : EqDecision VerifyMode.
Proof. solve_decision. Defined.

Definition VerifyMode_text (m : VerifyMode) : string :=
  match m with
  | VM_transition => "transition" | VM_strict => "strict" | VM_classical_only => "classical-only"
  end.

Record SigningPolicyDefaults := mkSigningPolicyDefaults {
  sp_clockSkewToleranceMs : Z;
  sp_nonceLengthBytes : nat
}.

Definition DEFAULT_SIGNING_POLICY : SigningPolicyDefaults := mkSigningPolicyDefaults 60000 16.

Definition AlgorithmNotImplementedError (a : SigAlgorithm) : Err :=
  ESigning "algorithm-not-implemented"
    ("algorithm " +:+ json_quote (SigAlgorithm_text a)
     +:+ " is declared in the SigAlgorithm union but not yet implemented in this provider. Ed25519 + ECDSA P-256 ship in Milestone 1a; ml-dsa-65 + hybrid ship in Milestone 1b.").

(** ** The platform *)

Class Crypto (X : Type) := {
  (** crypto.KeyObject *)
  KeyObject : Type;
  createPrivateKey : string → Res KeyObject;
  createPublicKey : string → Res KeyObject;
  (** createPublicKey of a private key *)
  publicOf : KeyObject → KeyObject;
  (** createPublicKey of DER SubjectPublicKeyInfo *)
  createPublicKeyDer : string → Res KeyObject;
  (** export({type: "spki", format: "der"}) *)
  exportSpkiDer : KeyObject → string;
  asymmetricKeyType : KeyObject → option string;
  namedCurve : KeyObject → option string;
  (** crypto.sign and crypto.verify, with the digest's name or null *)
  crypto_sign : option string → string → KeyObject → X → Res string * X;
  crypto_verify : option string → string → KeyObject → string → Res bool;
  (** ml_dsa65.sign(message, secretKey), verify(signature, message, publicKey) *)
  ml_dsa65_sign : string → string → X → Res string * X;
  ml_dsa65_verify : string → string → string → Res bool;
  (** generateKeyPairSync("ed25519"): public and private PEM *)
  generateEd25519 : X → (string * string) * X;
  (** ml_dsa65.keygen(): secret and public bytes *)
  ml_dsa65_keygen : X → (string * string) * X;
  (** createHash("sha256").update(b).digest("hex") *)
  sha256_hex : string → string;
  (** randomBytes(n).toString("hex") *)
  randomHex : nat → X → string * X;
  (** Buffer.toString("base64") and Buffer.from(s, "base64") *)
  base64_encode : string → string;
  base64_decode : string → string
}.

Class KeyFiles (X : Type) := {
  fs_existsSync : string → X → bool;
  (** the bytes, or whether the file is missing and the error's message *)
  fs_readFileSync : string → X → (bool * string) + string;
  fs_writeFileSync : string → string → X → Res unit * X;
  fs_mkdirSync : string → X → Res unit * X;
  (** names with whether they are files, or whether the directory is missing *)
  fs_readdirSync : string → X → (bool * string) + list (string * bool);
  path_isAbsolute : string → bool;
  path_sep : string;
  path_join2 : string → string → string
}.

(** [s.slice(0, n)] and [s.slice(-n)], [s.endsWith(t)]. *)
Definition str_take (n : nat) (s : string) : string := String.substring 0 n s.
Definition str_drop (n : nat) (s : string) : string := String.substring n (String.length s - n) s.
Definition ends_with (t s : string) : bool :=
  (String.length t <=? String.length s)%nat
  && (str_drop (String.length s - String.length t) s =?s t).

(** White space that [trim] removes, among 8-bit characters. *)
Definition is_js_space (c : ascii) : bool :=
  let n := Ascii.nat_of_ascii c in
  ((9 <=? n) && (n <=? 13))%nat || (n =? 32)%nat || (n =? 160)%nat.

Fixpoint str_forall (p : ascii → bool) (s : string) : bool :=
  match s with EmptyString => true | String c s' => p c && str_forall p s' end.

Definition isHexChar (c : ascii) : bool :=
  let n := Ascii.nat_of_ascii c in
  (((48 <=? n) && (n <=? 57)) || ((97 <=? n) && (n <=? 102)) || ((65 <=? n) && (n <=? 70)))%nat.

Definition isHex (s : string) (expectedLengthChars : nat) : bool :=
  if negb (String.length s =? expectedLengthChars)%nat then false else str_forall isHexChar s.

Definition PROVIDER_ID : string := "local-disk".
Definition DEFAULT_ALIAS : string := "default".
Definition SUPPORTED_ALGORITHMS : list SigAlgorithm := [Alg_ed25519; Alg_ecdsa_p256; Alg_ml_dsa_65].
Definition MLDSA_MAGIC : string := "MLDA".
Definition MLDSA65_PUBLIC_KEY_BYTES : nat := 1952.
Definition MLDSA65_SECRET_KEY_BYTES : nat := 4032.

Definition supported (a : SigAlgorithm) : bool := existsb (λ b, bool_decide (b = a)) SUPPORTED_ALGORITHMS.

Definition isMldsa65File (bytes : string) : bool := starts_with MLDSA_MAGIC bytes.

Section local_disk.
Context {X : Type} `{Oracle} `{JsEngine} {C : Crypto X} {K : KeyFiles X}.

(** A result of the platform that depends on nothing. *)
Definition lift {A} (r : Res A) : M X A := λ w, (r, w).
Definition observe {A} (f : X → A) : M X A := λ w, (Ok (f (w_ext w)), w).

Definition fingerprintFromBytes (publicKeyBytes : string) : string :=
  str_take 16 (sha256_hex publicKeyBytes).

Definition inlineKeyIdFor (publicKeyBytes : string) : string := "inline:" +:+ sha256_hex publicKeyBytes.

Lemma preserves_lift {A} I (r : Res A) : preserves I (lift r).
Proof. by intros w Hw. Qed.
Lemma preserves_observe {A} I (f : X → A) : preserves I (observe f).
Proof. by intros w Hw. Qed.
#[local] Hint Resolve preserves_lift preserves_observe : preserve.

(** *** Keys *)

(** [crypto.KeyObject | Uint8Array]. *)
Inductive KeyMaterial := KM_object (k : KeyObject) | KM_bytes (b : string).

Record ResolvedSubKey := mkResolvedSubKey {
  rsk_algorithm : SigAlgorithm;
  rsk_privateKey : KeyMaterial;
  rsk_publicKey : KeyMaterial;
  rsk_fingerprint : string
}.

Record ResolvedKey := mkResolvedKey {
  rk_keyId : string;
  rk_alias : option string;
  rk_subKeys : list ResolvedSubKey
}.

Definition readBytesFromDisk (keyPath : string) : M X string :=
  r ← observe (fs_readFileSync keyPath);
  match r with
  | inr bytes => mret bytes
  | inl (enoent, msg) =>
    throw (ESigning "key-not-found"
      (if enoent : bool then "key file not found at " +:+ keyPath
       else "failed to read key file at " +:+ keyPath +:+ ": " +:+ msg))
  end.

(** [Buffer.toString("hex")]. *)
Fixpoint to_hex (bytes : string) : string :=
  match bytes with
  | EmptyString => ""
  | String c s => let n := Ascii.nat_of_ascii c in
      String (hex_char (n / 16)) (String (hex_char (n mod 16)) (to_hex s))
  end.

(** A raw ML-DSA-65 key after its magic header. *)
Definition readMldsa65 (what keyPath : string) (size : nat) : M X string :=
  bytes ← readBytesFromDisk keyPath;
  if negb (isMldsa65File bytes) then
    throw (ESigning "io-error" ("expected ML-DSA-65 magic header (MLDA) at " +:+ keyPath
      +:+ "; got " +:+ to_hex (str_take 4 bytes)))
  else
    let raw := str_drop (String.length MLDSA_MAGIC) bytes in
    if negb (String.length raw =? size)%nat then
      throw (ESigning "io-error" ("ML-DSA-65 " +:+ what +:+ " key at " +:+ keyPath +:+ " is "
        +:+ show_Z (Z.of_nat (String.length raw)) +:+ " bytes; expected " +:+ show_Z (Z.of_nat size)))
    else mret raw.

Definition readMldsa65Public (keyPath : string) : M X string :=
  readMldsa65 "public" keyPath MLDSA65_PUBLIC_KEY_BYTES.
Definition readMldsa65Secret (keyPath : string) : M X string :=
  readMldsa65 "secret" keyPath MLDSA65_SECRET_KEY_BYTES.

Definition loadClassicalPrivateKey (privKeyPath : string) : M X KeyObject :=
  pem ← readBytesFromDisk privKeyPath;
  try_catch (lift (createPrivateKey pem)) (λ err,
    throw (ESigning "io-error" ("failed to parse private key at " +:+ privKeyPath +:+ ": " +:+ err_message err))).

Definition loadClassicalPublicKey (pubKeyPath : string) : M X KeyObject :=
  pem ← readBytesFromDisk pubKeyPath;
  try_catch (lift (createPublicKey pem)) (λ err,
    throw (ESigning "io-error" ("failed to parse public key at " +:+ pubKeyPath +:+ ": " +:+ err_message err))).

Definition detectClassicalAlgorithm (keyObject : KeyObject) : M X SigAlgorithm :=
  let kind := asymmetricKeyType keyObject in
  if bool_decide (kind = Some "ed25519") then mret Alg_ed25519
  else if bool_decide (kind = Some "ec") then
    if bool_decide (namedCurve keyObject = Some "prime256v1")
       || bool_decide (namedCurve keyObject = Some "P-256") then mret Alg_ecdsa_p256
    else throw (ESigning "unknown-algorithm"
      ("EC key uses curve " +:+ (namedCurve keyObject ?? "unknown")
       +:+ "; only prime256v1 (P-256) is supported in v0.5.0"))
  else throw (ESigning "unknown-algorithm"
    ("key type " +:+ (kind ?? "unknown")
     +:+ " is not in the supported classical algorithm set (ed25519, ecdsa-p256-sha256)")).

(** *** Dispatch on the algorithm; a key of the wrong shape is a TypeError. *)

Definition bad_key : Err := EError "Invalid key object type".

Definition runSign (algorithm : SigAlgorithm) (privateKey : KeyMaterial) (payload : string) : M X string :=
  match algorithm, privateKey with
  | Alg_ed25519, KM_object k => external (crypto_sign None payload k)
  | Alg_ecdsa_p256, KM_object k => external (crypto_sign (Some "sha256") payload k)
  | Alg_ml_dsa_65, KM_bytes b => external (ml_dsa65_sign payload b)
  | _, _ => throw bad_key
  end.

Definition runVerify (algorithm : SigAlgorithm) (publicKey : KeyMaterial) (payload signatureBytes : string)
    : Res bool :=
  match algorithm, publicKey with
  | Alg_ed25519, KM_object k => crypto_verify None payload k signatureBytes
  | Alg_ecdsa_p256, KM_object k => crypto_verify (Some "sha256") payload k signatureBytes
  | Alg_ml_dsa_65, KM_bytes b => ml_dsa65_verify signatureBytes payload b
  | _, _ => Throw bad_key
  end.

(** *** Requests *)

Definition validateRequest (req : SignRequest) (policy : SigningPolicyDefaults) (now : Z) : M X unit :=
  if (String.length (sr_payload req) =? 0)%nat then
    throw (ESigning "payload-empty" "SignRequest.payload must be a non-empty Uint8Array")
  else if str_forall is_js_space (sr_purpose req) then
    throw (ESigning "purpose-empty" "SignRequest.purpose must be a non-empty string")
  else if (ar_cn (sr_actor req) =?s "") || (ar_orgId (sr_actor req) =?s "") then
    throw (ESigning "actor-missing"
      "SignRequest.actor must be populated with cn + orgId (Milestone 1a legacy callers may synthesize)")
  else if negb (isHex (sr_nonce req) (sp_nonceLengthBytes policy * 2)) then
    throw (ESigning "nonce-malformed"
      ("SignRequest.nonce must be " +:+ show_Z (Z.of_nat (sp_nonceLengthBytes policy * 2))
       +:+ " lowercase-hex chars; got " +:+ json_quote (sr_nonce req)))
  else match Date_parse legacy_date_parse (sr_requestedAt req) with
  | None => throw (ESigning "clock-skew"
      ("SignRequest.requestedAt is not a valid RFC 3339 timestamp: " +:+ json_quote (sr_requestedAt req)))
  | Some requestedAtMs =>
    let skewMs := Z.abs (now - requestedAtMs) in
    if sp_clockSkewToleranceMs policy <? skewMs then
      throw (ESigning "clock-skew"
        ("SignRequest.requestedAt skew is " +:+ show_Z skewMs +:+ "ms; policy allows up to "
         +:+ show_Z (sp_clockSkewToleranceMs policy) +:+ "ms"))
    else mret ()
  end.

(** *** The provider *)

(** [auditLog] and [nonceRepo] are the storage's, when they are wired. *)
Record LocalDiskProvider := mkLocalDiskProvider {
  ldp_keysDir : string;
  ldp_policy : SigningPolicyDefaults;
  ldp_inlineKey : option ResolvedKey;
  ldp_auditLog : bool;
  ldp_nonceRepo : bool;
  ldp_auditOrgId : option string
}.

Definition fromInlinePem (keysDir privateKeyPem : string) (publicKeyPem : option string)
    : M X LocalDiskProvider :=
  privateKey ← try_catch (lift (createPrivateKey privateKeyPem)) (λ err,
    throw (ESigning "io-error" ("inline private-key PEM did not parse: " +:+ err_message err)));
  publicKey ← match truthy publicKeyPem with
    | Some pem => lift (createPublicKey pem)
    | None => mret (publicOf privateKey) end;
  algorithm ← detectClassicalAlgorithm privateKey;
  let der := exportSpkiDer publicKey in
  mret (mkLocalDiskProvider keysDir DEFAULT_SIGNING_POLICY
    (Some (mkResolvedKey (inlineKeyIdFor der) None
       [mkResolvedSubKey algorithm (KM_object privateKey) (KM_object publicKey)
          (fingerprintFromBytes der)])) false false None).

Definition resolveAbsoluteClassical (absKeyPath : string) : M X ResolvedKey :=
  let pubKeyPath := if ends_with ".key" absKeyPath
    then str_take (String.length absKeyPath - 4) absKeyPath +:+ ".pub" else absKeyPath +:+ ".pub" in
  privateKey ← loadClassicalPrivateKey absKeyPath;
  publicKey ← loadClassicalPublicKey pubKeyPath;
  algorithm ← detectClassicalAlgorithm privateKey;
  mret (mkResolvedKey absKeyPath None
    [mkResolvedSubKey algorithm (KM_object privateKey) (KM_object publicKey)
       (fingerprintFromBytes (exportSpkiDer publicKey))]).

Definition show_bool (b : bool) : string := if b then "true" else "false".

Definition resolveByAlias (keysDir keyId aliasBase : string) : M X ResolvedKey :=
  let classicalKeyPath := path_join2 keysDir (aliasBase +:+ "-ed25519.key") in
  let classicalPubPath := path_join2 keysDir (aliasBase +:+ "-ed25519.pub") in
  let pqKeyPath := path_join2 keysDir (aliasBase +:+ "-mldsa65.key") in
  let pqPubPath := path_join2 keysDir (aliasBase +:+ "-mldsa65.pub") in
  hybridClassicalPresent ← observe (λ x, fs_existsSync classicalKeyPath x && fs_existsSync classicalPubPath x);
  hybridPqPresent ← observe (λ x, fs_existsSync pqKeyPath x && fs_existsSync pqPubPath x);
  if hybridClassicalPresent && hybridPqPresent then
    edPriv ← loadClassicalPrivateKey classicalKeyPath;
    edPub ← loadClassicalPublicKey classicalPubPath;
    edAlgorithm ← detectClassicalAlgorithm edPriv;
    if negb (bool_decide (edAlgorithm = Alg_ed25519)) then
      throw (ESigning "hybrid-pair-incomplete"
        ("hybrid classical half at " +:+ classicalKeyPath +:+ " is " +:+ SigAlgorithm_text edAlgorithm
         +:+ ", not ed25519"))
    else
    pqPriv ← readMldsa65Secret pqKeyPath;
    pqPub ← readMldsa65Public pqPubPath;
    mret (mkResolvedKey keyId (Some aliasBase)
      [mkResolvedSubKey Alg_ed25519 (KM_object edPriv) (KM_object edPub)
         (fingerprintFromBytes (exportSpkiDer edPub));
       mkResolvedSubKey Alg_ml_dsa_65 (KM_bytes pqPriv) (KM_bytes pqPub) (fingerprintFromBytes pqPub)])
  else if negb (bool_decide (hybridClassicalPresent = hybridPqPresent)) then
    throw (ESigning "hybrid-pair-incomplete"
      ("hybrid alias " +:+ json_quote aliasBase +:+ " is missing one half: classical="
       +:+ show_bool hybridClassicalPresent +:+ ", pq=" +:+ show_bool hybridPqPresent))
  else
    let flatKeyPath := path_join2 keysDir (aliasBase +:+ ".key") in
    let flatPubPath := path_join2 keysDir (aliasBase +:+ ".pub") in
    flat ← observe (λ x, fs_existsSync flatKeyPath x && fs_existsSync flatPubPath x);
    if negb flat then
      throw (ESigning "key-not-found"
        ("no key files found for alias " +:+ json_quote aliasBase +:+ " under " +:+ keysDir
         +:+ " (looked for hybrid pair and flat " +:+ aliasBase +:+ ".{pub,key})"))
    else
    headBytes ← readBytesFromDisk flatKeyPath;
    if isMldsa65File headBytes then
      pqPriv ← readMldsa65Secret flatKeyPath;
      pqPub ← readMldsa65Public flatPubPath;
      mret (mkResolvedKey keyId (Some aliasBase)
        [mkResolvedSubKey Alg_ml_dsa_65 (KM_bytes pqPriv) (KM_bytes pqPub) (fingerprintFromBytes pqPub)])
    else
      privateKey ← loadClassicalPrivateKey flatKeyPath;
      publicKey ← loadClassicalPublicKey flatPubPath;
      algorithm ← detectClassicalAlgorithm privateKey;
      mret (mkResolvedKey keyId (Some aliasBase)
        [mkResolvedSubKey algorithm (KM_object privateKey) (KM_object publicKey)
           (fingerprintFromBytes (exportSpkiDer publicKey))]).

Definition resolveForSign (p : LocalDiskProvider) (keyId : string) : M X ResolvedKey :=
  let from_disk :=
    if path_isAbsolute keyId then resolveAbsoluteClassical keyId
    else if str_includes keyId path_sep || str_includes keyId "/" || str_includes keyId ".." then
      throw (ESigning "key-not-found"
        ("keyId " +:+ json_quote keyId
         +:+ " contains path separators; only simple aliases or absolute paths are allowed"))
    else resolveByAlias (ldp_keysDir p) keyId (if keyId =?s DEFAULT_ALIAS then "signing" else keyId) in
  match ldp_inlineKey p with
  | Some k => if (keyId =?s rk_keyId k) || (keyId =?s "inline") then mret k else from_disk
  | None => from_disk
  end.

(** *** Generating a hybrid key *)

Record GenerateHybridKeyResult := mkGenerateHybridKeyResult {
  gh_alias : string;
  gh_classicalPubPath : string;
  gh_classicalKeyPath : string;
  gh_pqPubPath : string;
  gh_pqKeyPath : string;
  gh_classicalFingerprint : string;
  gh_pqFingerprint : string
}.

Definition writeMldsa65File (keyPath rawKey : string) : M X unit :=
  external (fs_writeFileSync keyPath (MLDSA_MAGIC +:+ rawKey)).

Definition generateHybridKey (p : LocalDiskProvider) (alias : string) : M X GenerateHybridKeyResult :=
  if (String.length alias =? 0)%nat || str_includes alias path_sep || str_includes alias "/"
     || str_includes alias ".." then
    throw (ESigning "internal-error"
      ("alias " +:+ json_quote alias +:+ " must be non-empty and contain no path separators"))
  else
  external (fs_mkdirSync (ldp_keysDir p));;
  pair ← external (λ x, let (kp, x') := generateEd25519 x in (Ok kp, x'));
  let '(edPubPem, edPrivPem) := pair : string * string in
  let classicalKeyPath := path_join2 (ldp_keysDir p) (alias +:+ "-ed25519.key") in
  let classicalPubPath := path_join2 (ldp_keysDir p) (alias +:+ "-ed25519.pub") in
  external (fs_writeFileSync classicalKeyPath edPrivPem);;
  external (fs_writeFileSync classicalPubPath edPubPem);;
  edPubKey ← lift (createPublicKey edPubPem);
  pq ← external (λ x, let (kp, x') := ml_dsa65_keygen x in (Ok kp, x'));
  let '(secretKey, publicKey) := pq : string * string in
  let pqKeyPath := path_join2 (ldp_keysDir p) (alias +:+ "-mldsa65.key") in
  let pqPubPath := path_join2 (ldp_keysDir p) (alias +:+ "-mldsa65.pub") in
  writeMldsa65File pqKeyPath secretKey;;
  writeMldsa65File pqPubPath publicKey;;
  mret (mkGenerateHybridKeyResult alias classicalPubPath classicalKeyPath pqPubPath pqKeyPath
          (fingerprintFromBytes (exportSpkiDer edPubKey)) (fingerprintFromBytes publicKey)).

(** *** Signing *)

Definition sign_entry (payload signedAt : string) (sk : ResolvedSubKey) : M X SigEntry :=
  if negb (supported (rsk_algorithm sk)) then throw (AlgorithmNotImplementedError (rsk_algorithm sk))
  else
  sigBytes ← runSign (rsk_algorithm sk) (rsk_privateKey sk) payload;
  mret (mkSigEntry (base64_encode sigBytes) (rsk_fingerprint sk) (rsk_algorithm sk) signedAt).

Definition signSync (p : LocalDiskProvider) (req : SignRequest) : M X SignEnvelope :=
  now ← nowDate;
  validateRequest req (ldp_policy p) now;;
  resolved ← resolveForSign p (sr_keyId req);
  if (length (rk_subKeys resolved) =? 0)%nat then
    throw (ESigning "internal-error" "ResolvedKey carries no sub-keys")
  else
  signedAt ← nowIso;
  entries ← for_collect (rk_subKeys resolved) (sign_entry (sr_payload req) signedAt);
  mret (mkSignEnvelope entries (sr_nonce req) (sha256_hex (sr_payload req))).

(** *** Audit rows *)

Definition actorString (actor : ActorRef) : string :=
  ActorKind_text (ar_kind actor) +:+ ":" +:+ ar_cn actor.

Definition writeRequestedRow (actor : ActorRef) (orgId : string) (request : SignRequest)
    (provider fingerprint payloadSha256 : string) : M X unit :=
  AuditLogRepo_append orgId (actorString actor) "signing.requested" "signing_key" fingerprint
    (Some [("provider", JStr provider); ("keyId", JStr (sr_keyId request));
           ("nonce", JStr (sr_nonce request)); ("requestedAt", JStr (sr_requestedAt request));
           ("purpose", JStr (sr_purpose request)); ("payloadSha256", JStr payloadSha256)]);; mret ().

(** The first classical entry, or else the first one. *)
Definition pickPrimaryFingerprint (entries : list SigEntry) : option string :=
  match find_first (λ e, negb (bool_decide (se_algorithm e = Alg_ml_dsa_65))) entries with
  | Some e => Some (se_signedBy e)
  | None => se_signedBy <$> head entries
  end.

Definition writeCompletedRow (actor : ActorRef) (orgId : string) (request : SignRequest)
    (envelope : SignEnvelope) (provider : string) : M X unit :=
  match pickPrimaryFingerprint (env_signatures envelope) with
  | None => throw (EError "Cannot read properties of undefined (reading 'signedBy')")
  | Some entityId =>
    AuditLogRepo_append orgId (actorString actor) "signing.completed" "signing_key" entityId
      (Some [("provider", JStr provider); ("keyId", JStr (sr_keyId request));
             ("nonce", JStr (env_nonce envelope));
             ("payloadSha256", JStr (env_payloadSha256 envelope));
             ("algorithms", JArr (map (λ s, JObj [("algorithm", JStr (SigAlgorithm_text (se_algorithm s)));
                ("signedBy", JStr (se_signedBy s)); ("signedAt", JStr (se_signedAt s))])
                (env_signatures envelope)))]);; mret ()
  end.

Definition writeFailedRow (actor : ActorRef) (orgId : string) (request : SignRequest)
    (provider : string) (fingerprint : option string) (errorCode errorMessage : string) : M X unit :=
  AuditLogRepo_append orgId (actorString actor) "signing.failed" "signing_key"
    (fingerprint ?? ("nonce:" +:+ sr_nonce request))
    (Some [("provider", JStr provider); ("keyId", JStr (sr_keyId request));
           ("nonce", JStr (sr_nonce request)); ("errorCode", JStr errorCode);
           ("errorMessage", JStr errorMessage)]);; mret ().

(** [err instanceof SigningError ? err.code : "internal-error"]. *)
Definition signing_code (e : Err) : string :=
  match e with ESigning code _ => code | _ => "internal-error" end.

Definition primary_fingerprint (subKeys : list ResolvedSubKey) : option string :=
  match find_first (λ sk, negb (bool_decide (rsk_algorithm sk = Alg_ml_dsa_65))) subKeys with
  | Some sk => Some (rsk_fingerprint sk)
  | None => rsk_fingerprint <$> head subKeys
  end.

(** Record a failure when the audit log is wired, then rethrow. *)
Definition fail_with_row {A} (p : LocalDiskProvider) (orgId : string) (req : SignRequest)
    (fingerprint : option string) (err : Err) : M X A :=
  (if ldp_auditLog p
   then writeFailedRow (sr_actor req) orgId req PROVIDER_ID fingerprint (signing_code err) (err_message err)
   else mret ());; throw err.

Definition signWithAudit (p : LocalDiskProvider) (req : SignRequest) : M X SignEnvelope :=
  let orgId := ldp_auditOrgId p ?? ar_orgId (sr_actor req) in
  resolved ← try_catch (resolveForSign p (sr_keyId req)) (fail_with_row p orgId req None);
  let fingerprint := primary_fingerprint (rk_subKeys resolved) ?? "unknown" in
  let payloadSha256 := sha256_hex (sr_payload req) in
  (if ldp_auditLog p
   then writeRequestedRow (sr_actor req) orgId req PROVIDER_ID fingerprint payloadSha256
   else mret ());;
  (if ldp_nonceRepo p then
     try_catch
       (SigningNonceRepo_insert
          (mkSigningNonce orgId (ar_cn (sr_actor req)) (sr_nonce req) (sr_requestedAt req)
             (Some fingerprint)))
       (λ _, fail_with_row p orgId req (Some fingerprint)
          (ESigning "nonce-replay" ("signing nonce " +:+ sr_nonce req
             +:+ " has already been used by actor " +:+ ar_cn (sr_actor req))))
   else mret ());;
  envelope ← try_catch (signSync p req) (fail_with_row p orgId req (Some fingerprint));
  (if ldp_auditLog p
   then writeCompletedRow (sr_actor req) orgId req envelope PROVIDER_ID else mret ());;
  mret envelope.

Definition sign (p : LocalDiskProvider) (req : SignRequest) : M X SignEnvelope :=
  if negb (ldp_auditLog p) && negb (ldp_nonceRepo p) then signSync p req else signWithAudit p req.

(** *** Verifying *)

Definition materializePublicKey (key : PublicKeyRef) : Res KeyMaterial :=
  match pk_algorithm key with
  | Alg_ml_dsa_65 => Ok (KM_bytes (base64_decode (pk_publicKeyB64 key)))
  | _ => match createPublicKeyDer (base64_decode (pk_publicKeyB64 key)) with
         | Ok k => Ok (KM_object k)
         | Throw e => Throw e
         end
  end.

Definition vr_fail (code reason : string) : VerifyResult := mkVerifyResult false (Some code) (Some reason).
Definition vr_pass : VerifyResult := mkVerifyResult true None None.

(** One entry: verified, failed with a code and a reason, or an exception. *)
Definition verify_entry (keys : list PublicKeyRef) (payload : string) (entry : SigEntry)
    : Res (option (string * string)) :=
  if negb (supported (se_algorithm entry)) then
    Ok (Some ("algorithm-not-implemented", err_message (AlgorithmNotImplementedError (se_algorithm entry))))
  else
  match find_first (λ k, bool_decide (pk_algorithm k = se_algorithm entry)
                         && (pk_fingerprint k =?s se_signedBy entry)) keys with
  | None => Ok (Some ("fingerprint-mismatch",
      "no PublicKeyRef matched entry (algorithm=" +:+ SigAlgorithm_text (se_algorithm entry)
      +:+ ", signedBy=" +:+ se_signedBy entry +:+ ")"))
  | Some key =>
    let sigBytes := base64_decode (se_signatureB64 entry) in
    match materializePublicKey key with
    | Throw e => Throw e
    | Ok publicKey =>
      match runVerify (se_algorithm entry) publicKey payload sigBytes with
      | Throw e => Throw e
      | Ok true => Ok None
      | Ok false => Ok (Some ("bad-signature",
          "signature is cryptographically invalid for " +:+ SigAlgorithm_text (se_algorithm entry)
          +:+ " entry"))
      end
    end
  end.

(** The loop: [strict] and [classical-only] stop at the first failure,
    [transition] remembers it. *)
Fixpoint verify_loop (mode : VerifyMode) (keys : list PublicKeyRef) (payload : string)
    (entries : list SigEntry) (anyVerified : bool) (firstFailure : option (string * string))
    : Res VerifyResult :=
  match entries with
  | [] =>
    Ok (if bool_decide (mode = VM_transition) then
          if anyVerified then vr_pass
          else vr_fail (from_option fst "bad-signature" firstFailure)
                 (from_option snd "no entry verified in transition mode" firstFailure)
        else vr_pass)
  | entry :: rest =>
    match verify_entry keys payload entry with
    | Throw e => Throw e
    | Ok None => verify_loop mode keys payload rest true firstFailure
    | Ok (Some (code, reason)) =>
      if bool_decide (mode = VM_transition)
      then verify_loop mode keys payload rest anyVerified (coalesce firstFailure (Some (code, reason)))
      else Ok (vr_fail code reason)
    end
  end.

Definition considered (mode : VerifyMode) (entries : list SigEntry) : list SigEntry :=
  if bool_decide (mode = VM_classical_only)
  then select (λ e, negb (bool_decide (se_algorithm e = Alg_ml_dsa_65))) entries else entries.

Definition verifySync (env : SignEnvelope) (payload : string) (keys : list PublicKeyRef)
    (mode : VerifyMode) : Res VerifyResult :=
  if (length (env_signatures env) =? 0)%nat then
    Ok (vr_fail "bad-signature" "SignEnvelope.signatures is empty")
  else if (length keys =? 0)%nat then
    Ok (vr_fail "fingerprint-mismatch" "verify() requires at least one PublicKeyRef")
  else if negb (sha256_hex payload =?s env_payloadSha256 env) then
    Ok (vr_fail "bad-signature" ("payloadSha256 mismatch — envelope claims "
      +:+ env_payloadSha256 env +:+ ", computed " +:+ sha256_hex payload))
  else
  let consideredEntries := considered mode (env_signatures env) in
  if (length consideredEntries =? 0)%nat then
    Ok (vr_fail "bad-signature" ("no signatures matched verifier mode "
      +:+ json_quote (VerifyMode_text mode) +:+ " (envelope is PQ-only?)"))
  else verify_loop mode keys payload consideredEntries false None.

Definition publicKeyRefForSubKey (keyId : string) (sk : ResolvedSubKey) : PublicKeyRef :=
  mkPublicKeyRef keyId PROVIDER_ID (rsk_algorithm sk)
    (base64_encode match rsk_publicKey sk with KM_bytes b => b | KM_object k => exportSpkiDer k end)
    (rsk_fingerprint sk).

(** *** Looking keys up *)

Definition provider_fingerprint (p : LocalDiskProvider) (keyId : string) : M X string :=
  match ldp_inlineKey p with
  | Some k =>
    if (keyId =?s rk_keyId k) || (keyId =?s "inline") then
      match rk_subKeys k with
      | sk :: _ => mret (rsk_fingerprint sk)
      | [] => throw (EError "Cannot read properties of undefined (reading 'fingerprint')")
      end
    else
      resolved ← resolveForSign p keyId;
      match primary_fingerprint (rk_subKeys resolved) with
      | Some f => mret f
      | None => throw (EError "Cannot read properties of undefined (reading 'fingerprint')")
      end
  | None =>
    resolved ← resolveForSign p keyId;
    match primary_fingerprint (rk_subKeys resolved) with
    | Some f => mret f
    | None => throw (EError "Cannot read properties of undefined (reading 'fingerprint')")
    end
  end.

(** The operator-facing name in a [.pub] file's name; the algorithm in its
    suffix is not used by the callers. *)
Definition aliasFromPubFilename (filename : string) : string :=
  let base := str_take (String.length filename - 4) filename in
  if base =?s "signing" then DEFAULT_ALIAS
  else if ends_with "-ed25519" base then str_take (String.length base - 8) base
  else if ends_with "-mldsa65" base then str_take (String.length base - 8) base
  else base.

(** One directory entry: a reference, or nothing when it is no usable key. *)
Definition list_key (p : LocalDiskProvider) (ent : string * bool) : M X (option PublicKeyRef) :=
  if negb ent.2 || negb (ends_with ".pub" ent.1) then mret None else
  try_catch
    (bytes ← readBytesFromDisk (path_join2 (ldp_keysDir p) ent.1);
     if isMldsa65File bytes then
       let raw := str_drop (String.length MLDSA_MAGIC) bytes in
       if negb (String.length raw =? MLDSA65_PUBLIC_KEY_BYTES)%nat then mret None
       else mret (Some (mkPublicKeyRef (aliasFromPubFilename ent.1) PROVIDER_ID Alg_ml_dsa_65
                          (base64_encode raw) (fingerprintFromBytes raw)))
     else
       pub ← lift (createPublicKey bytes);
       algorithm ← detectClassicalAlgorithm pub;
       let der := exportSpkiDer pub in
       mret (Some (mkPublicKeyRef (aliasFromPubFilename ent.1) PROVIDER_ID algorithm
                     (base64_encode der) (fingerprintFromBytes der))))
    (λ _, mret None).

Definition listKeys (p : LocalDiskProvider) : M X (list PublicKeyRef) :=
  match ldp_inlineKey p with
  | Some k => mret (map (publicKeyRefForSubKey (rk_keyId k)) (rk_subKeys k))
  | None =>
    entries ← observe (fs_readdirSync (ldp_keysDir p));
    match entries with
    | inl (enoent, msg) =>
      if enoent : bool then mret []
      else throw (ESigning "io-error" ("failed to enumerate keys directory " +:+ ldp_keysDir p +:+ ": " +:+ msg))
    | inr entries =>
      refs ← for_collect entries (list_key p);
      mret (omap id refs)
    end
  end.

Definition publicKeyRefFromMldsa65 (publicKeyBytes : string) : M X PublicKeyRef :=
  if negb (String.length publicKeyBytes =? MLDSA65_PUBLIC_KEY_BYTES)%nat then
    throw (ESigning "io-error" ("ML-DSA-65 public key must be " +:+ show_Z (Z.of_nat MLDSA65_PUBLIC_KEY_BYTES)
      +:+ " bytes; got " +:+ show_Z (Z.of_nat (String.length publicKeyBytes))))
  else mret (mkPublicKeyRef ("inline:" +:+ sha256_hex publicKeyBytes) PROVIDER_ID Alg_ml_dsa_65
               (base64_encode publicKeyBytes) (fingerprintFromBytes publicKeyBytes)).

Definition publicKeyRefFromPem (publicKeyPem : string) : M X PublicKeyRef :=
  pub ← lift (createPublicKey publicKeyPem);
  algorithm ← detectClassicalAlgorithm pub;
  let der := exportSpkiDer pub in
  mret (mkPublicKeyRef ("inline:" +:+ sha256_hex der) PROVIDER_ID algorithm
          (base64_encode der) (fingerprintFromBytes der)).

Definition freshNonce : M X string :=
  external (λ x, let (n, x') := randomHex (sp_nonceLengthBytes DEFAULT_SIGNING_POLICY) x in (Ok n, x')).

(** ** Manifest signatures *)

Record SignedManifest := mkSignedManifest { sm_signatureB64 : string; sm_signedBy : string }.

Definition fingerprintPublicKey (publicKeyPem : string) : M X string :=
  keyObject ← lift (createPublicKey publicKeyPem);
  mret (str_take 16 (sha256_hex (exportSpkiDer keyObject))).

Definition canonicalManifestBytes (manifest : ReleaseManifest) : string :=
  canonicalize (manifest_json manifest).

Definition LEGACY_ACTOR : ActorRef := mkActorRef AK_service "legacy-build-signing" "default".

Definition key_type_text (k : KeyObject) : string := asymmetricKeyType k ?? "undefined".

Definition signManifest (keysDir : string) (manifest : ReleaseManifest) (privateKeyPem : string)
    : M X SignedManifest :=
  keyObject ← lift (createPrivateKey privateKeyPem);
  if negb (bool_decide (asymmetricKeyType keyObject = Some "ed25519")) then
    throw (EError ("signing key must be Ed25519, got " +:+ key_type_text keyObject))
  else
  let bytes := canonicalManifestBytes manifest in
  provider ← fromInlinePem keysDir privateKeyPem None;
  nonce ← freshNonce;
  requestedAt ← nowIso;
  envelope ← signSync provider
    (mkSignRequest "inline" bytes nonce requestedAt "release.manifest.legacy" LEGACY_ACTOR);
  match env_signatures envelope with
  | [] => throw (EError "LocalDiskProvider.signSync returned an empty envelope")
  | entry :: _ => mret (mkSignedManifest (se_signatureB64 entry) (se_signedBy entry))
  end.

Definition verifyManifest (manifest : ReleaseManifest)
    (signatureB64 signedByFingerprint publicKeyPem : string) : M X bool :=
  keyObject ← lift (createPublicKey publicKeyPem);
  if negb (bool_decide (asymmetricKeyType keyObject = Some "ed25519")) then
    throw (ESignatureVerification ("public key must be Ed25519, got " +:+ key_type_text keyObject))
  else
  fp ← fingerprintPublicKey publicKeyPem;
  if negb (fp =?s signedByFingerprint) then
    throw (ESignatureVerification ("public-key fingerprint mismatch: release signed by "
      +:+ signedByFingerprint +:+ ", you provided " +:+ fp))
  else
  let bytes := canonicalManifestBytes manifest in
  publicKeyRef ← publicKeyRefFromPem publicKeyPem;
  let envelope := mkSignEnvelope [mkSigEntry signatureB64 signedByFingerprint Alg_ed25519 (toISOString 0)]
                    "00000000000000000000000000000000" (sha256_hex bytes) in
  result ← lift (verifySync envelope bytes [publicKeyRef] VM_strict);
  if negb (vr_ok result) then
    throw (ESignatureVerification "signature is cryptographically invalid (manifest tampered or wrong key)")
  else mret true.

(** ** Frames: resolving a key only looks, signing touches no table *)

Lemma resolveForSign_frame I p keyId : preserves I (resolveForSign p keyId).
Proof.
  unfold resolveForSign, resolveByAlias, resolveAbsoluteClassical, readMldsa65Secret, readMldsa65Public,
    readMldsa65, loadClassicalPrivateKey, loadClassicalPublicKey, readBytesFromDisk,
    detectClassicalAlgorithm. preserve.
Qed.

Lemma validateRequest_frame I req policy now : preserves I (validateRequest req policy now).
Proof. unfold validateRequest. preserve. Qed.

Lemma signSync_frame I p req : preserves (on_db I) (signSync p req).
Proof.
  pose proof resolveForSign_frame.
  unfold signSync, validateRequest, sign_entry, runSign. preserve.
Qed.

Lemma signManifest_frame I keysDir manifest pem : preserves (on_db I) (signManifest keysDir manifest pem).
Proof.
  pose proof signSync_frame. unfold signManifest, fromInlinePem, freshNonce, detectClassicalAlgorithm.
  preserve.
Qed.

Lemma verifyManifest_frame I manifest s f pem : preserves I (verifyManifest manifest s f pem).
Proof.
  unfold verifyManifest, fingerprintPublicKey, publicKeyRefFromPem, detectClassicalAlgorithm. preserve.
Qed.
End local_disk.

#[export] Hint Resolve preserves_lift preserves_observe resolveForSign_frame signSync_frame
  signManifest_frame verifyManifest_frame : preserve.
