(* ===== verification/BuildYaml.v ===== *)
(** control-plane/build/yaml.ts: the schema of signalman.build.yaml and the
    substitution of build variables.

    The schema is a decoder from JSON values.  Zod is a third-party library:
    its URL test and its list of issues are the class [Zod]. *)

From S2P Require Import Prelude JsVal World.

Class Zod := {
  zod_url : string → bool;
  (** The issues of a rejected document: path and message. *)
  zod_issues : json → list (list string * string)
}.

(** ** Data *)

Record BuildStep := mkBuildStep {
  bs_cwd : option string;
  bs_command : string;
  bs_args : option (list string);
  bs_env : option (list (string * string))
}.

Inductive BuildArtifact :=
| BlobArtifact (path : string) (produce : option string)
| ImageRefArtifact (ref : string).

Record BuildComponent := mkBuildComponent {
  bcm_name : string;
  bcm_build : BuildStep;
  bcm_artifacts : list BuildArtifact
}.

Record BuildVerification := mkBuildVerification {
  bv_smoke : option (list string);
  bv_torture : option (list string);
  bv_e2e : option (list string)
}.

Record CommandProbe := mkCommandProbe {
  cp_name : string;
  cp_command : string;
  cp_args : option (list string);
  cp_expect_exit : option jsnum;
  cp_expect_stdout_contains : option string;
  cp_expect_stderr_contains : option string;
  cp_timeout_ms : option jsnum
}.

Record HttpInGuestProbe := mkHttpInGuestProbe {
  hp_name : string;
  hp_url : string;
  hp_expect_status : option jsnum;
  hp_expect_body_contains : option string;
  hp_timeout_ms : option jsnum
}.

Record FileInGuestProbe := mkFileInGuestProbe {
  fp_name : string;
  fp_path : string
}.

Inductive Probe :=
| PCommand (p : CommandProbe)
| PHttpInGuest (p : HttpInGuestProbe)
| PFileInGuest (p : FileInGuestProbe).

Definition probe_name (p : Probe) : string :=
  match p with
  | PCommand p => cp_name p
  | PHttpInGuest p => hp_name p
  | PFileInGuest p => fp_name p
  end.

Record BuildYaml := mkBuildYaml {
  by_components : list BuildComponent;
  by_verification : option BuildVerification;
  by_probes : option (list Probe)
}.

(** ** Decoders *)

Definition decoder (A : Type) : Type := json → option A.

Definition dec_string : decoder string := λ v, match v with JStr s => Some s | _ => None end.

Definition dec_check {A} (p : A → bool) (d : decoder A) : decoder A := λ v,
  match d v with Some a => if p a then Some a else None | None => None end.

Definition non_empty (s : string) : bool := negb (s =?s "").

Fixpoint dec_list {A} (d : decoder A) (l : list json) : option (list A) :=
  match l with
  | [] => Some []
  | v :: l' =>
    match d v, dec_list d l' with Some a, Some r => Some (a :: r) | _, _ => None end
  end.

Definition dec_array {A} (d : decoder A) : decoder (list A) := λ v,
  match v with JArr l => dec_list d l | _ => None end.

Definition dec_int : decoder jsnum := λ v,
  match v with JNum n => if num_isInteger n then Some n else None | _ => None end.

Definition num_positive (n : jsnum) : bool := SFltb (S754_zero false) n.

(** [z.record(z.string(), z.string())]. *)
Fixpoint dec_entries (l : json_object) : option (list (string * string)) :=
  match l with
  | [] => Some []
  | (k, JStr s) :: l' => match dec_entries l' with Some r => Some ((k, s) :: r) | None => None end
  | _ => None
  end.

Definition dec_record : decoder (list (string * string)) := λ v,
  match v with JObj o => dec_entries o | _ => None end.

(** [z.object({...}).strict()]: no key but the declared ones. *)
Definition strict (keys : list string) (o : json_object) : bool :=
  forallb (λ kv : string * json, existsb (λ k, k =?s kv.1) keys) o.

Definition req {A} (k : string) (d : decoder A) (o : json_object) : option A :=
  match get_prop k o with Some v => d v | None => None end.

Definition opt {A} (k : string) (d : decoder A) (o : json_object) : option (option A) :=
  match get_prop k o with
  | Some v => match d v with Some a => Some (Some a) | None => None end
  | None => Some None
  end.

(** ** Character classes of the name patterns *)

Definition is_lower (c : ascii) : bool :=
  let n := Ascii.nat_of_ascii c in (97 <=? n)%nat && (n <=? 122)%nat.
Definition is_upper (c : ascii) : bool :=
  let n := Ascii.nat_of_ascii c in (65 <=? n)%nat && (n <=? 90)%nat.
Definition is_digit (c : ascii) : bool :=
  let n := Ascii.nat_of_ascii c in (48 <=? n)%nat && (n <=? 57)%nat.
Definition is_underscore (c : ascii) : bool := bool_decide (c = "_"%char).
Definition is_dash (c : ascii) : bool := bool_decide (c = "-"%char).

Fixpoint all_chars (p : ascii → bool) (s : string) : bool :=
  match s with EmptyString => true | String c s' => p c && all_chars p s' end.

(** [/^[first][rest]*$/]. *)
Definition matches_name (first rest : ascii → bool) (s : string) : bool :=
  match s with EmptyString => false | String c s' => first c && all_chars rest s' end.

Definition component_name_ok (s : string) : bool :=
  matches_name is_lower (λ c, is_lower c || is_digit c || is_underscore c || is_dash c) s.

Definition probe_name_ok (s : string) : bool :=
  matches_name is_lower (λ c, is_lower c || is_digit c || is_underscore c) s.

(** ** The schema *)

Definition ComponentNameSchema : decoder string :=
  dec_check component_name_ok (dec_check non_empty dec_string).

Definition BuildStepSchema : decoder BuildStep := λ v,
  match v with
  | JObj o =>
    if strict ["cwd"; "command"; "args"; "env"] o then
      cwd ← opt "cwd" dec_string o;
      command ← req "command" (dec_check non_empty dec_string) o;
      args ← opt "args" (dec_array dec_string) o;
      env ← opt "env" dec_record o;
      Some (mkBuildStep cwd command args env)
    else None
  | _ => None
  end.

Definition BlobArtifactSchema (o : json_object) : option BuildArtifact :=
  if strict ["kind"; "path"; "produce"] o then
    path ← req "path" (dec_check non_empty dec_string) o;
    produce ← opt "produce" dec_string o;
    Some (BlobArtifact path produce)
  else None.

Definition ImageRefArtifactSchema (o : json_object) : option BuildArtifact :=
  if strict ["kind"; "ref"] o then
    ref ← req "ref" (dec_check non_empty dec_string) o;
    Some (ImageRefArtifact ref)
  else None.

(** [z.discriminatedUnion("kind", ...)]. *)
Definition by_kind {A} (cases : list (string * (json_object → option A))) : decoder A := λ v,
  match v with
  | JObj o =>
    match get_prop "kind" o with
    | Some (JStr k) =>
      match find_first (λ c, c.1 =?s k) cases with Some c => c.2 o | None => None end
    | _ => None
    end
  | _ => None
  end.

Definition ArtifactSchema : decoder BuildArtifact :=
  by_kind [("blob", BlobArtifactSchema); ("image_ref", ImageRefArtifactSchema)].

Definition some_items {A} (l : list A) : bool := match l with [] => false | _ => true end.

Definition ComponentSchema : decoder BuildComponent := λ v,
  match v with
  | JObj o =>
    if strict ["name"; "build"; "artifacts"] o then
      name ← req "name" ComponentNameSchema o;
      build ← req "build" BuildStepSchema o;
      artifacts ← req "artifacts" (dec_check some_items (dec_array ArtifactSchema)) o;
      Some (mkBuildComponent name build artifacts)
    else None
  | _ => None
  end.

Definition VerificationSchema : decoder BuildVerification := λ v,
  match v with
  | JObj o =>
    if strict ["smoke"; "torture"; "e2e"] o then
      smoke ← opt "smoke" (dec_array dec_string) o;
      torture ← opt "torture" (dec_array dec_string) o;
      e2e ← opt "e2e" (dec_array dec_string) o;
      Some (mkBuildVerification smoke torture e2e)
    else None
  | _ => None
  end.

Definition ProbeNameSchema : decoder string :=
  dec_check probe_name_ok (dec_check non_empty dec_string).

Definition TimeoutSchema : decoder jsnum := dec_check num_positive dec_int.

Definition CommandProbeSchema (o : json_object) : option Probe :=
  if strict ["kind"; "name"; "command"; "args"; "expect_exit"; "expect_stdout_contains";
             "expect_stderr_contains"; "timeout_ms"] o then
    name ← req "name" ProbeNameSchema o;
    command ← req "command" (dec_check non_empty dec_string) o;
    args ← opt "args" (dec_array dec_string) o;
    expect_exit ← opt "expect_exit" dec_int o;
    out_ ← opt "expect_stdout_contains" dec_string o;
    err_ ← opt "expect_stderr_contains" dec_string o;
    timeout_ms ← opt "timeout_ms" TimeoutSchema o;
    Some (PCommand (mkCommandProbe name command args expect_exit out_ err_ timeout_ms))
  else None.

Definition HttpInGuestProbeSchema `{Zod} (o : json_object) : option Probe :=
  if strict ["kind"; "name"; "url"; "expect_status"; "expect_body_contains"; "timeout_ms"] o then
    name ← req "name" ProbeNameSchema o;
    url ← req "url" (dec_check zod_url dec_string) o;
    expect_status ← opt "expect_status" dec_int o;
    body ← opt "expect_body_contains" dec_string o;
    timeout_ms ← opt "timeout_ms" TimeoutSchema o;
    Some (PHttpInGuest (mkHttpInGuestProbe name url expect_status body timeout_ms))
  else None.

Definition FileInGuestProbeSchema (o : json_object) : option Probe :=
  if strict ["kind"; "name"; "path"] o then
    name ← req "name" ProbeNameSchema o;
    path ← req "path" (dec_check non_empty dec_string) o;
    Some (PFileInGuest (mkFileInGuestProbe name path))
  else None.

Definition ProbeSchema `{Zod} : decoder Probe :=
  by_kind [("command", CommandProbeSchema); ("http_in_guest", HttpInGuestProbeSchema);
           ("file_in_guest", FileInGuestProbeSchema)].

(** The loops of [superRefine]: no name twice. *)
Fixpoint no_duplicates (seen names : list string) : bool :=
  match names with
  | [] => true
  | n :: names' => negb (existsb (λ s, s =?s n) seen) && no_duplicates (n :: seen) names'
  end.

Definition is_one : decoder unit := λ v,
  match v with JNum n => if SFeqb n (num_of_Z 1) then Some () else None | _ => None end.

Definition BuildYamlSchema `{Zod} : decoder BuildYaml := λ v,
  match v with
  | JObj o =>
    if strict ["schema_version"; "components"; "verification"; "probes"] o then
      _ ← req "schema_version" is_one o;
      components ← req "components" (dec_check some_items (dec_array ComponentSchema)) o;
      verification ← opt "verification" VerificationSchema o;
      probes ← opt "probes" (dec_array ProbeSchema) o;
      if no_duplicates [] (map bcm_name components)
         && no_duplicates [] (map probe_name (probes ?? []))
      then Some (mkBuildYaml components verification probes)
      else None
    else None
  | _ => None
  end.

Definition issue_line (i : list string * string) : string :=
  (match i.1 with [] => "<root>" | path => join "." path end) +:+ ": " +:+ i.2.

Definition validateBuildYaml `{Zod} (raw : json) : string + BuildYaml :=
  match BuildYamlSchema raw with
  | Some y => inr y
  | None => inl ("signalman.build.yaml is invalid:" +:+ newline +:+ "  "
               +:+ join (newline +:+ "  ") (map issue_line (zod_issues raw)))
  end.

(** ** Variable substitution *)

Definition BuildVariables : Type := list (string * string).

Definition var_first (c : ascii) : bool := is_upper c || is_underscore c.
Definition var_rest (c : ascii) : bool := is_upper c || is_digit c || is_underscore c.

(** The longest prefix of characters of a class, and what follows. *)
Fixpoint span (p : ascii → bool) (s : string) : string * string :=
  match s with
  | EmptyString => ("", "")
  | String c s' => if p c then let (a, b) := span p s' in (String c a, b) else ("", s)
  end.

(** VAR_RE at the start of a text: the variable and what follows the match. *)
Definition match_var (s : string) : option (string * string) :=
  match s with
  | String "$" (String "{" (String c s')) =>
    if var_first c then
      let (rest, tail) := span var_rest s' in
      match tail with
      | String "}" tail' => Some (String c rest, tail')
      | _ => None
      end
    else None
  | _ => None
  end.

Inductive segment := Lit (c : ascii) | Var (name : string).

(** The text cut at the matches of VAR_RE, from left to right. *)
Fixpoint segments (fuel : nat) (s : string) : list segment :=
  match fuel with
  | O => []
  | S fuel' =>
    match s with
    | EmptyString => []
    | String c s' =>
      match match_var s with
      | Some (name, tail) => Var name :: segments fuel' tail
      | None => Lit c :: segments fuel' s'
      end
    end
  end.

Definition lookup_var (vars : BuildVariables) (name : string) : option string :=
  option_map snd (find_first (λ kv, kv.1 =?s name) vars).

(** UnknownBuildVariableError, with the name and the place. *)
Definition unknown_variable (name where_ : string) : string :=
  "unknown build variable ${" +:+ name +:+ "} referenced in " +:+ where_.

Fixpoint expand (vars : BuildVariables) (where_ : string) (l : list segment) : string + string :=
  match l with
  | [] => inr ""
  | Lit c :: l' => match expand vars where_ l' with inr r => inr (String c r) | e => e end
  | Var n :: l' =>
    match lookup_var vars n with
    | None => inl (unknown_variable n where_)
    | Some v => match expand vars where_ l' with inr r => inr (v +:+ r) | e => e end
    end
  end.

Definition substituteVariables (s : string) (vars : BuildVariables) (where_ : string)
    : string + string :=
  expand vars where_ (segments (String.length s) s).

(** [items.map((a, i) => f(a, i))], where [f] may throw. *)
Fixpoint map_indexed {A B} (f : A → nat → string + B) (i : nat) (l : list A) : string + list B :=
  match l with
  | [] => inr []
  | a :: l' =>
    match f a i with
    | inl e => inl e
    | inr b => match map_indexed f (S i) l' with inl e => inl e | inr r => inr (b :: r) end
    end
  end.

Definition place (name field : string) (i : nat) (suffix : string) : string :=
  name +:+ field +:+ "[" +:+ show_Z (Z.of_nat i) +:+ "]" +:+ suffix.

Definition substitute_artifact (name : string) (vars : BuildVariables) (a : BuildArtifact) (i : nat)
    : string + BuildArtifact :=
  match a with
  | BlobArtifact path produce =>
    match substituteVariables path vars (place name ".artifacts" i ".path") with
    | inl e => inl e
    | inr path' =>
      match produce with
      | Some p =>
        if non_empty p then
          match substituteVariables p vars (place name ".artifacts" i ".produce") with
          | inl e => inl e
          | inr p' => inr (BlobArtifact path' (Some p'))
          end
        else inr (BlobArtifact path' None)
      | None => inr (BlobArtifact path' None)
      end
    end
  | ImageRefArtifact ref =>
    match substituteVariables ref vars (place name ".artifacts" i ".ref") with
    | inl e => inl e
    | inr r => inr (ImageRefArtifact r)
    end
  end.

Definition substituteComponent (component : BuildComponent) (vars : BuildVariables)
    : string + BuildComponent :=
  let name := bcm_name component in
  let build := bcm_build component in
  let subbedArgs :=
    match bs_args build with
    | Some args =>
      match map_indexed (λ a i, substituteVariables a vars (place name ".build.args" i "")) 0 args with
      | inl e => inl e
      | inr l => inr (Some l)
      end
    | None => inr None
    end in
  match subbedArgs with
  | inl e => inl e
  | inr args =>
    match map_indexed (substitute_artifact name vars) 0 (bcm_artifacts component) with
    | inl e => inl e
    | inr artifacts =>
      inr (mkBuildComponent name
             (mkBuildStep (bs_cwd build) (bs_command build) args (bs_env build)) artifacts)
    end
  end.

(** ** A parsed document as the object it is: keys in the schema's order *)

Definition opt_enc {A} (k : string) (e : A → json) (o : option A) : json_object :=
  opt_prop k (option_map e o).

Definition enc_strings (l : list string) : json := JArr (map JStr l).
Definition enc_record (l : list (string * string)) : json := JObj (map (λ kv, (kv.1, JStr kv.2)) l).

Definition enc_step (b : BuildStep) : json :=
  JObj (opt_enc "cwd" JStr (bs_cwd b) ++ [("command", JStr (bs_command b))]
        ++ opt_enc "args" enc_strings (bs_args b) ++ opt_enc "env" enc_record (bs_env b)).

Definition enc_artifact (a : BuildArtifact) : json :=
  match a with
  | BlobArtifact path produce =>
    JObj ([("kind", JStr "blob"); ("path", JStr path)] ++ opt_enc "produce" JStr produce)
  | ImageRefArtifact ref => JObj [("kind", JStr "image_ref"); ("ref", JStr ref)]
  end.

Definition enc_component (c : BuildComponent) : json :=
  JObj [("name", JStr (bcm_name c)); ("build", enc_step (bcm_build c));
        ("artifacts", JArr (map enc_artifact (bcm_artifacts c)))].

Definition enc_verification (v : BuildVerification) : json :=
  JObj (opt_enc "smoke" enc_strings (bv_smoke v) ++ opt_enc "torture" enc_strings (bv_torture v)
        ++ opt_enc "e2e" enc_strings (bv_e2e v)).

Definition enc_probe (p : Probe) : json :=
  match p with
  | PCommand p =>
    JObj ([("kind", JStr "command"); ("name", JStr (cp_name p)); ("command", JStr (cp_command p))]
          ++ opt_enc "args" enc_strings (cp_args p) ++ opt_enc "expect_exit" JNum (cp_expect_exit p)
          ++ opt_enc "expect_stdout_contains" JStr (cp_expect_stdout_contains p)
          ++ opt_enc "expect_stderr_contains" JStr (cp_expect_stderr_contains p)
          ++ opt_enc "timeout_ms" JNum (cp_timeout_ms p))
  | PHttpInGuest p =>
    JObj ([("kind", JStr "http_in_guest"); ("name", JStr (hp_name p)); ("url", JStr (hp_url p))]
          ++ opt_enc "expect_status" JNum (hp_expect_status p)
          ++ opt_enc "expect_body_contains" JStr (hp_expect_body_contains p)
          ++ opt_enc "timeout_ms" JNum (hp_timeout_ms p))
  | PFileInGuest p =>
    JObj [("kind", JStr "file_in_guest"); ("name", JStr (fp_name p)); ("path", JStr (fp_path p))]
  end.

Definition enc_yaml (y : BuildYaml) : json :=
  JObj ([("schema_version", JInt 1); ("components", JArr (map enc_component (by_components y)))]
        ++ opt_enc "verification" enc_verification (by_verification y)
        ++ opt_enc "probes" (λ ps, JArr (map enc_probe ps)) (by_probes y)).
