(* ===== verification/Build.v ===== *)
(** Building a release: control-plane/build/executor.ts and git.ts, and the
    verification of a built release (runReleaseVerify of verbs/control-plane.ts).

    Processes, files, the YAML parser and the blob store are the class
    [BuildHost]; progress output is left out. *)

From S2P Require Import Prelude JsTime JsVal Types World Logic Manifest StorageCatalog StorageOps.
From S2P Require Import Signing BuildYaml.

(** How a child process ended: it could not be started, or it closed with an
    exit code (none for a signal) after writing these chunks to stderr. *)
Inductive ProcResult :=
| ProcError (err : Err)
| ProcClosed (code : option Z) (stderr : list string).

Class BuildHost (X : Type) := {
  host_id : string;                          (** os.hostname() and process.pid *)
  win32 : bool;                              (** process.platform === "win32" *)
  path_join : string → string → string;
  path_resolve : string → string → string;
  read_text : string → X → Res string * X;   (** fsp.readFile(p, "utf-8") *)
  YAML_parse : string → Res json;
  spawn : string → list string → string → option (list (string * string)) → X → ProcResult * X;
  file_exists : string → X → bool;           (** fs.existsSync *)
  stat_isFile : string → X → Res bool;       (** (await fsp.stat(p)).isFile() *)
  (** blobs.put of the file at a path: uri, sha256, size *)
  blobs_put : string → string → X → Res (string * string * Z) * X
}.

(** ** Git references and URLs *)

Definition is_ctl (c : ascii) : bool :=
  let n := Ascii.nat_of_ascii c in (n <? 32)%nat || (n =? 127)%nat.

Fixpoint str_exists (p : ascii → bool) (s : string) : bool :=
  match s with EmptyString => false | String c s' => p c || str_exists p s' end.

Definition to_lower (c : ascii) : ascii :=
  let n := Ascii.nat_of_ascii c in
  if ((65 <=? n) && (n <=? 90))%nat then Ascii.ascii_of_nat (n + 32) else c.

Fixpoint lower (s : string) : string :=
  match s with EmptyString => "" | String c s' => String (to_lower c) (lower s') end.

(** [\w]. *)
Definition is_word (c : ascii) : bool := is_lower c || is_upper c || is_digit c || is_underscore c.
Definition is_char (a c : ascii) : bool := bool_decide (c = a).
Definition no_space (s : string) : bool := str_forall (λ c, negb (is_js_space c)) s.

(** /^[\w.+-]+@[\w.-]+:[^\s]+$/ *)
Definition is_scp_url (s : string) : bool :=
  let host c := is_word c || is_char "." c || is_dash c in
  let (user, r) := span (λ c, host c || is_char "+" c) s in
  match r with
  | String "@" r' =>
    let (h, r'') := span host r' in
    match r'' with
    | String ":" path => negb (user =?s "") && negb (h =?s "") && negb (path =?s "") && no_space path
    | _ => false
    end
  | _ => false
  end.

Definition is_letter (c : ascii) : bool := is_lower c || is_upper c.

(** /^[A-Za-z]:[\\/][^\s]*$/ *)
Definition is_drive_path (s : string) : bool :=
  match s with
  | String d (String ":" (String c rest)) =>
    is_letter d && (is_char backslash c || is_char "/" c) && no_space rest
  | _ => false
  end.

(** /^\\\\[^\s\\]+\\[^\s]+$/ *)
Definition is_unc_path (s : string) : bool :=
  match s with
  | String a (String b r) =>
    is_char backslash a && is_char backslash b &&
    let (server, r') := span (λ c, negb (is_js_space c) && negb (is_char backslash c)) r in
    match r' with
    | String c share => is_char backslash c && negb (server =?s "") && negb (share =?s "") && no_space share
    | EmptyString => false
    end
  | _ => false
  end.

Definition known_transport (repoUrl : string) : bool :=
  let l := lower repoUrl in
  starts_with "http://" l || starts_with "https://" l || starts_with "ssh://" l
  || starts_with "git://" l || starts_with "file://" l || is_scp_url repoUrl
  || (starts_with "/" repoUrl && no_space repoUrl) || is_drive_path repoUrl || is_unc_path repoUrl.

Section git.
Context {X : Type}.

Definition validateRepoUrl (repoUrl : string) : M X unit :=
  if (String.length repoUrl =? 0)%nat then
    throw (ERepoUrlValidation "repo_url must be a non-empty string")
  else if (2048 <? String.length repoUrl)%nat then
    throw (ERepoUrlValidation "repo_url too long (max 2048 chars)")
  else if starts_with "-" repoUrl then
    throw (ERepoUrlValidation "repo_url may not start with '-' (option-injection guard)")
  else if str_exists is_ctl repoUrl then
    throw (ERepoUrlValidation "repo_url contains control characters")
  else if negb (known_transport repoUrl) then
    throw (ERepoUrlValidation
      ("repo_url must be http(s)://, ssh://, git://, file://, user@host:path, or an absolute local path; got '"
       +:+ repoUrl +:+ "'"))
  else mret ().

(** [\x00-\x20~^:?*[\\\x7f] *)
Definition ref_forbidden (c : ascii) : bool :=
  let n := Ascii.nat_of_ascii c in
  (n <=? 32)%nat || (n =? 127)%nat || is_char "~" c || is_char "^" c || is_char ":" c
  || is_char "?" c || is_char "*" c || is_char "[" c || is_char backslash c.

Definition validateGitRef (ref : string) : M X unit :=
  if (String.length ref =? 0)%nat then
    throw (EGitRefValidation "git ref must be a non-empty string")
  else if (255 <? String.length ref)%nat then
    throw (EGitRefValidation "git ref too long (max 255 chars)")
  else if starts_with "-" ref then
    throw (EGitRefValidation "git ref may not start with '-' (option-injection guard)")
  else if str_includes ref ".." || str_exists ref_forbidden ref || starts_with "/" ref
          || ends_with "/" ref || ends_with ".lock" ref || str_includes ref "@{" then
    throw (EGitRefValidation ("git ref contains forbidden character/sequence: '" +:+ ref +:+ "'"))
  else mret ().

Context `{BuildHost X}.

Definition spawnGit (args : list string) (cwd : string) : M X unit :=
  r ← external (λ x, let (r, x') := spawn "git" args cwd None x in (Ok r, x'));
  match r with
  | ProcError err => throw err
  | ProcClosed code _ =>
    if bool_decide (code = Some 0) then mret ()
    else throw (EError ("git " +:+ join " " args +:+ " exited with code "
                        +:+ match code with Some n => show_Z n | None => "null" end))
  end.

Definition cloneProductAtTag (repoUrl tag destDir cwd : string) : M X unit :=
  validateRepoUrl repoUrl;;
  validateGitRef tag;;
  spawnGit ["clone"; "--depth"; "1"; "--branch"; tag; "--"; repoUrl; destDir] cwd.
End git.

(** ** The executor *)

Definition STDERR_TAIL_BYTES : nat := 4096.

(** What the handler of stderr's [data] event keeps. *)
Definition keep_tail (tail chunk : string) : string :=
  let t := tail +:+ chunk in
  if (STDERR_TAIL_BYTES <? String.length t)%nat
  then str_drop (String.length t - STDERR_TAIL_BYTES) t else t.

Definition ComponentBuildError (component : string) (exitCode : option Z) (stderrTail : string) : Err :=
  EComponentBuild ("component '" +:+ component +:+ "' build failed (exit="
    +:+ match exitCode with Some n => show_Z n | None => "signal" end +:+ "):" +:+ newline +:+ stderrTail).

Definition MissingArtifactError (component artifactPath : string) : Err :=
  EMissingArtifact ("component '" +:+ component +:+ "' build completed but declared artifact "
    +:+ artifactPath +:+ " was not produced").

Definition ReleaseAlreadyExistsError (productName tag : string) : Err :=
  EReleaseAlreadyExists ("release " +:+ productName +:+ "@" +:+ tag
    +:+ " already exists with status=ready; refusing to rebuild "
    +:+ "(soft-delete it to force a rebuild, or use a different tag)").

Record RunBuildResult := mkRunBuildResult {
  rb_release : Release;
  rb_manifest : ReleaseManifest;
  rb_manifestSha256 : string;
  rb_artifacts : list Artifact;
  rb_signature : option SignedManifest
}.

Definition no_rel_patch : ReleasePatch := mkReleasePatch None None None None None None None.

Section build.
Context {X : Type} `{Oracle} `{JsEngine} `{Zod} {C : Crypto X} {K : KeyFiles X} {B : BuildHost X}.

Definition runRawCommand (componentName command : string) (args : list string) (cwd : string)
    (env : option (list (string * string))) : M X unit :=
  r ← external (λ x, let (r, x') := spawn command args cwd env x in (Ok r, x'));
  match r with
  | ProcError err => throw err
  | ProcClosed code stderr =>
    if bool_decide (code = Some 0) then mret ()
    else throw (ComponentBuildError componentName code (foldl keep_tail "" stderr))
  end.

Definition runComponentBuild (component : BuildComponent) (workDir : string) : M X unit :=
  let build := bcm_build component in
  let cwd := match truthy (bs_cwd build) with Some c => path_resolve workDir c | None => workDir end in
  runRawCommand (bcm_name component) (bs_command build) (bs_args build ?? []) cwd (bs_env build).

Definition runShellCommand (command cwd : string) : M X unit :=
  if win32 then runRawCommand "<produce>" "cmd.exe" ["/d"; "/s"; "/c"; command] cwd None
  else runRawCommand "<produce>" "sh" ["-c"; command] cwd None.

Definition captureArtifact (orgId releaseId component : string) (art : BuildArtifact) (workDir : string)
    : M X (Artifact * ManifestEntry) :=
  match art with
  | ImageRefArtifact ref =>
    row ← ArtifactRepo_create releaseId component AK_image_ref None None None (Some ref);
    mret (row, mkManifestEntry component MK_image_ref None (Some ref))
  | BlobArtifact path _ =>
    let filePath := path_resolve workDir path in
    present ← observe (file_exists filePath);
    if negb present then throw (MissingArtifactError component path) else
    isFile ← external (λ x, (stat_isFile filePath x, x));
    if negb isFile then throw (MissingArtifactError component path) else
    blob ← external (blobs_put orgId filePath);
    let '(uri, sha256, size) := blob : string * string * Z in
    row ← ArtifactRepo_create releaseId component AK_blob (Some sha256) (Some size) (Some uri) None;
    mret (row, mkManifestEntry component MK_blob (Some sha256) None)
  end.

(** Build one component, run its produce steps, capture its artifacts. *)
Definition build_component (orgId releaseId workDir : string) (vars : BuildVariables)
    (componentRaw : BuildComponent) : M X (list (Artifact * ManifestEntry)) :=
  match substituteComponent componentRaw vars with
  | inl msg => throw (EUnknownBuildVariable msg)
  | inr component =>
    runComponentBuild component workDir;;
    for_each (bcm_artifacts component) (λ art,
      match art with
      | BlobArtifact _ produce =>
        match truthy produce with Some cmd => runShellCommand cmd workDir | None => mret () end
      | ImageRefArtifact _ => mret ()
      end);;
    for_collect (bcm_artifacts component) (λ art,
      captureArtifact orgId releaseId (bcm_name component) art workDir)
  end.

(** The body of the [try]: from the components to the finished row. *)
Definition build_body (keysDir orgId actor runnerId tag commitSha workDir : string)
    (signingKeyPem : option string) (product : Product) (parsed : BuildYaml) (release : Release)
    : M X RunBuildResult :=
  let vars : BuildVariables :=
    [("TAG", tag); ("COMMIT_SHA", commitSha); ("COMMIT_SHORT", str_take 7 commitSha)] in
  captured ← for_collect (by_components parsed) (build_component orgId (rel_id release) workDir vars);
  let artifactRows := map fst (concat captured) in
  let manifest := buildManifest (pr_name product) tag commitSha (map snd (concat captured)) in
  let manifestSha256 := hashManifest sha256_hex manifest in
  signature ← match truthy signingKeyPem with
    | Some pem => s ← signManifest keysDir manifest pem; mret (Some s)
    | None => mret None end;
  builtAt ← nowIso;
  finished ← ReleaseRepo_update (rel_id release)
    (mkReleasePatch (Some manifestSha256) (sm_signedBy <$> signature) (sm_signatureB64 <$> signature)
       (Some builtAt) (Some runnerId) (Some RS_ready) (Some (json_stringify (enc_yaml parsed))));
  AuditLogRepo_append orgId actor "release.build.completed" "release" (rel_id release)
    (Some ([("tag", JStr tag); ("manifestSha256", JStr manifestSha256);
            ("artifactCount", JInt (Z.of_nat (length artifactRows)))]
           ++ opt_prop "signedBy" ((λ s, JStr (sm_signedBy s)) <$> signature)));;
  mret (mkRunBuildResult finished manifest manifestSha256 artifactRows signature).

(** The handler: the release becomes [failed], the cause is audited, the error
    is thrown again. *)
Definition build_failed {A} (orgId actor releaseId : string) (err : Err) : M X A :=
  try_catch
    (ReleaseRepo_update releaseId (mkReleasePatch None None None None None (Some RS_failed) None);; mret ())
    (λ _, mret ());;
  AuditLogRepo_append orgId actor "release.build.failed" "release" releaseId
    (Some [("error", JStr (err_message err)); ("name", JStr (err_name err))]);;
  throw err.

(** Read and validate the build file. *)
Definition load_build_yaml (product : Product) (workDir : string) : M X BuildYaml :=
  let buildYamlPath := path_join workDir (pr_buildYamlPath product) in
  try_catch
    (raw ← external (read_text buildYamlPath);
     yamlDoc ← lift (YAML_parse raw);
     match validateBuildYaml yamlDoc with inl msg => throw (EError msg) | inr y => mret y end)
    (λ err, throw (EError ("failed to read or validate " +:+ pr_buildYamlPath product +:+ " at "
       +:+ buildYamlPath +:+ ": " +:+ err_message err))).

Definition runBuild (keysDir orgId productId tag commitSha workDir : string)
    (runnerId actor signingKeyPem : option string) : M X RunBuildResult :=
  let runnerId := runnerId ?? host_id in
  let actor := actor ?? "cli" in
  product ← ProductRepo_get productId;
  match product with
  | None => throw (EError ("product not found: " +:+ productId))
  | Some product =>
    existing ← ReleaseRepo_getByTag productId tag;
    match existing with
    | Some e =>
      if bool_decide (rel_status e = RS_ready) then throw (ReleaseAlreadyExistsError (pr_name product) tag)
      else ReleaseRepo_softDelete (rel_id e)
    | None => mret ()
    end;;
    parsed ← load_build_yaml product workDir;
    release ← ReleaseRepo_create orgId productId tag commitSha (Some RS_building);
    AuditLogRepo_append orgId actor "release.build.started" "release" (rel_id release)
      (Some [("tag", JStr tag); ("commitSha", JStr commitSha); ("runnerId", JStr runnerId)]);;
    try_catch
      (build_body keysDir orgId actor runnerId tag commitSha workDir signingKeyPem product parsed release)
      (build_failed orgId actor (rel_id release))
  end.

(** ** Verifying a release *)

Record ReleaseVerifyResult := mkReleaseVerifyResult {
  rv_release : Release;
  rv_product : Product;
  rv_verified : bool;
  rv_reason : option string
}.

Definition artifact_entry (a : Artifact) : ManifestEntry :=
  if bool_decide (art_kind a = AK_blob)
  then mkManifestEntry (art_component a) MK_blob (art_sha256 a) None
  else mkManifestEntry (art_component a) MK_image_ref None (art_imageRef a).

Definition runReleaseVerify (releaseId publicKeyPem : string) : M X ReleaseVerifyResult :=
  release ← ReleaseRepo_get releaseId;
  match release with
  | None => throw (EError ("release not found: " +:+ releaseId))
  | Some release =>
    product ← ProductRepo_get (rel_productId release);
    match product with
    | None => throw (EError ("release " +:+ releaseId +:+ " references a missing product ("
                             +:+ rel_productId release +:+ ")"))
    | Some product =>
      match truthy (rel_signatureB64 release), truthy (rel_signedBy release) with
      | Some signatureB64, Some signedBy =>
        artifacts ← ArtifactRepo_listForRelease (rel_id release);
        let manifest := buildManifest (pr_name product) (rel_tag release) (rel_commitSha release)
                          (map artifact_entry artifacts) in
        let reconstructedHash := hashManifest sha256_hex manifest in
        if match rel_manifestSha256 release with
           | Some stored => negb (reconstructedHash =?s stored)
           | None => false end
        then mret (mkReleaseVerifyResult release product false
          (Some ("manifest reconstruction mismatch — stored " +:+ (rel_manifestSha256 release ?? "null")
             +:+ ", reconstructed " +:+ reconstructedHash
             +:+ ". The catalog may have been tampered with between build and verify.")))
        else
          try_catch
            (verifyManifest manifest signatureB64 signedBy publicKeyPem;;
             mret (mkReleaseVerifyResult release product true None))
            (λ err, mret (mkReleaseVerifyResult release product false (Some (err_message err))))
      | _, _ => mret (mkReleaseVerifyResult release product false
          (Some "release is unsigned (no signature_b64 / signed_by on the row)"))
      end
    end
  end.
End build.
