(* ===== verification/Probes.v ===== *)
(** control-plane/probes/runner.ts: running the declared probes inside a guest.

    The guest is reached through the deploy backend, whose operations
    (control-plane/deploy/backend.ts) are the class [DeployBackend]: they act on
    the external world and may throw.  Handles of virtual machines and
    checkpoints are opaque texts. *)

From S2P Require Import Prelude JsVal Types World BuildYaml.

Record ExecResult := mkExecResult {
  ex_exitCode : jsnum;
  ex_stdout : string;
  ex_stderr : string
}.

Class DeployBackend (X : Type) := {
  (** The handle and the name of the machine of a target's connection. *)
  resolveVm : json_object → X → Res (string * string) * X;
  createCheckpoint : string → string → X → Res string * X;
  restoreCheckpoint : string → X → Res unit * X;
  deleteCheckpoint : string → X → Res unit * X;
  copyFileToVM : string → string → string → X → Res unit * X;
  isVmReachable : string → X → Res (bool * option string) * X;
  executeInGuest : string → string → option (list string) → jsnum → X → Res ExecResult * X
}.

Record ProbeResult := mkProbeResult {
  pr_name : string;
  pr_status : HealthStatus;
  pr_latencyMs : Z;
  pr_detail : string
}.

Definition DEFAULT_TIMEOUT_MS : jsnum := num_of_Z 30000.

(** ** Texts *)

(** White space among the code units below 256. *)
Definition is_space (c : ascii) : bool :=
  let n := Ascii.nat_of_ascii c in
  ((9 <=? n)%nat && (n <=? 13)%nat) || (n =? 32)%nat || (n =? 160)%nat.

Fixpoint trim_start (s : string) : string :=
  match s with String c s' => if is_space c then trim_start s' else s | EmptyString => "" end.

Fixpoint trim_end (s : string) : string :=
  match s with
  | EmptyString => ""
  | String c s' =>
    match trim_end s' with
    | EmptyString => if is_space c then "" else String c ""
    | r => String c r
    end
  end.

(** [s.trim()]. *)
Definition trim (s : string) : string := trim_end (trim_start s).

(** The value of the digits a text starts with. *)
Fixpoint digits_value (acc : option Z) (s : string) : option Z :=
  match s with
  | String c s' =>
    if is_digit c
    then digits_value (Some ((acc ?? 0) * 10 + (Z.of_nat (Ascii.nat_of_ascii c) - 48))) s'
    else acc
  | EmptyString => acc
  end.

(** [parseInt(s, 10)]; [None] is NaN. *)
Definition parseInt10 (s : string) : option jsnum :=
  match trim_start s with
  | String "-" s' => option_map (λ n, if n =? 0 then S754_zero true else num_of_Z (- n)) (digits_value None s')
  | String "+" s' => option_map num_of_Z (digits_value None s')
  | s' => option_map num_of_Z (digits_value None s')
  end.

Definition truncate (s : string) (n : nat) : string :=
  if (String.length s <=? n)%nat then s else String.substring 0 n s +:+ "…".

Definition squote : ascii := Ascii.ascii_of_nat 39.

(** [s.replace(/'/g, "''")]. *)
Fixpoint double_squotes (s : string) : string :=
  match s with
  | EmptyString => ""
  | String c s' =>
    if bool_decide (c = squote) then String squote (String squote (double_squotes s'))
    else String c (double_squotes s')
  end.

Definition quotePs (s : string) : string :=
  String squote (double_squotes s +:+ String squote "").

(** ** Probes *)

Section probes.
Context {X : Type} `{Oracle} `{JsEngine} `{DeployBackend X}.

(** A result whose latency ends now. *)
Definition probe_result (name : string) (status : HealthStatus) (start : Z) (detail : string)
    : M X ProbeResult :=
  now ← nowDate;
  mret (mkProbeResult name status (now - start) detail).

(** [expected && !text.includes(expected)]. *)
Definition unmatched (text : string) (expected : option string) : bool :=
  match truthy expected with Some e => negb (str_includes text e) | None => false end.

Definition evaluateMatchers (name : string) (start : Z) (result : ExecResult) (expectExit : jsnum)
    (expectStdoutContains expectStderrContains : option string) : M X ProbeResult :=
  now ← nowDate;
  let latencyMs := now - start in
  if negb (SFeqb (ex_exitCode result) expectExit) then
    mret (mkProbeResult name HS_fail latencyMs
      ("exit=" +:+ num_to_string (ex_exitCode result) +:+ ", expected " +:+ num_to_string expectExit
       +:+ (if ex_stderr result =?s "" then "" else "; stderr: " +:+ truncate (ex_stderr result) 200)))
  else if unmatched (ex_stdout result) expectStdoutContains then
    mret (mkProbeResult name HS_fail latencyMs
      ("stdout did not contain '" +:+ truncate (expectStdoutContains ?? "") 80 +:+ "'"))
  else if unmatched (ex_stderr result) expectStderrContains then
    mret (mkProbeResult name HS_fail latencyMs
      ("stderr did not contain '" +:+ truncate (expectStderrContains ?? "") 80 +:+ "'"))
  else
    mret (mkProbeResult name HS_pass latencyMs ("exit=" +:+ num_to_string (ex_exitCode result))).

Definition runCommandProbe (handle : string) (probe : CommandProbe) (start : Z) : M X ProbeResult :=
  let expectExit := cp_expect_exit probe ?? S754_zero false in
  result ← external (executeInGuest handle (cp_command probe) (cp_args probe)
                       (cp_timeout_ms probe ?? DEFAULT_TIMEOUT_MS));
  evaluateMatchers (cp_name probe) start result expectExit (cp_expect_stdout_contains probe)
    (cp_expect_stderr_contains probe).

Definition http_script (probe : HttpInGuestProbe) : string :=
  "try { $resp = Invoke-WebRequest -UseBasicParsing -Uri " +:+ quotePs (hp_url probe)
  +:+ " -TimeoutSec "
  +:+ show_int (num_ceil (num_div (hp_timeout_ms probe ?? DEFAULT_TIMEOUT_MS) (num_of_Z 1000)))
  +:+ "; Write-Output $resp.StatusCode; [Console]::Error.Write($resp.Content) "
  +:+ "} catch { Write-Error $_.Exception.Message; exit 1 }".

Definition runHttpProbe (handle : string) (probe : HttpInGuestProbe) (start : Z) : M X ProbeResult :=
  let name := hp_name probe in
  let expectStatus := hp_expect_status probe ?? num_of_Z 200 in
  result ← external (executeInGuest handle "powershell.exe"
                       (Some ["-NoProfile"; "-NonInteractive"; "-Command"; http_script probe])
                       (hp_timeout_ms probe ?? DEFAULT_TIMEOUT_MS));
  if negb (SFeqb (ex_exitCode result) (S754_zero false)) then
    probe_result name HS_fail start
      ("Invoke-WebRequest failed: "
       +:+ (if trim (ex_stderr result) =?s "" then "non-zero exit" else trim (ex_stderr result)))
  else
    match parseInt10 (trim (ex_stdout result)) with
    | None =>
      probe_result name HS_fail start
        ("could not parse HTTP status from probe output: " +:+ String.substring 0 200 (ex_stdout result))
    | Some statusFromStdout =>
      if negb (SFeqb statusFromStdout expectStatus) then
        probe_result name HS_fail start
          ("expected HTTP " +:+ num_to_string expectStatus +:+ ", got " +:+ num_to_string statusFromStdout)
      else if unmatched (ex_stderr result) (hp_expect_body_contains probe) then
        probe_result name HS_fail start
          ("body did not contain '" +:+ truncate (hp_expect_body_contains probe ?? "") 80 +:+ "'")
      else probe_result name HS_pass start ("status=" +:+ num_to_string statusFromStdout)
    end.

Definition runFileProbe (handle : string) (probe : FileInGuestProbe) (start : Z) : M X ProbeResult :=
  if str_includes (fp_path probe) (String dquote "") then
    probe_result (fp_name probe) HS_fail start
      ("file_in_guest path may not contain a double-quote: " +:+ fp_path probe)
  else
    result ← external (executeInGuest handle "cmd.exe"
      (Some ["/c"; "if exist " +:+ String dquote (fp_path probe +:+ String dquote " (exit 0) else (exit 1)")])
      DEFAULT_TIMEOUT_MS);
    let present := SFeqb (ex_exitCode result) (S754_zero false) in
    probe_result (fp_name probe) (if present then HS_pass else HS_fail) start
      (if present then "present" else "missing").

Definition runProbe (probe : Probe) (handle : string) : M X ProbeResult :=
  start ← nowDate;
  try_catch
    (match probe with
     | PCommand p => runCommandProbe handle p start
     | PHttpInGuest p => runHttpProbe handle p start
     | PFileInGuest p => runFileProbe handle p start
     end)
    (λ err, probe_result (probe_name probe) HS_fail start
              ("probe execution threw: " +:+ err_message err)).

Definition runProbes (probes : list Probe) (handle : string) : M X (list ProbeResult) :=
  for_collect probes (λ probe, runProbe probe handle).
End probes.
