(* ===== verification/Deploy.v ===== *)
(** control-plane/deploy/executor.ts: installing a release on a virtual machine
    and rolling back to an earlier one.

    The blob store and the host file system are the class [DeployHost]; the
    progress text written to [out] is left out. *)

From S2P Require Import Prelude JsTime JsVal Types World Logic StorageCatalog StorageDeploy.
From S2P Require Import BuildYaml Probes.

Class DeployHost (X : Type) := {
  (** The contents behind a blob URI. *)
  blobs_get : string → X → Res string * X;
  (** [crypto.randomBytes(8).toString("hex")]. *)
  random_hex8 : X → Res string * X;
  (** [path.join(os.tmpdir(), name)]. *)
  tmp_path : string → string;
  host_write : string → string → X → Res unit * X;
  host_unlink : string → X → Res unit * X
}.

Record RunDeployResult := mkRunDeployResult {
  rd_deployment : Deployment;
  rd_release : Release;
  rd_target : Target;
  rd_artifacts : list Artifact;
  rd_healthSummary : DeploymentHealthSummary
}.

Definition artifact_manifest (a : Artifact) : json :=
  JObj ([("component", JStr (art_component a)); ("kind", JStr (ArtifactKind_text (art_kind a)))] ++
        if bool_decide (art_kind a = AK_blob) then
          [("sha256", JOptStr (art_sha256 a));
           ("size_bytes", match art_sizeBytes a with Some n => JInt n | None => JNull end);
           ("guest_filename", JStr (art_component a +:+ ".bin"))]
        else [("image_ref", JOptStr (art_imageRef a))]).

Definition buildDeployManifest (release : Release) (target : Target) (artifacts : list Artifact)
    (deploymentId : string) : json :=
  JObj [("schema_version", JInt 1); ("release_id", JStr (rel_id release));
        ("release_tag", JStr (rel_tag release)); ("commit_sha", JStr (rel_commitSha release));
        ("manifest_sha256", JOptStr (rel_manifestSha256 release));
        ("deployment_id", JStr deploymentId); ("target_name", JStr (tg_name target));
        ("target_kind", JStr (TargetKind_text (tg_kind target)));
        ("artifacts", JArr (map artifact_manifest artifacts))].

Definition count_status (s : HealthStatus) (l : list HealthStatus) : Z :=
  Z.of_nat (length (select (λ x, bool_decide (x = s)) l)).

Definition no_dep_patch : DeploymentPatch := mkDeploymentPatch None None None None.

Section deploy.
Context {X : Type} `{Oracle} `{JsEngine} `{Zod} `{DeployBackend X} `{DeployHost X}.

(** [try { m } finally { f }], where [f] does not throw. *)
Definition try_finally {A} (m : M X A) (f : M X unit) : M X A :=
  r ← try_catch (a ← m; mret (inr a)) (λ e, mret (inl e));
  f;;
  match r with inl e => throw e | inr a => mret a end.

(** [m.catch(() => undefined)]. *)
Definition swallow {A} (m : M X A) : M X unit := try_catch (m;; mret ()) (λ _, mret ()).

(** Write a temporary file, copy it into the guest, delete it. *)
Definition stage_tmp (tmp contents handle guestPath : string) : M X unit :=
  try_finally
    (external (host_write tmp contents);; external (copyFileToVM handle tmp guestPath))
    (swallow (external (host_unlink tmp))).

Definition stageBlobInto (blobUri handle guestPath : string) : M X unit :=
  stream ← external (blobs_get blobUri);
  hex ← external random_hex8;
  stage_tmp (tmp_path ("signalman-stage-" +:+ hex +:+ ".bin")) stream handle guestPath.

Definition stageStringInto (contents handle guestPath : string) : M X unit :=
  hex ← external random_hex8;
  stage_tmp (tmp_path ("signalman-stage-" +:+ hex +:+ ".txt")) contents handle guestPath.

Definition parseDeclaredProbes (release : Release) : list Probe :=
  match truthy (rel_buildYamlJson release) with
  | None => []
  | Some text =>
    match JSON_parse text with
    | None => []
    | Some parsed =>
      match validateBuildYaml parsed with inl _ => [] | inr yaml => by_probes yaml ?? [] end
    end
  end.

(** Stage every blob artifact. *)
Definition stage_artifact (stagingDir handle : string) (art : Artifact) : M X unit :=
  if bool_decide (art_kind art = AK_blob) then
    match truthy (art_blobUri art) with
    | None => throw (EError ("artifact " +:+ art_id art +:+ " has kind=blob but no blob_uri"))
    | Some uri => stageBlobInto uri handle (stagingDir +:+ "/" +:+ art_component art +:+ ".bin")
    end
  else mret ().

(** Staging and probing: the health summary of the new deployment, or a throw. *)
Definition stage_and_probe (release : Release) (target : Target) (artifacts : list Artifact)
    (deploymentId handle guestStagingRoot : string) : M X DeploymentHealthSummary :=
  let stagingDir := guestStagingRoot +:+ "/" +:+ rel_id release in
  for_each artifacts (stage_artifact stagingDir handle);;
  stageStringInto (json_pretty "" (buildDeployManifest release target artifacts deploymentId)) handle
    (stagingDir +:+ "/manifest.json");;
  reachability ← external (isVmReachable handle);
  let (reachable, detail) := (reachability : bool * option string) in
  let reachabilityStatus := if reachable then HS_pass else HS_fail in
  HealthCheckRepo_append deploymentId "vm_reachable" reachabilityStatus None detail;;
  if negb reachable then
    throw (EDeployHealthFailed ("vm_reachable probe failed: " +:+ (detail ?? "unknown reason")))
  else
    probeResults ← runProbes (parseDeclaredProbes release) handle;
    for_each probeResults (λ r,
      HealthCheckRepo_append deploymentId (pr_name r) (pr_status r) (Some (pr_latencyMs r))
        (Some (pr_detail r));; mret ());;
    let allChecks := reachabilityStatus :: map pr_status probeResults in
    now ← nowIso;
    let healthSummary :=
      mkDeploymentHealthSummary (Z.of_nat (length allChecks)) (count_status HS_pass allChecks)
        (count_status HS_fail allChecks) (count_status HS_degraded allChecks) (Some now) in
    if 0 <? count_status HS_fail allChecks then
      let failed := select (λ r, bool_decide (pr_status r = HS_fail)) probeResults in
      throw (EDeployHealthFailed
        (show_Z (Z.of_nat (length failed)) +:+ " declared probe(s) failed: "
         +:+ join "; " (map (λ r, pr_name r +:+ " (" +:+ pr_detail r +:+ ")") failed)))
    else mret healthSummary.

(** Supersede the previous deployment and make this one active. *)
Definition promote (previousActive : option Deployment) (deploymentId : string)
    (healthSummary : DeploymentHealthSummary) : M X Deployment :=
  match previousActive with
  | Some p =>
    DeploymentRepo_update (dep_id p) (mkDeploymentPatch (Some DS_superseded) None None None);; mret ()
  | None => mret ()
  end;;
  finishedAt ← nowIso;
  DeploymentRepo_update deploymentId
    (mkDeploymentPatch (Some DS_active) None (Some finishedAt) (Some (Some healthSummary))).

(** The handler of a failed deploy; it always throws. *)
Definition deploy_failed {A} (orgId actor deploymentId releaseId targetId checkpoint : string)
    (err : Err) : M X A :=
  swallow (external (restoreCheckpoint checkpoint));;
  swallow (external (deleteCheckpoint checkpoint));;
  swallow (now ← nowIso;
           DeploymentRepo_update deploymentId (mkDeploymentPatch (Some DS_failed) None (Some now) None));;
  AuditLogRepo_append orgId actor "release.deploy.failed" "deployment" deploymentId
    (Some [("releaseId", JStr releaseId); ("targetId", JStr targetId);
           ("error", JStr (err_message err)); ("errorName", JStr (err_name err))]);;
  throw err.

(** The deploy proper, from the row and the checkpoint on. *)
Definition deploy_body (orgId actor : string) (release : Release) (target : Target)
    (artifacts : list Artifact) (previousActive : option Deployment)
    (deploymentId handle checkpoint guestStagingRoot : string) : M X RunDeployResult :=
  healthSummary ← stage_and_probe release target artifacts deploymentId handle guestStagingRoot;
  finalized ← promote previousActive deploymentId healthSummary;
  external (deleteCheckpoint checkpoint);;
  AuditLogRepo_append orgId actor "release.deploy.completed" "deployment" deploymentId
    (Some ([("releaseId", JStr (rel_id release)); ("targetId", JStr (tg_id target))]
           ++ opt_prop "supersededId" (option_map (λ p, JStr (dep_id p)) previousActive)));;
  mret (mkRunDeployResult finalized release target artifacts healthSummary).

Definition runDeploy (orgId releaseId targetId : string) (actor : option string)
    (guestStagingRoot : option string) : M X RunDeployResult :=
  let actor := actor ?? "cli" in
  let guestStagingRoot := guestStagingRoot ?? "C:/signalman-staging" in
  release ← ReleaseRepo_get releaseId;
  match release with
  | None => throw (EError ("release not found: " +:+ releaseId))
  | Some release =>
    if negb (bool_decide (rel_status release = RS_ready)) then
      throw (EDeployBlocked ("release " +:+ rel_id release +:+ " is not ready (status="
                             +:+ ReleaseStatus_text (rel_status release) +:+ ")"))
    else
      target ← TargetRepo_get targetId;
      match target with
      | None => throw (EError ("target not found: " +:+ targetId))
      | Some target =>
        if negb (tg_orgId target =?s orgId) then
          throw (EError ("target " +:+ tg_id target +:+ " belongs to a different org"))
        else
          previousActive ← DeploymentRepo_getActiveForTarget (tg_id target);
          artifacts ← ArtifactRepo_listForRelease (rel_id release);
          vm ← external (resolveVm (tg_connection target));
          let handle := (vm : string * string).1 in
          deployment ← DeploymentRepo_create orgId (rel_id release) (tg_id target)
                         (option_map dep_id previousActive);
          AuditLogRepo_append orgId actor "release.deploy.started" "deployment" (dep_id deployment)
            (Some [("releaseId", JStr (rel_id release)); ("targetId", JStr (tg_id target))]);;
          checkpoint ← external (createCheckpoint handle ("signalman-pre-" +:+ dep_id deployment));
          startedAt ← nowIso;
          DeploymentRepo_update (dep_id deployment)
            (mkDeploymentPatch (Some DS_deploying) (Some startedAt) None None);;
          try_catch
            (deploy_body orgId actor release target artifacts previousActive (dep_id deployment)
               handle checkpoint guestStagingRoot)
            (deploy_failed orgId actor (dep_id deployment) (rel_id release) (tg_id target) checkpoint)
      end
  end.

Definition runRollback (orgId targetId : string) (toReleaseId actor : option string)
    : M X RunDeployResult :=
  target ← TargetRepo_get targetId;
  match target with
  | None => throw (EError ("target not found: " +:+ targetId))
  | Some target =>
    releaseId ←
      match truthy toReleaseId with
      | Some r => mret r
      | None =>
        history ← DeploymentRepo_listForTarget (tg_id target) (Some 10);
        match find_first (λ d, bool_decide (dep_status d = DS_superseded)) history with
        | None =>
          throw (EDeployBlocked ("no superseded deployment found on target '" +:+ tg_name target
            +:+ "' to roll back to. Use --release to specify an explicit prior release."))
        | Some superseded => mret (dep_releaseId superseded)
        end
      end;
    runDeploy orgId releaseId targetId (Some (actor ?? "cli-rollback")) None
  end.
End deploy.
