(* ===== verification/CloudTypes.v ===== *)
(** The vocabulary of the cloud backends (cloud/types.ts): configurations,
    handles, states, the reserved tags, and the backend interface as the
    reaper uses it. *)

From stdpp Require Import gmap strings.
From S2P Require Import Prelude JsVal Types World.

Inductive NetworkMode := NM_public_mtls | NM_aws_ssm | NM_azure_bastion.

#[export] Instance NetworkMode_eq_dec : EqDecision NetworkMode.
Proof. solve_decision. Defined.

Definition DEFAULT_NETWORK_MODE : NetworkMode := NM_public_mtls.

Record CloudNetwork := mkCloudNetwork {
  net_subnet_id : option string;
  net_security_group_ids : option (list string);
  net_assign_public_ip : option bool;
  net_mode : option NetworkMode
}.

(** [tags] in the order of [Object.entries]. *)
Record CloudInstanceConfig := mkCloudInstanceConfig {
  cic_region : string;
  cic_instance_type : string;
  cic_image_ref : string;
  cic_name : string;
  cic_org_id : option string;
  cic_ttl_minutes : option jsnum;
  cic_tags : option (list (string * string));
  cic_network : option CloudNetwork
}.

Record CloudInstanceHandle := mkCloudInstanceHandle {
  ch_id : string;
  ch_backend : string;
  ch_name : string;
  ch_region : string;
  ch_tags : option (gmap string string);
  ch_network_mode : option NetworkMode
}.

Inductive CloudInstanceState := CS_pending | CS_running | CS_stopped | CS_terminated | CS_unknown.

#[export] Instance CloudInstanceState_eq_dec : EqDecision CloudInstanceState.
Proof. solve_decision. Defined.

Record CloudInstanceStatus := mkCloudInstanceStatus {
  cst_handle : CloudInstanceHandle;
  cst_state : CloudInstanceState;
  cst_public_ip : option string;
  cst_private_ip : option string;
  cst_reason : option string
}.

Definition DEFAULT_INSTANCE_TTL_MINUTES : Z := 60.
Definition SIGNALMAN_MANAGED_TAG_KEY : string := "signalman-managed".
Definition SIGNALMAN_ORG_TAG_KEY : string := "signalman-org".
Definition SIGNALMAN_MANAGED_TAG_VALUE : string := "true".
Definition SIGNALMAN_TTL_EXPIRES_AT_TAG_KEY : string := "signalman-ttl-expires-at".
Definition SIGNALMAN_TTL_MINUTES_TAG_KEY : string := "signalman-ttl-minutes".

(** The tags only the backend sets. *)
Definition sentinelKeys : list string :=
  [SIGNALMAN_MANAGED_TAG_KEY; SIGNALMAN_ORG_TAG_KEY; SIGNALMAN_TTL_MINUTES_TAG_KEY;
   SIGNALMAN_TTL_EXPIRES_AT_TAG_KEY].

(** [handle.tags?.[k]]. *)
Definition handle_tag (h : CloudInstanceHandle) (k : string) : option string :=
  match ch_tags h with Some m => m !! k | None => None end.

(** The operations of a backend that the reaper and the verbs call. *)
Record CloudBackend (X : Type) := mkCloudBackend {
  be_name : string;
  be_terminateInstance : CloudInstanceHandle → M X unit;
  be_getInstanceStatus : CloudInstanceHandle → M X CloudInstanceStatus;
  be_getInstanceIp : CloudInstanceHandle → M X (option string);
  be_listInstances : list (string * string) → M X (list CloudInstanceHandle)
}.
Arguments mkCloudBackend {X}.
Arguments be_name {X}.
Arguments be_terminateInstance {X}.
Arguments be_getInstanceStatus {X}.
Arguments be_getInstanceIp {X}.
Arguments be_listInstances {X}.
