(* ===== verification/Budget.v ===== *)
(** Cloud spend: cloud/cost.ts (the static price table) and cloud/budget.ts
    (the per-organisation budget gate).

    Amounts of money are whole cents, kept as integers; [Cents] marks the two
    values of Math.ceil that are not integers.  Rates, multipliers and
    percentages are binary64 numbers, as in the source. *)

From S2P Require Import Prelude JsTime JsVal Types World Logic StorageOps CloudTypes.

(** ** The price table *)

Definition UNKNOWN_SKU_FALLBACK_CENTS_PER_HOUR : Z := 50.
Definition DEFAULT_REGION_MULTIPLIER : jsnum := num_of_Z 1.

Definition SKU_CENTS_PER_HOUR : list (string * Z) :=
  [("t3.micro", 1); ("t3.small", 2); ("t3.medium", 4); ("t3.large", 8); ("t3.xlarge", 17);
   ("t3.2xlarge", 33); ("m5.large", 10); ("m5.xlarge", 19); ("m5.2xlarge", 38);
   ("m5.4xlarge", 77); ("c5.large", 9); ("c5.xlarge", 17); ("c5.2xlarge", 34);
   ("r5.large", 13); ("r5.xlarge", 25);
   ("Standard_B1s", 1); ("Standard_B2s", 4); ("Standard_B2ms", 8); ("Standard_D2s_v3", 10);
   ("Standard_D4s_v3", 19); ("Standard_D8s_v3", 38); ("Standard_D2as_v5", 9);
   ("Standard_D4as_v5", 18); ("Standard_F2s_v2", 9); ("Standard_F4s_v2", 17);
   ("Standard_E2s_v3", 13); ("Standard_E4s_v3", 25)].

(** A decimal literal with two digits after the point. *)
Definition hundredths (n : Z) : jsnum := num_div (num_of_Z n) (num_of_Z 100).

Definition REGION_MULTIPLIERS : list (string * jsnum) :=
  [("us-east-1", hundredths 100); ("us-east-2", hundredths 100); ("us-west-1", hundredths 105);
   ("us-west-2", hundredths 100); ("eu-west-1", hundredths 105); ("eu-central-1", hundredths 110);
   ("ap-southeast-1", hundredths 115); ("ap-northeast-1", hundredths 120);
   ("eastus", hundredths 100); ("eastus2", hundredths 100); ("westus2", hundredths 100);
   ("northeurope", hundredths 105); ("westeurope", hundredths 110);
   ("southeastasia", hundredths 115); ("japaneast", hundredths 120)].

(** The tables are object literals: a key that is not their own but names a
    member of Object.prototype is found there, and is no number. *)
Definition object_prototype : list string :=
  ["constructor"; "__defineGetter__"; "__defineSetter__"; "hasOwnProperty"; "__lookupGetter__";
   "__lookupSetter__"; "isPrototypeOf"; "propertyIsEnumerable"; "toString"; "valueOf";
   "__proto__"; "toLocaleString"].

Definition table_number (table : list (string * jsnum)) (k : string) (dflt : jsnum) : jsnum :=
  match find_first (λ kv, kv.1 =?s k) table with
  | Some kv => kv.2
  | None => if existsb (λ m, m =?s k) object_prototype then S754_nan else dflt
  end.

Definition sku_rate (sku : string) : jsnum :=
  table_number (map (λ kv, (kv.1, num_of_Z kv.2)) SKU_CENTS_PER_HOUR) sku
    (num_of_Z UNKNOWN_SKU_FALLBACK_CENTS_PER_HOUR).

Definition region_multiplier (region : string) : jsnum :=
  table_number REGION_MULTIPLIERS region DEFAULT_REGION_MULTIPLIER.

Inductive Cents := CentsInt (n : Z) | CentsInfinity | CentsNaN.

(** [Math.ceil] of an amount (never negative infinity here). *)
Definition ceil_cents (x : jsnum) : Cents :=
  match x with
  | S754_nan => CentsNaN
  | S754_infinity _ => CentsInfinity
  | x => CentsInt (num_ceil x)
  end.

Definition estimateInstanceCostCents (sku region : string) (ttlMinutes : jsnum) : Cents :=
  if negb (num_isFinite ttlMinutes) || SFleb ttlMinutes (S754_zero false) then CentsInt 0
  else
    let hours := num_div ttlMinutes (num_of_Z 60) in
    ceil_cents (num_mul (num_mul (sku_rate sku) (region_multiplier region)) hours).

Definition hourlyRateCents (sku region : string) : Cents :=
  ceil_cents (num_mul (sku_rate sku) (region_multiplier region)).

(** The product of two integers is one already. *)
Definition monthlyRateCents (sku region : string) : Cents :=
  match hourlyRateCents sku region with CentsInt n => CentsInt (n * 730) | c => c end.

(** ** The gate *)

Definition monthBoundsUtc (at_ : Z) : string * string :=
  (toISOString (Date_UTC (getUTCFullYear at_) (getUTCMonth at_)),
   toISOString (Date_UTC (getUTCFullYear at_) (getUTCMonth at_ + 1))).

Record BudgetCheckResult := mkBudgetCheckResult {
  bc_warned : bool;
  bc_usageCents : Z;
  bc_limitCents : option Z;     (** [None] is Infinity: no budget *)
  bc_estimatedCents : Cents;
  bc_pctAfter : jsnum
}.

Definition cents_add (u : Z) (c : Cents) : Cents :=
  match c with CentsInt n => CentsInt (u + n) | c => c end.

Definition cents_num (c : Cents) : jsnum :=
  match c with
  | CentsInt n => num_of_Z n
  | CentsInfinity => S754_infinity false
  | CentsNaN => S754_nan
  end.

(** [c > limit]. *)
Definition cents_gt (c : Cents) (limit : Z) : bool :=
  match c with CentsInt n => limit <? n | CentsInfinity => true | CentsNaN => false end.

Definition show_cents (c : Cents) : string :=
  match c with CentsInt n => show_Z n | CentsInfinity => "Infinity" | CentsNaN => "NaN" end.

Section gate.
Context {X : Type} `{Oracle} `{JsEngine}.

Definition BudgetGate_check (orgId : string) (estimatedCents : Cents) : M X BudgetCheckResult :=
  budget ← CloudBudgetRepo_get orgId;
  match budget with
  | None => mret (mkBudgetCheckResult false 0 None estimatedCents (S754_zero false))
  | Some b =>
    now ← nowDate;
    let (startedAtFrom, startedAtTo) := monthBoundsUtc now in
    usageCents ← CloudUsageRepo_sumForRange orgId startedAtFrom startedAtTo;
    let projected := cents_add usageCents estimatedCents in
    let pctAfter := num_mul (num_div (cents_num projected) (num_of_Z (cb_monthlyCentsLimit b)))
                            (num_of_Z 100) in
    if cents_gt projected (cb_monthlyCentsLimit b) then
      throw (ECloudBackend "budget_exceeded"
        ("org '" +:+ orgId +:+ "' would exceed budget: usage=" +:+ show_Z usageCents
         +:+ "¢ + estimate=" +:+ show_cents estimatedCents +:+ "¢ = " +:+ show_cents projected
         +:+ "¢ > limit=" +:+ show_Z (cb_monthlyCentsLimit b)
         +:+ "¢ (" +:+ num_toFixed pctAfter 1 +:+ "% of monthly budget)."))
    else
      mret (mkBudgetCheckResult (SFleb (num_of_Z (cb_softWarnPct b)) pctAfter)
              usageCents (Some (cb_monthlyCentsLimit b)) estimatedCents pctAfter)
  end.

Definition BudgetGate_checkForConfig (config : CloudInstanceConfig) : M X BudgetCheckResult :=
  let orgId := cic_org_id config ?? "default" in
  let ttlMinutes := cic_ttl_minutes config ?? num_of_Z DEFAULT_INSTANCE_TTL_MINUTES in
  BudgetGate_check orgId
    (estimateInstanceCostCents (cic_instance_type config) (cic_region config) ttlMinutes).

(** SQLite stores NaN as NULL, which the NOT NULL column refuses.  An infinite
    estimate, which takes a lifetime beyond 10^306 minutes, is left to the same
    branch: the usage column is modelled as whole cents. *)
Definition BudgetGate_recordStart (orgId backend instanceId instanceType region : string)
    (ttlMinutes : jsnum) : M X unit :=
  match estimateInstanceCostCents instanceType region ttlMinutes with
  | CentsInt estimatedCents =>
    now ← nowDate;
    CloudUsageRepo_recordStart orgId backend instanceId instanceType region (toISOString now)
      estimatedCents;; mret ()
  | _ =>
    nowDate;;
    throw (EStorageConflict "NOT NULL constraint failed: cloud_org_usage.estimated_cents")
  end.

Definition BudgetGate_recordTerminate (orgId instanceId : string) : M X unit :=
  now ← nowDate;
  CloudUsageRepo_recordTerminate orgId instanceId (toISOString now).
End gate.
