(* ===== verification/Cloud.v ===== *)
(** The AWS backend (cloud/aws.ts) and the TTL reaper (cloud/reaper.ts).

    The EC2 service is the class [Ec2]: each call reads and changes the
    external world and gives an output or a vendor error.  [waitUntilRunning]
    polls until a deadline of the wall clock; its model takes fuel, and [None]
    is a wait that has not ended yet.  Loggers are no-ops by default and are
    left out. *)

From stdpp Require Import gmap strings.
From S2P Require Import Prelude JsTime JsVal Types World Logic StorageOps CloudTypes Budget.

(** ** The vendor *)

(** An error of the SDK; [ae_text] is [String(err)]. *)
Record AwsErr := mkAwsErr {
  ae_name : option string;
  ae_Code : option string;
  ae_message : option string;
  ae_text : string
}.

Record NetworkInterface := mkNetworkInterface {
  ni_AssociatePublicIpAddress : bool;
  ni_SubnetId : option string;
  ni_Groups : option (list string)
}.

Record RunInstancesInput := mkRunInstancesInput {
  ri_ImageId : string;
  ri_InstanceType : string;
  ri_SubnetId : option string;
  ri_SecurityGroupIds : option (list string);
  ri_NetworkInterfaces : option (list NetworkInterface);
  ri_Tags : list (string * string)
}.

Record Ec2Instance := mkEc2Instance {
  ec_InstanceId : option string;
  ec_StateName : option string;
  ec_StateReason : option string;
  ec_PublicIpAddress : option string;
  ec_PrivateIpAddress : option string;
  ec_Tags : list (option string * option string)
}.

(** [Reservations], each with its [Instances], and [NextToken]. *)
Record DescribeOutput := mkDescribeOutput {
  do_Reservations : list (list Ec2Instance);
  do_NextToken : option string
}.

Class Ec2 (X : Type) := {
  RunInstances : RunInstancesInput → X → (AwsErr + list Ec2Instance) * X;
  TerminateInstances : string → X → (AwsErr + unit) * X;
  DescribeById : string → X → (AwsErr + DescribeOutput) * X;
  DescribeByFilter : list (string * string) → X → (AwsErr + DescribeOutput) * X;
  sleep_ms : Z → X → X
}.

(** ** Pure helpers *)

Definition authCodes : list string :=
  ["UnauthorizedOperation"; "AuthFailure"; "InvalidClientTokenId"; "RequestExpired";
   "SignatureDoesNotMatch"].

Definition mapAwsError (err : AwsErr) (defaultCode fallbackMessage : string) : Err :=
  let awsCode := truthy (match ae_name err with Some n => Some n | None => ae_Code err end) in
  let detail := ae_message err ?? ae_text err in
  match awsCode with
  | Some c =>
    ECloudBackend (if existsb (λ a, a =?s c) authCodes then "auth_failed" else defaultCode)
      (fallbackMessage +:+ " (AWS code: " +:+ c +:+ "): " +:+ detail)
  | None => ECloudBackend defaultCode (fallbackMessage +:+ ": " +:+ detail)
  end.

Definition isAwsErrorCode (err : AwsErr) (awsCode : string) : bool :=
  bool_decide (ae_name err = Some awsCode) || bool_decide (ae_Code err = Some awsCode).

Definition mapEc2State (awsState : option string) : CloudInstanceState :=
  match awsState with
  | Some s =>
    if s =?s "pending" then CS_pending
    else if s =?s "running" then CS_running
    else if (s =?s "stopping") || (s =?s "stopped") then CS_stopped
    else if (s =?s "shutting-down") || (s =?s "terminated") then CS_terminated
    else CS_unknown
  | None => CS_unknown
  end.

Definition buildInstanceTags `{JsEngine} (config : CloudInstanceConfig) (orgId : string)
    (ttlMinutes : jsnum) (now : Z) : list (string * string) :=
  let expiresAtEpochSec := num_add (num_of_Z (now / 1000)) (num_mul ttlMinutes (num_of_Z 60)) in
  [("Name", cic_name config);
   (SIGNALMAN_MANAGED_TAG_KEY, SIGNALMAN_MANAGED_TAG_VALUE);
   (SIGNALMAN_ORG_TAG_KEY, orgId);
   (SIGNALMAN_TTL_MINUTES_TAG_KEY, num_to_string ttlMinutes);
   (SIGNALMAN_TTL_EXPIRES_AT_TAG_KEY, num_to_string expiresAtEpochSec)]
  ++ select (λ kv, negb (existsb (λ s, s =?s kv.1) sentinelKeys)) (cic_tags config ?? []).

(** The object built from the tags of an instance: a later key replaces an
    earlier one, and assigning a string to "__proto__" does nothing. *)
Definition tag_put (m : gmap string string) (t : option string * option string) : gmap string string :=
  match truthy t.1, t.2 with
  | Some k, Some v => if k =?s "__proto__" then m else <[k := v]> m
  | _, _ => m
  end.

Definition tagMap (tags : list (option string * option string)) : gmap string string :=
  fold_left tag_put tags ∅.

(** ** The backend *)

Record AwsBackend := mkAwsBackend {
  aws_region : string;
  aws_pollIntervalMs : Z;
  aws_pollTimeoutMs : Z
}.

Definition AWS_PROVISION_POLL_INTERVAL_MS : Z := 2000.
Definition AWS_PROVISION_TIMEOUT_MS : Z := 60000.

Section aws.
Context {X : Type} `{Oracle} `{JsEngine} `{Ec2 X}.

(** A call of the SDK client. *)
Definition ec2_send {A} (f : X → (AwsErr + A) * X) : M X (AwsErr + A) :=
  external (λ x, let (r, x') := f x in (Ok r, x')).

Definition AwsBackend_new (region : string) (pollIntervalMs pollTimeoutMs : option Z)
    : Err + AwsBackend :=
  if region =?s "" then
    inl (ECloudBackend "invalid_config" "AwsBackend requires a non-empty region")
  else
    inr (mkAwsBackend region (pollIntervalMs ?? AWS_PROVISION_POLL_INTERVAL_MS)
           (pollTimeoutMs ?? AWS_PROVISION_TIMEOUT_MS)).

Definition aws_getInstanceStatus (be : AwsBackend) (handle : CloudInstanceHandle)
    : M X CloudInstanceStatus :=
  out ← ec2_send (DescribeById (ch_id handle));
  match out with
  | inl err =>
    if isAwsErrorCode err "InvalidInstanceID.NotFound" then
      throw (ECloudBackend "instance_not_found"
        ("AWS instance " +:+ ch_id handle +:+ " not found in region " +:+ aws_region be))
    else throw (mapAwsError err "provision_failed" "DescribeInstances failed")
  | inr o =>
    match do_Reservations o with
    | (instance :: _) :: _ =>
      mret (mkCloudInstanceStatus handle (mapEc2State (ec_StateName instance))
              (ec_PublicIpAddress instance) (ec_PrivateIpAddress instance)
              (ec_StateReason instance))
    | _ =>
      throw (ECloudBackend "instance_not_found"
        ("AWS instance " +:+ ch_id handle +:+ " not present in DescribeInstances response"))
    end
  end.

Definition aws_getInstanceIp (be : AwsBackend) (handle : CloudInstanceHandle)
    : M X (option string) :=
  status ← aws_getInstanceStatus be handle;
  mret (cst_public_ip status).

Definition aws_timeout (be : AwsBackend) (handle : CloudInstanceHandle) {A} : M X A :=
  throw (ECloudBackend "provision_failed"
    ("AWS instance " +:+ ch_id handle +:+ " did not reach running state within "
     +:+ show_Z (aws_pollTimeoutMs be) +:+ "ms")).

(** The polling loop; [None] when the fuel is spent. *)
Fixpoint aws_poll (be : AwsBackend) (handle : CloudInstanceHandle) (deadline : Z) (fuel : nat)
    : M X (option unit) :=
  match fuel with
  | O => mret None
  | S fuel' =>
    now ← nowDate;
    if now <? deadline then
      status ← aws_getInstanceStatus be handle;
      match cst_state status with
      | CS_running => mret (Some ())
      | CS_terminated =>
        throw (ECloudBackend "provision_failed"
          ("AWS instance " +:+ ch_id handle +:+ " entered terminated state during provisioning"
           +:+ match truthy (cst_reason status) with Some r => ": " +:+ r | None => "" end))
      | _ =>
        now' ← nowDate;
        let remaining := deadline - now' in
        if remaining <=? 0 then aws_timeout be handle
        else
          external (λ x, (Ok (), sleep_ms (Z.min (aws_pollIntervalMs be) remaining) x));;
          aws_poll be handle deadline fuel'
      end
    else aws_timeout be handle
  end.

Definition waitUntilRunning (be : AwsBackend) (handle : CloudInstanceHandle) (fuel : nat)
    : M X (option unit) :=
  now ← nowDate;
  aws_poll be handle (now + aws_pollTimeoutMs be) fuel.

Definition runInput (config : CloudInstanceConfig) (mode : NetworkMode)
    (tags : list (string * string)) : RunInstancesInput :=
  let subnet := cic_network config ≫= net_subnet_id in
  let groups := cic_network config ≫= net_security_group_ids in
  let effectiveAssignPublicIp :=
    if bool_decide (mode = NM_aws_ssm) then Some false else cic_network config ≫= net_assign_public_ip in
  match effectiveAssignPublicIp with
  | Some pub =>
    mkRunInstancesInput (cic_image_ref config) (cic_instance_type config) None None
      (Some [mkNetworkInterface pub subnet groups]) tags
  | None =>
    mkRunInstancesInput (cic_image_ref config) (cic_instance_type config) subnet groups None tags
  end.

(** [gate] tells whether a budget gate is wired. *)
Definition aws_provisionInstance (be : AwsBackend) (gate : bool) (fuel : nat)
    (config : CloudInstanceConfig) : M X (option CloudInstanceHandle) :=
  if cic_image_ref config =?s "" then
    throw (ECloudBackend "invalid_config" "AWS provisionInstance requires image_ref (AMI id)")
  else if cic_instance_type config =?s "" then
    throw (ECloudBackend "invalid_config" "AWS provisionInstance requires instance_type")
  else if negb (cic_region config =?s aws_region be) then
    throw (ECloudBackend "invalid_config"
      ("AWS backend is scoped to region '" +:+ aws_region be +:+ "' but config requested '"
       +:+ cic_region config +:+ "'. Construct a separate AwsBackend per region (AWS SDK clients are region-scoped)."))
  else
    let orgId := cic_org_id config ?? "default" in
    let ttlMinutes := cic_ttl_minutes config ?? num_of_Z DEFAULT_INSTANCE_TTL_MINUTES in
    (if gate then BudgetGate_checkForConfig config;; mret () else mret ());;
    now ← nowDate;
    let tags := buildInstanceTags config orgId ttlMinutes now in
    let mode := (cic_network config ≫= net_mode) ?? DEFAULT_NETWORK_MODE in
    if bool_decide (mode = NM_azure_bastion) then
      throw (ECloudBackend "invalid_config"
        "AWS backend does not support network mode 'azure_bastion'. Use 'public_mtls' or 'aws_ssm'.")
    else
      runOutput ← ec2_send (RunInstances (runInput config mode tags));
      match runOutput with
      | inl err => throw (mapAwsError err "provision_failed" "RunInstances failed")
      | inr instances =>
        match head instances ≫= (λ i, truthy (ec_InstanceId i)) with
        | None => throw (ECloudBackend "provision_failed" "RunInstances returned no instance id")
        | Some id =>
          let handle := mkCloudInstanceHandle id "aws" (cic_name config) (aws_region be) None (Some mode) in
          done_ ← waitUntilRunning be handle fuel;
          match done_ with
          | None => mret None
          | Some _ =>
            (if gate then
               try_catch (BudgetGate_recordStart orgId "aws" (ch_id handle)
                            (cic_instance_type config) (aws_region be) ttlMinutes)
                         (λ _, mret ())
             else mret ());;
            mret (Some handle)
          end
        end
      end.

Definition aws_terminateInstance (gate : bool) (handle : CloudInstanceHandle) : M X unit :=
  (if gate then
     try_catch (BudgetGate_recordTerminate (handle_tag handle "signalman-org" ?? "default") (ch_id handle))
               (λ _, mret ())
   else mret ());;
  out ← ec2_send (TerminateInstances (ch_id handle));
  match out with
  | inl err =>
    if isAwsErrorCode err "InvalidInstanceID.NotFound" then mret ()
    else throw (mapAwsError err "terminate_failed" "TerminateInstances failed")
  | inr _ => mret ()
  end.

(** The handle [listInstances] makes of an instance, if it has an id. *)
Definition aws_handle (be : AwsBackend) (instance : Ec2Instance) : option CloudInstanceHandle :=
  match truthy (ec_InstanceId instance) with
  | None => None
  | Some id =>
    let tags := tagMap (ec_Tags instance) in
    Some (mkCloudInstanceHandle id "aws" ((tags !! "Name") ?? id) (aws_region be) (Some tags) None)
  end.

Definition aws_listInstances (be : AwsBackend) (filter_tags : list (string * string))
    : M X (list CloudInstanceHandle) :=
  let filters := ("tag:" +:+ SIGNALMAN_MANAGED_TAG_KEY, SIGNALMAN_MANAGED_TAG_VALUE)
                 :: map (λ kv, ("tag:" +:+ kv.1, kv.2)) filter_tags in
  out ← ec2_send (DescribeByFilter filters);
  match out with
  | inl err => throw (mapAwsError err "provision_failed" "DescribeInstances failed")
  | inr o =>
    match truthy (do_NextToken o) with
    | Some _ =>
      throw (ECloudBackend "quota_exceeded"
        ("AWS DescribeInstances returned a NextToken in region " +:+ aws_region be
         +:+ ": result exceeds one page. Narrow the filter (e.g. add an org tag) or wait for the v0.3.0-5 pagination follow-up."))
    | None => mret (omap (aws_handle be) (concat (do_Reservations o)))
    end
  end.

(** The AWS backend behind the interface the reaper uses. *)
Definition aws_backend (be : AwsBackend) (gate : bool) : CloudBackend X :=
  mkCloudBackend "aws" (aws_terminateInstance gate) (aws_getInstanceStatus be)
    (aws_getInstanceIp be) (aws_listInstances be).
End aws.

(** ** The reaper *)

Record ReaperBackendResult := mkReaperBackendResult {
  rb_backend : string;
  rb_inspected : nat;
  rb_malformed : nat;
  rb_noTtl : nat;
  rb_terminated : nat;
  rb_listError : option string;
  rb_terminateErrors : list (string * string)
}.

Record ReaperRunResult := mkReaperRunResult {
  rr_startedAt : string;
  rr_finishedAt : string;
  rr_backends : list ReaperBackendResult;
  rr_totalTerminated : nat
}.

Section reaper.
Context {X : Type} `{Oracle} `{JsEngine}.

Definition rb_count_malformed (r : ReaperBackendResult) : ReaperBackendResult :=
  mkReaperBackendResult (rb_backend r) (rb_inspected r) (S (rb_malformed r)) (rb_noTtl r)
    (rb_terminated r) (rb_listError r) (rb_terminateErrors r).
Definition rb_count_noTtl (r : ReaperBackendResult) : ReaperBackendResult :=
  mkReaperBackendResult (rb_backend r) (rb_inspected r) (rb_malformed r) (S (rb_noTtl r))
    (rb_terminated r) (rb_listError r) (rb_terminateErrors r).
Definition rb_count_terminated (r : ReaperBackendResult) : ReaperBackendResult :=
  mkReaperBackendResult (rb_backend r) (rb_inspected r) (rb_malformed r) (rb_noTtl r)
    (S (rb_terminated r)) (rb_listError r) (rb_terminateErrors r).
Definition rb_push_error (id message : string) (r : ReaperBackendResult) : ReaperBackendResult :=
  mkReaperBackendResult (rb_backend r) (rb_inspected r) (rb_malformed r) (rb_noTtl r)
    (rb_terminated r) (rb_listError r) (rb_terminateErrors r ++ [(id, message)]).

(** One handle of a sweep. *)
Definition reap_handle (backend : CloudBackend X) (nowEpochSec : Z) (handle : CloudInstanceHandle)
    (result : ReaperBackendResult) : M X ReaperBackendResult :=
  match handle_tag handle SIGNALMAN_TTL_EXPIRES_AT_TAG_KEY with
  | None => mret (rb_count_noTtl result)
  | Some tagValue =>
    let expiresAt := to_number (Some (JStr tagValue)) in
    if negb (num_isFinite expiresAt) || SFleb expiresAt (S754_zero false) then
      mret (rb_count_malformed result)
    else if SFltb (num_of_Z nowEpochSec) expiresAt then mret result
    else
      try_catch (be_terminateInstance backend handle;; mret (rb_count_terminated result))
                (λ err, mret (rb_push_error (ch_id handle) (err_message err) result))
  end.

Fixpoint reap_handles (backend : CloudBackend X) (nowEpochSec : Z)
    (handles : list CloudInstanceHandle) (result : ReaperBackendResult) : M X ReaperBackendResult :=
  match handles with
  | [] => mret result
  | h :: handles' =>
    result' ← reap_handle backend nowEpochSec h result;
    reap_handles backend nowEpochSec handles' result'
  end.

Definition reap_backend (nowEpochSec : Z) (backend : CloudBackend X) : M X ReaperBackendResult :=
  handles ← try_catch (hs ← be_listInstances backend []; mret (inr hs))
                      (λ err, mret (inl (err_message err)));
  match handles with
  | inl listError =>
    mret (mkReaperBackendResult (be_name backend) 0 0 0 0 (Some listError) [])
  | inr hs =>
    reap_handles backend nowEpochSec hs
      (mkReaperBackendResult (be_name backend) (length hs) 0 0 0 None [])
  end.

Definition runOnceInner (backends : list (CloudBackend X)) : M X ReaperRunResult :=
  startedAt ← nowIso;
  now ← nowDate;
  results ← for_collect backends (reap_backend (now / 1000));
  finishedAt ← nowIso;
  mret (mkReaperRunResult startedAt finishedAt results
          (foldr (λ r s, (rb_terminated r + s)%nat) 0%nat results)).
End reaper.
