(* ===== verification/Scheduler.v ===== *)
(** Periodic health checks: control-plane/scheduler/runner.ts.

    The probe invocation is a callback, the class [ProbeInvoker]; the sink for
    scheduler events is [SchedulerSink].  The wake-up loop around the tick is a
    timer and is not modelled. *)

From S2P Require Import Prelude JsTime JsVal Types World Logic StorageCatalog StorageDeploy.
From S2P Require Import StorageOps.

Record ScheduledProbeOutcome := mkScheduledProbeOutcome {
  spo_reachable : bool;
  spo_probes : list (string * HealthStatus);
  spo_deploymentId : option string;
  spo_detail : option string
}.

Inductive SchedulerEvent :=
| SE_health_tick (scheduleId targetId : string) (outcome : ScheduledProbeOutcome) (at_ : string)
| SE_health_failed (scheduleId targetId : string) (outcome : ScheduledProbeOutcome) (at_ : string)
| SE_schedule_error (scheduleId targetId error at_ : string).

(** The callback the scheduler is given: what it may touch. *)
Class ProbeInvoker (X : Type) := {
  invoke : HealthSchedule → M X ScheduledProbeOutcome;
  invoke_ok : ∀ s, preserves (on_db db_ok) (invoke s);
  (** It runs probes and records checks; schedules are not its business. *)
  invoke_schedules : ∀ s l, preserves (on_db (unchanged T_health_schedule l)) (invoke s)
}.

(** Where events go; a sink returns nothing and does not throw. *)
Class SchedulerSink (X : Type) := { emit_event : SchedulerEvent → X → X }.

Section scheduler.
Context {X : Type} `{Oracle} `{JsEngine} `{ProbeInvoker X} `{SchedulerSink X}.

Definition schedule_due (nowMs : Z) (s : HealthSchedule) : bool :=
  match Date_parse legacy_date_parse (hs_lastRunAt s ?? hs_createdAt s) with
  | None => false
  | Some anchorMs => anchorMs + hs_intervalSeconds s * 1000 <=? nowMs
  end.

Definition dueSchedules (schedules : list HealthSchedule) (nowMs : Z) : list HealthSchedule :=
  select (schedule_due nowMs) schedules.

Definition emit (ev : SchedulerEvent) : M X unit := external (λ x, (Ok (), emit_event ev x)).

Definition watermark (nowIso : string) : HealthSchedulePatch :=
  mkHealthSchedulePatch None None None (Some (Some nowIso)).

Definition probe_json (p : string * HealthStatus) : json :=
  JObj [("name", JStr p.1); ("status", JStr (HealthStatus_text p.2))].

(** One due schedule: the body of the [try]. *)
Definition run_schedule (nowIso : string) (schedule : HealthSchedule) : M X unit :=
  outcome ← invoke schedule;
  HealthScheduleRepo_update (hs_id schedule) (watermark nowIso);;
  emit (SE_health_tick (hs_id schedule) (hs_targetId schedule) outcome nowIso);;
  let probeFailed := existsb (λ p, bool_decide (p.2 = HS_fail)) (spo_probes outcome) in
  (if negb (spo_reachable outcome) || probeFailed
   then emit (SE_health_failed (hs_id schedule) (hs_targetId schedule) outcome nowIso) else mret ());;
  AuditLogRepo_append (hs_orgId schedule) "scheduler"
    (if spo_reachable outcome && negb probeFailed then "health.scheduled.pass" else "health.scheduled.fail")
    "health_schedule" (hs_id schedule)
    (Some [("targetId", JStr (hs_targetId schedule)); ("deploymentId", JOptStr (spo_deploymentId outcome));
           ("reachable", JBool (spo_reachable outcome));
           ("probes", JArr (map probe_json (spo_probes outcome)))]);;
  mret ().

(** Its handler: an infrastructure error still advances the watermark. *)
Definition schedule_error (nowIso : string) (schedule : HealthSchedule) (err : Err) : M X unit :=
  try_catch (HealthScheduleRepo_update (hs_id schedule) (watermark nowIso);; mret ()) (λ _, mret ());;
  emit (SE_schedule_error (hs_id schedule) (hs_targetId schedule) (err_message err) nowIso);;
  try_catch
    (AuditLogRepo_append (hs_orgId schedule) "scheduler" "health.scheduled.error" "health_schedule"
       (hs_id schedule) (Some [("error", JStr (err_message err))]);; mret ())
    (λ _, mret ()).

Definition runSchedulerTick : M X nat :=
  nowMs ← nowDate;
  let nowIso := toISOString nowMs in
  active ← HealthScheduleRepo_listActive None;
  let due := dueSchedules active nowMs in
  for_each due (λ schedule, try_catch (run_schedule nowIso schedule) (schedule_error nowIso schedule));;
  mret (length due).
End scheduler.
