(* ===== verification/Events.v ===== *)
(** Webhook events: control-plane/events (types.ts, slack.ts, hmac.ts,
    dispatcher.ts) and the best-effort wrapper of verbs/control-plane.ts.
    The HTTP client, the SMTP transport and HMAC-SHA256 are the platform's and
    come through the class [Platform]. *)

From S2P Require Import Prelude JsTime JsVal Types World Logic StorageCatalog StorageOps.

(** ** Platform *)

Class Platform (X : Type) := {
  (** [fetch(url, {method: "POST", headers, body})]: the response status. *)
  http_fetch : string → list (string * string) → string → X → Res Z * X;
  (** SIGNALMAN_SMTP_URL is set and not empty. *)
  smtp_url_set : bool;
  (** SIGNALMAN_SMTP_FROM. *)
  smtp_from : option string;
  (** nodemailer's sendMail: from, to, subject, text. *)
  smtp_sendMail : string → string → string → string → X → Res unit * X;
  (** createHmac("sha256", secret).update(body).digest("hex"). *)
  hmac_sha256_hex : string → string → string
}.

(** ** Events *)

Inductive SignalmanEvent :=
| EvReleaseBuilt (orgId at_ releaseId productName tag : string) (manifestSha256 : option string)
| EvReleaseDeployed (orgId at_ deploymentId releaseId targetName status : string)
    (healthSummary : option (Z * Z * Z))
| EvDeploymentRolledBack (orgId at_ deploymentId releaseId targetName : string)
| EvHealthFailed (orgId at_ : string) (scheduleId : option string) (targetId : string)
    (deploymentId : option string) (reachable : bool) (probes : list (string * HealthStatus))
| EvPromotionApproved (orgId at_ promotionId : string) (approvalId : option string)
    (policyId releaseId targetName : string)
| EvPromotionRejected (orgId at_ promotionId approvalId policyId releaseId targetName : string)
    (reason : option string).

Definition event_kind (e : SignalmanEvent) : string :=
  match e with
  | EvReleaseBuilt _ _ _ _ _ _ => "release-built"
  | EvReleaseDeployed _ _ _ _ _ _ _ => "release-deployed"
  | EvDeploymentRolledBack _ _ _ _ _ => "deployment-rolled-back"
  | EvHealthFailed _ _ _ _ _ _ _ => "health-failed"
  | EvPromotionApproved _ _ _ _ _ _ _ => "promotion-approved"
  | EvPromotionRejected _ _ _ _ _ _ _ _ => "promotion-rejected"
  end.

Definition event_orgId (e : SignalmanEvent) : string :=
  match e with
  | EvReleaseBuilt o _ _ _ _ _ | EvReleaseDeployed o _ _ _ _ _ _
  | EvDeploymentRolledBack o _ _ _ _ | EvHealthFailed o _ _ _ _ _ _
  | EvPromotionApproved o _ _ _ _ _ _ | EvPromotionRejected o _ _ _ _ _ _ _ => o
  end.

Definition event_at (e : SignalmanEvent) : string :=
  match e with
  | EvReleaseBuilt _ a _ _ _ _ | EvReleaseDeployed _ a _ _ _ _ _
  | EvDeploymentRolledBack _ a _ _ _ | EvHealthFailed _ a _ _ _ _ _
  | EvPromotionApproved _ a _ _ _ _ _ | EvPromotionRejected _ a _ _ _ _ _ _ => a
  end.

(** The event as an object, keys in the order of the literals that build it. *)
Definition event_json (e : SignalmanEvent) : json :=
  JObj ([("kind", JStr (event_kind e)); ("orgId", JStr (event_orgId e)); ("at", JStr (event_at e))]
  ++ match e with
  | EvReleaseBuilt _ _ r p t m =>
    [("releaseId", JStr r); ("productName", JStr p); ("tag", JStr t); ("manifestSha256", JOptStr m)]
  | EvReleaseDeployed _ _ d r t s h =>
    [("deploymentId", JStr d); ("releaseId", JStr r); ("targetName", JStr t); ("status", JStr s)]
    ++ match h with
       | Some (total, pass, fail) =>
         [("healthSummary", JObj [("total", JInt total); ("pass", JInt pass); ("fail", JInt fail)])]
       | None => []
       end
  | EvDeploymentRolledBack _ _ d r t =>
    [("deploymentId", JStr d); ("releaseId", JStr r); ("targetName", JStr t)]
  | EvHealthFailed _ _ s t d b ps =>
    [("scheduleId", JOptStr s); ("targetId", JStr t); ("deploymentId", JOptStr d);
     ("reachable", JBool b);
     ("probes", JArr (map (λ p, JObj [("name", JStr p.1); ("status", JStr (HealthStatus_text p.2))]) ps))]
  | EvPromotionApproved _ _ p a po r t =>
    [("promotionId", JStr p); ("approvalId", JOptStr a); ("policyId", JStr po);
     ("releaseId", JStr r); ("targetName", JStr t)]
  | EvPromotionRejected _ _ p a po r t re =>
    [("promotionId", JStr p); ("approvalId", JStr a); ("policyId", JStr po);
     ("releaseId", JStr r); ("targetName", JStr t); ("reason", JOptStr re)]
  end).

(** ** Slack payloads *)

Definition headerBlock (text : string) : json :=
  JObj [("type", JStr "header");
        ("text", JObj [("type", JStr "plain_text"); ("text", JStr text); ("emoji", JBool false)])].

Definition sectionBlock (fields : list json) : json :=
  JObj [("type", JStr "section"); ("fields", JArr fields)].

Definition contextBlock (text : string) : json :=
  JObj [("type", JStr "context");
        ("elements", JArr [JObj [("type", JStr "mrkdwn"); ("text", JStr text)]])].

Definition mdField (label value : string) : json :=
  JObj [("type", JStr "mrkdwn"); ("text", JStr ("*" +:+ label +:+ "*" +:+ newline +:+ value))].

Definition slack_payload (text : string) (fields : list json) (at_ : string) : json :=
  JObj [("text", JStr text);
        ("blocks", JArr [headerBlock text; sectionBlock fields; contextBlock ("at " +:+ at_)])].

(** [s || d] on strings. *)
Definition or_text (s d : string) : string := if s =?s "" then d else s.

Definition formatEventForSlack (e : SignalmanEvent) : json :=
  match e with
  | EvReleaseBuilt _ a r p t m =>
    slack_payload ("Release built: " +:+ p +:+ "@" +:+ t)
      [mdField "Product" p; mdField "Tag" t; mdField "Release id" r;
       mdField "Manifest sha256" (m ?? "(unsigned)")] a
  | EvReleaseDeployed _ a d r t s h =>
    let summary := match h with
      | Some (total, pass, _) => show_Z pass +:+ "/" +:+ show_Z total +:+ " probes passed"
      | None => "(no health summary)" end in
    slack_payload ("Release deployed → " +:+ t +:+ " (" +:+ s +:+ ")")
      [mdField "Target" t; mdField "Release id" r; mdField "Deployment id" d;
       mdField "Status" s; mdField "Health" summary] a
  | EvDeploymentRolledBack _ a d r t =>
    slack_payload ("Deployment rolled back on " +:+ t)
      [mdField "Target" t; mdField "Deployment id" d; mdField "Release id" r] a
  | EvHealthFailed _ a _ t d b ps =>
    let failed := join ", " (map fst (select (λ p, bool_decide (p.2 = HS_fail)) ps)) in
    slack_payload
      (if b then "Health failed on " +:+ t +:+ ": "
                 +:+ or_text failed "(no failed probes — see detail)"
       else "Target unreachable: " +:+ t)
      [mdField "Target id" t;
       mdField "Deployment id" (d ?? "(none — schedule has no active deployment)");
       mdField "Reachable" (if b then "yes" else "no");
       mdField "Failed probes" (or_text failed "(none)")] a
  | EvPromotionApproved _ a p ap po r t =>
    slack_payload ("Promotion approved → " +:+ t)
      [mdField "Target" t; mdField "Promotion id" p; mdField "Release id" r;
       mdField "Policy id" po; mdField "Approval id" (ap ?? "(auto)")] a
  | EvPromotionRejected _ a p ap _ r t re =>
    slack_payload ("Promotion rejected: " +:+ t)
      [mdField "Target" t; mdField "Promotion id" p; mdField "Release id" r;
       mdField "Approval id" ap; mdField "Reason" (re ?? "(no reason given)")] a
  end.

(** ** Signatures *)

Definition SIGNATURE_PREFIX : string := "sha256=".
Definition SIGNALMAN_SIGNATURE_HEADER : string := "x-signalman-signature".

Section dispatcher.
Context {X : Type} `{Oracle} `{JsEngine} {P : Platform X}.

Definition signBody (secret body : string) : string :=
  SIGNATURE_PREFIX +:+ hmac_sha256_hex secret body.

(** timingSafeEqual compares equal-length buffers byte by byte. *)
Definition verifySignature (secret body signature : string) : bool :=
  let expected := signBody secret body in
  let actual := if starts_with SIGNATURE_PREFIX signature then signature
                else SIGNATURE_PREFIX +:+ signature in
  if negb (String.length expected =? String.length actual)%nat then false
  else expected =?s actual.

(** ** Dispatcher *)

Record DispatchOutcome := mkDispatchOutcome {
  do_subscriptionId : string;
  do_kind : WebhookKind;
  do_delivered : bool;
  do_status : option Z;
  do_error : option string
}.

(** [opts.email]: null, an injected sender, or absent. *)
Inductive EmailOpt :=
| EmailNull
| EmailGiven (send : string → string → string → X → Res unit * X)
| EmailDefault.

Definition subscriptionWantsEvent (sub : WebhookSubscription) (event : SignalmanEvent) : bool :=
  if (length (wh_eventKinds sub) =? 0)%nat then true
  else existsb (λ k, k =?s event_kind event) (wh_eventKinds sub).

Definition DEFAULT_HEADERS : list (string * string) :=
  [("content-type", "application/json; charset=utf-8")].

Definition post_outcome (sub : WebhookSubscription) (label : string) (status : Z) : DispatchOutcome :=
  let ok := (200 <=? status) && (status <? 300) in
  mkDispatchOutcome (wh_id sub) (wh_kind sub) ok (Some status)
    (if ok then None else Some (label +:+ show_Z status)).

Definition deliverGeneric (sub : WebhookSubscription) (event : SignalmanEvent)
    : M X DispatchOutcome :=
  let body := json_stringify (event_json event) in
  let headers := match truthy (wh_secretHmacKey sub) with
    | Some key => DEFAULT_HEADERS ++ [(SIGNALMAN_SIGNATURE_HEADER, signBody key body)]
    | None => DEFAULT_HEADERS end in
  status ← external (http_fetch (wh_url sub) headers body);
  mret (post_outcome sub "non-2xx response: " status).

Definition deliverSlack (sub : WebhookSubscription) (event : SignalmanEvent) : M X DispatchOutcome :=
  let body := json_stringify (formatEventForSlack event) in
  status ← external (http_fetch (wh_url sub) DEFAULT_HEADERS body);
  mret (post_outcome sub "slack non-2xx: " status).

Definition defaultEmailSender (to subject body : string) (x : X) : Res unit * X :=
  if smtp_url_set then smtp_sendMail (smtp_from ?? "signalman@localhost") to subject body x
  else (Ok (), x).

Definition deliverEmail (email : EmailOpt) (sub : WebhookSubscription) (event : SignalmanEvent)
    : M X DispatchOutcome :=
  let to := if starts_with "mailto:" (wh_url sub)
            then String.substring 7 (String.length (wh_url sub) - 7) (wh_url sub) else wh_url sub in
  let subject := "[signalman] " +:+ event_kind event in
  let body := json_pretty "" (event_json event) in
  let outcome ok err := mkDispatchOutcome (wh_id sub) (wh_kind sub) ok None err in
  match email with
  | EmailNull => mret (outcome false (Some "email transport disabled"))
  | EmailGiven send =>
    external (send to subject body);; mret (outcome true None)
  | EmailDefault =>
    external (defaultEmailSender to subject body);;
    mret (if smtp_url_set then outcome true None
          else outcome false (Some "SIGNALMAN_SMTP_URL not set"))
  end.

Definition deliver (email : EmailOpt) (sub : WebhookSubscription) (event : SignalmanEvent)
    : M X DispatchOutcome :=
  try_catch
    (match wh_kind sub with
     | WK_generic => deliverGeneric sub event
     | WK_slack => deliverSlack sub event
     | WK_email => deliverEmail email sub event
     end)
    (λ err, mret (mkDispatchOutcome (wh_id sub) (wh_kind sub) false None (Some (err_message err)))).

Definition audit_delivery (sub : WebhookSubscription) (event : SignalmanEvent)
    (outcome : DispatchOutcome) : M X unit :=
  try_catch
    (AuditLogRepo_append (event_orgId event) "dispatcher"
       (if do_delivered outcome then "webhook.delivered" else "webhook.failed")
       "webhook_subscription" (wh_id sub)
       (Some ([("event", JStr (event_kind event))]
              ++ opt_prop "status" (JInt <$> do_status outcome)
              ++ opt_prop "error" (JStr <$> do_error outcome)));; mret ())
    (λ _, mret ()).

(** [onError] writes to stderr and is not modelled. *)
Definition dispatch (email : EmailOpt) (event : SignalmanEvent) : M X (list DispatchOutcome) :=
  subscriptions ← WebhookSubscriptionRepo_listActive (Some (event_orgId event));
  for_collect (select (λ sub, subscriptionWantsEvent sub event) subscriptions) (λ sub,
    outcome ← deliver email sub event;
    audit_delivery sub event outcome;;
    mret outcome).

Definition fireEventBestEffort (event : SignalmanEvent) : M X (option (list DispatchOutcome)) :=
  try_catch (outcomes ← dispatch EmailDefault event; mret (Some outcomes)) (λ _, mret None).

(** Who may change what: the dispatcher writes only the audit log. *)

Lemma deliver_ok email sub event : preserves (on_db db_ok) (deliver email sub event).
Proof. unfold deliver, deliverGeneric, deliverSlack, deliverEmail. preserve. Qed.

Lemma dispatch_ok email event : preserves (on_db db_ok) (dispatch email event).
Proof.
  pose proof deliver_ok. unfold dispatch, WebhookSubscriptionRepo_listActive, audit_delivery. preserve.
Qed.

Lemma fireEventBestEffort_ok event : preserves (on_db db_ok) (fireEventBestEffort event).
Proof. pose proof dispatch_ok. unfold fireEventBestEffort. preserve. Qed.
End dispatcher.

#[export] Hint Resolve deliver_ok dispatch_ok fireEventBestEffort_ok : preserve.
