(* ===== verification/Promotion.v ===== *)
(** Release promotion: control-plane/promotion/listener.ts and the approval
    verbs of verbs/control-plane.ts.

    A built or deployed release fires the matching policies; a policy opens at
    once ([auto]), on an operator's decision ([manual]), after a delay
    ([time_delay]), or when the source tier has been healthy ([health_gate]).
    The deploy itself is the injected callback [DeployInvoker]: what the
    listener relies on are the laws of that class. *)

From S2P Require Import Prelude JsTime JsVal Types World Logic StorageCatalog StorageDeploy.
From S2P Require Import StorageOps Events.

(** ** Data *)

Inductive DeployOutcome := DO_success | DO_failed.

Definition DeployOutcome_text (o : DeployOutcome) : string :=
  match o with DO_success => "success" | DO_failed => "failed" end.

Record DeployInvocation := mkDeployInvocation {
  di_deploymentId : option string;
  di_outcome : DeployOutcome;
  di_errorMessage : option string
}.

Inductive PromotionAction :=
| PA_auto_deployed | PA_queued_manual | PA_queued_time_delay | PA_queued_health_gate
| PA_duplicate | PA_deploy_failed.

Record PromotionListenerOutcome := mkPromotionListenerOutcome {
  plo_policyId : string;
  plo_approvalId : option string;
  plo_action : PromotionAction;
  plo_detail : option string
}.

(** ** One approval per release and destination *)

Definition ap_live (a : Approval) : bool := is_null (ap_deletedAt a).

Definition ap_pair (a : Approval) : string * string := (ap_releaseId a, ap_destTargetId a).

(** Live approvals are determined by their release and destination. *)
Definition approvals_unique (d : DB) : Prop :=
  ∀ a b, a ∈ db_approval d → b ∈ db_approval d → ap_live a = true → ap_live b = true →
    ap_pair a = ap_pair b → a = b.

(** What promotion promises of the store. *)
Definition promotion_ok (d : DB) : Prop := db_ok d ∧ approvals_unique d.

(** ** The deploy callback *)

Class DeployInvoker (X : Type) := {
  deploy : string → string → Approval → PromotionPolicy → M X DeployInvocation;
  (** A deploy keeps the store consistent ... *)
  deploy_ok : ∀ releaseId destTargetId approval policy,
    preserves (on_db promotion_ok) (deploy releaseId destTargetId approval policy);
  (** ... and decides no approval that is already there: it may only file
      approvals for further tiers. *)
  deploy_approvals : ∀ releaseId destTargetId approval policy w,
    promotion_ok (w_db w) →
    ∃ l, db_approval (w_db (deploy releaseId destTargetId approval policy w).2)
         = db_approval (w_db w) ++ l;
  (** It edits neither policies nor releases. *)
  deploy_policies : ∀ releaseId destTargetId approval policy l,
    preserves (on_db (unchanged T_promotion_policy l))
      (deploy releaseId destTargetId approval policy);
  deploy_releases : ∀ releaseId destTargetId approval policy l,
    preserves (on_db (unchanged T_release l)) (deploy releaseId destTargetId approval policy)
}.

(** ** Reading gate_config *)

Section gates.
Context `{JsEngine}.

Inductive GateAction := GA_auto_deploy | GA_queue_manual | GA_queue_time_delay.

Definition decideGate (policy : PromotionPolicy) : GateAction :=
  match pp_gateKind policy with
  | GK_auto => GA_auto_deploy
  | GK_time_delay => GA_queue_time_delay
  | GK_manual => GA_queue_manual
  end.

(** [!Number.isFinite(n) || n < 1 || !Number.isInteger(n)]. *)
Definition not_positive_integer (n : jsnum) : bool :=
  negb (num_isFinite n) || SFltb n (num_of_Z 1) || negb (num_isInteger n).

Definition readHealthGate (policy : PromotionPolicy) : option PromotionHealthGate :=
  match get_prop "health_gate" (pp_gateConfig policy) with
  | Some (JObj obj) =>
    let min := to_number (get_prop "min_pass_count" obj) in
    let win := to_number (get_prop "window_minutes" obj) in
    if not_positive_integer min then None
    else if not_positive_integer win then None
    else Some (mkPromotionHealthGate (num_floor min) (num_floor win))
  | _ => None
  end.

Inductive GateDecision :=
| GateOpen
| GateClosed (reason : string)
| GateUndefined.   (** [slice[0].at] of an empty slice: a TypeError *)

(** [l.slice(0, n)]. *)
Definition slice0 {A} (n : Z) (l : list A) : list A :=
  if n <? 0 then take (length l - Z.to_nat (- n)) l else take (Z.to_nat n) l.

Definition isHealthGateOpen (recentChecks : list (HealthStatus * string))
    (gate : PromotionHealthGate) (nowMs : Z) : GateDecision :=
  if Z.of_nat (length recentChecks) <? hg_min_pass_count gate then
    GateClosed ("only " +:+ show_Z (Z.of_nat (length recentChecks)) +:+ "/"
                +:+ show_int (hg_min_pass_count gate) +:+ " checks recorded")
  else
    let slice := slice0 (hg_min_pass_count gate) recentChecks in
    match find_first (λ c, negb (bool_decide (c.1 = HS_pass))) slice with
    | Some c => GateClosed ("recent check at " +:+ c.2 +:+ " was " +:+ HealthStatus_text c.1)
    | None =>
      match slice with
      | [] => GateUndefined
      | newest :: _ =>
        match Date_parse legacy_date_parse newest.2 with
        | None => GateClosed ("newest check has unparseable at: " +:+ newest.2)
        | Some newestMs =>
          let windowMs := hg_window_minutes gate * 60 * 1000 in
          if windowMs <? nowMs - newestMs then
            GateClosed ("newest check (" +:+ newest.2 +:+ ") is older than window_minutes="
                        +:+ show_int (hg_window_minutes gate))
          else GateOpen
        end
      end
    end.

Definition approvalsDueForAutoApprove (approvals : list Approval) (nowMs : Z) : list Approval :=
  select (λ a,
    bool_decide (ap_status a = AS_pending) &&
    match truthy (ap_autoApproveAt a) with
    | None => false
    | Some at_ =>
      match Date_parse legacy_date_parse at_ with
      | None => false
      | Some t => t <=? nowMs
      end
    end) approvals.

(** Read the approver allow-list; [Some message] refuses. *)
Definition checkApproverAllowlist (policy : PromotionPolicy) (decidedBy : option string)
    : option string :=
  match get_prop "approvers" (pp_gateConfig policy) with
  | None | Some JNull => None
  | Some (JArr raw) =>
    let approvers := omap (λ v, match v with JStr s => Some s | _ => None end) raw in
    if (length approvers =? 0)%nat then None
    else match truthy decidedBy with
    | None => Some ("promotion policy " +:+ pp_id policy
                    +:+ " requires --decided-by; allowed approvers: " +:+ join ", " approvers)
    | Some by_ =>
      if existsb (λ a, a =?s by_) approvers then None
      else Some ("'" +:+ by_ +:+ "' is not in the approver allow-list for promotion policy "
                 +:+ pp_id policy +:+ ": " +:+ join ", " approvers)
    end
  | Some _ => Some ("promotion policy " +:+ pp_id policy
                +:+ " has malformed gate_config.approvers (expected array of strings)")
  end.
End gates.

(** ** The listener *)

Section listener.
Context {X : Type} `{Oracle} `{JsEngine} `{DeployInvoker X}.

Definition readDelaySeconds (policy : PromotionPolicy) : M X Z :=
  let raw := get_prop "delay_seconds" (pp_gateConfig policy) in
  let n := to_number raw in
  if negb (num_isFinite n) || SFltb n (S754_zero false) then
    throw (EError ("time_delay policy " +:+ pp_id policy +:+ " has invalid delay_seconds: "
             +:+ match raw with Some v => json_stringify v | None => "undefined" end))
  else mret (num_floor n).

(** [new Date(t).toISOString()]. *)
Definition iso_of (t : Z) : M X string :=
  match toISOString_checked t with Some s => mret s | None => throw ERangeError end.

Definition no_patch : ApprovalPatch := mkApprovalPatch None None None None None None None.

Definition markApprovalDecided (approvalId decidedBy decidedAt reason : string) : M X unit :=
  ApprovalRepo_update approvalId
    (mkApprovalPatch None (Some (Some decidedBy)) (Some (Some decidedAt)) (Some (Some reason))
       None None None);; mret ().

Definition attempt_patch (nowIsoStr outcome : string) (deploymentId : option (option string))
    : ApprovalPatch :=
  mkApprovalPatch None None None None (Some (Some nowIsoStr)) (Some (Some outcome)) deploymentId.

Definition dispatchDeploy (policy : PromotionPolicy) (approval : Approval) (release : Release)
    : M X PromotionListenerOutcome :=
  nowIsoStr ← nowIso;
  try_catch
    (result ← deploy (rel_id release) (pp_destTargetId policy) approval policy;
     ApprovalRepo_update (ap_id approval)
       (attempt_patch nowIsoStr (DeployOutcome_text (di_outcome result))
          (Some (di_deploymentId result)));;
     mret (match di_outcome result with
       | DO_failed => mkPromotionListenerOutcome (pp_id policy) (Some (ap_id approval))
           PA_deploy_failed (di_errorMessage result)
       | DO_success => mkPromotionListenerOutcome (pp_id policy) (Some (ap_id approval))
           PA_auto_deployed (Some ("deployment=" +:+ (di_deploymentId result ?? "(none)")))
       end))
    (λ err,
     ApprovalRepo_update (ap_id approval) (attempt_patch nowIsoStr "failed" None);;
     mret (mkPromotionListenerOutcome (pp_id policy) (Some (ap_id approval))
             PA_deploy_failed (Some (err_message err)))).

(** The health gate that applies to a fire of [policy], if any. *)
Definition deferring_health_gate (policy : PromotionPolicy) : option PromotionHealthGate :=
  match readHealthGate policy, truthy (pp_sourceTargetId policy) with
  | Some g, Some _ => if bool_decide (pp_gateKind policy = GK_manual) then None else Some g
  | _, _ => None
  end.

Definition firePolicy (policy : PromotionPolicy) (release : Release) : M X PromotionListenerOutcome :=
  if negb (pp_active policy) then
    mret (mkPromotionListenerOutcome (pp_id policy) None PA_duplicate (Some "inactive policy"))
  else
  existing ← ApprovalRepo_getForReleaseAndTarget (rel_id release) (pp_destTargetId policy);
  match existing with
  | Some e =>
    mret (mkPromotionListenerOutcome (pp_id policy) (Some (ap_id e)) PA_duplicate
      (Some ("existing approval " +:+ ap_id e +:+ " (" +:+ ApprovalStatus_text (ap_status e) +:+ ")")))
  | None =>
    now ← nowDate;
    let nowIsoStr := toISOString now in
    let create status autoApproveAt gated :=
      ApprovalRepo_create (pp_orgId policy) (pp_id policy) (rel_id release) (pp_destTargetId policy)
        status autoApproveAt gated in
    match deferring_health_gate policy with
    | Some g =>
      autoApproveAt ← (if bool_decide (pp_gateKind policy = GK_time_delay)
        then delay ← readDelaySeconds policy; s ← iso_of (now + delay * 1000); mret (Some s)
        else mret None);
      approval ← create AS_pending autoApproveAt (Some true);
      mret (mkPromotionListenerOutcome (pp_id policy) (Some (ap_id approval)) PA_queued_health_gate
        (Some ("min_pass_count=" +:+ show_int (hg_min_pass_count g)
               +:+ " window_minutes=" +:+ show_int (hg_window_minutes g)
               +:+ match autoApproveAt with Some s => " auto_approve_at=" +:+ s | None => "" end)))
    | None =>
      match pp_gateKind policy with
      | GK_auto =>
        approval ← create AS_auto_approved None None;
        markApprovalDecided (ap_id approval) "system" nowIsoStr "gate_kind=auto";;
        fresh ← ApprovalRepo_get (ap_id approval);
        match fresh with
        | None => throw (EError ("approval " +:+ ap_id approval +:+ " vanished mid-fire"))
        | Some f => dispatchDeploy policy f release
        end
      | GK_time_delay =>
        delaySeconds ← readDelaySeconds policy;
        autoApproveAt ← iso_of (now + delaySeconds * 1000);
        approval ← create AS_pending (Some autoApproveAt) None;
        mret (mkPromotionListenerOutcome (pp_id policy) (Some (ap_id approval)) PA_queued_time_delay
          (Some ("auto_approve_at=" +:+ autoApproveAt)))
      | GK_manual =>
        approval ← create AS_pending None None;
        mret (mkPromotionListenerOutcome (pp_id policy) (Some (ap_id approval)) PA_queued_manual None)
      end
    end
  end.

Definition onReleaseBuilt (release : Release) : M X (list PromotionListenerOutcome) :=
  matching ← PromotionPolicyRepo_listMatchingForProduct (rel_productId release) None;
  for_collect matching (λ policy, firePolicy policy release).

Definition onReleaseDeployed (release : Release) (sourceTargetId : string)
    : M X (list PromotionListenerOutcome) :=
  matching ← PromotionPolicyRepo_listMatchingForProduct (rel_productId release) (Some sourceTargetId);
  for_collect matching (λ policy, firePolicy policy release).

(** ** The tick *)

Definition decide_patch (status : ApprovalStatus) (decidedBy nowIsoStr : string)
    (reason : option string) : ApprovalPatch :=
  mkApprovalPatch (Some status) (Some (Some decidedBy)) (Some (Some nowIsoStr)) (Some reason)
    None None None.

(** Flip a pending approval and deploy: the tail of both loops. *)
Definition open_gate (policy : PromotionPolicy) (release : Release) (approval : Approval)
    (nowIsoStr reason : string) : M X bool :=
  ApprovalRepo_update (ap_id approval) (decide_patch AS_auto_approved "system" nowIsoStr (Some reason));;
  fresh ← ApprovalRepo_get (ap_id approval);
  match fresh with
  | None => mret false
  | Some f => dispatchDeploy policy f release;; mret true
  end.

(** Body of the first loop: an approval whose delay has elapsed. *)
Definition tick_time_delay (nowIsoStr : string) (approval : Approval) : M X bool :=
  if ap_requiresHealthGate approval then mret false else
  policy ← PromotionPolicyRepo_get (ap_policyId approval);
  match policy with
  | None => mret false
  | Some policy =>
    release ← ReleaseRepo_get (ap_releaseId approval);
    match release with
    | None => mret false
    | Some release => open_gate policy release approval nowIsoStr "gate_kind=time_delay elapsed"
    end
  end.

(** [approval.autoApproveAt && Date.parse(approval.autoApproveAt) > nowMs]. *)
Definition delay_pending (approval : Approval) (nowMs : Z) : bool :=
  match truthy (ap_autoApproveAt approval) with
  | None => false
  | Some at_ =>
    match Date_parse legacy_date_parse at_ with Some t => nowMs <? t | None => false end
  end.

(** Body of the second loop: an approval that waits for its source tier. *)
Definition tick_health_gated (nowMs : Z) (nowIsoStr : string) (approval : Approval) : M X bool :=
  policy ← PromotionPolicyRepo_get (ap_policyId approval);
  match policy with
  | None => mret false
  | Some policy =>
    match truthy (pp_sourceTargetId policy), readHealthGate policy with
    | Some source, Some gate =>
      if delay_pending approval nowMs then mret false else
      release ← ReleaseRepo_get (ap_releaseId approval);
      match release with
      | None => mret false
      | Some release =>
        sourceDeployment ← DeploymentRepo_getActiveForTarget source;
        match sourceDeployment with
        | None => mret false
        | Some dep =>
          if negb (dep_releaseId dep =?s rel_id release) then mret false else
          recent ← HealthCheckRepo_listForDeployment (dep_id dep) None (Some (hg_min_pass_count gate));
          match isHealthGateOpen (map (λ c, (hc_status c, hc_checkedAt c)) recent) gate nowMs with
          | GateOpen => open_gate policy release approval nowIsoStr
              ("health_gate opened (min_pass_count=" +:+ show_int (hg_min_pass_count gate)
               +:+ " window_minutes=" +:+ show_int (hg_window_minutes gate) +:+ ")")
          | GateClosed _ => mret false
          | GateUndefined => throw (EError "Cannot read properties of undefined (reading 'at')")
          end
        end
      end
    | _, _ => mret false
    end
  end.

Definition runPromotionTick : M X nat :=
  now ← nowDate;
  let nowIsoStr := toISOString now in
  due ← ApprovalRepo_listPendingAutoApprove nowIsoStr;
  n1 ← for_count due (tick_time_delay nowIsoStr);
  healthGated ← ApprovalRepo_listPendingHealthGated;
  n2 ← for_count healthGated (tick_health_gated now nowIsoStr);
  mret (n1 + n2)%nat.
End listener.

(** ** Operator decisions *)

Section verbs.
Context {X : Type} `{Oracle} `{JsEngine} {P : Platform X} `{DeployInvoker X}.

(** The [{ reason: input.reason }] detail of the audit rows. *)
Definition reason_detail (reason : option string) : option json_object :=
  Some (opt_prop "reason" (JStr <$> reason)).

Definition runPromotionApprove (id : string) (decidedBy reason : option string)
    : M X (Approval * option string * DeployOutcome) :=
  existing ← ApprovalRepo_get id;
  match existing with
  | None => throw (EError ("approval not found: " +:+ id))
  | Some e =>
    if negb (bool_decide (ap_status e = AS_pending)) then
      throw (EError ("approval " +:+ id +:+ " is " +:+ ApprovalStatus_text (ap_status e)
                     +:+ ", not pending — refusing to re-approve"))
    else
    policy ← PromotionPolicyRepo_get (ap_policyId e);
    match policy with
    | None => throw (EError ("approval references missing policy " +:+ ap_policyId e))
    | Some policy =>
      release ← ReleaseRepo_get (ap_releaseId e);
      match release with
      | None => throw (EError ("approval references missing release " +:+ ap_releaseId e))
      | Some release =>
        match truthy (checkApproverAllowlist policy decidedBy) with
        | Some msg => throw (EError msg)
        | None =>
          nowIsoStr ← nowIso;
          ApprovalRepo_update (ap_id e)
            (decide_patch AS_approved (decidedBy ?? "cli") nowIsoStr reason);;
          AuditLogRepo_append (ap_orgId e) (decidedBy ?? "cli") "approval.approved" "approval"
            (ap_id e) (reason_detail reason);;
          target ← TargetRepo_get (ap_destTargetId e);
          fireEventBestEffort (EvPromotionApproved (ap_orgId e) nowIsoStr (ap_id e)
            (Some (ap_id e)) (pp_id policy) (rel_id release)
            ((tg_name <$> target) ?? ap_destTargetId e));;
          fresh ← ApprovalRepo_get (ap_id e);
          match fresh with
          | None => throw (EError ("approval " +:+ ap_id e +:+ " vanished after approval"))
          | Some f =>
            invocation ← deploy (rel_id release) (ap_destTargetId e) f policy;
            updated ← ApprovalRepo_update (ap_id e)
              (attempt_patch nowIsoStr (DeployOutcome_text (di_outcome invocation))
                 (Some (di_deploymentId invocation)));
            mret (updated, di_deploymentId invocation, di_outcome invocation)
          end
        end
      end
    end
  end.

Definition runPromotionReject (id : string) (decidedBy reason : option string) : M X Approval :=
  existing ← ApprovalRepo_get id;
  match existing with
  | None => throw (EError ("approval not found: " +:+ id))
  | Some e =>
    if negb (bool_decide (ap_status e = AS_pending)) then
      throw (EError ("approval " +:+ id +:+ " is " +:+ ApprovalStatus_text (ap_status e)
                     +:+ ", not pending — refusing to re-reject"))
    else
    policy ← PromotionPolicyRepo_get (ap_policyId e);
    match policy with
    | None => throw (EError ("approval references missing policy " +:+ ap_policyId e))
    | Some policy =>
      nowIsoStr ← nowIso;
      updated ← ApprovalRepo_update (ap_id e)
        (decide_patch AS_rejected (decidedBy ?? "cli") nowIsoStr reason);
      AuditLogRepo_append (ap_orgId e) (decidedBy ?? "cli") "approval.rejected" "approval"
        (ap_id e) (reason_detail reason);;
      target ← TargetRepo_get (ap_destTargetId e);
      fireEventBestEffort (EvPromotionRejected (ap_orgId e) nowIsoStr (ap_id e) (ap_id e)
        (pp_id policy) (ap_releaseId e) ((tg_name <$> target) ?? ap_destTargetId e) reason);;
      mret updated
    end
  end.
End verbs.

(** ** Lemmas: what the operations do to the approval table *)

Section approvals.
Context {X : Type} `{Oracle}.

Lemma approvals_pkey d a b :
  db_ok d → a ∈ db_approval d → b ∈ db_approval d → ap_id a = ap_id b → a = b.
Proof.
  intros Hd Ha Hb E. apply (table_ok_pkey_unique T_approval d); [apply Hd|done|done|].
  simpl. by rewrite E.
Qed.

Lemma approval_find d e :
  db_ok d → e ∈ db_approval d → ap_live e = true →
  find_first (λ r, (ap_id r =?s ap_id e) && is_null (ap_deletedAt r)) (db_approval d) = Some e.
Proof.
  intros Hd He Hl. apply find_first_unique; [done| |].
  - by rewrite bool_decide_eq_true_2.
  - intros y Hy Hp. bool_hyps. by eapply approvals_pkey.
Qed.

Lemma ApprovalRepo_get_inv id (w : World X) :
  ∃ o, ApprovalRepo_get id w = (Ok o, w) ∧
    ∀ e, o = Some e → e ∈ db_approval (w_db w) ∧ ap_id e = id ∧ ap_live e = true.
Proof.
  eexists. split; [done|]. intros e He. apply find_first_Some in He as [? Hp]. by bool_hyps.
Qed.

(** The world after an UPDATE of the row [e]. *)
Definition approval_updated (patch : ApprovalPatch) (e : Approval) (w : World X) : World X :=
  mkWorld (tset T_approval
      (update_where (λ r, ap_id r =?s ap_id e)
         (approval_set patch e (toISOString (clock (w_clock w)))) (db_approval (w_db w))) (w_db w))
    (S (w_clock w)) (w_ids w) (w_ext w).

(** Under [promotion_ok] an UPDATE of a live approval always succeeds. *)
Lemma ApprovalRepo_update_run patch e (w : World X) :
  promotion_ok (w_db w) → e ∈ db_approval (w_db w) → ap_live e = true →
  ApprovalRepo_update (ap_id e) patch w =
    (Ok (without_health_gate (approval_set patch e (toISOString (clock (w_clock w))) e)),
     approval_updated patch e w).
Proof.
  intros [Hd Hu] He Hl. unfold ApprovalRepo_update, ApprovalRepo_get.
  erewrite bind_ok; [|unfold read; rewrite approval_find by done; done]. cbv beta iota.
  erewrite bind_ok; [|done]. cbv beta.
  erewrite bind_ok; [|eapply (db_update_one T_approval _ _ e); simpl; try done].
  - done.
  - by rewrite bool_decide_eq_true_2.
  - intros r _. rewrite bool_decide_eq_true. split; [by intros ->|congruence].
  - by apply (Hd T_approval).
  - intros r k Hr Hp Ek Er.
    apply bool_decide_eq_false in Hp. apply Hp. f_equal. apply Hu; [done|done| |done|].
    + unfold ap_live. by destruct (ap_deletedAt r).
    + unfold ap_live in Hl. destruct (ap_deletedAt e); [done|].
      destruct (ap_deletedAt r); [done|].
      repeat case_match; simplify_eq; unfold ap_pair; congruence.
Qed.

Lemma approvals_unique_map (f : Approval → Approval) d :
  (∀ r, ap_id (f r) = ap_id r ∧ ap_pair (f r) = ap_pair r ∧ ap_live (f r) = ap_live r) →
  approvals_unique d → approvals_unique (tset T_approval (map f (db_approval d)) d).
Proof.
  intros Hf Hu a b Ha Hb. simpl in *.
  apply list_elem_of_fmap in Ha as (a' & -> & Ha), Hb as (b' & -> & Hb).
  destruct (Hf a') as (_ & -> & ->), (Hf b') as (_ & -> & ->). intros La Lb E.
  by rewrite (Hu a' b').
Qed.

Lemma approvals_unique_update patch e now d p :
  approvals_unique d →
  approvals_unique (tset T_approval (update_where p (approval_set patch e now) (db_approval d)) d).
Proof. apply approvals_unique_map. intros r. by destruct (p r). Qed.

Lemma ApprovalRepo_update_promotion id patch :
  preserves (on_db promotion_ok) (ApprovalRepo_update (X:=X) id patch).
Proof.
  intros w Hw. destruct (ApprovalRepo_get_inv id w) as ([e|] & Eg & Ho).
  - destruct (Ho e eq_refl) as (He & Hid & Hl). subst id.
    pose proof (ApprovalRepo_update_ok (X:=X) (ap_id e) patch w (proj1 Hw)) as Hok.
    rewrite ApprovalRepo_update_run in * by done. split; [done|].
    apply approvals_unique_update, Hw.
  - unfold ApprovalRepo_update. by rewrite (bind_ok _ _ _ _ _ Eg).
Qed.

(** An UPDATE leaves every row with another id as it is. *)
Lemma ApprovalRepo_update_keeps a id patch :
  ap_id a ≠ id → preserves (on_db (λ d, a ∈ db_approval d)) (ApprovalRepo_update (X:=X) id patch).
Proof.
  intros Hne w Hw. destruct (ApprovalRepo_get_inv id w) as ([e|] & Eg & Ho).
  - destruct (Ho e eq_refl) as (He & Hid & Hl). subst id.
    unfold ApprovalRepo_update. rewrite (bind_ok _ _ _ _ _ Eg). cbv beta iota.
    apply (preserves_bind (on_db (λ d, a ∈ db_approval d))); [by intros ?| |done].
    intros now. apply preserves_bind; [|intros; apply preserves_ret].
    apply preserves_try; [|intros; apply preserves_mapSqliteError].
    clear w Hw Eg Ho He Hl. intros w Hw. unfold db_update_raw.
    destruct (sql_update _ _ _ _) as [|[d n]] eqn:E; [done|].
    apply sql_update_inv in E as [-> _]. unfold on_db. simpl.
    apply update_where_elem. right. split; [done|]. by apply bool_decide_eq_false.
  - unfold ApprovalRepo_update. by rewrite (bind_ok _ _ _ _ _ Eg).
Qed.
End approvals.

Section fire.
Context {X : Type} `{Oracle} `{JsEngine} `{DeployInvoker X}.

Lemma deploy_keeps_approval r t a p b (w : World X) :
  promotion_ok (w_db w) → b ∈ db_approval (w_db w) → b ∈ db_approval (w_db (deploy r t a p w).2).
Proof.
  intros Hw Hb. destruct (deploy_approvals r t a p w Hw) as [l ->]. apply elem_of_app. by left.
Qed.

(** The clock read once. *)
Definition ticked (w : World X) : World X :=
  mkWorld (w_db w) (S (w_clock w)) (w_ids w) (w_ext w).

(** [dispatchDeploy] never throws: whatever the deploy does, its outcome ends
    up on the approval. *)
Lemma dispatchDeploy_run policy f release (w : World X) :
  promotion_ok (w_db w) → f ∈ db_approval (w_db w) → ap_live f = true →
  dispatchDeploy policy f release w =
  let nowIsoStr := toISOString (clock (w_clock w)) in
  match deploy (rel_id release) (pp_destTargetId policy) f policy (ticked w) with
  | (Ok r, w1) =>
    (Ok (match di_outcome r with
       | DO_failed => mkPromotionListenerOutcome (pp_id policy) (Some (ap_id f))
           PA_deploy_failed (di_errorMessage r)
       | DO_success => mkPromotionListenerOutcome (pp_id policy) (Some (ap_id f))
           PA_auto_deployed (Some ("deployment=" +:+ (di_deploymentId r ?? "(none)")))
       end),
     approval_updated (attempt_patch nowIsoStr (DeployOutcome_text (di_outcome r))
                         (Some (di_deploymentId r))) f w1)
  | (Throw e, w1) =>
    (Ok (mkPromotionListenerOutcome (pp_id policy) (Some (ap_id f)) PA_deploy_failed
           (Some (err_message e))),
     approval_updated (attempt_patch nowIsoStr "failed" None) f w1)
  end.
Proof.
  intros Hw Hf Hl. unfold dispatchDeploy. erewrite bind_ok; [|done]. cbv beta zeta.
  change (mkWorld (w_db w) (S (w_clock w)) (w_ids w) (w_ext w)) with (ticked w).
  pose proof (deploy_ok (rel_id release) (pp_destTargetId policy) f policy (ticked w) Hw) as Hok.
  pose proof (deploy_keeps_approval (rel_id release) (pp_destTargetId policy) f policy f
                (ticked w) Hw Hf) as Hin.
  unfold try_catch. rewrite bind_eq.
  destruct (deploy _ _ _ _ _) as [[r|e] w1]; simpl in Hok, Hin.
  - rewrite bind_eq, ApprovalRepo_update_run by done. by destruct (di_outcome r).
  - by rewrite bind_eq, ApprovalRepo_update_run by done.
Qed.

(** Invariants that a deploy and a decision on another approval keep. *)
Definition keeps (a : Approval) (d : DB) : Prop := promotion_ok d ∧ a ∈ db_approval d.

Lemma update_keeps a id patch :
  ap_id a ≠ id → preserves (X:=X) (on_db (keeps a)) (ApprovalRepo_update id patch).
Proof.
  intros Hne. apply (preserves_and promotion_ok (λ d, a ∈ db_approval d));
    [apply ApprovalRepo_update_promotion|].
  by apply ApprovalRepo_update_keeps.
Qed.

Lemma deploy_keeps a r t b p : preserves (X:=X) (on_db (keeps a)) (deploy r t b p).
Proof. intros w [Hw Ha]. split; [by apply deploy_ok|by apply deploy_keeps_approval]. Qed.

Lemma dispatchDeploy_keeps a policy f release :
  ap_id a ≠ ap_id f → preserves (X:=X) (on_db (keeps a)) (dispatchDeploy policy f release).
Proof.
  intros Hne. unfold dispatchDeploy. pose proof (update_keeps a (ap_id f)).
  pose proof (deploy_keeps a). preserve.
Qed.

Lemma dispatchDeploy_promotion policy f release :
  preserves (X:=X) (on_db promotion_ok) (dispatchDeploy policy f release).
Proof.
  pose proof (ApprovalRepo_update_promotion (X:=X)). pose proof (deploy_ok (X:=X)).
  unfold dispatchDeploy. preserve.
Qed.

(** No live approval for the pair yet. *)
Definition no_approval (releaseId destTargetId : string) (d : DB) : Prop :=
  ∀ a, a ∈ db_approval d → ap_live a = true → ap_pair a ≠ (releaseId, destTargetId).

Lemma getForReleaseAndTarget_None r t (w : World X) :
  ApprovalRepo_getForReleaseAndTarget r t w = (Ok None, w) → no_approval r t (w_db w).
Proof.
  unfold ApprovalRepo_getForReleaseAndTarget, read. intros [= E] a Ha Hl Ep.
  destruct (order_desc _ _) as [|x l] eqn:Eo; [|done].
  apply order_by_nil in Eo. eapply (not_elem_of_nil a). rewrite <- Eo.
  apply select_elem. split; [done|]. unfold ap_pair in Ep. simplify_eq.
  unfold ap_live in Hl. rewrite Hl. by rewrite !bool_decide_eq_true_2.
Qed.

Lemma getForReleaseAndTarget_Some r t (w : World X) e :
  promotion_ok (w_db w) → e ∈ db_approval (w_db w) → ap_live e = true → ap_pair e = (r, t) →
  ApprovalRepo_getForReleaseAndTarget r t w = (Ok (Some e), w).
Proof.
  intros [Hd Hu] He Hl Ep. unfold ApprovalRepo_getForReleaseAndTarget, read. do 2 f_equal.
  destruct (order_desc _ _) as [|x l] eqn:Eo.
  - apply order_by_nil in Eo. exfalso. eapply (not_elem_of_nil e). rewrite <- Eo.
    apply select_elem. split; [done|]. unfold ap_pair in Ep. simplify_eq.
    unfold ap_live in Hl. rewrite Hl. by rewrite !bool_decide_eq_true_2.
  - simpl. f_equal. assert (Hx : x ∈ x :: l) by left. rewrite <- Eo, order_desc_elem in Hx.
    apply select_elem in Hx as [Hx Hp]. bool_hyps. apply Hu; try done.
    rewrite Ep. unfold ap_pair. congruence.
Qed.

Lemma ApprovalRepo_create_promotion o p r t s at_ g (w : World X) :
  promotion_ok (w_db w) → no_approval r t (w_db w) →
  promotion_ok (w_db (ApprovalRepo_create o p r t s at_ g w).2).
Proof.
  intros Hw Hn. pose proof (ApprovalRepo_create_ok o p r t s at_ g w (proj1 Hw)) as Hok.
  split; [done|]. clear Hok. unfold ApprovalRepo_create.
  erewrite bind_ok; [|done]. cbv beta. erewrite bind_ok; [|done]. cbv beta zeta.
  rewrite bind_eq. destruct (db_insert _ _ _) as [[[]|e] w1] eqn:E.
  - apply db_insert_inv in E as [-> _]. simpl. intros a b Ha Hb La Lb Ep. simpl in *.
    rewrite elem_of_app, list_elem_of_singleton in Ha, Hb.
    destruct Ha as [Ha| ->], Hb as [Hb| ->]; [by apply Hw| | |done]; exfalso.
    + by apply (Hn a).
    + by apply (Hn b).
  - apply db_insert_throw in E as [-> _]. apply Hw.
Qed.

Lemma readDelaySeconds_const policy (w : World X) : (readDelaySeconds policy w).2 = w.
Proof. unfold readDelaySeconds. by case_match. Qed.

Lemma iso_of_const t (w : World X) : (iso_of t w).2 = w.
Proof. unfold iso_of. by case_match. Qed.

Lemma firePolicy_promotion policy release :
  preserves (X:=X) (on_db promotion_ok) (firePolicy policy release).
Proof.
  pose proof (ApprovalRepo_update_promotion (X:=X)) as Hup.
  pose proof dispatchDeploy_promotion as Hdd.
  intros w Hw. unfold firePolicy. case_match; [done|].
  destruct (ApprovalRepo_getForReleaseAndTarget (rel_id release) (pp_destTargetId policy) w)
    as [[[e|]|] w0] eqn:Eg; try discriminate; assert (w0 = w) as -> by (by injection Eg);
    rewrite (bind_ok _ _ _ _ _ Eg); [done|].
  apply getForReleaseAndTarget_None in Eg as Hn. cbv beta iota.
  erewrite bind_ok; [|done]. cbv beta zeta.
  set (w1 := mkWorld _ _ _ _). generalize (clock (w_clock w)). intros now.
  assert (Hw1 : on_db promotion_ok w1) by done.
  assert (Hn1 : no_approval (rel_id release) (pp_destTargetId policy) (w_db w1)) by done.
  clearbody w1. clear w Hw Eg Hn.
  pose proof (λ o p s at_ g, ApprovalRepo_create_promotion o p _ _ s at_ g w1 Hw1 Hn1) as Hcr.
  destruct (deferring_health_gate policy) as [g|].
  - apply post_bind_const; [|done|intros; apply post_bind; [apply Hcr|preserve]].
    case_match; [|done]. rewrite bind_eq. pose proof (readDelaySeconds_const policy w1) as E.
    destruct (readDelaySeconds policy w1) as [[]]; simpl in E; subst; [|done].
    unfold iso_of. by case_match.
  - destruct (pp_gateKind policy).
    + apply post_bind; [apply Hcr|]. intros. unfold markApprovalDecided, ApprovalRepo_get. preserve.
    + apply post_bind; [apply Hcr|]. preserve.
    + apply post_bind_const; [apply readDelaySeconds_const|done|]. intros.
      apply post_bind_const; [apply iso_of_const|done|]. intros.
      apply post_bind; [apply Hcr|]. preserve.
Qed.
End fire.

(** ** Lemmas: gates *)

Section gate_lemmas.
Context `{JsEngine}.

Lemma not_positive_integer_false n : not_positive_integer n = false → 1 ≤ num_floor n.
Proof.
  unfold not_positive_integer. rewrite !orb_false_iff, !negb_false_iff.
  intros [[_ ?] ?]. by apply num_floor_positive.
Qed.

Lemma readHealthGate_positive policy g :
  readHealthGate policy = Some g → 1 ≤ hg_min_pass_count g ∧ 1 ≤ hg_window_minutes g.
Proof.
  unfold readHealthGate. repeat case_match; intros; simplify_eq.
  split; by apply not_positive_integer_false.
Qed.

Lemma slice0_pos {A} n (x : A) l : 1 ≤ n → ∃ l', slice0 n (x :: l) = x :: l'.
Proof.
  intros. unfold slice0. destruct (Z.ltb_spec n 0); [lia|].
  destruct (Z.to_nat n) eqn:E; [lia|]. simpl. eauto.
Qed.

Lemma isHealthGateOpen_defined l g now :
  1 ≤ hg_min_pass_count g → isHealthGateOpen l g now ≠ GateUndefined.
Proof.
  intros Hg. unfold isHealthGateOpen. case_match eqn:El; [done|]. apply Z.ltb_ge in El.
  destruct l as [|x l]; [simpl in *; lia|].
  destruct (slice0_pos (hg_min_pass_count g) x l Hg) as [l' ->]. repeat case_match; done.
Qed.
End gate_lemmas.

(** ** Lemmas: the tick *)

Section tick.
Context {X : Type} `{Oracle} `{JsEngine} `{DeployInvoker X}.

(** An approval that was opened by the system and whose deploy was attempted. *)
Definition fired (a : Approval) : Prop :=
  ap_status a = AS_auto_approved ∧ is_Some (ap_deployAttemptedAt a) ∧ is_Some (ap_deployOutcome a).

Lemma approval_updated_new patch e (w : World X) :
  e ∈ db_approval (w_db w) →
  approval_set patch e (toISOString (clock (w_clock w))) e
    ∈ db_approval (w_db (approval_updated patch e w)).
Proof.
  intros He. simpl. apply update_where_elem. left. exists e. by rewrite bool_decide_eq_true_2.
Qed.

Lemma dispatchDeploy_fires policy f release (w : World X) :
  promotion_ok (w_db w) → f ∈ db_approval (w_db w) → ap_live f = true →
  ap_status f = AS_auto_approved →
  ∃ o w' f', dispatchDeploy policy f release w = (Ok o, w') ∧
    f' ∈ db_approval (w_db w') ∧ ap_id f' = ap_id f ∧ fired f'.
Proof.
  intros Hw Hf Hl Hs. rewrite dispatchDeploy_run by done. cbv zeta.
  pose proof (deploy_keeps_approval (rel_id release) (pp_destTargetId policy) f policy f
                (ticked w) Hw Hf) as Hin.
  destruct (deploy _ _ _ _ _) as [[r|e] w1]; simpl in Hin;
    (do 3 eexists; split; [done|]; split; [by apply approval_updated_new|]);
    (split; [done|]; split; [done|]; split; by eexists).
Qed.

Lemma open_gate_run policy release a s reason (w : World X) :
  promotion_ok (w_db w) → a ∈ db_approval (w_db w) → ap_live a = true →
  ∃ w' a', open_gate policy release a s reason w = (Ok true, w') ∧
    a' ∈ db_approval (w_db w') ∧ ap_id a' = ap_id a ∧ fired a'.
Proof.
  intros Hw Ha Hl. unfold open_gate.
  pose proof (ApprovalRepo_update_promotion (X:=X) (ap_id a)
    (decide_patch AS_auto_approved "system" s (Some reason)) w Hw) as Hw1.
  rewrite bind_eq. rewrite ApprovalRepo_update_run in * by done.
  set (w1 := approval_updated _ _ _) in *.
  pose proof (approval_updated_new (decide_patch AS_auto_approved "system" s (Some reason)) a w Ha)
    as Hin. fold w1 in Hin. cbn [snd] in Hw1.
  set (a1 := approval_set _ _ _ _) in *.
  assert (Eg : ApprovalRepo_get (ap_id a) w1 = (Ok (Some a1), w1)).
  { unfold ApprovalRepo_get, read. do 2 f_equal. by apply (approval_find (w_db w1) a1 (proj1 Hw1)). }
  rewrite (bind_ok _ _ _ _ _ Eg). cbv beta iota.
  destruct (dispatchDeploy_fires policy a1 release w1) as (o & w' & a' & E & ? & ? & ?); try done.
  rewrite (bind_ok _ _ _ _ _ E). eauto 10.
Qed.

Lemma ApprovalRepo_get_keeps I id : preserves (X:=X) (on_db I) (ApprovalRepo_get id).
Proof. by intros w. Qed.

Lemma open_gate_keeps c policy release a s reason :
  ap_id c ≠ ap_id a → preserves (X:=X) (on_db (keeps c)) (open_gate policy release a s reason).
Proof.
  intros Hne w Hw. unfold open_gate. apply post_bind; [by apply update_keeps|]. intros _ w1 Hw1.
  destruct (ApprovalRepo_get_inv (ap_id a) w1) as ([f|] & Eg & Ho);
    rewrite (bind_ok _ _ _ _ _ Eg); [|done].
  destruct (Ho f eq_refl) as (_ & Hid & _). cbv beta iota.
  apply post_bind; [|intros; apply preserves_ret].
  apply dispatchDeploy_keeps; [congruence|done].
Qed.

Lemma open_gate_unchanged (T : table) (l : list (row_of T)) policy release a s reason :
  T ≠ T_approval →
  (∀ r t b p, preserves (X:=X) (on_db (unchanged T l)) (deploy r t b p)) →
  preserves (X:=X) (on_db (unchanged T l)) (open_gate policy release a s reason).
Proof.
  intros HT Hd.
  assert (Hu : ∀ id p, preserves (X:=X) (on_db (unchanged T l)) (ApprovalRepo_update id p)).
  { assert (Hdb : ∀ p f, preserves (X:=X) (on_db (unchanged T l)) (db_update T_approval p f)).
    { intros. apply preserves_update_indep, unchanged_indep. congruence. }
    intros id p. unfold ApprovalRepo_update, ApprovalRepo_get. preserve. }
  pose proof (ApprovalRepo_get_keeps (unchanged T l)) as Hg.
  unfold open_gate, dispatchDeploy. preserve.
Qed.

(** The state both loops of the tick run in. *)
Definition tick_inv (pol : list PromotionPolicy) (rel : list Release) (d : DB) : Prop :=
  promotion_ok d ∧ unchanged T_promotion_policy pol d ∧ unchanged T_release rel d.

(** What one turn of a loop guarantees: it returns, it touches at most the row
    it is about and not even that when it [skips] it, and it fires the row when
    it is [enabled]. *)
Definition turn_ok pol rel (skips enabled : Approval → Prop) (body : Approval → M X bool)
    (a : Approval) : Prop :=
  ∀ w, tick_inv pol rel (w_db w) → a ∈ db_approval (w_db w) → ap_live a = true →
  ∃ b w', body a w = (Ok b, w') ∧ tick_inv pol rel (w_db w') ∧
    (∀ c, c ∈ db_approval (w_db w) → (ap_id a = ap_id c → skips a) → c ∈ db_approval (w_db w')) ∧
    (enabled a → ∃ a', a' ∈ db_approval (w_db w') ∧ ap_id a' = ap_id a ∧ fired a').

Lemma turn_ok_skip pol rel (skips enabled : Approval → Prop) body a :
  (∀ w, tick_inv pol rel (w_db w) → body a w = (Ok false, w)) → ¬ enabled a →
  turn_ok pol rel skips enabled body a.
Proof. intros Hb He w Hw Ha Hl. exists false, w. rewrite Hb by done. naive_solver. Qed.

Lemma turn_open_gate pol rel (skips enabled : Approval → Prop) policy release a s reason :
  ¬ skips a → turn_ok pol rel skips enabled (λ a, open_gate policy release a s reason) a.
Proof.
  intros Hsk w (Hw & Hp & Hr) Ha Hl.
  destruct (open_gate_run policy release a s reason w) as (w' & a' & E & Ha' & Hid & Hf); try done.
  assert (Ew : w' = (open_gate policy release a s reason w).2) by (by rewrite E).
  exists true, w'. split; [done|]. split; [split_and!|split].
  - rewrite Ew.
    assert (Hpp : preserves (X:=X) (on_db promotion_ok) (open_gate policy release a s reason)).
    { pose proof (ApprovalRepo_update_promotion (X:=X)). pose proof dispatchDeploy_promotion.
      pose proof (ApprovalRepo_get_keeps promotion_ok). unfold open_gate. preserve. }
    by apply Hpp.
  - rewrite Ew. by apply (open_gate_unchanged T_promotion_policy); [done|intros; apply deploy_policies|].
  - rewrite Ew. by apply (open_gate_unchanged T_release); [done|intros; apply deploy_releases|].
  - intros c Hc Hne. rewrite Ew. apply (open_gate_keeps c); [|done].
    intros Hid'. by apply Hsk, Hne.
  - intros _. eauto.
Qed.

Lemma for_count_turns pol rel (skips enabled : Approval → Prop) body l (w : World X) :
  (∀ a, a ∈ l → turn_ok pol rel skips enabled body a) →
  NoDup (ap_id <$> l) → tick_inv pol rel (w_db w) →
  (∀ a, a ∈ l → a ∈ db_approval (w_db w) ∧ ap_live a = true) →
  ∃ n w', for_count l body w = (Ok n, w') ∧ tick_inv pol rel (w_db w') ∧
    (∀ c, c ∈ db_approval (w_db w) → (∀ a, a ∈ l → ap_id a = ap_id c → skips a) →
       c ∈ db_approval (w_db w')) ∧
    (∀ a, a ∈ l → enabled a → ∃ a', a' ∈ db_approval (w_db w') ∧ ap_id a' = ap_id a ∧ fired a').
Proof.
  revert w. induction l as [|a l IH]; intros w Hb Hnd Hw Hl.
  { exists 0%nat, w. split_and!; try done. by intros a []%elem_of_nil. }
  rewrite fmap_cons in Hnd. apply NoDup_cons in Hnd as [Hnot Hnd].
  destruct (Hl a (list_elem_of_here _ _)) as [Ha Hlive].
  destruct (Hb a (list_elem_of_here _ _) w Hw Ha Hlive) as (b & w1 & E & Hw1 & Hk & Hf).
  assert (Hl1 : ∀ c, c ∈ l → ap_id c ≠ ap_id a).
  { intros c Hc Hid. apply Hnot. rewrite <- Hid. by apply list_elem_of_fmap_2. }
  destruct (IH w1) as (n & w2 & E2 & Hw2 & Hk2 & Hf2); [by intros; apply Hb; right|done|done| |].
  { intros c Hc. destruct (Hl c) as [Hc' ?]; [by right|]. split; [|done].
    apply Hk; [done|]. intros Hid. by destruct (Hl1 c). }
  exists (if b then S n else n), w2. simpl. rewrite (bind_ok _ _ _ _ _ E), (bind_ok _ _ _ _ _ E2).
  split; [done|]. split; [done|]. split.
  - intros c Hc Hn. apply Hk2; [apply Hk; [done|]|].
    + apply Hn. left.
    + intros a' Ha'. apply Hn. by right.
  - intros c [->|Hc]%elem_of_cons He; [|by apply Hf2].
    destruct (Hf He) as (a' & Ha' & Hid & Hfd). exists a'. split; [|done].
    apply Hk2; [done|]. intros c Hc Hid'. destruct (Hl1 c Hc). congruence.
Qed.

(** A policy or release as the tick finds it. *)
Definition policy_row (id : string) (pol : list PromotionPolicy) : option PromotionPolicy :=
  find_first (λ r, (pp_id r =?s id) && is_null (pp_deletedAt r)) pol.
Definition release_row (id : string) (rel : list Release) : option Release :=
  find_first (λ r, (rel_id r =?s id) && is_null (rel_deletedAt r)) rel.

Lemma PromotionPolicyRepo_get_run pol rel id (w : World X) :
  tick_inv pol rel (w_db w) → PromotionPolicyRepo_get id w = (Ok (policy_row id pol), w).
Proof. intros (_ & <- & _). done. Qed.

Lemma ReleaseRepo_get_run pol rel id (w : World X) :
  tick_inv pol rel (w_db w) → ReleaseRepo_get id w = (Ok (release_row id rel), w).
Proof. intros (_ & _ & <-). done. Qed.

(** A turn's body may be replaced by what it reduces to in the loop's states. *)
Lemma turn_ok_ext pol rel skips enabled (body body' : Approval → M X bool) a :
  (∀ w, tick_inv pol rel (w_db w) → body a w = body' a w) →
  turn_ok pol rel skips enabled body' a → turn_ok pol rel skips enabled body a.
Proof. intros E Hb w Hw Ha Hl. rewrite E by done. by apply Hb. Qed.

(** The approvals the first loop opens. *)
Definition time_delay_ready pol rel (a : Approval) : Prop :=
  ap_requiresHealthGate a = false ∧ is_Some (policy_row (ap_policyId a) pol)
  ∧ is_Some (release_row (ap_releaseId a) rel).

Lemma turn_time_delay pol rel s a :
  turn_ok pol rel (λ a, ap_requiresHealthGate a = true) (time_delay_ready pol rel)
    (tick_time_delay s) a.
Proof.
  destruct (ap_requiresHealthGate a) eqn:Eg.
  { apply turn_ok_skip; [|unfold time_delay_ready; naive_solver congruence].
    intros w _. unfold tick_time_delay. by rewrite Eg. }
  destruct (policy_row (ap_policyId a) pol) as [policy|] eqn:Ep.
  2: { apply turn_ok_skip; [|intros (_ & [? ?] & _); congruence]. intros w Hw.
       unfold tick_time_delay. rewrite Eg.
       by rewrite (bind_ok _ _ _ _ _ (PromotionPolicyRepo_get_run _ _ _ w Hw)), Ep. }
  destruct (release_row (ap_releaseId a) rel) as [release|] eqn:Er.
  2: { apply turn_ok_skip; [|intros (_ & _ & [? ?]); congruence]. intros w Hw.
       unfold tick_time_delay. rewrite Eg.
       rewrite (bind_ok _ _ _ _ _ (PromotionPolicyRepo_get_run _ _ _ w Hw)), Ep.
       by rewrite (bind_ok _ _ _ _ _ (ReleaseRepo_get_run _ _ _ w Hw)), Er. }
  eapply (turn_ok_ext _ _ _ _ _ (λ a, open_gate policy release a s _));
    [|apply turn_open_gate; congruence].
  intros w Hw. unfold tick_time_delay. rewrite Eg.
  rewrite (bind_ok _ _ _ _ _ (PromotionPolicyRepo_get_run _ _ _ w Hw)), Ep.
  by rewrite (bind_ok _ _ _ _ _ (ReleaseRepo_get_run _ _ _ w Hw)), Er.
Qed.


Lemma turn_health_gated pol rel now s a :
  turn_ok pol rel (λ a, delay_pending a now = true) (λ _, False) (tick_health_gated now s) a.
Proof.
  intros w Hw Ha Hl.
  assert (Hskip : ∃ b w', (Ok false, w) = (Ok b, w') ∧ tick_inv pol rel (w_db w') ∧
    (∀ c, c ∈ db_approval (w_db w) → (ap_id a = ap_id c → delay_pending a now = true) →
       c ∈ db_approval (w_db w')) ∧
    (False → ∃ a', a' ∈ db_approval (w_db w') ∧ ap_id a' = ap_id a ∧ fired a')).
  { exists false, w. naive_solver. }
  unfold tick_health_gated.
  rewrite (bind_ok _ _ _ _ _ (PromotionPolicyRepo_get_run _ _ _ w Hw)).
  destruct (policy_row _ _) as [policy|]; [|done].
  destruct (truthy (pp_sourceTargetId policy)) as [source|]; [|done].
  destruct (readHealthGate policy) as [gate|] eqn:Eg; [|done].
  destruct (delay_pending a now) eqn:Ed; [done|].
  rewrite (bind_ok _ _ _ _ _ (ReleaseRepo_get_run _ _ _ w Hw)).
  destruct (release_row _ _) as [release|]; [|done].
  erewrite bind_ok; [|done]. cbv beta. case_match; [|done]. case_match; [done|].
  erewrite bind_ok; [|done]. cbv beta. case_match eqn:Eo; [|done|].
  - edestruct (turn_open_gate pol rel (λ a, delay_pending a now = true) (λ _, False) policy release a s)
      as (b & w' & E & ? & Hk & ?); [by rewrite Ed|done|done|done|].
    rewrite Ed in Hk. eauto 10.
  - apply isHealthGateOpen_defined in Eo; [done|]. by apply (readHealthGate_positive policy).
Qed.

Lemma approvals_NoDup d : db_ok d → NoDup (ap_id <$> db_approval d).
Proof.
  intros Hd. eapply (NoDup_fmap_1 (λ i, [i])). rewrite <- list_fmap_compose.
  apply (table_NoDup T_approval d Hd).
Qed.

Lemma query_NoDup d p le : db_ok d → NoDup (ap_id <$> order_by le (select p (db_approval d))).
Proof.
  intros Hd. rewrite order_by_perm. by apply select_NoDup_fmap, approvals_NoDup.
Qed.

(** What a tick may touch at instant [now]. *)
Definition due_at (now : Z) (a : Approval) : Prop :=
  ap_status a = AS_pending ∧ ap_live a = true ∧
  (if ap_requiresHealthGate a then delay_pending a now = false
   else approval_due_text (toISOString now) a = true).

Lemma runPromotionTick_run (w : World X) :
  promotion_ok (w_db w) → let now := clock (w_clock w) in
  ∃ n w', runPromotionTick w = (Ok n, w') ∧ promotion_ok (w_db w') ∧
    (∀ c, c ∈ db_approval (w_db w) → ¬ due_at now c → c ∈ db_approval (w_db w')) ∧
    (∀ a, a ∈ db_approval (w_db w) → due_at now a →
       time_delay_ready (db_promotion_policy (w_db w)) (db_release (w_db w)) a →
       ∃ a', a' ∈ db_approval (w_db w') ∧ ap_id a' = ap_id a ∧ fired a').
Proof.
  intros Hw now. unfold runPromotionTick. erewrite bind_ok; [|done]. cbv beta zeta. fold now.
  set (w0 := mkWorld _ _ _ _). erewrite bind_ok; [|done]. cbv beta.
  set (pol := db_promotion_policy (w_db w)). set (rel := db_release (w_db w)).
  assert (Hw0 : tick_inv pol rel (w_db w0)) by done.
  set (due := order_asc _ _).
  assert (Hdue : ∀ a, a ∈ due ↔ a ∈ db_approval (w_db w) ∧ approval_due_text (toISOString now) a = true).
  { intros a. unfold due. by rewrite order_asc_elem, select_elem. }
  destruct (for_count_turns pol rel _ _ (tick_time_delay (toISOString now)) due w0
    (λ a _, turn_time_delay pol rel _ a)) as (n1 & w1 & E1 & Hw1 & Hk1 & Hf1).
  { apply query_NoDup, Hw. }
  { done. }
  { intros a Ha. apply Hdue in Ha as [? Hd]. split; [done|]. unfold approval_due_text in Hd.
    by bool_hyps. }
  rewrite (bind_ok _ _ _ _ _ E1). erewrite bind_ok; [|done]. cbv beta. set (hg := order_asc _ _).
  assert (Hhg : ∀ a, a ∈ hg ↔ a ∈ db_approval (w_db w1) ∧ ap_status a = AS_pending
                     ∧ ap_requiresHealthGate a = true ∧ ap_live a = true).
  { intros a. unfold hg. rewrite order_asc_elem, select_elem. rewrite !andb_true_iff.
    rewrite bool_decide_eq_true. unfold ap_live. naive_solver. }
  destruct (for_count_turns pol rel _ _ (tick_health_gated now (toISOString now)) hg w1
    (λ a _, turn_health_gated pol rel now _ a)) as (n2 & w2 & E2 & Hw2 & Hk2 & _).
  { apply query_NoDup, Hw1. }
  { done. }
  { intros a Ha. by apply Hhg in Ha as (? & _ & _ & ?). }
  rewrite (bind_ok _ _ _ _ _ E2). exists (n1 + n2)%nat, w2. split; [done|]. split; [apply Hw2|].
  split.
  - intros c Hc Hnd.
    assert (Hc1 : c ∈ db_approval (w_db w1)).
    { apply Hk1; [done|]. intros a [Ha Hd]%Hdue Hid.
      assert (a = c) as -> by (by eapply approvals_pkey; [apply Hw|..]).
      destruct (ap_requiresHealthGate c) eqn:Eg; [done|]. exfalso. apply Hnd. unfold due_at.
      rewrite Eg. unfold approval_due_text in Hd. split_and!; bool_hyps; try done.
      unfold approval_due_text. by rewrite !andb_true_iff, bool_decide_eq_true. }
    apply Hk2; [done|]. intros a (Ha & Hs & Hg & Hl)%Hhg Hid.
    assert (a = c) as -> by (by eapply approvals_pkey; [apply Hw1|..]).
    destruct (delay_pending c now) eqn:Ed; [done|]. exfalso. apply Hnd. unfold due_at. by rewrite Hg.
  - intros a Ha (Hs & Hl & Hd) Hr. rewrite (proj1 Hr) in Hd.
    destruct (Hf1 a) as (a' & Ha' & Hid & Hfd); [by apply Hdue|done|].
    exists a'. split; [|done]. apply Hk2; [done|]. intros c (Hc & Hs' & _)%Hhg Hid'.
    assert (c = a') as -> by (by eapply approvals_pkey; [apply Hw1|..]).
    destruct Hfd. congruence.
Qed.
End tick.

(** ** Lemmas: a fire keeps the approvals that are there *)

Section fire_keeps.
Context {X : Type} `{Oracle} `{JsEngine} `{DeployInvoker X}.

(** The row [firePolicy] files. *)
Definition new_approval (policy : PromotionPolicy) (release : Release) (status : ApprovalStatus)
    (autoApproveAt : option string) (gated : bool) (now id : string) : Approval :=
  mkApproval id (pp_orgId policy) (pp_id policy) (rel_id release) (pp_destTargetId policy)
    status autoApproveAt None None None None None None gated now now None.

Lemma ApprovalRepo_create_inv policy release st at_ g (w : World X) :
  match ApprovalRepo_create (pp_orgId policy) (pp_id policy) (rel_id release)
          (pp_destTargetId policy) st at_ g w with
  | (Ok a, w') =>
    a = new_approval policy release st at_ (g ?? false) (toISOString (clock (w_clock w)))
          (fresh_id (w_ids w)) ∧
    w_db w' = tset T_approval (db_approval (w_db w) ++ [a]) (w_db w) ∧
    (∀ c, c ∈ db_approval (w_db w) → ap_id c ≠ ap_id a)
  | (Throw _, w') => w_db w' = w_db w
  end.
Proof.
  unfold ApprovalRepo_create. erewrite bind_ok; [|done]. cbv beta.
  erewrite bind_ok; [|done]. cbv beta zeta. rewrite bind_eq.
  destruct (db_insert _ _ _) as [[[]|e] w1] eqn:E.
  - apply db_insert_inv in E as [-> Hc]. split; [done|]. split; [done|].
    intros c Hin Hid. specialize (Hc c Hin). rewrite row_clash_pkey in Hc; [done|].
    simpl in *. by rewrite Hid.
  - by apply db_insert_throw in E as [-> _].
Qed.

Lemma create_then_keeps {B} a policy release st at_ g (k : Approval → M X B) (w : World X) :
  keeps a (w_db w) → no_approval (rel_id release) (pp_destTargetId policy) (w_db w) →
  (∀ b, ap_id a ≠ ap_id b → preserves (on_db (keeps a)) (k b)) →
  on_db (keeps a) ((ApprovalRepo_create (pp_orgId policy) (pp_id policy) (rel_id release)
          (pp_destTargetId policy) st at_ g ≫= k) w).2.
Proof.
  intros [Hw Ha] Hn Hk. rewrite bind_eq.
  pose proof (ApprovalRepo_create_inv policy release st at_ g w) as Hc.
  pose proof (ApprovalRepo_create_promotion (pp_orgId policy) (pp_id policy) (rel_id release)
    (pp_destTargetId policy) st at_ g w Hw Hn) as Hp.
  destruct (ApprovalRepo_create _ _ _ _ _ _ _ w) as [[b|e] w1]; simpl in Hp.
  - destruct Hc as (_ & Ew & Hid). apply Hk; [by apply Hid|]. split; [done|].
    rewrite Ew. simpl. apply elem_of_app. by left.
  - split; [done|]. simpl. by rewrite Hc.
Qed.

Lemma firePolicy_keeps a policy release :
  preserves (X:=X) (on_db (keeps a)) (firePolicy policy release).
Proof.
  intros w Hw. unfold firePolicy. case_match; [done|].
  destruct (ApprovalRepo_getForReleaseAndTarget (rel_id release) (pp_destTargetId policy) w)
    as [[[e|]|] w0] eqn:Eg; try discriminate; assert (w0 = w) as -> by (by injection Eg);
    rewrite (bind_ok _ _ _ _ _ Eg); [done|].
  apply getForReleaseAndTarget_None in Eg as Hn. cbv beta iota.
  erewrite bind_ok; [|done]. cbv beta zeta.
  set (w1 := mkWorld _ _ _ _). generalize (clock (w_clock w)). intros now.
  assert (Hw1 : on_db (keeps a) w1) by done.
  assert (Hn1 : no_approval (rel_id release) (pp_destTargetId policy) (w_db w1)) by done.
  clearbody w1. clear w Hw Eg Hn.
  destruct (deferring_health_gate policy) as [g|].
  - apply post_bind_const; [|done|intros; apply create_then_keeps; [done|done|preserve]].
    case_match; [|done]. rewrite bind_eq. pose proof (readDelaySeconds_const policy w1) as E.
    destruct (readDelaySeconds policy w1) as [[]]; simpl in E; subst; [|done].
    unfold iso_of. by case_match.
  - destruct (pp_gateKind policy).
    + apply create_then_keeps; [done|done|]. intros b Hb. unfold markApprovalDecided.
      apply preserves_bind.
      { apply preserves_bind; [by apply update_keeps|intros; apply preserves_ret]. }
      intros _ w Hw. destruct (ApprovalRepo_get_inv (ap_id b) w) as ([f|] & Eg & Ho);
        rewrite (bind_ok _ _ _ _ _ Eg); [|done]. cbv beta iota.
      destruct (Ho f eq_refl) as (_ & Hid & _). apply dispatchDeploy_keeps; [congruence|done].
    + apply create_then_keeps; [done|done|preserve].
    + apply post_bind_const; [apply readDelaySeconds_const|done|]. intros.
      apply post_bind_const; [apply iso_of_const|done|]. intros.
      apply create_then_keeps; [done|done|preserve].
Qed.

Lemma listener_keeps a policies release :
  preserves (X:=X) (on_db (keeps a)) (for_collect policies (λ p, firePolicy p release)).
Proof. pose proof (firePolicy_keeps a). preserve. Qed.

Lemma listener_promotion policies release :
  preserves (X:=X) (on_db promotion_ok) (for_collect policies (λ p, firePolicy p release)).
Proof. pose proof firePolicy_promotion. preserve. Qed.

(** Filing an approval for an existing policy and release under a fresh id. *)
Lemma ApprovalRepo_create_run policy release st at_ g (w : World X) :
  promotion_ok (w_db w) →
  policy ∈ db_promotion_policy (w_db w) → release ∈ db_release (w_db w) →
  no_approval (rel_id release) (pp_destTargetId policy) (w_db w) →
  has_key T_approval (fresh_id (w_ids w)) (w_db w) = false →
  let row := new_approval policy release st at_ (g ?? false)
               (toISOString (clock (w_clock w))) (fresh_id (w_ids w)) in
  ApprovalRepo_create (pp_orgId policy) (pp_id policy) (rel_id release)
    (pp_destTargetId policy) st at_ g w =
  (Ok row, mkWorld (tset T_approval (db_approval (w_db w) ++ [row]) (w_db w))
             (S (w_clock w)) (S (w_ids w)) (w_ext w)).
Proof.
  intros [Hd Hu] Hp Hr Hn Hf row. unfold ApprovalRepo_create. erewrite bind_ok; [|done]. cbv beta.
  erewrite bind_ok; [|done]. cbv beta zeta. fold row.
  erewrite bind_ok; [|apply db_insert_succeeds]; [done|done|..].
  - simpl. destruct (Hd T_promotion_policy) as [_ Hpf]. destruct (Hpf policy Hp) as [Hfk _].
    simpl in Hfk. bool_hyps. rewrite !andb_true_iff. split_and!; try done.
    + apply has_key_elem. by exists policy.
    + apply has_key_elem. by exists release.
  - intros c Hc. apply row_clash_false; simpl.
    + intros E. simplify_eq. assert (has_key T_approval (fresh_id (w_ids w)) (w_db w) = true); [|congruence].
      apply has_key_elem. exists c. split; [done|]. simpl. congruence.
    + intros k Ek Ec. destruct (ap_deletedAt c) eqn:El; [done|].
      apply (Hn c); [done|unfold ap_live; by rewrite El|].
      repeat case_match; simplify_eq. unfold ap_pair. congruence.
Qed.
End fire_keeps.
