(* ===== verification/K8s.v ===== *)
(** The Kubernetes driver: src/host/src/k8s (bundle.ts, kubectl.ts, helm.ts and
    executor.ts).

    kubectl and helm are processes, and bundles are files: they are the class
    [K8sHost].  [fs_stat] fails where statSync throws; existsSync is that it
    does not. *)

From S2P Require Import Prelude JsTime JsVal Types World Logic Signing BuildYaml Build Probes.

(** ** Data *)

Inductive K8sBundleKind := BK_helm_chart | BK_manifest.

Definition K8sBundleKind_text (k : K8sBundleKind) : string :=
  match k with BK_helm_chart => "helm_chart" | BK_manifest => "manifest" end.

Inductive K8sDriver := KD_kubectl | KD_helm.

Definition K8sDriver_text (d : K8sDriver) : string :=
  match d with KD_kubectl => "kubectl" | KD_helm => "helm" end.

Record K8sApplyOptions := mkK8sApplyOptions {
  kao_bundleUri : string;
  kao_namespace : string;
  kao_context : option string;
  kao_releaseName : option string;
  kao_timeoutMs : option jsnum
}.

Record K8sRollbackOptions := mkK8sRollbackOptions {
  kro_releaseId : string;
  kro_namespace : string;
  kro_context : option string;
  kro_toRevision : option jsnum;
  kro_timeoutMs : option jsnum
}.

Record K8sStatusOptions := mkK8sStatusOptions {
  kso_namespace : string;
  kso_context : option string;
  kso_selector : option string;
  kso_timeoutMs : option jsnum
}.

Record K8sHealthOptions := mkK8sHealthOptions {
  kho_namespace : string;
  kho_context : option string;
  kho_selector : option string;
  kho_timeoutMs : option jsnum
}.

Inductive K8sWorkloadState := WS_healthy | WS_degraded | WS_unknown.

(** The fields come straight out of the tool's JSON, unchecked. *)
Record K8sWorkloadStatus := mkK8sWorkloadStatus {
  kw_name : json;
  kw_kind : json;
  kw_replicas : json;
  kw_readyReplicas : json;
  kw_availableReplicas : json;
  kw_state : K8sWorkloadState
}.

Record K8sStatusResult := mkK8sStatusResult {
  ks_namespace : string;
  ks_workloads : list K8sWorkloadStatus;
  ks_allHealthy : bool
}.

Record K8sApplyResult := mkK8sApplyResult {
  ka_releaseName : string;
  ka_namespace : string;
  ka_driver : K8sDriver;
  ka_bundleKind : K8sBundleKind;
  ka_stdoutTail : string;
  ka_durationMs : Z
}.

Record K8sRollbackResult := mkK8sRollbackResult {
  kr_releaseId : string;
  kr_namespace : string;
  kr_driver : K8sDriver;
  kr_toRevision : option jsnum;
  kr_stdoutTail : string;
  kr_durationMs : Z
}.

Record K8sHealthResult := mkK8sHealthResult {
  kh_namespace : string;
  kh_ready : bool;
  kh_detail : option string;
  kh_durationMs : Z
}.

Record K8sExecResult := mkK8sExecResult {
  kx_stdout : string;
  kx_stderr : string;
  kx_exitCode : Z
}.

Definition K8S_DEFAULT_TIMEOUT_MS : jsnum := num_of_Z (5 * 60 * 1000).
Definition K8S_DEFAULT_HEALTH_TIMEOUT_MS : jsnum := num_of_Z (5 * 60 * 1000).
Definition K8S_STDOUT_TAIL_BYTES : nat := 4096.
Definition DEFAULT_KUBECTL_BIN : string := "kubectl".
Definition DEFAULT_HELM_BIN : string := "helm".
Definition HELM_CHART_FILE : string := "Chart.yaml".

Inductive FileKind := FK_file | FK_directory | FK_other.

Class K8sHost (X : Type) := {
  env_var : string → option string;
  fs_stat : string → X → option FileKind;
  fs_join : string → string → string;        (** path.join *)
  fs_basename : string → string;             (** path.basename *)
  (** The process, its arguments and its timeout; a failure to run it has a
      code and a message. *)
  k8s_exec : string → list string → jsnum → X → ((option string * string) + K8sExecResult) * X
}.

(** ** Texts *)

(** [s.replace(/\.(ya?ml)$/i, "")]. *)
Definition strip_yaml (s : string) : string :=
  if ends_with ".yaml" (lower s) then str_take (String.length s - 5) s
  else if ends_with ".yml" (lower s) then str_take (String.length s - 4) s
  else s.

Definition tailStdout (stdout : string) : string :=
  if (String.length stdout <=? K8S_STDOUT_TAIL_BYTES)%nat then stdout
  else "…(truncated)" +:+ str_drop (String.length stdout - K8S_STDOUT_TAIL_BYTES) stdout.

Definition kubectl_notFoundMessage (tool bin envVar : string) : string :=
  tool +:+ " binary '" +:+ bin +:+ "' not found on PATH. Install " +:+ tool
  +:+ " (https://kubernetes.io/docs/tasks/tools/) or set " +:+ envVar +:+ " to an absolute path.".

Definition helm_notFoundMessage (tool bin envVar : string) : string :=
  tool +:+ " binary '" +:+ bin +:+ "' not found on PATH. Install " +:+ tool
  +:+ " (https://helm.sh/docs/intro/install/) or set " +:+ envVar +:+ " to an absolute path.".

(** [\s+] at the start of a text: what follows it. *)
Definition after_space (s : string) : option string :=
  let (sp, r) := span is_js_space s in if sp =?s "" then None else Some r.

Definition after_prefix (p s : string) : option string :=
  if starts_with p s then Some (str_drop (String.length p) s) else None.

(** /namespaces?\s+Q[^Q]+Q\s+not\s+found/i at the start of a lower-case text,
    where Q is the double quote. *)
Definition namespace_phrase (s : string) : bool :=
  negb (is_null (
    r ← after_prefix "namespace" s;
    r ← after_space (match r with String "s" r' => r' | _ => r end);
    r ← (match r with
         | String q r' =>
           if is_char dquote q then
             let (name, r'') := span (λ c, negb (is_char dquote c)) r' in
             match r'' with String _ t => if name =?s "" then None else Some t | EmptyString => None end
           else None
         | EmptyString => None
         end);
    r ← after_space r;
    r ← after_prefix "not" r;
    r ← after_space r;
    after_prefix "found" r)).

Fixpoint namespace_missing (s : string) : bool :=
  namespace_phrase s || match s with EmptyString => false | String _ s' => namespace_missing s' end.

Definition classifyStderr (stderr : string) : option string :=
  if stderr =?s "" then None
  else
    let l := lower stderr in
    if str_includes l "unable to load credentials" || str_includes l "forbidden"
       || str_includes l "unauthorized"
       || str_includes l "the server has asked for the client to provide credentials"
       || str_includes l "error: you must be logged in to the server"
    then Some "cluster_auth_failed"
    else if namespace_missing l then Some "namespace_missing"
    else None.

(** ** Arguments *)

Definition kubectl_flags (namespace : string) (context : option string) : list string :=
  match truthy context with Some c => ["--context"; c] | None => [] end ++ ["--namespace"; namespace].

Definition helm_flags (namespace : string) (context : option string) : list string :=
  match truthy context with Some c => ["--kube-context"; c] | None => [] end ++ ["--namespace"; namespace].

Section arguments.
Context `{JsEngine}.

Definition buildRollbackArgs (releaseId namespace : string) (context : option string)
    (toRevision : option jsnum) : list string :=
  ["rollout"; "undo"] ++ kubectl_flags namespace context ++ [releaseId]
  ++ match toRevision with Some n => ["--to-revision=" +:+ num_to_string n] | None => [] end.

Definition buildStatusArgs (namespace : string) (context selector : option string) : list string :=
  ["get"; "deployments"] ++ kubectl_flags namespace context
  ++ match truthy selector with Some l => ["-l"; l] | None => [] end ++ ["-o"; "json"].

(** [Math.max(1, Math.ceil(ms / 1000))], as text. *)
Definition seconds_text (ms : jsnum) : string :=
  match num_div ms (num_of_Z 1000) with
  | S754_nan => "NaN"
  | S754_infinity false => "Infinity"
  | S754_infinity true => "1"
  | x => show_int (Z.max 1 (num_ceil x))
  end.

Definition buildHealthArgs (namespace : string) (context selector : option string) (waitMs : jsnum)
    : list string :=
  ["wait"; "--for=condition=Ready"; "pod"] ++ kubectl_flags namespace context
  ++ match truthy selector with Some l => ["-l"; l] | None => ["--all"] end
  ++ ["--timeout=" +:+ seconds_text waitMs +:+ "s"].

Definition buildHelmApplyArgs (releaseName chartPath namespace : string) (context : option string)
    : list string :=
  ["upgrade"; "--install"; releaseName; chartPath] ++ helm_flags namespace context
  ++ ["--create-namespace"].

Definition buildHelmRollbackArgs (releaseName namespace : string) (context : option string)
    (toRevision : option jsnum) : list string :=
  ["rollback"; releaseName]
  ++ match toRevision with Some n => [num_to_string n] | None => [] end
  ++ helm_flags namespace context.

Definition buildHelmStatusArgs (releaseName namespace : string) (context : option string)
    : list string :=
  ["status"; releaseName] ++ helm_flags namespace context ++ ["-o"; "json"].

(** ** Reading the tools' JSON *)

(** [v?.k] of a JSON value: [undefined] unless it is an object with that key. *)
Definition prop_of (k : string) (v : option json) : option json :=
  match v with Some (JObj o) => get_prop k o | _ => None end.

(** [v ?? d]. *)
Definition or_json (v : option json) (d : json) : json :=
  match v with None | Some JNull => d | Some x => x end.

(** [a === b] of values parsed from JSON: objects are compared by identity. *)
Definition strict_eq (a b : json) : bool :=
  match a, b with
  | JNull, JNull => true
  | JBool x, JBool y => Bool.eqb x y
  | JNum x, JNum y => SFeqb x y
  | JStr x, JStr y => x =?s y
  | _, _ => false
  end.

Definition workload_of (item : json) : option K8sWorkloadStatus :=
  match item with
  | JObj _ | JArr _ =>
    let obj := Some item in
    let status := prop_of "status" obj in
    let replicas := or_json (prop_of "replicas" status) (JNum (num_of_Z 0)) in
    let readyReplicas := or_json (prop_of "readyReplicas" status) (JNum (num_of_Z 0)) in
    let availableReplicas := or_json (prop_of "availableReplicas" status) (JNum (num_of_Z 0)) in
    Some (mkK8sWorkloadStatus (or_json (prop_of "name" (prop_of "metadata" obj)) (JStr ""))
      (or_json (prop_of "kind" obj) (JStr "Deployment")) replicas readyReplicas availableReplicas
      (if strict_eq replicas (JNum (num_of_Z 0)) then WS_unknown
       else if strict_eq readyReplicas replicas then WS_healthy else WS_degraded))
  | _ => None
  end.

Definition parseDeploymentsJson (stdout : string) : list K8sWorkloadStatus :=
  let trimmed := trim stdout in
  if (String.length trimmed =? 0)%nat then []
  else match prop_of "items" (JSON_parse trimmed) with
       | Some (JArr items) => omap workload_of items
       | _ => []
       end.

(** [status.toLowerCase()] of something that is not a string is a TypeError. *)
Definition parseHelmStatusJson (stdout releaseName : string) : Res (option K8sWorkloadStatus) :=
  let trimmed := trim stdout in
  if (String.length trimmed =? 0)%nat then Ok None
  else match JSON_parse trimmed with
  | Some ((JObj _ | JArr _) as v) =>
    match or_json (prop_of "status" (prop_of "info" (Some v))) (JStr "") with
    | JStr s =>
      let status := lower s in
      Ok (Some (mkK8sWorkloadStatus (or_json (prop_of "name" (Some v)) (JStr releaseName))
        (JStr "HelmRelease") (JNum (num_of_Z 0)) (JNum (num_of_Z 0)) (JNum (num_of_Z 0))
        (if status =?s "deployed" then WS_healthy
         else if starts_with "pending" status then WS_unknown else WS_degraded)))
    | _ => Throw (EError "(intermediate value).toLowerCase is not a function")
    end
  | _ => Ok None
  end.
End arguments.

(** ** Drivers *)

Section drivers.
Context {X : Type} `{Oracle} `{JsEngine} `{K8sHost X}.

Definition fs_exists (p : string) (x : X) : bool := negb (is_null (fs_stat p x)).

Definition fs_is (k : FileKind) (p : string) (x : X) : bool :=
  match fs_stat p x, k with
  | Some FK_file, FK_file | Some FK_directory, FK_directory | Some FK_other, FK_other => true
  | _, _ => false
  end.

Definition detectBundleKind (bundleUri : string) : M X K8sBundleKind :=
  stat ← observe (fs_stat bundleUri);
  match stat with
  | None => throw (EK8sDriver "bundle_path_missing" ("bundle path does not exist: " +:+ bundleUri))
  | Some FK_file => mret BK_manifest
  | Some FK_directory =>
    chart ← observe (fs_is FK_file (fs_join bundleUri HELM_CHART_FILE));
    mret (if chart : bool then BK_helm_chart else BK_manifest)
  | Some FK_other =>
    throw (EK8sDriver "bundle_path_missing"
             ("bundle path is neither a file nor a directory: " +:+ bundleUri))
  end.

Definition hasKustomization (bundleUri : string) (x : X) : bool :=
  if negb (fs_exists bundleUri x) then false
  else if negb (fs_is FK_directory bundleUri x) then false
  else fs_exists (fs_join bundleUri "kustomization.yaml") x
       || fs_exists (fs_join bundleUri "kustomization.yml") x.

Definition buildApplyArgs (bundleUri namespace : string) (context : option string) (x : X)
    : list string :=
  ["apply"] ++ kubectl_flags namespace context
  ++ (if fs_exists bundleUri x && fs_is FK_directory bundleUri x && hasKustomization bundleUri x
      then ["-k"; bundleUri] else ["-f"; bundleUri]).

Definition kubectl_deriveReleaseName (bundleUri : string) : string :=
  let base := strip_yaml (fs_basename bundleUri) in
  if (0 <? String.length base)%nat then base else "signalman-release".

Definition helm_deriveReleaseName (bundleUri : string) : string :=
  let base := fs_basename bundleUri in
  if (0 <? String.length base)%nat then base else "signalman-release".

Definition kubectlBin : string := env_var "SIGNALMAN_KUBECTL_BIN" ?? DEFAULT_KUBECTL_BIN.
Definition helmBin : string := env_var "SIGNALMAN_HELM_BIN" ?? DEFAULT_HELM_BIN.

(** The process's result, or the driver error for a process that did not run. *)
Definition exec_or (bin : string) (args : list string) (timeoutMs : jsnum)
    (notFound failed : string → Err) : M X K8sExecResult :=
  r ← external (λ x, let (r, x') := k8s_exec bin args timeoutMs x in (Ok r, x'));
  match r with
  | inl (code, msg) => throw (if bool_decide (code = Some "ENOENT") then notFound msg else failed msg)
  | inr result => mret result
  end.

Definition runKubectl (args : list string) (timeoutMs : jsnum) : M X K8sExecResult :=
  result ← exec_or kubectlBin args timeoutMs
    (λ _ : string, EK8sDriver "kubectl_not_found" (kubectl_notFoundMessage "kubectl" kubectlBin "SIGNALMAN_KUBECTL_BIN"))
    (λ msg, EK8sDriver "kubectl_failed" ("kubectl exec failed: " +:+ msg));
  if negb (kx_exitCode result =? 0) then
    throw (EK8sDriver (classifyStderr (kx_stderr result) ?? "kubectl_failed")
      ("kubectl exited " +:+ show_Z (kx_exitCode result) +:+ ": " +:+ tailStdout (kx_stderr result)))
  else mret result.

Definition runHelm (args : list string) (timeoutMs : jsnum) : M X K8sExecResult :=
  result ← exec_or helmBin args timeoutMs
    (λ _ : string, EK8sDriver "helm_not_found" (helm_notFoundMessage "helm" helmBin "SIGNALMAN_HELM_BIN"))
    (λ msg, EK8sDriver "helm_failed" ("helm exec failed: " +:+ msg));
  if negb (kx_exitCode result =? 0) then
    throw (EK8sDriver (classifyStderr (kx_stderr result) ?? "helm_failed")
      ("helm exited " +:+ show_Z (kx_exitCode result) +:+ ": " +:+ tailStdout (kx_stderr result)))
  else mret result.

Definition kubectl_apply (opts : K8sApplyOptions) : M X K8sApplyResult :=
  bundleKind ← detectBundleKind (kao_bundleUri opts);
  match bundleKind with
  | BK_helm_chart =>
    throw (EK8sDriver "kubectl_failed"
      "KubectlDriver cannot apply a helm_chart bundle; dispatch through HelmDriver instead.")
  | BK_manifest =>
    args ← observe (buildApplyArgs (kao_bundleUri opts) (kao_namespace opts) (kao_context opts));
    start ← nowDate;
    result ← runKubectl args (kao_timeoutMs opts ?? K8S_DEFAULT_TIMEOUT_MS);
    now ← nowDate;
    mret (mkK8sApplyResult (kao_releaseName opts ?? kubectl_deriveReleaseName (kao_bundleUri opts))
      (kao_namespace opts) KD_kubectl bundleKind (tailStdout (kx_stdout result)) (now - start))
  end.

Definition kubectl_rollback (opts : K8sRollbackOptions) : M X K8sRollbackResult :=
  let args := buildRollbackArgs (kro_releaseId opts) (kro_namespace opts) (kro_context opts)
                (kro_toRevision opts) in
  start ← nowDate;
  result ← runKubectl args (kro_timeoutMs opts ?? K8S_DEFAULT_TIMEOUT_MS);
  now ← nowDate;
  mret (mkK8sRollbackResult (kro_releaseId opts) (kro_namespace opts) KD_kubectl
    (kro_toRevision opts) (tailStdout (kx_stdout result)) (now - start)).

Definition is_healthy (w : K8sWorkloadStatus) : bool :=
  match kw_state w with WS_healthy => true | _ => false end.

Definition kubectl_status (opts : K8sStatusOptions) : M X K8sStatusResult :=
  result ← runKubectl (buildStatusArgs (kso_namespace opts) (kso_context opts) (kso_selector opts))
             (kso_timeoutMs opts ?? K8S_DEFAULT_TIMEOUT_MS);
  let workloads := parseDeploymentsJson (kx_stdout result) in
  mret (mkK8sStatusResult (kso_namespace opts) workloads
    ((0 <? length workloads)%nat && forallb is_healthy workloads)).

Definition kubectl_health (opts : K8sHealthOptions) : M X K8sHealthResult :=
  let waitMs := kho_timeoutMs opts ?? K8S_DEFAULT_HEALTH_TIMEOUT_MS in
  let args := buildHealthArgs (kho_namespace opts) (kho_context opts) (kho_selector opts) waitMs in
  start ← nowDate;
  result ← exec_or kubectlBin args (num_add waitMs (num_of_Z 5000))
    (λ _ : string, EK8sDriver "kubectl_not_found" (kubectl_notFoundMessage "kubectl" kubectlBin "SIGNALMAN_KUBECTL_BIN"))
    (λ msg, EK8sDriver "kubectl_failed" ("kubectl wait exec failed: " +:+ msg));
  if kx_exitCode result =? 0 then
    now ← nowDate; mret (mkK8sHealthResult (kho_namespace opts) true None (now - start))
  else match classifyStderr (kx_stderr result) with
  | Some code => throw (EK8sDriver code (trim (kx_stderr result)))
  | None =>
    let text := if kx_stderr result =?s "" then kx_stdout result else kx_stderr result in
    now ← nowDate; mret (mkK8sHealthResult (kho_namespace opts) false (Some (tailStdout text)) (now - start))
  end.

Definition helm_apply (opts : K8sApplyOptions) : M X K8sApplyResult :=
  bundleKind ← detectBundleKind (kao_bundleUri opts);
  match bundleKind with
  | BK_manifest =>
    throw (EK8sDriver "helm_failed"
      "HelmDriver cannot apply a manifest bundle; dispatch through KubectlDriver instead.")
  | BK_helm_chart =>
    let releaseName := kao_releaseName opts ?? helm_deriveReleaseName (kao_bundleUri opts) in
    let args := buildHelmApplyArgs releaseName (kao_bundleUri opts) (kao_namespace opts) (kao_context opts) in
    start ← nowDate;
    result ← runHelm args (kao_timeoutMs opts ?? K8S_DEFAULT_TIMEOUT_MS);
    now ← nowDate;
    mret (mkK8sApplyResult releaseName (kao_namespace opts) KD_helm bundleKind
      (tailStdout (kx_stdout result)) (now - start))
  end.

Definition helm_rollback (opts : K8sRollbackOptions) : M X K8sRollbackResult :=
  let args := buildHelmRollbackArgs (kro_releaseId opts) (kro_namespace opts) (kro_context opts)
                (kro_toRevision opts) in
  start ← nowDate;
  result ← runHelm args (kro_timeoutMs opts ?? K8S_DEFAULT_TIMEOUT_MS);
  now ← nowDate;
  mret (mkK8sRollbackResult (kro_releaseId opts) (kro_namespace opts) KD_helm
    (kro_toRevision opts) (tailStdout (kx_stdout result)) (now - start)).

Definition helm_status (opts : K8sStatusOptions) (releaseName : option string) : M X K8sStatusResult :=
  match truthy releaseName with
  | None => throw (EK8sDriver "helm_failed" "HelmDriver.status requires a releaseName")
  | Some releaseName =>
    result ← runHelm (buildHelmStatusArgs releaseName (kso_namespace opts) (kso_context opts))
               (kso_timeoutMs opts ?? K8S_DEFAULT_TIMEOUT_MS);
    workload ← lift (parseHelmStatusJson (kx_stdout result) releaseName);
    mret (mkK8sStatusResult (kso_namespace opts)
      (match workload with Some w => [w] | None => [] end)
      (match workload with Some w => is_healthy w | None => false end))
  end.

(** ** Entry points *)

Record RunK8sDeployResult := mkRunK8sDeployResult {
  kd_apply : K8sApplyResult;
  kd_health : option K8sHealthResult;
  kd_bundleKind : K8sBundleKind
}.

Definition runK8sDeploy (bundleUri namespace : string) (context releaseName : option string)
    (waitForHealth : option bool) (healthTimeoutMs : option jsnum) : M X RunK8sDeployResult :=
  bundleKind ← detectBundleKind bundleUri;
  let opts := mkK8sApplyOptions bundleUri namespace context releaseName None in
  apply ← (match bundleKind with BK_helm_chart => helm_apply opts | BK_manifest => kubectl_apply opts end);
  health ← (if bool_decide (waitForHealth = Some false) then mret None
            else h ← kubectl_health (mkK8sHealthOptions namespace context None healthTimeoutMs);
                 mret (Some h));
  mret (mkRunK8sDeployResult apply health bundleKind).

Definition runK8sRollback (releaseId namespace : string) (context : option string)
    (toRevision : option jsnum) (driver : option K8sDriver) : M X K8sRollbackResult :=
  let opts := mkK8sRollbackOptions releaseId namespace context toRevision None in
  match driver ?? KD_kubectl with KD_helm => helm_rollback opts | KD_kubectl => kubectl_rollback opts end.

Definition runK8sStatus (namespace : string) (context selector releaseName : option string)
    (driver : option K8sDriver) : M X K8sStatusResult :=
  match driver ?? KD_kubectl with
  | KD_helm =>
    match truthy releaseName with
    | None => throw (EK8sDriver "helm_failed" "runK8sStatus(driver='helm') requires releaseName")
    | Some r => helm_status (mkK8sStatusOptions namespace context None None) (Some r)
    end
  | KD_kubectl => kubectl_status (mkK8sStatusOptions namespace context selector None)
  end.

Definition runK8sHealth (namespace : string) (context selector : option string)
    (timeoutMs : option jsnum) : M X K8sHealthResult :=
  kubectl_health (mkK8sHealthOptions namespace context selector timeoutMs).
End drivers.
