(* ===== verification/ReleaseDeploy.v ===== *)
(** Deploying to targets that are not virtual machines, and the verbs that
    choose the path: the Kubernetes and cloud adapters, [runReleaseDeploy] and
    [runReleaseRollback] of verbs/control-plane.ts, control-plane/bootstrap.ts
    and cloud/connection.ts.

    What the source lets a caller inject (the cloud backend, the tunnel, the
    reachability probe, the bundle installer, the OpenTofu driver) is the class
    [CloudRouter]; the promotion that a landed deploy fires goes through
    [DeployInvoker]. *)

From S2P Require Import Prelude JsTime JsVal Types World Logic StorageCatalog StorageDeploy.
From S2P Require Import Signing Build Probes Deploy CloudTypes K8s Events Promotion BuildYaml.

(** ** Cloud connections *)

Inductive CloudConnectionDescriptor :=
| CD_public_mtls (port : jsnum) (host : option string)
| CD_aws_ssm (region instance_id : string) (port : jsnum) (profile : option json)
| CD_azure_bastion (subscription_id resource_group : json) (vm_name : string) (port : jsnum)
    (bastion_name : json).

Definition DEFAULT_CONNECTION_PORT : jsnum := num_of_Z 443.

Definition NetworkMode_text (m : NetworkMode) : string :=
  match m with NM_public_mtls => "public_mtls" | NM_aws_ssm => "aws_ssm" | NM_azure_bastion => "azure_bastion" end.

(** [if (v)] of a JSON value or [undefined]. *)
Definition json_truthy (v : option json) : option json :=
  match v with
  | None | Some JNull | Some (JBool false) => None
  | Some (JNum n) => if SFeqb n (num_of_Z 0) || negb (SFeqb n n) then None else v
  | Some (JStr s) => if s =?s "" then None else v
  | _ => v
  end.

Definition getConnectionDescriptor (handle : CloudInstanceHandle) (port : option jsnum)
    (subscriptionId resourceGroup awsProfile bastionName : option json) : Res CloudConnectionDescriptor :=
  let port := port ?? DEFAULT_CONNECTION_PORT in
  match ch_network_mode handle ?? DEFAULT_NETWORK_MODE with
  | NM_public_mtls => Ok (CD_public_mtls port None)
  | NM_aws_ssm =>
    if negb (ch_backend handle =?s "aws") then
      Throw (EError ("network mode 'aws_ssm' is only valid for AWS handles; got handle backend="
                     +:+ ch_backend handle))
    else Ok (CD_aws_ssm (ch_region handle) (ch_id handle) port (json_truthy awsProfile))
  | NM_azure_bastion =>
    if negb (ch_backend handle =?s "azure") then
      Throw (EError ("network mode 'azure_bastion' is only valid for Azure handles; got handle backend="
                     +:+ ch_backend handle))
    else match json_truthy subscriptionId, json_truthy resourceGroup, json_truthy bastionName with
    | None, _, _ =>
      Throw (EError "azure_bastion connection descriptor requires opts.subscriptionId (handle alone doesn't carry it — pass it from the Azure backend's known config).")
    | _, None, _ =>
      Throw (EError "azure_bastion connection descriptor requires opts.resourceGroup (handle alone doesn't carry it — pass it from the Azure backend's known config).")
    | _, _, None =>
      Throw (EError "azure_bastion connection descriptor requires opts.bastionName (`az network bastion tunnel` needs the Bastion host name; a resource group can hold multiple Bastions so it can't be inferred).")
    | Some s, Some g, Some b => Ok (CD_azure_bastion s g (ch_name handle) port b)
    end
  end.

Definition withResolvedHost (d : CloudConnectionDescriptor) (host : string) : CloudConnectionDescriptor :=
  match d with CD_public_mtls port _ => CD_public_mtls port (Some host) | _ => d end.

(** ** What the adapters are given *)

Inductive PackageStatus := PS_installed | PS_skipped | PS_failed.

Definition PackageStatus_text (s : PackageStatus) : string :=
  match s with PS_installed => "installed" | PS_skipped => "skipped" | PS_failed => "failed" end.

Record PerPackageResult := mkPerPackageResult {
  pkg_package : string;
  pkg_source : string;
  pkg_status : PackageStatus;
  pkg_error : option string;
  pkg_durationMs : Z
}.

Record InstallBundleResult := mkInstallBundleResult {
  ib_totalPackages : Z;
  ib_installed : Z;
  ib_skipped : Z;
  ib_failed : Z;
  ib_perPackageResults : list PerPackageResult
}.

Record ApplyModuleResult := mkApplyModuleResult {
  am_outputs : json_object;
  am_add : Z;
  am_change : Z;
  am_destroy : Z;
  am_durationMs : Z
}.

Class CloudRouter (X : Type) := {
  (** The backend of a provider, as far as a deploy uses it: getInstanceIp. *)
  cloudBackendResolver : string → X → Res (CloudInstanceHandle → X → Res (option string) * X) * X;
  (** An open tunnel is known by its local port. *)
  dialer_open : CloudConnectionDescriptor → X → Res jsnum * X;
  dialer_close : jsnum → X → Res unit * X;
  reachabilityProbe : string → jsnum → X → Res (bool * string) * X;
  Bundle : Type;
  parseBundle : json → Res Bundle;
  installBundleInvoker : string → jsnum → Bundle → string → X → Res InstallBundleResult * X;
  applyModule : string → string → json_object → X → Res ApplyModuleResult * X
}.

(** ** Reading a target's connection *)

Record K8sConnection := mkK8sConnection {
  kc_bundleUri : string;
  kc_namespace : string;
  kc_clusterContext : option string;
  kc_releaseName : option string
}.

Definition str_prop (k : string) (o : json_object) : option string :=
  match get_prop k o with Some (JStr s) => Some s | _ => None end.

Definition readK8sConnection (target : Target) : Res K8sConnection :=
  let c := tg_connection target in
  match truthy (str_prop "bundleUri" c), truthy (str_prop "namespace" c) with
  | None, _ => Throw (EError ("k8s target '" +:+ tg_name target +:+ "' missing connection.bundleUri"))
  | _, None => Throw (EError ("k8s target '" +:+ tg_name target +:+ "' missing connection.namespace"))
  | Some bundleUri, Some namespace =>
    Ok (mkK8sConnection bundleUri namespace (str_prop "clusterContext" c) (str_prop "releaseName" c))
  end.

Record CloudVmConnectionShape := mkCloudVmConnectionShape {
  cv_provider : string;
  cv_region : string;
  cv_instance_id : string;
  cv_name : string;
  cv_network_mode : option NetworkMode;
  cv_guest_agent_port : option jsnum;
  cv_install_bundle_path : option string;
  cv_tunnel_options : option json_object
}.

Definition undefined_text `{JsEngine} (v : option json) : string :=
  match v with Some x => json_stringify x | None => "undefined" end.

Definition readCloudVmConnection `{JsEngine} (target : Target) : Res CloudVmConnectionShape :=
  let c := tg_connection target in
  let fail msg := Throw (EError ("cloud_vm target '" +:+ tg_name target +:+ "': " +:+ msg)) in
  match (match str_prop "provider" c with
         | Some p => if (p =?s "aws") || (p =?s "azure") then Some p else None
         | None => None
         end) with
  | None => fail ("connection.provider must be 'aws' or 'azure' (got "
                  +:+ undefined_text (get_prop "provider" c) +:+ ")")
  | Some provider =>
    match truthy (str_prop "region" c), truthy (str_prop "instance_id" c), truthy (str_prop "name" c) with
    | None, _, _ => fail "connection.region must be a non-empty string"
    | _, None, _ => fail "connection.instance_id must be a non-empty string"
    | _, _, None => fail "connection.name must be a non-empty string"
    | Some region, Some instance_id, Some name =>
      match (match get_prop "network_mode" c with
             | None => Some None
             | Some (JStr m) =>
               if m =?s "public_mtls" then Some (Some NM_public_mtls)
               else if m =?s "aws_ssm" then Some (Some NM_aws_ssm)
               else if m =?s "azure_bastion" then Some (Some NM_azure_bastion) else None
             | Some _ => None
             end) with
      | None => fail ("connection.network_mode must be one of public_mtls / aws_ssm / azure_bastion (got "
                      +:+ undefined_text (get_prop "network_mode" c) +:+ ")")
      | Some mode =>
        match (match get_prop "guest_agent_port" c with
               | None => Some None
               | Some (JNum n) =>
                 if negb (num_isInteger n) || SFltb n (num_of_Z 1) || SFltb (num_of_Z 65535) n
                 then None else Some (Some n)
               | Some _ => None
               end) with
        | None => fail "connection.guest_agent_port must be an integer in [1, 65535]"
        | Some port =>
          match (match get_prop "install_bundle_path" c with
                 | None => Some None
                 | Some (JStr s) => if s =?s "" then None else Some (Some s)
                 | Some _ => None
                 end) with
          | None => fail "connection.install_bundle_path must be a non-empty string when set"
          | Some bundlePath =>
            match (match get_prop "tunnel_options" c with
                   | None => Some None
                   | Some (JObj o) => Some (Some o)
                   | Some _ => None
                   end) with
            | None => fail "connection.tunnel_options must be a JSON object when set"
            | Some tunnel =>
              Ok (mkCloudVmConnectionShape provider region instance_id name mode port bundlePath tunnel)
            end
          end
        end
      end
    end
  end.

Record CloudStackConnectionShape := mkCloudStackConnectionShape {
  cs_stack_name : string;
  cs_module_path : string;
  cs_image_var_name : option string;
  cs_extra_vars : option json_object
}.

Definition readCloudStackConnection (target : Target) : Res CloudStackConnectionShape :=
  let c := tg_connection target in
  let fail msg := Throw (EError ("cloud_stack target '" +:+ tg_name target +:+ "': " +:+ msg)) in
  match truthy (str_prop "stack_name" c), truthy (str_prop "module_path" c) with
  | None, _ => fail "connection.stack_name must be a non-empty string"
  | _, None => fail "connection.module_path must be a non-empty string"
  | Some stack_name, Some module_path =>
    match (match get_prop "image_var_name" c with
           | None => Some None
           | Some (JStr s) => if s =?s "" then None else Some (Some s)
           | Some _ => None
           end) with
    | None => fail "connection.image_var_name must be a non-empty string when set"
    | Some imageVar =>
      match (match get_prop "extra_vars" c with
             | None => Some None
             | Some (JObj o) => Some (Some o)
             | Some _ => None
             end) with
      | None => fail "connection.extra_vars must be a JSON object when set"
      | Some extra => Ok (mkCloudStackConnectionShape stack_name module_path imageVar extra)
      end
    end
  end.

(** ** The active organisation *)

Section verbs.
Context {X : Type} `{Oracle}.

Definition DEFAULT_ORG_NAME : string := "default".

Definition ensureDefaultOrg : M X Org :=
  existing ← OrgRepo_getByName DEFAULT_ORG_NAME;
  match existing with Some o => mret o | None => OrgRepo_create DEFAULT_ORG_NAME (Some OT_free) end.

Definition getActiveOrgId : M X string := o ← ensureDefaultOrg; mret (org_id o).

(** ** Kubernetes *)

Context `{JsEngine} `{K8sHost X}.

(** The handler the adapters share: the row is failed once. *)
Definition mark_failed (orgId actor deploymentId : string) (detail : json_object) : M X unit :=
  current ← DeploymentRepo_get deploymentId;
  match current with
  | Some c =>
    if bool_decide (dep_status c = DS_failed) then mret () else
    now ← nowIso;
    DeploymentRepo_update deploymentId (mkDeploymentPatch (Some DS_failed) None (Some now) None);;
    AuditLogRepo_append orgId actor "release.deploy.failed" "deployment" deploymentId (Some detail);;
    mret ()
  | None => mret ()
  end.

(** The ready release of a deploy. *)
Definition ready_release (releaseId : string) : M X Release :=
  release ← ReleaseRepo_get releaseId;
  match release with
  | None => throw (EError ("release not found: " +:+ releaseId))
  | Some release =>
    if negb (bool_decide (rel_status release = RS_ready)) then
      throw (EError ("release " +:+ rel_id release +:+ " is not ready (status="
                     +:+ ReleaseStatus_text (rel_status release) +:+ ")"))
    else mret release
  end.

(** A deployment row for [target], on record as started and under way. *)
Definition start_deployment (orgId actor : string) (release : Release) (target : Target)
    (previousActive : option Deployment) (detail : json_object) : M X Deployment :=
  deployment ← DeploymentRepo_create orgId (rel_id release) (tg_id target)
                 (option_map dep_id previousActive);
  AuditLogRepo_append orgId actor "release.deploy.started" "deployment" (dep_id deployment)
    (Some ([("releaseId", JStr (rel_id release)); ("targetId", JStr (tg_id target));
            ("kind", JStr (TargetKind_text (tg_kind target)))] ++ detail));;
  startedAt ← nowIso;
  DeploymentRepo_update (dep_id deployment)
    (mkDeploymentPatch (Some DS_deploying) (Some startedAt) None None);;
  mret deployment.

Definition k8s_deploy_body (orgId actor : string) (release : Release) (target : Target)
    (conn : K8sConnection) (artifacts : list Artifact) (previousActive : option Deployment)
    (deploymentId : string) : M X RunDeployResult :=
  result ← runK8sDeploy (kc_bundleUri conn) (kc_namespace conn) (kc_clusterContext conn)
             (kc_releaseName conn) None None;
  let reachable := match kd_health result with Some h => kh_ready h | None => true end in
  let detail := match kd_health result with Some h => kh_detail h | None => None end in
  HealthCheckRepo_append deploymentId "k8s_pods_ready" (if reachable then HS_pass else HS_fail) None
    (Some (detail ?? ("applied via " +:+ K8sDriver_text (ka_driver (kd_apply result)))));;
  lastCheckedAt ← nowIso;
  let healthSummary := mkDeploymentHealthSummary 1 (if reachable then 1 else 0)
                         (if reachable then 0 else 1) 0 (Some lastCheckedAt) in
  if negb reachable then
    now ← nowIso;
    DeploymentRepo_update deploymentId
      (mkDeploymentPatch (Some DS_failed) None (Some now) (Some (Some healthSummary)));;
    AuditLogRepo_append orgId actor "release.deploy.failed" "deployment" deploymentId
      (Some [("releaseId", JStr (rel_id release)); ("targetId", JStr (tg_id target));
             ("error", JStr (detail ?? "pods not ready"))]);;
    throw (EError ("k8s health check failed: " +:+ (detail ?? "pods not ready")))
  else
    finalized ← promote previousActive deploymentId healthSummary;
    AuditLogRepo_append orgId actor "release.deploy.completed" "deployment" deploymentId
      (Some ([("releaseId", JStr (rel_id release)); ("targetId", JStr (tg_id target))]
             ++ opt_prop "supersededId" (option_map (λ p, JStr (dep_id p)) previousActive)
             ++ [("bundleKind", JStr (K8sBundleKind_text (kd_bundleKind result)));
                 ("driver", JStr (K8sDriver_text (ka_driver (kd_apply result))))]));;
    mret (mkRunDeployResult finalized release target artifacts healthSummary).

Definition error_detail (release : Release) (target : Target) (err : Err) : json_object :=
  [("releaseId", JStr (rel_id release)); ("targetId", JStr (tg_id target)); ("error", JStr (err_message err))].

Definition runK8sReleaseDeploy (orgId releaseId : string) (target : Target) (actor : option string)
    : M X RunDeployResult :=
  let actor := actor ?? "cli" in
  release ← ready_release releaseId;
  conn ← lift (readK8sConnection target);
  artifacts ← ArtifactRepo_listForRelease (rel_id release);
  previousActive ← DeploymentRepo_getActiveForTarget (tg_id target);
  deployment ← start_deployment orgId actor release target previousActive [];
  try_catch
    (k8s_deploy_body orgId actor release target conn artifacts previousActive (dep_id deployment))
    (λ err, mark_failed orgId actor (dep_id deployment) (error_detail release target err);; throw err).

Definition runK8sReleaseRollback (orgId : string) (target : Target) (actor : option string)
    : M X RunDeployResult :=
  let actor := actor ?? "cli-rollback" in
  active ← DeploymentRepo_getActiveForTarget (tg_id target);
  match active with
  | None => throw (EError ("no active deployment on k8s target '" +:+ tg_name target +:+ "' to roll back"))
  | Some active =>
    release ← ReleaseRepo_get (dep_releaseId active);
    match release with
    | None => throw (EError ("active deployment " +:+ dep_id active +:+ " references missing release"))
    | Some release =>
      conn ← lift (readK8sConnection target);
      artifacts ← ArtifactRepo_listForRelease (rel_id release);
      let subject := match truthy (kc_releaseName conn) with
                     | Some n => "deployment/" +:+ n
                     | None => "deployment/" +:+ rel_id release
                     end in
      runK8sRollback subject (kc_namespace conn) (kc_clusterContext conn) None None;;
      now ← nowIso;
      DeploymentRepo_update (dep_id active) (mkDeploymentPatch (Some DS_rolled_back) None (Some now) None);;
      AuditLogRepo_append orgId actor "release.rollback.completed" "deployment" (dep_id active)
        (Some [("releaseId", JStr (rel_id release)); ("targetId", JStr (tg_id target));
               ("driver", JStr "kubectl")]);;
      finalized ← DeploymentRepo_get (dep_id active);
      mret (mkRunDeployResult (finalized ?? active) release target artifacts
              (dep_healthSummary active ?? mkDeploymentHealthSummary 0 0 0 0 None))
    end
  end.

(** ** Cloud *)

Context `{BuildHost X} `{R : !CloudRouter X}.

(** Supersede and activate, both at an instant read before. *)
Definition promote_at (now : string) (previousActive : option Deployment) (deploymentId : string)
    (healthSummary : DeploymentHealthSummary) : M X Deployment :=
  match previousActive with
  | Some p =>
    DeploymentRepo_update (dep_id p) (mkDeploymentPatch (Some DS_superseded) None None None);; mret ()
  | None => mret ()
  end;;
  DeploymentRepo_update deploymentId
    (mkDeploymentPatch (Some DS_active) None (Some now) (Some (Some healthSummary))).

Definition tunnel_option (conn : CloudVmConnectionShape) (k : string) : option json :=
  match cv_tunnel_options conn with Some o => get_prop k o | None => None end.

(** Where to dial, and the tunnel that was opened for it. *)
Definition dial (conn : CloudVmConnectionShape) (mode : NetworkMode)
    : M X (string * jsnum * option jsnum) :=
  getInstanceIp ← external (cloudBackendResolver (cv_provider conn));
  let handle := mkCloudInstanceHandle (cv_instance_id conn) (cv_provider conn) (cv_name conn)
                  (cv_region conn) None (Some mode) in
  let port := cv_guest_agent_port conn ?? num_of_Z 443 in
  if bool_decide (mode = NM_public_mtls) then
    ip ← external (getInstanceIp handle);
    match truthy ip with
    | None => throw (EError ("cloud_vm deploy: backend returned no public IP for " +:+ cv_instance_id conn
        +:+ " (instance may not be running or may have no public network interface)"))
    | Some ip => mret (ip, port, None)
    end
  else
    descriptor ← lift (getConnectionDescriptor handle (Some port)
      (tunnel_option conn "azure_subscription_id") (tunnel_option conn "azure_resource_group")
      (tunnel_option conn "aws_profile") (tunnel_option conn "azure_bastion_name"));
    localPort ← external (dialer_open descriptor);
    mret ("127.0.0.1", localPort, Some localPort).

Definition package_check (deploymentId : string) (pkg : PerPackageResult) : M X unit :=
  HealthCheckRepo_append deploymentId ("install:" +:+ pkg_package pkg)
    (match pkg_status pkg with PS_installed | PS_skipped => HS_pass | PS_failed => HS_fail end) None
    (Some (match truthy (pkg_error pkg) with
           | Some e => pkg_source pkg +:+ ": " +:+ e
           | None => pkg_source pkg +:+ ": " +:+ PackageStatus_text (pkg_status pkg) +:+ " ("
                     +:+ show_Z (pkg_durationMs pkg) +:+ "ms)"
           end));;
  mret ().

(** Run the declared bundle: total, pass and fail, or nothing declared. *)
Definition install_bundle (conn : CloudVmConnectionShape) (target : Target) (deploymentId address : string)
    (port : jsnum) : M X (option (Z * Z * Z)) :=
  match truthy (cv_install_bundle_path conn) with
  | None => mret None
  | Some path =>
    yamlText ← external (read_text path);
    doc ← lift (YAML_parse yamlText);
    bundle ← lift (parseBundle doc);
    r ← external (installBundleInvoker address port bundle (tg_name target));
    for_each (ib_perPackageResults r) (package_check deploymentId);;
    if 0 <? ib_failed r then
      let first := match find_first (λ p, match pkg_status p with PS_failed => true | _ => false end)
                           (ib_perPackageResults r) with
                   | Some p => pkg_error p ?? "unknown"
                   | None => "unknown"
                   end in
      throw (EError ("install-bundle failed: " +:+ show_Z (ib_failed r) +:+ "/" +:+ show_Z (ib_totalPackages r)
        +:+ " packages errored (first failure: " +:+ first +:+ ")"))
    else mret (Some (ib_totalPackages r, ib_installed r + ib_skipped r, ib_failed r))
  end.

Definition close_tunnel (tunnel : option jsnum) : M X unit :=
  match tunnel with Some t => swallow (external (dialer_close t)) | None => mret () end.

(** The part of the [try] block after the address is known. *)
Definition cloud_vm_land (orgId actor : string) (release : Release) (target : Target)
    (conn : CloudVmConnectionShape) (mode : NetworkMode) (artifacts : list Artifact)
    (previousActive : option Deployment) (deploymentId address : string) (port : jsnum)
    : M X RunDeployResult :=
  reach ← external (reachabilityProbe address port);
  let (ok, detail) := (reach : bool * string) in
  HealthCheckRepo_append deploymentId "cloud_vm_reachable" (if ok then HS_pass else HS_fail) None (Some detail);;
  if negb ok then throw (EError ("cloud_vm_reachable probe failed: " +:+ detail)) else
  installSummary ← install_bundle conn target deploymentId address port;
  now ← nowIso;
  let healthSummary := match installSummary with
    | Some (total, pass, fail) => mkDeploymentHealthSummary (1 + total) (1 + pass) fail 0 (Some now)
    | None => mkDeploymentHealthSummary 1 1 0 0 (Some now)
    end in
  finalized ← promote_at now previousActive deploymentId healthSummary;
  AuditLogRepo_append orgId actor "release.deploy.completed" "deployment" deploymentId
    (Some ([("releaseId", JStr (rel_id release)); ("targetId", JStr (tg_id target))]
           ++ opt_prop "supersededId" (option_map (λ p, JStr (dep_id p)) previousActive)
           ++ [("network_mode", JStr (NetworkMode_text mode)); ("dial_address", JStr address);
               ("dial_port", JNum port);
               ("install_bundle", match installSummary with
                  | Some (t, p, f) => JObj [("total", JInt t); ("pass", JInt p); ("fail", JInt f)]
                  | None => JNull end)]));;
  mret (mkRunDeployResult finalized release target artifacts healthSummary).

(** The handler; the tunnel is closed if one was open. *)
Definition cloud_vm_failed {A} (orgId actor : string) (release : Release) (target : Target)
    (deploymentId : string) (tunnel : option jsnum) (err : Err) : M X A :=
  close_tunnel tunnel;;
  mark_failed orgId actor deploymentId (error_detail release target err);;
  throw err.

Definition runCloudVmReleaseDeploy (orgId releaseId : string) (target : Target) (actor : option string)
    : M X RunDeployResult :=
  let actor := actor ?? "cli" in
  conn ← lift (readCloudVmConnection target);
  release ← ready_release releaseId;
  artifacts ← ArtifactRepo_listForRelease (rel_id release);
  let mode := cv_network_mode conn ?? NM_public_mtls in
  let has k := negb (is_null (json_truthy (tunnel_option conn k))) in
  if bool_decide (mode = NM_azure_bastion) &&
     negb (has "azure_bastion_name" && has "azure_subscription_id" && has "azure_resource_group") then
    throw (EError "cloud_vm deploy: network_mode='azure_bastion' requires connection.tunnel_options.{azure_bastion_name, azure_subscription_id, azure_resource_group}. The Bastion host name is not inferable from the cloud handle alone — set it on the target row.")
  else
  previousActive ← DeploymentRepo_getActiveForTarget (tg_id target);
  deployment ← start_deployment orgId actor release target previousActive
    [("provider", JStr (cv_provider conn)); ("instance_id", JStr (cv_instance_id conn))];
  dialed ← try_catch (dial conn mode) (cloud_vm_failed orgId actor release target (dep_id deployment) None);
  let '(address, port, tunnel) := (dialed : string * jsnum * option jsnum) in
  result ← try_catch
    (cloud_vm_land orgId actor release target conn mode artifacts previousActive (dep_id deployment)
       address port)
    (cloud_vm_failed orgId actor release target (dep_id deployment) tunnel);
  close_tunnel tunnel;;
  mret result.

(** [{ ...extra_vars, release_tag, ... }], then the named alias. *)
Definition put_var (k : string) (v : json) (vars : json_object) : json_object :=
  if existsb (λ kv, kv.1 =?s k) vars
  then map (λ kv, if kv.1 =?s k then (k, v) else kv) vars else vars ++ [(k, v)].

Definition stack_vars (conn : CloudStackConnectionShape) (release : Release) : json_object :=
  let vars := put_var "release_commit_sha" (JStr (rel_commitSha release))
    (put_var "release_id" (JStr (rel_id release))
      (put_var "release_tag" (JStr (rel_tag release)) (cs_extra_vars conn ?? []))) in
  match truthy (cs_image_var_name conn) with
  | Some k => put_var k (JStr (rel_tag release)) vars
  | None => vars
  end.

Definition cloud_stack_body (orgId actor : string) (release : Release) (target : Target)
    (conn : CloudStackConnectionShape) (artifacts : list Artifact) (previousActive : option Deployment)
    (deploymentId : string) : M X RunDeployResult :=
  result ← external (applyModule (cs_stack_name conn) (cs_module_path conn) (stack_vars conn release));
  HealthCheckRepo_append deploymentId "stack_apply" HS_pass None
    (Some ("add=" +:+ show_Z (am_add result) +:+ " change=" +:+ show_Z (am_change result)
           +:+ " destroy=" +:+ show_Z (am_destroy result) +:+ " durationMs=" +:+ show_Z (am_durationMs result)));;
  now ← nowIso;
  let healthSummary := mkDeploymentHealthSummary 1 1 0 0 (Some now) in
  finalized ← promote_at now previousActive deploymentId healthSummary;
  AuditLogRepo_append orgId actor "release.deploy.completed" "deployment" deploymentId
    (Some ([("releaseId", JStr (rel_id release)); ("targetId", JStr (tg_id target))]
           ++ opt_prop "supersededId" (option_map (λ p, JStr (dep_id p)) previousActive)
           ++ [("stack_name", JStr (cs_stack_name conn)); ("outputs", JObj (am_outputs result));
               ("change_summary", JObj [("add", JInt (am_add result)); ("change", JInt (am_change result));
                                        ("destroy", JInt (am_destroy result))])]));;
  mret (mkRunDeployResult finalized release target artifacts healthSummary).

Definition cloud_stack_failed {A} (orgId actor : string) (release : Release) (target : Target)
    (conn : CloudStackConnectionShape) (deploymentId : string) (err : Err) : M X A :=
  HealthCheckRepo_append deploymentId "stack_apply" HS_fail None (Some (err_message err));;
  mark_failed orgId actor deploymentId
    [("releaseId", JStr (rel_id release)); ("targetId", JStr (tg_id target));
     ("stack_name", JStr (cs_stack_name conn)); ("error", JStr (err_message err))];;
  throw err.

Definition runCloudStackReleaseDeploy (orgId releaseId : string) (target : Target) (actor : option string)
    : M X RunDeployResult :=
  let actor := actor ?? "cli" in
  conn ← lift (readCloudStackConnection target);
  release ← ready_release releaseId;
  artifacts ← ArtifactRepo_listForRelease (rel_id release);
  previousActive ← DeploymentRepo_getActiveForTarget (tg_id target);
  deployment ← start_deployment orgId actor release target previousActive
    [("stack_name", JStr (cs_stack_name conn)); ("module_path", JStr (cs_module_path conn))];
  try_catch
    (cloud_stack_body orgId actor release target conn artifacts previousActive (dep_id deployment))
    (cloud_stack_failed orgId actor release target conn (dep_id deployment)).

Definition runCloudReleaseDeploy (orgId releaseId : string) (target : Target) (actor : option string)
    : M X RunDeployResult :=
  match tg_kind target with
  | TK_cloud_vm => runCloudVmReleaseDeploy orgId releaseId target actor
  | TK_cloud_stack => runCloudStackReleaseDeploy orgId releaseId target actor
  | k => throw (EError ("runCloudReleaseDeploy: unsupported target.kind " +:+ TargetKind_text k))
  end.

Definition runCloudReleaseRollback (orgId : string) (target : Target) (toReleaseId actor : option string)
    : M X RunDeployResult :=
  let actor := actor ?? "cli" in
  let name := tg_name target in
  toRelease ←
    match truthy toReleaseId with
    | Some r => mret r
    | None =>
      active ← DeploymentRepo_getActiveForTarget (tg_id target);
      match active with
      | None => throw (EError ("cloud rollback: target '" +:+ name
                  +:+ "' has no active deployment to roll back from"))
      | Some active =>
        match truthy (dep_previousDeploymentId active) with
        | None => throw (EError ("cloud rollback: target '" +:+ name
            +:+ "' has no prior deployment (this is the first deploy; nothing to roll back to). Re-run a manual release deploy with the desired release id explicitly."))
        | Some previous =>
          prior ← DeploymentRepo_get previous;
          match prior with
          | None => throw (EError ("cloud rollback: prior deployment " +:+ previous
              +:+ " not found (audit-log inconsistency; investigate before retrying)"))
          | Some prior => mret (dep_releaseId prior)
          end
        end
      end
    end;
  let kind := ("kind", JStr (TargetKind_text (tg_kind target))) in
  AuditLogRepo_append orgId actor "release.rollback.started" "target" (tg_id target)
    (Some [kind; ("toReleaseId", JStr toRelease); ("requested", JOptStr toReleaseId)]);;
  try_catch
    (result ← runCloudReleaseDeploy orgId toRelease target (Some actor);
     AuditLogRepo_append orgId actor "release.rollback.completed" "target" (tg_id target)
       (Some [kind; ("toReleaseId", JStr toRelease); ("deploymentId", JStr (dep_id (rd_deployment result)))]);;
     mret result)
    (λ err,
     AuditLogRepo_append orgId actor "release.rollback.failed" "target" (tg_id target)
       (Some [kind; ("toReleaseId", JStr toRelease); ("error", JStr (err_message err))]);;
     throw err).

(** ** Choosing the path *)

Context `{Zod} `{DeployBackend X} `{DeployHost X} `{Platform X}.

Definition isK8sTargetKind (k : TargetKind) : bool :=
  match k with TK_k8s_test | TK_k8s_demo => true | _ => false end.

Definition isCloudTargetKind (k : TargetKind) : bool :=
  match k with TK_cloud_vm | TK_cloud_stack => true | _ => false end.

Definition fire_deployed (orgId : string) (result : RunDeployResult) : M X unit :=
  now ← nowIso;
  let d := rd_deployment result in
  let hs := rd_healthSummary result in
  fireEventBestEffort (EvReleaseDeployed orgId now (dep_id d) (rel_id (rd_release result))
    (tg_name (rd_target result)) (DeploymentStatus_text (dep_status d))
    (Some (hsum_total hs, hsum_pass hs, hsum_fail hs)));;
  mret ().

(** The release a deploy names: by id, or by product and tag. *)
Definition resolve_release (orgId : string) (releaseId productName tag : option string) : M X string :=
  match truthy releaseId with
  | Some r => mret r
  | None =>
    match truthy productName, truthy tag with
    | Some productName, Some tag =>
      product ← ProductRepo_getByName orgId productName;
      match product with
      | None => throw (EError ("product not found: " +:+ productName))
      | Some product =>
        release ← ReleaseRepo_getByTag (pr_id product) tag;
        match release with
        | None => throw (EError ("no release for " +:+ productName +:+ "@" +:+ tag))
        | Some release => mret (rel_id release)
        end
      end
    | _, _ =>
      throw (EError "release deploy requires either --release <id> or --product <name> + --tag <tag>")
    end
  end.

Definition target_named (orgId name : string) : M X Target :=
  target ← TargetRepo_getByName orgId name;
  match target with None => throw (EError ("target not found: " +:+ name)) | Some t => mret t end.

Definition runReleaseRollback (targetName : string) (toReleaseId actor : option string)
    : M X RunDeployResult :=
  orgId ← getActiveOrgId;
  target ← target_named orgId targetName;
  if isK8sTargetKind (tg_kind target) then runK8sReleaseRollback orgId target actor
  else if isCloudTargetKind (tg_kind target) then runCloudReleaseRollback orgId target toReleaseId actor
  else
    result ← runRollback orgId (tg_id target) toReleaseId actor;
    now ← nowIso;
    fireEventBestEffort (EvDeploymentRolledBack orgId now (dep_id (rd_deployment result))
      (rel_id (rd_release result)) (tg_name (rd_target result)));;
    mret result.

(** *** With a promotion callback *)

Context `{D : !DeployInvoker X}.

Definition fireTierToTierPromotionBestEffort (release : Release) (sourceTargetId : string)
    : M X (list PromotionListenerOutcome) :=
  try_catch (onReleaseDeployed release sourceTargetId) (λ _, mret []).

Definition runReleaseDeploy (releaseId productName tag : option string) (targetName : string)
    (actor : option string) : M X RunDeployResult :=
  orgId ← getActiveOrgId;
  releaseId ← resolve_release orgId releaseId productName tag;
  target ← target_named orgId targetName;
  if isK8sTargetKind (tg_kind target) then runK8sReleaseDeploy orgId releaseId target actor
  else
    result ← (if isCloudTargetKind (tg_kind target)
              then runCloudReleaseDeploy orgId releaseId target actor
              else runDeploy orgId releaseId (tg_id target) actor None);
    fire_deployed orgId result;;
    (if bool_decide (dep_status (rd_deployment result) = DS_active)
     then fireTierToTierPromotionBestEffort (rd_release result) (tg_id target);; mret ()
     else mret ());;
    mret result.

(** The deploy of [createDefaultPromotionDeployInvoker]. *)
Definition default_deploy (releaseId destTargetId : string) (_ : Approval) (_ : PromotionPolicy)
    : M X DeployInvocation :=
  target ← TargetRepo_get destTargetId;
  match target with
  | None => mret (mkDeployInvocation None DO_failed (Some "dest target missing"))
  | Some target =>
    try_catch
      (result ← runReleaseDeploy (Some releaseId) None None (tg_name target) (Some "promotion");
       mret (mkDeployInvocation (Some (dep_id (rd_deployment result)))
               (if bool_decide (dep_status (rd_deployment result) = DS_active) then DO_success else DO_failed)
               None))
      (λ err, mret (mkDeployInvocation None DO_failed (Some (err_message err))))
  end.
End verbs.
