(* ===== verification/Http.v ===== *)
(** The HTTP control plane: errors, authentication and routing of http/errors.ts,
    http/auth.ts and http/router.ts.

    A request is what node hands to the listener, after the URL class has split
    the target into path and search parameters: texts are sequences of bytes in
    UTF-8.  A response is a status and the value that is serialised; socket and
    header details of writeJson are left out. *)

From S2P Require Import Prelude JsTime JsVal Types World Logic StorageCatalog StorageDeploy StorageOps.
From S2P Require Import Signing BuildYaml Build Probes Deploy CloudTypes K8s Events Promotion ReleaseDeploy.

(** ** Requests and responses *)

Record Request := mkRequest {
  rq_method : option string;
  rq_path : string;
  rq_query : list (string * string);
  rq_authorization : option string;
  rq_contentType : option string;
  rq_contentLength : option string;
  rq_chunks : list string;
  rq_remoteAddress : option string
}.

(** A key as it is shown: its hash is left out. *)
Record PublicApiKey := mkPublicApiKey {
  pak_id : string;
  pak_orgId : string;
  pak_prefix : string;
  pak_name : string;
  pak_expiresAt : option string;
  pak_createdAt : string;
  pak_updatedAt : string
}.

(** What a handler returns. *)
Inductive Reply :=
| R_null
| R_health (version : string)
| R_products (l : list Product)
| R_product (p : Product)
| R_releases (l : list ((string * string) * Release))
| R_release (r : Release)
| R_artifacts (l : list Artifact)
| R_artifact (a : Artifact)
| R_targets (l : list Target)
| R_target (t : Target)
| R_deployments (l : list Deployment)
| R_deployment (d : Deployment)
| R_checks (l : list HealthCheck)
| R_check (c : HealthCheck)
| R_scenarios (l : list Scenario)
| R_scenario (s : Scenario)
| R_entries (l : list AuditLogEntry)
| R_entry (e : AuditLogEntry)
| R_api_key_created (k : PublicApiKey) (token : string)
| R_api_keys (l : list PublicApiKey)
| R_runner (r : Runner)
| R_runners (l : list Runner)
| R_job (j : Job)
| R_claimed (j : option Job)
| R_jobs (l : list Job)
| R_blob_meta (uri sha256 : string) (size : Z)
| R_blob_bytes (content : string)
| R_error (code message : string).

Record Response := mkResponse { rs_status : Z; rs_reply : Reply }.

(** ** Errors *)

Definition notFound (message : string) : Err := EHttp 404 message "not_found".
Definition badRequest (message : string) : Err := EHttp 400 message "bad_request".
Definition unauthorized (message : string) : Err := EHttp 401 message "unauthorized".
Definition UNAUTHORIZED_MESSAGE : string := "missing or invalid bearer token".

Definition mapError (e : Err) : Response :=
  match e with
  | EHttp status message code => mkResponse status (R_error code message)
  | EStorageNotFound _ _ | EBlobNotFound _ => mkResponse 404 (R_error "not_found" (err_message e))
  | EStorageConflict message => mkResponse 409 (R_error "conflict" message)
  | ERepoUrlValidation message | EGitRefValidation message =>
    mkResponse 400 (R_error "validation_error" message)
  | EReleaseAlreadyExists message => mkResponse 409 (R_error "release_exists" message)
  | EComponentBuild message | EMissingArtifact message =>
    mkResponse 422 (R_error "build_failed" message)
  | EDeployBlocked message => mkResponse 409 (R_error "deploy_blocked" message)
  | EDeployHealthFailed message => mkResponse 422 (R_error "deploy_unhealthy" message)
  | _ => mkResponse 500 (R_error "internal_error" "internal server error")
  end.

(** ** decodeURIComponent *)

Definition hex_value (c : ascii) : option nat :=
  let n := Ascii.nat_of_ascii c in
  if ((48 <=? n) && (n <=? 57))%nat then Some (n - 48)%nat
  else if ((65 <=? n) && (n <=? 70))%nat then Some (n - 55)%nat
  else if ((97 <=? n) && (n <=? 102))%nat then Some (n - 87)%nat
  else None.

(** The octet of an escape at the head of a text, and what follows it. *)
Definition escape (s : string) : option (nat * string) :=
  match s with
  | String "%" (String a (String b s')) =>
    match hex_value a, hex_value b with
    | Some x, Some y => Some (16 * x + y, s')%nat
    | _, _ => None
    end
  | _ => None
  end.

(** The rest of an encoded code point: [n] further octets, the first within
    [lo, hi], the others within 128 and 191. *)
Fixpoint continuation (n : nat) (lo hi : nat) (s : string) : option (string * string) :=
  match n with
  | O => Some ("", s)
  | S n' =>
    match escape s with
    | Some (o, s') =>
      if ((lo <=? o) && (o <=? hi))%nat then
        match continuation n' 128 191 s' with
        | Some (bytes, rest) => Some (String (Ascii.ascii_of_nat o) bytes, rest)
        | None => None
        end
      else None
    | None => None
    end
  end.

(** An escaped code point in UTF-8; [None] is a URIError. *)
Definition escaped_char (s : string) : option (string * string) :=
  match escape s with
  | None => None
  | Some (o, s') =>
    let more n lo hi := match continuation n lo hi s' with
      | Some (bytes, rest) => Some (String (Ascii.ascii_of_nat o) bytes, rest)
      | None => None
      end in
    if (o <? 128)%nat then more 0%nat 128%nat 191%nat
    else if (o <? 194)%nat then None
    else if (o <? 224)%nat then more 1%nat 128%nat 191%nat
    else if (o =? 224)%nat then more 2%nat 160%nat 191%nat
    else if (o =? 237)%nat then more 2%nat 128%nat 159%nat
    else if (o <? 240)%nat then more 2%nat 128%nat 191%nat
    else if (o =? 240)%nat then more 3%nat 144%nat 191%nat
    else if (o <? 244)%nat then more 3%nat 128%nat 191%nat
    else if (o =? 244)%nat then more 3%nat 128%nat 143%nat
    else None
  end.

Fixpoint decode_with (fuel : nat) (s : string) : option string :=
  match fuel with
  | O => Some ""
  | S fuel' =>
    match s with
    | EmptyString => Some ""
    | String "%" _ =>
      match escaped_char s with
      | Some (bytes, rest) => option_map (String.append bytes) (decode_with fuel' rest)
      | None => None
      end
    | String c s' => option_map (String c) (decode_with fuel' s')
    end
  end.

(** Every step consumes a character. *)
Definition decodeURIComponent (s : string) : option string := decode_with (String.length s) s.

(** ** Route patterns *)

Inductive PathToken := PT_char (c : ascii) | PT_param (name : string).

Definition name_start (c : ascii) : bool := is_letter c || is_char "_" c.
Definition name_rest (c : ascii) : bool := is_letter c || is_digit c || is_char "_" c.

(** [:name] is a parameter, anything else stands for itself. *)
Fixpoint compile_with (fuel : nat) (path : string) : list PathToken :=
  match fuel with
  | O => []
  | S fuel' =>
    match path with
    | EmptyString => []
    | String ":" (String c rest) =>
      if name_start c then
        let (name, rest') := span name_rest rest in
        PT_param (String c name) :: compile_with fuel' rest'
      else PT_char ":" :: compile_with fuel' (String c rest)
    | String c rest => PT_char c :: compile_with fuel' rest
    end
  end.

Definition compile_path (path : string) : list PathToken := compile_with (String.length path) path.

(** Longest first, then shorter ones: the captures of the first split that
    matches. *)
Fixpoint first_split (n : nat) (run rest : string) (k : string → option (list (string * string))) (name : string)
    : option (list (string * string)) :=
  match n with
  | O => None
  | S n' =>
    match k (str_drop n run +:+ rest) with
    | Some caps => Some ((name, str_take n run) :: caps)
    | None => first_split n' run rest k name
    end
  end.

Fixpoint match_path (ts : list PathToken) (s : string) : option (list (string * string)) :=
  match ts with
  | [] => match s with EmptyString => Some [] | _ => None end
  | PT_char c :: ts' =>
    match s with String c' s' => if Ascii.eqb c c' then match_path ts' s' else None | EmptyString => None end
  | PT_param name :: ts' =>
    let (run, rest) := span (λ c, negb (is_char "/" c)) s in
    first_split (String.length run) run rest (match_path ts') name
  end.

(** ** Bodies *)

Definition MAX_BODY_BYTES : nat := Z.to_nat (1024 * 1024).
Definition DEFAULT_STREAM_BODY_MAX : Z := 1024 * 1024 * 1024.

Definition str_concat (l : list string) : string := fold_right String.append "" l.

Section http.
Context {X : Type} `{Oracle} `{JsEngine}.

(** The JSON value of the body; [None] is [undefined]. *)
Definition readBody (req : Request) : Res (option json) :=
  let raw := str_concat (rq_chunks req) in
  if (MAX_BODY_BYTES <? String.length raw)%nat then Throw (EError "request body too large")
  else match rq_chunks req with
  | [] => Ok None
  | _ =>
    if negb (str_includes (lower (rq_contentType req ?? "")) "application/json") then Ok (Some (JStr raw))
    else match JSON_parse raw with
    | Some v => Ok (Some v)
    | None => Throw (EError ("invalid JSON body: " +:+ json_syntax_error raw))
    end
  end.

(** What a handler reads from an upload, and the response if the cap is
    exceeded: at once for a declared length, while reading otherwise. *)
Inductive Upload :=
| UP_complete (content : string)
| UP_declared_too_large (declared : jsnum)
| UP_exceeded.

Definition capStreamBody (req : Request) (cap : Z) : Upload :=
  let declared := to_number (option_map JStr (rq_contentLength req)) in
  if num_isFinite declared && SFltb (num_of_Z cap) declared then UP_declared_too_large declared
  else if cap <? Z.of_nat (String.length (str_concat (rq_chunks req))) then UP_exceeded
  else UP_complete (str_concat (rq_chunks req)).

Definition upload_response (cap : Z) (u : Upload) : option Response :=
  match u with
  | UP_complete _ => None
  | UP_declared_too_large declared =>
    Some (mkResponse 413 (R_error "request_too_large"
      ("request body too large (max " +:+ show_Z cap +:+ " bytes, declared " +:+ num_to_string declared +:+ ")")))
  | UP_exceeded =>
    Some (mkResponse 413 (R_error "request_too_large"
      ("request body exceeded max " +:+ show_Z cap +:+ " bytes")))
  end.

(** ** Authentication *)

Record AuthContext := mkAuthContext { au_orgId : string; au_apiKeyId : option string }.

(** [0-9A-HJKMNP-TV-Z] *)
Definition is_crockford (c : ascii) : bool :=
  is_digit c || (is_upper c && negb (is_char "I" c) && negb (is_char "L" c) && negb (is_char "O" c)
                 && negb (is_char "U" c)).

(** TOKEN_RE: the prefix and the secret. *)
Definition match_token (token : string) : option (string * string) :=
  if negb (starts_with "sk_" token) then None else
  let (prefix, rest) := span is_crockford (str_drop 3 token) in
  match rest with
  | String "_" rest' =>
    let (secret, rest'') := span is_crockford rest' in
    if negb (prefix =?s "") && negb (secret =?s "") && (rest'' =?s "") then Some (prefix, secret) else None
  | _ => None
  end.

(** The credentials of an Authorization header that starts with Bearer. *)
Definition bearer_token (header : option string) : option string :=
  match header with
  | Some h =>
    let r := str_drop 6 h in
    if (lower (str_take 6 h) =?s "bearer") && negb (trim_start r =?s r) then Some (trim (trim_start r)) else None
  | None => None
  end.

Definition isLoopback (addr : option string) : bool :=
  match truthy addr with
  | None => false
  | Some a => (a =?s "127.0.0.1") || (a =?s "::1") || starts_with "127." a || (a =?s "::ffff:127.0.0.1")
  end.

Context {C : Crypto X}.

Definition verifyToken (token : string) : M X (option ApiKey) :=
  match match_token token with
  | None => mret None
  | Some (p, secret) =>
    apiKey ← ApiKeyRepo_getByPrefix ("sk_" +:+ p);
    match apiKey with
    | None => mret None
    | Some apiKey =>
      expired ← (match truthy (ak_expiresAt apiKey) with
                 | None => mret false
                 | Some e =>
                   now ← nowDate;
                   mret (match Date_parse legacy_date_parse e with Some t => t <? now | None => false end)
                 end);
      if expired : bool then mret None
      else if negb (sha256_hex secret =?s ak_hash apiKey) then mret None
      else mret (Some apiKey)
    end
  end.

Definition makeAuthenticator (disableLoopbackBypass : bool) (req : Request) : M X AuthContext :=
  match bearer_token (rq_authorization req) with
  | Some token =>
    apiKey ← verifyToken token;
    match apiKey with
    | None => throw (unauthorized "invalid bearer token")
    | Some k => mret (mkAuthContext (ak_orgId k) (Some (ak_id k)))
    end
  | None =>
    if negb disableLoopbackBypass && isLoopback (rq_remoteAddress req) then
      org ← ensureDefaultOrg; mret (mkAuthContext (org_id org) None)
    else throw (unauthorized UNAUTHORIZED_MESSAGE)
  end.

(** *** Keys *)

Definition CROCKFORD : string := "0123456789ABCDEFGHJKMNPQRSTVWXYZ".
Definition PREFIX_LEN : nat := 8.
Definition SECRET_LEN : nat := 26.

(** One character per byte, until there are [n]. *)
Fixpoint b32_from (n : nat) (bytes : string) : string :=
  match n, bytes with
  | S n', String b bytes' =>
    match String.get (Ascii.nat_of_ascii b mod 32) CROCKFORD with
    | Some c => String c (b32_from n' bytes')
    | None => ""
    end
  | _, _ => ""
  end.

(** ** Routes *)

Record RequestContext := mkRequestContext {
  cx_params : list (string * string);
  cx_query : list (string * string);
  cx_body : option json;
  cx_upload : option Upload;
  cx_auth : AuthContext
}.

(** A handler answers with 200 and a value, or with a status of its own. *)
Record Route := mkRoute {
  ro_method : string;
  ro_path : string;
  ro_handler : RequestContext → M X Response;
  ro_streamBody : option Z
}.

Definition decode_params (caps : list (string * string)) : Res (list (string * string)) :=
  foldr (λ kv acc,
    match decodeURIComponent kv.2, acc with
    | Some v, Ok l => Ok ((kv.1, v) :: l)
    | None, _ => Throw (EError "URI malformed")
    | _, Throw e => Throw e
    end) (Ok []) caps.

(** The first route of the method whose pattern matches. *)
Fixpoint find_route (method path : string) (routes : list Route) : option (Route * list (string * string)) :=
  match routes with
  | [] => None
  | r :: routes' =>
    if negb (ro_method r =?s method) then find_route method path routes'
    else match match_path (compile_path (ro_path r)) path with
    | Some caps => Some (r, caps)
    | None => find_route method path routes'
    end
  end.

Context (authenticate : Request → M X AuthContext) (publicPaths : list string).

Definition authorize (req : Request) : M X AuthContext :=
  if existsb (λ p, p =?s rq_path req) publicPaths then mret (mkAuthContext "" None) else authenticate req.

(** A matched route: its body is read before the request is authenticated. *)
Definition run_route (r : Route) (caps : list (string * string)) (req : Request) : M X Response :=
  params ← lift (decode_params caps);
  match ro_streamBody r with
  | None =>
    body ← lift (readBody req);
    auth ← authorize req;
    ro_handler r (mkRequestContext params (rq_query req) body None auth)
  | Some cap =>
    let upload := capStreamBody req cap in
    let run := auth ← authorize req;
               ro_handler r (mkRequestContext params (rq_query req) None (Some upload) auth) in
    match upload, upload_response cap upload with
    | UP_declared_too_large _, Some early => try_catch (run;; mret early) (λ _, mret early)
    | UP_exceeded, Some early =>
      auth ← authorize req;
      try_catch
        (ro_handler r (mkRequestContext params (rq_query req) None (Some upload) auth);; mret early)
        (λ _, mret early)
    | _, _ => run
    end
  end.

Definition handle (routes : list Route) (req : Request) : M X Response :=
  let method := rq_method req ?? "GET" in
  match find_route method (rq_path req) routes with
  | Some (r, caps) => run_route r caps req
  | None => mret (mkResponse 404 (R_error "not_found" ("no route for " +:+ method +:+ " " +:+ rq_path req)))
  end.

Definition listener (routes : list Route) (req : Request) : M X Response :=
  try_catch (handle routes req) (λ err, mret (mapError err)).
End http.
