(* ===== verification/HttpApp.v ===== *)
(** The routes of the HTTP control plane: http/app.ts, one definition per
    handler, and generateApiKey of http/auth.ts.

    The blob driver, the random generator and the package version are the class
    [HttpHost]. *)

From S2P Require Import Prelude JsTime JsVal Types World Logic StorageCatalog StorageDeploy StorageOps.
From S2P Require Import Signing BuildYaml Build Probes Deploy CloudTypes K8s Events Promotion ReleaseDeploy Http.

Class HttpHost (X : Type) := {
  VERSION : string;
  randomBytes : nat → X → string * X;
  (** cp.blobs.put of an upload: uri, sha256, size. *)
  blobs_put_stream : string → Upload → X → Res (string * string * Z) * X;
  blobs_resolveBySha : string → string → string;
  blobs_open : string → X → Res string * X;
  (** What [v as DeploymentHealthSummary] reads as when [v] is not one: the
      assertion is not checked at run time. *)
  asserted_summary : json → DeploymentHealthSummary
}.

(** ** Reading bodies and queries *)

Definition asObject (value : option json) (label : string) : Res json_object :=
  match value with
  | Some (JObj o) => Ok o
  | _ => Throw (badRequest (label +:+ " must be a JSON object"))
  end.

Definition quoted (field : string) : string := "'" +:+ field +:+ "'".

Definition readString (body : json_object) (field : string) : Res string :=
  match get_prop field body with
  | Some (JStr v) =>
    if (String.length v =? 0)%nat then Throw (badRequest (quoted field +:+ " is required (string)")) else Ok v
  | _ => Throw (badRequest (quoted field +:+ " is required (string)"))
  end.

Definition readOptionalString (body : json_object) (field : string) : Res (option string) :=
  match get_prop field body with
  | None | Some JNull => Ok None
  | Some (JStr v) => Ok (Some v)
  | Some _ => Throw (badRequest (quoted field +:+ " must be a string"))
  end.

Definition readOptionalInt (body : json_object) (field : string) : Res (option Z) :=
  match get_prop field body with
  | None | Some JNull => Ok None
  | Some (JNum v) =>
    if num_isInteger v then Ok (Some (num_floor v)) else Throw (badRequest (quoted field +:+ " must be an integer"))
  | Some _ => Throw (badRequest (quoted field +:+ " must be an integer"))
  end.

(** The value an allowed text stands for. *)
Definition one_of {A} (allowed : list (string * A)) (v : string) : option A :=
  option_map snd (find_first (λ kv, kv.1 =?s v) allowed).

Definition readEnum {A} (body : json_object) (field : string) (allowed : list (string * A)) : Res A :=
  match readString body field with
  | Throw e => Throw e
  | Ok v =>
    match one_of allowed v with
    | Some a => Ok a
    | None => Throw (badRequest (quoted field +:+ " must be one of " +:+ join "|" (map fst allowed)))
    end
  end.

Definition readOptionalEnum {A} (body : json_object) (field : string) (allowed : list (string * A))
    : Res (option A) :=
  let bad := Throw (badRequest (quoted field +:+ " must be one of " +:+ join "|" (map fst allowed))) in
  match get_prop field body with
  | None | Some JNull => Ok None
  | Some (JStr v) => match one_of allowed v with Some a => Ok (Some a) | None => bad end
  | Some _ => bad
  end.

Definition readStringQuery (query : list (string * string)) (name : string) : Res (option string) :=
  match select (λ kv, kv.1 =?s name) query with
  | [] => Ok None
  | [(_, v)] => Ok (Some v)
  | _ => Throw (badRequest ("query param '" +:+ name +:+ "' must not be repeated"))
  end.

Definition readIntQuery (query : list (string * string)) (name : string) : Res (option jsnum) :=
  match readStringQuery query name with
  | Throw e => Throw e
  | Ok None => Ok None
  | Ok (Some raw) =>
    let bad := Throw (badRequest ("query param '" +:+ name +:+ "' must be a non-negative integer")) in
    match parseInt10 raw with
    | None => bad
    | Some n => if SFltb n (S754_zero false) then bad else Ok (Some n)
    end
  end.

Definition RELEASE_STATUSES : list (string * ReleaseStatus) :=
  [("building", RS_building); ("ready", RS_ready); ("failed", RS_failed)].
Definition ARTIFACT_KINDS : list (string * ArtifactKind) := [("blob", AK_blob); ("image_ref", AK_image_ref)].
Definition HTTP_TARGET_KINDS : list (string * TargetKind) :=
  [("vm_test", TK_vm_test); ("vm_demo", TK_vm_demo); ("docker_test", TK_docker_test); ("docker_demo", TK_docker_demo)].
Definition DEPLOYMENT_STATUSES : list (string * DeploymentStatus) :=
  [("pending", DS_pending); ("deploying", DS_deploying); ("active", DS_active); ("failed", DS_failed);
   ("superseded", DS_superseded); ("rolled_back", DS_rolled_back)].
Definition HEALTH_STATUSES : list (string * HealthStatus) :=
  [("pass", HS_pass); ("fail", HS_fail); ("degraded", HS_degraded)].
Definition JOB_STATUSES : list (string * JobStatus) :=
  [("pending", JS_pending); ("claimed", JS_claimed); ("running", JS_running);
   ("succeeded", JS_succeeded); ("failed", JS_failed)].

Definition int_prop (field : string) (o : json_object) : option Z :=
  match get_prop field o with Some (JNum n) => if num_isInteger n then Some (num_floor n) else None | _ => None end.

(** The own enumerable properties of a value that passes as [Record<string, unknown>]. *)
Definition own_properties (v : json) : json_object :=
  match v with
  | JObj fields => fields
  | JArr l => imap (λ i x, (show_Z (Z.of_nat i), x)) l
  | JStr s => imap (λ i c, (show_Z (Z.of_nat i), JStr (String c EmptyString))) (String.list_ascii_of_string s)
  | _ => []
  end.

(** A health summary of the declared type. *)
Definition summary_of (v : json) : option (option DeploymentHealthSummary) :=
  match v with
  | JNull => Some None
  | JObj o =>
    match int_prop "total" o, int_prop "pass" o, int_prop "fail" o, int_prop "degraded" o,
          get_prop "lastCheckedAt" o with
    | Some t, Some p, Some f, Some d, None => Some (Some (mkDeploymentHealthSummary t p f d None))
    | Some t, Some p, Some f, Some d, Some (JStr at_) =>
      Some (Some (mkDeploymentHealthSummary t p f d (Some at_)))
    | _, _, _, _, _ => None
    end
  | _ => None
  end.

(** /^[a-f0-9]{64}$/ *)
Definition is_sha256 (s : string) : bool :=
  (String.length s =? 64)%nat &&
  negb (str_exists (λ c, negb (is_digit c
    || (is_lower c && (Ascii.nat_of_ascii c <=? 102)%nat))) s).

Section app.
Context {X : Type} `{Oracle} `{JsEngine} {C : Crypto X} {HH : HttpHost X}.

Definition ok (r : Reply) : M X Response := mret (mkResponse 200 r).
Definition created (r : Reply) : M X Response := mret (mkResponse 201 r).
Definition no_content : M X Response := mret (mkResponse 204 R_null).

Definition param (cx : RequestContext) (name : string) : string :=
  match find_first (λ kv, kv.1 =?s name) (cx_params cx) with Some kv => kv.2 | None => "undefined" end.

Definition org (cx : RequestContext) : string := au_orgId (cx_auth cx).

(** The driver refuses a LIMIT that is not a 64-bit integer. *)
Definition limit_of (n : option jsnum) : M X (option Z) :=
  match n with
  | None => mret None
  | Some n =>
    if num_isFinite n && (num_floor n <? 2 ^ 63) then mret (Some (num_floor n))
    else throw (ESqlite "datatype mismatch")
  end.

(** *** The row of the path, in the caller's organisation *)

Definition in_org {A} (what : string) (org_of : A → string) (cx : RequestContext) (id : string)
    (row : option A) : M X A :=
  match row with
  | Some r => if org_of r =?s org cx then mret r else throw (notFound (what +:+ " not found: " +:+ id))
  | None => throw (notFound (what +:+ " not found: " +:+ id))
  end.

Definition productInOrg (cx : RequestContext) (id : string) : M X Product :=
  row ← ProductRepo_get id; in_org "product" pr_orgId cx id row.
Definition releaseInOrg (cx : RequestContext) (id : string) : M X Release :=
  row ← ReleaseRepo_get id; in_org "release" rel_orgId cx id row.
Definition targetInOrg (cx : RequestContext) (id : string) : M X Target :=
  row ← TargetRepo_get id; in_org "target" tg_orgId cx id row.
Definition deploymentInOrg (cx : RequestContext) : M X Deployment :=
  row ← DeploymentRepo_get (param cx "id"); in_org "deployment" dep_orgId cx (param cx "id") row.
Definition jobInOrg (cx : RequestContext) : M X Job :=
  row ← JobRepo_get (param cx "id"); in_org "job" job_orgId cx (param cx "id") row.

(** *** Health and products *)

Definition get_healthz (cx : RequestContext) : M X Response := ok (R_health VERSION).

Definition get_products (cx : RequestContext) : M X Response :=
  products ← ProductRepo_listForOrg (org cx); ok (R_products products).

Definition post_products (cx : RequestContext) : M X Response :=
  body ← lift (asObject (cx_body cx) "request body");
  name ← lift (readString body "name");
  repoUrl ← lift (readString body "repo_url");
  validateRepoUrl repoUrl;;
  buildYamlPath ← lift (readOptionalString body "build_yaml_path");
  product ← ProductRepo_create (org cx) name repoUrl buildYamlPath;
  created (R_product product).

Definition get_product_by_name (cx : RequestContext) : M X Response :=
  product ← ProductRepo_getByName (org cx) (param cx "name");
  match product with
  | None => throw (notFound ("product not found: " +:+ param cx "name"))
  | Some p => ok (R_product p)
  end.

Definition get_product (cx : RequestContext) : M X Response :=
  product ← productInOrg cx (param cx "id"); ok (R_product product).

Definition patch_product (cx : RequestContext) : M X Response :=
  existing ← productInOrg cx (param cx "id");
  body ← lift (asObject (cx_body cx) "request body");
  name ← lift (readOptionalString body "name");
  repoUrl ← lift (readOptionalString body "repo_url");
  buildYamlPath ← lift (readOptionalString body "build_yaml_path");
  (match repoUrl with Some u => validateRepoUrl u | None => mret () end);;
  product ← ProductRepo_update (pr_id existing) name repoUrl buildYamlPath;
  ok (R_product product).

Definition delete_product (cx : RequestContext) : M X Response :=
  existing ← productInOrg cx (param cx "id");
  ProductRepo_softDelete (pr_id existing);;
  no_content.

(** *** Releases *)

Definition get_releases (cx : RequestContext) : M X Response :=
  productName ← lift (readStringQuery (cx_query cx) "product");
  statusFilter ← lift (readStringQuery (cx_query cx) "status");
  status ← (match statusFilter with
            | None => mret None
            | Some s =>
              match one_of RELEASE_STATUSES s with
              | Some st => mret (Some st)
              | None => throw (badRequest ("invalid status: '" +:+ s +:+ "'"))
              end
            end);
  products ← (match truthy productName with
              | Some n => p ← ProductRepo_getByName (org cx) n;
                          mret (match p with Some p => [p] | None => [] end)
              | None => ProductRepo_listForOrg (org cx)
              end);
  lists ← for_collect products (λ product,
    rs ← ReleaseRepo_listForProduct (pr_id product) status;
    mret (map (λ r, ((pr_id product, Types.pr_name product), r)) rs));
  ok (R_releases (concat lists)).

Definition post_releases (cx : RequestContext) : M X Response :=
  body ← lift (asObject (cx_body cx) "request body");
  productId ← lift (readString body "product_id");
  tag ← lift (readString body "tag");
  validateGitRef tag;;
  commitSha ← lift (readString body "commit_sha");
  product ← productInOrg cx productId;
  release ← ReleaseRepo_create (org cx) (pr_id product) tag commitSha None;
  created (R_release release).

Definition get_release (cx : RequestContext) : M X Response :=
  release ← releaseInOrg cx (param cx "id"); ok (R_release release).

Definition patch_release (cx : RequestContext) : M X Response :=
  release ← releaseInOrg cx (param cx "id");
  body ← lift (asObject (cx_body cx) "request body");
  status ← lift (readOptionalEnum body "status" RELEASE_STATUSES);
  manifestSha256 ← lift (readOptionalString body "manifest_sha256");
  signedBy ← lift (readOptionalString body "signed_by");
  builtAt ← lift (readOptionalString body "built_at");
  builtByRunnerId ← lift (readOptionalString body "built_by_runner_id");
  buildYamlJson ← lift (readOptionalString body "build_yaml_json");
  updated ← ReleaseRepo_update (rel_id release)
    (mkReleasePatch manifestSha256 signedBy None builtAt builtByRunnerId status buildYamlJson);
  ok (R_release updated).

Definition delete_release (cx : RequestContext) : M X Response :=
  release ← releaseInOrg cx (param cx "id");
  ReleaseRepo_softDelete (rel_id release);;
  no_content.

Definition get_release_artifacts (cx : RequestContext) : M X Response :=
  release ← releaseInOrg cx (param cx "id");
  artifacts ← ArtifactRepo_listForRelease (rel_id release);
  ok (R_artifacts artifacts).

Definition post_release_artifacts (cx : RequestContext) : M X Response :=
  release ← releaseInOrg cx (param cx "id");
  body ← lift (asObject (cx_body cx) "request body");
  kind ← lift (readEnum body "kind" ARTIFACT_KINDS);
  component ← lift (readString body "component");
  sha256 ← lift (readOptionalString body "sha256");
  sizeBytes ← lift (readOptionalInt body "size_bytes");
  blobUri ← lift (readOptionalString body "blob_uri");
  imageRef ← lift (readOptionalString body "image_ref");
  artifact ← ArtifactRepo_create (rel_id release) component kind sha256 sizeBytes blobUri imageRef;
  created (R_artifact artifact).

(** *** Targets *)

Definition get_targets (cx : RequestContext) : M X Response :=
  targets ← TargetRepo_listForOrg (org cx); ok (R_targets targets).

Definition post_targets (cx : RequestContext) : M X Response :=
  body ← lift (asObject (cx_body cx) "request body");
  kind ← lift (readEnum body "kind" HTTP_TARGET_KINDS);
  match get_prop "connection" body with
  | Some (JObj _ as connection) | Some (JArr _ as connection) =>
    name ← lift (readString body "name");
    target ← TargetRepo_create (org cx) name kind (own_properties connection);
    created (R_target target)
  | _ => throw (badRequest "connection must be an object")
  end.

Definition get_target_by_name (cx : RequestContext) : M X Response :=
  target ← TargetRepo_getByName (org cx) (param cx "name");
  match target with
  | None => throw (notFound ("target not found: " +:+ param cx "name"))
  | Some t => ok (R_target t)
  end.

Definition get_target (cx : RequestContext) : M X Response :=
  target ← targetInOrg cx (param cx "id"); ok (R_target target).

Definition delete_target (cx : RequestContext) : M X Response :=
  target ← targetInOrg cx (param cx "id");
  TargetRepo_softDelete (tg_id target);;
  no_content.

Definition get_target_deployments (cx : RequestContext) : M X Response :=
  target ← targetInOrg cx (param cx "id");
  limit ← lift (readIntQuery (cx_query cx) "limit");
  limit ← limit_of limit;
  deployments ← DeploymentRepo_listForTarget (tg_id target) limit;
  ok (R_deployments deployments).

(** *** Deployments *)

Definition post_deployments (cx : RequestContext) : M X Response :=
  body ← lift (asObject (cx_body cx) "request body");
  releaseId ← lift (readString body "release_id");
  targetId ← lift (readString body "target_id");
  previousDeploymentId ← lift (readOptionalString body "previous_deployment_id");
  release ← releaseInOrg cx releaseId;
  target ← targetInOrg cx targetId;
  deployment ← DeploymentRepo_create (org cx) (rel_id release) (tg_id target) previousDeploymentId;
  created (R_deployment deployment).

Definition get_deployment (cx : RequestContext) : M X Response :=
  deployment ← deploymentInOrg cx; ok (R_deployment deployment).

Definition patch_deployment (cx : RequestContext) : M X Response :=
  deployment ← deploymentInOrg cx;
  body ← lift (asObject (cx_body cx) "request body");
  status ← lift (readOptionalEnum body "status" DEPLOYMENT_STATUSES);
  startedAt ← lift (readOptionalString body "started_at");
  completedAt ← lift (readOptionalString body "completed_at");
  let healthSummary := option_map (λ v,
    match summary_of v with Some typed => typed | None => Some (asserted_summary v) end)
    (get_prop "health_summary" body) in
  updated ← DeploymentRepo_update (dep_id deployment)
    (mkDeploymentPatch status startedAt completedAt healthSummary);
  ok (R_deployment updated).

Definition get_deployment_health (cx : RequestContext) : M X Response :=
  deployment ← deploymentInOrg cx;
  since ← lift (readStringQuery (cx_query cx) "since");
  limit ← lift (readIntQuery (cx_query cx) "limit");
  limit ← limit_of limit;
  checks ← HealthCheckRepo_listForDeployment (dep_id deployment) since limit;
  ok (R_checks checks).

Definition post_deployment_health (cx : RequestContext) : M X Response :=
  deployment ← deploymentInOrg cx;
  body ← lift (asObject (cx_body cx) "request body");
  status ← lift (readEnum body "status" HEALTH_STATUSES);
  probeName ← lift (readString body "probe_name");
  latencyMs ← lift (readOptionalInt body "latency_ms");
  detail ← lift (readOptionalString body "detail");
  check ← HealthCheckRepo_append (dep_id deployment) probeName status latencyMs detail;
  created (R_check check).

(** *** Scenarios and the audit log *)

Definition get_scenarios (cx : RequestContext) : M X Response :=
  scenarios ← ScenarioRepo_listForOrg (org cx); ok (R_scenarios scenarios).

Definition get_scenario (cx : RequestContext) : M X Response :=
  row ← ScenarioRepo_get (param cx "id");
  scenario ← in_org "scenario" sc_orgId cx (param cx "id") row;
  ok (R_scenario scenario).

Definition get_audit (cx : RequestContext) : M X Response :=
  limit ← lift (readIntQuery (cx_query cx) "limit");
  entityType ← lift (readStringQuery (cx_query cx) "entity_type");
  entityId ← lift (readStringQuery (cx_query cx) "entity_id");
  limit ← limit_of limit;
  entries ← AuditLogRepo_listForOrg (org cx) limit entityType entityId;
  ok (R_entries entries).

Definition post_audit (cx : RequestContext) : M X Response :=
  body ← lift (asObject (cx_body cx) "request body");
  actor ← lift (readString body "actor");
  action ← lift (readString body "action");
  entityType ← lift (readString body "entity_type");
  entityId ← lift (readString body "entity_id");
  let detail := option_map own_properties (json_truthy (get_prop "detail" body)) in
  entry ← AuditLogRepo_append (org cx) actor action entityType entityId detail;
  created (R_entry entry).

(** *** API keys *)

Record GeneratedApiKey := mkGeneratedApiKey { gk_token : string; gk_prefix : string; gk_hash : string }.

Definition randomB32 (n : nat) : M X string :=
  external (λ x, let (bytes, x') := randomBytes (n * 2) x in (Ok (b32_from n bytes), x')).

Definition generateApiKey : M X GeneratedApiKey :=
  prefixChars ← randomB32 PREFIX_LEN;
  secretChars ← randomB32 SECRET_LEN;
  let prefix := "sk_" +:+ prefixChars in
  mret (mkGeneratedApiKey (prefix +:+ "_" +:+ secretChars) prefix (sha256_hex secretChars)).

Definition public_key (k : ApiKey) : PublicApiKey :=
  mkPublicApiKey (ak_id k) (ak_orgId k) (ak_prefix k) (ak_name k) (ak_expiresAt k) (ak_createdAt k) (ak_updatedAt k).

Definition post_api_keys (cx : RequestContext) : M X Response :=
  body ← lift (asObject (cx_body cx) "request body");
  generated ← generateApiKey;
  name ← lift (readString body "name");
  expiresAt ← lift (readOptionalString body "expires_at");
  apiKey ← ApiKeyRepo_create (org cx) name (gk_prefix generated) (gk_hash generated) expiresAt;
  created (R_api_key_created (public_key apiKey) (gk_token generated)).

Definition get_api_keys (cx : RequestContext) : M X Response :=
  keys ← ApiKeyRepo_listForOrg (org cx); ok (R_api_keys (map public_key keys)).

Definition delete_api_key (cx : RequestContext) : M X Response :=
  row ← ApiKeyRepo_get (param cx "id");
  key ← in_org "api key" ak_orgId cx (param cx "id") row;
  ApiKeyRepo_softDelete (ak_id key);;
  no_content.

(** *** Runners *)

Definition post_runner_heartbeat (cx : RequestContext) : M X Response :=
  body ← lift (asObject (cx_body cx) "request body");
  name ← lift (readString body "name");
  meta ← (match get_prop "meta" body with
          | None | Some JNull => mret None
          | v => o ← lift (asObject v "meta"); mret (Some (Some o))
          end);
  runner ← RunnerRepo_heartbeat (org cx) name meta;
  ok (R_runner runner).

Definition get_runners (cx : RequestContext) : M X Response :=
  runners ← RunnerRepo_listForOrg (org cx); ok (R_runners runners).

Definition delete_runner (cx : RequestContext) : M X Response :=
  row ← RunnerRepo_get (param cx "id");
  runner ← in_org "runner" rn_orgId cx (param cx "id") row;
  RunnerRepo_softDelete (rn_id runner);;
  no_content.

(** *** Jobs *)

Definition post_jobs (cx : RequestContext) : M X Response :=
  body ← lift (asObject (cx_body cx) "request body");
  kind ← lift (readString body "kind");
  inputObj ← (match get_prop "input" body with
              | None => mret None
              | v => o ← lift (asObject v "input"); mret (Some o)
              end);
  (match inputObj with
   | Some o =>
     if kind =?s "release.build" then
       match get_prop "tag" o with Some (JStr tag) => validateGitRef tag | _ => mret () end
     else mret ()
   | None => mret ()
   end);;
  job ← JobRepo_create (org cx) kind inputObj;
  created (R_job job).

Definition get_jobs (cx : RequestContext) : M X Response :=
  limit ← lift (readIntQuery (cx_query cx) "limit");
  statusFilter ← lift (readStringQuery (cx_query cx) "status");
  status ← (match statusFilter with
            | None => mret None
            | Some s =>
              match one_of JOB_STATUSES s with
              | Some st => mret (Some st)
              | None => throw (badRequest ("invalid status: '" +:+ s +:+ "'"))
              end
            end);
  limit ← limit_of limit;
  jobs ← JobRepo_listForOrg (org cx) limit status;
  ok (R_jobs jobs).

Definition get_job (cx : RequestContext) : M X Response :=
  job ← jobInOrg cx; ok (R_job job).

(** A body that may be absent. *)
Definition optional_body (cx : RequestContext) : M X json_object :=
  match cx_body cx with None => mret [] | v => lift (asObject v "request body") end.

Definition post_jobs_claim (cx : RequestContext) : M X Response :=
  body ← optional_body cx;
  claimedBy ← lift (readOptionalString body "claimed_by");
  job ← JobRepo_claimNext (org cx) (claimedBy ?? "anonymous");
  ok (R_claimed job).

Definition post_job_complete (cx : RequestContext) : M X Response :=
  job ← jobInOrg cx;
  body ← optional_body cx;
  result ← (match get_prop "result" body with
            | None => mret None
            | v => o ← lift (asObject v "result"); mret (Some o)
            end);
  now ← nowIso;
  updated ← JobRepo_update (job_id job)
    (mkJobPatch (Some JS_succeeded) (Some result) None None (Some (Some now)));
  ok (R_job updated).

Definition post_job_fail (cx : RequestContext) : M X Response :=
  job ← jobInOrg cx;
  body ← optional_body cx;
  error ← lift (readString body "error");
  now ← nowIso;
  updated ← JobRepo_update (job_id job)
    (mkJobPatch (Some JS_failed) None (Some (Some error)) None (Some (Some now)));
  ok (R_job updated).

Definition patch_job (cx : RequestContext) : M X Response :=
  job ← jobInOrg cx;
  body ← lift (asObject (cx_body cx) "request body");
  status ← lift (readOptionalEnum body "status" JOB_STATUSES);
  startedAt ← lift (readOptionalString body "started_at");
  completedAt ← lift (readOptionalString body "completed_at");
  error ← lift (readOptionalString body "error");
  result ← (match get_prop "result" body with
            | None => mret None
            | Some JNull => mret (Some None)
            | v => o ← lift (asObject v "result"); mret (Some (Some o))
            end);
  updated ← JobRepo_update (job_id job)
    (mkJobPatch status result (option_map Some error) (option_map Some startedAt) (option_map Some completedAt));
  ok (R_job updated).

(** *** Blobs *)

Definition post_blobs (cx : RequestContext) : M X Response :=
  match cx_upload cx with
  | None => throw (badRequest "blob upload requires a request body")
  | Some upload =>
    meta ← external (blobs_put_stream (org cx) upload);
    let '(uri, sha, size) := (meta : string * string * Z) in
    created (R_blob_meta uri sha size)
  end.

Definition get_blob (cx : RequestContext) : M X Response :=
  let sha := param cx "sha256" in
  if negb (is_sha256 sha) then mret (mkResponse 400 (R_error "bad_request" "sha256 must be 64 hex chars"))
  else
    try_catch
      (content ← external (blobs_open (blobs_resolveBySha (org cx) sha)); ok (R_blob_bytes content))
      (λ err, match err with
              | EBlobNotFound _ => mret (mkResponse 404 (R_error "not_found" ("blob not found: " +:+ sha)))
              | _ => throw err
              end).

(** ** The table *)

Definition routes : list Route :=
  [ mkRoute "GET" "/v1/healthz" get_healthz None;
    mkRoute "GET" "/v1/products" get_products None;
    mkRoute "POST" "/v1/products" post_products None;
    mkRoute "GET" "/v1/products/by-name/:name" get_product_by_name None;
    mkRoute "GET" "/v1/products/:id" get_product None;
    mkRoute "PATCH" "/v1/products/:id" patch_product None;
    mkRoute "DELETE" "/v1/products/:id" delete_product None;
    mkRoute "GET" "/v1/releases" get_releases None;
    mkRoute "POST" "/v1/releases" post_releases None;
    mkRoute "GET" "/v1/releases/:id" get_release None;
    mkRoute "PATCH" "/v1/releases/:id" patch_release None;
    mkRoute "DELETE" "/v1/releases/:id" delete_release None;
    mkRoute "GET" "/v1/releases/:id/artifacts" get_release_artifacts None;
    mkRoute "POST" "/v1/releases/:id/artifacts" post_release_artifacts None;
    mkRoute "GET" "/v1/targets" get_targets None;
    mkRoute "POST" "/v1/targets" post_targets None;
    mkRoute "GET" "/v1/targets/by-name/:name" get_target_by_name None;
    mkRoute "GET" "/v1/targets/:id" get_target None;
    mkRoute "DELETE" "/v1/targets/:id" delete_target None;
    mkRoute "GET" "/v1/targets/:id/deployments" get_target_deployments None;
    mkRoute "POST" "/v1/deployments" post_deployments None;
    mkRoute "GET" "/v1/deployments/:id" get_deployment None;
    mkRoute "PATCH" "/v1/deployments/:id" patch_deployment None;
    mkRoute "GET" "/v1/deployments/:id/health" get_deployment_health None;
    mkRoute "POST" "/v1/deployments/:id/health" post_deployment_health None;
    mkRoute "GET" "/v1/scenarios" get_scenarios None;
    mkRoute "GET" "/v1/scenarios/:id" get_scenario None;
    mkRoute "GET" "/v1/audit" get_audit None;
    mkRoute "POST" "/v1/audit" post_audit None;
    mkRoute "POST" "/v1/api-keys" post_api_keys None;
    mkRoute "GET" "/v1/api-keys" get_api_keys None;
    mkRoute "DELETE" "/v1/api-keys/:id" delete_api_key None;
    mkRoute "POST" "/v1/runners/heartbeat" post_runner_heartbeat None;
    mkRoute "GET" "/v1/runners" get_runners None;
    mkRoute "DELETE" "/v1/runners/:id" delete_runner None;
    mkRoute "POST" "/v1/jobs" post_jobs None;
    mkRoute "GET" "/v1/jobs" get_jobs None;
    mkRoute "GET" "/v1/jobs/:id" get_job None;
    mkRoute "POST" "/v1/jobs/claim" post_jobs_claim None;
    mkRoute "POST" "/v1/jobs/:id/complete" post_job_complete None;
    mkRoute "POST" "/v1/jobs/:id/fail" post_job_fail None;
    mkRoute "PATCH" "/v1/jobs/:id" patch_job None;
    mkRoute "POST" "/v1/blobs" post_blobs (Some (1024 * 1024 * 1024));
    mkRoute "GET" "/v1/blobs/:sha256" get_blob None ].

Definition PUBLIC_PATHS : list string := ["/v1/healthz"].

(** buildApp(opts).listener(). *)
Definition app (disableLoopbackBypass : bool) (req : Request) : M X Response :=
  listener (makeAuthenticator disableLoopbackBypass) PUBLIC_PATHS routes req.
End app.
