(* ===== verification/Worker.v ===== *)
(** The runner (runner/client.ts, runner/http-control-plane.ts, runner/worker.ts):
    the HTTP client with its calls, the control plane that a remote build sees
    through it, and the loops of a worker.  The network is the class [Network];
    [server_network] is the one whose other end is the HTTP server of [HttpApp]. *)

From S2P Require Import Prelude JsTime JsVal Types World Logic StorageCatalog StorageDeploy StorageOps.
From S2P Require Import Signing BuildYaml Build Probes Deploy CloudTypes Budget Cloud K8s Events Promotion ReleaseDeploy.
From S2P Require Import Http HttpApp.

(** ** The client *)

Record HttpClient := mkHttpClient { hc_baseUrl : string; hc_token : option string }.

(** [s.replace(/\/+$/, "")]. *)
Fixpoint strip_slashes (s : string) : string :=
  match s with
  | EmptyString => ""
  | String c s' =>
    match strip_slashes s' with
    | EmptyString => if is_char "/" c then "" else String c ""
    | r => String c r
    end
  end.

Definition new_HttpClient (baseUrl : string) (token : option string) : HttpClient :=
  mkHttpClient (strip_slashes baseUrl) token.

(** What came back: nothing, a text that is not JSON, or JSON, read as the value
    that the server printed. *)
Inductive FetchBody := FB_empty | FB_text (text : string) | FB_json (value : Reply).

Record FetchResponse := mkFetchResponse { fr_status : Z; fr_body : FetchBody }.

Class Network (X : Type) := {
  (** url, method, Authorization, Content-Type, body *)
  fetch : string → string → option string → option string → option string → M X FetchResponse
}.

(** encodeURIComponent, byte by byte of UTF-8. *)
Definition uri_unreserved (c : ascii) : bool :=
  is_letter c || is_digit c || existsb (λ d, is_char d c) ["-"; "_"; "."; "!"; "~"; "*"; "'"; "("; ")"]%char.

Definition upper_hex (n : nat) : ascii :=
  match String.get n "0123456789ABCDEF" with Some c => c | None => "0"%char end.

Fixpoint encodeURIComponent (s : string) : string :=
  match s with
  | EmptyString => ""
  | String c s' =>
    let n := Ascii.nat_of_ascii c in
    (if uri_unreserved c then String c ""
     else String "%" (String (upper_hex (n / 16)) (String (upper_hex (n mod 16)) "")))
    +:+ encodeURIComponent s'
  end.

Definition res_ok (status : Z) : bool := (200 <=? status) && (status <=? 299).

(** The error of a response that is not ok. *)
Definition client_error (status : Z) (body : FetchBody) : Err :=
  match body with
  | FB_json (R_error code message) => EHttpClient status code message
  | _ => EHttpClient status "http_error" ("HTTP " +:+ show_Z status)
  end.

(** Destructuring [undefined] or [null]. *)
Definition destructure {A} (value : option Reply) (prop : Reply → option A) : Res (option A) :=
  match value with
  | None | Some R_null => Throw (EError "Cannot destructure property of undefined or null")
  | Some r => Ok (prop r)
  end.

Definition reply_job (r : Reply) : option Job :=
  match r with R_job j => Some j | R_claimed o => o | _ => None end.
Definition reply_product (r : Reply) : option Product := match r with R_product p => Some p | _ => None end.
Definition reply_release (r : Reply) : option Release := match r with R_release x => Some x | _ => None end.
Definition reply_releases (r : Reply) : option (list Release) :=
  match r with R_releases l => Some (map snd l) | _ => None end.
Definition reply_artifact (r : Reply) : option Artifact := match r with R_artifact a => Some a | _ => None end.
Definition reply_entry (r : Reply) : option AuditLogEntry := match r with R_entry e => Some e | _ => None end.
Definition reply_runner (r : Reply) : option Runner := match r with R_runner x => Some x | _ => None end.

(** A value that a type assertion takes for granted: reading a property of
    [undefined] throws. *)
Definition asserted {A} (what : string) (o : option A) : Res A :=
  match o with
  | Some a => Ok a
  | None => Throw (EError ("Cannot read properties of undefined (reading '" +:+ what +:+ "')"))
  end.

Section client.
Context {X : Type} `{Oracle} `{JsEngine} {N : Network X}.

Definition bearer (c : HttpClient) : option string := option_map (λ t, "Bearer " +:+ t) (truthy (hc_token c)).

Definition client_request (c : HttpClient) (method path : string) (body : option json) : M X (option Reply) :=
  res ← fetch (hc_baseUrl c +:+ path) method (bearer c) (option_map (λ _, "application/json") body)
          (option_map json_stringify body);
  if fr_status res =? 204 then mret None
  else match fr_body res with
  | FB_text text =>
    throw (EHttpClient (fr_status res) "non_json_response" ("non-JSON response: " +:+ str_take 200 text))
  | FB_empty => if res_ok (fr_status res) then mret None else throw (client_error (fr_status res) FB_empty)
  | FB_json v => if res_ok (fr_status res) then mret (Some v) else throw (client_error (fr_status res) (FB_json v))
  end.

Definition productByName (c : HttpClient) (name : string) : M X (option Product) :=
  r ← client_request c "GET" ("/v1/products/by-name/" +:+ encodeURIComponent name) None;
  lift (destructure r reply_product).

Definition submitJob (c : HttpClient) (kind : string) (input : json_object) : M X (option Job) :=
  r ← client_request c "POST" "/v1/jobs" (Some (JObj [("kind", JStr kind); ("input", JObj input)]));
  lift (destructure r reply_job).

Definition getJob (c : HttpClient) (id : string) : M X (option Job) :=
  r ← client_request c "GET" ("/v1/jobs/" +:+ id) None; lift (destructure r reply_job).

Definition claim_body (claimedBy : string) : json := JObj [("claimed_by", JStr claimedBy)].
Definition complete_body (result : option json) : json := JObj (opt_prop "result" result).
Definition fail_body (error : string) : json := JObj [("error", JStr error)].
Definition running_body (now : string) : json := JObj [("status", JStr "running"); ("started_at", JStr now)].

Definition claimJob (c : HttpClient) (claimedBy : string) : M X (option Job) :=
  r ← client_request c "POST" "/v1/jobs/claim" (Some (claim_body claimedBy)); lift (destructure r reply_job).

Definition completeJob (c : HttpClient) (id : string) (result : option json) : M X (option Job) :=
  r ← client_request c "POST" ("/v1/jobs/" +:+ id +:+ "/complete") (Some (complete_body result));
  lift (destructure r reply_job).

Definition failJob (c : HttpClient) (id error : string) : M X (option Job) :=
  r ← client_request c "POST" ("/v1/jobs/" +:+ id +:+ "/fail") (Some (fail_body error));
  lift (destructure r reply_job).

Definition setJobRunning (c : HttpClient) (id : string) : M X (option Job) :=
  now ← nowIso;
  r ← client_request c "PATCH" ("/v1/jobs/" +:+ id) (Some (running_body now)); lift (destructure r reply_job).

Definition postRunnerHeartbeat (c : HttpClient) (name : string) (meta : option json_object) : M X (option Runner) :=
  r ← client_request c "POST" "/v1/runners/heartbeat" (Some (JObj (("name", JStr name) :: opt_prop "meta" (option_map JObj meta))));
  lift (destructure r reply_runner).

Definition uploadBlob (c : HttpClient) (content : string) (contentType : option string) : M X (option Reply) :=
  res ← fetch (hc_baseUrl c +:+ "/v1/blobs") "POST" (bearer c) (Some (contentType ?? "application/octet-stream")) (Some content);
  match fr_body res with
  | FB_text text =>
    throw (EHttpClient (fr_status res) "non_json_response" ("non-JSON response from POST /v1/blobs: " +:+ str_take 200 text))
  | body =>
    if res_ok (fr_status res) then mret (match body with FB_json v => Some v | _ => None end)
    else throw (client_error (fr_status res) body)
  end.

(** ** The control plane of a remote build *)

(** [catch (err) { if (err.status === 404) return null; throw err; }] *)
Definition null_on_404 {A} (m : M X (option A)) : M X (option A) :=
  try_catch m (λ err, match err with
    | EHttpClient 404 _ _ | EHttp 404 _ _ => mret None
    | _ => throw err
    end).

Definition http_products_get (c : HttpClient) (id : string) : M X (option Product) :=
  null_on_404 (r ← client_request c "GET" ("/v1/products/" +:+ encodeURIComponent id) None;
               lift (destructure r reply_product)).

Definition http_releases_getByTag (c : HttpClient) (productId tag : string) : M X (option Release) :=
  product ← http_products_get c productId;
  match product with
  | None => mret None
  | Some product =>
    r ← client_request c "GET" ("/v1/releases?product=" +:+ encodeURIComponent (Types.pr_name product)) None;
    releases ← lift (destructure r reply_releases);
    releases ← lift (asserted "find" releases);
    mret (find_first (λ r, rel_tag r =?s tag) releases)
  end.

Definition http_releases_create (c : HttpClient) (productId tag commitSha : string) (status : option ReleaseStatus)
    : M X (option Release) :=
  r ← client_request c "POST" "/v1/releases"
        (Some (JObj [("product_id", JStr productId); ("tag", JStr tag); ("commit_sha", JStr commitSha)]));
  release ← lift (destructure r reply_release);
  match status with
  | None => mret release
  | Some st =>
    rel ← lift (asserted "status" release);
    if bool_decide (st = rel_status rel) then mret release
    else r ← client_request c "PATCH" ("/v1/releases/" +:+ rel_id rel)
               (Some (JObj [("status", JStr (ReleaseStatus_text st))]));
         lift (destructure r reply_release)
  end.

Definition http_releases_softDelete (c : HttpClient) (id : string) : M X unit :=
  client_request c "DELETE" ("/v1/releases/" +:+ encodeURIComponent id) None;; mret ().

(** A field of a patch is absent, null or a text. *)
Definition nullable (v : option string) : json := match v with Some s => JStr s | None => JNull end.

Definition http_releases_update (c : HttpClient) (id : string) (status : option ReleaseStatus)
    (manifestSha256 signedBy builtAt builtByRunnerId buildYamlJson : option (option string)) : M X (option Release) :=
  r ← client_request c "PATCH" ("/v1/releases/" +:+ encodeURIComponent id)
    (Some (JObj (opt_prop "status" (option_map (λ s, JStr (ReleaseStatus_text s)) status)
      ++ opt_prop "manifest_sha256" (option_map nullable manifestSha256)
      ++ opt_prop "signed_by" (option_map nullable signedBy)
      ++ opt_prop "built_at" (option_map nullable builtAt)
      ++ opt_prop "built_by_runner_id" (option_map nullable builtByRunnerId)
      ++ opt_prop "build_yaml_json" (option_map nullable buildYamlJson))));
  lift (destructure r reply_release).

Definition http_artifacts_create (c : HttpClient) (releaseId component : string) (kind : ArtifactKind)
    (sha256 : option string) (sizeBytes : option Z) (blobUri imageRef : option string) : M X (option Artifact) :=
  r ← client_request c "POST" ("/v1/releases/" +:+ encodeURIComponent releaseId +:+ "/artifacts")
    (Some (JObj ([("component", JStr component);
                  ("kind", JStr (ArtifactKind_text kind))]
      ++ opt_prop "sha256" (option_map JStr sha256)
      ++ opt_prop "size_bytes" (option_map JInt sizeBytes)
      ++ opt_prop "blob_uri" (option_map JStr blobUri)
      ++ opt_prop "image_ref" (option_map JStr imageRef))));
  lift (destructure r reply_artifact).

Definition http_auditLog_append (c : HttpClient) (actor action entityType entityId : string)
    (detail : option json_object) : M X (option AuditLogEntry) :=
  r ← client_request c "POST" "/v1/audit"
    (Some (JObj ([("actor", JStr actor); ("action", JStr action); ("entity_type", JStr entityType);
                  ("entity_id", JStr entityId)] ++ opt_prop "detail" (option_map JObj detail))));
  lift (destructure r reply_entry).
End client.

(** ** The worker *)

Class WorkerHost (X : Type) := {
  (** [sleep(ms, signal)]: until the time is over or the signal aborts. *)
  sleep : jsnum → X → X;
  (** A plain [setTimeout], which no signal ends early. *)
  timer : jsnum → X → X;
  (** [signal.aborted] *)
  aborted : X → bool;
  (** What a member of Object.prototype throws when it is called as a handler. *)
  inherited_error : string → string
}.

Section worker.
Context {X : Type} `{Oracle} `{JsEngine} {N : Network X} {WH : WorkerHost X}.

(** A handler gives a result or [undefined]. *)
Definition JobHandler : Type := Job → M X (option json).

Definition pause (ms : jsnum) : M X unit := external (λ x, (Ok (), sleep ms x)).

(** [handlers[job.kind]], where the table is an object: a kind that is not its
    own but names a member of Object.prototype finds that function.  Called
    without a receiver, Object returns the job itself, toString a text without a
    result, and the others throw. *)
Definition find_handler (handlers : list (string * JobHandler)) (kind : string) : option JobHandler :=
  match find_first (λ kv, kv.1 =?s kind) handlers with
  | Some kv => Some kv.2
  | None =>
    if negb (existsb (λ m, m =?s kind) object_prototype) then None
    else if kind =?s "constructor" then
      Some (λ job, mret (Some (match job_result job with Some o => JObj o | None => JNull end)))
    else if kind =?s "toString" then Some (λ _, mret None)
    else Some (λ _, throw (EError (inherited_error kind)))
  end.

Definition safeFail (c : HttpClient) (job : Job) (error : string) : M X unit :=
  try_catch (failJob c (job_id job) error;; mret ()) (λ _, mret ()).

(** One turn of the claim loop. *)
Definition worker_turn (c : HttpClient) (workerName : string) (pollInterval : jsnum)
    (handlers : list (string * JobHandler)) : M X unit :=
  claimed ← try_catch (job ← claimJob c workerName; mret (Some job)) (λ _, mret None);
  match claimed with
  | None | Some None => pause pollInterval
  | Some (Some job) =>
    marked ← try_catch (setJobRunning c (job_id job);; mret true) (λ _, mret false);
    if negb (marked : bool) then mret ()
    else match find_handler handlers (job_kind job) with
    | None => safeFail c job ("no handler registered for job kind '" +:+ job_kind job +:+ "'")
    | Some handler =>
      try_catch (result ← handler job; completeJob c (job_id job) result;; mret ())
        (λ err, safeFail c job (err_message err))
    end
  end.

(** [while (!signal.aborted)]; [false] is a loop that [fuel] turns do not end. *)
Fixpoint worker_loop (fuel : nat) (c : HttpClient) (workerName : string) (pollInterval : jsnum)
    (handlers : list (string * JobHandler)) : M X bool :=
  match fuel with
  | O => mret false
  | S fuel' =>
    stop ← observe aborted;
    if stop : bool then mret true
    else worker_turn c workerName pollInterval handlers;; worker_loop fuel' c workerName pollInterval handlers
  end.

(** One beat of the heartbeat loop, without the sleep after it. *)
Definition heartbeat_turn (c : HttpClient) (workerName : string) (meta : option json_object) : M X unit :=
  try_catch (postRunnerHeartbeat c workerName meta;; mret ()) (λ _, mret ()).

Fixpoint runHeartbeatLoop (fuel : nat) (c : HttpClient) (workerName : string) (intervalMs : jsnum)
    (meta : option json_object) : M X bool :=
  match fuel with
  | O => mret false
  | S fuel' =>
    stop ← observe aborted;
    if stop : bool then mret true
    else
      heartbeat_turn c workerName meta;;
      stop ← observe aborted;
      if stop : bool then mret true
      else pause intervalMs;; runHeartbeatLoop fuel' c workerName intervalMs meta
  end.

(** The built-in handler of the kind noop. *)
Definition noop : JobHandler := λ job,
  let duration :=
    match get_prop "duration_ms" (job_input job) with
    | Some (JNum n) => if SFltb (num_of_Z 0) n then n else num_of_Z 10
    | _ => num_of_Z 10
    end in
  external (λ x, (Ok (), timer duration x));;
  mret (Some (JObj [("ok", JBool true); ("slept_ms", JNum duration)])).

(** ** A worker between requests

    The turn again, cut at its requests, so that workers can be interleaved: the
    server runs one request at a time. *)

Inductive Phase :=
| P_idle
| P_claimed (job : Job)
| P_running (job : Job)
| P_reporting (job : Job) (result : option json)
| P_failing (job : Job) (message : string).

Definition advance (c : HttpClient) (workerName : string) (pollInterval : jsnum)
    (handlers : list (string * JobHandler)) (p : Phase) : M X Phase :=
  match p with
  | P_idle =>
    claimed ← try_catch (job ← claimJob c workerName; mret (Some job)) (λ _, mret None);
    match claimed with
    | None | Some None => pause pollInterval;; mret P_idle
    | Some (Some job) => mret (P_claimed job)
    end
  | P_claimed job =>
    marked ← try_catch (setJobRunning c (job_id job);; mret true) (λ _, mret false);
    mret (if marked : bool then P_running job else P_idle)
  | P_running job =>
    match find_handler handlers (job_kind job) with
    | None => mret (P_failing job ("no handler registered for job kind '" +:+ job_kind job +:+ "'"))
    | Some handler =>
      try_catch (result ← handler job; mret (P_reporting job result)) (λ err, mret (P_failing job (err_message err)))
    end
  | P_reporting job result =>
    try_catch (completeJob c (job_id job) result;; mret P_idle) (λ err, mret (P_failing job (err_message err)))
  | P_failing job message => safeFail c job message;; mret P_idle
  end.
End worker.

(** ** The server at the other end *)

(** [url.searchParams] of a query without an ampersand: one name and its value. *)
Definition query_params (q : string) : list (string * string) :=
  if q =?s "" then []
  else
    let (k, v) := span (λ c, negb (is_char "=" c)) q in
    let decode t := decodeURIComponent t ?? t in
    [(decode k, decode (str_drop 1 v))].

(** The body as the client reads it: the bytes of a blob are no JSON. *)
Definition response_body (r : Reply) : FetchBody :=
  match r with R_blob_bytes content => FB_text content | r => FB_json r end.

Section served.
Context {X : Type} `{Oracle} `{JsEngine} {C : Crypto X} {HH : HttpHost X}.
Context (origin : string) (disableLoopbackBypass : bool) (remoteAddress : option string).

Definition served_request (url method : string) (authorization contentType body : option string) : Request :=
  let (path, query) := span (λ c, negb (is_char "?" c)) (str_drop (String.length origin) url) in
  mkRequest (Some method) path (query_params (str_drop 1 query)) authorization contentType None
    (match body with Some b => [b] | None => [] end) remoteAddress.

Definition server_network : Network X := {|
  fetch := λ url method authorization contentType body,
    resp ← app disableLoopbackBypass (served_request url method authorization contentType body);
    mret (mkFetchResponse (rs_status resp) (response_body (rs_reply resp)))
|}.
End served.
