(* ===== verification/Verbs.v ===== *)
(** The verbs of verbs/control-plane.ts that the command line and the MCP server
    share: products, targets, runners, the audit log, builds, releases,
    deployments, health, schedules, webhooks and promotion policies; and the
    production wiring of the scheduler (createDefaultProbeInvoker,
    createSchedulerDispatcherBridge).

    Output to the terminal is left out.  An interval is a whole number of
    seconds, as the command line parses it. *)

From S2P Require Import Prelude JsTime JsVal Types World Logic StorageCatalog StorageDeploy StorageOps.
From S2P Require Import Signing BuildYaml Build Probes Deploy Scheduler CloudTypes K8s Events Promotion ReleaseDeploy.

(** Temporary directories and [child_process.exec]. *)
Class VerbHost (X : Type) := {
  fs_mkdtemp : string → X → Res string * X;
  fs_rm : string → X → Res unit * X;
  exec_stdout : string → string → X → Res string * X
}.

Definition WEBHOOK_EMAIL_ERROR : string :=
  "webhook add: email kind requires a mailto: URL or a bare email address".
Definition WEBHOOK_URL_ERROR : string :=
  "webhook add: generic/slack kinds require an http(s):// URL".

Definition WebhookKind_text (k : WebhookKind) : string :=
  match k with WK_slack => "slack" | WK_email => "email" | WK_generic => "generic" end.

Definition PromotionGateKind_text (k : PromotionGateKind) : string :=
  match k with GK_auto => "auto" | GK_manual => "manual" | GK_time_delay => "time_delay" end.

Record ReleaseListEntry := mkReleaseListEntry { rle_release : Release; rle_product : Product }.
Record RunnerListEntry := mkRunnerListEntry { rnl_runner : Runner; rnl_isStale : bool }.
Record DeploymentListEntry := mkDeploymentListEntry {
  dle_deployment : Deployment; dle_release : Release; dle_target : Target
}.
Record DeploymentShowResult := mkDeploymentShowResult {
  dsr_deployment : Deployment; dsr_release : Release; dsr_target : Target; dsr_health : list HealthCheck
}.
Record HealthCheckRunResult := mkHealthCheckRunResult {
  hcr_target : Target;
  hcr_release : Release;
  hcr_deploymentId : option string;
  hcr_reachability : bool * option string;
  hcr_probes : list ProbeResult
}.
Record HealthHistoryEntry := mkHealthHistoryEntry {
  hhe_deployment : Deployment; hhe_release : Release; hhe_checks : list HealthCheck
}.
Record ScheduleListEntry := mkScheduleListEntry { sle_schedule : HealthSchedule; sle_target : Target }.
Record PromotionPolicyListEntry := mkPromotionPolicyListEntry {
  ple_policy : PromotionPolicy; ple_product : Product; ple_destTarget : Target; ple_sourceTarget : option Target
}.
Record ApprovalEntry := mkApprovalEntry {
  ae_approval : Approval;
  ae_policy : option PromotionPolicy;
  ae_release : option Release;
  ae_destTarget : option Target
}.
Record ReleaseShowResult := mkReleaseShowResult {
  rsr_release : Release;
  rsr_product : Product;
  rsr_artifacts : list Artifact;
  (** The approval and the name of its destination. *)
  rsr_approvals : list (Approval * option string)
}.

Section verbs.
Context {X : Type} `{Oracle}.

(** ** Products *)

Definition runProductAdd (name repoUrl : string) (buildYamlPath : option string) : M X Product :=
  orgId ← getActiveOrgId;
  product ← ProductRepo_create orgId name repoUrl buildYamlPath;
  AuditLogRepo_append orgId "cli" "product.added" "product" (pr_id product)
    (Some [("name", JStr (Types.pr_name product)); ("repoUrl", JStr (pr_repoUrl product))]);;
  mret product.

Definition runProductList : M X (list Product) := orgId ← getActiveOrgId; ProductRepo_listForOrg orgId.

Definition runProductRemove (name : string) : M X unit :=
  orgId ← getActiveOrgId;
  existing ← ProductRepo_getByName orgId name;
  match existing with
  | None => throw (EError ("product not found: " +:+ name))
  | Some existing =>
    ProductRepo_softDelete (pr_id existing);;
    AuditLogRepo_append orgId "cli" "product.removed" "product" (pr_id existing)
      (Some [("name", JStr (Types.pr_name existing))]);;
    mret ()
  end.

(** ** Targets *)

Definition runTargetAdd (name : string) (kind : TargetKind) (connection : json_object) : M X Target :=
  orgId ← getActiveOrgId;
  target ← TargetRepo_create orgId name kind connection;
  AuditLogRepo_append orgId "cli" "target.added" "target" (tg_id target)
    (Some [("name", JStr (tg_name target)); ("kind", JStr (TargetKind_text (tg_kind target)))]);;
  mret target.

Definition runTargetList : M X (list Target) := orgId ← getActiveOrgId; TargetRepo_listForOrg orgId.

Definition runTargetRemove (name : string) : M X unit :=
  orgId ← getActiveOrgId;
  existing ← target_named orgId name;
  TargetRepo_softDelete (tg_id existing);;
  AuditLogRepo_append orgId "cli" "target.removed" "target" (tg_id existing)
    (Some [("name", JStr (tg_name existing))]);;
  mret ().

Definition runTargetEdit (name : string) (newName : option string) (newConnection : option json_object)
    : M X Target :=
  match newName, newConnection with
  | None, None => throw (EError "target edit requires at least one of --new-name or --connection")
  | _, _ =>
    orgId ← getActiveOrgId;
    existing ← target_named orgId name;
    updated ← TargetRepo_update (tg_id existing) newName newConnection;
    AuditLogRepo_append orgId "cli" "target.edited" "target" (tg_id existing)
      (Some [("before", JObj [("name", JStr (tg_name existing)); ("connection", JObj (tg_connection existing))]);
             ("after", JObj [("name", JStr (tg_name updated)); ("connection", JObj (tg_connection updated))])]);;
    mret updated
  end.

(** ** Runners *)

Context `{JsEngine}.

Definition runRunnerList (staleThresholdSeconds : option Z) : M X (list RunnerListEntry) :=
  orgId ← getActiveOrgId;
  let threshold := staleThresholdSeconds ?? 90 in
  now ← nowDate;
  let cutoffMs := now - threshold * 1000 in
  rows ← RunnerRepo_listForOrg orgId;
  mret (map (λ runner, mkRunnerListEntry runner
    (match Date_parse legacy_date_parse (rn_lastSeenAt runner) with
     | Some t => t <? cutoffMs
     | None => false
     end)) rows).

Definition runRunnerDeregister (name id : option string) : M X (string * string) :=
  match name, id with
  | None, None => throw (EError "runner deregister requires --name or --id (got neither)")
  | _, _ =>
    orgId ← getActiveOrgId;
    target ← (match id, name with
              | Some i, _ => RunnerRepo_get i
              | None, Some n => RunnerRepo_getByName orgId n
              | None, None => mret None
              end);
    match target with
    | None =>
      throw (EError ("runner not found: " +:+ match id with
               | Some i => "id=" +:+ i
               | None => "name=" +:+ (name ?? "undefined")
               end))
    | Some target =>
      if negb (rn_orgId target =?s orgId)
      then throw (EError ("runner " +:+ rn_id target +:+ " belongs to a different org"))
      else
        RunnerRepo_softDelete (rn_id target);;
        AuditLogRepo_append orgId "cli" "runner.deregistered" "runner" (rn_id target)
          (Some [("name", JStr (rn_name target))]);;
        mret (rn_id target, rn_name target)
    end
  end.

(** ** The audit log *)

Definition runAuditQuery (since entityType entityId actor action : option string) (limit : option Z)
    : M X (list AuditLogEntry) :=
  orgId ← getActiveOrgId;
  entries ← AuditLogRepo_listForOrg orgId limit entityType entityId;
  let entries := match actor with Some a => select (λ e, al_actor e =?s a) entries | None => entries end in
  let entries := match action with Some a => select (λ e, al_action e =?s a) entries | None => entries end in
  match since with
  | None => mret entries
  | Some s =>
    match Date_parse legacy_date_parse s with
    | None => throw (EError ("audit query: --since must be ISO-8601 (got '" +:+ s +:+ "')"))
    | Some sinceMs =>
      mret (select (λ e, match Date_parse legacy_date_parse (al_createdAt e) with
                         | Some t => sinceMs <=? t
                         | None => false
                         end) entries)
    end
  end.

Definition runAuditAppend (actor action entityType entityId : string) (detail : option json_object)
    : M X AuditLogEntry :=
  if (String.length actor =? 0)%nat then throw (EError "audit append: actor must be non-empty")
  else if (String.length action =? 0)%nat then throw (EError "audit append: action must be non-empty")
  else if (String.length entityType =? 0)%nat then throw (EError "audit append: entity_type must be non-empty")
  else if (String.length entityId =? 0)%nat then throw (EError "audit append: entity_id must be non-empty")
  else
    orgId ← getActiveOrgId;
    AuditLogRepo_append orgId actor action entityType entityId detail.

(** ** Releases and deployments, read *)

Definition runReleaseList (productName : option string) (status : option ReleaseStatus)
    : M X (list ReleaseListEntry) :=
  orgId ← getActiveOrgId;
  products ← ProductRepo_listForOrg orgId;
  out ← for_collect products (λ product,
    match truthy productName with
    | Some want =>
      if negb (Types.pr_name product =?s want) then mret [] else
      releases ← ReleaseRepo_listForProduct (pr_id product) status;
      mret (map (λ r, mkReleaseListEntry r product) releases)
    | None =>
      releases ← ReleaseRepo_listForProduct (pr_id product) status;
      mret (map (λ r, mkReleaseListEntry r product) releases)
    end);
  mret (concat out).

Definition approval_entry (a : Approval) : M X ApprovalEntry :=
  policy ← PromotionPolicyRepo_get (ap_policyId a);
  release ← ReleaseRepo_get (ap_releaseId a);
  destTarget ← TargetRepo_get (ap_destTargetId a);
  mret (mkApprovalEntry a policy release destTarget).

Definition runApprovalList (status : option ApprovalStatus) : M X (list ApprovalEntry) :=
  orgId ← getActiveOrgId;
  approvals ← ApprovalRepo_listForOrg orgId status None;
  for_collect approvals approval_entry.

Definition runReleasePromotionState (releaseId : string) : M X (list ApprovalEntry) :=
  orgId ← getActiveOrgId;
  all ← ApprovalRepo_listForOrg orgId None (Some 200);
  for_collect (select (λ a, ap_releaseId a =?s releaseId) all) approval_entry.

Definition runReleaseShow (releaseId : string) : M X ReleaseShowResult :=
  release ← ReleaseRepo_get releaseId;
  match release with
  | None => throw (EError ("release not found: " +:+ releaseId))
  | Some release =>
    product ← ProductRepo_get (rel_productId release);
    match product with
    | None => throw (EError ("release " +:+ releaseId +:+ " references a missing product ("
                             +:+ rel_productId release +:+ ")"))
    | Some product =>
      artifacts ← ArtifactRepo_listForRelease (rel_id release);
      approvals ← runReleasePromotionState (rel_id release);
      mret (mkReleaseShowResult release product artifacts
        (map (λ e, (ae_approval e, option_map tg_name (ae_destTarget e))) approvals))
    end
  end.

Definition runDeploymentList (targetName : option string) : M X (list DeploymentListEntry) :=
  orgId ← getActiveOrgId;
  targets ← (match truthy targetName with
             | Some n => t ← TargetRepo_getByName orgId n;
                         mret (match t with Some t => [t] | None => [] end)
             | None => TargetRepo_listForOrg orgId
             end);
  out ← for_collect targets (λ target,
    deployments ← DeploymentRepo_listForTarget (tg_id target) None;
    rows ← for_collect deployments (λ deployment,
      release ← ReleaseRepo_get (dep_releaseId deployment);
      mret (match release with Some r => [mkDeploymentListEntry deployment r target] | None => [] end));
    mret (concat rows));
  mret (concat out).

Definition runDeploymentShow (deploymentId : string) : M X DeploymentShowResult :=
  deployment ← DeploymentRepo_get deploymentId;
  match deployment with
  | None => throw (EError ("deployment not found: " +:+ deploymentId))
  | Some deployment =>
    release ← ReleaseRepo_get (dep_releaseId deployment);
    match release with
    | None => throw (EError ("deployment references missing release: " +:+ dep_releaseId deployment))
    | Some release =>
      target ← TargetRepo_get (dep_targetId deployment);
      match target with
      | None => throw (EError ("deployment references missing target: " +:+ dep_targetId deployment))
      | Some target =>
        health ← HealthCheckRepo_listForDeployment (dep_id deployment) None None;
        mret (mkDeploymentShowResult deployment release target health)
      end
    end
  end.

Definition runHealthHistory (targetName : string) (sinceIso : option string) (limit : option Z)
    : M X (list HealthHistoryEntry) :=
  orgId ← getActiveOrgId;
  target ← target_named orgId targetName;
  deployments ← DeploymentRepo_listForTarget (tg_id target) (Some (limit ?? 20));
  out ← for_collect deployments (λ deployment,
    release ← ReleaseRepo_get (dep_releaseId deployment);
    match release with
    | None => mret []
    | Some release =>
      checks ← HealthCheckRepo_listForDeployment (dep_id deployment) sinceIso limit;
      mret [mkHealthHistoryEntry deployment release checks]
    end);
  mret (concat out).

(** ** Schedules *)

Definition runScheduleAdd (targetName : string) (intervalSeconds : Z) (probeNames : option (list string))
    (active : option bool) : M X ScheduleListEntry :=
  if intervalSeconds <? 60 then throw (EError "schedule add: --interval-seconds must be >= 60") else
  orgId ← getActiveOrgId;
  target ← target_named orgId targetName;
  schedule ← HealthScheduleRepo_create orgId (tg_id target) intervalSeconds (probeNames ?? []) active;
  AuditLogRepo_append orgId "cli" "health_schedule.added" "health_schedule" (hs_id schedule)
    (Some [("targetId", JStr (tg_id target)); ("intervalSeconds", JInt (hs_intervalSeconds schedule));
           ("probeNames", JArr (map JStr (hs_probeNames schedule)))]);;
  mret (mkScheduleListEntry schedule target).

Definition runScheduleList (targetName : option string) : M X (list ScheduleListEntry) :=
  orgId ← getActiveOrgId;
  match truthy targetName with
  | Some n =>
    target ← target_named orgId n;
    schedules ← HealthScheduleRepo_listForTarget (tg_id target);
    mret (map (λ s, mkScheduleListEntry s target) schedules)
  | None =>
    schedules ← HealthScheduleRepo_listForOrg orgId;
    out ← for_collect schedules (λ s,
      target ← TargetRepo_get (hs_targetId s);
      mret (match target with Some t => [mkScheduleListEntry s t] | None => [] end));
    mret (concat out)
  end.

Definition schedule_with (id : string) : M X HealthSchedule :=
  existing ← HealthScheduleRepo_get id;
  match existing with
  | None => throw (EError ("health schedule not found: " +:+ id))
  | Some s => mret s
  end.

Definition runScheduleDisable (id : string) : M X HealthSchedule :=
  existing ← schedule_with id;
  updated ← HealthScheduleRepo_update (hs_id existing) (mkHealthSchedulePatch None None (Some false) None);
  AuditLogRepo_append (hs_orgId existing) "cli" "health_schedule.disabled" "health_schedule" (hs_id existing) None;;
  mret updated.

Definition runScheduleEnable (id : string) : M X HealthSchedule :=
  existing ← schedule_with id;
  updated ← HealthScheduleRepo_update (hs_id existing) (mkHealthSchedulePatch None None (Some true) None);
  AuditLogRepo_append (hs_orgId existing) "cli" "health_schedule.enabled" "health_schedule" (hs_id existing) None;;
  mret updated.

Definition runScheduleRemove (id : string) : M X unit :=
  existing ← schedule_with id;
  HealthScheduleRepo_softDelete (hs_id existing);;
  AuditLogRepo_append (hs_orgId existing) "cli" "health_schedule.removed" "health_schedule" (hs_id existing) None;;
  mret ().

(** ** Webhooks *)

Definition runWebhookAdd (kind : WebhookKind) (url : string) (secretHmacKey : option string)
    (eventKinds : option (list string)) (active : option bool) (description : option string)
    : M X WebhookSubscription :=
  if bool_decide (kind = WK_email) && negb (starts_with "mailto:" url) && negb (str_exists (is_char "@") url)
  then throw (EError WEBHOOK_EMAIL_ERROR)
  else if (bool_decide (kind = WK_generic) || bool_decide (kind = WK_slack))
          && negb (starts_with "http://" (lower url) || starts_with "https://" (lower url))
  then throw (EError WEBHOOK_URL_ERROR)
  else
    orgId ← getActiveOrgId;
    sub ← WebhookSubscriptionRepo_create orgId kind url secretHmacKey (Some (eventKinds ?? [])) active description;
    AuditLogRepo_append orgId "cli" "webhook.added" "webhook_subscription" (wh_id sub)
      (Some [("kind", JStr (WebhookKind_text (wh_kind sub))); ("url", JStr (wh_url sub));
             ("eventKinds", JArr (map JStr (wh_eventKinds sub)))]);;
    mret sub.

Definition runWebhookList : M X (list WebhookSubscription) :=
  orgId ← getActiveOrgId; WebhookSubscriptionRepo_listForOrg orgId.

Definition webhook_with (id : string) : M X WebhookSubscription :=
  existing ← WebhookSubscriptionRepo_get id;
  match existing with
  | None => throw (EError ("webhook subscription not found: " +:+ id))
  | Some s => mret s
  end.

Definition runWebhookRemove (id : string) : M X unit :=
  existing ← webhook_with id;
  WebhookSubscriptionRepo_softDelete (wh_id existing);;
  AuditLogRepo_append (wh_orgId existing) "cli" "webhook.removed" "webhook_subscription" (wh_id existing) None;;
  mret ().

(** ** Promotion policies *)

Definition runPromotionPolicyAdd (productName destTargetName : string) (gateKind : PromotionGateKind)
    (sourceTargetName : option string) (gateConfig : option json_object) (description : option string)
    : M X PromotionPolicyListEntry :=
  orgId ← getActiveOrgId;
  product ← ProductRepo_getByName orgId productName;
  match product with
  | None => throw (EError ("product not found: " +:+ productName))
  | Some product =>
    destTarget ← target_named orgId destTargetName;
    sourceTarget ←
      (match truthy sourceTargetName with
       | None => mret None
       | Some n =>
         t ← TargetRepo_getByName orgId n;
         match t with
         | None => throw (EError ("source target not found: " +:+ n))
         | Some t => mret (Some t)
         end
       end);
    let raw := match gateConfig with Some c => get_prop "delay_seconds" c | None => None end in
    let n := to_number raw in
    if bool_decide (gateKind = GK_time_delay) && (negb (num_isFinite n) || SFltb n (S754_zero false)) then
      throw (EError "promotion add: time_delay gate requires { delay_seconds: N } in --gate-config")
    else
    policy ← PromotionPolicyRepo_create orgId (pr_id product) (option_map tg_id sourceTarget)
               (tg_id destTarget) gateKind (Some (gateConfig ?? [])) None description;
    AuditLogRepo_append orgId "cli" "promotion_policy.added" "promotion_policy" (pp_id policy)
      (Some [("productId", JStr (pr_id product)); ("destTargetId", JStr (tg_id destTarget));
             ("sourceTargetId", JOptStr (option_map tg_id sourceTarget));
             ("gateKind", JStr (PromotionGateKind_text (pp_gateKind policy)))]);;
    mret (mkPromotionPolicyListEntry policy product destTarget sourceTarget)
  end.

Definition runPromotionPolicyList : M X (list PromotionPolicyListEntry) :=
  orgId ← getActiveOrgId;
  policies ← PromotionPolicyRepo_listForOrg orgId;
  out ← for_collect policies (λ policy,
    product ← ProductRepo_get (pp_productId policy);
    destTarget ← TargetRepo_get (pp_destTargetId policy);
    match product, destTarget with
    | Some product, Some destTarget =>
      sourceTarget ← (match truthy (pp_sourceTargetId policy) with
                      | Some s => TargetRepo_get s
                      | None => mret None
                      end);
      mret [mkPromotionPolicyListEntry policy product destTarget sourceTarget]
    | _, _ => mret []
    end);
  mret (concat out).

Definition runPromotionPolicyRemove (id : string) : M X unit :=
  existing ← PromotionPolicyRepo_get id;
  match existing with
  | None => throw (EError ("promotion policy not found: " +:+ id))
  | Some existing =>
    PromotionPolicyRepo_softDelete (pp_id existing);;
    AuditLogRepo_append (pp_orgId existing) "cli" "promotion_policy.removed" "promotion_policy" (pp_id existing) None;;
    mret ()
  end.

(** ** Events *)

Context {P : Platform X}.

Definition runWebhookTest (id : string) (event : option SignalmanEvent) (email : EmailOpt)
    : M X (WebhookSubscription * (bool * option Z * option string)) :=
  existing ← webhook_with id;
  event ← (match event with
           | Some e => mret e
           | None =>
             now ← nowIso;
             mret (EvReleaseBuilt (wh_orgId existing) now "test-release" "test-product" "v0.0.0-test" None)
           end);
  outcome ← deliver email existing event;
  mret (existing, (do_delivered outcome, do_status outcome, do_error outcome)).

(** The event a scheduler event is turned into, which is then fired without being
    waited for. *)
Definition createSchedulerDispatcherBridge (orgId : string) (ev : SchedulerEvent) : option SignalmanEvent :=
  match ev with
  | SE_health_failed scheduleId targetId outcome at_ =>
    Some (EvHealthFailed orgId at_ (Some scheduleId) targetId (spo_deploymentId outcome)
            (spo_reachable outcome) (spo_probes outcome))
  | SE_health_tick _ _ _ _ | SE_schedule_error _ _ _ _ => None
  end.

(** ** Health checks *)

Context `{Zod} `{DeployBackend X} {V : VerbHost X}.

Definition parseDeclaredProbesFromRelease (release : Release) : Res (list Probe) :=
  match truthy (rel_buildYamlJson release) with
  | None => Ok []
  | Some text =>
    match JSON_parse text with
    | None => Throw (EError (json_syntax_error text))
    | Some parsed =>
      match validateBuildYaml parsed with
      | inl msg => Throw (EError msg)
      | inr yaml => Ok (by_probes yaml ?? [])
      end
    end
  end.

(** The release to probe, and the deployment to record the checks on. *)
Definition release_to_probe (target : Target) (releaseId : option string)
    : M X (Release * option string) :=
  match truthy releaseId with
  | Some r =>
    release ← ReleaseRepo_get r;
    match release with
    | None => throw (EError ("release not found: " +:+ r))
    | Some release => mret (release, None)
    end
  | None =>
    active ← DeploymentRepo_getActiveForTarget (tg_id target);
    match active with
    | None => throw (EError ("target '" +:+ tg_name target
        +:+ "' has no active deployment to probe. Use --release to specify an explicit release."))
    | Some active =>
      release ← ReleaseRepo_get (dep_releaseId active);
      match release with
      | None => throw (EError ("active deployment " +:+ dep_id active
          +:+ " references a missing release " +:+ dep_releaseId active))
      | Some release => mret (release, Some (dep_id active))
      end
    end
  end.

Definition record_checks (deploymentId : string) (reachability : bool * option string)
    (probes : list ProbeResult) : M X unit :=
  HealthCheckRepo_append deploymentId "vm_reachable" (if reachability.1 then HS_pass else HS_fail) None
    reachability.2;;
  for_each probes (λ r,
    HealthCheckRepo_append deploymentId (pr_name r) (pr_status r) (Some (pr_latencyMs r)) (Some (pr_detail r));;
    mret ()).

Definition runHealthCheck (targetName : string) (probeNames : option (list string)) (releaseId : option string)
    : M X HealthCheckRunResult :=
  orgId ← getActiveOrgId;
  target ← target_named orgId targetName;
  found ← release_to_probe target releaseId;
  let (release, deploymentId) := (found : Release * option string) in
  allDeclared ← lift (parseDeclaredProbesFromRelease release);
  let wanted := probeNames ?? [] in
  let probesToRun := match wanted with
    | [] => allDeclared
    | _ => select (λ p, existsb (λ n, probe_name p =?s n) wanted) allDeclared
    end in
  let missing := select (λ n, negb (existsb (λ p, probe_name p =?s n) allDeclared)) wanted in
  match missing with
  | _ :: _ =>
    throw (EError ("unknown probe name(s) on release " +:+ rel_id release +:+ ": " +:+ join ", " missing))
  | [] =>
    vm ← external (resolveVm (tg_connection target));
    let (handle, vmName) := (vm : string * string) in
    reachability ← external (isVmReachable handle);
    probes ← (match probesToRun with [] => mret [] | _ => runProbes probesToRun handle end);
    (match deploymentId with
     | Some d => record_checks d reachability probes
     | None => mret ()
     end);;
    mret (mkHealthCheckRunResult target release deploymentId reachability probes)
  end.

Definition createDefaultProbeInvoker (schedule : HealthSchedule) : M X ScheduledProbeOutcome :=
  target ← TargetRepo_get (hs_targetId schedule);
  match target with
  | None => throw (EError ("health schedule " +:+ hs_id schedule +:+ " references missing target "
                           +:+ hs_targetId schedule))
  | Some target =>
    result ← runHealthCheck (tg_name target)
               (match hs_probeNames schedule with [] => None | l => Some l end) None;
    mret (mkScheduledProbeOutcome (hcr_reachability result).1
            (map (λ p, (pr_name p, pr_status p)) (hcr_probes result)) (hcr_deploymentId result) None)
  end.

(** ** Building *)

Context {C : Crypto X} {KF : KeyFiles X} {BH : BuildHost X} {D : DeployInvoker X}.

Definition resolveCommitSha (workDir : string) : M X string :=
  stdout ← external (exec_stdout "git rev-parse HEAD" workDir); mret (trim stdout).

Definition firePromotionListenerBestEffort (release : Release) : M X (list PromotionListenerOutcome) :=
  try_catch (onReleaseBuilt release) (λ _, mret []).

(** The body of the [try]. *)
Definition release_build_body (keysDir orgId tag workDir : string) (product : Product)
    (commitSha runnerId actor signingKeyPem : option string) : M X RunBuildResult :=
  commitSha ← (match commitSha with Some c => mret c | None => resolveCommitSha workDir end);
  result ← runBuild keysDir orgId (pr_id product) tag commitSha workDir runnerId actor signingKeyPem;
  (if bool_decide (rel_status (rb_release result) = RS_ready) then
     now ← nowIso;
     fireEventBestEffort (EvReleaseBuilt orgId now (rel_id (rb_release result)) (Types.pr_name product)
       (rel_tag (rb_release result)) (rel_manifestSha256 (rb_release result)));;
     firePromotionListenerBestEffort (rb_release result);;
     mret ()
   else mret ());;
  mret result.

(** The working tree, and the directory to remove afterwards. *)
Definition build_tree (cwd : string) (product : Product) (tag : string) (workDir : option string)
    : M X (string * option string) :=
  match truthy workDir with
  | Some d => mret (path_resolve cwd d, None)
  | None =>
    tmp ← external (fs_mkdtemp "signalman-build-");
    cloneProductAtTag (pr_repoUrl product) tag tmp cwd;;
    mret (tmp, Some tmp)
  end.

Definition runReleaseBuild (keysDir cwd productName tag : string)
    (workDir commitSha runnerId actor signingKeyPem : option string) : M X RunBuildResult :=
  orgId ← getActiveOrgId;
  product ← ProductRepo_getByName orgId productName;
  match product with
  | None => throw (EError ("product not found: " +:+ productName))
  | Some product =>
    tree ← build_tree cwd product tag workDir;
    let (dir, cleanup) := (tree : string * option string) in
    try_finally
      (release_build_body keysDir orgId tag dir product commitSha runnerId actor signingKeyPem)
      (match cleanup with Some tmp => external (fs_rm tmp) | None => mret () end)
  end.
End verbs.
