(* ===== verification/Cascade.v ===== *)
(** The production wiring of promotion: a landed deploy fires the policies of
    the next tier, whose deploys may land and fire again.

    [createDefaultPromotionDeployInvoker] and [runReleaseDeploy] of
    verbs/control-plane.ts call each other; [cascade_invoker n] is the invoker
    for cascades of depth below [n], and every level is proved to satisfy the
    laws of [DeployInvoker] from the laws of the level below.  CascadeSpec shows
    that a bound on the depth always exists. *)

From S2P Require Import Prelude JsTime JsVal Types World Logic StorageCatalog StorageDeploy StorageOps.
From S2P Require Import Signing BuildYaml Build Probes Deploy CloudTypes K8s Events Promotion ReleaseDeploy.

Section writes.
Context {X : Type} `{Oracle}.

(** What a deploy may write keeps [I]. *)
Record deploy_writes (I : DB → Prop) : Prop := {
  dw_create : ∀ o r t p, preserves (X:=X) (on_db I) (DeploymentRepo_create o r t p);
  dw_update : ∀ id p, preserves (X:=X) (on_db I) (DeploymentRepo_update id p);
  dw_check : ∀ d p s l t, preserves (X:=X) (on_db I) (HealthCheckRepo_append d p s l t);
  dw_audit : ∀ o a c t e d, preserves (X:=X) (on_db I) (AuditLogRepo_append o a c t e d);
  dw_org : ∀ n t, preserves (X:=X) (on_db I) (OrgRepo_create n t)
}.

Lemma db_ok_writes : deploy_writes db_ok.
Proof. split; intros; auto with preserve. Qed.

(** An invariant that reads none of the tables a deploy writes. *)
Lemma indep_writes I :
  indep T_deployment I → indep T_health_check I → indep T_audit_log I → indep T_org I → deploy_writes I.
Proof.
  intros Hd Hh Ha Ho.
  pose proof (λ r, preserves_insert_indep (X:=X) T_deployment I Hd r).
  pose proof (λ p f, preserves_update_indep (X:=X) T_deployment I Hd p f).
  pose proof (λ r, preserves_insert_indep (X:=X) T_health_check I Hh r).
  pose proof (λ r, preserves_insert_indep (X:=X) T_audit_log I Ha r).
  pose proof (λ r, preserves_insert_indep (X:=X) T_org I Ho r).
  split; intros; unfold DeploymentRepo_create, DeploymentRepo_update, DeploymentRepo_get,
    HealthCheckRepo_append, AuditLogRepo_append, OrgRepo_create; preserve.
Qed.

Lemma and_writes I J : deploy_writes I → deploy_writes J → deploy_writes (λ d, I d ∧ J d).
Proof. intros [] []. split; intros; apply preserves_and; auto. Qed.
End writes.
Arguments deploy_writes X {_} I.

Section paths.
Context {X : Type} `{Oracle} `{JsEngine} `{K8sHost X} `{BuildHost X} `{R : !CloudRouter X}.
Context `{Zod} `{DeployBackend X} `{DeployHost X} `{Platform X}.
Context (I : DB → Prop) (W : deploy_writes X I).

Lemma W_create o r t p : preserves (X:=X) (on_db I) (DeploymentRepo_create o r t p).
Proof. apply W. Qed.
Lemma W_update id p : preserves (X:=X) (on_db I) (DeploymentRepo_update id p).
Proof. apply W. Qed.
Lemma W_check d p s l t : preserves (X:=X) (on_db I) (HealthCheckRepo_append d p s l t).
Proof. apply W. Qed.
Lemma W_audit o a c t e d : preserves (X:=X) (on_db I) (AuditLogRepo_append o a c t e d).
Proof. apply W. Qed.
Lemma W_org n t : preserves (X:=X) (on_db I) (OrgRepo_create n t).
Proof. apply W. Qed.
#[local] Hint Resolve W_create W_update W_check W_audit W_org : preserve.

Lemma observe_writes {A} (f : X → A) : preserves (on_db I) (observe f).
Proof. by intros w Hw. Qed.
Lemma lift_writes {A} (r : Res A) : preserves (X:=X) (on_db I) (lift r).
Proof. by intros w Hw. Qed.
Lemma swallow_writes {A} (m : M X A) : preserves (on_db I) m → preserves (on_db I) (swallow m).
Proof. intros Hm. unfold swallow. preserve. Qed.
Lemma try_finally_writes {A} (m : M X A) f :
  preserves (on_db I) m → preserves (on_db I) f → preserves (on_db I) (try_finally m f).
Proof. intros Hm Hf. unfold try_finally. preserve. Qed.
#[local] Hint Resolve observe_writes lift_writes swallow_writes try_finally_writes : preserve.

Lemma k8s_deploy_writes u n c r wh t : preserves (X:=X) (on_db I) (runK8sDeploy u n c r wh t).
Proof.
  unfold runK8sDeploy, helm_apply, kubectl_apply, kubectl_health, runHelm, runKubectl, exec_or, detectBundleKind.
  preserve.
Qed.
#[local] Hint Resolve k8s_deploy_writes : preserve.

Lemma ready_release_writes r : preserves (X:=X) (on_db I) (ready_release r).
Proof. unfold ready_release, ReleaseRepo_get. preserve. Qed.
Lemma start_deployment_writes o a r t p d : preserves (X:=X) (on_db I) (start_deployment o a r t p d).
Proof. unfold start_deployment. preserve. Qed.
Lemma mark_failed_writes o a i d : preserves (X:=X) (on_db I) (mark_failed o a i d).
Proof. unfold mark_failed, DeploymentRepo_get. preserve. Qed.
Lemma promote_writes p i h : preserves (X:=X) (on_db I) (promote p i h).
Proof. unfold promote. preserve. Qed.
Lemma promote_at_writes n p i h : preserves (X:=X) (on_db I) (promote_at n p i h).
Proof. unfold promote_at. preserve. Qed.
Lemma active_writes t : preserves (X:=X) (on_db I) (DeploymentRepo_getActiveForTarget t).
Proof. by intros w Hw. Qed.
Lemma artifacts_writes r : preserves (X:=X) (on_db I) (ArtifactRepo_listForRelease r).
Proof. by intros w Hw. Qed.
#[local] Hint Resolve ready_release_writes start_deployment_writes mark_failed_writes promote_writes
  promote_at_writes active_writes artifacts_writes : preserve.

Lemma k8s_release_deploy_writes o r t a : preserves (X:=X) (on_db I) (runK8sReleaseDeploy o r t a).
Proof. unfold runK8sReleaseDeploy, k8s_deploy_body. preserve. Qed.

Lemma dial_writes c m : preserves (X:=X) (on_db I) (dial c m).
Proof. unfold dial. preserve. Qed.
Lemma close_tunnel_writes t : preserves (X:=X) (on_db I) (close_tunnel t).
Proof. unfold close_tunnel. preserve. Qed.
Lemma install_bundle_writes c t d a p : preserves (X:=X) (on_db I) (install_bundle c t d a p).
Proof. unfold install_bundle, package_check. preserve. Qed.
#[local] Hint Resolve dial_writes close_tunnel_writes install_bundle_writes : preserve.

Lemma cloud_release_deploy_writes o r t a : preserves (X:=X) (on_db I) (runCloudReleaseDeploy o r t a).
Proof.
  unfold runCloudReleaseDeploy, runCloudVmReleaseDeploy, cloud_vm_land, cloud_vm_failed,
    runCloudStackReleaseDeploy, cloud_stack_body, cloud_stack_failed. preserve.
Qed.

Lemma run_probe_writes p h : preserves (X:=X) (on_db I) (runProbe p h).
Proof.
  unfold runProbe, runCommandProbe, runHttpProbe, runFileProbe, evaluateMatchers, probe_result. preserve.
Qed.
Lemma stage_artifact_writes d h a : preserves (X:=X) (on_db I) (stage_artifact d h a).
Proof. unfold stage_artifact, stageBlobInto, stage_tmp. preserve. Qed.
Lemma stage_string_writes c h g : preserves (X:=X) (on_db I) (stageStringInto c h g).
Proof. unfold stageStringInto, stage_tmp. preserve. Qed.
#[local] Hint Resolve run_probe_writes stage_artifact_writes stage_string_writes : preserve.

Lemma stage_and_probe_writes r t a d h g : preserves (X:=X) (on_db I) (stage_and_probe r t a d h g).
Proof. unfold stage_and_probe, runProbes. preserve. Qed.
#[local] Hint Resolve stage_and_probe_writes : preserve.

Lemma runDeploy_writes o r t a g : preserves (X:=X) (on_db I) (runDeploy o r t a g).
Proof.
  unfold runDeploy, deploy_body, deploy_failed, ReleaseRepo_get, TargetRepo_get. preserve.
Qed.

Lemma fire_event_writes e : preserves (X:=X) (on_db I) (fireEventBestEffort e).
Proof.
  unfold fireEventBestEffort, dispatch, WebhookSubscriptionRepo_listActive, audit_delivery, deliver,
    deliverGeneric, deliverSlack, deliverEmail. preserve.
Qed.

Lemma active_org_writes : preserves (X:=X) (on_db I) getActiveOrgId.
Proof. unfold getActiveOrgId, ensureDefaultOrg, OrgRepo_getByName. preserve. Qed.
#[local] Hint Resolve k8s_release_deploy_writes cloud_release_deploy_writes runDeploy_writes
  fire_event_writes active_org_writes : preserve.

Context `{D : !DeployInvoker X}.
Hypothesis fires : ∀ release source, preserves (X:=X) (on_db I) (onReleaseDeployed release source).

Lemma runReleaseDeploy_writes r p t n a : preserves (X:=X) (on_db I) (runReleaseDeploy r p t n a).
Proof.
  unfold runReleaseDeploy, resolve_release, target_named, fire_deployed, fireTierToTierPromotionBestEffort,
    ProductRepo_getByName, ReleaseRepo_getByTag, TargetRepo_getByName. preserve.
Qed.

Lemma default_deploy_writes r t a p : preserves (X:=X) (on_db I) (default_deploy r t a p).
Proof. pose proof runReleaseDeploy_writes. unfold default_deploy, TargetRepo_get. preserve. Qed.
End paths.

(** ** One policy, whatever the deploy callback *)

Lemma update_where_app {A} (p : A → bool) f l k :
  update_where p f (l ++ k) = update_where p f l ++ update_where p f k.
Proof. apply map_app. Qed.

Section fire.
Context {X : Type} `{Oracle} `{JsEngine}.

Definition filed (row : Approval) (d : DB) : DB := tset T_approval (db_approval d ++ [row]) d.

(** Firing that does not reach the deploy callback: it writes at most one new
    approval. *)
Definition fires_quietly (policy : PromotionPolicy) (release : Release) (w : World X) : Prop :=
  ∃ r w1, (∀ D : DeployInvoker X, firePolicy policy release w = (r, w1)) ∧
    (w_db w1 = w_db w ∨ ∃ row, w_db w1 = filed row (w_db w)).

(** Firing that dispatches a new approval for its pair. *)
Definition fires_deploy (policy : PromotionPolicy) (release : Release) (w : World X) : Prop :=
  ∃ f w1, no_approval (rel_id release) (pp_destTargetId policy) (w_db w) ∧
    w_db w1 = filed f (w_db w) ∧ promotion_ok (w_db w1) ∧ ap_live f = true ∧
    ap_pair f = (rel_id release, pp_destTargetId policy) ∧
    (∀ c, c ∈ db_approval (w_db w) → ap_id c ≠ ap_id f) ∧
    ∀ D : DeployInvoker X, firePolicy policy release w = dispatchDeploy policy f release w1.

Lemma quietly (m : M X PromotionListenerOutcome) policy release (w : World X) :
  (∀ D : DeployInvoker X, firePolicy policy release w = m w) →
  (w_db (m w).2 = w_db w ∨ ∃ row, w_db (m w).2 = filed row (w_db w)) → fires_quietly policy release w.
Proof. intros E Hd. exists (m w).1, (m w).2. split; [|done]. intros D. by rewrite E, <- surjective_pairing. Qed.

(** Filing an approval and reporting it. *)
Lemma create_files {B} policy release st at_ g (k : Approval → B) (w : World X) :
  let m := ApprovalRepo_create (pp_orgId policy) (pp_id policy) (rel_id release)
             (pp_destTargetId policy) st at_ g ≫= λ a, mret (k a) in
  w_db (m w).2 = w_db w ∨ ∃ row, w_db (m w).2 = filed row (w_db w).
Proof.
  cbv zeta. rewrite bind_eq. pose proof (ApprovalRepo_create_inv policy release st at_ g w) as Hc.
  destruct (ApprovalRepo_create _ _ _ _ _ _ _ w) as [[a|e] w1]; [|by left].
  destruct Hc as (_ & Hd & _). right. by exists a.
Qed.

(** The steps of an [auto] fire up to its dispatch. *)
Definition auto_fire `{D : !DeployInvoker X} (policy : PromotionPolicy) (release : Release) (nowIsoStr : string)
    : M X PromotionListenerOutcome :=
  approval ← ApprovalRepo_create (pp_orgId policy) (pp_id policy) (rel_id release)
               (pp_destTargetId policy) AS_auto_approved None None;
  markApprovalDecided (ap_id approval) "system" nowIsoStr "gate_kind=auto";;
  fresh ← ApprovalRepo_get (ap_id approval);
  match fresh with
  | None => throw (EError ("approval " +:+ ap_id approval +:+ " vanished mid-fire"))
  | Some f => dispatchDeploy policy f release
  end.

Lemma auto_fire_cases policy release s (w : World X) :
  promotion_ok (w_db w) → no_approval (rel_id release) (pp_destTargetId policy) (w_db w) →
  (∃ e w1, (∀ D : DeployInvoker X, auto_fire policy release s w = (Throw e, w1)) ∧ w_db w1 = w_db w) ∨
  (∃ f w1, w_db w1 = filed f (w_db w) ∧ promotion_ok (w_db w1) ∧ ap_live f = true ∧
    ap_pair f = (rel_id release, pp_destTargetId policy) ∧
    (∀ c, c ∈ db_approval (w_db w) → ap_id c ≠ ap_id f) ∧
    ∀ D : DeployInvoker X, auto_fire policy release s w = dispatchDeploy policy f release w1).
Proof.
  intros Hw Hn. unfold auto_fire.
  pose proof (ApprovalRepo_create_inv policy release AS_auto_approved None None w) as Hc.
  pose proof (ApprovalRepo_create_promotion (pp_orgId policy) (pp_id policy) (rel_id release)
    (pp_destTargetId policy) AS_auto_approved None None w Hw Hn) as Hp.
  destruct (ApprovalRepo_create _ _ _ _ _ _ _ w) as [[a|e] w1] eqn:Ec; simpl in Hp.
  2: { left. exists e, w1. split; [|done]. intros D. by rewrite bind_eq, Ec. }
  right. destruct Hc as (Ea & Hd & Hid).
  assert (Ha : a ∈ db_approval (w_db w1)) by (rewrite Hd; apply elem_of_app; right; by left).
  assert (Hl : ap_live a = true) by (by rewrite Ea).
  set (patch := mkApprovalPatch None (Some (Some "system")) (Some (Some s)) (Some (Some "gate_kind=auto")) None None None).
  set (f := approval_set patch a (toISOString (clock (w_clock w1))) a).
  set (w2 := approval_updated patch a w1).
  assert (Hd2 : w_db w2 = filed f (w_db w)).
  { unfold w2, approval_updated, filed. cbn [w_db]. rewrite Hd. simpl db_approval.
    rewrite update_where_app, update_where_none; [|intros x Hx; apply bool_decide_eq_false; by apply Hid].
    unfold update_where at 1. simpl. rewrite bool_decide_eq_true_2 by done. by destruct (w_db w). }
  exists f, w2. split; [done|].
  assert (Hp2 : promotion_ok (w_db w2)).
  { pose proof (ApprovalRepo_update_promotion (ap_id a) patch w1 Hp) as Hu.
    by rewrite ApprovalRepo_update_run in Hu. }
  split; [done|]. split; [exact Hl|]. split; [change (ap_pair f) with (ap_pair a); by rewrite Ea|]. split; [done|].
  intros D. rewrite bind_eq, Ec. unfold markApprovalDecided. rewrite bind_eq.
  rewrite (bind_ok _ _ w1 _ w2) by (by apply ApprovalRepo_update_run). cbn [mret M_ret].
  change (ap_id a) with (ap_id f).
  rewrite (bind_ok _ _ w2 (Some f) w2); [done|]. unfold ApprovalRepo_get, read.
  rewrite approval_find; [done|apply Hp2| |exact Hl].
  rewrite Hd2. apply elem_of_app. right. by left.
Qed.

Lemma firePolicy_cases policy release (w : World X) :
  promotion_ok (w_db w) → fires_quietly policy release w ∨ fires_deploy policy release w.
Proof.
  intros Hw. destruct (pp_active policy) eqn:Ha.
  2: { left. eapply (quietly (λ w, (_, w))); [|by left]. intros D. unfold firePolicy. by rewrite Ha. }
  destruct (ApprovalRepo_getForReleaseAndTarget (rel_id release) (pp_destTargetId policy) w)
    as [[[e|]|] w0] eqn:Eg; try discriminate; assert (w0 = w) as -> by (by injection Eg).
  { left. eapply (quietly (λ w, (_, w))); [|by left]. intros D. unfold firePolicy. rewrite Ha. cbn [negb].
    by rewrite (bind_ok _ _ _ _ _ Eg). }
  apply getForReleaseAndTarget_None in Eg as Hn.
  set (now := clock (w_clock w)). set (w1 := ticked w).
  destruct (deferring_health_gate policy) as [g|] eqn:Eh.
  - left. eapply (quietly (nowDate ≫= λ now, _)).
    { intros D. unfold firePolicy. rewrite Ha. cbn [negb]. rewrite (bind_ok _ _ _ _ _ Eg). rewrite Eh. reflexivity. }
    rewrite (bind_ok _ _ w now w1) by done. cbv beta.
    set (m := if bool_decide _ then _ else _).
    assert (Hm : (m w1).2 = w1).
    { unfold m. case_match; [|done]. rewrite bind_eq. pose proof (readDelaySeconds_const policy w1) as E.
      destruct (readDelaySeconds policy w1) as [[]]; simpl in E; subst; [|done]. rewrite bind_eq.
      pose proof (iso_of_const (now + a * 1000) w1) as E. by destruct (iso_of _ w1) as [[]]; simpl in E; subst. }
    rewrite bind_eq. destruct (m w1) as [[at_|e] w2]; simpl in Hm; subst w2; [|by left]. exact (create_files policy release _ _ _ _ w1).
  - destruct (pp_gateKind policy) eqn:Ek.
    + destruct (auto_fire_cases policy release (toISOString now) w1) as [(e & w2 & E & Hd)|(f & w2 & Hd & Hp & Hl & Hpair & Hid & E)]; [done|done| |].
      * left. exists (Throw e), w2. split; [|by left]. intros D. unfold firePolicy. rewrite Ha. cbn [negb].
        rewrite (bind_ok _ _ _ _ _ Eg), (bind_ok _ _ w now w1), Eh, Ek by done. apply E.
      * right. exists f, w2. split_and!; try done. intros D. unfold firePolicy. rewrite Ha. cbn [negb].
        rewrite (bind_ok _ _ _ _ _ Eg), (bind_ok _ _ w now w1), Eh, Ek by done. apply E.
    + left. eapply (quietly (nowDate ≫= λ now, _)).
      { intros D. unfold firePolicy. rewrite Ha. cbn [negb]. rewrite (bind_ok _ _ _ _ _ Eg), Eh, Ek. reflexivity. }
      rewrite (bind_ok _ _ w now w1) by done. exact (create_files policy release _ _ _ _ w1).
    + left. eapply (quietly (nowDate ≫= λ now, _)).
      { intros D. unfold firePolicy. rewrite Ha. cbn [negb]. rewrite (bind_ok _ _ _ _ _ Eg), Eh, Ek. reflexivity. }
      rewrite (bind_ok _ _ w now w1) by done. cbv beta. rewrite bind_eq.
      pose proof (readDelaySeconds_const policy w1) as E.
      destruct (readDelaySeconds policy w1) as [[d|e] w2]; simpl in E; subst w2; [|by left].
      rewrite bind_eq. pose proof (iso_of_const (now + d * 1000) w1) as E.
      destruct (iso_of _ w1) as [[at_|e] w2]; simpl in E; subst w2; [|by left]. exact (create_files policy release _ _ _ _ w1).
Qed.
End fire.

(** ** The laws of the production invoker *)

(** The approvals are the ones of [base], untouched, and later ones. *)
Definition extends (base : list Approval) (d : DB) : Prop :=
  promotion_ok d ∧ ∃ l, db_approval d = base ++ l.

Section laws.
Context {X : Type} `{Oracle} `{JsEngine} `{K8sHost X} `{BuildHost X} `{R : !CloudRouter X}.
Context `{Zod} `{DeployBackend X} `{DeployHost X} `{Platform X}.

Lemma approvals_unique_indep T : T ≠ T_approval → indep T approvals_unique.
Proof. intros HT l d Hd. unfold approvals_unique in *. by destruct T. Qed.

Lemma promotion_writes : deploy_writes X promotion_ok.
Proof. apply and_writes; [apply db_ok_writes|apply indep_writes; by apply approvals_unique_indep]. Qed.

Lemma extends_writes base : deploy_writes X (extends base).
Proof.
  apply and_writes; [apply promotion_writes|].
  by apply indep_writes; intros t d (l & Hl); exists l.
Qed.

Lemma unchanged_writes T l :
  T ≠ T_deployment → T ≠ T_health_check → T ≠ T_audit_log → T ≠ T_org → deploy_writes X (unchanged T l).
Proof. intros. apply indep_writes; by apply unchanged_indep. Qed.

Context `{D : !DeployInvoker X}.

Lemma dispatchDeploy_extends base policy f release (w : World X) :
  extends base (w_db w) → f ∈ db_approval (w_db w) → ap_live f = true →
  (∀ c, c ∈ base → ap_id c ≠ ap_id f) → extends base (w_db (dispatchDeploy policy f release w).2).
Proof.
  intros [Hw [l Hl]] Hf Hlive Hid. split; [by apply dispatchDeploy_promotion|].
  rewrite dispatchDeploy_run by done. cbv zeta.
  destruct (deploy_approvals (rel_id release) (pp_destTargetId policy) f policy (ticked w) Hw) as [l' Hl'].
  simpl in Hl'. rewrite Hl in Hl'.
  assert (Hu : ∀ patch (w1 : World X), db_approval (w_db w1) = (base ++ l) ++ l' →
    ∃ k, db_approval (w_db (approval_updated patch f w1)) = base ++ k).
  { intros patch w1 E1. simpl. rewrite E1, !update_where_app, (update_where_none _ _ base).
    - by rewrite <- (app_assoc base); eexists.
    - intros c Hc. apply bool_decide_eq_false. by apply Hid. }
  destruct (deploy _ _ _ _ _) as [[r|e] w1]; by apply Hu.
Qed.

Lemma firePolicy_extends base policy release :
  preserves (X:=X) (on_db (extends base)) (firePolicy policy release).
Proof.
  intros w [Hw [l Hl]]. pose proof (firePolicy_promotion policy release w Hw) as Hp.
  destruct (firePolicy_cases policy release w Hw) as [(r & w1 & E & Hd)|(f & w1 & Hn & Hd & Hw1 & Hlive & _ & Hid & E)].
  - rewrite E in *. split; [done|]. cbn [snd]. destruct Hd as [->|[row ->]]; [by exists l|].
    exists (l ++ [row]). simpl. by rewrite Hl, app_assoc.
  - rewrite E. apply dispatchDeploy_extends; [|by rewrite Hd; apply elem_of_app; right; left|done|].
    + split; [done|]. rewrite Hd. exists (l ++ [f]). simpl. by rewrite Hl, app_assoc.
    + intros c Hc. apply Hid. rewrite Hl. apply elem_of_app. by left.
Qed.

Lemma firePolicy_unchanged T l policy release :
  T ≠ T_approval → (∀ r t b p, preserves (X:=X) (on_db (unchanged T l)) (deploy r t b p)) →
  preserves (X:=X) (on_db (unchanged T l)) (firePolicy policy release).
Proof.
  intros HT Hd.
  assert (Hi : indep T_approval (unchanged T l)) by (apply unchanged_indep; congruence).
  assert (Hu : ∀ id p, preserves (X:=X) (on_db (unchanged T l)) (ApprovalRepo_update id p)).
  { intros id p. pose proof (preserves_update_indep (X:=X) T_approval _ Hi).
    unfold ApprovalRepo_update, ApprovalRepo_get. preserve. }
  assert (Hc : ∀ o p r t s a g, preserves (X:=X) (on_db (unchanged T l)) (ApprovalRepo_create o p r t s a g)).
  { intros. pose proof (preserves_insert_indep (X:=X) T_approval _ Hi). unfold ApprovalRepo_create. preserve. }
  assert (Hr : ∀ p, preserves (X:=X) (on_db (unchanged T l)) (readDelaySeconds p)).
  { intros p w Hw. by rewrite readDelaySeconds_const. }
  assert (Hs : ∀ t, preserves (X:=X) (on_db (unchanged T l)) (iso_of t)).
  { intros t w Hw. by rewrite iso_of_const. }
  unfold firePolicy, dispatchDeploy, markApprovalDecided, ApprovalRepo_get, ApprovalRepo_getForReleaseAndTarget.
  preserve.
Qed.

Lemma deployed_writes I :
  (∀ p r, preserves (X:=X) (on_db I) (firePolicy p r)) →
  ∀ release source, preserves (X:=X) (on_db I) (onReleaseDeployed release source).
Proof.
  intros Hf release source. unfold onReleaseDeployed, PromotionPolicyRepo_listMatchingForProduct. preserve.
Qed.

Lemma default_deploy_ok r t a p : preserves (X:=X) (on_db promotion_ok) (default_deploy r t a p).
Proof. apply default_deploy_writes; [apply promotion_writes|apply deployed_writes, firePolicy_promotion]. Qed.

Lemma default_deploy_approvals r t a p (w : World X) :
  promotion_ok (w_db w) →
  ∃ l, db_approval (w_db (default_deploy r t a p w).2) = db_approval (w_db w) ++ l.
Proof.
  intros Hw. set (base := db_approval (w_db w)).
  apply (default_deploy_writes (extends base) (extends_writes base)
           (deployed_writes _ (firePolicy_extends base)) r t a p w).
  split; [done|]. exists []. by rewrite app_nil_r.
Qed.

Lemma default_deploy_policies r t a p l :
  preserves (X:=X) (on_db (unchanged T_promotion_policy l)) (default_deploy r t a p).
Proof.
  apply default_deploy_writes; [by apply unchanged_writes|]. apply deployed_writes. intros.
  apply firePolicy_unchanged; [done|]. intros. apply deploy_policies.
Qed.

Lemma default_deploy_releases r t a p l :
  preserves (X:=X) (on_db (unchanged T_release l)) (default_deploy r t a p).
Proof.
  apply default_deploy_writes; [by apply unchanged_writes|]. apply deployed_writes. intros.
  apply firePolicy_unchanged; [done|]. intros. apply deploy_releases.
Qed.

(** The invoker one level above [D]. *)
Definition next_invoker : DeployInvoker X := {|
  deploy := default_deploy;
  deploy_ok := default_deploy_ok;
  deploy_approvals := default_deploy_approvals;
  deploy_policies := default_deploy_policies;
  deploy_releases := default_deploy_releases
|}.
End laws.

Section cascade.
Context {X : Type} `{Oracle} `{JsEngine} `{K8sHost X} `{BuildHost X} `{R : !CloudRouter X}.
Context `{Zod} `{DeployBackend X} `{DeployHost X} `{Platform X}.

(** No deploy at all. *)
Definition no_deploy (releaseId destTargetId : string) (_ : Approval) (_ : PromotionPolicy)
    : M X DeployInvocation := throw (EError "Maximum call stack size exceeded").

Lemma no_deploy_approvals r t a p (w : World X) :
  promotion_ok (w_db w) → ∃ l, db_approval (w_db (no_deploy r t a p w).2) = db_approval (w_db w) ++ l.
Proof. exists []. by rewrite app_nil_r. Qed.

Definition no_invoker : DeployInvoker X := {|
  deploy := no_deploy;
  deploy_ok := λ r t a p, preserves_throw _ _;
  deploy_approvals := no_deploy_approvals;
  deploy_policies := λ r t a p l, preserves_throw _ _;
  deploy_releases := λ r t a p l, preserves_throw _ _
|}.

(** [createDefaultPromotionDeployInvoker] for cascades of depth below [n]. *)
Fixpoint cascade_invoker (n : nat) : DeployInvoker X :=
  match n with
  | O => no_invoker
  | S n' => next_invoker (D := cascade_invoker n')
  end.
End cascade.
