(* ===== verification/Fixture.v ===== *)
(** A concrete control plane for the witnesses: a clock, identifiers, an
    engine, a platform that records what it is asked to do, and a small
    database with an organisation, a product, two releases, five targets and a
    policy of every kind. *)

From stdpp Require Import pretty.
From S2P Require Import Prelude JsTime JsVal Types World Logic StorageCatalog StorageDeploy.
From S2P Require Import Signing Build.
From S2P Require Import StorageOps BuildYaml CloudTypes Budget Cloud Events Promotion.

(** The trace of external actions. *)
Definition Trace : Type := list string.

(** 2025-01-01T00:00:00.000Z and a second per reading. *)
Definition epoch2025 : Z := 1735689600000.

Lemma fixture_clock_range (n : nat) :
  0 ≤ epoch2025 + 1000 * (Z.of_nat n mod 1000000) < 253402300800000.
Proof. unfold epoch2025. pose proof (Z.mod_pos_bound (Z.of_nat n) 1000000). lia. Qed.

#[export] Instance fixture_oracle : Oracle := {
  clock := λ n, epoch2025 + 1000 * (Z.of_nat n mod 1000000);
  clock_range := fixture_clock_range;
  fresh_id := λ n, "id" +:+ pretty n
}.

(** A decimal numeral. *)
Fixpoint decimal_from (acc : Z) (s : string) : option Z :=
  match s with
  | EmptyString => Some acc
  | String c s' =>
    let n := Z.of_nat (Ascii.nat_of_ascii c) in
    if (48 <=? n) && (n <=? 57) then decimal_from (acc * 10 + (n - 48)) s' else None
  end.
Definition decimal (s : string) : option Z := if s =?s "" then None else decimal_from 0 s.

#[export] Instance fixture_engine : JsEngine := {
  legacy_date_parse := λ _, None;
  num_to_string := λ x, show_Z (num_floor x);
  num_toFixed := λ x _, show_Z (num_floor x);
  JSON_parse := λ _, None;
  json_syntax_error := λ _, "Unexpected end of JSON input";
  to_number_other := λ v,
    match v with JStr s => match decimal s with Some n => num_of_Z n | None => S754_nan end
    | _ => S754_nan end
}.

(** An EC2 service that starts what it is asked to start after one sleep, and
    has one instance past its lifetime, one within it, and one whose tag is
    not a number. *)
Definition fx_instance (id : string) (ttl : option string) : Ec2Instance :=
  mkEc2Instance (Some id) (Some "running") None None None
    ((Some SIGNALMAN_MANAGED_TAG_KEY, Some "true")
     :: match ttl with Some t => [(Some SIGNALMAN_TTL_EXPIRES_AT_TAG_KEY, Some t)] | None => [] end).

#[export] Instance fixture_ec2 : Ec2 Trace := {
  RunInstances := λ i x, (inr [mkEc2Instance (Some "i-new") (Some "pending") None None None []],
                          x ++ ["RUN " +:+ ri_InstanceType i]);
  TerminateInstances := λ id x, (inr (), x ++ ["TERMINATE " +:+ id]);
  DescribeById := λ id x,
    (inr (mkDescribeOutput [[mkEc2Instance (Some id)
       (Some (if existsb (λ s, s =?s "SLEEP") x then "running" else "pending")) None None None []]] None), x);
  DescribeByFilter := λ _ x,
    (inr (mkDescribeOutput [[fx_instance "i-1" (Some "1735600000"); fx_instance "i-2" (Some "1999999999")];
                            [fx_instance "i-3" (Some "soon"); fx_instance "i-4" None]] None), x);
  sleep_ms := λ _ x, x ++ ["SLEEP"]
}.

#[export] Instance fixture_zod : Zod := {
  zod_url := λ s, starts_with "http://" s || starts_with "https://" s;
  zod_issues := λ _, [([], "Invalid input")]
}.

#[export] Instance fixture_platform : Platform Trace := {
  http_fetch := λ url _ _ x, (Ok 200, x ++ ["POST " +:+ url]);
  smtp_url_set := false;
  smtp_from := None;
  smtp_sendMail := λ _ to _ _ x, (Ok (), x ++ ["MAIL " +:+ to]);
  hmac_sha256_hex := λ _ _, "00"
}.

(** Keys are their names; a signature is the signer's name and the message. *)
Fixpoint str_repeat (n : nat) (c : ascii) : string :=
  match n with O => "" | S n' => String c (str_repeat n' c) end.

Definition toy_digest (s : string) : string :=
  String (match s with String c _ => c | EmptyString => "0" end)%char (str_repeat 63 "0").

#[export] Instance fixture_crypto : Crypto Trace := {
  KeyObject := string;
  createPrivateKey := λ pem, if starts_with "PRIV:" pem then Ok (str_drop 5 pem) else Throw (EError "bad PEM");
  createPublicKey := λ pem, if starts_with "PUB:" pem then Ok (str_drop 4 pem) else Throw (EError "bad PEM");
  publicOf := λ k, k;
  createPublicKeyDer := λ der, Ok der;
  exportSpkiDer := λ k, k;
  asymmetricKeyType := λ _, Some "ed25519";
  namedCurve := λ _, None;
  crypto_sign := λ _ payload k x, (Ok (String "s" (k +:+ payload)), x ++ ["SIGN " +:+ k]);
  crypto_verify := λ _ payload k sig, Ok (sig =?s String "s" (k +:+ payload));
  ml_dsa65_sign := λ payload secret x, (Ok (String "q" payload), x ++ ["SIGN pq"]);
  ml_dsa65_verify := λ sig payload pub, Ok (sig =?s String "q" payload);
  generateEd25519 := λ x, (("PUB:new", "PRIV:new"), x ++ ["KEYGEN"]);
  ml_dsa65_keygen := λ x, ((str_repeat 4032 "x", str_repeat 1952 "x"), x ++ ["KEYGEN pq"]);
  sha256_hex := toy_digest;
  randomHex := λ n x, (str_repeat (2 * n) "0", x);
  base64_encode := λ b, b;
  base64_decode := λ b, b
}.

(** Files are what the trace says was written last: a line that starts with the
    quoted path; and a hybrid key pair under the alias "rel". *)
Definition fx_keys : list (string * string) :=
  [("keys/rel-ed25519.key", "PRIV:alice"); ("keys/rel-ed25519.pub", "PUB:alice");
   ("keys/rel-mldsa65.key", "MLDA" +:+ str_repeat 4032 "x");
   ("keys/rel-mldsa65.pub", "MLDA" +:+ str_repeat 1952 "x")].

Definition fx_file (p : string) (x : Trace) : option string :=
  match find_first (starts_with (json_quote p)) (reverse x) with
  | Some line => Some (str_drop (String.length (json_quote p)) line)
  | None => snd <$> find_first (λ f, f.1 =?s p) fx_keys
  end.

#[export] Instance fixture_key_files : KeyFiles Trace := {
  fs_existsSync := λ p x, negb (is_null (fx_file p x));
  fs_readFileSync := λ p x, match fx_file p x with Some b => inr b | None => inl (true, "ENOENT") end;
  fs_writeFileSync := λ p b x, (Ok (), x ++ [json_quote p +:+ b]);
  fs_mkdirSync := λ p x, (Ok (), x);
  fs_readdirSync := λ _ _, inr [];
  path_isAbsolute := starts_with "/";
  path_sep := "/";
  path_join2 := λ a b, a +:+ "/" +:+ b
}.

(** Two components, declared in an order that is not the sorted one. *)
Definition fx_build_yaml : BuildYaml :=
  mkBuildYaml
    [mkBuildComponent "web" (mkBuildStep None "make" (Some ["TAG=${TAG}"]) None)
       [BlobArtifact "out/web-${TAG}.tgz" None; ImageRefArtifact "registry.invalid/web:${TAG}"];
     mkBuildComponent "agent" (mkBuildStep (Some "agent") "cargo" None None)
       [BlobArtifact "out/agent.bin" (Some "pack out/agent.bin")]]
    None None.

#[export] Instance fixture_build_host : BuildHost Trace := {
  host_id := "builder:1";
  win32 := false;
  path_join := λ a b, a +:+ "/" +:+ b;
  path_resolve := λ a b, a +:+ "/" +:+ b;
  read_text := λ p x, if starts_with "src/" p then (Ok "build file", x) else (Throw (EError "ENOENT"), x);
  YAML_parse := λ _, Ok (enc_yaml fx_build_yaml);
  spawn := λ c args _ _ x, (ProcClosed (Some 0) [], x ++ ["RUN " +:+ c]);
  file_exists := λ p _, negb (starts_with "/" p);
  stat_isFile := λ _ _, Ok true;
  blobs_put := λ _ p x, (Ok ("blob://" +:+ p, toy_digest p, 3), x ++ ["PUT " +:+ p])
}.

(** A deploy that only records itself. *)
Definition fixture_deploy (releaseId destTargetId : string) (_ : Approval) (_ : PromotionPolicy)
    : M Trace DeployInvocation :=
  external (λ x, (Ok (mkDeployInvocation (Some "dep-new") DO_success None),
                  x ++ ["DEPLOY " +:+ releaseId +:+ " " +:+ destTargetId])).

Lemma fixture_deploy_approvals r t a p (w : World Trace) :
  promotion_ok (w_db w) →
  ∃ l, db_approval (w_db (fixture_deploy r t a p w).2) = db_approval (w_db w) ++ l.
Proof. intros _. exists []. by rewrite app_nil_r. Qed.

#[export] Instance fixture_invoker : DeployInvoker Trace := {
  deploy := fixture_deploy;
  deploy_ok := λ r t a p, preserves_external _ _;
  deploy_approvals := fixture_deploy_approvals;
  deploy_policies := λ r t a p l, preserves_external _ _;
  deploy_releases := λ r t a p l, preserves_external _ _
}.

(** ** The database *)

Definition t0 : string := toISOString (epoch2025 - 86400000).
Definition t1 : string := toISOString (epoch2025 - 60000).

Definition fx_org : Org := mkOrg "o1" "default" OT_free t0 t0 None.
Definition fx_product : Product :=
  mkProduct "p1" "o1" "app" "https://example.invalid/app" "signalman.build.yaml" t0 t0 None.
Definition fx_release (id tag : string) (st : ReleaseStatus) : Release :=
  mkRelease id "o1" "p1" tag "c0ffee" None None None None None st None t0 t0 None.
Definition fx_target (id name : string) : Target :=
  mkTarget id "o1" name TK_vm_test [("vm_name", JStr name)] t0 t0 None.
Definition fx_policy (id : string) (source : option string) (dest : string)
    (g : PromotionGateKind) (cfg : json_object) : PromotionPolicy :=
  mkPromotionPolicy id "o1" "p1" source dest g cfg true None t0 t0 None.

Definition pol_auto : PromotionPolicy := fx_policy "pa" None "tg2" GK_auto [].
Definition pol_manual : PromotionPolicy :=
  fx_policy "pm" None "tg3" GK_manual [("approvers", JArr [JStr "alice"])].
Definition pol_delay : PromotionPolicy :=
  fx_policy "pt" None "tg4" GK_time_delay [("delay_seconds", JInt 600)].
Definition pol_gated : PromotionPolicy :=
  fx_policy "pg" (Some "tg1") "tg5" GK_auto
    [("health_gate", JObj [("min_pass_count", JInt 2); ("window_minutes", JInt 60)])].
Definition pol_huge : PromotionPolicy :=
  fx_policy "ph" None "tg1" GK_time_delay [("delay_seconds", JInt (10 ^ 15))].

Definition rel_new : Release := fx_release "r1" "v1" RS_ready.
Definition rel_old : Release := fx_release "r0" "v0" RS_ready.

Definition fx_deployment : Deployment :=
  mkDeployment "d1" "o1" "r0" "tg1" DS_active (Some t0) (Some t0) None None t0 t0 None.
Definition fx_check (id at_ : string) : HealthCheck :=
  mkHealthCheck id "d1" "vm_reachable" HS_pass None None at_ at_ at_ None.

(** A time-delay approval whose delay has elapsed, a health-gated one whose
    source tier is healthy, and a pending one that waits for an operator. *)
Definition ap_due : Approval :=
  mkApproval "a1" "o1" "pt" "r0" "tg4" AS_pending (Some t1) None None None None None None
    false t0 t0 None.
Definition ap_gated : Approval :=
  mkApproval "a2" "o1" "pg" "r0" "tg5" AS_pending None None None None None None None
    true t0 t0 None.
Definition ap_manual : Approval :=
  mkApproval "a3" "o1" "pm" "r0" "tg3" AS_pending None None None None None None None
    false t0 t0 None.
Definition ap_done : Approval :=
  mkApproval "a4" "o1" "pa" "r0" "tg2" AS_auto_approved None (Some "system") (Some t0)
    (Some "gate_kind=auto") (Some t0) (Some "success") (Some "d0") false t0 t0 None.

Definition fx_job (id : string) (at_ : string) : Job :=
  mkJob id "o1" "scenario.run" [] JS_pending None None None None None None at_ at_ None.
Definition fx_schedule : HealthSchedule :=
  mkHealthSchedule "h1" "o1" "tg1" 300 [] (Some t0) true t0 t0 None.
Definition fx_webhook (id : string) (k : WebhookKind) (kinds : list string) : WebhookSubscription :=
  mkWebhookSubscription id "o1" k ("https://hooks.invalid/" +:+ id) (Some "secret") kinds true None
    t0 t0 None.
Definition fx_runner : Runner := mkRunner "n1" "o1" "builder" t0 t0 None t0 t0 None.
Definition fx_nonce : SigningNonce := mkSigningNonce "o1" "alice" "n-1" t1 None.
Definition fx_usage : CloudOrgUsage :=
  mkCloudOrgUsage "u1" "o1" "aws" "i-1" "t3.micro" "us-east-1"
    (toISOString epoch2025) None 2800.
Definition fx_budget : CloudOrgBudget := mkCloudOrgBudget "o1" 10000 29 t0 t0.

Definition fx_db : DB :=
  {| db_org := [fx_org];
     db_api_key := [];
     db_product := [fx_product];
     db_release := [rel_old; rel_new];
     db_artifact := [];
     db_audit_log := [];
     db_target := [fx_target "tg1" "staging"; fx_target "tg2" "demo"; fx_target "tg3" "prod";
                   fx_target "tg4" "edge"; fx_target "tg5" "canary"];
     db_deployment := [fx_deployment];
     db_health_check := [fx_check "k1" t0; fx_check "k2" t1];
     db_scenario := [];
     db_run := [];
     db_job := [fx_job "j2" t1; fx_job "j1" t0];
     db_cloud_org_budget := [fx_budget];
     db_cloud_org_usage := [fx_usage];
     db_cloud_org_credential := [];
     db_health_schedule := [fx_schedule];
     db_webhook_subscription := [fx_webhook "w1" WK_generic []; fx_webhook "w2" WK_slack ["release-built"]];
     db_promotion_policy := [pol_auto; pol_manual; pol_delay; pol_gated; pol_huge];
     db_approval := [ap_due; ap_gated; ap_manual; ap_done];
     db_runner := [fx_runner];
     db_signing_provider_key := [];
     db_signing_nonce := [fx_nonce] |}.

Definition fx_world : World Trace := mkWorld fx_db 0 0 [].

Lemma fx_db_ok : db_ok fx_db.
Proof. apply db_okb_sound. by vm_compute. Qed.

Lemma fx_promotion_ok : promotion_ok fx_db.
Proof.
  split; [apply fx_db_ok|]. intros a b Ha Hb _ _ E. cbv [db_approval fx_db] in Ha, Hb.
  rewrite !elem_of_cons, elem_of_nil in Ha, Hb.
  destruct Ha as [->|[->|[->|[->|[]]]]], Hb as [->|[->|[->|[->|[]]]]]; done.
Qed.

Lemma fx_approval_in a :
  a = ap_due ∨ a = ap_gated ∨ a = ap_manual ∨ a = ap_done → a ∈ db_approval (w_db fx_world).
Proof. intros H. cbn [fx_world w_db fx_db db_approval]. rewrite !elem_of_cons. tauto. Qed.
