(* ===== verification/DeployFixture.v ===== *)
(** A second concrete control plane, for the deploys that are not to virtual
    machines: two OpenTofu stacks that promote to each other, and a Kubernetes
    namespace, behind drivers that record what they are asked to apply. *)

From S2P Require Import Prelude JsTime JsVal Types World Logic StorageCatalog StorageDeploy StorageOps.
From S2P Require Import Signing BuildYaml Build Probes Deploy CloudTypes K8s Events Promotion ReleaseDeploy Verbs Cascade.
From S2P Require Import Fixture.

(** kubectl finds what it is asked about; one replica of one is ready. *)
#[export] Instance fixture_k8s : K8sHost Trace := {
  env_var := λ _, None;
  fs_stat := λ _ _, Some FK_file;
  fs_join := λ a b, a +:+ "/" +:+ b;
  fs_basename := λ p, p;
  k8s_exec := λ bin args _ x,
    (inr (mkK8sExecResult "{}" "" 0), x ++ [bin +:+ " " +:+ join " " args])
}.

#[export] Instance fixture_router : CloudRouter Trace := {
  cloudBackendResolver := λ _ x, (Ok (λ _ x, (Ok (Some "10.0.0.1"), x)), x);
  dialer_open := λ _ x, (Ok (num_of_Z 8443), x ++ ["OPEN"]);
  dialer_close := λ _ x, (Ok (), x ++ ["CLOSE"]);
  reachabilityProbe := λ _ _ x, (Ok (true, "reachable"), x);
  Bundle := json;
  parseBundle := Ok;
  installBundleInvoker := λ _ _ _ _ x, (Ok (mkInstallBundleResult 0 0 0 0 []), x);
  applyModule := λ stack _ _ x,
    if stack =?s "broken" then (Throw (EError "apply failed"), x ++ ["APPLY " +:+ stack])
    else (Ok (mkApplyModuleResult [] 1 0 0 5), x ++ ["APPLY " +:+ stack])
}.

#[export] Instance fixture_backend : DeployBackend Trace := {
  resolveVm := λ _ x, (Ok ("vm", "vm"), x);
  createCheckpoint := λ _ l x, (Ok l, x);
  restoreCheckpoint := λ _ x, (Ok (), x);
  deleteCheckpoint := λ _ x, (Ok (), x);
  copyFileToVM := λ _ _ _ x, (Ok (), x);
  isVmReachable := λ _ x, (Ok (true, None), x);
  executeInGuest := λ _ _ _ _ x, (Ok (mkExecResult (S754_zero false) "" ""), x)
}.

#[export] Instance fixture_deploy_host : DeployHost Trace := {
  blobs_get := λ _ x, (Ok "", x);
  random_hex8 := λ x, (Ok "0011223344556677", x);
  tmp_path := λ n, "/tmp/" +:+ n;
  host_write := λ _ _ x, (Ok (), x);
  host_unlink := λ _ x, (Ok (), x)
}.

#[export] Instance fixture_verb_host : VerbHost Trace := {
  fs_mkdtemp := λ p x, (Ok ("/tmp/" +:+ p +:+ "0"), x ++ ["MKDTEMP"]);
  fs_rm := λ p x, (Ok (), x ++ ["RM " +:+ p]);
  exec_stdout := λ _ _ x, (Ok "c0ffee", x)
}.

Definition dx_stack (id name stack : string) : Target :=
  mkTarget id "o1" name TK_cloud_stack
    [("stack_name", JStr stack); ("module_path", JStr ("infra/" +:+ stack))] t0 t0 None.

Definition dx_blue : Target := dx_stack "s1" "blue" "blue".
Definition dx_green : Target := dx_stack "s2" "green" "green".
Definition dx_broken : Target := dx_stack "s3" "broken" "broken".
Definition dx_k8s : Target :=
  mkTarget "k1" "o1" "cluster" TK_k8s_test
    [("bundleUri", JStr "app.yaml"); ("namespace", JStr "prod"); ("releaseName", JStr "app")] t0 t0 None.

Definition dx_deployment (id target : string) : Deployment :=
  mkDeployment id "o1" "r0" target DS_active (Some t0) (Some t0) None None t0 t0 None.

(** Blue promotes to green and green to blue. *)
Definition dx_db : DB :=
  {| db_org := [fx_org];
     db_api_key := [];
     db_product := [fx_product];
     db_release := [rel_old; rel_new];
     db_artifact := [];
     db_audit_log := [];
     db_target := [dx_blue; dx_green; dx_broken; dx_k8s];
     db_deployment := [dx_deployment "d1" "s1"; dx_deployment "d3" "s3"; dx_deployment "d4" "k1"];
     db_health_check := [];
     db_scenario := [];
     db_run := [];
     db_job := [];
     db_cloud_org_budget := [];
     db_cloud_org_usage := [];
     db_cloud_org_credential := [];
     db_health_schedule := [];
     db_webhook_subscription := [fx_webhook "w1" WK_generic []];
     db_promotion_policy := [fx_policy "pbg" (Some "s1") "s2" GK_auto [];
                             fx_policy "pgb" (Some "s2") "s1" GK_auto []];
     db_approval := [];
     db_runner := [];
     db_signing_provider_key := [];
     db_signing_nonce := [] |}.

Definition dx_world : World Trace := mkWorld dx_db 0 0 [].

Lemma dx_db_ok : db_ok dx_db.
Proof. apply db_okb_sound. by vm_compute. Qed.

Lemma dx_promotion_ok : promotion_ok dx_db.
Proof. split; [apply dx_db_ok|]. intros a b Ha. by apply elem_of_nil in Ha. Qed.

(** The production deploy of the new release to blue, with [n] levels. *)
Definition dx_cascade (n : nat) : Res DeployInvocation * World Trace :=
  deploy (DeployInvoker := cascade_invoker n) "r1" "s1" ap_done pol_auto dx_world.
