(* ===== verification/ManifestSpec.v ===== *)
(** What the manifest promises: it is the artifacts sorted by component, stably,
    and its canonical JSON determines it. *)

From S2P Require Import Prelude JsVal Manifest.

(** ** A stable sort is determined by its groups *)

Section stable.
Context {R : Type} (key : R → string).

Definition with_key (k : string) (r : R) : bool := key r =?s k.

Definition ascending (l : list R) : Prop := StronglySorted (λ a b, str_leb (key a) (key b) = true) l.

Lemma ascending_order_asc l : ascending (order_asc key l).
Proof.
  apply order_by_StronglySorted; [intros; apply str_leb_total|intros; by eapply str_leb_trans].
Qed.

(** The head of an ascending list has the least key of any list with the same groups. *)
Lemma ascending_head_le x l1 y l2 :
  ascending (y :: l2) →
  (∀ k, select (with_key k) (x :: l1) = select (with_key k) (y :: l2)) →
  str_leb (key y) (key x) = true.
Proof.
  intros [Hall _]%StronglySorted_cons E.
  assert (Hx : x ∈ select (with_key (key x)) (y :: l2)).
  { rewrite <- E. apply select_elem. split; [left|]. by apply bool_decide_eq_true. }
  apply select_elem in Hx as [[->|Hx]%elem_of_cons _]; [apply str_leb_refl|].
  rewrite Forall_forall in Hall. by apply Hall.
Qed.

Lemma stable_unique l1 l2 :
  ascending l1 → ascending l2 →
  (∀ k, select (with_key k) l1 = select (with_key k) l2) → l1 = l2.
Proof.
  revert l2. induction l1 as [|x l1 IH]; intros [|y l2] H1 H2 E.
  - done.
  - specialize (E (key y)). unfold with_key in E. simpl in E. by rewrite bool_decide_eq_true_2 in E.
  - specialize (E (key x)). unfold with_key in E. simpl in E. by rewrite bool_decide_eq_true_2 in E.
  - assert (Ek : key x = key y).
    { apply str_leb_antisym; [by apply (ascending_head_le y l2 x l1)|by apply (ascending_head_le x l1 y l2)]. }
    assert (x = y) as <-.
    { specialize (E (key x)). unfold with_key in E. simpl in E. rewrite Ek in E.
      rewrite !bool_decide_eq_true_2 in E by done. congruence. }
    f_equal. apply StronglySorted_cons in H1 as [_ H1], H2 as [_ H2]. apply IH; [done|done|].
    intros k. specialize (E k). simpl in E. by destruct (with_key k x); simplify_eq.
Qed.

(** Rows with equal keys keep their order. *)
Lemma order_asc_group k l : select (with_key k) (order_asc key l) = select (with_key k) l.
Proof.
  rewrite select_order_asc. induction l as [|x l IH]; simpl; [done|].
  destruct (with_key k x) eqn:Ex; [|done]. unfold order_asc in *. simpl. rewrite IH.
  apply insert_sorted_front. intros y [_ Hy]%select_elem. unfold with_key in *. bool_hyps.
  replace (key y) with (key x) by congruence. apply str_leb_refl.
Qed.

Lemma order_asc_stable_unique l s :
  ascending s → (∀ k, select (with_key k) s = select (with_key k) l) → s = order_asc key l.
Proof.
  intros Hs E. apply stable_unique; [done|apply ascending_order_asc|].
  intros k. by rewrite order_asc_group.
Qed.

(** Sorting what is sorted changes nothing. *)
Lemma order_asc_idem l : order_asc key (order_asc key l) = order_asc key l.
Proof.
  symmetry. apply order_asc_stable_unique; [apply ascending_order_asc|done].
Qed.
End stable.

(** ** Grouping *)

Notation grouped l := (foldl (λ m e, push_entry e m) [] l).

Lemma push_entry_keys e m :
  map fst (push_entry e m) = map fst m ∨
  (map fst (push_entry e m) = map fst m ++ [me_component e] ∧ me_component e ∉ map fst m).
Proof.
  induction m as [|[c es] m IH]; simpl; [right; split; [done|apply not_elem_of_nil]|].
  destruct (bool_decide_reflect (c = me_component e)) as [->|Hne]; simpl; [by left|].
  destruct IH as [->|[-> Hn]]; [by left|]. right. split; [done|].
  rewrite elem_of_cons. by intros [?|?].
Qed.

Lemma push_entry_NoDup e m : NoDup (map fst m) → NoDup (map fst (push_entry e m)).
Proof.
  intros Hm. destruct (push_entry_keys e m) as [->|[-> Hn]]; [done|].
  apply NoDup_app. split; [done|]. split; [|apply NoDup_singleton].
  intros x Hx ->%list_elem_of_singleton. done.
Qed.

Lemma entries_of_push c e m :
  entries_of c (push_entry e m) =
  entries_of c m ++ (if me_component e =?s c then [e] else []).
Proof.
  unfold entries_of. induction m as [|[d es] m IH]; simpl.
  - destruct (bool_decide_reflect (me_component e = c)); done.
  - destruct (bool_decide_reflect (d = me_component e)) as [->|Hne]; simpl.
    + destruct (bool_decide_reflect (me_component e = c)); [done|by rewrite app_nil_r].
    + destruct (bool_decide_reflect (d = c)) as [->|]; [|done].
      rewrite bool_decide_eq_false_2 by congruence. by rewrite app_nil_r.
Qed.

Lemma grouped_spec l :
  NoDup (map fst (grouped l)) ∧ (∀ c, entries_of c (grouped l) = select (with_key me_component c) l).
Proof.
  induction l as [|e l [Hn He]] using rev_ind; [split; [constructor|done]|].
  rewrite foldl_app. simpl. split; [by apply push_entry_NoDup|].
  intros c. rewrite entries_of_push, He, select_app. done.
Qed.

Lemma entries_of_absent c m : c ∉ map fst m → entries_of c m = [].
Proof.
  intros Hc. unfold entries_of. destruct (find_first _ m) as [ce|] eqn:E; [|done].
  apply find_first_Some in E as [Hin Ec]. bool_hyps. subst c. destruct Hc. by apply list_elem_of_fmap_2.
Qed.

(** Concatenated groups, keys ascending. *)
Section concat_groups.
Context (l : list ManifestEntry).
Notation group c := (select (with_key me_component c) l).

Lemma group_key c e : e ∈ group c → me_component e = c.
Proof. intros [_ H]%select_elem. unfold with_key in H. by bool_hyps. Qed.

Lemma concat_groups_elem cs e : e ∈ concat (map (λ c, group c) cs) → me_component e ∈ cs.
Proof.
  induction cs as [|c cs IH]; simpl; [by intros []%elem_of_nil|].
  intros [->%group_key|?]%elem_of_app; [left|right; auto].
Qed.

Lemma concat_groups_ascending cs :
  ascending id cs → ascending me_component (concat (map (λ c, group c) cs)).
Proof.
  unfold ascending. induction 1 as [|c cs Hs IH Hall]; simpl; [constructor|].
  apply StronglySorted_app_2; [| |done].
  - intros x y Hx%group_key Hy%concat_groups_elem.
    rewrite Forall_forall in Hall. rewrite Hx. by apply Hall.
  - assert (Hg : Forall (λ e, me_component e = c) (group c)).
    { apply Forall_forall. intros e. apply group_key. }
    induction (group c) as [|e g IHg]; [constructor|]. inversion_clear Hg.
    constructor; [by apply IHg|]. eapply Forall_impl; [done|]. simpl. intros y ->.
    subst c. apply str_leb_refl.
Qed.

Lemma select_group k c : select (with_key me_component k) (group c) = if c =?s k then group c else [].
Proof.
  destruct (bool_decide_reflect (c = k)) as [->|Hne].
  - apply select_all. by intros e [_ ?]%select_elem.
  - apply select_nil. intros e <-%group_key. by apply bool_decide_eq_false.
Qed.

Lemma select_concat_groups k cs :
  NoDup cs →
  select (with_key me_component k) (concat (map (λ c, group c) cs)) =
  if bool_decide (k ∈ cs) then group k else [].
Proof.
  induction cs as [|c cs IH]; simpl; [done|].
  intros [Hc Hn]%NoDup_cons. rewrite select_app, select_group, IH by done.
  destruct (bool_decide_reflect (c = k)) as [->|Hne].
  - rewrite (bool_decide_eq_false_2 (k ∈ cs)) by done. rewrite app_nil_r.
    by rewrite bool_decide_eq_true_2 by left.
  - simpl. rewrite (bool_decide_ext (k ∈ c :: cs) (k ∈ cs)); [done|].
    rewrite elem_of_cons. naive_solver.
Qed.
End concat_groups.

Lemma buildManifest_sorted product tag commitSha entries :
  rm_artifacts (buildManifest product tag commitSha entries) = order_asc me_component entries.
Proof.
  unfold buildManifest. cbn [rm_artifacts]. destruct (grouped_spec entries) as [Hn He].
  set (m := grouped entries) in *. set (cs := order_asc id (map fst m)).
  rewrite (map_ext _ (λ c, select (with_key me_component c) entries) He).
  assert (Hcs : NoDup cs) by (unfold cs, order_asc; by rewrite order_by_perm).
  apply order_asc_stable_unique; [apply concat_groups_ascending, ascending_order_asc|].
  intros k. rewrite select_concat_groups by done.
  destruct (bool_decide_reflect (k ∈ cs)) as [?|Hk]; [done|].
  rewrite <- He, entries_of_absent; [done|]. intros Hin. apply Hk. unfold cs. by apply order_asc_elem.
Qed.

(** The artifacts of a manifest are the captured ones sorted by component
    name, and artifacts of one component keep the order they were captured in:
    grouping by component and then walking the sorted names is a stable sort. *)
Theorem buildManifest_stable_sort product tag commitSha entries :
  rm_artifacts (buildManifest product tag commitSha entries) = order_asc me_component entries.
Proof. apply buildManifest_sorted. Qed.

(** ** Canonical JSON is unambiguous *)

(** Read one quoted character back. *)
Definition unhex (c : ascii) : nat :=
  let n := Ascii.nat_of_ascii c in if (n <? 58)%nat then n - 48 else n - 87.

Definition unquote_char (s : string) : option (ascii * string) :=
  match s with
  | EmptyString => None
  | String c s' =>
    if negb (bool_decide (c = backslash)) then Some (c, s') else
    match s' with
    | EmptyString => None
    | String d r =>
      match Ascii.nat_of_ascii d with
      | 98%nat => Some (Ascii.ascii_of_nat 8, r)
      | 116%nat => Some (Ascii.ascii_of_nat 9, r)
      | 110%nat => Some (Ascii.ascii_of_nat 10, r)
      | 102%nat => Some (Ascii.ascii_of_nat 12, r)
      | 114%nat => Some (Ascii.ascii_of_nat 13, r)
      | 117%nat =>
        match r with
        | String _ (String _ (String h (String l r'))) =>
          Some (Ascii.ascii_of_nat (16 * unhex h + unhex l), r')
        | _ => None
        end
      | _ => Some (d, r)
      end
    end
  end.

Lemma unquote_quote_char c r : unquote_char (quote_char c +:+ r) = Some (c, r).
Proof. by destruct c as [[] [] [] [] [] [] [] []]. Qed.

Lemma quote_char_not_dquote c r r' : quote_char c +:+ r ≠ String dquote r'.
Proof. by destruct c as [[] [] [] [] [] [] [] []]. Qed.

Lemma quote_body_inj s s' r r' :
  quote_body s +:+ String dquote r = quote_body s' +:+ String dquote r' → s = s' ∧ r = r'.
Proof.
  revert s'. induction s as [|c s IH]; intros [|c' s']; cbn [quote_body]; rewrite <- ?str_app_assoc.
  - by intros [= ->].
  - intros E. symmetry in E. by apply quote_char_not_dquote in E.
  - intros E. by apply quote_char_not_dquote in E.
  - intros E. pose proof (f_equal unquote_char E) as E'. rewrite !unquote_quote_char in E'.
    injection E' as -> E'. by apply IH in E' as [-> ->].
Qed.

(** A quoted string followed by anything can be split in one way. *)
Lemma json_quote_inj s s' r r' : json_quote s +:+ r = json_quote s' +:+ r' → s = s' ∧ r = r'.
Proof.
  unfold json_quote. rewrite !str_app_cons, <- !str_app_assoc, !str_app_cons. intros [= E].
  by apply quote_body_inj in E.
Qed.

Lemma str_app_inv_head (a b c : string) : a +:+ b = a +:+ c → b = c.
Proof. induction a as [|x a IH]; [done|]. rewrite !str_app_cons. intros [= E]. by apply IH. Qed.

(** Peel equal literals off both sides and read quoted strings from both. *)
Ltac peel E :=
  repeat rewrite <- !str_app_assoc in E;
  repeat first
    [ discriminate
    | apply str_app_inv_head in E
    | apply json_quote_inj in E as [? E]; try discriminate ].

Section injective.
Context `{JsEngine}.

(** The canonical text of an entry, written out. *)
Definition entry_text (e : ManifestEntry) : string :=
  "{" +:+ json_quote "component" +:+ ":" +:+ json_quote (me_component e) +:+ ","
  +:+ match me_image_ref e with
      | Some i => json_quote "image_ref" +:+ ":" +:+ json_quote i +:+ ","
      | None => "" end
  +:+ json_quote "kind" +:+ ":" +:+ json_quote (ManifestKind_text (me_kind e))
  +:+ match me_sha256 e with
      | Some h => "," +:+ json_quote "sha256" +:+ ":" +:+ json_quote h
      | None => "" end
  +:+ "}".

Lemma canonicalize_entry e : canonicalize (entry_json e) = entry_text e.
Proof.
  destruct e as [c k [h|] [i|]]; unfold entry_text, entry_json; simpl;
    rewrite <- ?str_app_assoc; done.
Qed.

Definition manifest_text (m : ReleaseManifest) : string :=
  "{" +:+ json_quote "artifacts" +:+ ":[" +:+ join "," (map entry_text (rm_artifacts m)) +:+ "],"
  +:+ json_quote "commit_sha" +:+ ":" +:+ json_quote (rm_commit_sha m) +:+ ","
  +:+ json_quote "product" +:+ ":" +:+ json_quote (rm_product m) +:+ ","
  +:+ json_quote "schema_version" +:+ ":" +:+ json_stringify (JInt 1) +:+ ","
  +:+ json_quote "tag" +:+ ":" +:+ json_quote (rm_tag m) +:+ "}".

Lemma canonicalize_manifest m : canonicalize (manifest_json m) = manifest_text m.
Proof.
  unfold manifest_json, manifest_text. cbn [canonicalize map fst snd].
  rewrite map_map, (map_ext _ _ canonicalize_entry). change (canonicalize (JInt 1)) with (json_stringify (JInt 1)).
  generalize (join "," (map entry_text (rm_artifacts m))) (json_stringify (JInt 1)). intros a v.
  change (order_asc fst _) with
    [("artifacts", "[" +:+ a +:+ "]"); ("commit_sha", json_quote (rm_commit_sha m));
     ("product", json_quote (rm_product m)); ("schema_version", v); ("tag", json_quote (rm_tag m))].
  cbn [map join fst snd]. rewrite <- !str_app_assoc. done.
Qed.

(** An entry's text followed by anything can be split in one way. *)
Lemma entry_text_inj e e' r r' : entry_text e +:+ r = entry_text e' +:+ r' → e = e' ∧ r = r'.
Proof.
  destruct e as [c k h i], e' as [c' k' h' i']. unfold entry_text.
  cbn [me_component me_kind me_sha256 me_image_ref]. intros E. peel E. subst c'.
  assert (i = i' ∧ k = k' ∧ h = h' ∧ r = r') as (-> & -> & -> & ->); [|done].
  destruct i as [i|], i' as [i'|]; cbv iota in E; peel E; simplify_eq;
    (split; [done|]);
    (assert (k = k') as <- by (by destruct k, k')); (split; [done|]);
    destruct h as [h|], h' as [h'|]; cbv iota in E; peel E; by simplify_eq.
Qed.

Lemma entry_text_brace e : ∃ s, entry_text e = String "{" s.
Proof. by eexists. Qed.

Lemma entries_text_inj l l' r r' :
  join "," (map entry_text l) +:+ "]" +:+ r = join "," (map entry_text l') +:+ "]" +:+ r' →
  l = l' ∧ r = r'.
Proof.
  revert l'. induction l as [|e l IH]; intros [|e' l']; cbn [map].
  - intros E. by do 2 apply str_app_inv_head in E.
  - destruct (entry_text_brace e') as [s Es]. intros E. exfalso. destruct l'; cbn [map join] in E; by rewrite Es in E.
  - destruct (entry_text_brace e) as [s Es]. intros E. exfalso. destruct l; cbn [map join] in E; by rewrite Es in E.
  - intros E. destruct l as [|e2 l], l' as [|e2' l']; cbn [map join] in *;
      rewrite <- ?str_app_assoc in E; apply entry_text_inj in E as [-> E]; [|done|done|].
    + by apply str_app_inv_head in E.
    + apply str_app_inv_head in E. destruct (IH (e2' :: l')) as [-> ->]; [|done].
      cbn [map join]. by rewrite <- ?str_app_assoc in *.
Qed.

(** C38: Two manifests have the same canonical JSON, the text that is hashed and
    signed, exactly when they are the same manifest: same product, tag and
    commit, same artifacts in the same order. *)
Theorem canonical_manifest_injective m m' :
  canonicalize (manifest_json m) = canonicalize (manifest_json m') ↔ m = m'.
Proof.
  split; [|by intros ->]. rewrite !canonicalize_manifest. destruct m as [p t c l], m' as [p' t' c' l'].
  unfold manifest_text. cbn [rm_product rm_tag rm_commit_sha rm_artifacts]. intros E.
  do 3 apply str_app_inv_head in E.
  change "]," with ("]" +:+ ",") in E. rewrite <- !(str_app_assoc "]") in E.
  apply entries_text_inj in E as [-> E]. peel E. by subst.
Qed.
End injective.
