(* ===== verification/K8sSpec.v ===== *)
(** What the Kubernetes drivers run for a deploy. *)

From S2P Require Import Prelude JsTime JsVal Types World Logic Signing K8s.
From S2P Require Import Fixture DeployFixture.

Section drivers.
Context {X : Type} `{Oracle} `{JsEngine} `{K8sHost X}.

Definition bin_of (k : K8sBundleKind) : string :=
  match k with BK_helm_chart => helmBin | BK_manifest => kubectlBin end.

Definition driver_of (k : K8sBundleKind) : K8sDriver :=
  match k with BK_helm_chart => KD_helm | BK_manifest => KD_kubectl end.

(** What a bundle path holds. *)
Definition bundle_kind (u : string) (x : X) : option K8sBundleKind :=
  match fs_stat u x with
  | Some FK_file => Some BK_manifest
  | Some FK_directory => Some (if fs_is FK_file (fs_join u HELM_CHART_FILE) x then BK_helm_chart else BK_manifest)
  | _ => None
  end.

Lemma detect_cases u (w : World X) :
  match bundle_kind u (w_ext w) with
  | Some k => detectBundleKind u w = (Ok k, w)
  | None => ∃ msg, detectBundleKind u w = (Throw (EK8sDriver "bundle_path_missing" msg), w)
  end.
Proof.
  unfold bundle_kind, detectBundleKind, observe. rewrite bind_eq. destruct (fs_stat u (w_ext w)) as [[]|] eqn:E; simpl.
  - done.
  - done.
  - by eexists.
  - by eexists.
Qed.

(** A program that ran one process, to [out]. *)
Lemma exec_or_inv bin args t nf fl (w w' : World X) out :
  exec_or bin args t nf fl w = (Ok out, w') → k8s_exec bin args t (w_ext w) = (inr out, w_ext w') ∧ w_db w' = w_db w.
Proof.
  unfold exec_or, external. rewrite bind_eq. destruct (k8s_exec _ _ _ _) as [[[c m]|r] x]; [done|]. by intros [= <- <-].
Qed.

Lemma kubectl_inv args t (w w' : World X) out :
  runKubectl args t w = (Ok out, w') →
  k8s_exec kubectlBin args t (w_ext w) = (inr out, w_ext w') ∧ kx_exitCode out = 0 ∧ w_db w' = w_db w.
Proof.
  unfold runKubectl. intros (r & w1 & [Er Ed]%exec_or_inv & E)%bind_inv_ok.
  destruct (kx_exitCode r =? 0) eqn:Ez; [|done]. injection E as <- <-. apply Z.eqb_eq in Ez. done.
Qed.

Lemma helm_inv args t (w w' : World X) out :
  runHelm args t w = (Ok out, w') →
  k8s_exec helmBin args t (w_ext w) = (inr out, w_ext w') ∧ kx_exitCode out = 0 ∧ w_db w' = w_db w.
Proof.
  unfold runHelm. intros (r & w1 & [Er Ed]%exec_or_inv & E)%bind_inv_ok.
  destruct (kx_exitCode r =? 0) eqn:Ez; [|done]. injection E as <- <-. apply Z.eqb_eq in Ez. done.
Qed.

(** The arguments of the process that applies a bundle. *)
Definition apply_args (k : K8sBundleKind) (u n : string) (c r : option string) (x : X) : list string :=
  match k with
  | BK_helm_chart => buildHelmApplyArgs (r ?? helm_deriveReleaseName u) u n c
  | BK_manifest => buildApplyArgs u n c x
  end.

Definition apply_with (k : K8sBundleKind) : K8sApplyOptions → M X K8sApplyResult :=
  match k with BK_helm_chart => helm_apply | BK_manifest => kubectl_apply end.

Lemma apply_inv k u n c r (w w' : World X) res :
  bundle_kind u (w_ext w) = Some k →
  apply_with k (mkK8sApplyOptions u n c r None) w = (Ok res, w') →
  ka_driver res = driver_of k ∧ w_db w' = w_db w ∧
  ∃ out, k8s_exec (bin_of k) (apply_args k u n c r (w_ext w)) K8S_DEFAULT_TIMEOUT_MS (w_ext w) = (inr out, w_ext w') ∧
    kx_exitCode out = 0.
Proof.
  intros Hk. pose proof (detect_cases u w) as Hd. rewrite Hk in Hd.
  destruct k; simpl apply_with; unfold helm_apply, kubectl_apply; simpl kao_bundleUri; rewrite (bind_ok _ _ _ _ _ Hd);
    cbv beta iota zeta; [|unfold observe; rewrite bind_eq; cbv beta iota];
    intros (t0 & w1 & [= _ <-] & E)%bind_inv_ok; apply bind_inv_ok in E as (out & w2 & E2 & E);
    apply bind_inv_ok in E as (t1 & w3 & [= _ <-] & [= <- <-]);
    [apply helm_inv in E2 as (E2 & Hz & Hdb)|apply kubectl_inv in E2 as (E2 & Hz & Hdb)];
    (split; [done|]; split; [exact Hdb|]; exists out; split; [exact E2|exact Hz]).
Qed.

Lemma health_inv opts (w w' : World X) h :
  kubectl_health opts w = (Ok h, w') →
  w_db w' = w_db w ∧
  ∃ out, let t := kho_timeoutMs opts ?? K8S_DEFAULT_HEALTH_TIMEOUT_MS in
    k8s_exec kubectlBin (buildHealthArgs (kho_namespace opts) (kho_context opts) (kho_selector opts) t)
      (num_add t (num_of_Z 5000)) (w_ext w) = (inr out, w_ext w') ∧
    kh_ready h = (kx_exitCode out =? 0) ∧ kh_namespace h = kho_namespace opts.
Proof.
  unfold kubectl_health. cbv zeta. intros (t0 & w1 & [= _ <-] & E)%bind_inv_ok.
  apply bind_inv_ok in E as (out & w2 & [E2 Hdb]%exec_or_inv & E). simpl in E2, Hdb.
  destruct (kx_exitCode out =? 0) eqn:Ez; [|destruct (classifyStderr _); [done|]];
    apply bind_inv_ok in E as (t1 & w3 & [= _ <-] & [= <- <-]); (split; [exact Hdb|]; by exists out).
Qed.

(** A Kubernetes deploy that returns ran exactly two processes, in this
    order: the tool that the bundle calls for (helm for a directory with a
    Chart.yaml, kubectl for anything else), which exited with 0, and a
    [kubectl wait] in the same namespace and context, whose exit code is what
    readiness means; the result names the tool, and nothing was stored. *)
Theorem k8s_deploy_applies_then_waits u n c r t (w w' : World X) res :
  runK8sDeploy u n c r None t w = (Ok res, w') →
  bundle_kind u (w_ext w) = Some (kd_bundleKind res) ∧ w_db w' = w_db w ∧
  ka_driver (kd_apply res) = driver_of (kd_bundleKind res) ∧
  ∃ applied waited h x wait,
    wait = t ?? K8S_DEFAULT_HEALTH_TIMEOUT_MS ∧
    k8s_exec (bin_of (kd_bundleKind res)) (apply_args (kd_bundleKind res) u n c r (w_ext w))
      K8S_DEFAULT_TIMEOUT_MS (w_ext w) = (inr applied, x) ∧ kx_exitCode applied = 0 ∧
    k8s_exec kubectlBin (buildHealthArgs n c None wait) (num_add wait (num_of_Z 5000)) x = (inr waited, w_ext w') ∧
    kd_health res = Some h ∧ kh_ready h = (kx_exitCode waited =? 0).
Proof.
  unfold runK8sDeploy. cbv zeta. intros (k & w1 & E1 & E)%bind_inv_ok.
  pose proof (detect_cases u w) as Hd. destruct (bundle_kind u (w_ext w)) as [k'|] eqn:Ek; cycle 1.
  { destruct Hd as [msg Hd]. by rewrite Hd in E1. }
  rewrite Hd in E1. injection E1 as -> <-.
  apply bind_inv_ok in E as (a & w2 & Ea & E).
  assert (Ea' : apply_with k (mkK8sApplyOptions u n c r None) w = (Ok a, w2)) by (by destruct k).
  destruct (apply_inv k u n c r w w2 a Ek Ea') as (Hdr & Hdb & applied & Hx & Hz).
  rewrite bool_decide_eq_false_2 in E by done. apply bind_inv_ok in E as (h0 & w4 & Eh & [= <- <-]).
  apply bind_inv_ok in Eh as (h & w3 & Eh & [= <- <-]). apply health_inv in Eh as (Hdb' & waited & Hx' & Hr & _).
  simpl. split_and!; [done|congruence|done|].
  exists applied, waited, h, (w_ext w2). eexists. split; [done|]. split_and!; done.
Qed.
End drivers.

Local Notation cluster_deploy := (runK8sDeploy "app.yaml" "prod" None (Some "app") None None dx_world).

Lemma k8s_deploy_applies_then_waits_witness :
  match cluster_deploy with
  | (Ok res, w') => kd_bundleKind res = BK_manifest ∧ length (w_ext w') = 2%nat ∧ w_db w' = w_db dx_world
  | (Throw _, _) => False
  end.
Proof.
  assert (Hok : match cluster_deploy.1 with Ok r => kd_bundleKind r = BK_manifest | Throw _ => False end ∧
    length (w_ext cluster_deploy.2) = 2%nat) by (by vm_compute).
  destruct cluster_deploy as [[res|e] w'] eqn:E; [|by destruct Hok].
  pose proof (k8s_deploy_applies_then_waits "app.yaml" "prod" None (Some "app") None dx_world w' res E) as H.
  destruct Hok. split_and!; [done|done|apply H].
Defined.
