(* ===== verification/SigningSpec.v ===== *)
(** What signing promises: an envelope verifies exactly when the signatures its
    mode asks for do, what was signed verifies, a nonce signs once. *)

From S2P Require Import Prelude JsTime JsVal Types World Logic Manifest StorageCatalog StorageOps.
From S2P Require Import Signing ManifestSpec Fixture.

(** What the code relies on of Node's crypto: keys survive export, base64 is
    invertible, and a signature verifies under the signer's public key. *)
Class CryptoLaws (X : Type) {C : Crypto X} := {
  der_roundtrip : ∀ k, createPublicKeyDer (exportSpkiDer (publicOf k)) = Ok (publicOf k);
  publicOf_type : ∀ k, asymmetricKeyType (publicOf k) = asymmetricKeyType k;
  base64_roundtrip : ∀ b, base64_decode (base64_encode b) = b;
  base64_nonempty : ∀ b, b ≠ "" → base64_encode b ≠ "";
  sha256_length : ∀ b, String.length (sha256_hex b) = 64%nat;
  sign_nonempty : ∀ digest payload k x x', crypto_sign digest payload k x ≠ (Ok "", x');
  sign_verifies : ∀ digest payload k x signature x',
    crypto_sign digest payload k x = (Ok signature, x') →
    crypto_verify digest payload (publicOf k) signature = Ok true
}.

Lemma str_drop_app a b : str_drop (String.length a) (a +:+ b) = b.
Proof.
  unfold str_drop. rewrite str_app_length, Nat.add_comm, Nat.add_sub.
  induction a as [|c a IH]; [apply substring_whole|]. rewrite str_app_cons. exact IH.
Qed.

Section verify.
Context {X : Type} {C : Crypto X}.

Definition verifies (keys : list PublicKeyRef) (payload : string) (e : SigEntry) : Prop :=
  verify_entry keys payload e = Ok None.

(** What a mode asks of the entries it considers. *)
Definition mode_satisfied (mode : VerifyMode) (keys : list PublicKeyRef) (payload : string)
    (entries : list SigEntry) : Prop :=
  match mode with
  | VM_transition => Exists (verifies keys payload) entries
                     ∧ Forall (λ e, ∃ o, verify_entry keys payload e = Ok o) entries
  | _ => Forall (verifies keys payload) entries
  end.

Lemma verify_loop_strict mode keys payload entries any ff :
  mode ≠ VM_transition →
  (∃ r, verify_loop mode keys payload entries any ff = Ok r ∧ vr_ok r = true) ↔
  Forall (verifies keys payload) entries.
Proof.
  intros Hm. revert any ff. induction entries as [|e es IH]; intros any ff; simpl;
    rewrite bool_decide_eq_false_2 by done.
  - split; [constructor|]. by eexists.
  - rewrite Forall_cons. unfold verifies at 1.
    destruct (verify_entry keys payload e) as [[[code reason]|]|err].
    + split; [|by intros [[=] _]]. intros (r & [= <-] & [=]).
    + rewrite IH. naive_solver.
    + split; [naive_solver|]. by intros [[=] _].
Qed.

Lemma verify_loop_transition keys payload entries any ff :
  (∃ r, verify_loop VM_transition keys payload entries any ff = Ok r ∧ vr_ok r = true) ↔
  (any = true ∨ Exists (verifies keys payload) entries)
  ∧ Forall (λ e, ∃ o, verify_entry keys payload e = Ok o) entries.
Proof.
  revert any ff. induction entries as [|e es IH]; intros any ff; cbn [verify_loop bool_decide decide].
  - rewrite Exists_nil. split.
    + intros (r & [= <-] & Hr). split; [|constructor]. by destruct any; [left|].
    + intros [[->|[]] _]. by eexists.
  - rewrite Exists_cons, Forall_cons. unfold verifies at 1.
    destruct (verify_entry keys payload e) as [[[code reason]|]|err].
    + rewrite bool_decide_eq_true_2 by done. rewrite IH. naive_solver.
    + rewrite IH. naive_solver.
    + naive_solver.
Qed.

(** Verification accepts an envelope exactly when there is a key, the payload
    hashes to what the envelope says, and the signatures do what the mode asks:
    in strict mode all of them verify, in classical-only mode there is a
    classical one and all of those verify, and in transition mode at least one
    verifies and no key is unusable. *)
Theorem verifySync_accepts_iff env payload keys mode :
  (∃ r, verifySync env payload keys mode = Ok r ∧ vr_ok r = true) ↔
  keys ≠ [] ∧ sha256_hex payload = env_payloadSha256 env ∧
  considered mode (env_signatures env) ≠ [] ∧
  mode_satisfied mode keys payload (considered mode (env_signatures env)).
Proof.
  assert (Hz : ∀ A (l : list A), (length l =? 0)%nat = true ↔ l = []) by (intros A []; done).
  assert (Hfail : ∀ c m, (∃ r, Ok (vr_fail c m) = Ok r ∧ vr_ok r = true) → False) by naive_solver.
  assert (Hnil : considered mode [] = []) by (unfold considered; by case_match).
  unfold verifySync.
  destruct (length (env_signatures env) =? 0)%nat eqn:E1.
  { apply Hz in E1. rewrite E1, Hnil. naive_solver. }
  destruct (length keys =? 0)%nat eqn:E2; [apply Hz in E2; naive_solver|].
  destruct (bool_decide_reflect (sha256_hex payload = env_payloadSha256 env)); [|naive_solver].
  cbn [negb]. set (l := considered mode (env_signatures env)).
  destruct (length l =? 0)%nat eqn:E3; [apply Hz in E3; naive_solver|].
  assert (keys ≠ []) by (intros ->; done). assert (l ≠ []) by (intros El; by rewrite El in E3).
  destruct mode; unfold mode_satisfied.
  - rewrite verify_loop_transition. naive_solver.
  - rewrite verify_loop_strict by done. naive_solver.
  - rewrite verify_loop_strict by done. naive_solver.
Qed.

Lemma verify_loop_all mode keys payload entries any ff :
  Forall (verifies keys payload) entries → any = true ∨ entries ≠ [] →
  verify_loop mode keys payload entries any ff = Ok vr_pass.
Proof.
  intros Hv. revert any ff. induction Hv as [|e es He Hv IH]; intros any ff Ha; simpl.
  - destruct Ha as [->|?]; [|done]. by case_match.
  - rewrite He. apply IH. by left.
Qed.

(** When every signature verifies, so does the envelope, in any mode that
    considers one of them. *)
Lemma verifySync_all entries nonce payload keys mode :
  Forall (verifies keys payload) entries → keys ≠ [] → entries ≠ [] →
  considered mode entries ≠ [] →
  verifySync (mkSignEnvelope entries nonce (sha256_hex payload)) payload keys mode = Ok vr_pass.
Proof.
  assert (Hz : ∀ A (l : list A), l ≠ [] → (length l =? 0)%nat = false) by (intros A []; done).
  intros Hv Hk He Hc. unfold verifySync. cbn [env_signatures env_payloadSha256].
  rewrite !Hz by done. rewrite bool_decide_eq_true_2 by done. cbn [negb].
  apply verify_loop_all; [|by right]. unfold considered. case_match; [|done].
  rewrite Forall_forall in *. intros e [Hin _]%select_elem. by apply Hv.
Qed.
End verify.

Section sign.
Context {X : Type} `{Oracle} `{JsEngine} {C : Crypto X} {K : KeyFiles X} {L : CryptoLaws X}.

(** *** Signing, then verifying *)

(** The two halves of a sub-key belong together. *)
Definition key_pair_ok (sk : ResolvedSubKey) : Prop :=
  match rsk_algorithm sk, rsk_privateKey sk, rsk_publicKey sk with
  | Alg_ml_dsa_65, KM_bytes secret, KM_bytes pub =>
    ∀ payload x signature x', ml_dsa65_sign payload secret x = (Ok signature, x') →
      ml_dsa65_verify signature payload pub = Ok true
  | (Alg_ed25519 | Alg_ecdsa_p256), KM_object k, KM_object pub => pub = publicOf k
  | _, _, _ => False
  end.

Definition refs_of (rk : ResolvedKey) : list PublicKeyRef :=
  map (publicKeyRefForSubKey (rk_keyId rk)) (rk_subKeys rk).

Lemma supported_all a : supported a = true.
Proof. by destruct a. Qed.

(** The entry a sub-key makes verifies under its own reference. *)
Lemma sign_entry_verifies keyId payload signedAt sk (w w' : World X) e keys :
  key_pair_ok sk → sign_entry payload signedAt sk w = (Ok e, w') →
  find_first (λ k, bool_decide (pk_algorithm k = rsk_algorithm sk)
                   && (pk_fingerprint k =?s rsk_fingerprint sk)) keys
    = Some (publicKeyRefForSubKey keyId sk) →
  verifies keys payload e.
Proof.
  intros Hk E Hf. unfold sign_entry in E. rewrite supported_all in E. cbn [negb] in E.
  apply bind_inv_ok in E as (sig & w1 & E & [= <- <-]).
  unfold verifies, verify_entry. cbn [se_algorithm se_signedBy se_signatureB64]. rewrite supported_all.
  cbn [negb]. rewrite Hf. unfold materializePublicKey, key_pair_ok, runSign, external in *.
  cbn [pk_algorithm pk_publicKeyB64 publicKeyRefForSubKey]. rewrite !base64_roundtrip.
  destruct (rsk_algorithm sk), (rsk_privateKey sk) as [k|k], (rsk_publicKey sk) as [q|q]; try done.
  - subst q. rewrite der_roundtrip. unfold runVerify.
    destruct (crypto_sign _ _ _ _) as [[] x] eqn:Es; [|done]. injection E as <- <-.
    by rewrite (sign_verifies _ _ _ _ _ _ Es).
  - subst q. rewrite der_roundtrip. unfold runVerify.
    destruct (crypto_sign _ _ _ _) as [[] x] eqn:Es; [|done]. injection E as <- <-.
    by rewrite (sign_verifies _ _ _ _ _ _ Es).
  - unfold runVerify. destruct (ml_dsa65_sign _ _ _) as [[] x] eqn:Es; [|done]. injection E as <- <-.
    by rewrite (Hk _ _ _ _ Es).
Qed.

(** With one sub-key per algorithm a reference is found by its algorithm. *)
Lemma find_ref keyId sks sk :
  NoDup (rsk_algorithm <$> sks) → sk ∈ sks →
  find_first (λ k, bool_decide (pk_algorithm k = rsk_algorithm sk)
                   && (pk_fingerprint k =?s rsk_fingerprint sk))
    (map (publicKeyRefForSubKey keyId) sks) = Some (publicKeyRefForSubKey keyId sk).
Proof.
  induction sks as [|s sks IH]; [by intros _ []%elem_of_nil|]. csimpl.
  intros [Hs Hn]%NoDup_cons [->|Hin]%elem_of_cons.
  - by rewrite !bool_decide_eq_true_2.
  - rewrite bool_decide_eq_false_2; [by apply IH|]. intros E. apply Hs. rewrite E.
    by apply list_elem_of_fmap_2.
Qed.

Lemma for_collect_Forall2 {A B} (l : list A) (body : A → M X B) (w w' : World X) bs (P : A → B → Prop) :
  (∀ a w1 b w2, a ∈ l → body a w1 = (Ok b, w2) → P a b) →
  for_collect l body w = (Ok bs, w') → Forall2 P l bs.
Proof.
  revert w bs. induction l as [|a l IH]; intros w bs Hb E; simpl in E.
  - injection E as <- <-. constructor.
  - apply bind_inv_ok in E as (b & w1 & E1 & E). apply bind_inv_ok in E as (bs' & w2 & E2 & [= <- <-]).
    constructor; [by eapply Hb; [left|]|]. eapply IH; [|done]. intros; eapply Hb; [by right|done].
Qed.

(** C36: What the provider signs, verifies: if [signSync] returns an envelope and
    the sub-keys the identifier resolves to in the files, which do not change during
    the call, are matching private and public keys of different algorithms (which
    the provider does not check), then the envelope has one signature per sub-key and verifies
    against the sub-keys' own references in strict and in transition mode, and
    in classical-only mode when there is a classical sub-key. *)
Theorem sign_then_verify p req (w w' : World X) env rk :
  signSync p req w = (Ok env, w') →
  (∀ w1, w_ext w1 = w_ext w → resolveForSign p (sr_keyId req) w1 = (Ok rk, w1)) →
  Forall key_pair_ok (rk_subKeys rk) → NoDup (rsk_algorithm <$> rk_subKeys rk) →
  map se_algorithm (env_signatures env) = map rsk_algorithm (rk_subKeys rk) ∧
  verifySync env (sr_payload req) (refs_of rk) VM_strict = Ok vr_pass ∧
  verifySync env (sr_payload req) (refs_of rk) VM_transition = Ok vr_pass ∧
  (Exists (λ sk, rsk_algorithm sk ≠ Alg_ml_dsa_65) (rk_subKeys rk) →
   verifySync env (sr_payload req) (refs_of rk) VM_classical_only = Ok vr_pass).
Proof.
  intros E Hr Hp Hn. unfold signSync in E.
  apply bind_inv_ok in E as (now & w1 & [= <- <-] & E). apply bind_inv_ok in E as ([] & w2 & Ev & E).
  assert (w_ext w2 = w_ext w) as Hx.
  { match type of Ev with validateRequest ?r ?pol ?n ?v = _ =>
      pose proof (validateRequest_frame (λ u, w_ext u = w_ext w) r pol n v eq_refl) as Hf end.
    by rewrite Ev in Hf. }
  rewrite (bind_ok _ _ _ _ _ (Hr w2 Hx)) in E. case_match eqn:El; [done|].
  apply bind_inv_ok in E as (at_ & w3 & _ & E). apply bind_inv_ok in E as (es & w4 & E & [= <- <-]).
  assert (Hsks : rk_subKeys rk ≠ []) by (intros Hnil; by rewrite Hnil in El).
  apply (for_collect_Forall2 _ _ _ _ _ (λ sk e, se_algorithm e = rsk_algorithm sk
    ∧ verifies (refs_of rk) (sr_payload req) e)) in E.
  2: { intros sk v1 e v2 Hin Es. split.
       - unfold sign_entry in Es. rewrite supported_all in Es. cbn [negb] in Es.
         by apply bind_inv_ok in Es as (sig & v & _ & [= <- <-]).
       - rewrite Forall_forall in Hp. eapply (sign_entry_verifies (rk_keyId rk)); [by apply Hp|done|].
         by apply find_ref. }
  assert (Halg : map se_algorithm es = map rsk_algorithm (rk_subKeys rk)).
  { clear -E. induction E as [|sk e sks es [He _] _ IH]; simpl; congruence. }
  assert (Hv : Forall (verifies (refs_of rk) (sr_payload req)) es).
  { clear -E. induction E as [|sk e sks es [_ ?] _ IH]; by constructor. }
  assert (Hrefs : refs_of rk ≠ []) by (unfold refs_of; by destruct (rk_subKeys rk)).
  assert (Hes : es ≠ []) by (intros ->; by destruct (rk_subKeys rk)).
  cbn [env_signatures]. split; [done|].
  split_and!; [by apply verifySync_all..|]. intros Hc. apply verifySync_all; [done|done|done|].
  intros Hnil.
  apply Exists_exists in Hc as (sk & Hin & Hsk).
  apply (list_elem_of_fmap_2 rsk_algorithm) in Hin. change (rsk_algorithm <$> ?l) with (map rsk_algorithm l) in Hin.
  rewrite <- Halg in Hin. apply list_elem_of_fmap in Hin as (e & Ee & Hin).
  assert (Hsel : e ∈ select (λ e, negb (bool_decide (se_algorithm e = Alg_ml_dsa_65))) es).
  { apply select_elem. split; [done|]. apply negb_true_iff, bool_decide_eq_false. congruence. }
  unfold considered in Hnil. rewrite bool_decide_eq_true_2 in Hnil by done.
  rewrite Hnil in Hsel. by apply elem_of_nil in Hsel.
Qed.
(** *** Manifests *)

(** What [signManifest] returns: the fingerprint of the key, and the base64 of
    a signature made with it over the canonical manifest. *)
Lemma signManifest_inv keysDir manifest pem (w w' : World X) sm k :
  signManifest keysDir manifest pem w = (Ok sm, w') → createPrivateKey pem = Ok k →
  asymmetricKeyType k = Some "ed25519" ∧
  sm_signedBy sm = fingerprintFromBytes (exportSpkiDer (publicOf k)) ∧
  ∃ x sig x', crypto_sign None (canonicalManifestBytes manifest) k x = (Ok sig, x') ∧
    sm_signatureB64 sm = base64_encode sig.
Proof.
  intros E Ek. unfold signManifest in E. rewrite Ek in E.
  apply bind_inv_ok in E as (k0 & w1 & [= <- <-] & E).
  destruct (bool_decide_reflect (asymmetricKeyType k = Some "ed25519")) as [Ht|]; [|done].
  cbn [negb] in E. split; [done|]. unfold fromInlinePem in E. rewrite Ek in E.
  apply bind_inv_ok in E as (p & w2 & Ep & E).
  apply bind_inv_ok in Ep as (k1 & w3 & [= <- <-] & Ep).
  apply bind_inv_ok in Ep as (k2 & w4 & [= <- <-] & Ep). unfold detectClassicalAlgorithm in Ep.
  rewrite bool_decide_eq_true_2 in Ep by done. apply bind_inv_ok in Ep as (a & w5 & [= <- <-] & [= <- <-]).
  apply bind_inv_ok in E as (n & w6 & _ & E). apply bind_inv_ok in E as (r & w7 & _ & E).
  apply bind_inv_ok in E as (env & w8 & Es & E). unfold signSync in Es.
  apply bind_inv_ok in Es as (now & w9 & _ & Es). apply bind_inv_ok in Es as ([] & w10 & _ & Es).
  apply bind_inv_ok in Es as (rk & w11 & Er & Es). unfold resolveForSign in Er.
  cbn [ldp_inlineKey sr_keyId] in Er. rewrite (bool_decide_eq_true_2 ("inline" = "inline")), orb_true_r in Er by done.
  injection Er as <- <-. cbn [rk_subKeys length Nat.eqb for_collect] in Es.
  apply bind_inv_ok in Es as (at_ & w12 & _ & Es). apply bind_inv_ok in Es as (es & w13 & Es & [= <- <-]).
  apply bind_inv_ok in Es as (e & w14 & Ee & Es). apply bind_inv_ok in Es as (es' & w15 & [= <- <-] & [= <- <-]).
  cbn [env_signatures] in E. injection E as <- <-. unfold sign_entry in Ee. rewrite supported_all in Ee.
  cbn [negb] in Ee. apply bind_inv_ok in Ee as (sig & w16 & Ee & [= <- <-]). cbn. split; [done|].
  cbn in Ee. unfold external in Ee. destruct (crypto_sign _ _ _ _) as [[] x] eqn:Ec; [|done].
  injection Ee as <- <-. by do 3 eexists.
Qed.

Lemma verifyManifest_accepts manifest k sig pubPem x x' (w : World X) :
  createPublicKey pubPem = Ok (publicOf k) → asymmetricKeyType k = Some "ed25519" →
  crypto_sign None (canonicalManifestBytes manifest) k x = (Ok sig, x') →
  verifyManifest manifest (base64_encode sig) (fingerprintFromBytes (exportSpkiDer (publicOf k))) pubPem w
  = (Ok true, w).
Proof.
  intros Ep Ht Es. rewrite <- publicOf_type in Ht.
  unfold verifyManifest, fingerprintPublicKey, publicKeyRefFromPem, detectClassicalAlgorithm.
  rewrite Ep. cbv [lift mbind M_bind mret M_ret]. rewrite !bool_decide_eq_true_2 by done.
  cbn [negb].
  rewrite verifySync_all; [done| |done|done|done].
  constructor; [|constructor]. unfold verifies, verify_entry.
  cbn [se_algorithm se_signedBy se_signatureB64 find_first pk_algorithm pk_fingerprint].
  rewrite !bool_decide_eq_true_2 by done. cbn [andb]. unfold materializePublicKey.
  cbn [pk_algorithm pk_publicKeyB64]. rewrite !base64_roundtrip, der_roundtrip. cbn [runVerify].
  by rewrite (sign_verifies _ _ _ _ _ _ Es).
Qed.

(** *** Nonces *)

Definition signing_org (p : LocalDiskProvider) (req : SignRequest) : string :=
  ldp_auditOrgId p ?? ar_orgId (sr_actor req).

Definition nonce_used (org cn nonce : string) (d : DB) : Prop :=
  ∃ r, r ∈ db_signing_nonce d ∧ sn_orgId r = org ∧ sn_actorCn r = cn ∧ sn_nonce r = nonce.

Lemma append_keeps_nonces l o a c t i d :
  preserves (X := X) (on_db (unchanged T_signing_nonce l)) (AuditLogRepo_append o a c t i d).
Proof. unfold AuditLogRepo_append. preserve. Qed.

Lemma append_keeps_ext x o a c t i d :
  preserves (X := X) (λ w, w_ext w = x) (AuditLogRepo_append o a c t i d).
Proof.
  unfold AuditLogRepo_append. apply preserves_bind; [by intros w|]. intros now.
  apply preserves_bind; [by intros w|]. intros id. apply preserves_bind; [|intros; apply preserves_ret].
  intros w Hw. destruct (db_insert _ _ w) as [[[]|e] w1] eqn:E.
  - by apply db_insert_inv in E as [-> _].
  - by apply db_insert_throw in E as [-> _].
Qed.

(** Recording a failure ends in a throw and leaves the platform alone. *)
Lemma fail_with_row_throws {A} p org req fp err (w : World X) :
  ∃ e w', fail_with_row (A := A) p org req fp err w = (Throw e, w') ∧ w_ext w' = w_ext w.
Proof.
  unfold fail_with_row. destruct (ldp_auditLog p); [|by do 2 eexists].
  unfold writeFailedRow. rewrite !bind_eq.
  match goal with |- context [AuditLogRepo_append ?o ?a ?c ?t ?i ?d w] =>
    pose proof (append_keeps_ext (w_ext w) o a c t i d w eq_refl) as Hx;
    destruct (AuditLogRepo_append o a c t i d w) as [[] w1] end; by do 2 eexists.
Qed.

Lemma nonce_insert_used n (w : World X) :
  nonce_used (sn_orgId n) (sn_actorCn n) (sn_nonce n) (w_db w) →
  ∃ e, SigningNonceRepo_insert n w = (Throw e, w).
Proof.
  intros (r & Hr & E1 & E2 & E3). unfold SigningNonceRepo_insert, try_catch, db_insert_raw, sql_insert, row_error.
  assert (existsb (row_clash T_signing_nonce n) (tget T_signing_nonce (w_db w)) = true) as ->.
  { apply existsb_exists. exists r. rewrite <- list_elem_of_In. split; [done|]. apply row_clash_pkey. simpl. congruence. }
  cbn [row_check negb]. case_match; by eexists.
Qed.

Lemma nonce_insert_records n (w w' : World X) :
  SigningNonceRepo_insert n w = (Ok (), w') →
  nonce_used (sn_orgId n) (sn_actorCn n) (sn_nonce n) (w_db w').
Proof.
  unfold SigningNonceRepo_insert, try_catch, db_insert_raw.
  destruct (sql_insert _ _ _) as [msg|d] eqn:E; [by case_match|]. intros [= <-].
  apply sql_insert_inv in E as [-> _]. exists n. split; [|done]. simpl. apply elem_of_app. right. left.
Qed.

(** A signature made with the ledger wired leaves its nonce on record. *)
Lemma signWithAudit_records p req (w w1 : World X) env :
  ldp_nonceRepo p = true → signWithAudit p req w = (Ok env, w1) →
  nonce_used (signing_org p req) (ar_cn (sr_actor req)) (sr_nonce req) (w_db w1).
Proof.
  intros Hp E. unfold signWithAudit in E. rewrite Hp in E. fold (signing_org p req) in E.
  apply bind_inv_ok in E as (rk & w3 & _ & E). apply bind_inv_ok in E as ([] & w4 & _ & E).
  apply bind_inv_ok in E as ([] & w5 & Ei & E).
  unfold try_catch in Ei at 1. destruct (SigningNonceRepo_insert _ w4) as [[[]|e] w6] eqn:En'.
  2: { edestruct (fail_with_row_throws (A := ()) p) as (? & ? & Ef & _). by rewrite Ef in Ei. }
  injection Ei as <-. apply nonce_insert_records in En'.
  match type of E with ?m w6 = _ =>
    assert (Hk : preserves (on_db (unchanged T_signing_nonce (db_signing_nonce (w_db w6)))) m) end.
  { pose proof append_keeps_nonces. unfold fail_with_row, writeFailedRow, writeCompletedRow. preserve. }
  specialize (Hk w6 eq_refl). rewrite E in Hk. unfold on_db, unchanged in Hk. simpl in Hk.
  unfold nonce_used in *. by rewrite Hk.
Qed.

Lemma requested_row_frame (b : bool) actor org req prov fp sha (w : World X) :
  ∃ r w', (if b then writeRequestedRow actor org req prov fp sha else mret ()) w = (r, w') ∧
    w_ext w' = w_ext w ∧ tget T_signing_nonce (w_db w') = tget T_signing_nonce (w_db w).
Proof.
  destruct b; [|by do 2 eexists]. unfold writeRequestedRow. rewrite bind_eq.
  match goal with |- context [AuditLogRepo_append ?o ?a ?c ?t ?i ?d w] =>
    pose proof (append_keeps_ext (w_ext w) o a c t i d w eq_refl);
    pose proof (append_keeps_nonces (tget T_signing_nonce (w_db w)) o a c t i d w eq_refl);
    destruct (AuditLogRepo_append o a c t i d w) as [[] w3] end; by do 2 eexists.
Qed.

(** A nonce signs once.  When [sign] has returned an envelope with the nonce
    ledger wired, then as long as the ledger keeps its rows, every further
    request of the same actor and organisation with the same nonce throws, for
    whatever key and payload, and the platform's state is untouched: no
    signature is made. *)
Theorem nonce_signs_once p p' req req' (w w1 w2 : World X) env :
  ldp_nonceRepo p = true → ldp_nonceRepo p' = true →
  sign p req w = (Ok env, w1) →
  (∀ r, r ∈ db_signing_nonce (w_db w1) → r ∈ db_signing_nonce (w_db w2)) →
  signing_org p' req' = signing_org p req → ar_cn (sr_actor req') = ar_cn (sr_actor req) →
  sr_nonce req' = sr_nonce req →
  ∃ e w3, sign p' req' w2 = (Throw e, w3) ∧ w_ext w3 = w_ext w2.
Proof.
  intros Hp Hp' E Hsub Eo Ec En. unfold sign in *. rewrite Hp in E. rewrite Hp'. rewrite andb_false_r in *.
  destruct (signWithAudit_records p req w w1 env Hp E) as (n & Hn%Hsub & Hu).
  rewrite <- Eo, <- Ec, <- En in Hu. unfold signWithAudit. rewrite Hp'. fold (signing_org p' req').
  rewrite bind_eq. unfold try_catch at 1.
  pose proof (resolveForSign_frame (λ w, w = w2) p' (sr_keyId req') w2 eq_refl) as Hr.
  destruct (resolveForSign p' (sr_keyId req') w2) as [[rk|err] w3]; simpl in Hr; subst w3.
  2: { edestruct (fail_with_row_throws (A := ResolvedKey) p' (signing_org p' req') req' None err w2)
         as (e & w3 & -> & Hx). by do 2 eexists. }
  set (fp := primary_fingerprint (rk_subKeys rk) ?? "unknown"). rewrite bind_eq.
  edestruct requested_row_frame as (r & w3 & -> & Hx & Ht). destruct r as [[]|e]; [|by do 2 eexists].
  rewrite bind_eq. unfold try_catch at 1.
  edestruct (nonce_insert_used (mkSigningNonce (signing_org p' req') (ar_cn (sr_actor req')) (sr_nonce req')
    (sr_requestedAt req') (Some fp)) w3) as [e ->].
  { exists n. simpl in Ht. by rewrite Ht. }
  edestruct (fail_with_row_throws (A := ()) p' (signing_org p' req') req' (Some fp)) as (e' & w4 & -> & Hx').
  do 2 eexists. split; [done|]. congruence.
Qed.
(** *** Generated keys *)

(** What generating a key relies on: a file holds what was written last, other
    files stay as they are, the key generators make matching pairs of the
    documented sizes and leave the files alone. *)
Class KeyGenLaws := {
  write_read : ∀ p b x x', fs_writeFileSync p b x = (Ok (), x') →
    fs_existsSync p x' = true ∧ fs_readFileSync p x' = inr b;
  write_other : ∀ p q b x x', fs_writeFileSync p b x = (Ok (), x') → q ≠ p →
    fs_existsSync q x' = fs_existsSync q x ∧ fs_readFileSync q x' = fs_readFileSync q x;
  ed25519_pair : ∀ x pub priv x', generateEd25519 x = ((pub, priv), x') →
    ∃ k, createPrivateKey priv = Ok k ∧ createPublicKey pub = Ok (publicOf k)
      ∧ asymmetricKeyType k = Some "ed25519";
  ml_dsa65_pair : ∀ x secret pub x', ml_dsa65_keygen x = ((secret, pub), x') →
    String.length secret = MLDSA65_SECRET_KEY_BYTES ∧ String.length pub = MLDSA65_PUBLIC_KEY_BYTES ∧
    (∀ payload y signature y', ml_dsa65_sign payload secret y = (Ok signature, y') →
       ml_dsa65_verify signature payload pub = Ok true) ∧
    ∀ p, fs_existsSync p x' = fs_existsSync p x ∧ fs_readFileSync p x' = fs_readFileSync p x
}.

Context {G : KeyGenLaws}.

(** The file at [p] holds [b]. *)
Definition holds (p b : string) (x : X) : Prop := fs_existsSync p x = true ∧ fs_readFileSync p x = inr b.

Lemma holds_written p b (w w' : World X) :
  external (fs_writeFileSync p b) w = (Ok (), w') →
  holds p b (w_ext w') ∧ (∀ q c, q ≠ p → holds q c (w_ext w) → holds q c (w_ext w')).
Proof.
  unfold external. destruct (fs_writeFileSync p b (w_ext w)) as [[[]|] x] eqn:E; [|done].
  intros [= <-]. split; [by apply (write_read _ _ _ _ E)|].
  intros q c Hq [H1 H2]. destruct (write_other _ _ _ _ _ E Hq) as [E1 E2]. split; simpl; congruence.
Qed.

Lemma loadPrivate_holds p b k (w : World X) :
  holds p b (w_ext w) → createPrivateKey b = Ok k → loadClassicalPrivateKey p w = (Ok k, w).
Proof.
  intros [_ Hr] Hk. unfold loadClassicalPrivateKey, readBytesFromDisk, observe.
  cbv [mbind M_bind mret M_ret]. rewrite Hr. by rewrite (try_ok _ _ w k w) by (unfold lift; by rewrite Hk).
Qed.

Lemma loadPublic_holds p b k (w : World X) :
  holds p b (w_ext w) → createPublicKey b = Ok k → loadClassicalPublicKey p w = (Ok k, w).
Proof.
  intros [_ Hr] Hk. unfold loadClassicalPublicKey, readBytesFromDisk, observe.
  cbv [mbind M_bind mret M_ret]. rewrite Hr. by rewrite (try_ok _ _ w k w) by (unfold lift; by rewrite Hk).
Qed.

(** A raw key behind its magic header reads back. *)
Lemma readMldsa65_holds what p raw (w : World X) :
  holds p (MLDSA_MAGIC +:+ raw) (w_ext w) → readMldsa65 what p (String.length raw) w = (Ok raw, w).
Proof.
  intros [_ Hr]. unfold readMldsa65, readBytesFromDisk, observe. cbv [mbind M_bind mret M_ret]. rewrite Hr.
  unfold isMldsa65File. rewrite starts_with_app. cbn [negb].
  rewrite str_drop_app.
  by rewrite Nat.eqb_refl.
Qed.

(** An alias whose four files are there resolves to a hybrid key. *)
Lemma resolve_hybrid dir alias edPriv edPub secret pub k (w : World X) :
  holds (path_join2 dir (alias +:+ "-ed25519.key")) edPriv (w_ext w) →
  holds (path_join2 dir (alias +:+ "-ed25519.pub")) edPub (w_ext w) →
  holds (path_join2 dir (alias +:+ "-mldsa65.key")) (MLDSA_MAGIC +:+ secret) (w_ext w) →
  holds (path_join2 dir (alias +:+ "-mldsa65.pub")) (MLDSA_MAGIC +:+ pub) (w_ext w) →
  createPrivateKey edPriv = Ok k → createPublicKey edPub = Ok (publicOf k) →
  asymmetricKeyType k = Some "ed25519" →
  String.length secret = MLDSA65_SECRET_KEY_BYTES → String.length pub = MLDSA65_PUBLIC_KEY_BYTES →
  resolveByAlias dir alias alias w = (Ok (mkResolvedKey alias (Some alias)
    [mkResolvedSubKey Alg_ed25519 (KM_object k) (KM_object (publicOf k)) (fingerprintFromBytes (exportSpkiDer (publicOf k)));
     mkResolvedSubKey Alg_ml_dsa_65 (KM_bytes secret) (KM_bytes pub) (fingerprintFromBytes pub)]), w).
Proof.
  intros G1 G2 G3 G4 Hpriv Hpub Htype Hls Hlp. unfold resolveByAlias.
  rewrite (bind_ok _ _ w true w) by (unfold observe; by rewrite (proj1 G1), (proj1 G2)).
  rewrite (bind_ok _ _ w true w) by (unfold observe; by rewrite (proj1 G3), (proj1 G4)). cbn [andb].
  rewrite (bind_ok _ _ w k w) by (by eapply loadPrivate_holds).
  rewrite (bind_ok _ _ w (publicOf k) w) by (by eapply loadPublic_holds).
  rewrite (bind_ok _ _ w Alg_ed25519 w) by (unfold detectClassicalAlgorithm; by rewrite bool_decide_eq_true_2).
  cbn [negb bool_decide decide]. rewrite bool_decide_eq_true_2 by done. cbn [negb].
  unfold readMldsa65Secret, readMldsa65Public. rewrite <- Hls, <- Hlp.
  rewrite (bind_ok _ _ w secret w) by (by apply readMldsa65_holds).
  by rewrite (bind_ok _ _ w pub w) by (by apply readMldsa65_holds).
Qed.

(** A generated hybrid key can be used: after [generateHybridKey] has
    returned for an alias other than "default", that alias resolves to two
    sub-keys, Ed25519 and ML-DSA-65 in this order, which are matching pairs and
    have the fingerprints that were reported. *)
Theorem generated_key_resolves p alias (w w' : World X) res :
  generateHybridKey p alias w = (Ok res, w') → ldp_inlineKey p = None → alias ≠ DEFAULT_ALIAS →
  path_isAbsolute alias = false →
  NoDup (map (λ s, path_join2 (ldp_keysDir p) (alias +:+ s))
           ["-ed25519.key"; "-ed25519.pub"; "-mldsa65.key"; "-mldsa65.pub"]) →
  ∃ rk, (∀ w1, w_ext w1 = w_ext w' → resolveForSign p alias w1 = (Ok rk, w1)) ∧
    map rsk_algorithm (rk_subKeys rk) = [Alg_ed25519; Alg_ml_dsa_65] ∧
    Forall key_pair_ok (rk_subKeys rk) ∧
    map rsk_fingerprint (rk_subKeys rk) = [gh_classicalFingerprint res; gh_pqFingerprint res].
Proof.
  intros E Hi Ha Habs Hn. unfold generateHybridKey in E. destruct (_ || _ || _ || _) eqn:Eg; [done|].
  repeat (rewrite ?orb_false_iff in Eg). destruct Eg as [[[_ Hsep] Hsl] Hdd].
  apply bind_inv_ok in E as ([] & w1 & _ & E).
  apply bind_inv_ok in E as ([edPub edPriv] & w2 & E2 & E).
  set (kp := path_join2 _ (alias +:+ "-ed25519.key")) in *. set (kq := path_join2 _ (alias +:+ "-ed25519.pub")) in *.
  apply bind_inv_ok in E as ([] & w3 & E3 & E). apply bind_inv_ok in E as ([] & w4 & E4 & E).
  apply bind_inv_ok in E as (edKey & w5 & E5 & E). apply bind_inv_ok in E as ([secret pub] & w6 & E6 & E).
  set (mp := path_join2 _ (alias +:+ "-mldsa65.key")) in *. set (mq := path_join2 _ (alias +:+ "-mldsa65.pub")) in *.
  apply bind_inv_ok in E as ([] & w7 & E7 & E). apply bind_inv_ok in E as ([] & w8 & E8 & [= <- <-]).
  unfold external in E2, E6. destruct (generateEd25519 _) as [kpair x2] eqn:Eed; injection E2 as -> <-.
  destruct (ml_dsa65_keygen _) as [mpair x6] eqn:Eml; injection E6 as -> <-.
  apply ed25519_pair in Eed as (k & Hpriv & Hpub & Htype).
  apply ml_dsa65_pair in Eml as (Hls & Hlp & Hver & Hkeep).
  unfold lift in E5. rewrite Hpub in E5. injection E5 as <- <-.
  apply holds_written in E3 as [F3 _], E4 as [F4 K4], E7 as [F7 K7], E8 as [F8 K8].
  simpl in Hn. fold kp kq mp mq in Hn. rewrite !NoDup_cons, !not_elem_of_cons in Hn.
  destruct Hn as ((Hpq & Hpm & Hpn & _) & (Hqm & Hqn & _) & (Hmn & _) & _).
  assert (Hk6 : ∀ q c, holds q c (w_ext w4) → holds q c x6).
  { intros q c [h1 h2]. destruct (Hkeep q) as [e1 e2]. split; congruence. }
  assert (G1 : holds kp edPriv (w_ext w8)) by auto 6. assert (G2 : holds kq edPub (w_ext w8)) by auto 6.
  assert (G3 : holds mp (MLDSA_MAGIC +:+ secret) (w_ext w8)) by auto.
  assert (G4 : holds mq (MLDSA_MAGIC +:+ pub) (w_ext w8)) by done.
  exists (mkResolvedKey alias (Some alias)
    [mkResolvedSubKey Alg_ed25519 (KM_object k) (KM_object (publicOf k)) (fingerprintFromBytes (exportSpkiDer (publicOf k)));
     mkResolvedSubKey Alg_ml_dsa_65 (KM_bytes secret) (KM_bytes pub) (fingerprintFromBytes pub)]).
  split_and!; [|done|by repeat constructor|done]. intros v Hv. rewrite <- Hv in G1, G2, G3, G4.
  unfold resolveForSign. rewrite Hi, Habs, Hsep, Hsl, Hdd. cbn [orb]. rewrite bool_decide_eq_false_2 by done.
  by eapply resolve_hybrid.
Qed.
End sign.


#[export] Instance fixture_crypto_laws : CryptoLaws Trace.
Proof.
  split; try done.
  intros digest payload k x sig x' [= <- <-]. simpl. by rewrite bool_decide_eq_true_2.
Qed.

Lemma starts_with_inv a s : starts_with a s = true → ∃ r, s = a +:+ r.
Proof.
  revert s. induction a as [|c a IH]; intros s Hs; [by exists s|].
  destruct s as [|d s]; [done|]. simpl in Hs. apply andb_true_iff in Hs as [->%bool_decide_eq_true Hs].
  apply IH in Hs as [r ->]. by exists r.
Qed.

Lemma fx_file_written p b x : fx_file p (x ++ [json_quote p +:+ b]) = Some b.
Proof.
  unfold fx_file. rewrite reverse_snoc. cbn [find_first]. by rewrite starts_with_app, str_drop_app.
Qed.

Lemma fx_file_other p q b x : q ≠ p → fx_file q (x ++ [json_quote p +:+ b]) = fx_file q x.
Proof.
  intros Hne. unfold fx_file. rewrite reverse_snoc. cbn [find_first].
  destruct (starts_with (json_quote q) (json_quote p +:+ b)) eqn:Es; [|done].
  apply starts_with_inv in Es as [r Er]. by apply json_quote_inj in Er as [-> _].
Qed.

Lemma fx_file_unwritten q line x : starts_with (json_quote q) line = false → fx_file q (x ++ [line]) = fx_file q x.
Proof. intros Hs. unfold fx_file. rewrite reverse_snoc. cbn [find_first]. by rewrite Hs. Qed.

#[export] Instance fixture_keygen_laws : KeyGenLaws (X := Trace).
Proof.
  split.
  - intros p b x x' [= <-]. simpl. by rewrite fx_file_written.
  - intros p q b x x' [= <-] Hq. simpl. by rewrite fx_file_other.
  - intros x pub priv x' [= <- <- <-]. by exists "new".
  - intros x secret pub x' [= <- <- <-]. split_and!; [reflexivity|reflexivity| |].
    + intros payload y sig y' [= <- <-]. simpl. by rewrite bool_decide_eq_true_2.
    + intros p. simpl. by rewrite fx_file_unwritten.
Qed.

Definition fx_provider : LocalDiskProvider :=
  mkLocalDiskProvider "keys" DEFAULT_SIGNING_POLICY None true true None.

Definition fx_sign_request : SignRequest :=
  mkSignRequest "rel" "payload" (str_repeat 32 "a") (toISOString epoch2025) "release"
    (mkActorRef AK_user "alice" "o1").

Definition fx_hybrid : ResolvedKey :=
  mkResolvedKey "rel" (Some "rel")
    [mkResolvedSubKey Alg_ed25519 (KM_object (C := fixture_crypto) "alice") (KM_object (C := fixture_crypto) "alice")
       (fingerprintFromBytes "alice");
     mkResolvedSubKey Alg_ml_dsa_65 (KM_bytes (str_repeat 4032 "x")) (KM_bytes (str_repeat 1952 "x"))
       (fingerprintFromBytes (str_repeat 1952 "x"))].

Lemma sign_then_verify_witness :
  ∃ env w', signSync fx_provider fx_sign_request fx_world = (Ok env, w') ∧
  map se_algorithm (env_signatures env) = [Alg_ed25519; Alg_ml_dsa_65] ∧
  verifySync env "payload" (refs_of fx_hybrid) VM_strict = Ok vr_pass ∧
  verifySync env "payload" (refs_of fx_hybrid) VM_transition = Ok vr_pass ∧
  verifySync env "payload" (refs_of fx_hybrid) VM_classical_only = Ok vr_pass.
Proof.
  destruct (signSync fx_provider fx_sign_request fx_world) as [[env|e] w'] eqn:E; [|by vm_compute in E].
  exists env, w'. split; [reflexivity|].
  destruct (sign_then_verify fx_provider fx_sign_request fx_world w' env fx_hybrid E) as (Ha & Hs & Ht & Hc).
  - intros [d c i x] Hx. simpl in Hx. subst x. vm_compute. reflexivity.
  - repeat constructor. intros payload x sig x' [= <- <-]. simpl. by rewrite bool_decide_eq_true_2.
  - apply (bool_decide_unpack _). vm_compute. exact I.
  - split_and!; [exact Ha|exact Hs|exact Ht|]. apply Hc. left. done.
Defined.

Lemma nonce_signs_once_witness :
  ∃ env w1, sign fx_provider fx_sign_request fx_world = (Ok env, w1) ∧
  ∃ e w3, sign fx_provider fx_sign_request w1 = (Throw e, w3) ∧ w_ext w3 = w_ext w1.
Proof.
  destruct (sign fx_provider fx_sign_request fx_world) as [[env|e] w1] eqn:E; [|by vm_compute in E].
  exists env, w1. split; [reflexivity|].
  exact (nonce_signs_once fx_provider fx_provider fx_sign_request fx_sign_request fx_world w1 w1 env
    eq_refl eq_refl E (λ r Hr, Hr) eq_refl eq_refl eq_refl).
Defined.

Lemma generated_key_resolves_witness :
  ∃ res w', generateHybridKey fx_provider "prod" fx_world = (Ok res, w') ∧
  ∃ rk, (∀ w1, w_ext w1 = w_ext w' → resolveForSign fx_provider "prod" w1 = (Ok rk, w1)) ∧
    map rsk_algorithm (rk_subKeys rk) = [Alg_ed25519; Alg_ml_dsa_65] ∧
    Forall key_pair_ok (rk_subKeys rk) ∧
    map rsk_fingerprint (rk_subKeys rk) = [gh_classicalFingerprint res; gh_pqFingerprint res].
Proof.
  destruct (generateHybridKey fx_provider "prod" fx_world) as [[res|e] w'] eqn:E; [|by vm_compute in E].
  exists res, w'. split; [reflexivity|].
  apply (generated_key_resolves fx_provider "prod" fx_world w' res E); [reflexivity|discriminate|reflexivity|].
  apply (bool_decide_unpack _). vm_compute. exact I.
Defined.
