(* ===== verification/BuildSpec.v ===== *)
(** What a build promises: a signed release verifies, and only a build that
    returns makes a release ready. *)

From S2P Require Import Prelude JsTime JsVal Types World Logic Manifest StorageCatalog StorageOps.
From S2P Require Import Signing BuildYaml Build ManifestSpec SigningSpec Fixture.

Lemma tset_tset T l l' d : tset T l (tset T l' d) = tset T l d.
Proof. by destruct T. Qed.

(** The first row that passes [p], after an update that keeps [p]. *)
Lemma find_first_update {R} (p q : R → bool) f l e :
  find_first p l = Some e → q e = true → (∀ r, q r = true → p (f r) = p r) →
  find_first p (update_where q f l) = Some (f e).
Proof.
  intros Hf Hq Hp. induction l as [|r l IH]; simpl in *; [done|].
  destruct (q r) eqn:Eq; [rewrite Hp by done|]; destruct (p r) eqn:Ep; simplify_eq; auto; congruence.
Qed.

Lemma map_insert_sorted {A B} (f : A → B) (key : A → string) (key' : B → string) a l :
  (∀ x, key' (f x) = key x) →
  map f (insert_sorted (λ x y, str_leb (key x) (key y)) a l)
  = insert_sorted (λ x y, str_leb (key' x) (key' y)) (f a) (map f l).
Proof.
  intros Hk. induction l as [|b l IH]; simpl; [done|]. rewrite !Hk. case_match; simpl; congruence.
Qed.

Lemma map_order_asc {A B} (f : A → B) (key : A → string) (key' : B → string) l :
  (∀ x, key' (f x) = key x) → map f (order_asc key l) = order_asc key' (map f l).
Proof.
  intros Hk. unfold order_asc. induction l as [|a l IH]; simpl; [done|].
  by rewrite (map_insert_sorted f key key'), IH.
Qed.

Lemma truthy_nonempty s : s ≠ "" → truthy (Some s) = Some s.
Proof. intros Hs. unfold truthy. by rewrite bool_decide_eq_false_2. Qed.

(** Manifests with the same sorted entries are the same. *)
Lemma manifest_eq p t c l l' :
  order_asc me_component l = order_asc me_component l' → buildManifest p t c l = buildManifest p t c l'.
Proof.
  intros E. pose proof (buildManifest_sorted p t c l). pose proof (buildManifest_sorted p t c l').
  unfold buildManifest in *. cbn [rm_artifacts] in *. congruence.
Qed.

Lemma fingerprint_nonempty {X} {C : Crypto X} {L : CryptoLaws X} b : fingerprintFromBytes b ≠ "".
Proof.
  unfold fingerprintFromBytes, str_take. pose proof (sha256_length b) as Hl.
  destruct (sha256_hex b); [done|]. done.
Qed.

Section build_spec.
Context {X : Type} `{Oracle} `{JsEngine} `{Zod} {C : Crypto X} {K : KeyFiles X} {B : BuildHost X}.

(** *** Capturing artifacts *)

(** The database after rows were added to the artifact table. *)
Definition with_artifacts (rows : list Artifact) (d : DB) : DB :=
  tset T_artifact (db_artifact d ++ rows) d.

Definition artifact_of (releaseId : string) (a : Artifact) : Prop :=
  art_releaseId a = releaseId ∧ art_deletedAt a = None.

(** What a capture yields: new rows of this release, each with its entry. *)
Definition captures (releaseId : string) (l : list (Artifact * ManifestEntry)) (w w' : World X) : Prop :=
  w_db w' = with_artifacts (map fst l) (w_db w) ∧
  Forall (λ re, artifact_of releaseId re.1 ∧ re.2 = artifact_entry re.1) l.

Lemma captures_nil r w w' : w_db w' = w_db w → captures r [] w w'.
Proof.
  intros E. split; [|constructor]. rewrite E. unfold with_artifacts. simpl. rewrite app_nil_r.
  symmetry. apply (tset_tget T_artifact).
Qed.

Lemma captures_app r l1 l2 w1 w2 w3 :
  captures r l1 w1 w2 → captures r l2 w2 w3 → captures r (l1 ++ l2) w1 w3.
Proof.
  intros [E1 F1] [E2 F2]. split; [|by apply Forall_app].
  rewrite E2, E1, map_app. unfold with_artifacts. rewrite tset_tset. simpl. by rewrite app_assoc.
Qed.

Lemma ArtifactRepo_create_inv r c k s z b i (w w' : World X) row :
  ArtifactRepo_create r c k s z b i w = (Ok row, w') →
  w_db w' = with_artifacts [row] (w_db w) ∧
  ∃ id now, row = mkArtifact id r c k s z b i now now None.
Proof.
  unfold ArtifactRepo_create. intros E.
  apply bind_inv_ok in E as (now & w1 & [= <- <-] & E). apply bind_inv_ok in E as (id & w2 & [= <- <-] & E).
  apply bind_inv_ok in E as ([] & w3 & Ei & [= <- <-]).
  apply db_insert_inv in Ei as [-> _]. split; [done|]. by do 2 eexists.
Qed.

Lemma external_db {A} (f : X → Res A * X) (w w' : World X) a : external f w = (Ok a, w') → w_db w' = w_db w.
Proof. unfold external. destruct (f (w_ext w)). by intros [= _ <-]. Qed.

Lemma captureArtifact_captures org r c art wd (w w' : World X) re :
  captureArtifact org r c art wd w = (Ok re, w') → captures r [re] w w'.
Proof.
  unfold captureArtifact. destruct art as [path produce|ref]; intros E.
  - apply bind_inv_ok in E as (present & w1 & [= <- <-] & E). case_match; [done|].
    apply bind_inv_ok in E as (isFile & w2 & E2%external_db & E). case_match; [done|].
    apply bind_inv_ok in E as ([[uri sha] size] & w3 & E3%external_db & E).
    apply bind_inv_ok in E as (row & w4 & Er & [= <- <-]).
    apply ArtifactRepo_create_inv in Er as (Ed & id & now & ->).
    split; [simpl; rewrite Ed, E3, E2; done|]. by repeat constructor.
  - apply bind_inv_ok in E as (row & w4 & Er & [= <- <-]).
    apply ArtifactRepo_create_inv in Er as (Ed & id & now & ->). split; [done|]. by repeat constructor.
Qed.

(** A loop of captures; [view] is what one turn yields. *)
Lemma for_collect_captures {A R} r (l : list A) (body : A → M X R)
    (view : R → list (Artifact * ManifestEntry)) w w' res :
  (∀ a w1 re w2, body a w1 = (Ok re, w2) → captures r (view re) w1 w2) →
  for_collect l body w = (Ok res, w') → captures r (concat (map view res)) w w'.
Proof.
  intros Hb. revert w res. induction l as [|a l IH]; intros w res E; simpl in E.
  - injection E as <- <-. by apply captures_nil.
  - apply bind_inv_ok in E as (re & w1 & E1 & E). apply bind_inv_ok in E as (res' & w2 & E2 & [= <- <-]).
    simpl. eapply captures_app; [by eapply Hb|by apply IH].
Qed.

Lemma runRawCommand_frame I n c a d e : preserves (X := X) (on_db I) (runRawCommand n c a d e).
Proof. unfold runRawCommand. preserve. Qed.

Lemma build_component_captures org r wd vars comp (w w' : World X) res :
  build_component org r wd vars comp w = (Ok res, w') → captures r res w w'.
Proof.
  unfold build_component. destruct (substituteComponent comp vars) as [msg|c]; [done|]. intros E.
  apply bind_inv_ok in E as ([] & w1 & E1 & E). apply bind_inv_ok in E as ([] & w2 & E2 & E).
  assert (H12 : w_db w2 = w_db w).
  { pose proof (runRawCommand_frame (λ d, d = w_db w)) as Hr.
    assert (P1 : preserves (X := X) (on_db (λ d, d = w_db w)) (runComponentBuild c wd))
      by (unfold runComponentBuild; apply Hr).
    specialize (P1 w eq_refl). rewrite E1 in P1.
    match type of E2 with ?m w1 = _ =>
      assert (P2 : preserves (X := X) (on_db (λ d, d = w_db w)) m) by (unfold runShellCommand; preserve) end.
    specialize (P2 w1 P1). by rewrite E2 in P2. }
  apply (for_collect_captures r _ _ (λ re, [re])) in E; [|intros; by eapply captureArtifact_captures].
  assert (concat (map (λ re, [re]) res) = res) as Ec by (clear; induction res; simpl; congruence).
  rewrite Ec in E. by apply (captures_app r [] res w w2 w'); [apply captures_nil|].
Qed.

(** *** The release row *)

Definition release_is (id : string) (r : Release) : bool := (rel_id r =?s id) && is_null (rel_deletedAt r).

Lemma db_update_ok_inv T p f (w w' : World X) n :
  db_update T p f w = (Ok n, w') → w' = set_db (tset T (update_where p f (tget T (w_db w))) (w_db w)) w.
Proof.
  unfold db_update, try_catch, db_update_raw. destruct (sql_update T p f (w_db w)) as [msg|[d m]] eqn:E; [done|].
  apply sql_update_inv in E as [-> _]. by intros [= _ <-].
Qed.

Lemma ReleaseRepo_update_inv id patch (w w' : World X) rel :
  ReleaseRepo_update id patch w = (Ok rel, w') →
  ∃ e now, find_first (release_is id) (db_release (w_db w)) = Some e ∧ rel = release_set patch e now e ∧
    w_db w' = tset T_release (update_where (λ r, rel_id r =?s rel_id e) (release_set patch e now)
                                (db_release (w_db w))) (w_db w).
Proof.
  unfold ReleaseRepo_update. intros E. apply bind_inv_ok in E as (existing & w1 & Eg & E).
  unfold ReleaseRepo_get, read in Eg. injection Eg as <- <-.
  change (λ r, (rel_id r =?s id) && is_null (rel_deletedAt r)) with (release_is id) in E.
  destruct (find_first (release_is id) _) as [e|] eqn:Ef; [|done].
  apply bind_inv_ok in E as (now & w2 & [= <- <-] & E). apply bind_inv_ok in E as (n & w3 & Eu & [= <- <-]).
  apply db_update_ok_inv in Eu as ->. by do 2 eexists.
Qed.

(** The updated row is the one found afterwards. *)
Lemma release_found_updated id patch e now l :
  find_first (release_is id) l = Some e →
  find_first (release_is id) (update_where (λ r, rel_id r =?s rel_id e) (release_set patch e now) l)
  = Some (release_set patch e now e).
Proof. intros Hf. apply find_first_update; [done|by apply bool_decide_eq_true|done]. Qed.

Lemma ReleaseRepo_create_inv org pid tag sha st (w w' : World X) rel :
  ReleaseRepo_create org pid tag sha st w = (Ok rel, w') →
  w_db w' = tset T_release (db_release (w_db w) ++ [rel]) (w_db w) ∧
  (∀ r, r ∈ db_release (w_db w) → rel_id r ≠ rel_id rel) ∧
  ∃ now, rel = mkRelease (rel_id rel) org pid tag sha None None None None None (st ?? RS_building) None
                 now now None.
Proof.
  unfold ReleaseRepo_create. intros E. apply bind_inv_ok in E as (now & w1 & [= <- <-] & E).
  apply bind_inv_ok in E as (id & w2 & [= <- <-] & E). apply bind_inv_ok in E as ([] & w3 & Ei & [= <- <-]).
  apply db_insert_inv in Ei as [-> Hc]. split; [done|]. split; [|by eexists].
  intros r Hr Hid. specialize (Hc r Hr). rewrite row_clash_pkey in Hc; [done|]. simpl. simpl in Hid. by rewrite Hid.
Qed.

Lemma append_frame {T} l o a c t i d :
  T ≠ T_audit_log → preserves (X := X) (on_db (unchanged T l)) (AuditLogRepo_append o a c t i d).
Proof.
  intros HT. unfold AuditLogRepo_append.
  pose proof (preserves_insert_indep (X := X) T_audit_log _ (unchanged_indep T T_audit_log l (not_eq_sym HT))).
  preserve.
Qed.

Lemma frame_eq {A T} (m : M X A) (w w' : World X) r :
  (∀ l, preserves (on_db (unchanged T l)) m) → m w = (r, w') → tget T (w_db w') = tget T (w_db w).
Proof. intros Hm E. specialize (Hm _ w eq_refl). by rewrite E in Hm. Qed.

(** *** What a successful build leaves behind *)

Lemma load_build_yaml_db product wd (w w' : World X) r :
  load_build_yaml product wd w = (r, w') → w_db w' = w_db w.
Proof.
  intros E. assert (Hp : preserves (on_db (λ d, d = w_db w)) (load_build_yaml product wd))
    by (unfold load_build_yaml; preserve).
  specialize (Hp w eq_refl). by rewrite E in Hp.
Qed.

(** The state of a finished build: its row is the live one of its id, the live
    artifacts of the release are the captured ones, and the signature, if a key
    was given, is over the manifest. *)
Record built (keysDir : string) (pem : option string) (product : Product) (tag sha : string)
    (res : RunBuildResult) (w' : World X) : Prop := mk_built {
  bd_row : find_first (release_is (rel_id (rb_release res))) (db_release (w_db w')) = Some (rb_release res);
  bd_ready : rel_status (rb_release res) = RS_ready ∧ rel_productId (rb_release res) = pr_id product
    ∧ rel_tag (rb_release res) = tag ∧ rel_commitSha (rb_release res) = sha;
  bd_artifacts : select (λ a, (art_releaseId a =?s rel_id (rb_release res)) && is_null (art_deletedAt a))
    (db_artifact (w_db w')) = rb_artifacts res;
  bd_manifest : rb_manifest res = buildManifest (pr_name product) tag sha (map artifact_entry (rb_artifacts res));
  bd_hash : rel_manifestSha256 (rb_release res) = Some (hashManifest sha256_hex (rb_manifest res));
  bd_signature : ∀ p, truthy pem = Some p → ∃ s w1 w2, signManifest keysDir (rb_manifest res) p w1 = (Ok s, w2)
    ∧ rb_signature res = Some s
    ∧ rel_signedBy (rb_release res) = Some (sm_signedBy s)
    ∧ rel_signatureB64 (rb_release res) = Some (sm_signatureB64 s)
}.

(** No artifact belongs to a release that is not there yet. *)
Lemma no_artifact_of d r :
  db_ok d → (∀ x, x ∈ db_release d → rel_id x ≠ r) →
  select (λ a, (art_releaseId a =?s r) && is_null (art_deletedAt a)) (db_artifact d) = [].
Proof.
  intros Hd Hr. apply select_nil. intros a Ha. destruct (Hd T_artifact) as [_ Hf].
  destruct (Hf a Ha) as [Hfk _]. simpl in Hfk. apply has_key_elem in Hfk as (x & Hx & Ex).
  simpl in Ex. injection Ex as Ex. rewrite bool_decide_eq_false_2; [done|]. intros <-. by apply (Hr x).
Qed.

Lemma build_body_built keysDir org actor runner tag sha wd pem product parsed release (w0 w w' : World X) res :
  db_ok (w_db w0) → (∀ r, r ∈ db_release (w_db w0) → rel_id r ≠ rel_id release) →
  db_release (w_db w) = db_release (w_db w0) ++ [release] → db_artifact (w_db w) = db_artifact (w_db w0) →
  rel_deletedAt release = None → rel_productId release = pr_id product → rel_tag release = tag →
  rel_commitSha release = sha →
  build_body keysDir org actor runner tag sha wd pem product parsed release w = (Ok res, w') →
  built keysDir pem product tag sha res w'.
Proof.
  intros Hd Hfresh Er Ea Hl Hp Ht Hs E. unfold build_body in E.
  apply bind_inv_ok in E as (captured & w1 & Ec & E).
  apply (for_collect_captures (rel_id release) _ _ id) in Ec; [|intros; by eapply build_component_captures].
  rewrite map_id in Ec. destruct Ec as [Ed1 Hcap]. set (l := concat captured) in *.
  apply bind_inv_ok in E as (sig & w2 & Es & E). apply bind_inv_ok in E as (at_ & w3 & [= <- <-] & E).
  apply bind_inv_ok in E as (fin & w4 & Eu & E). apply bind_inv_ok in E as (row & w5 & El & [= <- <-]).
  apply ReleaseRepo_update_inv in Eu as (e & now & Ef & -> & Ed4). cbn [w_db] in Ef, Ed4.
  assert (Ed2 : w_db w2 = w_db w1).
  { destruct (truthy pem) as [p|]; [|by injection Es as <- <-].
    pose proof (signManifest_frame (λ d, d = w_db w1) keysDir (buildManifest (pr_name product) tag sha (map snd l)) p) as Hf.
    specialize (Hf w1 eq_refl). apply bind_inv_ok in Es as (s & w6 & Es & [= <- <-]). by rewrite Es in Hf. }
  assert (Er5 : tget T_release (w_db w5) = tget T_release (w_db w4)).
  { eapply frame_eq; [|exact El]. intros k. by apply append_frame. }
  assert (Ea5 : tget T_artifact (w_db w5) = tget T_artifact (w_db w4)).
  { eapply frame_eq; [|exact El]. intros k. by apply append_frame. }
  rewrite Ed2, Ed1 in Ef. cbn [db_release with_artifacts tset] in Ef. rewrite Er in Ef.
  rewrite find_first_app in Ef. rewrite (proj2 (find_first_None _ _)) in Ef.
  2: { intros r Hr. unfold release_is. by rewrite bool_decide_eq_false_2 by (by apply Hfresh). }
  simpl in Ef. unfold release_is in Ef. rewrite bool_decide_eq_true_2, Hl in Ef by done. injection Ef as <-.
  simpl in Er5, Ea5. rewrite Ed4 in Er5, Ea5. simpl in Er5, Ea5.
  assert (Hmap : map snd l = map artifact_entry (map fst l)).
  { rewrite map_map. clear -Hcap. induction Hcap as [|re l [_ ?] _ IH]; simpl; congruence. }
  split; cbn [rb_release rb_artifacts rb_manifest rb_signature].
  - rewrite Er5. apply release_found_updated. rewrite Ed2, Ed1. simpl. rewrite Er, find_first_app.
    rewrite (proj2 (find_first_None _ _)).
    2: { intros r Hr. unfold release_is. by rewrite bool_decide_eq_false_2 by (by apply Hfresh). }
    simpl. unfold release_is. cbn [rel_id release_set]. by rewrite bool_decide_eq_true_2, Hl.
  - done.
  - rewrite Ea5, Ed2, Ed1. simpl. rewrite select_app, Ea, (no_artifact_of _ _ Hd Hfresh). simpl.
    apply select_all. intros a Hin. apply list_elem_of_fmap in Hin as (re & -> & Hin).
    rewrite Forall_forall in Hcap. destruct (Hcap re Hin) as [[-> ->] _]. by rewrite bool_decide_eq_true_2.
  - by rewrite Hmap.
  - done.
  - intros p Hp'. rewrite Hp' in Es. apply bind_inv_ok in Es as (s & w6 & Es & [= <- <-]). by do 3 eexists.
Qed.

(** A returned build has checked everything before its row was created. *)
Lemma runBuild_built keysDir org pid tag sha wd runner actor pem (w w' : World X) res :
  db_ok (w_db w) → runBuild keysDir org pid tag sha wd runner actor pem w = (Ok res, w') →
  ∃ product, find_first (λ r, (pr_id r =?s pid) && is_null (pr_deletedAt r)) (db_product (w_db w)) = Some product
    ∧ db_product (w_db w') = db_product (w_db w) ∧ built keysDir pem product tag sha res w'.
Proof.
  intros Hd E. unfold runBuild in E. apply bind_inv_ok in E as (prod & w1 & [= <- <-] & E).
  destruct (find_first _ _) as [product|] eqn:Ep; [|done]. exists product. split; [done|].
  apply bind_inv_ok in E as (existing & w2 & [= <- <-] & E).
  apply bind_inv_ok in E as ([] & w3 & Ee & E). apply bind_inv_ok in E as (parsed & w4 & Ey & E).
  apply bind_inv_ok in E as (release & w5 & Ec & E). apply bind_inv_ok in E as (row & w6 & Ea & E).
  assert (Hd3 : db_ok (w_db w3) ∧ tget T_product (w_db w3) = tget T_product (w_db w)).
  { destruct (find_first _ (db_release (w_db w))) as [e|]; [|by injection Ee as <-].
    destruct (bool_decide (rel_status e = RS_ready)); [done|]. split.
    - pose proof (ReleaseRepo_softDelete_ok (rel_id e) w Hd) as Hok. by rewrite Ee in Hok.
    - eapply frame_eq; [|exact Ee]. intros l. unfold ReleaseRepo_softDelete. preserve. }
  destruct Hd3 as [Hd3 Hp3]. apply load_build_yaml_db in Ey. rewrite <- Ey in Hd3, Hp3.
  apply ReleaseRepo_create_inv in Ec as (Ed5 & Hfresh & now & Hrel).
  unfold try_catch in E. destruct (build_body _ _ _ _ _ _ _ _ _ _ _ w6) as [[res'|e] w7] eqn:Eb.
  2: { unfold build_failed in E. apply bind_inv_ok in E as (? & ? & _ & E).
       by apply bind_inv_ok in E as (? & ? & _ & E). }
  injection E as <- <-. assert (pr_id product = pid) as Hpid.
  { apply find_first_Some in Ep as [_ Ep]. by bool_hyps. }
  split.
  - change (tget T_product (w_db w7) = tget T_product (w_db w)).
    rewrite <- Hp3. etrans; [eapply frame_eq; [|exact Eb]|etrans; [eapply frame_eq; [|exact Ea]|]].
    + intros l. unfold build_body, build_component, captureArtifact, runComponentBuild, runShellCommand,
        ArtifactRepo_create, ReleaseRepo_update, ReleaseRepo_get.
      pose proof (runRawCommand_frame (unchanged T_product l)).
      pose proof (append_frame (T := T_product) l). preserve.
    + intros l. by apply append_frame.
    + rewrite Ed5. done.
  - eapply (build_body_built _ _ _ _ _ _ _ _ _ _ _ w4 w6); [done|exact Hfresh|..|exact Eb];
      try (by rewrite Hrel).
    + change (tget T_release (w_db w6) = db_release (w_db w4) ++ [release]).
      etrans; [eapply frame_eq; [|exact Ea]; intros l; by apply append_frame|]. by rewrite Ed5.
    + change (tget T_artifact (w_db w6) = db_artifact (w_db w4)).
      etrans; [eapply frame_eq; [|exact Ea]; intros l; by apply append_frame|]. by rewrite Ed5.
Qed.

(** *** What a failed build leaves behind *)

(** A program that leaves a table alone keeps what is said of its rows. *)
Lemma preserves_rows {A T} (P : list (row_of T) → Prop) (m : M X A) :
  (∀ l, preserves (on_db (unchanged T l)) m) → preserves (on_db (λ d, P (tget T d))) m.
Proof.
  intros Hm w Hw. pose proof (Hm _ w eq_refl) as E. unfold on_db, unchanged in *. by rewrite E.
Qed.

Lemma releases_pkey d (a b : Release) :
  db_ok d → a ∈ db_release d → b ∈ db_release d → rel_id a = rel_id b → a = b.
Proof.
  intros Hd Ha Hb E. apply (table_ok_pkey_unique T_release d); [apply Hd|done|done|]. simpl. congruence.
Qed.

(** Rewriting a live release's columns always succeeds: neither its id nor its
    product, tag and references change. *)
Lemma ReleaseRepo_update_run patch e (w : World X) :
  db_ok (w_db w) → e ∈ db_release (w_db w) → rel_deletedAt e = None →
  ∃ now w', ReleaseRepo_update (rel_id e) patch w = (Ok (release_set patch e now e), w') ∧
    w_db w' = tset T_release (update_where (λ r, rel_id r =?s rel_id e) (release_set patch e now)
                                (db_release (w_db w))) (w_db w).
Proof.
  intros Hd He Hl. unfold ReleaseRepo_update.
  rewrite (bind_ok _ _ w (Some e) w).
  2: { unfold ReleaseRepo_get, read. do 2 f_equal. apply find_first_unique; [done| |].
       - by rewrite bool_decide_eq_true_2, Hl.
       - intros y Hy Ey. bool_hyps. by apply (releases_pkey (w_db w)). }
  set (now := toISOString (clock (w_clock w))).
  erewrite bind_ok; [|done]. fold now. cbv beta.
  erewrite bind_ok; [|eapply (db_update_one T_release _ _ e); simpl; try done].
  - by do 2 eexists.
  - by rewrite bool_decide_eq_true_2.
  - intros r _. rewrite bool_decide_eq_true. split; [by intros ->|congruence].
  - by apply (Hd T_release).
  - intros r k Hr Hp Ek Er. apply bool_decide_eq_false in Hp. apply Hp. f_equal.
    by eapply (table_ok_ukey_unique T_release (w_db w)).
Qed.

(** Every ready release is an old one, or, where [except] says so, the new one. *)
Definition ready_only (old : list Release) (except : option string) (rows : list Release) : Prop :=
  ∀ r, r ∈ rows → rel_status r = RS_ready → r ∈ old ∨ except = Some (rel_id r).

Definition row_live (id : string) (rows : list Release) : Prop :=
  ∃ r, r ∈ rows ∧ rel_id r = id ∧ rel_deletedAt r = None.

(** The state while the new release is being built. *)
Definition building (old : list Release) (id : string) (d : DB) : Prop :=
  db_ok d ∧ row_live id (tget T_release d) ∧ ready_only old (Some id) (tget T_release d).

Lemma building_frame {A} old id (m : M X A) :
  preserves (on_db db_ok) m → (∀ l, preserves (on_db (unchanged T_release l)) m) →
  preserves (on_db (building old id)) m.
Proof.
  intros Hd Hm. apply preserves_and; [done|].
  apply (preserves_rows (T := T_release) (λ rows, row_live id rows ∧ ready_only old (Some id) rows)), Hm.
Qed.

Lemma row_live_update id p patch e now rows :
  row_live id rows → row_live id (update_where p (release_set patch e now) rows).
Proof.
  intros (r & Hr & Hid & Hl). destruct (p r) eqn:Ep.
  - exists (release_set patch e now r). split; [|done]. apply update_where_elem. left. eauto.
  - exists r. split; [|done]. apply update_where_elem. by right.
Qed.

Lemma building_update old id patch : preserves (X := X) (on_db (building old id)) (ReleaseRepo_update id patch).
Proof.
  intros w (Hd & (e & He & Hid & Hl) & Hr). subst id.
  pose proof (ReleaseRepo_update_ok (rel_id e) patch w Hd) as Hok.
  destruct (ReleaseRepo_update_run patch e w Hd He Hl) as (now & w' & E & Ed). rewrite E in Hok |- *.
  split; [exact Hok|]. cbn [snd]. rewrite Ed. simpl. split; [apply row_live_update; by exists e|].
  intros r Hin Hs. apply update_where_elem in Hin as [(y & _ & Hy & ->)|[Hin _]]; [|by apply Hr].
  right. apply bool_decide_eq_true in Hy. simpl. congruence.
Qed.

Lemma building_append old id o a c t i d :
  preserves (X := X) (on_db (building old id)) (AuditLogRepo_append o a c t i d).
Proof. apply building_frame; [apply AuditLogRepo_append_ok|]. intros l. by apply append_frame. Qed.

Lemma build_body_building old keysDir org actor runner tag sha wd pem product parsed release :
  preserves (X := X) (on_db (building old (rel_id release)))
    (build_body keysDir org actor runner tag sha wd pem product parsed release).
Proof.
  pose proof (building_append old (rel_id release)).
  assert (Hc : ∀ vars comp, preserves (X := X) (on_db (building old (rel_id release)))
    (build_component org (rel_id release) wd vars comp)).
  { intros. apply building_frame; [|intros l]; unfold build_component, captureArtifact, runComponentBuild, runShellCommand;
      pose proof runRawCommand_frame; [preserve|]. unfold ArtifactRepo_create. preserve. }
  pose proof (building_update old (rel_id release)).
  assert (Hn : preserves (X := X) (on_db (building old (rel_id release))) nowIso) by (by intros w).
  unfold build_body. preserve.
Qed.

(** The handler rethrows, and by then the new release is not ready. *)
Lemma build_failed_ready old org actor id err (w w' : World X) r :
  building old id (w_db w) → build_failed (A := RunBuildResult) org actor id err w = (r, w') →
  ready_only old None (db_release (w_db w')).
Proof.
  intros (Hd & (e & He & Hid & Hl) & Hr) E. subst id. unfold build_failed in E.
  destruct (ReleaseRepo_update_run (mkReleasePatch None None None None None (Some RS_failed) None) e w Hd He Hl)
    as (now & w1 & Eu & Ed).
  rewrite (bind_ok _ _ w () w1) in E by (apply try_ok; by rewrite (bind_ok _ _ _ _ _ Eu)).
  assert (Ef : tget T_release (w_db w') = tget T_release (w_db w1)).
  { rewrite bind_eq in E. destruct (AuditLogRepo_append _ _ _ _ _ _ w1) as [ar w2] eqn:Ea.
    assert (w' = w2) as -> by (destruct ar; by injection E).
    eapply frame_eq; [|exact Ea]. intros l. by apply append_frame. }
  simpl in Ef. rewrite Ef, Ed. simpl.
  intros x Hin Hs. apply update_where_elem in Hin as [(y & _ & _ & ->)|[Hin Hne]]; [done|].
  destruct (Hr x Hin Hs) as [?|[= Hid]]; [by left|]. rewrite Hid in Hne. by rewrite bool_decide_eq_true_2 in Hne.
Qed.

(** Replacing a release that is not ready makes none ready. *)
Lemma softDelete_ready e (w w' : World X) r :
  db_ok (w_db w) → e ∈ db_release (w_db w) → rel_status e ≠ RS_ready →
  ReleaseRepo_softDelete (rel_id e) w = (r, w') →
  ready_only (db_release (w_db w)) None (db_release (w_db w')).
Proof.
  intros Hd He Hs E. unfold ReleaseRepo_softDelete in E. rewrite bind_nowIso, bind_eq in E.
  unfold db_update_raw in E. cbn [w_db] in E.
  match type of E with context [sql_update ?T ?p ?f ?d] =>
    destruct (sql_update T p f d) as [msg|[d' n]] eqn:Eu; [by injection E as <- <-; intros x Hx _; left|];
    apply sql_update_inv in Eu as [-> _];
    assert (Ed : db_release (w_db w') = update_where p f (db_release (w_db w)))
      by (destruct (n =? 0)%nat; by injection E as _ <-) end.
  rewrite Ed. intros x Hin Hx. apply update_where_elem in Hin as [(y & Hy & Hp & ->)|[Hin _]]; [|by left].
  bool_hyps. simpl in Hx. by rewrite (releases_pkey (w_db w) y e) in Hx.
Qed.

(** From the creation of the row on. *)
Lemma build_run_ready old keysDir org actor runner pid tag sha wd pem product parsed detail (w2 w' : World X) err :
  db_ok (w_db w2) → ready_only old None (db_release (w_db w2)) →
  (release ← ReleaseRepo_create org pid tag sha (Some RS_building);
   AuditLogRepo_append org actor "release.build.started" "release" (rel_id release) detail;;
   try_catch (build_body keysDir org actor runner tag sha wd pem product parsed release)
     (build_failed org actor (rel_id release))) w2 = (Throw err, w') →
  ready_only old None (db_release (w_db w')).
Proof.
  intros Hd2 Hr2 E. apply bind_inv_throw in E as [E|(release & w3 & E3 & E)].
  { unfold ReleaseRepo_create in E. rewrite bind_nowIso, bind_newId in E.
    apply bind_inv_throw in E as [E|([] & ? & _ & E)]; [|done]. by apply db_insert_throw in E as [-> _]. }
  pose proof (ReleaseRepo_create_ok org pid tag sha (Some RS_building) w2 Hd2) as Hd3. rewrite E3 in Hd3.
  apply ReleaseRepo_create_inv in E3 as (Ed3 & _ & now & Hrel).
  assert (Hn : ready_only old None (db_release (w_db w3))).
  { rewrite Ed3. simpl. intros x [Hx| ->%list_elem_of_singleton]%elem_of_app Hs; [by apply Hr2|by rewrite Hrel in Hs]. }
  assert (Hb3 : building old (rel_id release) (w_db w3)).
  { split; [exact Hd3|]. split.
    - rewrite Ed3. exists release. split; [apply elem_of_app; right; left|]. by rewrite Hrel.
    - intros x Hx Hs. destruct (Hn x Hx Hs); [by left|done]. }
  apply bind_inv_throw in E as [E|(row & w4 & E4 & E)].
  { assert (Ef : tget T_release (w_db w') = tget T_release (w_db w3))
      by (eapply frame_eq; [|exact E]; intros l; by apply append_frame). simpl in Ef. by rewrite Ef. }
  pose proof (building_append old (rel_id release) org actor "release.build.started" "release"
    (rel_id release) detail w3 Hb3) as Hb4. rewrite E4 in Hb4. unfold try_catch in E.
  pose proof (build_body_building old keysDir org actor runner tag sha wd pem product parsed release w4 Hb4) as Hb5.
  destruct (build_body _ _ _ _ _ _ _ _ _ _ _ w4) as [[res|e] w5]; [done|]. by eapply build_failed_ready.
Qed.

(** C34: Only a build that returns makes a release ready: when [runBuild] throws on a
    well-formed store, whether the build file is invalid, a command fails, an artifact is missing,
    signing fails or even the last audit entry cannot be written, every release
    that is ready afterwards was there, unchanged, before. *)
Theorem failed_build_not_ready keysDir org pid tag sha wd runner actor pem (w w' : World X) err :
  db_ok (w_db w) → runBuild keysDir org pid tag sha wd runner actor pem w = (Throw err, w') →
  ∀ r, r ∈ db_release (w_db w') → rel_status r = RS_ready → r ∈ db_release (w_db w).
Proof.
  intros Hd E. cut (ready_only (db_release (w_db w)) None (db_release (w_db w'))).
  { intros Hr r Hin Hs. by destruct (Hr r Hin Hs). }
  assert (H0' : ready_only (db_release (w_db w)) None (db_release (w_db w))) by (intros x Hx _; by left).
  unfold runBuild, ProductRepo_get, ReleaseRepo_getByTag in E. rewrite bind_read in E.
  destruct (find_first _ (db_product _)) as [product|]; [|by injection E as _ <-].
  rewrite bind_read in E. apply bind_inv_throw in E as [E|([] & w1 & E1 & E)].
  { destruct (find_first _ _) as [e|] eqn:Ef; [|done]. apply find_first_Some in Ef as [He _].
    destruct (bool_decide_reflect (rel_status e = RS_ready)); [by injection E as _ <-|].
    by eapply softDelete_ready. }
  assert (H1' : db_ok (w_db w1) ∧ ready_only (db_release (w_db w)) None (db_release (w_db w1))).
  { destruct (find_first _ (db_release _)) as [e|] eqn:Ef; [|by injection E1 as <-].
    apply find_first_Some in Ef as [He _]. destruct (bool_decide_reflect (rel_status e = RS_ready)); [done|]. split.
    - pose proof (ReleaseRepo_softDelete_ok (rel_id e) w Hd) as Hok. by rewrite E1 in Hok.
    - by eapply softDelete_ready. }
  destruct H1' as [Hd1 Hr1]. apply bind_inv_throw in E as [E%load_build_yaml_db|(parsed & w2 & E2%load_build_yaml_db & E)];
    [by rewrite E|]. rewrite <- E2 in Hd1, Hr1.
  by eapply build_run_ready.
Qed.

Context {L : CryptoLaws X}.

(** C33: What was built and signed verifies: after a build with a signing key
    has returned, [runReleaseVerify] with the matching public key, in the state
    the build left, reports the release as verified.  The manifest it rebuilds
    from the stored artifacts is the one that was signed. *)
Theorem build_then_verify keysDir org pid tag sha wd runner actor pem k pubPem (w w' : World X) res :
  db_ok (w_db w) → pem ≠ "" → createPrivateKey pem = Ok k → createPublicKey pubPem = Ok (publicOf k) →
  runBuild keysDir org pid tag sha wd runner actor (Some pem) w = (Ok res, w') →
  ∃ product, runReleaseVerify (rel_id (rb_release res)) pubPem w'
    = (Ok (mkReleaseVerifyResult (rb_release res) product true None), w').
Proof.
  intros Hd Hpem Ek Epub E. apply runBuild_built in E as (product & Ep & Epr & []); [|done].
  exists product. destruct (bd_signature0 pem) as (s & w1 & w2 & Es & _ & Hby & Hb64).
  { unfold truthy. by rewrite bool_decide_eq_false_2. }
  destruct (signManifest_inv _ _ _ _ _ _ _ Es Ek) as (Htype & Hfp & x & sig & x' & Esig & Hs).
  unfold runReleaseVerify.
  rewrite (bind_ok _ _ w' (Some (rb_release res)) w') by (unfold ReleaseRepo_get, read; unfold release_is in bd_row0; by rewrite bd_row0).
  destruct bd_ready0 as (_ & -> & -> & ->). apply find_first_Some in Ep as Hp. destruct Hp as [_ [Hpid _]%andb_true_iff].
  apply bool_decide_eq_true in Hpid.
  rewrite (bind_ok _ _ w' (Some product) w') by (unfold ProductRepo_get, read; by rewrite Epr, Hpid, Ep).
  rewrite Hb64, Hby, Hs, Hfp. rewrite truthy_nonempty by (by apply base64_nonempty; intros ->; eapply sign_nonempty).
  rewrite truthy_nonempty by apply fingerprint_nonempty.
  rewrite (bind_ok _ _ w' (order_asc art_component (rb_artifacts res)) w').
  2: { unfold ArtifactRepo_listForRelease, read. by rewrite bd_artifacts0. }
  assert (Hm : buildManifest (pr_name product) tag sha
    (map artifact_entry (order_asc art_component (rb_artifacts res))) = rb_manifest res).
  { rewrite bd_manifest0. apply manifest_eq. rewrite (map_order_asc _ _ me_component); [apply order_asc_idem|].
    intros a. unfold artifact_entry. by case_match. }
  cbv zeta. rewrite Hm, bd_hash0. rewrite bool_decide_eq_true_2 by done. cbn [negb].
  apply try_ok. by rewrite (bind_ok _ _ _ _ _ (verifyManifest_accepts _ _ _ _ _ _ w' Epub Htype Esig)).
Qed.
End build_spec.

Notation fx_build workDir :=
  (runBuild "keys" "o1" "p1" "v2" "0123456789" workDir None None (Some "PRIV:alice") fx_world).

Lemma failed_build_not_ready_witness :
  ∃ err w', fx_build "missing" = (Throw err, w') ∧
  ∀ r, r ∈ db_release (w_db w') → rel_status r = RS_ready → r ∈ db_release fx_db.
Proof.
  destruct (fx_build "missing") as [[res|err] w'] eqn:E; [by vm_compute in E|].
  exists err, w'. split; [reflexivity|].
  exact (failed_build_not_ready _ _ _ _ _ _ _ _ _ fx_world w' err fx_db_ok E).
Defined.

Lemma build_then_verify_witness :
  ∃ res w', fx_build "src" = (Ok res, w') ∧ ∃ product,
  runReleaseVerify (rel_id (rb_release res)) "PUB:alice" w'
    = (Ok (mkReleaseVerifyResult (rb_release res) product true None), w').
Proof.
  destruct (fx_build "src") as [[res|err] w'] eqn:E; [|by vm_compute in E].
  exists res, w'. split; [reflexivity|].
  apply (build_then_verify "keys" "o1" "p1" "v2" "0123456789" "src" None None "PRIV:alice" ("alice" : KeyObject (Crypto := fixture_crypto)) "PUB:alice"
    fx_world w' res fx_db_ok); [discriminate|reflexivity|reflexivity|exact E].
Defined.

Example fx_build_order :
  match fx_build "src" with
  | (Ok res, _) => map me_component (rm_artifacts (rb_manifest res)) = ["agent"; "web"; "web"]
  | _ => False
  end.
Proof. by vm_compute. Qed.
