(* ===== verification/PromotionSpec.v ===== *)
(** What promotion guarantees: one approval per release and destination,
    decided approvals are final, every gate does what its kind says, and the
    tick fires exactly what is due. *)

From stdpp Require Import sets relations.
From S2P Require Import Prelude JsTime JsVal Types World Logic StorageCatalog StorageDeploy.
From S2P Require Import StorageOps Events Promotion Fixture.

(** ** The promotion system as a step relation *)

Section system.
Context {X : Type} `{Oracle} `{JsEngine} {P : Platform X} `{DeployInvoker X}.

Inductive promotion_step : World X → World X → Prop :=
| step_built release w : promotion_step w (onReleaseBuilt release w).2
| step_deployed release source w : promotion_step w (onReleaseDeployed release source w).2
| step_tick w : promotion_step w (runPromotionTick w).2
| step_approve id by_ reason w : promotion_step w (runPromotionApprove id by_ reason w).2
| step_reject id by_ reason w : promotion_step w (runPromotionReject id by_ reason w).2
(** any other part of the system, which does not write approvals *)
| step_other w w' :
    db_ok (w_db w') → db_approval (w_db w') = db_approval (w_db w) → promotion_step w w'.

(** [promotion_ok] reads only the approvals, beyond the schema. *)
Lemma audit_promotion o a c t e d :
  preserves (X:=X) (on_db promotion_ok) (AuditLogRepo_append o a c t e d).
Proof.
  apply (preserves_and db_ok approvals_unique); [apply AuditLogRepo_append_ok|].
  assert (Hi : ∀ r, preserves (X:=X) (on_db approvals_unique) (db_insert T_audit_log r)).
  { intros r. apply preserves_insert_indep. by intros l d'. }
  unfold AuditLogRepo_append. preserve.
Qed.

Lemma audit_keeps b o a c t e d :
  preserves (X:=X) (on_db (keeps b)) (AuditLogRepo_append o a c t e d).
Proof.
  apply (preserves_and promotion_ok (λ d, b ∈ db_approval d)); [apply audit_promotion|].
  assert (Hi : ∀ r, preserves (X:=X) (on_db (λ d, b ∈ db_approval d)) (db_insert T_audit_log r)).
  { intros r. apply preserves_insert_indep. by intros l d'. }
  unfold AuditLogRepo_append. preserve.
Qed.

(** The dispatcher writes nothing but audit rows. *)
Lemma event_preserves (I : DB → Prop) ev :
  (∀ o a c t e d, preserves (X:=X) (on_db I) (AuditLogRepo_append o a c t e d)) →
  preserves (X:=X) (on_db I) (fireEventBestEffort ev).
Proof.
  intros Ha. unfold fireEventBestEffort, dispatch, WebhookSubscriptionRepo_listActive, deliver,
    deliverGeneric, deliverSlack, deliverEmail, audit_delivery. preserve.
Qed.

(** The part of a decision that follows the guards, for any invariant that the
    update of [id] and the deploy keep. *)
Lemma approve_preserves (I : DB → Prop) id by_ reason w :
  (∀ e, e ∈ db_approval (w_db w) → ap_id e = id → ap_status e = AS_pending →
     ∀ p, preserves (X:=X) (on_db I) (ApprovalRepo_update id p)) →
  (∀ o a c t e d, preserves (X:=X) (on_db I) (AuditLogRepo_append o a c t e d)) →
  (∀ r t b p, preserves (X:=X) (on_db I) (deploy r t b p)) →
  I (w_db w) → I (w_db (runPromotionApprove id by_ reason w).2).
Proof.
  intros Hu Ha Hd Hw. unfold runPromotionApprove.
  destruct (ApprovalRepo_get_inv id w) as ([e|] & Eg & Ho);
    rewrite (bind_ok _ _ _ _ _ Eg); [|done].
  destruct (Ho e eq_refl) as (He & Hid & _). cbv beta iota.
  destruct (bool_decide_reflect (ap_status e = AS_pending)) as [Hs|]; [|done]. cbn [negb].
  specialize (Hu e He Hid Hs). rewrite <- Hid in Hu.
  pose proof (λ ev, event_preserves I ev Ha) as Hev.
  match goal with |- I (w_db (?m w).2) => enough (preserves (X:=X) (on_db I) m) as Hp by (by apply Hp) end.
  unfold PromotionPolicyRepo_get, ReleaseRepo_get, TargetRepo_get, ApprovalRepo_get. preserve.
Qed.

Lemma reject_preserves (I : DB → Prop) id by_ reason w :
  (∀ e, e ∈ db_approval (w_db w) → ap_id e = id → ap_status e = AS_pending →
     ∀ p, preserves (X:=X) (on_db I) (ApprovalRepo_update id p)) →
  (∀ o a c t e d, preserves (X:=X) (on_db I) (AuditLogRepo_append o a c t e d)) →
  I (w_db w) → I (w_db (runPromotionReject id by_ reason w).2).
Proof.
  intros Hu Ha Hw. unfold runPromotionReject.
  destruct (ApprovalRepo_get_inv id w) as ([e|] & Eg & Ho);
    rewrite (bind_ok _ _ _ _ _ Eg); [|done].
  destruct (Ho e eq_refl) as (He & Hid & _). cbv beta iota.
  destruct (bool_decide_reflect (ap_status e = AS_pending)) as [Hs|]; [|done]. cbn [negb].
  specialize (Hu e He Hid Hs). rewrite <- Hid in Hu.
  pose proof (λ ev, event_preserves I ev Ha) as Hev.
  match goal with |- I (w_db (?m w).2) => enough (preserves (X:=X) (on_db I) m) as Hp by (by apply Hp) end.
  unfold PromotionPolicyRepo_get, TargetRepo_get. preserve.
Qed.

Lemma promotion_step_ok w w' :
  promotion_step w w' → promotion_ok (w_db w) → promotion_ok (w_db w').
Proof.
  pose proof (ApprovalRepo_update_promotion (X:=X)) as Hup.
  destruct 1 as [release w|release s w|w|id b r w|id b r w|w w' Hd Ea]; intros Hw.
  - unfold onReleaseBuilt. erewrite bind_ok; [|done]. by apply listener_promotion.
  - unfold onReleaseDeployed. erewrite bind_ok; [|done]. by apply listener_promotion.
  - by destruct (runPromotionTick_run w Hw) as (n & w' & -> & ? & _).
  - apply approve_preserves; [done|apply audit_promotion|apply deploy_ok|done].
  - apply reject_preserves; [done|apply audit_promotion|done].
  - split; [done|]. unfold approvals_unique. rewrite Ea. apply Hw.
Qed.

Lemma promotion_step_final c w w' :
  promotion_step w w' → promotion_ok (w_db w) → c ∈ db_approval (w_db w) →
  ap_status c ≠ AS_pending → c ∈ db_approval (w_db w').
Proof.
  destruct 1 as [release w|release s w|w|id b r w|id b r w|w w' Hd Ea]; intros Hw Hc Hs.
  - unfold onReleaseBuilt. erewrite bind_ok; [|done]. by apply listener_keeps.
  - unfold onReleaseDeployed. erewrite bind_ok; [|done]. by apply listener_keeps.
  - destruct (runPromotionTick_run w Hw) as (n & w' & -> & _ & Hk & _). apply Hk; [done|].
    by intros [? _].
  - apply (approve_preserves (keeps c)); [|apply audit_keeps|apply deploy_keeps|done].
    intros e He Hid Hpe p. apply update_keeps. intros Heq.
    assert (c = e) as -> by (eapply approvals_pkey; [apply Hw|done|done|congruence]). done.
  - apply (reject_preserves (keeps c)); [|apply audit_keeps|done].
    intros e He Hid Hpe p. apply update_keeps. intros Heq.
    assert (c = e) as -> by (eapply approvals_pkey; [apply Hw|done|done|congruence]). done.
  - by rewrite Ea.
Qed.

(** C31: However builds, deploys, ticks, approvals and rejections interleave
    with each other and with the rest of the system, the store stays
    consistent and there is at most one live approval per release and
    destination target: promotion is idempotent on that pair. *)
Theorem promotion_invariant (w w' : World X) :
  promotion_ok (w_db w) → rtc promotion_step w w' → promotion_ok (w_db w').
Proof. intros Hw Hs. induction Hs as [w|w w1 w' H12 _ IH]; [done|]. eauto using promotion_step_ok. Qed.

(** A decided approval is final: once an approval has left [pending],
    no sequence of promotion steps changes any of its columns. *)
Theorem decided_approval_final (w w' : World X) (c : Approval) :
  promotion_ok (w_db w) → rtc promotion_step w w' → c ∈ db_approval (w_db w) →
  ap_status c ≠ AS_pending → c ∈ db_approval (w_db w').
Proof.
  intros Hw Hs Hc Hn. induction Hs as [w|w w1 w' H12 _ IH]; [done|].
  apply IH; eauto using promotion_step_ok, promotion_step_final.
Qed.
End system.

Lemma promotion_invariant_witness :
  promotion_ok (w_db (runPromotionTick (runPromotionReject "a3" (Some "bob") None fx_world).2).2).
Proof.
  apply (promotion_invariant (X:=Trace) fx_world); [apply fx_promotion_ok|].
  eapply rtc_l; [apply (step_reject "a3" (Some "bob") None)|].
  eapply rtc_l; [apply step_tick|]. apply rtc_refl.
Defined.

Lemma decided_approval_final_witness :
  ap_done ∈ db_approval (w_db (runPromotionTick fx_world).2).
Proof.
  apply (decided_approval_final (X:=Trace) fx_world); [apply fx_promotion_ok| | |done].
  - eapply rtc_l; [apply step_tick|]. apply rtc_refl.
  - apply fx_approval_in. auto.
Defined.

(** ** Firing a policy *)

Section fire.
Context {X : Type} `{Oracle} `{JsEngine} `{DeployInvoker X}.

(** A second fire for the same release and destination changes nothing and
    returns the approval that is already there, whatever its status. *)
Theorem firePolicy_duplicate policy release e (w : World X) :
  promotion_ok (w_db w) → pp_active policy = true →
  e ∈ db_approval (w_db w) → ap_live e = true →
  ap_pair e = (rel_id release, pp_destTargetId policy) →
  firePolicy policy release w =
    (Ok (mkPromotionListenerOutcome (pp_id policy) (Some (ap_id e)) PA_duplicate
       (Some ("existing approval " +:+ ap_id e +:+ " (" +:+ ApprovalStatus_text (ap_status e) +:+ ")"))),
     w).
Proof.
  intros Hw Ha He Hl Ep. unfold firePolicy. rewrite Ha. cbn [negb].
  by rewrite (bind_ok _ _ _ _ _ (getForReleaseAndTarget_Some _ _ w e Hw He Hl Ep)).
Qed.

(** The state a policy fires in: it is active and known, and nothing has been
    filed for the pair. *)
Definition fires_fresh (policy : PromotionPolicy) (release : Release) (w : World X) : Prop :=
  promotion_ok (w_db w) ∧ pp_active policy = true ∧
  policy ∈ db_promotion_policy (w_db w) ∧ release ∈ db_release (w_db w) ∧
  no_approval (rel_id release) (pp_destTargetId policy) (w_db w) ∧
  has_key T_approval (fresh_id (w_ids w)) (w_db w) = false.

Lemma no_approval_lookup r t (w : World X) :
  no_approval r t (w_db w) → ApprovalRepo_getForReleaseAndTarget r t w = (Ok None, w).
Proof.
  intros Hn. unfold ApprovalRepo_getForReleaseAndTarget, read. rewrite select_nil; [done|].
  intros a Ha. destruct (ap_deletedAt a) eqn:El; [by rewrite andb_false_r|].
  destruct (bool_decide_reflect (ap_releaseId a = r)) as [<-|]; [|done].
  destruct (bool_decide_reflect (ap_destTargetId a = t)) as [<-|]; [|done].
  exfalso. apply (Hn a); [done| |done]. unfold ap_live. by rewrite El.
Qed.

(** Walk to the point where the gate is decided, one clock reading later. *)
Ltac enter_fire Hw Ha Hp Hr Hn Hf :=
  intros (Hw & Ha & Hp & Hr & Hn & Hf); intros; unfold firePolicy; rewrite Ha; cbn [negb];
  rewrite (bind_ok _ _ _ _ _ (no_approval_lookup _ _ _ Hn)); cbv beta iota;
  (erewrite bind_ok; [|done]); cbv beta zeta;
  match goal with
  | w : World _ |- context [mkWorld (w_db ?w) (S (w_clock ?w)) (w_ids ?w) (w_ext ?w)] =>
    change (mkWorld (w_db w) (S (w_clock w)) (w_ids w) (w_ext w)) with (ticked w)
  end.

(** A manual policy files one pending approval with no deadline and deploys
    nothing: the outside world is untouched. *)
Theorem firePolicy_manual_queues policy release (w : World X) :
  fires_fresh policy release w → pp_gateKind policy = GK_manual →
  ∃ w' row, firePolicy policy release w =
      (Ok (mkPromotionListenerOutcome (pp_id policy) (Some (ap_id row)) PA_queued_manual None), w') ∧
    row = new_approval policy release AS_pending None false
            (toISOString (clock (S (w_clock w)))) (fresh_id (w_ids w)) ∧
    db_approval (w_db w') = db_approval (w_db w) ++ [row] ∧ w_ext w' = w_ext w.
Proof.
  enter_fire Hw Ha Hp Hr Hn Hf. rename H2 into Hk.
  assert (deferring_health_gate policy = None) as ->.
  { unfold deferring_health_gate. rewrite Hk. by repeat case_match. }
  rewrite Hk. erewrite bind_ok; [|by apply (ApprovalRepo_create_run policy release AS_pending)].
  by do 2 eexists.
Qed.

(** A time-delay policy files one pending approval whose deadline is the
    delay, floored to whole seconds, after the fire, and deploys nothing. *)
Theorem firePolicy_time_delay_queues policy release (w : World X) n :
  fires_fresh policy release w → pp_gateKind policy = GK_time_delay →
  deferring_health_gate policy = None →
  n = to_number (get_prop "delay_seconds" (pp_gateConfig policy)) →
  num_isFinite n = true → SFltb n (S754_zero false) = false →
  let at_ := clock (w_clock w) + num_floor n * 1000 in
  Z.abs at_ ≤ 8640000000000000 →
  ∃ w' row, firePolicy policy release w =
      (Ok (mkPromotionListenerOutcome (pp_id policy) (Some (ap_id row)) PA_queued_time_delay
         (Some ("auto_approve_at=" +:+ toISOString at_))), w') ∧
    row = new_approval policy release AS_pending (Some (toISOString at_)) false
            (toISOString (clock (S (w_clock w)))) (fresh_id (w_ids w)) ∧
    db_approval (w_db w') = db_approval (w_db w) ++ [row] ∧ w_ext w' = w_ext w.
Proof.
  enter_fire Hw Ha Hp Hr Hn Hf.
  match goal with H : deferring_health_gate _ = None |- _ => rewrite H end.
  match goal with H : pp_gateKind _ = _ |- _ => rewrite H end.
  unfold readDelaySeconds. subst n.
  match goal with H : num_isFinite _ = true |- _ => rewrite H end.
  match goal with H : SFltb _ _ = false |- _ => rewrite H end. cbn [negb orb].
  erewrite bind_ok; [|done]. cbv beta. unfold iso_of, toISOString_checked. fold at_.
  destruct (Z.leb_spec (Z.abs at_) 8640000000000000); [|lia].
  erewrite bind_ok; [|done]. cbv beta.
  erewrite bind_ok; [|by apply (ApprovalRepo_create_run policy release AS_pending)].
  by do 2 eexists.
Qed.

(** A delay that carries the deadline past the last representable instant
    is an error, not an approval: the fire throws RangeError and files
    nothing. *)
Theorem firePolicy_delay_out_of_range policy release (w : World X) n :
  fires_fresh policy release w → pp_gateKind policy = GK_time_delay →
  n = to_number (get_prop "delay_seconds" (pp_gateConfig policy)) →
  num_isFinite n = true → SFltb n (S754_zero false) = false →
  8640000000000000 < clock (w_clock w) + num_floor n * 1000 →
  ∃ w', firePolicy policy release w = (Throw ERangeError, w') ∧ w_db w' = w_db w.
Proof.
  enter_fire Hw Ha Hp Hr Hn Hf. exists (ticked w). split; [|done].
  assert (Hd : readDelaySeconds policy (ticked w) = (Ok (num_floor n), ticked w)).
  { unfold readDelaySeconds. subst n.
    match goal with H : num_isFinite _ = true |- _ => rewrite H end.
    by match goal with H : SFltb _ _ = false |- _ => rewrite H end. }
  assert (Hi : iso_of (clock (w_clock w) + num_floor n * 1000) (ticked w) = (Throw ERangeError, ticked w)).
  { unfold iso_of, toISOString_checked.
    destruct (Z.leb_spec (Z.abs (clock (w_clock w) + num_floor n * 1000)) 8640000000000000); [lia|done]. }
  match goal with H : pp_gateKind _ = _ |- _ => rewrite H end. rewrite bool_decide_eq_true_2 by done.
  destruct (deferring_health_gate policy).
  - by rewrite !bind_eq, Hd, bind_eq, Hi.
  - by rewrite bind_eq, Hd, bind_eq, Hi.
Qed.

(** An [auto] policy with a source tier and a valid health gate does not
    deploy when it fires: it files a pending approval marked for the health
    gate and leaves the outside world untouched. *)
Theorem firePolicy_health_gate_defers policy release (w : World X) gate :
  fires_fresh policy release w → pp_gateKind policy = GK_auto →
  readHealthGate policy = Some gate → is_Some (truthy (pp_sourceTargetId policy)) →
  ∃ w' row o, firePolicy policy release w = (Ok o, w') ∧
    plo_action o = PA_queued_health_gate ∧ plo_approvalId o = Some (ap_id row) ∧
    row = new_approval policy release AS_pending None true
            (toISOString (clock (S (w_clock w)))) (fresh_id (w_ids w)) ∧
    db_approval (w_db w') = db_approval (w_db w) ++ [row] ∧ w_ext w' = w_ext w.
Proof.
  enter_fire Hw Ha Hp Hr Hn Hf.
  assert (deferring_health_gate policy = Some gate) as ->.
  { unfold deferring_health_gate. destruct H4 as [? ->]. rewrite H3, H2. done. }
  rewrite H2. rewrite bool_decide_eq_false_2 by done. erewrite bind_ok; [|done]. cbv beta.
  erewrite bind_ok; [|by apply (ApprovalRepo_create_run policy release AS_pending)].
  by do 3 eexists.
Qed.

(** An [auto] policy without a health gate deploys once, and its approval
    records what came of it.  The deploy runs on an approval already decided by
    the system; a deploy that throws is recorded as failed and the listener
    still returns. *)
Theorem firePolicy_auto_deploys policy release (w : World X) :
  fires_fresh policy release w → pp_gateKind policy = GK_auto →
  deferring_health_gate policy = None →
  ∃ decided w1 w' o row,
    ap_id decided = fresh_id (w_ids w) ∧ ap_pair decided = (rel_id release, pp_destTargetId policy) ∧
    ap_status decided = AS_auto_approved ∧ ap_decidedBy decided = Some "system" ∧
    decided ∈ db_approval (w_db w1) ∧ w_ext w1 = w_ext w ∧
    firePolicy policy release w = (Ok o, w') ∧
    row ∈ db_approval (w_db w') ∧ ap_id row = ap_id decided ∧
    plo_approvalId o = Some (ap_id row) ∧
    match deploy (rel_id release) (pp_destTargetId policy) decided policy w1 with
    | (Ok r, w2) =>
      w_ext w' = w_ext w2 ∧ ap_deployOutcome row = Some (DeployOutcome_text (di_outcome r)) ∧
      ap_deployDeploymentId row = di_deploymentId r ∧
      (plo_action o = PA_auto_deployed ↔ di_outcome r = DO_success)
    | (Throw e, w2) =>
      w_ext w' = w_ext w2 ∧ ap_deployOutcome row = Some "failed" ∧
      plo_action o = PA_deploy_failed ∧ plo_detail o = Some (err_message e)
    end.
Proof.
  enter_fire Hw Ha Hp Hr Hn Hf. rename H2 into Hk, H3 into Hg. rewrite Hg, Hk.
  pose proof (ApprovalRepo_create_promotion (pp_orgId policy) (pp_id policy) (rel_id release)
    (pp_destTargetId policy) AS_auto_approved None None (ticked w) Hw Hn) as Hw1.
  rewrite ApprovalRepo_create_run in Hw1 by done. cbn [snd] in Hw1.
  erewrite bind_ok; [|by apply ApprovalRepo_create_run]. cbv beta.
  set (row := new_approval _ _ _ _ _ _ _) in *. set (w1 := mkWorld _ _ _ _) in *.
  assert (Hrow : row ∈ db_approval (w_db w1)) by (simpl; set_solver).
  unfold markApprovalDecided. rewrite bind_eq, bind_eq.
  match goal with |- context [ApprovalRepo_update _ ?p w1] =>
    pose proof (ApprovalRepo_update_promotion (X:=X) (ap_id row) p w1 Hw1) as Hw2;
    pose proof (approval_updated_new p row w1 Hrow) as Hdec
  end.
  rewrite ApprovalRepo_update_run in * by done. cbn [snd] in Hw2.
  set (w2 := approval_updated _ _ _) in *. set (decided := approval_set _ _ _ _) in *.
  unfold mret, M_ret. cbv beta iota.
  assert (Eg : ApprovalRepo_get (ap_id row) w2 = (Ok (Some decided), w2)).
  { unfold ApprovalRepo_get, read. do 2 f_equal. by apply (approval_find (w_db w2) decided (proj1 Hw2)). }
  rewrite (bind_ok _ _ _ _ _ Eg). cbv beta iota. rewrite dispatchDeploy_run by done. cbv zeta.
  pose proof (deploy_keeps_approval (rel_id release) (pp_destTargetId policy) decided policy decided
                (ticked w2) Hw2 Hdec) as Hin.
  exists decided, (ticked w2).
  destruct (deploy _ _ _ _ _) as [[r|e] w3]; simpl in Hin;
    (do 2 eexists; eexists (approval_set _ decided (toISOString (clock (w_clock w3))) decided));
    split_and!; try (by apply approval_updated_new); try done.
  - by destruct (di_outcome r).
  - by destruct (di_outcome r).
Qed.
End fire.

Lemma firePolicy_duplicate_witness :
  firePolicy pol_auto rel_old fx_world =
    (Ok (mkPromotionListenerOutcome "pa" (Some "a4") PA_duplicate
       (Some "existing approval a4 (auto_approved)")), fx_world).
Proof.
  apply (firePolicy_duplicate pol_auto rel_old ap_done fx_world);
    [apply fx_promotion_ok|done|apply fx_approval_in; auto|done|done].
Defined.

(** Nothing has been filed yet for the new release. *)
Lemma fx_fresh policy :
  pp_active policy = true → policy ∈ db_promotion_policy fx_db →
  fires_fresh policy rel_new fx_world.
Proof.
  intros Ha Hp. split_and!; [apply fx_promotion_ok|done|done|cbn; set_solver| |by vm_compute].
  intros a Hin _. cbn in Hin. rewrite !elem_of_cons, elem_of_nil in Hin.
  by destruct Hin as [->|[->|[->|[->|[]]]]].
Qed.

Lemma firePolicy_manual_queues_witness :
  ∃ w' row, firePolicy pol_manual rel_new fx_world =
      (Ok (mkPromotionListenerOutcome "pm" (Some (ap_id row)) PA_queued_manual None), w') ∧
    row = new_approval pol_manual rel_new AS_pending None false
            (toISOString (clock 1)) (fresh_id 0) ∧
    db_approval (w_db w') = db_approval fx_db ++ [row] ∧ w_ext w' = [].
Proof.
  apply (firePolicy_manual_queues pol_manual rel_new fx_world); [|done].
  apply fx_fresh; [done|cbn; set_solver].
Defined.

Lemma firePolicy_time_delay_queues_witness :
  let at_ := clock (w_clock fx_world) + num_floor (num_of_Z 600) * 1000 in
  at_ = epoch2025 + 600000 ∧
  ∃ w' row, firePolicy pol_delay rel_new fx_world =
      (Ok (mkPromotionListenerOutcome (pp_id pol_delay) (Some (ap_id row)) PA_queued_time_delay
         (Some ("auto_approve_at=" +:+ toISOString at_))), w') ∧
    row = new_approval pol_delay rel_new AS_pending (Some (toISOString at_)) false
            (toISOString (clock (S (w_clock fx_world)))) (fresh_id (w_ids fx_world)) ∧
    db_approval (w_db w') = db_approval (w_db fx_world) ++ [row] ∧ w_ext w' = w_ext fx_world.
Proof.
  split; [by vm_compute|].
  apply (firePolicy_time_delay_queues pol_delay rel_new fx_world (num_of_Z 600));
    [apply fx_fresh; [done|cbn; set_solver]|by vm_compute..].
Defined.

Lemma firePolicy_delay_out_of_range_witness :
  ∃ w', firePolicy pol_huge rel_new fx_world = (Throw ERangeError, w') ∧ w_db w' = fx_db.
Proof.
  apply (firePolicy_delay_out_of_range pol_huge rel_new fx_world (num_of_Z (10 ^ 15)));
    [apply fx_fresh; [done|cbn; set_solver]|by vm_compute..].
Defined.

Lemma firePolicy_health_gate_defers_witness :
  ∃ w' row o, firePolicy pol_gated rel_new fx_world = (Ok o, w') ∧
    plo_action o = PA_queued_health_gate ∧ plo_approvalId o = Some (ap_id row) ∧
    row = new_approval pol_gated rel_new AS_pending None true
            (toISOString (clock 1)) (fresh_id 0) ∧
    db_approval (w_db w') = db_approval fx_db ++ [row] ∧ w_ext w' = [].
Proof.
  apply (firePolicy_health_gate_defers pol_gated rel_new fx_world (mkPromotionHealthGate 2 60));
    [apply fx_fresh; [done|cbn; set_solver]|done|by vm_compute|by eexists].
Defined.

Lemma firePolicy_auto_deploys_witness :
  ∃ w' o row, firePolicy pol_auto rel_new fx_world = (Ok o, w') ∧
    row ∈ db_approval (w_db w') ∧ plo_approvalId o = Some (ap_id row) ∧
    ap_deployOutcome row = Some "success" ∧ plo_action o = PA_auto_deployed ∧
    w_ext w' = ["DEPLOY r1 tg2"].
Proof.
  destruct (firePolicy_auto_deploys pol_auto rel_new fx_world)
    as (decided & w1 & w' & o & row & _ & _ & _ & _ & _ & Ex & E & Hin & _ & Hid & Hm);
    [apply fx_fresh; [done|cbn; set_solver]|done|done|].
  cbn in Hm. destruct Hm as (Ex' & Ho & _ & Ha). exists w', o, row. rewrite Ex'.
  split_and!; try done; [by apply Ha|].
  apply (f_equal (λ l, app l ["DEPLOY r1 tg2"]) Ex).
Defined.

(** ** The tick *)

Section tick.
Context {X : Type} `{Oracle} `{JsEngine} `{DeployInvoker X}.

(** A tick never fails, and leaves alone every approval that is not due:
    decided ones, deleted ones, those whose delay has not elapsed (by the text
    order of the stored instants), and health-gated ones whose delay is still
    pending. *)
Theorem runPromotionTick_safe (w : World X) :
  promotion_ok (w_db w) →
  ∃ n w', runPromotionTick w = (Ok n, w') ∧ promotion_ok (w_db w') ∧
    ∀ c, c ∈ db_approval (w_db w) → ¬ due_at (clock (w_clock w)) c → c ∈ db_approval (w_db w').
Proof. intros Hw. destruct (runPromotionTick_run w Hw) as (n & w' & ? & ? & ? & _). eauto. Qed.


(** The health gate is a conjunction: with the gate closed a turn of the
    health-gated loop changes nothing at all. *)
Theorem tick_health_gated_closed now s a policy source gate release (w : World X) :
  PromotionPolicyRepo_get (ap_policyId a) w = (Ok (Some policy), w) →
  truthy (pp_sourceTargetId policy) = Some source → readHealthGate policy = Some gate →
  ReleaseRepo_get (ap_releaseId a) w = (Ok (Some release), w) →
  delay_pending a now = true ∨
  find_first (λ r, (dep_targetId r =?s source) && bool_decide (dep_status r = DS_active)
                   && is_null (dep_deletedAt r)) (db_deployment (w_db w)) = None ∨
  (∃ dep, find_first (λ r, (dep_targetId r =?s source) && bool_decide (dep_status r = DS_active)
                   && is_null (dep_deletedAt r)) (db_deployment (w_db w)) = Some dep ∧
     (dep_releaseId dep ≠ rel_id release ∨
      ∃ recent, HealthCheckRepo_listForDeployment (X:=X) (dep_id dep) None
                  (Some (hg_min_pass_count gate)) w = (Ok recent, w) ∧
        isHealthGateOpen (map (λ c, (hc_status c, hc_checkedAt c)) recent) gate now ≠ GateOpen)) →
  tick_health_gated now s a w = (Ok false, w).
Proof.
  intros Ep Es Eg Er Hc. unfold tick_health_gated. rewrite (bind_ok _ _ _ _ _ Ep), Es, Eg.
  destruct (delay_pending a now); [done|]. destruct Hc as [?|Hc]; [done|].
  rewrite (bind_ok _ _ _ _ _ Er). erewrite bind_ok; [|done]. cbv beta.
  destruct Hc as [-> |(dep & -> & Hc)]; [done|].
  destruct (bool_decide_reflect (dep_releaseId dep = rel_id release)) as [Hd|]; [|done].
  cbn [negb]. destruct Hc as [?|(recent & El & Hno)]; [done|].
  rewrite (bind_ok _ _ _ _ _ El).
  pose proof (isHealthGateOpen_defined (map (λ c, (hc_status c, hc_checkedAt c)) recent) gate now
    (proj1 (readHealthGate_positive policy gate Eg))). by case_match.
Qed.
End tick.

Lemma runPromotionTick_safe_witness :
  ∃ n w', runPromotionTick fx_world = (Ok n, w') ∧ promotion_ok (w_db w') ∧
    ap_manual ∈ db_approval (w_db w') ∧ n = 2%nat ∧ w_ext w' = ["DEPLOY r0 tg4"; "DEPLOY r0 tg5"].
Proof.
  destruct (runPromotionTick_safe fx_world fx_promotion_ok) as (n & w' & E & Hw & Hk).
  exists n, w'. split; [done|]. split; [done|]. split.
  - apply Hk; [apply fx_approval_in; auto|].
    intros (_ & _ & Hd). by vm_compute in Hd.
  - assert (Hc : (runPromotionTick fx_world).1 = Ok 2%nat) by (by vm_compute).
    assert (Ht : w_ext (runPromotionTick fx_world).2 = ["DEPLOY r0 tg4"; "DEPLOY r0 tg5"])
      by (by vm_compute).
    rewrite E in Hc, Ht. cbn [fst snd] in Hc, Ht. split; [congruence|exact Ht].
Defined.


Lemma tick_health_gated_closed_witness :
  tick_health_gated (epoch2025 + 86400000) "x" ap_gated fx_world = (Ok false, fx_world).
Proof.
  apply (tick_health_gated_closed _ _ _ pol_gated "tg1" (mkPromotionHealthGate 2 60) rel_old);
    [done|done|by vm_compute|done|].
  right; right. exists fx_deployment. split; [done|]. right.
  exists [fx_check "k2" t1; fx_check "k1" t0]. split; by vm_compute.
Defined.

(** ** Pure decisions *)

Section decisions.
Context `{JsEngine}.

(** The health gate is open exactly when enough checks are recorded, the
    most recent [min_pass_count] of them all passed, and the newest one is
    dated and at most [window_minutes] old. *)
Theorem isHealthGateOpen_iff (checks : list (HealthStatus * string)) gate now :
  1 ≤ hg_min_pass_count gate →
  isHealthGateOpen checks gate now = GateOpen ↔
  hg_min_pass_count gate ≤ Z.of_nat (length checks) ∧
  Forall (λ c, c.1 = HS_pass) (take (Z.to_nat (hg_min_pass_count gate)) checks) ∧
  ∃ newest t, head checks = Some newest ∧ Date_parse legacy_date_parse newest.2 = Some t ∧
    now - t ≤ hg_window_minutes gate * 60000.
Proof.
  intros Hg. unfold isHealthGateOpen.
  destruct (Z.ltb_spec (Z.of_nat (length checks)) (hg_min_pass_count gate)) as [|Hlen];
    [split; [done|lia]|].
  assert (Es : slice0 (hg_min_pass_count gate) checks = take (Z.to_nat (hg_min_pass_count gate)) checks).
  { unfold slice0. destruct (Z.ltb_spec (hg_min_pass_count gate) 0); [lia|done]. }
  destruct checks as [|x l]; [simpl in *; lia|].
  destruct (slice0_pos (hg_min_pass_count gate) x l Hg) as [l' El]. rewrite El in *. rewrite <- Es.
  destruct (find_first _ (x :: l')) as [c|] eqn:Ef.
  - split; [done|]. intros (_ & Hall & _). apply find_first_Some in Ef as [Hc Hp].
    rewrite Forall_forall in Hall. specialize (Hall c Hc). by rewrite bool_decide_eq_true_2 in Hp.
  - rewrite find_first_None in Ef.
    assert (Hall : Forall (λ c, c.1 = HS_pass) (x :: l')).
    { apply Forall_forall. intros c Hc. specialize (Ef c Hc). by bool_hyps. }
    cbn [head]. destruct (Date_parse legacy_date_parse x.2) as [t|] eqn:Ed;
      [|split; [done|intros (_ & _ & ? & ? & [= <-] & ? & _); congruence]].
    destruct (Z.ltb_spec (hg_window_minutes gate * 60 * 1000) (now - t)).
    + split; [done|]. intros (_ & _ & ? & ? & [= <-] & ? & ?). simplify_eq. lia.
    + split; [|done]. intros _. split_and!; [done|done|]. exists x, t. split_and!; [done|done|lia].
Qed.

(** The instants the store holds: absent, or an ISO text of a year up to 9999. *)
Definition stamped (a : Approval) : Prop :=
  ap_autoApproveAt a = None ∨ ∃ t, iso_range t ∧ ap_autoApproveAt a = Some (toISOString t).

Lemma toISOString_not_empty t : toISOString t ≠ "".
Proof.
  unfold toISOString, iso_year. destruct (_ && _); [done|]. by destruct (_ <? _).
Qed.

Lemma due_text_iff a now :
  iso_range now → stamped a →
  approval_due_text (toISOString now) a =
  is_null (ap_deletedAt a) && (bool_decide (ap_status a = AS_pending) &&
    match truthy (ap_autoApproveAt a) with
    | None => false
    | Some at_ => match Date_parse legacy_date_parse at_ with None => false | Some t => t <=? now end
    end).
Proof.
  intros Hn Hs. unfold approval_due_text. rewrite (andb_comm (is_null _)). f_equal.
  destruct Hs as [->|(t & Ht & ->)]; [done|]. f_equal. unfold truthy.
  rewrite bool_decide_eq_false_2 by apply toISOString_not_empty.
  rewrite Date_parse_toISOString by done. by apply toISOString_leb.
Qed.

(** The SQL query for due approvals, which compares texts, and the pure
    decision [approvalsDueForAutoApprove], which parses them, select the same
    live approvals, as long as the stored instants are ISO texts of years up
    to 9999. *)
Theorem due_query_agrees {X} (w : World X) now :
  iso_range now → Forall stamped (db_approval (w_db w)) →
  ∃ l, ApprovalRepo_listPendingAutoApprove (toISOString now) w = (Ok l, w) ∧
    ∀ a, a ∈ l ↔
      a ∈ approvalsDueForAutoApprove (select ap_live (db_approval (w_db w))) now.
Proof.
  intros Hn Hs. eexists. split; [done|]. intros a. rewrite order_asc_elem.
  unfold approvalsDueForAutoApprove. rewrite !select_elem. rewrite Forall_forall in Hs.
  split.
  - intros [Ha Hd]. rewrite due_text_iff in Hd by auto. bool_hyps. split; [done|].
    rewrite andb_true_iff, bool_decide_eq_true. done.
  - intros [[Ha Hl] Hd]. split; [done|]. rewrite due_text_iff by auto. unfold ap_live in Hl.
    by rewrite Hl, Hd.
Qed.
End decisions.

Lemma isHealthGateOpen_iff_witness :
  isHealthGateOpen [(HS_pass, t1); (HS_pass, t0)] (mkPromotionHealthGate 2 60) epoch2025 = GateOpen.
Proof.
  refine (proj2 (isHealthGateOpen_iff _ _ _ _) _); [done|]. split; [done|]. split; [by repeat constructor|].
  exists (HS_pass, t1), (epoch2025 - 60000). split; [done|]. split; [by vm_compute|]. done.
Defined.

Lemma due_query_agrees_witness :
  ∃ l, ApprovalRepo_listPendingAutoApprove (toISOString epoch2025) fx_world = (Ok l, fx_world) ∧
    ∀ a, a ∈ l ↔ a ∈ approvalsDueForAutoApprove (select ap_live (db_approval fx_db)) epoch2025.
Proof.
  apply (due_query_agrees fx_world epoch2025); [apply iso_range_bounds; unfold epoch2025; lia|].
  repeat apply Forall_cons_2; [|by left..|apply Forall_nil_2]. right. exists (epoch2025 - 60000).
  split; [apply iso_range_bounds; unfold epoch2025; lia|done].
Defined.

(** Beyond the year 9999 the two part ways: the text of such an instant
    starts with a plus sign and sorts before every four-digit year, so the
    query reports an approval that is thousands of years away as due at
    once. *)
Theorem far_future_delay_due_at_once :
  let at_ := epoch2025 + 300000000000 * 1000 in
  let a := new_approval pol_delay rel_new AS_pending (Some (toISOString at_)) false t0 "a9" in
  approval_due_text (toISOString epoch2025) a = true ∧
  toISOString_checked at_ = Some (toISOString at_) ∧ epoch2025 < at_.
Proof. by vm_compute. Qed.

(** ** Operator decisions *)

Section operator.
Context {X : Type} `{Oracle} `{JsEngine} {P : Platform X} `{DeployInvoker X}.

(** An approval that is not pending can be neither approved nor rejected:
    both verbs refuse and leave the world as it was. *)
Theorem decided_approval_refused id by_ reason (w : World X) e :
  ApprovalRepo_get id w = (Ok (Some e), w) → ap_status e ≠ AS_pending →
  (∃ msg, runPromotionApprove id by_ reason w = (Throw (EError msg), w)) ∧
  (∃ msg, runPromotionReject id by_ reason w = (Throw (EError msg), w)).
Proof.
  intros Eg Hs. unfold runPromotionApprove, runPromotionReject.
  rewrite !(bind_ok _ _ _ _ _ Eg). rewrite bool_decide_eq_false_2 by done.
  split; by eexists.
Qed.

(** Only an approver on the policy's allow-list can approve: anyone else,
    and an anonymous caller, is refused before anything is written. *)
Theorem approver_allowlist_enforced id by_ reason (w : World X) e policy release l :
  ApprovalRepo_get id w = (Ok (Some e), w) → ap_status e = AS_pending →
  PromotionPolicyRepo_get (ap_policyId e) w = (Ok (Some policy), w) →
  ReleaseRepo_get (ap_releaseId e) w = (Ok (Some release), w) →
  get_prop "approvers" (pp_gateConfig policy) = Some (JArr (JStr <$> l)) → l ≠ [] →
  (∀ a, truthy by_ = Some a → a ∉ l) →
  ∃ msg, runPromotionApprove id by_ reason w = (Throw (EError msg), w).
Proof.
  intros Eg Hs Ep Er Hc Hl Hb. unfold runPromotionApprove.
  rewrite (bind_ok _ _ _ _ _ Eg). rewrite bool_decide_eq_true_2 by done. cbn [negb].
  rewrite (bind_ok _ _ _ _ _ Ep), (bind_ok _ _ _ _ _ Er).
  assert (∃ msg, truthy (checkApproverAllowlist policy by_) = Some msg) as [msg ->]; [|by eexists].
  unfold checkApproverAllowlist. rewrite Hc.
  assert (omap (λ v, match v with JStr s => Some s | _ => None end) (JStr <$> l) = l) as ->.
  { clear. induction l as [|s l IH]; csimpl; [done|]. by f_equal. }
  destruct l as [|s l]; [done|]. cbn [length Nat.eqb].
  destruct (truthy by_) as [a|] eqn:Ea; [|by eexists].
  destruct (existsb _ _) eqn:Ex; [|by eexists]. exfalso.
  apply existsb_exists in Ex as (s' & Hin & E%bool_decide_eq_true). subst s'.
  apply (Hb a eq_refl). by apply list_elem_of_In.
Qed.

(** The approval [ApprovalRepo.update] hands back never shows the health
    gate, although the stored row keeps it: the two differ whenever the gate is
    set. *)
Theorem approval_update_loses_gate patch e (w : World X) :
  promotion_ok (w_db w) → e ∈ db_approval (w_db w) → ap_live e = true →
  ap_requiresHealthGate e = true →
  ∃ returned stored w', ApprovalRepo_update (ap_id e) patch w = (Ok returned, w') ∧
    stored ∈ db_approval (w_db w') ∧ ap_id stored = ap_id returned ∧
    ap_requiresHealthGate stored = true ∧ ap_requiresHealthGate returned = false.
Proof.
  intros Hw He Hl Hg. rewrite ApprovalRepo_update_run by done.
  do 3 eexists. split; [done|]. split; [by apply approval_updated_new|]. done.
Qed.
End operator.

Lemma decided_approval_refused_witness :
  (∃ msg, runPromotionApprove "a4" None None fx_world = (Throw (EError msg), fx_world)) ∧
  (∃ msg, runPromotionReject "a4" None None fx_world = (Throw (EError msg), fx_world)).
Proof. by apply (decided_approval_refused "a4" None None fx_world ap_done). Defined.

Lemma approver_allowlist_enforced_witness :
  ∃ msg, runPromotionApprove "a3" (Some "mallory") None fx_world = (Throw (EError msg), fx_world).
Proof.
  apply (approver_allowlist_enforced "a3" (Some "mallory") None fx_world ap_manual pol_manual rel_old
    ["alice"]); try done.
  intros a [= <-]. by rewrite list_elem_of_singleton.
Defined.

Lemma approval_update_loses_gate_witness :
  ∃ returned stored w', ApprovalRepo_update "a2" no_patch fx_world = (Ok returned, w') ∧
    stored ∈ db_approval (w_db w') ∧ ap_id stored = ap_id returned ∧
    ap_requiresHealthGate stored = true ∧ ap_requiresHealthGate returned = false.
Proof.
  apply (approval_update_loses_gate no_patch ap_gated fx_world);
    [apply fx_promotion_ok|apply fx_approval_in; auto|done|done].
Defined.
