(* ===== verification/StorageSpec.v ===== *)
(** What the store guarantees its clients: the schema invariant over every
    sequence of writes, the job table as a queue, runners that come back,
    nonces that cannot be replayed, soft deletion, and the single active
    deployment of a target. *)

From stdpp Require Import relations.
From S2P Require Import Prelude JsTime JsVal Types World Logic StorageCatalog StorageDeploy.
From S2P Require Import StorageOps Events Promotion Fixture.

(** ** Every write of the storage driver *)

Section reach.
Context {X : Type} `{Oracle}.

(** One write of a repository. *)
Inductive storage_write : ∀ A, M X A → Prop :=
| w_org_create n t : storage_write _ (OrgRepo_create n t)
| w_org_update i n t : storage_write _ (OrgRepo_update i n t)
| w_org_delete i : storage_write _ (OrgRepo_softDelete i)
| w_key_create o n p h e : storage_write _ (ApiKeyRepo_create o n p h e)
| w_key_delete i : storage_write _ (ApiKeyRepo_softDelete i)
| w_product_create o n r b : storage_write _ (ProductRepo_create o n r b)
| w_product_update i n r b : storage_write _ (ProductRepo_update i n r b)
| w_product_delete i : storage_write _ (ProductRepo_softDelete i)
| w_release_create o p t c s : storage_write _ (ReleaseRepo_create o p t c s)
| w_release_update i p : storage_write _ (ReleaseRepo_update i p)
| w_release_delete i : storage_write _ (ReleaseRepo_softDelete i)
| w_artifact_create r c k s z b i : storage_write _ (ArtifactRepo_create r c k s z b i)
| w_artifact_delete i : storage_write _ (ArtifactRepo_softDelete i)
| w_audit o a c t e d : storage_write _ (AuditLogRepo_append o a c t e d)
| w_target_create o n k c : storage_write _ (TargetRepo_create o n k c)
| w_target_update i n c : storage_write _ (TargetRepo_update i n c)
| w_target_delete i : storage_write _ (TargetRepo_softDelete i)
| w_deployment_create o r t p : storage_write _ (DeploymentRepo_create o r t p)
| w_deployment_update i p : storage_write _ (DeploymentRepo_update i p)
| w_check d p s l t : storage_write _ (HealthCheckRepo_append d p s l t)
| w_scenario_upsert o p h n t : storage_write _ (ScenarioRepo_upsertFromDisk o p h n t)
| w_scenario_delete i : storage_write _ (ScenarioRepo_softDelete i)
| w_run_create o s t b : storage_write _ (RunRepo_create o s t b)
| w_run_update i p : storage_write _ (RunRepo_update i p)
| w_job_create o k i : storage_write _ (JobRepo_create o k i)
| w_job_claim o c : storage_write _ (JobRepo_claimNext o c)
| w_job_update i p : storage_write _ (JobRepo_update i p)
| w_runner_heartbeat o n m : storage_write _ (RunnerRepo_heartbeat o n m)
| w_runner_delete i : storage_write _ (RunnerRepo_softDelete i)
| w_budget_upsert o m s : storage_write _ (CloudBudgetRepo_upsert o m s)
| w_budget_remove o : storage_write _ (CloudBudgetRepo_remove o)
| w_usage_start o b i t r s e : storage_write _ (CloudUsageRepo_recordStart o b i t r s e)
| w_usage_stop o i t : storage_write _ (CloudUsageRepo_recordTerminate o i t)
| w_cred_upsert o b c e r : storage_write _ (CloudCredentialsRepo_upsert o b c e r)
| w_cred_remove o b : storage_write _ (CloudCredentialsRepo_remove o b)
| w_schedule_create o t i p a : storage_write _ (HealthScheduleRepo_create o t i p a)
| w_schedule_update i p : storage_write _ (HealthScheduleRepo_update i p)
| w_schedule_delete i : storage_write _ (HealthScheduleRepo_softDelete i)
| w_webhook_create o k u s e a d : storage_write _ (WebhookSubscriptionRepo_create o k u s e a d)
| w_webhook_update i p : storage_write _ (WebhookSubscriptionRepo_update i p)
| w_webhook_delete i : storage_write _ (WebhookSubscriptionRepo_softDelete i)
| w_policy_create o p s d g c a t : storage_write _ (PromotionPolicyRepo_create o p s d g c a t)
| w_policy_update i p : storage_write _ (PromotionPolicyRepo_update i p)
| w_policy_delete i : storage_write _ (PromotionPolicyRepo_softDelete i)
| w_approval_create o p r d s a h : storage_write _ (ApprovalRepo_create o p r d s a h)
| w_approval_update i p : storage_write _ (ApprovalRepo_update i p)
| w_approval_delete i : storage_write _ (ApprovalRepo_softDelete i)
| w_signkey_insert i : storage_write _ (SigningProviderKeyRepo_insert i)
| w_signkey_revoke o f r t : storage_write _ (SigningProviderKeyRepo_revoke o f r t)
| w_signkey_rotate o f n : storage_write _ (SigningProviderKeyRepo_recordRotation o f n)
| w_nonce_insert n : storage_write _ (SigningNonceRepo_insert n)
| w_nonce_sweep c : storage_write _ (SigningNonceRepo_sweepOlderThan c).

Inductive storage_step : World X → World X → Prop :=
| storage_step_write A (m : M X A) w : storage_write A m → storage_step w (m w).2.

Lemma storage_write_ok A (m : M X A) : storage_write A m → preserves (on_db db_ok) m.
Proof. destruct 1; eauto with preserve. Qed.

(** Whatever is written, refused writes included, the keys, unique indexes, foreign
    keys and checks of the schema hold. *)
Lemma storage_reach_ok (w w' : World X) : db_ok (w_db w) → rtc storage_step w w' → db_ok (w_db w').
Proof.
  intros Hw Hs. induction Hs as [w|w w1 w' H1 _ IH]; [done|]. apply IH.
  destruct H1 as [A m w Hm]. by apply (storage_write_ok A m Hm).
Qed.

End reach.

(** ** The job queue *)

Section jobs.
Context {X : Type} `{Oracle}.

(** The abstract queue of an organisation: its claimable jobs, oldest first. *)
Definition job_queue (orgId : string) (d : DB) : list Job :=
  order_asc job_createdAt (select (job_claimable orgId) (db_job d)).

Lemma jobs_pkey d a b :
  db_ok d → a ∈ db_job d → b ∈ db_job d → job_id a = job_id b → a = b.
Proof.
  intros Hd Ha Hb E. apply (table_ok_pkey_unique T_job d); [apply Hd|done|done|].
  simpl. by rewrite E.
Qed.

Lemma job_queue_elem orgId d a :
  a ∈ job_queue orgId d ↔ a ∈ db_job d ∧ job_claimable orgId a = true.
Proof. unfold job_queue. by rewrite order_asc_elem, select_elem. Qed.

Lemma JobRepo_claimNext_run orgId claimedBy (w : World X) p rest :
  db_ok (w_db w) → job_queue orgId (w_db w) = p :: rest →
  let now := toISOString (clock (w_clock w)) in
  JobRepo_claimNext orgId claimedBy w =
    (Ok (Some (job_set_claimed claimedBy now p)),
     mkWorld (tset T_job (update_where
         (λ r, (job_id r =?s job_id p) && bool_decide (job_status r = JS_pending))
         (job_set_claimed claimedBy now) (db_job (w_db w))) (w_db w))
       (S (w_clock w)) (w_ids w) (w_ext w)).
Proof.
  intros Hd Eq now.
  assert (Hp : p ∈ job_queue orgId (w_db w)) by (rewrite Eq; left).
  apply job_queue_elem in Hp as [Hp Hc]. unfold job_claimable in Hc. bool_hyps.
  unfold JobRepo_claimNext, runInTransaction. rewrite bind_eq. unfold read at 1.
  fold (job_queue orgId (w_db w)). rewrite Eq. cbn [head].
  rewrite (bind_ok _ _ w now (ticked w) eq_refl). rewrite bind_eq.
  rewrite (db_update_raw_one T_job _ _ p); [done|done|done|..]; simpl.
  - by rewrite !bool_decide_eq_true_2.
  - intros r Hr. rewrite andb_true_iff, !bool_decide_eq_true. split; [by intros [-> _]|].
    intros [= E]. split; [done|]. by rewrite (jobs_pkey (w_db w) r p).
  - done.
  - done.
  - by apply (Hd T_job).
  - done.
Qed.

Lemma claimNext_run_spec orgId claimedBy (w : World X) p rest :
  db_ok (w_db w) → job_queue orgId (w_db w) = p :: rest →
  ∃ j w', JobRepo_claimNext orgId claimedBy w = (Ok (Some j), w') ∧
    job_id j = job_id p ∧ job_status j = JS_claimed ∧ job_claimedBy j = Some claimedBy ∧
    j ∈ db_job (w_db w') ∧
    (∀ r, r ∈ job_queue orgId (w_db w) → str_leb (job_createdAt p) (job_createdAt r) = true) ∧
    (∀ r, r ∈ db_job (w_db w) → job_id r ≠ job_id p → r ∈ db_job (w_db w')) ∧
    job_queue orgId (w_db w') = rest ∧
    (∀ o, o ≠ orgId → job_queue o (w_db w') = job_queue o (w_db w)).
Proof.
  intros Hd Eq. assert (Hp : p ∈ job_queue orgId (w_db w)) by (rewrite Eq; left).
  apply job_queue_elem in Hp as [Hp Hc]. assert (Hc' := Hc). unfold job_claimable in Hc'. bool_hyps.
  rewrite (JobRepo_claimNext_run orgId claimedBy w p rest) by done.
  set (now := toISOString _). 
  set (q := λ r : Job, (job_id r =?s job_id p) && bool_decide (job_status r = JS_pending)).
  do 2 eexists. split; [done|].
  assert (Hqp : q p = true) by (unfold q; by rewrite !bool_decide_eq_true_2).
  assert (Hq : ∀ r, r ∈ db_job (w_db w) → q r = true → r = p).
  { unfold q. intros r Hr Hqr. bool_hyps. by eapply jobs_pkey. }
  assert (Hsel : ∀ o, select (job_claimable o)
      (update_where q (job_set_claimed claimedBy now) (db_job (w_db w)))
    = select (λ r, negb (q r)) (select (job_claimable o) (db_job (w_db w)))).
  { intros o. rewrite select_update_where, select_select; [done|]. intros r _ _.
    unfold job_claimable. simpl. by rewrite andb_false_r. }
  cbn [w_db db_job tset]. split_and!; try done.
  - apply update_where_elem. left. by exists p.
  - intros r Hr. eapply (order_asc_head_min job_createdAt); [exact Eq|].
    unfold job_queue in Hr. by rewrite order_asc_elem in Hr.
  - intros r Hr Hne. apply update_where_elem. right. split; [done|].
    unfold q. by rewrite bool_decide_eq_false_2.
  - unfold job_queue. cbn [db_job tset]. rewrite Hsel, <- select_order_asc.
    fold (job_queue orgId (w_db w)). rewrite Eq. simpl. rewrite Hqp. simpl.
    apply select_all. intros r Hr. apply negb_true_iff. destruct (q r) eqn:E; [|done].
    assert (r = p) as ->.
    { apply Hq; [|done]. eapply (job_queue_elem orgId). rewrite Eq. by right. }
    pose proof (query_rows_NoDup T_job (w_db w) (job_claimable orgId) _ Hd : NoDup (job_queue _ _)) as Hn.
    rewrite Eq in Hn. by apply NoDup_cons in Hn as [? _].
  - intros o Ho. unfold job_queue. cbn [db_job tset]. rewrite Hsel. f_equal. apply select_all.
    intros r [Hr Hcr]%select_elem. apply negb_true_iff. destruct (q r) eqn:E; [|done].
    apply Hq in E; [|done]. subst r. unfold job_claimable in Hcr. bool_hyps. congruence.
Qed.

(** C35: The job table implements a queue: a claim takes the oldest pending job
    of the organisation, marks it as claimed by the caller, leaves every other
    row and every other organisation's queue alone, and what remains of the
    queue is its tail. *)
Theorem claimNext_pops orgId claimedBy (w : World X) p rest :
  db_ok (w_db w) → job_queue orgId (w_db w) = p :: rest →
  ∃ j w', JobRepo_claimNext orgId claimedBy w = (Ok (Some j), w') ∧
    job_id j = job_id p ∧ job_status j = JS_claimed ∧ job_claimedBy j = Some claimedBy ∧
    j ∈ db_job (w_db w') ∧
    (∀ r, r ∈ job_queue orgId (w_db w) → str_leb (job_createdAt p) (job_createdAt r) = true) ∧
    (∀ r, r ∈ db_job (w_db w) → job_id r ≠ job_id p → r ∈ db_job (w_db w')) ∧
    job_queue orgId (w_db w') = rest ∧
    (∀ o, o ≠ orgId → job_queue o (w_db w') = job_queue o (w_db w)).
Proof. apply claimNext_run_spec. Qed.

Lemma JobRepo_claimNext_empty orgId claimedBy (w : World X) :
  job_queue orgId (w_db w) = [] → JobRepo_claimNext orgId claimedBy w = (Ok None, w).
Proof.
  intros Eq. unfold JobRepo_claimNext, runInTransaction. rewrite bind_eq. unfold read at 1.
  fold (job_queue orgId (w_db w)). by rewrite Eq.
Qed.

Lemma claimNext_sequence_run orgId workers (w : World X) :
  db_ok (w_db w) →
  ∃ res w', for_collect workers (JobRepo_claimNext orgId) w = (Ok res, w') ∧
    length res = length workers ∧
    omap (fmap job_id) res = job_id <$> take (length workers) (job_queue orgId (w_db w)).
Proof.
  revert w. induction workers as [|c ws IH]; intros w Hd; [by exists [], w|]. simpl for_collect.
  destruct (job_queue orgId (w_db w)) as [|p rest] eqn:Eq.
  - rewrite (bind_ok _ _ _ _ _ (JobRepo_claimNext_empty orgId c w Eq)).
    destruct (IH w Hd) as (res & w' & E & Hl & Ho). rewrite (bind_ok _ _ _ _ _ E).
    exists (None :: res), w'. rewrite Eq, take_nil in Ho. simpl. by rewrite Hl.
  - assert (Hd' := JobRepo_claimNext_ok (X:=X) orgId c w Hd).
    destruct (claimNext_run_spec orgId c w p rest Hd Eq) as (j & w1 & E1 & Hid & _ & _ & _ & _ & _ & Hq & _).
    rewrite E1 in Hd'. cbn [snd] in Hd'.
    rewrite (bind_ok _ _ _ _ _ E1). destruct (IH w1 Hd') as (res & w' & E & Hl & Ho).
    rewrite (bind_ok _ _ _ _ _ E). exists (Some j :: res), w'. split; [done|].
    split; [simpl; by rewrite Hl|].
    change (omap (fmap job_id) (Some j :: res)) with (job_id j :: omap (fmap job_id) res).
    by rewrite Ho, Hq, Hid.
Qed.

(** However many workers claim one after the other, no two of them are
    handed the same job, and the jobs go out oldest first until none is
    left. *)
Theorem claimNext_distinct orgId workers (w : World X) :
  db_ok (w_db w) →
  ∃ res w', for_collect workers (JobRepo_claimNext orgId) w = (Ok res, w') ∧
    omap (fmap job_id) res = job_id <$> take (length workers) (job_queue orgId (w_db w)) ∧
    NoDup (omap (fmap job_id) res).
Proof.
  intros Hd. destruct (claimNext_sequence_run orgId workers w Hd) as (res & w' & E & _ & Ho).
  exists res, w'. split; [done|]. split; [done|]. rewrite Ho.
  assert (Hn : NoDup (job_id <$> job_queue orgId (w_db w))).
  { unfold job_queue, order_asc. rewrite order_by_perm. apply select_NoDup_fmap.
    eapply (NoDup_fmap_1 (λ i, [i])). rewrite <- list_fmap_compose. apply (table_NoDup T_job _ Hd). }
  rewrite <- (take_drop (length workers) (job_queue orgId (w_db w))), fmap_app in Hn.
  by apply NoDup_app in Hn as [? _].
Qed.
End jobs.

Lemma claimNext_pops_witness :
  ∃ j w', JobRepo_claimNext "o1" "worker" fx_world = (Ok (Some j), w') ∧
    job_id j = "j1" ∧ job_queue "o1" (w_db w') = [fx_job "j2" t1].
Proof.
  destruct (claimNext_pops "o1" "worker" fx_world (fx_job "j1" t0) [fx_job "j2" t1])
    as (j & w' & E & Hid & _ & _ & _ & _ & _ & Hq & _); [apply fx_db_ok|by vm_compute|].
  exists j, w'. split; [exact E|]. split; [exact Hid|exact Hq].
Defined.

Lemma claimNext_distinct_witness :
  ∃ res w', for_collect ["a"; "b"; "c"] (JobRepo_claimNext "o1") fx_world = (Ok res, w') ∧
    omap (fmap job_id) res = ["j1"; "j2"] ∧ NoDup (omap (fmap job_id) res).
Proof.
  destruct (claimNext_distinct "o1" ["a"; "b"; "c"] fx_world) as (res & w' & E & Ho & Hn);
    [apply fx_db_ok|].
  exists res, w'. split; [exact E|]. split; [|exact Hn]. rewrite Ho. by vm_compute.
Defined.

(** ** Nonces *)

Section nonces.
Context {X : Type} `{Oracle}.

Definition same_nonce (a b : SigningNonce) : Prop :=
  sn_orgId a = sn_orgId b ∧ sn_actorCn a = sn_actorCn b ∧ sn_nonce a = sn_nonce b.

Lemma SigningNonceRepo_exists_run o a n (w : World X) b :
  SigningNonceRepo_exists o a n w = (Ok b, w) →
  b = true ↔ ∃ r, r ∈ db_signing_nonce (w_db w) ∧ sn_orgId r = o ∧ sn_actorCn r = a ∧ sn_nonce r = n.
Proof.
  unfold SigningNonceRepo_exists, read. intros [= <-]. rewrite existsb_exists.
  setoid_rewrite list_elem_of_In. setoid_rewrite andb_true_iff. setoid_rewrite andb_true_iff.
  setoid_rewrite bool_decide_eq_true. naive_solver.
Qed.

(** A nonce cannot be replayed: while a nonce of an actor is on record,
    recording it again is refused as a conflict and changes nothing; a nonce
    that was not on record is recorded, and is on record afterwards. *)
Theorem nonce_replay_refused (w : World X) (n : SigningNonce) :
  ∃ present, SigningNonceRepo_exists (sn_orgId n) (sn_actorCn n) (sn_nonce n) w = (Ok present, w) ∧
  if (present : bool)
  then ∃ msg, SigningNonceRepo_insert n w = (Throw (EStorageConflict msg), w)
  else ∃ w', SigningNonceRepo_insert n w = (Ok (), w') ∧
         db_signing_nonce (w_db w') = db_signing_nonce (w_db w) ++ [n] ∧
         SigningNonceRepo_exists (sn_orgId n) (sn_actorCn n) (sn_nonce n) w' = (Ok true, w').
Proof.
  eexists. split; [done|]. set (present := existsb _ _).
  assert (Hp : existsb (row_clash T_signing_nonce n) (db_signing_nonce (w_db w)) = present).
  { unfold present. apply eq_true_iff_eq. rewrite !existsb_exists.
    split; intros (x & Hx & E); exists x; (split; [done|]).
    - unfold row_clash in E. simpl in E. rewrite orb_false_r in E. bool_hyps. simplify_eq.
      by rewrite !bool_decide_eq_true_2 by congruence.
    - bool_hyps. apply row_clash_pkey. simpl. congruence. }
  unfold SigningNonceRepo_insert, try_catch, db_insert_raw, sql_insert, row_error. simpl tget.
  rewrite Hp. destruct present eqn:E; simpl.
  - by eexists.
  - eexists. split; [done|]. split; [done|]. unfold SigningNonceRepo_exists, read. simpl.
    unfold present in E. rewrite existsb_app, E. simpl. by rewrite !bool_decide_eq_true_2.
Qed.

(** Sweeping forgets exactly the nonces requested before the cutoff: a
    nonce at or after it stays on record and stays refused. *)
Theorem nonce_sweep_keeps_window cutoff (w : World X) :
  ∃ n w', SigningNonceRepo_sweepOlderThan cutoff w = (Ok n, w') ∧
    (∀ r, r ∈ db_signing_nonce (w_db w') ↔
       r ∈ db_signing_nonce (w_db w) ∧ str_leb cutoff (sn_requestedAt r) = true) ∧
    (n + length (db_signing_nonce (w_db w')) = length (db_signing_nonce (w_db w)))%nat.
Proof.
  do 2 eexists. split; [done|]. simpl. split.
  - intros r. rewrite select_elem, negb_true_iff. unfold str_ltb, str_leb.
    by rewrite negb_false_iff.
  - generalize (db_signing_nonce (w_db w)). intros l. induction l as [|x l IH]; simpl; [done|].
    destruct (str_ltb (sn_requestedAt x) cutoff); simpl; lia.
Qed.
End nonces.

(** ** Runners *)

Section runners.
Context {X : Type} `{Oracle}.

Lemma runner_before_total a b : runner_before a b = true ∨ runner_before b a = true.
Proof.
  unfold runner_before.
  destruct (is_null (rn_deletedAt a)), (is_null (rn_deletedAt b)); simpl; auto; apply str_leb_total.
Qed.

Lemma runner_before_trans a b c :
  runner_before a b = true → runner_before b c = true → runner_before a c = true.
Proof.
  unfold runner_before.
  destruct (is_null (rn_deletedAt a)), (is_null (rn_deletedAt b)), (is_null (rn_deletedAt c));
    simpl; try done; intros; by eapply str_leb_trans.
Qed.

(** The rows a heartbeat of [name] may reuse, best first. *)
Definition runner_rows (orgId name : string) (d : DB) : list Runner :=
  order_by runner_before (select (λ r, (rn_orgId r =?s orgId) && (rn_name r =?s name)) (db_runner d)).

Lemma runner_rows_elem orgId name d r :
  r ∈ runner_rows orgId name d ↔ r ∈ db_runner d ∧ rn_orgId r = orgId ∧ rn_name r = name.
Proof.
  unfold runner_rows. by rewrite order_by_elem, select_elem, andb_true_iff, !bool_decide_eq_true.
Qed.

(** A live row is preferred, then the one seen last. *)
Lemma runner_rows_head orgId name d e l r :
  runner_rows orgId name d = e :: l → r ∈ db_runner d → rn_orgId r = orgId → rn_name r = name →
  runner_before e r = true.
Proof.
  intros E Hr Ho Hn.
  eapply (order_by_head_min runner_before runner_before_total runner_before_trans); [exact E|].
  apply select_elem. by rewrite !bool_decide_eq_true_2.
Qed.

Lemma runners_pkey d a b :
  db_ok d → a ∈ db_runner d → b ∈ db_runner d → rn_id a = rn_id b → a = b.
Proof.
  intros Hd Ha Hb E. apply (table_ok_pkey_unique T_runner d); [apply Hd|done|done|].
  simpl. by rewrite E.
Qed.

(** The UPDATE of a heartbeat, for either branch. *)
Lemma heartbeat_update (w : World X) e set :
  db_ok (w_db w) → e ∈ db_runner (w_db w) →
  (∀ r, rn_id (set r) = rn_id r ∧ rn_orgId (set r) = rn_orgId r ∧ rn_name (set r) = rn_name r) →
  (∀ r, r ∈ db_runner (w_db w) → rn_deletedAt r = None → rn_orgId r = rn_orgId e →
     rn_name r = rn_name e → r = e) →
  db_update_raw T_runner (λ r, rn_id r =?s rn_id e) set w =
    (Ok 1%nat, set_db (tset T_runner (update_where (λ r, rn_id r =?s rn_id e) set
                                        (db_runner (w_db w))) (w_db w)) w).
Proof.
  intros Hd He Hset Hu. destruct (Hset e) as (Hi & Ho & Hn).
  apply (db_update_raw_one T_runner _ _ e); simpl; try done.
  - by rewrite bool_decide_eq_true_2.
  - intros r _. rewrite bool_decide_eq_true. split; congruence.
  - by rewrite Hi.
  - rewrite Ho. by apply (Hd T_runner).
  - intros r k Hr Hp Ek Er. apply bool_decide_eq_false in Hp. apply Hp.
    destruct (rn_deletedAt r) eqn:Er'; [done|]. rewrite (Hu r); [done|done|done|..];
      destruct (rn_deletedAt (set e)); simplify_eq; congruence.
Qed.

Lemma heartbeat_lookup d r p set orgId name :
  db_ok (tset T_runner (update_where p set (db_runner d)) d) →
  r ∈ update_where p set (db_runner d) →
  rn_deletedAt r = None → rn_orgId r = orgId → rn_name r = name →
  find_first (λ x, (rn_orgId x =?s orgId) && (rn_name x =?s name) && is_null (rn_deletedAt x))
    (update_where p set (db_runner d)) = Some r.
Proof.
  intros Hd Hr Hl <- <-. apply find_first_unique; [done|by rewrite Hl, !bool_decide_eq_true_2|].
  intros y Hy Hp. bool_hyps. destruct (rn_deletedAt y) eqn:Ey; [done|].
  apply (table_ok_ukey_unique T_runner _ y r [rn_orgId r; rn_name r] (Hd T_runner)); simpl; try done.
  - rewrite Ey. congruence.
  - by rewrite Hl.
Qed.

(** A heartbeat from a runner the organisation has seen before never adds a
    row: it refreshes the live row of that name, keeping its registration time,
    or, when the runner had been deregistered, brings the row seen last back to
    life under its old id with a new registration time.  Afterwards the runner
    is found by its name. *)
Theorem heartbeat_reuses_row orgId name meta (w : World X) e l :
  db_ok (w_db w) → runner_rows orgId name (w_db w) = e :: l →
  let now := toISOString (clock (w_clock w)) in
  ∃ r w', RunnerRepo_heartbeat orgId name meta w = (Ok r, w') ∧
    rn_id r = rn_id e ∧ rn_lastSeenAt r = now ∧ rn_deletedAt r = None ∧
    rn_registeredAt r = (if is_null (rn_deletedAt e) then rn_registeredAt e else now) ∧
    length (db_runner (w_db w')) = length (db_runner (w_db w)) ∧
    RunnerRepo_getByName orgId name w' = (Ok (Some r), w').
Proof.
  intros Hd Eq now. assert (He : e ∈ runner_rows orgId name (w_db w)) by (rewrite Eq; left).
  apply runner_rows_elem in He as (He & <- & <-).
  pose proof (RunnerRepo_heartbeat_ok (rn_orgId e) (rn_name e) meta w Hd) as Hok.
  unfold RunnerRepo_heartbeat in *. rewrite (bind_ok _ _ w now (ticked w) eq_refl) in *.
  rewrite bind_eq in *. unfold read at 1. unfold read at 1 in Hok.
  fold (runner_rows (rn_orgId e) (rn_name e) (w_db (ticked w))) in *.
  change (w_db (ticked w)) with (w_db w) in *. rewrite Eq in *. cbn [head] in *.
  assert (Hu : ∀ r, r ∈ db_runner (w_db w) → rn_deletedAt r = None → rn_orgId r = rn_orgId e →
    rn_name r = rn_name e → r = e).
  { intros r Hr Hl Ho Hn. pose proof (runner_rows_head _ _ _ _ _ r Eq Hr Ho Hn) as Hb.
    unfold runner_before in Hb. rewrite Hl in Hb. simpl in Hb.
    destruct (rn_deletedAt e) eqn:Ee; [done|].
    apply (table_ok_ukey_unique T_runner _ r e [rn_orgId e; rn_name e] (Hd T_runner)); simpl; try done.
    - rewrite Hl. congruence.
    - by rewrite Ee. }
  destruct (rn_deletedAt e) as [del|] eqn:Ee; cbn [is_null] in *; rewrite bind_eq in *;
    rewrite (heartbeat_update (ticked w) e) in * by done;
    (do 2 eexists; split; [done|]; split_and!; [done|done|done|done| |]).
  1,3: simpl; apply update_where_length.
  - unfold RunnerRepo_getByName, read. do 2 f_equal. eapply (heartbeat_lookup (w_db w)); [done| |done..].
    apply update_where_elem. left. exists e. by rewrite bool_decide_eq_true_2.
  - unfold RunnerRepo_getByName, read. do 2 f_equal. eapply (heartbeat_lookup (w_db w)); [done| |done..].
    apply update_where_elem. left. exists e.
    rewrite bool_decide_eq_true_2 by done. by rewrite Ee.
Qed.
End runners.

Lemma heartbeat_reuses_row_witness :
  ∃ r w', RunnerRepo_heartbeat "o1" "builder" None fx_world = (Ok r, w') ∧ rn_id r = "n1" ∧
    rn_registeredAt r = t0 ∧ RunnerRepo_getByName "o1" "builder" w' = (Ok (Some r), w').
Proof.
  destruct (heartbeat_reuses_row "o1" "builder" None fx_world fx_runner [])
    as (r & w' & E & Hid & _ & _ & Hr & _ & Hg); [apply fx_db_ok|by vm_compute|].
  exists r, w'. split; [exact E|]. split; [exact Hid|]. split; [exact Hr|exact Hg].
Defined.

(** ** Deployments and soft deletion *)

Section deployments.
Context {X : Type} `{Oracle}.

Lemma deployments_pkey d a b :
  db_ok d → a ∈ db_deployment d → b ∈ db_deployment d → dep_id a = dep_id b → a = b.
Proof.
  intros Hd Ha Hb E. apply (table_ok_pkey_unique T_deployment d); [apply Hd|done|done|].
  simpl. by rewrite E.
Qed.

Lemma DeploymentRepo_get_run d e (w : World X) :
  w_db w = d → db_ok d → e ∈ db_deployment d → dep_deletedAt e = None →
  DeploymentRepo_get (dep_id e) w = (Ok (Some e), w).
Proof.
  intros <- Hd He Hl. unfold DeploymentRepo_get, read. do 2 f_equal. apply find_first_unique; [done| |].
  - by rewrite bool_decide_eq_true_2, Hl.
  - intros y Hy Hp. bool_hyps. by eapply deployments_pkey.
Qed.

(** While a target has an active deployment, no other deployment of it can
    be made active: the update is refused as a conflict and the database keeps
    every row.  (The caller has to supersede the active one first.) *)
Theorem second_active_refused (w : World X) a b patch :
  db_ok (w_db w) → a ∈ db_deployment (w_db w) → b ∈ db_deployment (w_db w) → dep_id a ≠ dep_id b →
  dep_status a = DS_active → dep_deletedAt a = None → dep_deletedAt b = None →
  dep_targetId a = dep_targetId b → dp_status patch = Some DS_active →
  ∃ msg w', DeploymentRepo_update (dep_id b) patch w = (Throw (EStorageConflict msg), w') ∧
    w_db w' = w_db w.
Proof.
  intros Hd Ha Hb Hne Sa Da Db Et Hp. unfold DeploymentRepo_update.
  rewrite (bind_ok _ _ _ _ _ (DeploymentRepo_get_run _ b w eq_refl Hd Hb Db)). cbv beta iota.
  erewrite bind_ok; [|done]. cbv beta zeta. rewrite bind_eq.
  match goal with |- context [db_update _ ?p ?f ?w1] =>
    destruct (db_update_conflict T_deployment p f b a w1) as [msg ->] end; try done.
  - by rewrite bool_decide_eq_true_2.
  - simpl. intros r Hr E%bool_decide_eq_true. by rewrite E.
  - by rewrite bool_decide_eq_false_2.
  - apply (row_clash_ukey T_deployment _ _ [dep_targetId a]); simpl.
    + by rewrite Hp, Db, Et.
    + by rewrite Sa, Da.
  - by do 2 eexists.
Qed.

(** Deleting a target hides it and frees its name: afterwards it is found
    neither by id nor by name nor in the listing, its row is kept, and deleting
    it again reports that it is not there. *)
Theorem target_softDelete_hides (w : World X) t :
  db_ok (w_db w) → t ∈ db_target (w_db w) → tg_deletedAt t = None →
  ∃ w', TargetRepo_softDelete (tg_id t) w = (Ok (), w') ∧ db_ok (w_db w') ∧
    length (db_target (w_db w')) = length (db_target (w_db w)) ∧
    TargetRepo_get (tg_id t) w' = (Ok None, w') ∧
    TargetRepo_getByName (tg_orgId t) (tg_name t) w' = (Ok None, w') ∧
    ∃ w'', TargetRepo_softDelete (tg_id t) w' = (Throw (EStorageNotFound "target" (tg_id t)), w'').
Proof.
  intros Hd Ht Hl. pose proof (TargetRepo_softDelete_ok (tg_id t) w Hd) as Hok.
  assert (Hpk : ∀ r, r ∈ db_target (w_db w) → tg_id r = tg_id t → r = t).
  { intros r Hr E. apply (table_ok_pkey_unique T_target (w_db w)); [apply Hd|done|done|].
    simpl. by rewrite E. }
  set (now := toISOString (clock (w_clock w))).
  set (p := λ r : Target, (tg_id r =?s tg_id t) && is_null (tg_deletedAt r)).
  set (f := λ r : Target, mkTarget (tg_id r) (tg_orgId r) (tg_name r) (tg_kind r) (tg_connection r)
              (tg_createdAt r) now (Some now)).
  assert (Hpt : p t = true) by (unfold p; by rewrite bool_decide_eq_true_2, Hl).
  assert (Eu : db_update_raw T_target p f (ticked w) =
    (Ok 1%nat, set_db (tset T_target (update_where p f (db_target (w_db w))) (w_db w)) (ticked w))).
  { apply (db_update_raw_one T_target p f t (ticked w)); simpl; try done.
    - unfold p. intros r Hr. rewrite andb_true_iff, bool_decide_eq_true. split; [by intros [-> _]|].
      intros [= E]. by rewrite (Hpk r Hr E), Hl.
    - apply (proj2 (Hd T_target) t Ht). }
  assert (Es : TargetRepo_softDelete (tg_id t) w =
    (Ok (), set_db (tset T_target (update_where p f (db_target (w_db w))) (w_db w)) (ticked w))).
  { unfold TargetRepo_softDelete. rewrite (bind_ok _ _ w now (ticked w) eq_refl).
    by rewrite (bind_ok _ _ _ _ _ Eu). }
  rewrite Es in Hok. cbn [snd] in Hok. eexists. split; [exact Es|]. split; [exact Hok|].
  split; [apply update_where_length|].
  assert (Hdead : ∀ r, r ∈ update_where p f (db_target (w_db w)) → tg_id r = tg_id t →
                  is_null (tg_deletedAt r) = false).
  { intros r [(y & Hy & Hp & ->)|[Hr Hp]]%update_where_elem E; [done|].
    unfold p in Hp. rewrite E, bool_decide_eq_true_2 in Hp by done. done. }
  assert (Hname : ∀ r, r ∈ update_where p f (db_target (w_db w)) → is_null (tg_deletedAt r) = true →
                  tg_orgId r = tg_orgId t → tg_name r ≠ tg_name t).
  { intros r [(y & Hy & Hp & ->)|[Hr Hp]]%update_where_elem El Eo En; [done|].
    destruct (tg_deletedAt r) eqn:Er; [done|].
    assert (r = t) as ->; [|by rewrite Hpt in Hp].
    apply (table_ok_ukey_unique T_target (w_db w) r t [tg_orgId t; tg_name t] (Hd T_target)); simpl;
      [done|done|rewrite Er; congruence|by rewrite Hl]. }
  split_and!.
  - unfold TargetRepo_get, read. do 2 f_equal. apply find_first_None. intros r Hr. simpl in Hr.
    destruct (bool_decide_reflect (tg_id r = tg_id t)); [|done]. by apply Hdead.
  - unfold TargetRepo_getByName, read. do 2 f_equal. apply find_first_None. intros r Hr. simpl in Hr.
    destruct (is_null (tg_deletedAt r)) eqn:El; [|by rewrite andb_false_r].
    destruct (bool_decide_reflect (tg_orgId r = tg_orgId t)); [|done].
    by rewrite bool_decide_eq_false_2 by (by apply Hname).
  - eexists. unfold TargetRepo_softDelete. erewrite bind_ok; [|done]. cbv beta.
    rewrite bind_eq, db_update_raw_none; [done|]. intros r Hr.
    destruct (bool_decide_reflect (tg_id r = tg_id t)); [|done]. by apply Hdead.
Qed.
End deployments.

Definition fx_pending : Deployment :=
  mkDeployment "d2" "o1" "r1" "tg1" DS_pending None None (Some "d1") None t1 t1 None.
Definition fx_two : World Trace :=
  set_db (tset T_deployment [fx_deployment; fx_pending] fx_db) fx_world.

Lemma fx_two_ok : db_ok (w_db fx_two).
Proof. apply db_okb_sound. by vm_compute. Qed.

Lemma second_active_refused_witness :
  ∃ msg w', DeploymentRepo_update "d2" (mkDeploymentPatch (Some DS_active) None None None) fx_two
    = (Throw (EStorageConflict msg), w') ∧ w_db w' = w_db fx_two.
Proof.
  apply (second_active_refused fx_two fx_deployment fx_pending); try done; [apply fx_two_ok|..].
  - apply list_elem_of_here.
  - apply list_elem_of_further, list_elem_of_here.
Defined.

Lemma target_softDelete_hides_witness :
  ∃ w', TargetRepo_softDelete "tg1" fx_world = (Ok (), w') ∧ db_ok (w_db w') ∧
    length (db_target (w_db w')) = 5%nat ∧
    TargetRepo_get "tg1" w' = (Ok None, w') ∧
    TargetRepo_getByName "o1" "staging" w' = (Ok None, w') ∧
    ∃ w'', TargetRepo_softDelete "tg1" w' = (Throw (EStorageNotFound "target" "tg1"), w'').
Proof.
  apply (target_softDelete_hides fx_world (fx_target "tg1" "staging")); [apply fx_db_ok| |done].
  apply list_elem_of_here.
Defined.
