(* ===== verification/SchedulerSpec.v ===== *)
(** What a scheduler tick promises: it does not throw, it moves the watermark of
    exactly the schedules that are due, and none of those is due again before
    its interval is over. *)

From S2P Require Import Prelude JsTime JsVal Types World Logic StorageCatalog StorageDeploy.
From S2P Require Import StorageOps Scheduler Fixture.

(** A schedule whose watermark is [n], written at [u]. *)
Definition stamp (n u : string) (r : HealthSchedule) : HealthSchedule :=
  mkHealthSchedule (hs_id r) (hs_orgId r) (hs_targetId r) (hs_intervalSeconds r) (hs_probeNames r)
    (Some n) (hs_active r) (hs_createdAt r) u (hs_deletedAt r).

(** The schedules a tick at [now] runs. *)
Definition tick_due `{JsEngine} (now : Z) (r : HealthSchedule) : bool :=
  hs_active r && is_null (hs_deletedAt r) && schedule_due now r.

Lemma Forall2_impl_in {A B} (P Q : A → B → Prop) l k :
  Forall2 P l k → (∀ x y, x ∈ l → P x y → Q x y) → Forall2 Q l k.
Proof.
  induction 1 as [|x y l k Hxy _ IH]; intros Hi; constructor; [apply Hi; [left|done]|].
  apply IH. intros; apply Hi; [by right|done].
Qed.

Section tick.
Context {X : Type} `{Oracle} `{JsEngine} `{ProbeInvoker X} `{SchedulerSink X}.

Lemma schedules_pkey d a b :
  db_ok d → a ∈ db_health_schedule d → b ∈ db_health_schedule d → hs_id a = hs_id b → a = b.
Proof.
  intros Hd Ha Hb E. apply (table_ok_pkey_unique T_health_schedule d); [apply Hd|done|done|]. simpl. congruence.
Qed.

(** Rows paired with what became of them: the ones in [ids] are stamped. *)
Definition stamped (n : string) (ids : list string) : list HealthSchedule → list HealthSchedule → Prop :=
  Forall2 (λ r r', if bool_decide (hs_id r ∈ ids) then ∃ u, r' = stamp n u r else r' = r).

Lemma stamped_refl n l : stamped n [] l l.
Proof. apply Forall_Forall2_diag, Forall_forall. intros r _. by rewrite bool_decide_eq_false_2 by apply not_elem_of_nil. Qed.

Lemma stamped_update n ids l l' id u :
  stamped n ids l l' → stamped n (id :: ids) l (update_where (λ r, hs_id r =?s id) (stamp n u) l').
Proof.
  unfold stamped, update_where. induction 1 as [|r r' l l' Hr Hl IH]; simpl; constructor; [|done].
  assert (Hid : hs_id r' = hs_id r) by (case_match; [by destruct Hr as [? ->]|by subst]).
  rewrite Hid. destruct (bool_decide_reflect (hs_id r = id)) as [<-|Hne].
  - rewrite bool_decide_eq_true_2 by left. exists u. case_match; [by destruct Hr as [? ->]|by subst].
  - rewrite (bool_decide_ext (hs_id r ∈ id :: ids) (hs_id r ∈ ids)); [done|]. rewrite elem_of_cons. naive_solver.
Qed.

Lemma stamped_elem n ids l l' r : stamped n ids l l' → r ∈ l → ∃ r', r' ∈ l' ∧ hs_id r' = hs_id r ∧ hs_deletedAt r' = hs_deletedAt r.
Proof.
  intros Hs Hr. induction Hs as [|x x' l l' Hx _ IH]; [by apply elem_of_nil in Hr|].
  apply elem_of_cons in Hr as [->|Hr].
  - exists x'. split; [left|]. case_match; [by destruct Hx as [? ->]|by subst].
  - destruct (IH Hr) as (r' & ? & ?). exists r'. split; [by right|done].
Qed.

(** *** One schedule *)

(** Moving the watermark of a live schedule always succeeds. *)
Lemma watermark_run n e (w : World X) :
  db_ok (w_db w) → e ∈ db_health_schedule (w_db w) → hs_deletedAt e = None →
  ∃ row u w', HealthScheduleRepo_update (hs_id e) (watermark n) w = (Ok row, w') ∧ db_ok (w_db w') ∧
    db_health_schedule (w_db w') = update_where (λ r, hs_id r =?s hs_id e) (stamp n u) (db_health_schedule (w_db w)).
Proof.
  intros Hd He Hl. pose proof (HealthScheduleRepo_update_ok (hs_id e) (watermark n) w Hd) as Hok.
  set (u := toISOString (clock (w_clock w))).
  assert (E : ∃ w', HealthScheduleRepo_update (hs_id e) (watermark n) w
      = (Ok (schedule_set (watermark n) e u e), w') ∧
    db_health_schedule (w_db w') = update_where (λ r, hs_id r =?s hs_id e) (schedule_set (watermark n) e u)
      (db_health_schedule (w_db w))).
  { unfold HealthScheduleRepo_update, HealthScheduleRepo_get. rewrite bind_read.
    rewrite (find_first_unique _ _ e); [|done|by rewrite bool_decide_eq_true_2, Hl|].
    2: { intros y Hy Ey. bool_hyps. by apply (schedules_pkey (w_db w)). }
    rewrite bind_nowIso. fold u.
    erewrite bind_ok; [|eapply (db_update_one T_health_schedule _ _ e); simpl; try done].
    - by eexists.
    - by rewrite bool_decide_eq_true_2.
    - intros r _. rewrite bool_decide_eq_true. split; [by intros ->|congruence].
    - by apply (Hd T_health_schedule).
    - by apply (Hd T_health_schedule). }
  destruct E as (w' & E & Et). rewrite E in Hok. do 3 eexists. split; [exact E|]. split; [exact Hok|].
  rewrite Et. unfold update_where. apply map_ext_in. intros r Hr%list_elem_of_In. cbv beta.
  destruct (bool_decide_reflect (hs_id r = hs_id e)) as [Hid|]; [|done].
  by rewrite (schedules_pkey (w_db w) r e) by done.
Qed.

Lemma append_schedules l o a c t i d :
  preserves (X := X) (on_db (unchanged T_health_schedule l)) (AuditLogRepo_append o a c t i d).
Proof. unfold AuditLogRepo_append. preserve. Qed.

(** Statements on the store leave the outside alone. *)
Definition outside_is (x : X) (w : World X) : Prop := w_ext w = x.

Lemma watermark_outside x id n : preserves (outside_is x) (HealthScheduleRepo_update id (watermark n)).
Proof.
  unfold HealthScheduleRepo_update. apply preserves_bind; [by intros w|]. intros [e|]; [|by intros w].
  apply preserves_bind; [by intros w|]. intros now. apply preserves_bind; [|intros; apply preserves_ret].
  apply preserves_try; [|intros; apply preserves_mapSqliteError].
  intros w Hw. unfold db_update_raw. by destruct (sql_update _ _ _ _) as [|[]].
Qed.
Lemma append_outside x o a c t i d : preserves (outside_is x) (AuditLogRepo_append o a c t i d).
Proof.
  unfold AuditLogRepo_append. apply preserves_bind; [by intros w|]. intros now. apply preserves_bind; [by intros w|]. intros id.
  apply preserves_bind; [|intros; apply preserves_ret]. apply preserves_try; [|intros; apply preserves_mapSqliteError].
  intros w Hw. unfold db_insert_raw. by destruct (sql_insert _ _ _).
Qed.

(** The events for the outcome of a probe, and for one that threw. *)
Definition outcome_events (n : string) (s : HealthSchedule) (o : ScheduledProbeOutcome) : list SchedulerEvent :=
  SE_health_tick (hs_id s) (hs_targetId s) o n ::
  (if spo_reachable o && forallb (λ p, bool_decide (p.2 ≠ HS_fail)) (spo_probes o) then []
   else [SE_health_failed (hs_id s) (hs_targetId s) o n]).
Definition error_event (n : string) (s : HealthSchedule) (m : string) : SchedulerEvent := SE_schedule_error (hs_id s) (hs_targetId s) m n.
Definition emit_all (l : list SchedulerEvent) (x : X) : X := fold_left (λ x ev, emit_event ev x) l x.

(** What a turn for [s] reports once its probe has come to [r]: when the audit log
    refuses the entry, that is reported too. *)
Definition reported (n : string) (s : HealthSchedule) (r : Res ScheduledProbeOutcome) (x x' : X) : Prop :=
  match r with
  | Throw err => x' = emit_all [error_event n s (err_message err)] x
  | Ok o => x' = emit_all (outcome_events n s o) x ∨ ∃ m, x' = emit_all (outcome_events n s o ++ [error_event n s m]) x
  end.

(** The schedules of the list are probed one after the other, and each is reported. *)
Inductive probed (n : string) : list HealthSchedule → World X → World X → Prop :=
| probed_none w : probed n [] w w
| probed_one s l w r w1 w2 w3 :
    invoke s w = (r, w1) → reported n s r (w_ext w1) (w_ext w2) → probed n l w2 w3 → probed n (s :: l) w w3.

Lemma none_failed l : existsb (λ p : string * HealthStatus, bool_decide (p.2 = HS_fail)) l = negb (forallb (λ p, bool_decide (p.2 ≠ HS_fail)) l).
Proof.
  induction l as [|p l IH]; [done|]. cbn. rewrite IH, negb_andb, bool_decide_not. by rewrite negb_involutive.
Qed.

(** A step of a turn: the store stays consistent and the schedules become [f]
    of what they were. *)
Definition turned (f : list HealthSchedule → list HealthSchedule) (w w' : World X) : Prop :=
  db_ok (w_db w') ∧ db_health_schedule (w_db w') = f (db_health_schedule (w_db w)).

Lemma frame_turned {A} (m : M X A) (w : World X) :
  preserves (on_db db_ok) m → (∀ l, preserves (on_db (unchanged T_health_schedule l)) m) →
  db_ok (w_db w) → db_ok (w_db (m w).2) ∧ db_health_schedule (w_db (m w).2) = db_health_schedule (w_db w).
Proof. intros Hd Hf Hw. split; [by apply Hd|]. by apply (Hf _ w eq_refl). Qed.

Notation touch n u e := (update_where (λ r, hs_id r =?s hs_id e) (stamp n u)).

Lemma touch_twice n u u' (e : HealthSchedule) l : touch n u' e (touch n u e l) = touch n u' e l.
Proof.
  unfold update_where. rewrite map_map. apply map_ext. intros r. by destruct (hs_id r =?s hs_id e) eqn:E; simpl; rewrite E.
Qed.

Lemma touch_elem n u (e : HealthSchedule) l :
  e ∈ l → ∃ e', e' ∈ touch n u e l ∧ hs_id e' = hs_id e ∧ hs_deletedAt e' = hs_deletedAt e.
Proof.
  intros He. exists (stamp n u e). split; [|done]. apply update_where_elem. left. exists e.
  by rewrite bool_decide_eq_true_2.
Qed.

(** The handler ends normally, with the watermark moved. *)
Lemma schedule_error_run n s e err (w : World X) :
  db_ok (w_db w) → e ∈ db_health_schedule (w_db w) → hs_deletedAt e = None → hs_id e = hs_id s →
  ∃ u w', schedule_error n s err w = (Ok (), w') ∧ turned (touch n u e) w w' ∧
    w_ext w' = emit_all [error_event n s (err_message err)] (w_ext w).
Proof.
  intros Hd He Hl Hid. unfold schedule_error, error_event. rewrite <- Hid.
  destruct (watermark_run n e w Hd He Hl) as (row & u & w1 & E1 & Hd1 & Et1).
  pose proof (watermark_outside (w_ext w) (hs_id e) n w eq_refl) as Hx. rewrite E1 in Hx. unfold outside_is in Hx. cbn [snd] in Hx.
  rewrite (bind_ok _ _ w () w1) by (apply try_ok; by rewrite (bind_ok _ _ _ _ _ E1)).
  rewrite bind_eq. unfold emit, external. cbn [fst snd]. set (w2 := mkWorld _ _ _ _).
  unfold try_catch. rewrite bind_eq.
  match goal with |- context [AuditLogRepo_append ?o ?a ?c ?t ?i ?d w2] =>
    pose proof (frame_turned (AuditLogRepo_append o a c t i d) w2 (AuditLogRepo_append_ok o a c t i d)
      (λ l, append_schedules l o a c t i d) Hd1) as [Hd3 Et3];
    pose proof (append_outside (w_ext w2) o a c t i d w2 eq_refl) as Hx3;
    destruct (AuditLogRepo_append o a c t i d w2) as [[] w3] end;
    unfold outside_is in Hx3; cbn [snd] in Et3, Hx3; exists u; eexists; (split; [reflexivity|]);
    (split; [split; [exact Hd3|by rewrite Et3]|]); unfold emit_all; cbn [fold_left]; rewrite <- Hx; exact Hx3.
Qed.

(** The events and the audit entry after the watermark. *)
Lemma report_outside n s o (w : World X) (tail := AuditLogRepo_append (hs_orgId s) "scheduler") a t i d :
  w_ext ((emit (SE_health_tick (hs_id s) (hs_targetId s) o n);;
          (if negb (spo_reachable o) || existsb (λ p, bool_decide (p.2 = HS_fail)) (spo_probes o)
           then emit (SE_health_failed (hs_id s) (hs_targetId s) o n) else mret ());;
          tail a t i d;; mret ()) w).2 = emit_all (outcome_events n s o) (w_ext w).
Proof.
  rewrite bind_eq. unfold emit, external. cbn [fst snd]. rewrite none_failed, <- negb_andb. unfold outcome_events.
  destruct (spo_reachable o && _); cbn [negb]; rewrite bind_eq; cbn [mret M_ret]; rewrite bind_eq;
    match goal with |- context [tail a t i d ?w2] => pose proof (append_outside (w_ext w2) (hs_orgId s) "scheduler" a t i d w2 eq_refl) as Hx;
      unfold tail; destruct (AuditLogRepo_append _ _ a t i d w2) as [[] w3] end; exact Hx.
Qed.

(** A turn ends normally, with the watermark moved, whatever the probes do. *)
Lemma turn_run n s (w : World X) e :
  db_ok (w_db w) → e ∈ db_health_schedule (w_db w) → hs_deletedAt e = None → hs_id e = hs_id s →
  ∃ u w', try_catch (run_schedule n s) (schedule_error n s) w = (Ok (), w') ∧ turned (touch n u e) w w' ∧
    ∃ r w1, invoke s w = (r, w1) ∧ reported n s r (w_ext w1) (w_ext w').
Proof.
  intros Hd He Hl Hid. unfold try_catch, run_schedule. rewrite bind_eq.
  pose proof (frame_turned (invoke s) w (invoke_ok s) (invoke_schedules s) Hd) as [Hd1 Et1].
  destruct (invoke s w) as [[outcome|err] w1]; simpl in Hd1, Et1.
  2: { destruct (schedule_error_run n s e err w1) as (u & w2 & -> & [Hd2 Et2] & Hx2); [done|by rewrite Et1|done|done|].
       exists u, w2. split; [done|]. split; [split; [done|by rewrite Et2, Et1]|]. by exists (Throw err), w1. }
  rewrite <- Hid. destruct (watermark_run n e w1) as (row & u & w2 & E2 & Hd2 & Et2); [done|by rewrite Et1|done|].
  rewrite (bind_ok _ _ _ _ _ E2). pose proof (watermark_outside (w_ext w1) (hs_id e) n w1 eq_refl) as Hx2.
  rewrite E2 in Hx2. unfold outside_is in Hx2. cbn [snd] in Hx2. rewrite Hid.
  pose proof (report_outside n s outcome w2) as Hx3. set (m := emit _ ≫= _).
  match goal with m := context [AuditLogRepo_append _ _ ?a ?t ?i ?d] |- _ => specialize (Hx3 a t i d); fold m in Hx3 end.
  assert (Hm : preserves (on_db db_ok) m ∧ (∀ l, preserves (on_db (unchanged T_health_schedule l)) m)).
  { pose proof append_schedules. unfold m, emit. split; [|intros l]; preserve. }
  pose proof (frame_turned m w2 (proj1 Hm) (proj2 Hm) Hd2) as [Hd3 Et3].
  destruct (m w2) as [[[]|err] w3]; simpl in Hd3, Et3.
  { exists u, w3. split; [done|]. split; [split; [done|by rewrite Et3, Et2, Et1, Hid]|]. exists (Ok outcome), w1. split; [done|]. left. cbn in Hx3. by rewrite Hx3, Hx2. }
  destruct (touch_elem n u e (db_health_schedule (w_db w))) as (e' & He' & Hid' & Hl'); [done|].
  destruct (schedule_error_run n s e' err w3) as (u' & w4 & -> & [Hd4 Et4] & Hx4);
    [done|by rewrite Et3, Et2, Et1|congruence|congruence|].
  exists u', w4. split; [done|]. split; [split; [done|]; rewrite Et4, Et3, Et2, Et1, Hid', Hid; apply touch_twice|].
  exists (Ok outcome), w1. split; [done|]. right. exists (err_message err). cbn in Hx3. unfold emit_all at 1. rewrite fold_left_app.
  rewrite Hx4, Hx3, Hx2. done.
Qed.

(** *** The loop *)

Lemma turns_run n l (w0 w : World X) ids :
  db_ok (w_db w) → stamped n ids (db_health_schedule (w_db w0)) (db_health_schedule (w_db w)) →
  (∀ s, s ∈ l → s ∈ db_health_schedule (w_db w0) ∧ hs_deletedAt s = None) →
  ∃ w' ids', for_each l (λ s, try_catch (run_schedule n s) (schedule_error n s)) w = (Ok (), w') ∧ db_ok (w_db w') ∧
    stamped n ids' (db_health_schedule (w_db w0)) (db_health_schedule (w_db w')) ∧
    (∀ id, id ∈ ids' ↔ id ∈ ids ∨ id ∈ map hs_id l) ∧ probed n l w w'.
Proof.
  revert w ids. induction l as [|s l IH]; intros w ids Hd Hs Hl; simpl.
  { exists w, ids. split_and!; try done; [|constructor]. intros id. rewrite elem_of_nil. naive_solver. }
  destruct (Hl s) as [Hin Hlive]; [left|].
  destruct (stamped_elem _ _ _ _ _ Hs Hin) as (e & He & Hid & Hdel).
  destruct (turn_run n s w e) as (u & w1 & E1 & [Hd1 Et1] & r & v & Ev & Hv); [done|done|congruence|done|].
  rewrite (bind_ok _ _ _ _ _ E1). apply (stamped_update _ _ _ _ (hs_id e) u) in Hs. rewrite <- Et1 in Hs.
  destruct (IH w1 (hs_id e :: ids)) as (w' & ids' & E & ? & ? & Hids & Hp); [done|done|intros; apply Hl; by right|].
  exists w', ids'. split_and!; try done; [|by eapply probed_one]. intros id. rewrite Hids, !elem_of_cons, Hid. naive_solver.
Qed.

(** C37: A scheduler tick never throws, whatever the probes, their backend or the
    audit log do, as long as the schedules can be read.  It probes exactly the
    active, live schedules whose interval has passed, each once and in the order
    of their creation, and reports what each probe came to; each of those has its
    watermark moved to the tick's instant and is otherwise unchanged, and is then
    not due again before its interval has passed once more; every other schedule
    stays as it was. *)
Theorem runSchedulerTick_spec (w : World X) :
  db_ok (w_db w) → let now := clock (w_clock w) in
  let due := select (tick_due now) (db_health_schedule (w_db w)) in
  ∃ w', runSchedulerTick w = (Ok (length due), w') ∧
    probed (toISOString now) (order_asc hs_createdAt due) (mkWorld (w_db w) (S (w_clock w)) (w_ids w) (w_ext w)) w' ∧
    db_ok (w_db w') ∧
    Forall2 (λ r r', if tick_due now r
               then (∃ u, r' = stamp (toISOString now) u r) ∧
                    (∀ t, schedule_due t r' = true → now + hs_intervalSeconds r * 1000 ≤ t)
               else r' = r)
      (db_health_schedule (w_db w)) (db_health_schedule (w_db w')).
Proof.
  intros Hd now. cbv zeta. unfold runSchedulerTick. rewrite bind_eq. cbn [nowDate]. fold now.
  set (w0 := mkWorld _ _ _ _). cbv zeta. unfold HealthScheduleRepo_listActive. cbn [truthy]. rewrite bind_read.
  unfold dueSchedules. rewrite select_order_asc, select_select.
  change (select _ (db_health_schedule (w_db w0))) with (select (tick_due now) (db_health_schedule (w_db w))).
  set (due := order_asc _ _).
  assert (Hdue : ∀ s, s ∈ due ↔ s ∈ db_health_schedule (w_db w) ∧ tick_due now s = true).
  { intros s. unfold due. by rewrite order_asc_elem, select_elem. }
  destruct (turns_run (toISOString now) due w0 w0 []) as (w' & ids & E & Hd' & Hs & Hids & Hprobed);
    [done|apply stamped_refl| |].
  { intros s [Hin Ht]%Hdue. split; [done|]. unfold tick_due in Ht. bool_hyps. by destruct (hs_deletedAt s). }
  rewrite (bind_ok _ _ _ _ _ E). exists w'. split.
  { unfold due, order_asc. by rewrite order_by_length. }
  split; [exact Hprobed|]. split; [done|]. cbn [w0 w_db] in Hs.
  assert (Hmem : ∀ r, r ∈ db_health_schedule (w_db w) → bool_decide (hs_id r ∈ ids) = tick_due now r).
  { intros r Hr. apply eq_true_iff_eq. rewrite bool_decide_eq_true, Hids. split.
    - intros [[]%elem_of_nil|(s & Es & [Hin Ht]%Hdue)%list_elem_of_fmap].
      by rewrite (schedules_pkey (w_db w) r s).
    - intros Ht. right. apply list_elem_of_fmap_2. by apply Hdue. }
  apply (Forall2_impl_in _ _ _ _ Hs). intros r r' Hr Hrr. rewrite Hmem in Hrr by done.
  destruct (tick_due now r); [|done]. split; [done|]. destruct Hrr as [u ->]. intros t.
  unfold schedule_due. cbn [stamp hs_lastRunAt hs_intervalSeconds].
  rewrite Date_parse_toISOString by (apply iso_range_bounds; pose proof (clock_range (w_clock w)); unfold now; lia). intros Ht. by apply Z.leb_le in Ht.
Qed.
End tick.

(** *** At work on the fixture: the probes of its only schedule cannot be run *)

#[export] Instance fixture_probes : ProbeInvoker Trace.
Proof.
  refine {| invoke := λ s, external (λ x, (Throw (EError "backend unavailable"), x ++ ["PROBE " +:+ hs_id s])) |};
    auto with preserve.
Defined.

#[export] Instance fixture_scheduler_sink : SchedulerSink Trace :=
  {| emit_event := λ ev x, x ++ [match ev with
       | SE_health_tick _ _ _ _ => "tick" | SE_health_failed _ _ _ _ => "failed" | SE_schedule_error _ _ e _ => e end] |}.

Lemma runSchedulerTick_spec_witness :
  tick_due epoch2025 fx_schedule = true ∧
  ∃ w', runSchedulerTick fx_world = (Ok 1%nat, w') ∧
    probed (toISOString epoch2025) [fx_schedule] (mkWorld fx_db 1 0 (w_ext fx_world)) w' ∧ db_ok (w_db w') ∧
    Forall2 (λ r r', if tick_due epoch2025 r
               then (∃ u, r' = stamp (toISOString epoch2025) u r) ∧
                    (∀ t, schedule_due t r' = true → epoch2025 + hs_intervalSeconds r * 1000 ≤ t)
               else r' = r)
      [fx_schedule] (db_health_schedule (w_db w')).
Proof. split; [by vm_compute|]. exact (runSchedulerTick_spec fx_world fx_db_ok). Defined.
