(* ===== verification/EventsSpec.v ===== *)
(** What the event dispatcher guarantees: nobody's failure stops the others, no
    event leaves its organisation, and signatures verify exactly when they are
    the ones that were made. *)

From S2P Require Import Prelude JsTime JsVal Types World Logic StorageCatalog StorageOps.
From S2P Require Import BuildYaml CloudTypes Budget Cloud Events Promotion Fixture.

Section dispatch.
Context {X : Type} `{Oracle} `{JsEngine} {P : Platform X}.

(** A delivery settles: it reports about its subscription and writes nothing. *)
Lemma deliver_settles email sub event (w : World X) :
  ∃ o w', deliver email sub event w = (Ok o, w') ∧ do_subscriptionId o = wh_id sub ∧
    w_db w' = w_db w.
Proof.
  unfold deliver, try_catch. destruct (wh_kind sub) eqn:Ek.
  - unfold deliverGeneric. rewrite bind_eq. unfold external.
    destruct (http_fetch _ _ _ (w_ext w)) as [[] ?]; by do 2 eexists.
  - unfold deliverSlack. rewrite bind_eq. unfold external.
    destruct (http_fetch _ _ _ (w_ext w)) as [[] ?]; by do 2 eexists.
  - unfold deliverEmail. destruct email as [|send|]; [by do 2 eexists| |]; rewrite bind_eq; unfold external.
    + destruct (send _ _ _ (w_ext w)) as [[] ?]; by do 2 eexists.
    + destruct (defaultEmailSender _ _ _ (w_ext w)) as [[] ?]; [|by do 2 eexists].
      do 2 eexists. split; [reflexivity|]. by destruct smtp_url_set.
Qed.

(** Auditing an attempt never throws and only writes the audit log. *)
Lemma audit_delivery_settles sub event o (w : World X) :
  ∃ w', audit_delivery sub event o w = (Ok (), w') ∧
    ∀ T, T ≠ T_audit_log → tget T (w_db w') = tget T (w_db w).
Proof.
  pose proof (preserves_try (λ w' : World X, ∀ T, T ≠ T_audit_log → tget T (w_db w') = tget T (w_db w))
    (AuditLogRepo_append (event_orgId event) "dispatcher"
       (if do_delivered o then "webhook.delivered" else "webhook.failed")
       "webhook_subscription" (wh_id sub)
       (Some ([("event", JStr (event_kind event))]
              ++ opt_prop "status" (JInt <$> do_status o)
              ++ opt_prop "error" (JStr <$> do_error o)));; mret ()) (λ _, mret ())) as Hp.
  unfold audit_delivery. set (m := try_catch _ _) in *.
  assert (Hm : preserves (λ w' : World X, ∀ T, T ≠ T_audit_log → tget T (w_db w') = tget T (w_db w)) m).
  { apply Hp; [|intros; apply preserves_ret]. apply preserves_bind; [|intros; apply preserves_ret].
    unfold AuditLogRepo_append. apply preserves_bind; [by intros w0|]. intros now.
    apply preserves_bind; [by intros w0|]. intros id. apply preserves_bind; [|intros; apply preserves_ret].
    intros w0 Hw0 T HT. rewrite <- Hw0 by done.
    destruct (db_insert T_audit_log _ w0) as [[[]|e] w1] eqn:Ei.
    - apply db_insert_inv in Ei as [-> _]. cbn [snd set_db w_db]. by apply tget_tset_ne.
    - by apply db_insert_throw in Ei as [-> _]. }
  specialize (Hm w ltac:(done)). assert (Hok : ∃ w', m w = (Ok (), w')).
  { unfold m, try_catch. rewrite bind_eq.
    destruct (AuditLogRepo_append _ _ _ _ _ _ w) as [[]]; by eexists. }
  destruct Hok as [w' E]. exists w'. split; [done|]. by rewrite E in Hm.
Qed.

(** The subscriptions an event goes to. *)
Definition recipients (event : SignalmanEvent) (d : DB) : list WebhookSubscription :=
  select (λ sub, subscriptionWantsEvent sub event)
    (order_asc wh_createdAt
       (select (λ r, (wh_orgId r =?s event_orgId event) && wh_active r && is_null (wh_deletedAt r))
          (db_webhook_subscription d))).

Lemma recipients_elem event d sub :
  sub ∈ recipients event d ↔
  sub ∈ db_webhook_subscription d ∧ wh_orgId sub = event_orgId event ∧ wh_active sub = true ∧
  wh_deletedAt sub = None ∧ subscriptionWantsEvent sub event = true.
Proof.
  unfold recipients. rewrite select_elem, order_asc_elem, select_elem, !andb_true_iff, bool_decide_eq_true.
  destruct (wh_deletedAt sub); naive_solver.
Qed.

(** Dispatching an event never throws, whatever the receivers, the mail
    transport or the audit log do.  It reports one outcome for every live and
    active subscription of the event's own organisation that asked for the
    event's kind, and for no other, and no table but the audit log changes. *)
Theorem dispatch_total email event (w : World X) :
  event_orgId event ≠ "" →
  ∃ outs w', dispatch email event w = (Ok outs, w') ∧
    map do_subscriptionId outs = map wh_id (recipients event (w_db w)) ∧
    (∀ sub, sub ∈ recipients event (w_db w) ↔
       sub ∈ db_webhook_subscription (w_db w) ∧ wh_orgId sub = event_orgId event ∧
       wh_active sub = true ∧ wh_deletedAt sub = None ∧ subscriptionWantsEvent sub event = true) ∧
    (∀ T, T ≠ T_audit_log → tget T (w_db w') = tget T (w_db w)).
Proof.
  intros Horg. assert (El : WebhookSubscriptionRepo_listActive (X := X) (Some (event_orgId event)) w =
    (Ok (order_asc wh_createdAt
      (select (λ r, (wh_orgId r =?s event_orgId event) && wh_active r && is_null (wh_deletedAt r))
        (db_webhook_subscription (w_db w)))), w)).
  { unfold WebhookSubscriptionRepo_listActive. unfold truthy. by rewrite bool_decide_eq_false_2. }
  unfold dispatch. rewrite (bind_ok _ _ _ _ _ El). fold (recipients event (w_db w)).
  assert (Hc : ∀ l (w1 : World X), ∃ outs w2,
    for_collect l (λ sub, outcome ← deliver email sub event; audit_delivery sub event outcome;; mret outcome) w1
      = (Ok outs, w2) ∧ map do_subscriptionId outs = map wh_id l ∧
    ∀ T, T ≠ T_audit_log → tget T (w_db w2) = tget T (w_db w1)).
  { induction l as [|sub l IH]; intros w1; cbn [for_collect map]; [by exists [], w1|].
    destruct (deliver_settles email sub event w1) as (o & w2 & E1 & Hid & Hdb).
    destruct (audit_delivery_settles sub event o w2) as (w3 & E2 & HT).
    destruct (IH w3) as (outs & w4 & E3 & Hids & HT'). exists (o :: outs), w4.
    assert (E : (outcome ← deliver email sub event; audit_delivery sub event outcome;; mret outcome) w1
      = (Ok o, w3)) by (by rewrite (bind_ok _ _ _ _ _ E1), (bind_ok _ _ _ _ _ E2)).
    rewrite (bind_ok _ _ _ _ _ E), (bind_ok _ _ _ _ _ E3). cbn [map].
    split_and!; [done|by rewrite Hid, Hids|]. intros T HTn. by rewrite HT', HT, Hdb. }
  destruct (Hc (recipients event (w_db w)) w) as (outs & w' & E & Hids & HT).
  exists outs, w'. split_and!; [exact E|done|intros sub; apply recipients_elem|done].
Qed.

(** A signature verifies exactly when it is the one [signBody] makes for this
    secret and body, with its prefix or, if it has none, as the bare digest. *)
Theorem verifySignature_iff secret body signature :
  verifySignature secret body signature = true ↔
  signature = signBody secret body ∨
  (starts_with SIGNATURE_PREFIX signature = false ∧ signature = hmac_sha256_hex secret body).
Proof.
  assert (Hv : ∀ a b : string, (if negb (String.length a =? String.length b)%nat then false else a =?s b) = true
    ↔ a = b).
  { intros a b. destruct (Nat.eqb_spec (String.length a) (String.length b)); cbn [negb];
      rewrite ?bool_decide_eq_true; naive_solver. }
  unfold verifySignature. cbv zeta. rewrite Hv. unfold signBody.
  destruct (starts_with SIGNATURE_PREFIX signature) eqn:Es.
  - split; [by left|]. intros [->|[? _]]; done.
  - split; [intros [= E]; by right|]. intros [->|[_ ->]]; [|done].
    by rewrite starts_with_app in Es.
Qed.
End dispatch.

(** An event two subscribers of the fixture could hear of; one of them asked for
    another kind. *)
Definition fx_event : SignalmanEvent := EvDeploymentRolledBack "o1" t0 "d1" "r0" "staging".

Lemma dispatch_total_witness :
  ∃ outs w', dispatch EmailDefault fx_event fx_world = (Ok outs, w') ∧
    map do_subscriptionId outs = map wh_id (recipients fx_event fx_db) ∧
    (∀ sub, sub ∈ recipients fx_event fx_db ↔
       sub ∈ db_webhook_subscription fx_db ∧ wh_orgId sub = "o1" ∧ wh_active sub = true ∧
       wh_deletedAt sub = None ∧ subscriptionWantsEvent sub fx_event = true) ∧
    (∀ T, T ≠ T_audit_log → tget T (w_db w') = tget T fx_db).
Proof. by apply (dispatch_total EmailDefault fx_event fx_world). Defined.

Example fx_recipients : map wh_id (recipients fx_event fx_db) = ["w1"].
Proof. by vm_compute. Qed.
