(* ===== verification/BuildYamlSpec.v ===== *)
(** What the build-file schema accepts, and what variable substitution does. *)

From S2P Require Import Prelude JsVal World BuildYaml Fixture.

(** ** Substitution *)

Definition seg_text (g : segment) : string :=
  match g with Lit c => String c "" | Var n => "${" +:+ n +:+ "}" end.

Definition seg_value (vars : BuildVariables) (g : segment) : string :=
  match g with Lit c => String c "" | Var n => lookup_var vars n ?? "" end.

Definition concat_text (l : list string) : string := join "" l.

Lemma concat_text_cons s l : concat_text (s :: l) = s +:+ concat_text l.
Proof. unfold concat_text. destruct l; simpl; [by rewrite str_app_nil_r|done]. Qed.

Lemma span_app p s : let (a, b) := span p s in s = a +:+ b ∧ all_chars p a = true.
Proof.
  induction s as [|c s IH]; [done|]. simpl. destruct (p c) eqn:E; [|done].
  destruct (span p s) as [a b]. destruct IH as [-> Ha]. simpl. by rewrite E, Ha.
Qed.

(** A name VAR_RE accepts. *)
Definition var_name_ok (n : string) : bool := matches_name var_first var_rest n.

Lemma match_var_spec s n t :
  match_var s = Some (n, t) → s = "${" +:+ n +:+ "}" +:+ t ∧ var_name_ok n = true.
Proof.
  unfold match_var. intros Hm. repeat (case_match; try done). simplify_eq.
  match goal with H : span ?p ?s = (?a, ?b) |- _ => pose proof (span_app p s) as Hs; rewrite H in Hs end.
  destruct Hs as [-> Hr]. split; [done|]. simpl. by apply andb_true_iff.
Qed.

Lemma match_var_length s n t : match_var s = Some (n, t) → (String.length t < String.length s)%nat.
Proof.
  intros [-> _]%match_var_spec. rewrite !str_app_length. simpl. lia.
Qed.

Lemma segments_text fuel : ∀ s, (String.length s ≤ fuel)%nat →
  concat_text (map seg_text (segments fuel s)) = s.
Proof.
  induction fuel as [|fuel IH]; intros [|c s] Hf; try done; [simpl in Hf; lia|].
  cbn [segments]. destruct (match_var (String c s)) as [[n t]|] eqn:E; cbn [map seg_text].
  - rewrite concat_text_cons, IH.
    + apply match_var_spec in E as [-> _]. by rewrite <- !str_app_assoc.
    + apply match_var_length in E. simpl in E, Hf. lia.
  - rewrite concat_text_cons, IH by (simpl in Hf; lia). done.
Qed.

(** More fuel than characters changes nothing. *)
Lemma segments_fuel f1 : ∀ f2 s, (String.length s ≤ f1)%nat → (String.length s ≤ f2)%nat →
  segments f1 s = segments f2 s.
Proof.
  induction f1 as [|f1 IH]; intros [|f2] [|c s] H1 H2; try done; try (simpl in *; lia).
  cbn [segments]. simpl in H1, H2. destruct (match_var (String c s)) as [[n t]|] eqn:E.
  - apply match_var_length in E. simpl in E. f_equal. apply IH; lia.
  - f_equal. apply IH; lia.
Qed.

Definition seg_wf (g : segment) : bool := match g with Lit _ => true | Var n => var_name_ok n end.

Lemma segments_wf fuel : ∀ s, forallb seg_wf (segments fuel s) = true.
Proof.
  induction fuel as [|fuel IH]; intros [|c s]; try done. cbn [segments].
  destruct (match_var (String c s)) as [[n t]|] eqn:E; cbn [forallb seg_wf].
  - apply match_var_spec in E as [_ ->]. apply IH.
  - apply IH.
Qed.

Lemma expand_spec vars where_ l :
  match expand vars where_ l with
  | inr r => (∀ n, Var n ∈ l → is_Some (lookup_var vars n)) ∧ r = concat_text (map (seg_value vars) l)
  | inl e => ∃ n, Var n ∈ l ∧ lookup_var vars n = None ∧ e = unknown_variable n where_
  end.
Proof.
  induction l as [|[c|n] l IH]; cbn [expand map].
  - split; [|done]. intros n Hn. by apply elem_of_nil in Hn.
  - destruct (expand vars where_ l) as [e|r].
    + destruct IH as (n & Hn & ? & ?). exists n. split; [apply elem_of_cons; by right|done].
    + destruct IH as [Hk ->]. split.
      * intros n [|]%elem_of_cons; [done|auto].
      * by rewrite concat_text_cons.
  - destruct (lookup_var vars n) as [v|] eqn:El.
    + destruct (expand vars where_ l) as [e|r].
      * destruct IH as (m & Hm & ? & ?). exists m. split; [apply elem_of_cons; by right|done].
      * destruct IH as [Hk ->]. split; [|by rewrite concat_text_cons; cbn [seg_value]; rewrite El].
        intros m [[= ->]|]%elem_of_cons; [by rewrite El|auto].
    + exists n. split; [apply elem_of_cons; by left|done].
Qed.

(** Substitution reads a text as literal characters and well-formed variable
    references whose concatenation is the text.  It succeeds exactly when every
    referenced variable is known, and then replaces each reference by its value,
    verbatim; otherwise the error names a variable that is not known. *)
Theorem substituteVariables_correct s vars where_ :
  let l := segments (String.length s) s in
  concat_text (map seg_text l) = s ∧ forallb seg_wf l = true ∧
  match substituteVariables s vars where_ with
  | inr r => (∀ n, Var n ∈ l → is_Some (lookup_var vars n)) ∧ r = concat_text (map (seg_value vars) l)
  | inl e => ∃ n, Var n ∈ l ∧ lookup_var vars n = None ∧ e = unknown_variable n where_
  end.
Proof. split_and!; [by apply segments_text|apply segments_wf|apply expand_spec]. Qed.

Lemma span_dollar p s x :
  p "$"%char = false →
  span p (s +:+ String "$" x) = let (a, b) := span p s in (a, b +:+ String "$" x).
Proof.
  intros Hp. induction s as [|c s IH]; [simpl; by rewrite Hp|].
  rewrite str_app_cons. cbn [span]. destruct (p c); [|done]. rewrite IH. by destruct (span p s).
Qed.

(** No reference reaches over a dollar sign. *)
Lemma match_var_dollar c s x :
  match_var (String c s +:+ String "$" x) =
  match match_var (String c s) with Some (n, t) => Some (n, t +:+ String "$" x) | None => None end.
Proof.
  destruct (decide (c = "$"%char)) as [->|H1];
    [|rewrite str_app_cons; by destruct c as [[] [] [] [] [] [] [] []]].
  destruct s as [|c2 s]; [done|].
  destruct (decide (c2 = "{"%char)) as [->|H2];
    [|rewrite !str_app_cons; by destruct c2 as [[] [] [] [] [] [] [] []]].
  destruct s as [|c3 s]; [done|]. rewrite !str_app_cons. unfold match_var.
  destruct (var_first c3); [|done]. rewrite span_dollar by done.
  destruct (span var_rest s) as [a [|d b]]; [done|]. rewrite str_app_cons.
  by destruct d as [[] [] [] [] [] [] [] []].
Qed.

Lemma span_all p s x c : all_chars p s = true → p c = false → span p (s +:+ String c x) = (s, String c x).
Proof.
  intros Hs Hc. induction s as [|d s IH]; [simpl; by rewrite Hc|].
  cbn [all_chars] in Hs. apply andb_true_iff in Hs as [Hd Hs].
  rewrite str_app_cons. cbn [span]. rewrite Hd. by rewrite (IH Hs).
Qed.

Lemma match_var_ref n t :
  var_name_ok n = true → match_var ("${" +:+ n +:+ "}" +:+ t) = Some (n, t).
Proof.
  destruct n as [|c n]; [done|]. intros [Hc Hn]%andb_true_iff.
  change (match_var (String "$" (String "{" (String c (n +:+ String "}" t)))) = Some (String c n, t)).
  unfold match_var. rewrite Hc. by rewrite (span_all var_rest n t "}"%char).
Qed.

Lemma segments_ref n b : ∀ fuel a, (String.length (a +:+ "${" +:+ n +:+ "}" +:+ b) ≤ fuel)%nat →
  var_name_ok n = true →
  segments fuel (a +:+ "${" +:+ n +:+ "}" +:+ b) =
  segments (String.length a) a ++ Var n :: segments (String.length b) b.
Proof.
  induction fuel as [|fuel IH]; intros a Hf Hn.
  { rewrite str_app_length in Hf. simpl in Hf. lia. }
  destruct a as [|c a].
  - pose proof (match_var_ref n b Hn) as E. pose proof (match_var_length _ _ _ E) as Hl.
    change ("" +:+ ?x) with x in *. cbn [segments].
    change ("${" +:+ n +:+ "}" +:+ b) with (String "$" (String "{" (n +:+ "}" +:+ b))) in *.
    cbn [segments]. rewrite E. simpl. f_equal. apply segments_fuel; lia.
  - pose proof (match_var_dollar c a (String "{" (n +:+ "}" +:+ b))) as E.
    change (String "$" (String "{" (n +:+ "}" +:+ b))) with ("${" +:+ n +:+ "}" +:+ b) in E.
    rewrite str_app_cons in Hf |- *. rewrite str_app_cons in E. cbn [segments String.length] in Hf |- *.
    rewrite E. destruct (match_var (String c a)) as [[m t]|] eqn:Em.
    + pose proof (match_var_length _ _ _ Em) as Hl. simpl in Hl. simpl. f_equal.
      rewrite str_app_length in Hf. rewrite IH by (done || rewrite str_app_length; lia).
      f_equal. apply segments_fuel; lia.
    + simpl. f_equal. apply IH; [lia|done].
Qed.

Lemma expand_app vars where_ l1 l2 :
  expand vars where_ (l1 ++ l2) =
  match expand vars where_ l1 with
  | inl e => inl e
  | inr r1 => match expand vars where_ l2 with inl e => inl e | inr r2 => inr (r1 +:+ r2) end
  end.
Proof.
  induction l1 as [|[c|n] l1 IH]; cbn [expand app].
  - by destruct (expand vars where_ l2).
  - rewrite IH. destruct (expand vars where_ l1); [done|]. by destruct (expand vars where_ l2).
  - destruct (lookup_var vars n); [|done]. rewrite IH. destruct (expand vars where_ l1); [done|].
    destruct (expand vars where_ l2); [done|]. by rewrite str_app_assoc.
Qed.

(** Every reference is replaced, wherever it stands, and replaced once: the
    text before it and the text after it are substituted independently, and the
    value is inserted as it is, even when it looks like a reference itself. *)
Theorem substituteVariables_reference a n b vars where_ v ra rb :
  var_name_ok n = true → lookup_var vars n = Some v →
  substituteVariables a vars where_ = inr ra → substituteVariables b vars where_ = inr rb →
  substituteVariables (a +:+ "${" +:+ n +:+ "}" +:+ b) vars where_ = inr (ra +:+ v +:+ rb).
Proof.
  unfold substituteVariables. intros Hn Hv Ha Hb. rewrite segments_ref by done.
  rewrite expand_app, Ha. cbn [expand]. by rewrite Hv, Hb.
Qed.

Lemma substituteVariables_reference_witness :
  substituteVariables ("v" +:+ "${" +:+ "TAG" +:+ "}" +:+ "-${COMMIT_SHORT}")
    [("TAG", "${TAG}"); ("COMMIT_SHORT", "abc")] "x" = inr "v${TAG}-abc".
Proof.
  apply (substituteVariables_reference "v" "TAG" "-${COMMIT_SHORT}"
    [("TAG", "${TAG}"); ("COMMIT_SHORT", "abc")] "x" "${TAG}" "v" "-abc"); reflexivity.
Defined.

(** ** The schema *)

(** What the schema demands of a document. *)
Definition opt_all {A} (p : A → bool) (o : option A) : bool :=
  match o with Some a => p a | None => true end.

Definition timeout_ok (n : jsnum) : bool := num_isInteger n && num_positive n.

Definition artifact_ok (a : BuildArtifact) : bool :=
  match a with BlobArtifact path _ => non_empty path | ImageRefArtifact ref => non_empty ref end.

Definition component_ok (c : BuildComponent) : bool :=
  component_name_ok (bcm_name c) && non_empty (bs_command (bcm_build c))
  && some_items (bcm_artifacts c) && forallb artifact_ok (bcm_artifacts c).

Definition probe_ok `{Zod} (p : Probe) : bool :=
  probe_name_ok (probe_name p) &&
  match p with
  | PCommand p => non_empty (cp_command p) && opt_all num_isInteger (cp_expect_exit p)
                  && opt_all timeout_ok (cp_timeout_ms p)
  | PHttpInGuest p => zod_url (hp_url p) && opt_all num_isInteger (hp_expect_status p)
                      && opt_all timeout_ok (hp_timeout_ms p)
  | PFileInGuest p => non_empty (fp_path p)
  end.

Definition yaml_ok `{Zod} (y : BuildYaml) : bool :=
  some_items (by_components y) && forallb component_ok (by_components y)
  && forallb probe_ok (by_probes y ?? [])
  && no_duplicates [] (map bcm_name (by_components y))
  && no_duplicates [] (map probe_name (by_probes y ?? [])).

(** *** Decoding what was encoded *)

Lemma get_prop_app k a b :
  get_prop k (a ++ b) = match get_prop k a with Some v => Some v | None => get_prop k b end.
Proof.
  unfold get_prop. induction a as [|[k' v] a IH]; [done|]. simpl. by destruct (k' =?s k).
Qed.

Lemma get_prop_cons k k' v o :
  get_prop k ((k', v) :: o) = if k' =?s k then Some v else get_prop k o.
Proof. unfold get_prop. simpl. by destruct (k' =?s k). Qed.

Lemma get_prop_opt {A} k k' (e : A → json) o :
  get_prop k (opt_enc k' e o) = if k' =?s k then option_map e o else None.
Proof. unfold opt_enc. destruct o; simpl; [|by destruct (k' =?s k)]. apply get_prop_cons. Qed.

Lemma strict_app keys a b : strict keys (a ++ b) = strict keys a && strict keys b.
Proof. apply forallb_app. Qed.

Lemma strict_opt {A} keys k (e : A → json) o :
  existsb (λ x, x =?s k) keys = true → strict keys (opt_enc k e o) = true.
Proof. intros Hk. unfold opt_enc. destruct o; [|done]. simpl. by rewrite Hk. Qed.

Lemma option_eta {A} (o : option A) : match o with Some v => Some v | None => None end = o.
Proof. by destruct o. Qed.

(** Decide comparisons of literal keys. *)
Ltac literal_keys :=
  repeat match goal with
  | |- context [bool_decide (?a = ?b :> string)] =>
    let v := eval vm_compute in (bool_decide (a = b)) in
    match v with true => idtac | false => idtac end;
    change (bool_decide (a = b)) with v
  end.

Ltac fields :=
  rewrite ?strict_app, ?strict_opt by reflexivity;
  unfold req, opt; rewrite ?get_prop_app, ?get_prop_cons, ?get_prop_opt;
  cbn [strict forallb existsb fst]; literal_keys; cbn [orb andb get_prop find_first option_map];
  rewrite ?option_eta.

(** [d] reads back what [e] writes, where [p] holds. *)
Definition reads {A} (d : decoder A) (e : A → json) (p : A → bool) : Prop :=
  ∀ a, p a = true → d (e a) = Some a.

Lemma reads_string : reads dec_string JStr (λ _, true).
Proof. by intros s _. Qed.

Lemma reads_check {A} (d : decoder A) e p q :
  reads d e p → reads (dec_check q d) e (λ a, p a && q a).
Proof. intros Hd a [Hp Hq]%andb_true_iff. unfold dec_check. rewrite Hd by done. by rewrite Hq. Qed.

Lemma reads_int : reads dec_int JNum num_isInteger.
Proof. intros n Hn. simpl. by rewrite Hn. Qed.

Lemma reads_array {A} (d : decoder A) e p :
  reads d e p → reads (dec_array d) (λ l, JArr (map e l)) (forallb p).
Proof.
  intros Hd l Hl. simpl. induction l as [|a l IH]; [done|]. simpl in *.
  apply andb_true_iff in Hl as [Ha Hl]. rewrite Hd by done. by rewrite IH.
Qed.

Lemma reads_strings : reads (dec_array dec_string) enc_strings (λ _, true).
Proof. intros l _. apply (reads_array _ _ (λ _, true) reads_string). by induction l. Qed.

Lemma reads_record : reads dec_record enc_record (λ _, true).
Proof. intros l _. simpl. induction l as [|[k s] l IH]; simpl; [done|]. by rewrite IH. Qed.

(** An optional field that was written is read back. *)
Lemma reads_opt {A} (d : decoder A) e p (o : option A) :
  reads d e p → opt_all p o = true →
  match option_map e o with
  | Some v => match d v with Some a => Some (Some a) | None => None end
  | None => Some None
  end = Some o.
Proof. intros Hd Ho. destruct o as [a|]; [|done]. simpl in *. by rewrite Hd. Qed.

Lemma opt_all_true {A} (o : option A) : opt_all (λ _, true) o = true.
Proof. by destruct o. Qed.

Definition min1 : decoder string := dec_check non_empty dec_string.

Lemma reads_min1 : reads min1 JStr non_empty.
Proof. intros s Hs. unfold min1, dec_check. simpl. by rewrite Hs. Qed.

Lemma matches_name_non_empty f r s : matches_name f r s = true → non_empty s = true.
Proof. by destruct s. Qed.

Lemma reads_name f r :
  reads (dec_check (matches_name f r) min1) JStr (matches_name f r).
Proof.
  intros s Hs. unfold dec_check at 1. rewrite (reads_min1 s) by (by eapply matches_name_non_empty).
  by rewrite Hs.
Qed.

Lemma reads_component_name : reads ComponentNameSchema JStr component_name_ok.
Proof. apply reads_name. Qed.

Lemma reads_probe_name : reads ProbeNameSchema JStr probe_name_ok.
Proof. apply reads_name. Qed.

Lemma reads_timeout : reads TimeoutSchema JNum timeout_ok.
Proof. apply (reads_check _ _ _ _ reads_int). Qed.

Ltac read_field L :=
  first [ rewrite (reads_opt _ _ _ _ L) by (done || apply opt_all_true)
        | rewrite L by done ].

Lemma reads_step : reads BuildStepSchema enc_step (λ b, non_empty (bs_command b)).
Proof.
  intros b Hc. unfold BuildStepSchema, enc_step. fields. fold min1.
  read_field reads_string. read_field (reads_min1 (bs_command b)). cbn [mbind option_bind].
  read_field reads_strings. cbn [mbind option_bind]. read_field reads_record. by destruct b.
Qed.

Lemma reads_artifact : reads ArtifactSchema enc_artifact artifact_ok.
Proof.
  intros [path produce|ref] Ha; simpl in Ha; unfold ArtifactSchema, by_kind, enc_artifact; fields;
    literal_keys; cbn [find_first snd fst]; literal_keys; cbn [snd];
    unfold BlobArtifactSchema, ImageRefArtifactSchema; fields; fold min1;
    rewrite (reads_min1 _ Ha); cbn [mbind option_bind].
  - by read_field reads_string.
  - done.
Qed.

Lemma reads_component : reads ComponentSchema enc_component component_ok.
Proof.
  intros c Hc. unfold component_ok in Hc. rewrite !andb_true_iff in Hc.
  destruct Hc as [[[Hn Hs] Hi] Ha]. unfold ComponentSchema, enc_component. fields.
  rewrite (reads_component_name _ Hn).
  cbn [mbind option_bind]. rewrite (reads_step _ Hs). unfold dec_check. cbn [mbind option_bind].
  rewrite (reads_array _ _ _ reads_artifact _ Ha), Hi. by destruct c.
Qed.

Lemma reads_verification : reads VerificationSchema enc_verification (λ _, true).
Proof.
  intros v _. unfold VerificationSchema, enc_verification. fields.
  read_field reads_strings. cbn [mbind option_bind]. read_field reads_strings. cbn [mbind option_bind].
  read_field reads_strings. by destruct v.
Qed.

Lemma reads_probe `{Zod} : reads ProbeSchema enc_probe probe_ok.
Proof.
  intros p Hp. unfold probe_ok in Hp. apply andb_true_iff in Hp as [Hn Hp].
  unfold ProbeSchema, by_kind, enc_probe. destruct p as [p|p|p]; cbn [probe_name] in Hn;
    rewrite ?andb_true_iff in Hp; fields; literal_keys; cbn [find_first fst snd]; literal_keys; cbn [snd];
    unfold CommandProbeSchema, HttpInGuestProbeSchema, FileInGuestProbeSchema; fields;
    fold min1; rewrite (reads_probe_name _ Hn);
    cbn [mbind option_bind].
  - destruct Hp as [[Hc He] Ht]. rewrite (reads_min1 _ Hc). cbn [mbind option_bind].
    read_field reads_strings. cbn [mbind option_bind]. read_field reads_int. cbn [mbind option_bind].
    read_field reads_string. cbn [mbind option_bind]. read_field reads_string. cbn [mbind option_bind].
    read_field reads_timeout. by destruct p.
  - destruct Hp as [[Hc He] Ht]. unfold dec_check at 1. cbn [dec_string]. rewrite Hc.
    cbn [mbind option_bind]. read_field reads_int. cbn [mbind option_bind].
    read_field reads_string. cbn [mbind option_bind]. read_field reads_timeout. by destruct p.
  - rewrite (reads_min1 _ Hp). by destruct p.
Qed.

(** Every document that satisfies the rules of the schema is accepted, and
    read back as it was: names in the two patterns, no empty command, path or
    reference, at least one component and one artifact each, integral exit codes
    and statuses, positive timeouts, and no component or probe name twice. *)
Theorem validateBuildYaml_roundtrip `{Zod} y :
  yaml_ok y = true → validateBuildYaml (enc_yaml y) = inr y.
Proof.
  intros Hy. unfold yaml_ok in Hy. rewrite !andb_true_iff in Hy.
  destruct Hy as [[[[Hi Hc] Hp] Hd] Hq].
  unfold validateBuildYaml, BuildYamlSchema, enc_yaml. fields.
  assert (is_one (JInt 1) = Some ()) as -> by reflexivity. cbn [mbind option_bind].
  unfold dec_check. rewrite (reads_array _ _ _ reads_component _ Hc), Hi. cbn [mbind option_bind].
  read_field reads_verification. cbn [mbind option_bind].
  rewrite (reads_opt _ _ _ _ (reads_array _ _ _ reads_probe)) by (by destruct (by_probes y)).
  cbn [mbind option_bind]. rewrite Hd, Hq. by destruct y.
Qed.

(** *** Nothing else is accepted *)

Definition sound {A} (d : decoder A) (p : A → bool) : Prop := ∀ v a, d v = Some a → p a = true.

Lemma sound_check {A} (d : decoder A) p q :
  sound d p → sound (dec_check q d) (λ a, p a && q a).
Proof.
  intros Hd v a. unfold dec_check. destruct (d v) as [b|] eqn:E; [|done].
  destruct (q b) eqn:Eq; [|done]. intros [= <-]. by rewrite (Hd v b E), Eq.
Qed.

Lemma sound_true {A} (d : decoder A) : sound d (λ _, true).
Proof. done. Qed.

Lemma sound_weaken {A} (d : decoder A) (p q : A → bool) :
  sound d p → (∀ a, p a = true → q a = true) → sound d q.
Proof. intros Hd Hpq v a E. by eapply Hpq, Hd. Qed.

Lemma sound_only {A} (d : decoder A) q : sound (dec_check q d) q.
Proof. eapply sound_weaken; [apply sound_check, sound_true|done]. Qed.

Lemma sound_array {A} (d : decoder A) p : sound d p → sound (dec_array d) (forallb p).
Proof.
  intros Hd [] a; try done. simpl. revert a. induction l as [|v l IH]; intros a; simpl.
  { by intros [= <-]. }
  destruct (d v) as [b|] eqn:E; [|done]. destruct (dec_list d l) as [r|]; [|done].
  intros [= <-]. simpl. by rewrite (Hd v b E), IH.
Qed.

Lemma sound_int : sound dec_int num_isInteger.
Proof. intros [] a; try done. simpl. destruct (num_isInteger n) eqn:E; [|done]. by intros [= <-]. Qed.

Lemma sound_req {A} k (d : decoder A) p o a : sound d p → req k d o = Some a → p a = true.
Proof. unfold req. intros Hd. destruct (get_prop k o); [apply Hd|done]. Qed.

Lemma sound_opt {A} k (d : decoder A) p o a : sound d p → opt k d o = Some a → opt_all p a = true.
Proof.
  unfold opt. intros Hd. destruct (get_prop k o) as [v|]; [|by intros [= <-]].
  destruct (d v) eqn:E; [|done]. intros [= <-]. by apply (Hd v).
Qed.

(** Take a decoder of an object apart. *)
Ltac decode H :=
  repeat match type of H with
  | (if ?b then _ else _) = Some _ => destruct b eqn:?; [|done]
  | (?m ≫= _) = Some _ => destruct m eqn:?; [cbn [mbind option_bind] in H|done]
  end; try (injection H as <-).

Lemma sound_step : sound BuildStepSchema (λ b, non_empty (bs_command b)).
Proof.
  intros [] a Ha; try done. cbn in Ha. decode Ha.
  eapply (sound_req "command"); [apply sound_only|done].
Qed.

Lemma sound_by_kind {A} cases (p : A → bool) :
  (∀ c, c ∈ cases → ∀ o a, c.2 o = Some a → p a = true) → sound (by_kind cases) p.
Proof.
  intros Hc [] a Ha; try done. simpl in Ha. repeat (case_match; try done).
  eapply Hc; [|done]. by eapply find_first_Some.
Qed.

Lemma sound_artifact : sound ArtifactSchema artifact_ok.
Proof.
  apply sound_by_kind. intros c Hc o a. rewrite !elem_of_cons, elem_of_nil in Hc.
  destruct Hc as [->|[->|[]]]; cbn [snd]; unfold BlobArtifactSchema, ImageRefArtifactSchema; intros Ha;
    decode Ha; simpl; (eapply sound_req; [apply sound_only|done]).
Qed.

Lemma sound_component : sound ComponentSchema component_ok.
Proof.
  intros [] c Hc; try done. unfold ComponentSchema in Hc. decode Hc. unfold component_ok. simpl.
  rewrite (sound_req "name" _ _ _ _ (sound_only _ _) ltac:(eassumption)).
  rewrite (sound_req "build" _ _ _ _ sound_step ltac:(eassumption)).
  match goal with H : req "artifacts" _ _ = _ |- _ =>
    apply (sound_req _ _ _ _ _ (sound_check _ _ _ (sound_array _ _ sound_artifact))) in H end.
  bool_hyps. rewrite !andb_true_iff. done.
Qed.

Lemma sound_timeout : sound TimeoutSchema timeout_ok.
Proof. apply (sound_check _ _ _ sound_int). Qed.

Lemma sound_probe `{Zod} : sound ProbeSchema probe_ok.
Proof.
  apply sound_by_kind. intros c Hc o a. rewrite !elem_of_cons, elem_of_nil in Hc. unfold probe_ok.
  destruct Hc as [->|[->|[->|[]]]]; cbn [snd];
    unfold CommandProbeSchema, HttpInGuestProbeSchema, FileInGuestProbeSchema; intros Ha; decode Ha;
    cbn [probe_name cp_name hp_name fp_name cp_command cp_expect_exit cp_timeout_ms hp_url
         hp_expect_status hp_timeout_ms fp_path];
    rewrite (sound_req "name" _ _ _ _ (sound_only _ _) ltac:(eassumption)); cbn [andb].
  - rewrite (sound_req "command" _ _ _ _ (sound_only _ _) ltac:(eassumption)).
    rewrite (sound_opt "expect_exit" _ _ _ _ sound_int ltac:(eassumption)).
    by rewrite (sound_opt "timeout_ms" _ _ _ _ sound_timeout ltac:(eassumption)).
  - rewrite (sound_req "url" _ _ _ _ (sound_only _ _) ltac:(eassumption)).
    rewrite (sound_opt "expect_status" _ _ _ _ sound_int ltac:(eassumption)).
    by rewrite (sound_opt "timeout_ms" _ _ _ _ sound_timeout ltac:(eassumption)).
  - by rewrite (sound_req "path" _ _ _ _ (sound_only _ _) ltac:(eassumption)).
Qed.

(** Whatever JSON value is given, an accepted document passes the tests of the schema. *)
Lemma validateBuildYaml_sound `{Zod} raw y :
  validateBuildYaml raw = inr y → yaml_ok y = true.
Proof.
  unfold validateBuildYaml. destruct (BuildYamlSchema raw) as [y'|] eqn:E; [|done]. intros [= ->].
  destruct raw; try done. unfold BuildYamlSchema in E. decode E. bool_hyps.
  unfold yaml_ok. cbn [by_components by_probes].
  match goal with H : req "components" _ _ = _ |- _ =>
    apply (sound_req _ _ _ _ _ (sound_check _ _ _ (sound_array _ _ sound_component))) in H end.
  match goal with H : opt "probes" _ _ = Some ?o |- _ =>
    apply (sound_opt _ _ _ _ _ (sound_array _ _ sound_probe)) in H; destruct o end;
    bool_hyps; cbn [opt_all] in *; repeat (apply andb_true_iff; split); done.
Qed.

(** *** The rules, in words of their own *)

Definition name_letters : list ascii := String.list_ascii_of_string "abcdefghijklmnopqrstuvwxyz".
Definition name_digits : list ascii := String.list_ascii_of_string "0123456789".

(** A lower case letter, then characters of [rest]. *)
Definition named (rest : list ascii) (s : string) : Prop :=
  ∃ c s', s = String c s' ∧ c ∈ name_letters ∧ ∀ d, d ∈ String.list_ascii_of_string s' → d ∈ rest.

Definition whole_number (n : jsnum) : Prop := num_isInteger n = true.
Definition positive_number (n : jsnum) : Prop := whole_number n ∧ num_positive n = true.

Record component_rules (c : BuildComponent) : Prop := {
  cr_name : named (name_letters ++ name_digits ++ ["_"; "-"]%char) (bcm_name c);
  cr_command : bs_command (bcm_build c) ≠ "";
  cr_some : bcm_artifacts c ≠ [];
  cr_artifacts : ∀ a, a ∈ bcm_artifacts c → match a with BlobArtifact path _ => path ≠ "" | ImageRefArtifact ref => ref ≠ "" end
}.

Definition probe_rules `{Zod} (p : Probe) : Prop :=
  named (name_letters ++ name_digits ++ ["_"]%char) (probe_name p) ∧
  match p with
  | PCommand p => cp_command p ≠ "" ∧ (∀ n, cp_expect_exit p = Some n → whole_number n) ∧ (∀ n, cp_timeout_ms p = Some n → positive_number n)
  | PHttpInGuest p => zod_url (hp_url p) = true ∧ (∀ n, hp_expect_status p = Some n → whole_number n) ∧ (∀ n, hp_timeout_ms p = Some n → positive_number n)
  | PFileInGuest p => fp_path p ≠ ""
  end.

(** There is a component, names are unique, and components and probes obey their rules. *)
Record document_rules `{Zod} (y : BuildYaml) : Prop := {
  dr_some : by_components y ≠ [];
  dr_names : NoDup (bcm_name <$> by_components y);
  dr_probe_names : NoDup (probe_name <$> by_probes y ?? []);
  dr_components : ∀ c, c ∈ by_components y → component_rules c;
  dr_probes : ∀ p, p ∈ by_probes y ?? [] → probe_rules p
}.

Lemma no_duplicates_spec l : ∀ seen, no_duplicates seen l = true ↔ NoDup l ∧ ∀ n, n ∈ l → n ∉ seen.
Proof.
  induction l as [|n l IH]; intros seen; cbn [no_duplicates].
  { split; [|done]. intros _. split; [apply NoDup_nil_2|]. by intros n ?%not_elem_of_nil. }
  rewrite andb_true_iff, negb_true_iff, <- not_true_iff_false, existsb_exists, IH, NoDup_cons.
  setoid_rewrite <- list_elem_of_In. setoid_rewrite bool_decide_eq_true. setoid_rewrite elem_of_cons. split.
  - intros (Hs & Hn & Hl). split_and!; [intros Hin; apply (Hl n Hin); by left|done|].
    intros m [->|Hm] Hms; [apply Hs; eauto|]. apply (Hl m Hm). by right.
  - intros ((Hni & Hn) & Hl). split_and!; [intros (m & Hm & ->); apply (Hl n); auto|done|].
    intros m Hm [->|Hs]; [done|]. apply (Hl m); auto.
Qed.

Lemma all_chars_spec p s : all_chars p s = true ↔ ∀ c, c ∈ String.list_ascii_of_string s → p c = true.
Proof.
  induction s as [|d s IH]; cbn; [split; [|done]; by intros _ c ?%not_elem_of_nil|].
  rewrite andb_true_iff, IH. setoid_rewrite elem_of_cons. naive_solver.
Qed.

(** A class of characters and the list of its members. *)
Lemma class_members (p : ascii → bool) (l : list ascii) :
  (∀ b0 b1 b2 b3 b4 b5 b6 b7, let c := Ascii b0 b1 b2 b3 b4 b5 b6 b7 in p c = bool_decide (c ∈ l)) → ∀ c, p c = true ↔ c ∈ l.
Proof. intros Hp [b0 b1 b2 b3 b4 b5 b6 b7]. by rewrite Hp, bool_decide_eq_true. Qed.

Lemma lower_letters c : is_lower c = true ↔ c ∈ name_letters.
Proof. apply class_members. intros [] [] [] [] [] [] [] []; vm_compute; reflexivity. Qed.
Lemma component_chars c : is_lower c || is_digit c || is_underscore c || is_dash c = true ↔ c ∈ name_letters ++ name_digits ++ ["_"; "-"]%char.
Proof. apply (class_members (λ c, is_lower c || is_digit c || is_underscore c || is_dash c)). intros [] [] [] [] [] [] [] []; vm_compute; reflexivity. Qed.
Lemma probe_chars c : is_lower c || is_digit c || is_underscore c = true ↔ c ∈ name_letters ++ name_digits ++ ["_"]%char.
Proof. apply (class_members (λ c, is_lower c || is_digit c || is_underscore c)). intros [] [] [] [] [] [] [] []; vm_compute; reflexivity. Qed.

Lemma matches_named first rest l s : (∀ c, first c = true ↔ c ∈ name_letters) → (∀ c, rest c = true ↔ c ∈ l) → matches_name first rest s = true ↔ named l s.
Proof.
  intros Hf Hr. unfold named. destruct s as [|c s]; cbn; [split; [done|naive_solver]|].
  rewrite andb_true_iff, Hf, all_chars_spec. setoid_rewrite Hr. naive_solver.
Qed.

Lemma non_empty_spec s : non_empty s = true ↔ s ≠ "".
Proof. by destruct s. Qed.
Lemma some_items_spec {A} (l : list A) : some_items l = true ↔ l ≠ [].
Proof. by destruct l. Qed.
Lemma opt_all_spec {A} (p : A → bool) o : opt_all p o = true ↔ ∀ a, o = Some a → p a = true.
Proof. destruct o; cbn; naive_solver. Qed.
Lemma forallb_spec {A} (p : A → bool) l : forallb p l = true ↔ ∀ x, x ∈ l → p x = true.
Proof. rewrite forallb_forall. by setoid_rewrite <- list_elem_of_In. Qed.

Lemma component_rules_spec c : component_ok c = true ↔ component_rules c.
Proof.
  unfold component_ok. rewrite !andb_true_iff, non_empty_spec, some_items_spec, forallb_spec.
  unfold component_name_ok. rewrite (matches_named _ _ _ _ lower_letters component_chars).
  assert (∀ a, artifact_ok a = true ↔ match a with BlobArtifact path _ => path ≠ "" | ImageRefArtifact ref => ref ≠ "" end) as Ha.
  { intros [path ?|ref]; apply non_empty_spec. }
  setoid_rewrite Ha. split; [intros (((? & ?) & ?) & ?); by split|intros []; auto].
Qed.
Lemma probe_rules_spec `{Zod} p : probe_ok p = true ↔ probe_rules p.
Proof.
  unfold probe_ok, probe_rules, probe_name_ok. rewrite andb_true_iff, (matches_named _ _ _ _ lower_letters probe_chars).
  apply Morphisms_Prop.and_iff_morphism; [done|]. assert (∀ n, timeout_ok n = true ↔ positive_number n) as Ht by (intros n; apply andb_true_iff).
  destruct p; rewrite ?andb_true_iff, ?opt_all_spec, ?non_empty_spec; try (setoid_rewrite Ht); tauto.
Qed.

Lemma document_rules_spec `{Zod} y : yaml_ok y = true ↔ document_rules y.
Proof.
  unfold yaml_ok. rewrite !andb_true_iff, some_items_spec, !forallb_spec, !no_duplicates_spec.
  setoid_rewrite component_rules_spec. setoid_rewrite probe_rules_spec. split.
  - intros ((((? & ?) & ?) & [? _]) & [? _]). by split.
  - intros []. split_and!; try done; by intros n _ ?%not_elem_of_nil.
Qed.

(** C40: A build file is accepted exactly when it obeys the rules: a document that is
    read has at least one component, component and probe names that are unique
    and of the right characters, a command and at least one artifact for each
    component, no empty path, reference or command, and whole numbers for status,
    exit code and time-out, the last one positive; and whatever obeys them is read
    back from its own encoding unchanged. *)
Theorem validateBuildYaml_exact `{Zod} y :
  (∀ raw, validateBuildYaml raw = inr y → document_rules y) ∧ (document_rules y → validateBuildYaml (enc_yaml y) = inr y).
Proof.
  split; [intros raw E; apply document_rules_spec; by apply (validateBuildYaml_sound raw)|intros Hy%document_rules_spec; by apply validateBuildYaml_roundtrip].
Qed.

Definition fx_yaml : BuildYaml :=
  mkBuildYaml
    [mkBuildComponent "agent" (mkBuildStep None "cargo" (Some ["build"; "--release"]) None)
       [BlobArtifact "target/agent-${TAG}.exe" None; ImageRefArtifact "registry.invalid/agent"]]
    (Some (mkBuildVerification (Some ["smoke-1"]) None None))
    (Some [PHttpInGuest (mkHttpInGuestProbe "health" "http://localhost/health" (Some (num_of_Z 200))
             None None);
           PFileInGuest (mkFileInGuestProbe "installed" "C:/agent/agent.exe")]).

Lemma validateBuildYaml_roundtrip_witness : validateBuildYaml (enc_yaml fx_yaml) = inr fx_yaml.
Proof. apply (validateBuildYaml_roundtrip fx_yaml). by vm_compute. Defined.

