(* ===== verification/ProbesSpec.v ===== *)
(** What the probe runner guarantees: every probe yields a verdict, the verdict
    of a command probe, and the quoting of URLs in the PowerShell script. *)

From S2P Require Import Prelude JsTime JsVal Types World Logic BuildYaml Probes Promotion.

(** ** Probes never throw *)

Section probes.
Context {X : Type} `{Oracle} `{JsEngine} `{DeployBackend X}.

Lemma evaluateMatchers_ok name start r e so se (w : World X) :
  ∃ p w', evaluateMatchers name start r e so se w = (Ok p, w') ∧ pr_name p = name ∧
    (pr_status p = HS_pass ↔
       SFeqb (ex_exitCode r) e = true ∧ unmatched (ex_stdout r) so = false ∧
       unmatched (ex_stderr r) se = false) ∧
    (pr_status p = HS_pass ∨ pr_status p = HS_fail).
Proof.
  unfold evaluateMatchers. rewrite (bind_ok _ _ w (clock (w_clock w)) (ticked w)) by exact eq_refl.
  cbv beta zeta. destruct (SFeqb _ _), (unmatched _ so), (unmatched _ se); cbn [negb];
    do 2 eexists; (split; [reflexivity|]); cbn [pr_name pr_status]; naive_solver.
Qed.

(** A result that is a pass or a fail under the probe's own name. *)
Definition settled (name : string) (r : Res ProbeResult) : Prop :=
  match r with
  | Ok p => pr_name p = name ∧ (pr_status p = HS_pass ∨ pr_status p = HS_fail)
  | Throw _ => True
  end.

Lemma probe_result_settled name s start d (w : World X) :
  s = HS_pass ∨ s = HS_fail → settled name (probe_result name s start d w).1.
Proof. by intros Hs. Qed.

Lemma kind_settled probe handle start (w : World X) :
  settled (probe_name probe)
    ((match probe with
      | PCommand p => runCommandProbe handle p start
      | PHttpInGuest p => runHttpProbe handle p start
      | PFileInGuest p => runFileProbe handle p start
      end) w).1.
Proof.
  destruct probe as [p|p|p]; cbn [probe_name].
  - unfold runCommandProbe. rewrite bind_eq. destruct (external _ w) as [[r|e] w1]; [|done].
    destruct (evaluateMatchers_ok (cp_name p) start r (cp_expect_exit p ?? S754_zero false)
      (cp_expect_stdout_contains p) (cp_expect_stderr_contains p) w1) as (q & w2 & -> & Hn & _ & Hs).
    done.
  - unfold runHttpProbe. rewrite bind_eq. destruct (external _ w) as [[r|e] w1]; [|done].
    destruct (negb _); [apply probe_result_settled; auto|].
    destruct (parseInt10 _); [|apply probe_result_settled; auto].
    destruct (negb _); [apply probe_result_settled; auto|].
    destruct (unmatched _ _); apply probe_result_settled; auto.
  - unfold runFileProbe. destruct (str_includes _ _); [apply probe_result_settled; auto|].
    rewrite bind_eq. destruct (external _ w) as [[r|e] w1]; [|done].
    apply probe_result_settled. destruct (SFeqb _ _); auto.
Qed.

Lemma runProbe_settles probe handle (w : World X) :
  ∃ p w', runProbe probe handle w = (Ok p, w') ∧ pr_name p = probe_name probe ∧
    (pr_status p = HS_pass ∨ pr_status p = HS_fail).
Proof.
  unfold runProbe. rewrite (bind_ok _ _ w (clock (w_clock w)) (ticked w)) by exact eq_refl.
  unfold try_catch. pose proof (kind_settled probe handle (clock (w_clock w)) (ticked w)) as Hk.
  set (m := match probe with PCommand _ => _ | PHttpInGuest _ => _ | PFileInGuest _ => _ end) in *.
  destruct (m (ticked w)) as [[p|e] w1]; simpl in Hk.
  - exists p, w1. split; [done|]. exact Hk.
  - do 2 eexists. split; [reflexivity|]. simpl. auto.
Qed.

(** One result per probe, in order. *)
Lemma runProbes_settle probes handle (w : World X) :
  ∃ rs w', runProbes probes handle w = (Ok rs, w') ∧ map pr_name rs = map probe_name probes ∧
    Forall (λ r, pr_status r = HS_pass ∨ pr_status r = HS_fail) rs.
Proof.
  unfold runProbes. revert w. induction probes as [|p ps IH]; intros w; cbn [for_collect map].
  - exists [], w. split_and!; [done..|constructor].
  - destruct (runProbe_settles p handle w) as (r & w1 & E1 & Hn & Hs).
    destruct (IH w1) as (rs & w2 & E2 & Hns & Hss). exists (r :: rs), w2.
    rewrite (bind_ok _ _ _ _ _ E1), (bind_ok _ _ _ _ _ E2). cbn [map].
    split_and!; [done|by rewrite Hn, Hns|by constructor].
Qed.

(** Running the declared probes never throws, whatever the guest or the
    backend does: there is one result per probe, in declaration order, under its
    name, and each is a pass or a fail. *)
Theorem runProbes_total probes handle (w : World X) :
  ∃ rs w', runProbes probes handle w = (Ok rs, w') ∧ map pr_name rs = map probe_name probes ∧
    Forall (λ r, pr_status r = HS_pass ∨ pr_status r = HS_fail) rs.
Proof. apply runProbes_settle. Qed.

(** A command probe passes exactly when the command ran, its exit code is the
    expected one, and each expected text that was given is contained in the
    stream it is for. *)
Theorem command_probe_passes_iff p handle (w : World X) :
  ∃ r w', runProbe (PCommand p) handle w = (Ok r, w') ∧
    (pr_status r = HS_pass ↔
     ∃ res x', executeInGuest handle (cp_command p) (cp_args p) (cp_timeout_ms p ?? DEFAULT_TIMEOUT_MS)
                 (w_ext w) = (Ok res, x') ∧
       SFeqb (ex_exitCode res) (cp_expect_exit p ?? S754_zero false) = true ∧
       unmatched (ex_stdout res) (cp_expect_stdout_contains p) = false ∧
       unmatched (ex_stderr res) (cp_expect_stderr_contains p) = false).
Proof.
  unfold runProbe. rewrite (bind_ok _ _ w (clock (w_clock w)) (ticked w)) by exact eq_refl.
  unfold try_catch, runCommandProbe. rewrite bind_eq. unfold external at 1. cbn [w_ext ticked].
  destruct (executeInGuest _ _ _ _ (w_ext w)) as [[res|e] x'].
  - match goal with |- context [evaluateMatchers _ _ _ _ _ _ ?w1] =>
      destruct (evaluateMatchers_ok (cp_name p) (clock (w_clock w)) res (cp_expect_exit p ?? S754_zero false)
        (cp_expect_stdout_contains p) (cp_expect_stderr_contains p) w1) as (r & w2 & E & _ & Hs & _) end.
    rewrite E. do 2 eexists. split; [reflexivity|]. rewrite Hs. naive_solver.
  - do 2 eexists. split; [reflexivity|]. simpl. naive_solver.
Qed.
End probes.

(** A reader of PowerShell single-quoted texts: the text and what follows. *)
Fixpoint ps_body (s : string) : option (string * string) :=
  match s with
  | EmptyString => None
  | String c s' =>
    if bool_decide (c = squote) then
      match s' with
      | String c2 s2 =>
        if bool_decide (c2 = squote)
        then match ps_body s2 with Some (t, r) => Some (String squote t, r) | None => None end
        else Some ("", s')
      | EmptyString => Some ("", "")
      end
    else match ps_body s' with Some (t, r) => Some (String c t, r) | None => None end
  end.

Definition ps_read (s : string) : option (string * string) :=
  match s with String c s' => if bool_decide (c = squote) then ps_body s' else None | _ => None end.

Definition starts_squote (s : string) : bool :=
  match s with String c _ => bool_decide (c = squote) | EmptyString => false end.

Lemma ps_body_double s rest :
  starts_squote rest = false →
  ps_body (double_squotes s +:+ String squote rest) = Some (s, rest).
Proof.
  intros Hr. induction s as [|c s IH].
  - cbn [double_squotes]. change ("" +:+ ?x) with x. cbn [ps_body].
    rewrite bool_decide_eq_true_2 by done. destruct rest as [|c r]; [done|].
    simpl in Hr. by rewrite Hr.
  - cbn [double_squotes]. destruct (bool_decide_reflect (c = squote)) as [->|Hne].
    + rewrite !str_app_cons. cbn [ps_body]. rewrite !bool_decide_eq_true_2 by done. by rewrite IH.
    + rewrite str_app_cons. cbn [ps_body]. rewrite bool_decide_eq_false_2 by done. by rewrite IH.
Qed.

(** A probe URL cannot break out of the PowerShell script: whatever characters
    it holds, the quoted text reads back as that URL, and the reader stops where
    the rest of the script begins. *)
Theorem quotePs_roundtrip s rest :
  starts_squote rest = false → ps_read (quotePs s +:+ rest) = Some (s, rest).
Proof.
  intros Hr. unfold quotePs. rewrite str_app_cons. cbn [ps_read].
  rewrite bool_decide_eq_true_2 by done. rewrite <- str_app_assoc. by apply ps_body_double.
Qed.

Lemma quotePs_roundtrip_witness :
  ps_read (quotePs "http://h/'; Remove-Item C:/ '" +:+ " -TimeoutSec 30") =
  Some ("http://h/'; Remove-Item C:/ '", " -TimeoutSec 30").
Proof. apply (quotePs_roundtrip "http://h/'; Remove-Item C:/ '" " -TimeoutSec 30"). reflexivity. Defined.
