(* ===== verification/DeploySpec.v ===== *)
(** What a deploy guarantees: a successful one leaves exactly one active
    deployment on the target, a failed one leaves the previous deployment
    active and the guest's disk as it was. *)

From stdpp Require Import pretty.
From S2P Require Import Prelude JsTime JsVal Types World Logic StorageCatalog StorageDeploy.
From S2P Require Import StorageOps BuildYaml Probes Deploy CloudTypes Budget Cloud Events.
From S2P Require Import Promotion Fixture StorageSpec.

(** An active deployment of a target. *)
Definition active_on (tid : string) (r : Deployment) : bool :=
  (dep_targetId r =?s tid) && bool_decide (dep_status r = DS_active) && is_null (dep_deletedAt r).

(** ** Rows of the deployment table *)

Section rows.
Context {X : Type} `{Oracle}.

Definition deployment_updated (patch : DeploymentPatch) (e : Deployment) (w : World X) : World X :=
  mkWorld (tset T_deployment (update_where (λ r, dep_id r =?s dep_id e)
             (deployment_set patch e (toISOString (clock (w_clock w)))) (db_deployment (w_db w))) (w_db w))
    (S (w_clock w)) (w_ids w) (w_ext w).

(** An update of a live row succeeds unless it makes a second one active. *)
Lemma DeploymentRepo_update_run patch e (w : World X) :
  db_ok (w_db w) → e ∈ db_deployment (w_db w) → dep_deletedAt e = None →
  (dp_status patch ?? dep_status e = DS_active →
   ∀ r, r ∈ db_deployment (w_db w) → active_on (dep_targetId e) r = true → dep_id r = dep_id e) →
  DeploymentRepo_update (dep_id e) patch w =
    (Ok (deployment_set patch e (toISOString (clock (w_clock w))) e), deployment_updated patch e w).
Proof.
  intros Hd He Hl Ha. unfold DeploymentRepo_update.
  rewrite (bind_ok _ _ _ _ _ (DeploymentRepo_get_run _ e w eq_refl Hd He Hl)). cbv beta iota.
  rewrite (bind_ok _ _ w (toISOString (clock (w_clock w))) (ticked w)) by exact eq_refl. cbv beta.
  erewrite bind_ok; [|eapply (db_update_one T_deployment _ _ e); simpl; try done].
  - done.
  - by rewrite bool_decide_eq_true_2.
  - intros r _. rewrite bool_decide_eq_true. split; [by intros ->|congruence].
  - by apply (Hd T_deployment).
  - intros r k Hr Hp Ek Er. apply bool_decide_eq_false in Hp.
    destruct (bool_decide_reflect (dp_status patch ?? dep_status e = DS_active)) as [Ea|]; [|done].
    destruct (bool_decide (dep_status r = DS_active)) eqn:Es; [|done].
    rewrite Hl in Ek. destruct (dep_deletedAt r) eqn:Er'; [done|]. simplify_eq.
    apply Hp, (Ha Ea r Hr). unfold active_on. rewrite Es, Er', bool_decide_eq_true_2 by congruence. done.
Qed.

(** The row after its own update, and the others. *)
Lemma update_self patch (e : Deployment) now l :
  e ∈ l → deployment_set patch e now e ∈ update_where (λ r, dep_id r =?s dep_id e) (deployment_set patch e now) l.
Proof.
  intros He. apply update_where_elem. left. exists e. split_and!; [done| |done].
  by rewrite bool_decide_eq_true_2.
Qed.

Lemma update_other f (x e : Deployment) l :
  x ∈ l → dep_id x ≠ dep_id e → x ∈ update_where (λ r, dep_id r =?s dep_id e) f l.
Proof. intros. apply update_where_elem. right. split; [done|]. by rewrite bool_decide_eq_false_2. Qed.
End rows.

(** ** A deploy in flight *)

Section flight.
Context {X : Type} `{Oracle} (fresh_inj : ∀ m n, fresh_id m = fresh_id n → m = n).
Context (prev : option Deployment) (nid tid rid orgId : string) (orgs : list Org) (E : X → Prop).

(** The new row is there; the previous deployment, if any, is still the one
    active on the target. *)
Definition flight (l : list Deployment) : Prop :=
  (∃ n, n ∈ l ∧ dep_id n = nid ∧ dep_targetId n = tid ∧ dep_releaseId n = rid ∧
        dep_deletedAt n = None) ∧
  (∀ p, prev = Some p → p ∈ l ∧ active_on tid p = true ∧ dep_id p ≠ nid) ∧
  (∀ r, r ∈ l → active_on tid r = true → prev = Some r).

(** No later identifier is taken in the audit log. *)
Definition audit_fresh (w : World X) : Prop :=
  ∀ x n, x ∈ db_audit_log (w_db w) → (w_ids w ≤ n)%nat → al_id x ≠ fresh_id n.

Record in_flight (w : World X) : Prop := mk_in_flight {
  if_ok : db_ok (w_db w);
  if_rows : flight (db_deployment (w_db w));
  if_orgs : db_org (w_db w) = orgs;
  if_audit : audit_fresh w;
  if_ext : E (w_ext w)
}.

Lemma in_flight_ticked w : in_flight w → in_flight (ticked w).
Proof. by intros []. Qed.

Lemma in_flight_nowIso : preserves in_flight nowIso.
Proof. intros w Hw. apply (in_flight_ticked w Hw). Qed.

Lemma in_flight_nowDate : preserves in_flight nowDate.
Proof. intros w Hw. apply (in_flight_ticked w Hw). Qed.

Lemma in_flight_newId : preserves in_flight newId.
Proof. intros w []. split; try done. intros x n Hx Hn. simpl in Hn. apply if_audit0; [done|lia]. Qed.

Lemma in_flight_external {A} (f : X → Res A * X) :
  (∀ x, E x → E (f x).2) → preserves in_flight (external f).
Proof.
  intros Hf w []. specialize (Hf _ if_ext0). unfold external. destruct (f (w_ext w)) as [r x]. by split.
Qed.

Lemma in_flight_insert T r :
  T ≠ T_deployment → T ≠ T_org → T ≠ T_audit_log → preserves in_flight (db_insert (X:=X) T r).
Proof.
  intros H1 H2 H3 w []. pose proof (preserves_db_insert T r w if_ok0) as Hok.
  destruct (db_insert T r w) as [[[]|e] w'] eqn:Ei.
  - apply db_insert_inv in Ei as [-> _]. unfold on_db in Hok. cbn [snd] in Hok |- *.
    split; [done|..|done].
    + change (flight (tget T_deployment (tset T (tget T (w_db w) ++ [r]) (w_db w)))).
      by rewrite tget_tset_ne.
    + change (tget T_org (tset T (tget T (w_db w) ++ [r]) (w_db w)) = orgs). by rewrite tget_tset_ne.
    + intros x n Hx. apply if_audit0.
      change (x ∈ tget T_audit_log (tset T (tget T (w_db w) ++ [r]) (w_db w))) in Hx.
      by rewrite tget_tset_ne in Hx.
  - by apply db_insert_throw in Ei as [-> _].
Qed.

Lemma in_flight_check d p s l t : preserves in_flight (HealthCheckRepo_append d p s l t).
Proof.
  unfold HealthCheckRepo_append. apply preserves_bind; [apply in_flight_nowIso|]. intros now.
  apply preserves_bind; [apply in_flight_newId|]. intros id.
  apply preserves_bind; [|intros; apply preserves_ret]. by apply in_flight_insert.
Qed.

(** The audit log takes every entry. *)
Lemma audit_run actor action ty en detail w :
  db_ok (w_db w) → audit_fresh w → has_key T_org orgId (w_db w) = true →
  ∃ row w', AuditLogRepo_append orgId actor action ty en detail w = (Ok row, w') ∧
    db_ok (w_db w') ∧ audit_fresh w' ∧ w_ext w' = w_ext w ∧
    w_db w' = tset T_audit_log (db_audit_log (w_db w) ++ [row]) (w_db w).
Proof.
  intros Hd Hf Ho. unfold AuditLogRepo_append.
  rewrite (bind_ok _ _ w (toISOString (clock (w_clock w))) (ticked w)) by exact eq_refl. cbv beta.
  rewrite (bind_ok _ _ (ticked w) (fresh_id (w_ids w))
    (mkWorld (w_db w) (S (w_clock w)) (S (w_ids w)) (w_ext w))) by exact eq_refl. cbv beta zeta.
  set (w1 := mkWorld _ _ _ _). set (row := mkAuditLogEntry _ _ _ _ _ _ _ _ _).
  assert (Hn : ∀ x, x ∈ tget T_audit_log (w_db w1) → row_clash T_audit_log row x = false).
  { intros x Hx. apply row_clash_false; [|done]. simpl. intros [= Hid].
    by apply (Hf x (w_ids w) Hx). }
  pose proof (preserves_db_insert T_audit_log row w1 Hd) as Hok.
  pose proof (db_insert_succeeds T_audit_log row w1 eq_refl ltac:(simpl; exact Ho) Hn) as Ei.
  rewrite Ei in Hok. rewrite (bind_ok _ _ _ _ _ Ei). do 2 eexists. split; [reflexivity|].
  split_and!; [exact Hok| |done|done]. intros x n Hx Hle. simpl in Hx, Hle.
  apply elem_of_app in Hx as [Hx|Hx%list_elem_of_singleton].
  - apply Hf; [done|lia].
  - subst x. simpl. intros Heq%fresh_inj. lia.
Qed.

Lemma in_flight_audit actor action ty en detail w :
  has_key T_org orgId (w_db w) = true → in_flight w →
  ∃ row w', AuditLogRepo_append orgId actor action ty en detail w = (Ok row, w') ∧ in_flight w' ∧
    db_deployment (w_db w') = db_deployment (w_db w) ∧ w_ext w' = w_ext w.
Proof.
  intros Ho [].
  destruct (audit_run actor action ty en detail w if_ok0 if_audit0 Ho)
    as (row & w' & Er & Hok & Hf & Hx & Hdb).
  exists row, w'. split_and!; [done| |by rewrite Hdb|done].
  split; try done; rewrite ?Hdb; try done. by rewrite Hx.
Qed.

(** Updating the new row, short of making it active, keeps it in flight. *)
Lemma in_flight_update patch st w :
  dp_status patch = Some st → st ≠ DS_active → in_flight w →
  ∃ n w', DeploymentRepo_update nid patch w = (Ok n, w') ∧ in_flight w' ∧ w_ext w' = w_ext w ∧
    dep_status n = st ∧ n ∈ db_deployment (w_db w') ∧ dep_id n = nid.
Proof.
  intros Hp Hst []. pose proof if_rows0 as ((n & Hn & Hid & Ht & Hr & Hl) & Hprev & Hact).
  pose proof (DeploymentRepo_update_ok (dep_id n) patch w if_ok0) as Hok. rewrite <- Hid.
  rewrite (DeploymentRepo_update_run patch n w) in Hok |- *
    by first [done|rewrite Hp; intros ->; by destruct Hst].
  unfold on_db in Hok. cbn [snd] in Hok. set (now := toISOString _) in *.
  assert (Hself := update_self patch n now _ Hn).
  do 2 eexists. split; [reflexivity|]. split_and!; [|done|by simpl; rewrite Hp|exact Hself|done].
  split; try done. cbn [deployment_updated w_db db_deployment tset]. split_and!.
  - eexists. split; [exact Hself|]. done.
  - intros p Hpv. destruct (Hprev p Hpv) as (Hin & Ha & Hne). split; [by apply update_other; rewrite ?Hid|done].
  - intros r Hr' Ha. apply update_where_elem in Hr' as [(y & Hy & _ & ->)|[Hy _]]; [|by apply Hact].
    exfalso. revert Ha. unfold active_on. simpl. rewrite Hp.
    rewrite (bool_decide_eq_false_2 (st = DS_active)) by done. by rewrite andb_false_r.
Qed.

(** *** Promotion *)

(** The new deployment is the only active one; the previous is superseded. *)
Record landed (n : Deployment) (w : World X) : Prop := mk_landed {
  ld_ok : db_ok (w_db w);
  ld_orgs : db_org (w_db w) = orgs;
  ld_audit : audit_fresh w;
  ld_ext : E (w_ext w);
  ld_row : n ∈ db_deployment (w_db w) ∧ active_on tid n = true ∧ dep_id n = nid ∧
           dep_releaseId n = rid;
  ld_only : ∀ r, r ∈ db_deployment (w_db w) → active_on tid r = true → r = n;
  ld_prev : ∀ p, prev = Some p →
    ∃ q, q ∈ db_deployment (w_db w) ∧ dep_id q = dep_id p ∧ dep_status q = DS_superseded
}.

Lemma active_on_inv t r :
  active_on t r = true → dep_targetId r = t ∧ dep_status r = DS_active ∧ dep_deletedAt r = None.
Proof. unfold active_on. intros ?. bool_hyps. by destruct (dep_deletedAt r). Qed.

Lemma update_not_active patch e now l t r st :
  dp_status patch = Some st → st ≠ DS_active →
  r ∈ update_where (λ r, dep_id r =?s dep_id e) (deployment_set patch e now) l →
  active_on t r = true → r ∈ l ∧ dep_id r ≠ dep_id e.
Proof.
  intros Hp Hst Hr Ha. apply update_where_elem in Hr as [(y & Hy & _ & ->)|[Hy Hn]].
  - apply active_on_inv in Ha as (_ & Ha & _). simpl in Ha. rewrite Hp in Ha. by subst.
  - split; [done|]. by apply bool_decide_eq_false in Hn.
Qed.

(** Making the new row active, once nothing else is. *)
Record clear (n : Deployment) (w : World X) : Prop := mk_clear {
  cl_ok : db_ok (w_db w);
  cl_row : n ∈ db_deployment (w_db w) ∧ dep_id n = nid ∧ dep_targetId n = tid ∧ dep_releaseId n = rid ∧
           dep_deletedAt n = None;
  cl_none : ∀ r, r ∈ db_deployment (w_db w) → active_on tid r = true → dep_id r = nid;
  cl_orgs : db_org (w_db w) = orgs;
  cl_audit : audit_fresh w;
  cl_ext : E (w_ext w);
  cl_prev : ∀ p, prev = Some p → dep_id p ≠ nid ∧
     ∃ q, q ∈ db_deployment (w_db w) ∧ dep_id q = dep_id p ∧ dep_status q = DS_superseded
}.

Lemma activate_at at_ hs w n :
  clear n w →
  ∃ n' w', DeploymentRepo_update nid
       (mkDeploymentPatch (Some DS_active) None (Some at_) (Some (Some hs))) w = (Ok n', w') ∧
    landed n' w'.
Proof.
  intros [Hd (Hn & <- & Ht & Hr & Hl) Ha Ho Hf Hx Hp]. set (patch := mkDeploymentPatch _ _ _ _).
  pose proof (DeploymentRepo_update_ok (dep_id n) patch w Hd) as Hok.
  assert (Hrun := DeploymentRepo_update_run patch n w Hd Hn Hl
    ltac:(intros _ r Hr' Ha'; rewrite Ht in Ha'; by apply Ha)).
  rewrite Hrun in Hok |- *. set (now := toISOString (clock (w_clock w))) in *.
  assert (Hself := update_self patch n now _ Hn).
  do 2 eexists. split; [reflexivity|]. split; try done.
  - split_and!; [exact Hself| |done|done]. unfold active_on. simpl.
    rewrite Hl, bool_decide_eq_true_2 by done. done.
  - intros r Hr' Ha'. apply update_where_elem in Hr' as [(y & Hy & Hy' & ->)|[Hy Hn']].
    + apply bool_decide_eq_true in Hy'. by rewrite (deployments_pkey (w_db w) y n).
    + apply bool_decide_eq_false in Hn'. by destruct Hn'; apply Ha.
  - intros p Hp'. destruct (Hp p Hp') as (Hne & q & Hq & Hqid & Hqs). exists q. split; [|done].
    apply update_other; [done|]. by rewrite Hqid.
Qed.

(** The first statement of [promote] and [promote_at]. *)
Definition supersede : M X unit :=
  match prev with
  | Some p =>
    DeploymentRepo_update (dep_id p) (mkDeploymentPatch (Some DS_superseded) None None None);; mret ()
  | None => mret ()
  end.

Lemma supersede_run w : in_flight w → ∃ n w', supersede w = (Ok (), w') ∧ clear n w'.
Proof.
  intros []. pose proof if_rows0 as ((n & Hn & Hid & Ht & Hr & Hl) & Hprev & Hact). exists n.
  unfold supersede. destruct prev as [p|] eqn:Epv.
  - destruct (Hprev p eq_refl) as (Hp & Hpa & Hpn). apply active_on_inv in Hpa as (Hpt & Hps & Hpl).
    set (patch := mkDeploymentPatch _ _ _ _).
    pose proof (DeploymentRepo_update_ok (dep_id p) patch w if_ok0) as Hok.
    assert (Hrun := DeploymentRepo_update_run patch p w if_ok0 Hp Hpl ltac:(done)).
    rewrite Hrun in Hok. set (now := toISOString (clock (w_clock w))) in *.
    exists (deployment_updated patch p w). split; [by rewrite (bind_ok _ _ _ _ _ Hrun)|]. split; try done.
    + split_and!; try done. apply update_other; congruence.
    + intros r Hr' Ha. exfalso. apply (update_not_active _ _ _ _ tid _ DS_superseded) in Hr' as [Hr' Hne]; [|done..].
      specialize (Hact r Hr' Ha) as [= ->]. done.
    + intros p' Hp'. assert (p' = p) as -> by congruence. split; [done|]. eexists. split; [apply (update_self patch p now); done|]. done.
  - exists w. split; [done|]. split; try done.
    + intros r Hr' Ha. by specialize (Hact r Hr' Ha).
    + congruence.
Qed.

Lemma promote_run hs w :
  in_flight w → ∃ n w', promote prev nid hs w = (Ok n, w') ∧ landed n w'.
Proof.
  intros Hw. destruct (supersede_run w Hw) as (n & w1 & Es & Hc). unfold promote. fold supersede.
  rewrite (bind_ok _ _ _ _ _ Es).
  rewrite (bind_ok _ _ w1 (toISOString (clock (w_clock w1))) (ticked w1)) by exact eq_refl.
  apply (activate_at _ hs _ n). by destruct Hc.
Qed.

(** *** Staging and probing *)

Context `{JsEngine} `{Zod} `{DeployBackend X} `{DeployHost X}.

(** What staging and probing do to the outside keeps [E]. *)
Record undisturbed : Prop := mk_undisturbed {
  und_blob : ∀ u x, E x → E (blobs_get u x).2;
  und_random : ∀ x, E x → E (random_hex8 x).2;
  und_write : ∀ p c x, E x → E (host_write p c x).2;
  und_unlink : ∀ p x, E x → E (host_unlink p x).2;
  und_copy : ∀ h a b x, E x → E (copyFileToVM h a b x).2;
  und_reach : ∀ h x, E x → E (isVmReachable h x).2;
  und_exec : ∀ h c a t x, E x → E (executeInGuest h c a t x).2
}.

Context (Hund : undisturbed).

Lemma in_flight_swallow {A} (m : M X A) : preserves in_flight m → preserves in_flight (swallow m).
Proof.
  intros Hm. apply preserves_try; [|intros; apply preserves_ret].
  apply preserves_bind; [done|]. intros; apply preserves_ret.
Qed.

Lemma in_flight_stage_tmp tmp c h g : preserves in_flight (stage_tmp tmp c h g).
Proof.
  unfold stage_tmp, try_finally. apply preserves_bind.
  - apply preserves_try; [|intros; apply preserves_ret].
    apply preserves_bind; [|intros; apply preserves_ret].
    apply preserves_bind; [|intros _]; apply in_flight_external, Hund.
  - intros r. apply preserves_bind; [|intros _; destruct r; auto with preserve].
    apply in_flight_swallow, in_flight_external, Hund.
Qed.

Lemma in_flight_stage_artifact dir h a : preserves in_flight (stage_artifact dir h a).
Proof.
  unfold stage_artifact, stageBlobInto. destruct (bool_decide _); [|apply preserves_ret].
  destruct (truthy _); [|apply preserves_throw].
  apply preserves_bind; [apply in_flight_external, Hund|]. intros stream.
  apply preserves_bind; [apply in_flight_external, Hund|]. intros hex. apply in_flight_stage_tmp.
Qed.

Lemma in_flight_probe_result n s st d : preserves in_flight (probe_result n s st d).
Proof. apply preserves_bind; [apply in_flight_nowDate|]. intros; apply preserves_ret. Qed.

Lemma in_flight_probe p h : preserves in_flight (runProbe p h).
Proof.
  pose proof in_flight_probe_result as Hr. unfold runProbe.
  apply preserves_bind; [apply in_flight_nowDate|]. intros start.
  apply preserves_try; [|intros; apply Hr].
  destruct p as [p|p|p].
  - unfold runCommandProbe. apply preserves_bind; [apply in_flight_external, Hund|]. intros r.
    unfold evaluateMatchers. apply preserves_bind; [apply in_flight_nowDate|]. intros now.
    repeat case_match; apply preserves_ret.
  - unfold runHttpProbe. apply preserves_bind; [apply in_flight_external, Hund|]. intros r.
    repeat case_match; apply Hr.
  - unfold runFileProbe. case_match; [apply Hr|].
    apply preserves_bind; [apply in_flight_external, Hund|]. intros r. apply Hr.
Qed.

Lemma in_flight_stage rel tg arts h root :
  preserves in_flight (stage_and_probe rel tg arts nid h root).
Proof.
  unfold stage_and_probe. apply preserves_bind.
  { apply preserves_for_each. intros; apply in_flight_stage_artifact. }
  intros _. apply preserves_bind.
  { unfold stageStringInto. apply preserves_bind; [apply in_flight_external, Hund|].
    intros; apply in_flight_stage_tmp. }
  intros _. apply preserves_bind; [apply in_flight_external, Hund|]. intros [reachable detail].
  apply preserves_bind; [apply in_flight_check|]. intros _.
  destruct reachable; [|apply preserves_throw]. cbn [negb].
  apply preserves_bind; [apply preserves_for_collect; intros; apply in_flight_probe|]. intros rs.
  apply preserves_bind.
  { apply preserves_for_each. intros r. apply preserves_bind; [apply in_flight_check|].
    intros; apply preserves_ret. }
  intros _. apply preserves_bind; [apply in_flight_nowIso|]. intros now.
  case_match; auto with preserve.
Qed.

(** A summary is only returned when no check failed. *)
Lemma stage_and_probe_healthy rel tg arts h root w hs w' :
  stage_and_probe rel tg arts nid h root w = (Ok hs, w') → hsum_fail hs = 0.
Proof.
  unfold stage_and_probe. intros (? & ? & _ & Hm)%bind_inv_ok.
  apply bind_inv_ok in Hm as (? & ? & _ & Hm). apply bind_inv_ok in Hm as ([reach det] & ? & _ & Hm).
  apply bind_inv_ok in Hm as (? & ? & _ & Hm). destruct reach; cbn [negb] in Hm; [|done].
  apply bind_inv_ok in Hm as (rs & ? & _ & Hm). apply bind_inv_ok in Hm as (? & ? & _ & Hm).
  apply bind_inv_ok in Hm as (now & ? & _ & Hm). cbv zeta in Hm.
  destruct (Z.ltb_spec 0 (count_status HS_fail (HS_pass :: map pr_status rs))); [done|].
  injection Hm as <- _. unfold hsum_fail. unfold count_status in *. lia.
Qed.

(** *** The body and its handler *)

Definition org_known (w : World X) : Prop := has_key T_org orgId (w_db w) = true.

Lemma org_known_orgs (w1 w2 : World X) : db_org (w_db w1) = db_org (w_db w2) → org_known w1 → org_known w2.
Proof. unfold org_known, has_key. simpl. by intros ->. Qed.

Lemma deploy_body_cases actor rel tg arts h c root w :
  in_flight w → org_known w →
  let r := deploy_body orgId actor rel tg arts prev nid h c root w in
  (∃ res w', r = (Ok res, w') ∧ hsum_fail (rd_healthSummary res) = 0 ∧
     ∃ w1, landed (rd_deployment res) w1 ∧ db_deployment (w_db w') = db_deployment (w_db w1) ∧
       db_ok (w_db w')) ∨
  (∃ e w', r = (Throw e, w') ∧ in_flight w') ∨
  (∃ e w' x, r = (Throw e, w') ∧ E x ∧ deleteCheckpoint c x = (Throw e, w_ext w') ∧
     ∃ n, landed n (mkWorld (w_db w') (w_clock w') (w_ids w') x)).
Proof.
  intros Hw Ho r. subst r. unfold deploy_body. rewrite bind_eq.
  pose proof (in_flight_stage rel tg arts h root w Hw) as Hs.
  destruct (stage_and_probe rel tg arts nid h root w) as [[hs|e] w1] eqn:Es;
    cbn [snd] in Hs; [|right; left; by eauto].
  apply stage_and_probe_healthy in Es.
  assert (Ho1 : org_known w1).
  { apply (org_known_orgs w w1); [|done]. by rewrite (if_orgs _ Hs), (if_orgs _ Hw). }
  destruct (promote_run hs w1 Hs) as (n & w2 & Ep & Hn). rewrite (bind_ok _ _ _ _ _ Ep).
  rewrite bind_eq. unfold external. destruct (deleteCheckpoint c (w_ext w2)) as [[[]|e] x'] eqn:Ed.
  - left.
    destruct (audit_run actor "release.deploy.completed" "deployment" nid
      (Some ([("releaseId", JStr (rel_id rel)); ("targetId", JStr (tg_id tg))]
             ++ opt_prop "supersededId" (option_map (λ p, JStr (dep_id p)) prev)))
      (mkWorld (w_db w2) (w_clock w2) (w_ids w2) x')) as (row & w3 & Ea & Hok & _ & _ & Hdb).
    + by destruct Hn.
    + by destruct Hn.
    + apply (org_known_orgs w1); [|done]. by rewrite (if_orgs _ Hs), <- (ld_orgs _ _ Hn).
    + rewrite (bind_ok _ _ _ _ _ Ea). do 2 eexists. split; [reflexivity|]. split; [done|].
      exists w2. split_and!; [done| |done]. by rewrite Hdb.
  - right. right. exists e. do 2 eexists. split; [reflexivity|]. cbn [w_db w_clock w_ids w_ext].
    split_and!; [by apply Hn|exact Ed|]. exists n. by destruct w2.
Qed.
End flight.

(** ** From the call to the body *)

Section prologue.
Context {X : Type} `{Oracle} `{JsEngine} `{Zod} `{DeployBackend X} `{DeployHost X}.
Context (fresh_inj : ∀ m n, fresh_id m = fresh_id n → m = n).

Lemma in_flight_with prev nid tid rid orgs (E E' : X → Prop) w :
  in_flight prev nid tid rid orgs E w → E' (w_ext w) → in_flight prev nid tid rid orgs E' w.
Proof. intros [] ?. by split. Qed.

(** Statements on the store leave the outside alone. *)
Definition outside (x : X) (w : World X) : Prop := w_ext w = x.

Lemma outside_update x id patch : preserves (outside x) (DeploymentRepo_update id patch).
Proof.
  unfold DeploymentRepo_update. apply preserves_bind; [by intros w|]. intros [e|]; [|by intros w].
  apply preserves_bind; [by intros w|]. intros now.
  apply preserves_bind; [|intros; apply preserves_ret].
  apply preserves_try; [|intros; apply preserves_mapSqliteError].
  intros w Hw. unfold db_update_raw. by destruct (sql_update _ _ _ _) as [|[]].
Qed.

Lemma outside_insert x T r : preserves (outside x) (db_insert T r).
Proof.
  apply preserves_try; [|intros; apply preserves_mapSqliteError].
  intros w Hw. unfold db_insert_raw. by destruct (sql_insert _ _ _).
Qed.

Lemma outside_audit x o a n t i d : preserves (outside x) (AuditLogRepo_append o a n t i d).
Proof.
  unfold AuditLogRepo_append. apply preserves_bind; [by intros w|]. intros now.
  apply preserves_bind; [by intros w|]. intros id.
  apply preserves_bind; [apply outside_insert|]. intros; apply preserves_ret.
Qed.

Lemma swallow_external (f : X → Res unit * X) (w : World X) :
  swallow (external f) w = (Ok (), mkWorld (w_db w) (w_clock w) (w_ids w) (f (w_ext w)).2).
Proof.
  unfold swallow, try_catch. rewrite bind_eq. unfold external. by destruct (f (w_ext w)) as [[]].
Qed.

Lemma swallow_ok {A} (m : M X A) w : swallow m w = (Ok (), (m w).2).
Proof. unfold swallow, try_catch. rewrite bind_eq. by destruct (m w) as [[]]. Qed.

(** The handler throws, having restored and then dropped the checkpoint. *)
Lemma deploy_failed_ext {A} org actor nid rid tid c err (w : World X) :
  ∃ e w', deploy_failed (A:=A) org actor nid rid tid c err w = (Throw e, w') ∧
    w_ext w' = (deleteCheckpoint c (restoreCheckpoint c (w_ext w)).2).2.
Proof.
  unfold deploy_failed. rewrite (bind_ok _ _ _ _ _ (swallow_external _ w)).
  rewrite (bind_ok _ _ _ _ _ (swallow_external _ _)). cbn [w_db w_clock w_ids w_ext].
  set (x := (deleteCheckpoint c _).2). set (w1 := mkWorld _ _ _ x).
  rewrite (bind_ok _ _ _ _ _ (swallow_ok _ w1)).
  set (w2 := ((now ← nowIso; _) w1).2).
  assert (K2 : outside x w2).
  { unfold w2. apply (preserves_bind (outside x)); [by intros w0| |done].
    intros; apply outside_update. }
  rewrite bind_eq. match goal with |- context [AuditLogRepo_append ?o ?a ?n ?t ?i ?d w2] =>
    pose proof (outside_audit x o a n t i d w2 K2) as K3;
    destruct (AuditLogRepo_append o a n t i d w2) as [[row|e] w3] end; by do 2 eexists.
Qed.

(** ... and leaves a deploy in flight with its new row marked failed. *)
Lemma deploy_failed_rows {A} prev nid tid rid orgs (E : X → Prop) org actor c err (w : World X) :
  in_flight prev nid tid rid orgs E w → org_known org w →
  ∃ w', deploy_failed (A:=A) org actor nid rid tid c err w = (Throw err, w') ∧
    in_flight prev nid tid rid orgs (λ _, True) w' ∧
    ∃ n, n ∈ db_deployment (w_db w') ∧ dep_id n = nid ∧ dep_status n = DS_failed.
Proof.
  intros Hw Ho. unfold deploy_failed. rewrite (bind_ok _ _ _ _ _ (swallow_external _ w)).
  rewrite (bind_ok _ _ _ _ _ (swallow_external _ _)). cbn [w_db w_clock w_ids w_ext].
  set (x := (deleteCheckpoint c _).2). set (w1 := mkWorld _ _ _ x).
  assert (K1 : in_flight prev nid tid rid orgs (λ _, True) w1) by (by destruct Hw).
  set (now := toISOString (clock (w_clock w1))).
  destruct (in_flight_update prev nid tid rid orgs (λ _, True)
    (mkDeploymentPatch (Some DS_failed) None (Some now) None) DS_failed (ticked w1))
    as (n & w2 & Eu & K2 & _ & Hs & Hn & Hid); [done|done|by apply in_flight_ticked|].
  rewrite (bind_ok _ _ w1 () w2) by (rewrite swallow_ok;
    rewrite (bind_ok _ _ w1 now (ticked w1)) by exact eq_refl; by rewrite Eu).
  destruct (in_flight_audit fresh_inj prev nid tid rid org orgs (λ _, True) actor "release.deploy.failed"
    "deployment" nid (Some [("releaseId", JStr rid); ("targetId", JStr tid);
      ("error", JStr (err_message err)); ("errorName", JStr (err_name err))]) w2)
    as (row & w3 & Ea & K3 & Hdb & _); [|done|].
  { apply (org_known_orgs org w); [|done]. by rewrite (if_orgs _ _ _ _ _ _ _ K2), (if_orgs _ _ _ _ _ _ _ Hw). }
  rewrite (bind_ok _ _ _ _ _ Ea). eexists. split; [reflexivity|]. split; [done|].
  exists n. by rewrite Hdb.
Qed.

(** The active deployment of a target. *)
Definition active_of (tid : string) (d : DB) : option Deployment :=
  find_first (active_on tid) (db_deployment d).

Lemma active_of_only tid d r :
  db_ok d → r ∈ db_deployment d → active_on tid r = true → active_of tid d = Some r.
Proof.
  intros Hd Hr Ha. unfold active_of. apply find_first_unique; [done|done|].
  intros y Hy Hya. apply active_on_inv in Ha as (Ht & Hs & Hl), Hya as (Ht' & Hs' & Hl').
  apply (table_ok_ukey_unique T_deployment d y r [tid]); [apply Hd|done|done| |];
    simpl; rewrite ?Hs, ?Hs', ?Hl, ?Hl', bool_decide_eq_true_2 by done; congruence.
Qed.

(** Creating the row of a deploy puts it in flight. *)
Lemma create_in_flight org rid tid (w w' : World X) n :
  db_ok (w_db w) → audit_fresh w →
  DeploymentRepo_create org rid tid (option_map dep_id (active_of tid (w_db w))) w = (Ok n, w') →
  in_flight (active_of tid (w_db w)) (dep_id n) tid rid (db_org (w_db w)) (λ _, True) w' ∧
  db_deployment (w_db w') = db_deployment (w_db w) ++ [n] ∧ w_ext w' = w_ext w.
Proof.
  intros Hd Hf Ec. pose proof (DeploymentRepo_create_ok org rid tid
    (option_map dep_id (active_of tid (w_db w))) w Hd) as Hok. rewrite Ec in Hok.
  unfold DeploymentRepo_create in Ec.
  rewrite (bind_ok _ _ w (toISOString (clock (w_clock w))) (ticked w)) in Ec by exact eq_refl.
  rewrite (bind_ok _ _ (ticked w) (fresh_id (w_ids w))
    (mkWorld (w_db w) (S (w_clock w)) (S (w_ids w)) (w_ext w))) in Ec by exact eq_refl.
  cbv beta zeta in Ec. apply bind_inv_ok in Ec as ([] & w1 & Ei & Er).
  apply db_insert_inv in Ei as [-> Hcl]. injection Er as <- <-.
  split_and!; [|done|done]. split; [done| |done| |done].
  - cbn [set_db w_db db_deployment tset tget]. split_and!.
    + eexists. split; [apply elem_of_app; right; apply list_elem_of_here|]. done.
    + intros p Hp. pose proof (find_first_Some _ _ _ Hp) as [Hin Ha].
      split_and!; [apply elem_of_app; by left|done|]. intros Eid.
      specialize (Hcl p Hin). rewrite (row_clash_pkey T_deployment) in Hcl; [done|]. simpl in *. by rewrite Eid.
    + intros r [Hr|Hr%list_elem_of_singleton]%elem_of_app Ha; [by apply active_of_only|].
      subst r. by apply active_on_inv in Ha as (_ & ? & _).
  - intros x m Hx Hm. simpl in Hm. apply Hf; [done|lia].
Qed.

Lemma create_throws org rid tid prev (w w' : World X) e :
  DeploymentRepo_create org rid tid prev w = (Throw e, w') → w_db w' = w_db w ∧ w_ext w' = w_ext w.
Proof.
  unfold DeploymentRepo_create.
  rewrite (bind_ok _ _ w (toISOString (clock (w_clock w))) (ticked w)) by exact eq_refl.
  rewrite (bind_ok _ _ (ticked w) (fresh_id (w_ids w))
    (mkWorld (w_db w) (S (w_clock w)) (S (w_ids w)) (w_ext w))) by exact eq_refl.
  cbv beta zeta. rewrite bind_eq. destruct (db_insert _ _ _) as [[[]|e'] w3] eqn:Ei; [done|].
  intros [= <- <-]. by apply db_insert_throw in Ei as [-> _].
Qed.

(** What the outside went through before a checkpoint existed. *)
Inductive calm (x : X) : X → Prop :=
| calm_nothing : calm x x
| calm_resolved conn : calm x (resolveVm conn x).2
| calm_no_checkpoint conn h l e x' :
    createCheckpoint h l (resolveVm conn x).2 = (Throw e, x') → calm x x'.

(** The rest of the call, once the machine is known: create the row, take the
    checkpoint, mark the row as deploying, run the body. *)
Definition deploy_on_vm (org actor root : string) (release : Release) (target : Target)
    (arts : list Artifact) (prev : option Deployment) (h : string) : M X RunDeployResult :=
  deployment ← DeploymentRepo_create org (rel_id release) (tg_id target) (option_map dep_id prev);
  AuditLogRepo_append org actor "release.deploy.started" "deployment" (dep_id deployment)
    (Some [("releaseId", JStr (rel_id release)); ("targetId", JStr (tg_id target))]);;
  checkpoint ← external (createCheckpoint h ("signalman-pre-" +:+ dep_id deployment));
  startedAt ← nowIso;
  DeploymentRepo_update (dep_id deployment)
    (mkDeploymentPatch (Some DS_deploying) (Some startedAt) None None);;
  try_catch (deploy_body org actor release target arts prev (dep_id deployment) h checkpoint root)
    (deploy_failed org actor (dep_id deployment) (rel_id release) (tg_id target) checkpoint).

(** How a call can go: an early throw that keeps every row, or the body from a
    flight whose checkpoint was taken. *)
Definition deploy_course (org actor root rel0 tid0 : string) (w : World X)
    (run : Res RunDeployResult * World X) : Prop :=
  (∃ e w', run = (Throw e, w') ∧ calm (w_ext w) (w_ext w') ∧
     ∀ x, x ∈ db_deployment (w_db w) → x ∈ db_deployment (w_db w')) ∨
  (∃ release target arts nid conn h l c w1,
     rel_id release = rel0 ∧ tg_id target = tid0 ∧
     createCheckpoint h l (resolveVm conn (w_ext w)).2 = (Ok c, w_ext w1) ∧
     in_flight (active_of tid0 (w_db w)) nid tid0 rel0 (db_org (w_db w)) (λ _, True) w1 ∧
     org_known org w1 ∧
     run = try_catch (deploy_body org actor release target arts (active_of tid0 (w_db w)) nid h c root)
             (deploy_failed org actor nid rel0 tid0 c) w1).

Lemma deploy_on_vm_course org actor root w release target arts h x1 :
  db_ok (w_db w) → audit_fresh w → target ∈ db_target (w_db w) → tg_orgId target = org →
  x1 = (resolveVm (tg_connection target) (w_ext w)).2 →
  deploy_course org actor root (rel_id release) (tg_id target) w
    (deploy_on_vm org actor root release target arts (active_of (tg_id target) (w_db w)) h
       (mkWorld (w_db w) (w_clock w) (w_ids w) x1)).
Proof.
  intros Hd Hf Hin Eo Hx1. unfold deploy_course. set (w1 := mkWorld (w_db w) (w_clock w) (w_ids w) x1).
  remember (deploy_on_vm _ _ _ _ _ _ _ _ w1) as run eqn:Er0. unfold deploy_on_vm in Er0.
  rewrite bind_eq in Er0. destruct (DeploymentRepo_create _ _ _ _ w1) as [[n|e] w2] eqn:Ec.
  2: { left. do 2 eexists. split; [exact Er0|]. destruct (create_throws _ _ _ _ _ _ _ Ec) as [-> ->].
       split; [cbn [w1 w_ext]; rewrite Hx1; constructor|done]. }
  destruct (create_in_flight org (rel_id release) (tg_id target) w1 w2 n Hd Hf Ec) as (K2 & Hrows & Hx2).
  assert (Ho2 : org_known org w2).
  { apply (org_known_orgs org w1); [by rewrite (if_orgs _ _ _ _ _ _ _ K2)|].
    destruct (Hd T_target) as [_ Hfk]. destruct (Hfk target Hin) as [Hk _]. simpl in Hk.
    by rewrite Eo in Hk. }
  destruct (in_flight_audit fresh_inj _ _ _ _ org _ _ actor "release.deploy.started" "deployment"
    (dep_id n) (Some [("releaseId", JStr (rel_id release)); ("targetId", JStr (tg_id target))]) w2 Ho2 K2)
    as (row & w3 & Ea & K3 & Hrows3 & Hx3).
  rewrite (bind_ok _ _ _ _ _ Ea) in Er0.
  assert (Hext3 : w_ext w3 = (resolveVm (tg_connection target) (w_ext w)).2)
    by (rewrite Hx3, Hx2; exact Hx1).
  rewrite bind_eq in Er0. unfold external at 1 in Er0. rewrite Hext3 in Er0.
  destruct (createCheckpoint _ _ _) as [[c|e] x4] eqn:Eck in Er0.
  2: { left. do 2 eexists. split; [exact Er0|]. cbn [w_ext w_db]. split; [by econstructor|].
       intros x Hx. rewrite Hrows3, Hrows. apply elem_of_app. by left. }
  right. cbv beta iota in Er0. set (w4 := mkWorld (w_db w3) (w_clock w3) (w_ids w3) x4) in Er0.
  rewrite (bind_ok _ _ w4 (toISOString (clock (w_clock w4))) (ticked w4)) in Er0 by exact eq_refl.
  assert (K4 : in_flight (active_of (tg_id target) (w_db w)) (dep_id n) (tg_id target) (rel_id release)
    (db_org (w_db w)) (λ _, True) (ticked w4)) by (by destruct K3).
  destruct (in_flight_update _ _ _ _ _ _ (mkDeploymentPatch (Some DS_deploying)
    (Some (toISOString (clock (w_clock w4)))) None None) DS_deploying (ticked w4) eq_refl ltac:(done) K4)
    as (n5 & w5 & Eu & K5 & Hx5 & _).
  rewrite (bind_ok _ _ _ _ _ Eu) in Er0.
  exists release, target, arts, (dep_id n), (tg_connection target), h. eexists _, c, w5.
  split_and!; try done.
  - rewrite Hx5. exact Eck.
  - apply (org_known_orgs org w2); [|done]. by rewrite (if_orgs _ _ _ _ _ _ _ K5), (if_orgs _ _ _ _ _ _ _ K2).
Qed.

(** A throw before anything happened. *)
Lemma early_throw org actor root rel0 tid0 (w : World X) e :
  deploy_course org actor root rel0 tid0 w (Throw e, w).
Proof. left. do 2 eexists. split_and!; [done|constructor|done]. Qed.

Lemma runDeploy_course org rel0 tid0 actor root (w : World X) :
  db_ok (w_db w) → audit_fresh w →
  deploy_course org (actor ?? "cli") (root ?? "C:/signalman-staging") rel0 tid0 w
    (runDeploy org rel0 tid0 actor root w).
Proof.
  intros Hd Hf. unfold runDeploy. cbv zeta. unfold ReleaseRepo_get, TargetRepo_get.
  rewrite (bind_ok _ _ w _ w) by exact eq_refl.
  destruct (find_first _ (db_release (w_db w))) as [release|] eqn:Er; [|apply early_throw].
  destruct (negb _); [apply early_throw|]. rewrite (bind_ok _ _ w _ w) by exact eq_refl.
  destruct (find_first _ (db_target (w_db w))) as [target|] eqn:Et; [|apply early_throw].
  apply find_first_Some in Er as [_ Er], Et as [Hin Et]. bool_hyps. subst rel0 tid0.
  destruct (tg_orgId target =?s org) eqn:Eo; cbn [negb]; [|apply early_throw].
  apply bool_decide_eq_true_1 in Eo.
  unfold DeploymentRepo_getActiveForTarget, ArtifactRepo_listForRelease.
  rewrite (bind_ok _ _ w (active_of (tg_id target) (w_db w)) w) by exact eq_refl.
  rewrite (bind_ok _ _ w _ w) by exact eq_refl. rewrite bind_eq. unfold external at 1.
  destruct (resolveVm (tg_connection target) (w_ext w)) as [rv x1] eqn:Ev.
  assert (Hx1 : x1 = (resolveVm (tg_connection target) (w_ext w)).2) by (by rewrite Ev).
  destruct rv as [[h vm]|e].
  - by apply (deploy_on_vm_course org _ _ w release target _ h x1).
  - left. do 2 eexists. split_and!; [done| |done]. simpl. rewrite Hx1. constructor.
Qed.
End prologue.

(** ** What a deploy guarantees *)

Section guarantees.
Context {X : Type} `{Oracle} `{JsEngine} `{Zod} `{DeployBackend X} `{DeployHost X}.
Context (fresh_inj : ∀ m n, fresh_id m = fresh_id n → m = n).

Lemma undisturbed_true : undisturbed (λ _ : X, True).
Proof. by split. Qed.

(** C1: A successful deploy lands: the new deployment is the only active one on
    the target and belongs to the requested release, no health check failed, and
    the deployment that was active before is superseded. *)
Theorem deploy_success_lands org rel tid actor root (w w' : World X) res :
  db_ok (w_db w) → audit_fresh w →
  runDeploy org rel tid actor root w = (Ok res, w') →
  let n := rd_deployment res in
  db_ok (w_db w') ∧ active_of tid (w_db w') = Some n ∧ dep_releaseId n = rel ∧
  (∀ x, x ∈ db_deployment (w_db w') → active_on tid x = true → x = n) ∧
  hsum_fail (rd_healthSummary res) = 0 ∧
  (∀ p, p ∈ db_deployment (w_db w) → active_on tid p = true →
     ∃ q, q ∈ db_deployment (w_db w') ∧ dep_id q = dep_id p ∧ dep_status q = DS_superseded).
Proof.
  intros Hd Hf Er. destruct (runDeploy_course fresh_inj org rel tid actor root w Hd Hf)
    as [(e & ? & E & _)|(release & target & arts & nid & conn & h & l & c & w1 & _ & _ & _ & K & Ho & E)];
    rewrite E in Er; [done|]. unfold try_catch in Er.
  destruct (deploy_body_cases fresh_inj _ nid tid rel org (db_org (w_db w)) (λ _, True) undisturbed_true
    (actor ?? "cli") release target arts h c (root ?? "C:/signalman-staging") w1 K Ho)
    as [(r & w2 & Eb & Hz & w3 & Hl & Hrows & Hok)|[(e & w2 & Eb & _)|(e & w2 & x & Eb & _)]];
    rewrite Eb in Er; [injection Er as -> ->| |];
    [|destruct (deploy_failed_ext (A:=RunDeployResult) org (actor ?? "cli") nid rel tid c e w2)
       as (? & ? & Ef & _); congruence..].
  destruct Hl as [_ _ _ _ (Hin & Ha & _ & Hrel) Honly Hprev]. rewrite <- Hrows in Hin, Honly, Hprev.
  split_and!; [done|by apply active_of_only|done|done|done|].
  intros p Hp Hpa. apply Hprev. by apply active_of_only.
Qed.

(** C2: A failed deploy does not take the target down: when the deploy throws, for
    whatever reason, the deployment that was active before is still there,
    unchanged.  Assumes that dropping a checkpoint does not fail. *)
Theorem failed_deploy_keeps_previous org rel tid actor root (w w' : World X) e p :
  (∀ c x, ∃ x', deleteCheckpoint c x = (Ok (), x')) →
  db_ok (w_db w) → audit_fresh w →
  p ∈ db_deployment (w_db w) → active_on tid p = true →
  runDeploy org rel tid actor root w = (Throw e, w') →
  p ∈ db_deployment (w_db w').
Proof.
  intros Hdel Hd Hf Hp Hpa Er. destruct (runDeploy_course fresh_inj org rel tid actor root w Hd Hf)
    as [(e' & w0 & E & _ & Hk)|(release & target & arts & nid & conn & h & l & c & w1 & _ & _ & _ & K & Ho & E)];
    rewrite E in Er; [injection Er as -> ->; by apply Hk|]. unfold try_catch in Er.
  destruct (deploy_body_cases fresh_inj _ nid tid rel org (db_org (w_db w)) (λ _, True) undisturbed_true
    (actor ?? "cli") release target arts h c (root ?? "C:/signalman-staging") w1 K Ho)
    as [(r & w2 & Eb & _)|[(e' & w2 & Eb & K2)|(e' & w2 & x & _ & _ & Ed & _)]].
  - by rewrite Eb in Er.
  - rewrite Eb in Er.
    destruct (deploy_failed_rows (A:=RunDeployResult) fresh_inj _ nid tid rel _ _ org (actor ?? "cli") c e' w2 K2)
      as (w3 & Ef & K3 & _).
    { apply (org_known_orgs org w1); [|done].
      by rewrite (if_orgs _ _ _ _ _ _ _ K2), (if_orgs _ _ _ _ _ _ _ K). }
    rewrite Ef in Er. injection Er as _ <-. destruct (if_rows _ _ _ _ _ _ _ K3) as (_ & Hprev & _).
    by apply Hprev, active_of_only.
  - destruct (Hdel c x) as [x' Hx']. congruence.
Qed.

(** The guest's disk and the snapshots of it: a checkpoint records the disk,
    a restore that returns brings it back, and nothing but the two checkpoint
    operations removes a snapshot.  A restore that throws may leave any disk. *)
Record GuestDisk (D : Type) := mkGuestDisk {
  disk : X → D;
  snapshot : X → string → option D;
  gd_resolve : ∀ conn x, disk (resolveVm conn x).2 = disk x;
  gd_create : ∀ h l x, disk (createCheckpoint h l x).2 = disk x;
  gd_created : ∀ h l x c x', createCheckpoint h l x = (Ok c, x') → snapshot x' c = Some (disk x);
  gd_restore : ∀ c x s x', snapshot x c = Some s → restoreCheckpoint c x = (Ok (), x') → disk x' = s;
  gd_delete : ∀ c x, disk (deleteCheckpoint c x).2 = disk x;
  gd_undeleted : ∀ c x e x', deleteCheckpoint c x = (Throw e, x') → snapshot x' c = snapshot x c;
  gd_keeps : ∀ c s, undisturbed (λ x, snapshot x c = Some s)
}.
Arguments disk {D}.
Arguments snapshot {D}.

(** C3: Deploying is atomic for the guest as far as its checkpoints go: when the
    deploy throws, the disk of the guest is what it was before the call, whatever
    was staged or executed in between, and even when dropping the checkpoint is
    what failed; or else restoring the checkpoint of that disk has thrown as well,
    and dropping it was all that was done after that. *)
Theorem failed_deploy_restores_disk {D} (G : GuestDisk D) org rel tid actor root (w w' : World X) e :
  db_ok (w_db w) → audit_fresh w →
  runDeploy org rel tid actor root w = (Throw e, w') →
  disk G (w_ext w') = disk G (w_ext w) ∨
  ∃ c x e' x', snapshot G x c = Some (disk G (w_ext w)) ∧ restoreCheckpoint c x = (Throw e', x') ∧
    w_ext w' = (deleteCheckpoint c x').2.
Proof.
  intros Hd Hf Er. destruct (runDeploy_course fresh_inj org rel tid actor root w Hd Hf)
    as [(e' & w0 & E & Hc & _)|(release & target & arts & nid & conn & h & l & c & w1 & _ & _ & Eck & K & Ho & E)];
    rewrite E in Er.
  - left. injection Er as -> ->. destruct Hc as [|conn|conn h l e0 x' Ek]; [done|apply G|].
    pose proof (gd_create _ G h l (resolveVm conn (w_ext w)).2) as Hk. rewrite Ek in Hk. simpl in Hk.
    by rewrite Hk, (gd_resolve _ G).
  - pose proof (gd_created _ G _ _ _ _ _ Eck) as Hsnap. rewrite (gd_resolve _ G) in Hsnap.
    set (s := disk G (w_ext w)) in *. unfold try_catch in Er.
    assert (Hend : ∀ e0 w2, snapshot G (w_ext w2) c = Some s →
      deploy_failed (A:=RunDeployResult) org (actor ?? "cli") nid rel tid c e0 w2 = (Throw e, w') →
      disk G (w_ext w') = s ∨ ∃ c x e' x', snapshot G x c = Some s ∧ restoreCheckpoint c x = (Throw e', x') ∧
        w_ext w' = (deleteCheckpoint c x').2).
    { intros e0 w2 Hs Ef.
      destruct (deploy_failed_ext (A:=RunDeployResult) org (actor ?? "cli") nid rel tid c e0 w2)
        as (e2 & w3 & Ef' & Hx).
      rewrite Ef' in Ef. injection Ef as _ ->. rewrite Hx, (gd_delete _ G).
      destruct (restoreCheckpoint c (w_ext w2)) as [[[]|e3] x3] eqn:Ec; [left; by apply (gd_restore _ G _ _ _ _ Hs Ec)|].
      right. by exists c, (w_ext w2), e3, x3. }
    destruct (deploy_body_cases fresh_inj (active_of tid (w_db w)) nid tid rel org (db_org (w_db w))
      (λ x, snapshot G x c = Some s) (gd_keeps _ G c s)
      (actor ?? "cli") release target arts h c (root ?? "C:/signalman-staging") w1) as [C|[C|C]];
      [by eapply in_flight_with|done|..].
    + destruct C as (r & w2 & Eb & _). by rewrite Eb in Er.
    + destruct C as (e2 & w2 & Eb & K2). rewrite Eb in Er. apply (Hend e2 w2); [by destruct K2|done].
    + destruct C as (e2 & w2 & x & Eb & Hx & Ed & _). rewrite Eb in Er.
      apply (Hend e2 w2); [by rewrite (gd_undeleted _ G _ _ _ _ Ed)|done].
Qed.
End guarantees.

(** ** A guest to deploy to *)

(** A machine with files and snapshots, which may be unreachable. *)
Record Guest := mkGuest {
  g_files : list string;
  g_snapshots : list (string * list string);
  g_reachable : bool
}.

Definition g_lookup (g : Guest) (c : string) : option (list string) :=
  option_map snd (find_first (λ kv, kv.1 =?s c) (g_snapshots g)).

(** A backend that can drop checkpoints, or not. *)
Definition guest_backend (drops : bool) : DeployBackend Guest := {|
  resolveVm := λ _ g, (Ok ("vm", "vm"), g);
  createCheckpoint := λ _ l g,
    (Ok l, mkGuest (g_files g) ((l, g_files g) :: g_snapshots g) (g_reachable g));
  restoreCheckpoint := λ c g,
    match g_lookup g c with
    | Some f => (Ok (), mkGuest f (g_snapshots g) (g_reachable g))
    | None => (Throw (EError "no such checkpoint"), g)
    end;
  deleteCheckpoint := λ c g,
    if drops
    then (Ok (), mkGuest (g_files g) (select (λ kv, negb (kv.1 =?s c)) (g_snapshots g)) (g_reachable g))
    else (Throw (EError "checkpoint is busy"), g);
  copyFileToVM := λ _ _ p g, (Ok (), mkGuest (g_files g ++ [p]) (g_snapshots g) (g_reachable g));
  isVmReachable := λ _ g, (Ok (g_reachable g, None), g);
  executeInGuest := λ _ _ _ _ g, (Ok (mkExecResult (S754_zero false) "" ""), g)
|}.

#[export] Instance guest_host : DeployHost Guest := {
  blobs_get := λ _ g, (Ok "", g);
  random_hex8 := λ g, (Ok "0011223344556677", g);
  tmp_path := λ n, "/tmp/" +:+ n;
  host_write := λ _ _ g, (Ok (), g);
  host_unlink := λ _ g, (Ok (), g)
}.

Section guest.
Context (drops : bool).
#[local] Instance this_backend : DeployBackend Guest := guest_backend drops.

Lemma guest_keeps c s : undisturbed (λ g : Guest, g_lookup g c = Some s).
Proof. by split. Qed.

Lemma guest_created h l (g : Guest) c g' :
  createCheckpoint h l g = (Ok c, g') → g_lookup g' c = Some (g_files g).
Proof.
  simpl. intros [= <- <-]. unfold g_lookup. simpl. by rewrite bool_decide_eq_true_2.
Qed.

Lemma guest_restore c (g : Guest) s g' :
  g_lookup g c = Some s → restoreCheckpoint c g = (Ok (), g') → g_files g' = s.
Proof. simpl. intros ->. by intros [= <-]. Qed.

Lemma guest_delete c (g : Guest) : g_files (deleteCheckpoint c g).2 = g_files g.
Proof. simpl. by destruct drops. Qed.

Lemma guest_undeleted c (g : Guest) e g' :
  deleteCheckpoint c g = (Throw e, g') → g_lookup g' c = g_lookup g c.
Proof. simpl. destruct drops; [done|]. by intros [= _ <-]. Qed.

Definition guest_disk : GuestDisk (list string) :=
  mkGuestDisk _ g_files g_lookup (λ _ _, eq_refl) (λ _ _ _, eq_refl) guest_created guest_restore
    guest_delete guest_undeleted guest_keeps.

Definition guest_world (reachable : bool) : World Guest :=
  mkWorld fx_db 0 0 (mkGuest ["C:/old.exe"] [] reachable).
End guest.

Local Notation guest_deploy drops reachable :=
  (runDeploy (H2:=guest_backend drops) "o1" "r1" "tg1" None None (guest_world reachable)).

Lemma fixture_ids_inj m n : fresh_id m = fresh_id n → m = n.
Proof.
  intros E. apply (inj (pretty (A:=nat))). change ("id" +:+ pretty m = "id" +:+ pretty n) in E.
  rewrite !str_app_cons in E. by injection E.
Qed.

Lemma guest_audit_fresh r : audit_fresh (guest_world r).
Proof. intros x n Hx. by apply elem_of_nil in Hx. Qed.

Definition is_ok {A} (r : Res A) : bool := match r with Ok _ => true | Throw _ => false end.

Lemma guest_deploy_ok : is_ok (guest_deploy true true).1 = true.
Proof. by vm_compute. Qed.

Lemma guest_deploy_unreachable : is_ok (guest_deploy true false).1 = false.
Proof. by vm_compute. Qed.

Lemma guest_drops_all c (g : Guest) : ∃ g', deleteCheckpoint (DeployBackend:=guest_backend true) c g = (Ok (), g').
Proof. by eexists. Qed.

Lemma fx_deployment_in r : fx_deployment ∈ db_deployment (w_db (guest_world r)).
Proof. apply list_elem_of_here. Qed.

Lemma deploy_success_lands_witness :
  match guest_deploy true true with
  | (Ok res, w') => active_of "tg1" (w_db w') = Some (rd_deployment res)
  | (Throw _, _) => False
  end.
Proof.
  pose proof guest_deploy_ok as Hok. destruct (guest_deploy true true) as [[res|e] w'] eqn:E.
  - apply (deploy_success_lands (H2:=guest_backend true) fixture_ids_inj "o1" "r1" "tg1" None None
      (guest_world true) w' res fx_db_ok (guest_audit_fresh true) E).
  - discriminate Hok.
Defined.

Lemma failed_deploy_keeps_previous_witness :
  match guest_deploy true false with
  | (Ok _, _) => False
  | (Throw _, w') => fx_deployment ∈ db_deployment (w_db w')
  end.
Proof.
  pose proof guest_deploy_unreachable as Hok. destruct (guest_deploy true false) as [[res|e] w'] eqn:E.
  - discriminate Hok.
  - exact (failed_deploy_keeps_previous (H2:=guest_backend true) fixture_ids_inj "o1" "r1" "tg1" None None
      (guest_world false) w' e fx_deployment guest_drops_all fx_db_ok (guest_audit_fresh false)
      (fx_deployment_in false) eq_refl E).
Defined.

Lemma failed_deploy_restores_disk_witness :
  match guest_deploy true false with
  | (Ok _, _) => False
  | (Throw _, w') => g_files (w_ext w') = ["C:/old.exe"]
  end.
Proof.
  pose proof guest_deploy_unreachable as Hok. destruct (guest_deploy true false) as [[res|e] w'] eqn:E.
  - discriminate Hok.
  - destruct (failed_deploy_restores_disk (H2:=guest_backend true) fixture_ids_inj (guest_disk true)
      "o1" "r1" "tg1" None None (guest_world false) w' e fx_db_ok (guest_audit_fresh false) E)
      as [Hs|(c & g & e' & g' & Hs & Er & _)]; [exact Hs|].
    cbn in Hs, Er. rewrite Hs in Er. discriminate Er.
Defined.

(** A guest that cannot go back to a checkpoint: after the deploy that failed, its disk
    keeps what was staged and the checkpoint of the old one is gone. *)
Definition stuck_backend : DeployBackend Guest :=
  let b := guest_backend true in
  {| resolveVm := resolveVm (DeployBackend := b); createCheckpoint := createCheckpoint (DeployBackend := b);
     restoreCheckpoint := λ _ g, (Throw (EError "restore failed"), g); deleteCheckpoint := deleteCheckpoint (DeployBackend := b);
     copyFileToVM := copyFileToVM (DeployBackend := b); isVmReachable := isVmReachable (DeployBackend := b);
     executeInGuest := executeInGuest (DeployBackend := b) |}.

Example failed_restore_drops_the_way_back :
  match runDeploy (H2:=stuck_backend) "o1" "r1" "tg1" None None (guest_world false) with
  | (Ok _, _) => False
  | (Throw _, w') => g_files (w_ext w') ≠ ["C:/old.exe"] ∧ g_snapshots (w_ext w') = []
  end.
Proof. vm_compute. split; [discriminate|reflexivity]. Qed.

(** When everything passes but dropping the checkpoint fails, the handler runs
    after the promotion: the previous deployment stays superseded, the new one is
    marked failed, and the target is left with no active deployment although one
    was active before. *)
Theorem checkpoint_drop_failure_orphans_target :
  active_of "tg1" fx_db = Some fx_deployment ∧
  match guest_deploy false true with
  | (Ok _, _) => False
  | (Throw e, w') =>
    err_message e = "checkpoint is busy" ∧ active_of "tg1" (w_db w') = None ∧
    map dep_status (db_deployment (w_db w')) = [DS_superseded; DS_failed]
  end.
Proof. split; [reflexivity|]. vm_compute. done. Qed.
