(* ===== verification/BudgetSpec.v ===== *)
(** What the budget gate guarantees: the billing month, the hard limit, and
    two places where the arithmetic does not do what it means to. *)

From S2P Require Import Prelude JsTime JsVal Types World Logic StorageOps Events Promotion.
From S2P Require Import Budget Fixture.

(** Instants from 1970 to the end of 9998, whose months end before 10000. *)
Definition billable (t : Z) : Prop := 0 ≤ t < 253370764800000.

Lemma billable_year t : billable t → 1970 ≤ getUTCFullYear t ≤ 9998.
Proof.
  intros [H1 H2]. unfold getUTCFullYear. pose proof (YearFromDay_spec (t / msPerDay)) as [Hlo Hhi].
  set (y := YearFromDay (t / msPerDay)) in *. clearbody y.
  assert (Hd : 0 ≤ t / msPerDay < 2932532) by (unfold msPerDay; split;
    [apply Z.div_pos; lia|apply Z.div_lt_upper_bound; lia]).
  assert (D0 : DayFromYear 1970 = 0) by done. assert (D9 : DayFromYear 9999 = 2932532) by done.
  split.
  - destruct (Z.le_gt_cases 1970 y); [done|]. pose proof (DayFromYear_mono y 1970). lia.
  - destruct (Z.le_gt_cases y 9998); [done|].
    destruct (Z.eq_dec y 9999) as [->|]; [lia|]. pose proof (DayFromYear_mono 9999 y).
    pose proof (DayFromYear_step 9999). lia.
Qed.

Lemma billable_iso t : billable t → iso_range t.
Proof. intros ?. apply iso_range_bounds. unfold billable in *. lia. Qed.

Lemma month_bounds_iso at_ :
  billable at_ →
  let y := getUTCFullYear at_ in let m := getUTCMonth at_ in
  iso_range (Date_UTC y m) ∧ iso_range (Date_UTC y (m + 1)).
Proof.
  intros Hb y m. pose proof (billable_year at_ Hb) as Hy. fold y in Hy.
  pose proof (getUTCMonth_range at_) as Hm. fold m in Hm.
  pose proof (proj2 (month_interval y m at_ ltac:(lia) Hm) (conj eq_refl eq_refl)) as Hat.
  assert (Hlo : 0 ≤ Date_UTC y m).
  { rewrite Date_UTC_month by lia. assert (D0 : DayFromYear 1970 = 0) by done.
    assert (0 ≤ month_start (InLeapYear y) m).
    { pose proof (InLeapYear_01 y). generalize dependent (InLeapYear y). intros leap ?.
      assert (m = 0 ∨ m = 1 ∨ m = 2 ∨ m = 3 ∨ m = 4 ∨ m = 5 ∨ m = 6 ∨ m = 7 ∨ m = 8 ∨ m = 9
        ∨ m = 10 ∨ m = 11) as Hc by lia.
      clear -Hc H. repeat destruct Hc as [Hc|Hc]; rewrite Hc; simpl; lia. }
    assert (0 ≤ DayFromYear y).
    { destruct (Z.eq_dec y 1970) as [->|]; [done|].
      pose proof (DayFromYear_mono 1970 y). pose proof (DayFromYear_step 1970). lia. }
    unfold msPerDay. lia. }
  assert (Hhi : Date_UTC y (m + 1) ≤ 253370764800000).
  { rewrite Date_UTC_month by lia.
    assert (month_start (InLeapYear y) (m + 1) ≤ 365 + InLeapYear y).
    { pose proof (InLeapYear_01 y). generalize dependent (InLeapYear y). intros leap ?.
      assert (m = 0 ∨ m = 1 ∨ m = 2 ∨ m = 3 ∨ m = 4 ∨ m = 5 ∨ m = 6 ∨ m = 7 ∨ m = 8 ∨ m = 9
        ∨ m = 10 ∨ m = 11) as Hc by lia.
      clear -Hc H. repeat destruct Hc as [Hc|Hc]; rewrite Hc; simpl; lia. }
    assert (InLeapYear y = DayFromYear (y + 1) - DayFromYear y - 365) by done.
    assert (DayFromYear (y + 1) ≤ 2932532).
    { change 2932532 with (DayFromYear 9999). destruct (Z.eq_dec y 9998) as [->|]; [done|].
      pose proof (DayFromYear_mono (y + 1) 9999). pose proof (DayFromYear_step (y + 1)). lia. }
    unfold msPerDay. lia. }
  rewrite !iso_range_bounds. lia.
Qed.

Lemma monthBoundsUtc_month at_ t :
  billable at_ → iso_range t →
  let (from, to) := monthBoundsUtc at_ in
  str_leb from (toISOString t) && str_ltb (toISOString t) to = true ↔
  getUTCFullYear t = getUTCFullYear at_ ∧ getUTCMonth t = getUTCMonth at_.
Proof.
  intros Hb Ht. unfold monthBoundsUtc. destruct (month_bounds_iso at_ Hb) as [Hf Hto].
  rewrite andb_true_iff, toISOString_leb, toISOString_ltb, Z.leb_le, Z.ltb_lt by done.
  apply month_interval; [|apply getUTCMonth_range]. pose proof (billable_year at_ Hb). lia.
Qed.

(** The billing month is the calendar month in UTC: among the instants the
    usage table can hold, those whose text lies between the two bounds are
    exactly those of the year and month of the given instant. *)
Theorem monthBoundsUtc_correct at_ t :
  billable at_ → iso_range t →
  let (from, to) := monthBoundsUtc at_ in
  str_leb from (toISOString t) && str_ltb (toISOString t) to = true ↔
  getUTCFullYear t = getUTCFullYear at_ ∧ getUTCMonth t = getUTCMonth at_.
Proof. apply monthBoundsUtc_month. Qed.

Lemma monthBoundsUtc_correct_witness :
  let (from, to) := monthBoundsUtc epoch2025 in
  (from, to) = ("2025-01-01T00:00:00.000Z", "2025-02-01T00:00:00.000Z") ∧
  (str_leb from (toISOString (epoch2025 + 86400000))
   && str_ltb (toISOString (epoch2025 + 86400000)) to = true).
Proof.
  split; [by vm_compute|].
  apply (monthBoundsUtc_correct epoch2025 (epoch2025 + 86400000));
    [unfold billable, epoch2025; lia|apply iso_range_bounds; unfold epoch2025; lia|by vm_compute].
Defined.

Section gate.
Context {X : Type} `{Oracle} `{JsEngine}.

(** The month's recorded spend of an organisation at instant [now]. *)
Definition month_spend (orgId : string) (now : Z) (d : DB) : Z :=
  sum_cents (select (usage_in_range orgId (monthBoundsUtc now).1 (monthBoundsUtc now).2)
    (db_cloud_org_usage d)).

Lemma check_run orgId est (w : World X) b :
  find_first (λ r, cb_orgId r =?s orgId) (db_cloud_org_budget (w_db w)) = Some b →
  let spend := month_spend orgId (clock (w_clock w)) (w_db w) in
  let pct := num_mul (num_div (cents_num (cents_add spend est)) (num_of_Z (cb_monthlyCentsLimit b)))
                     (num_of_Z 100) in
  ∃ e, BudgetGate_check orgId est w =
    (if cents_gt (cents_add spend est) (cb_monthlyCentsLimit b) then Throw (ECloudBackend "budget_exceeded" e)
     else Ok (mkBudgetCheckResult (SFleb (num_of_Z (cb_softWarnPct b)) pct) spend
                (Some (cb_monthlyCentsLimit b)) est pct),
     ticked w).
Proof.
  intros Eb spend pct. unfold BudgetGate_check.
  rewrite (bind_ok _ _ w (Some b) w) by (unfold CloudBudgetRepo_get, read; by rewrite Eb).
  rewrite (bind_ok _ _ w (clock (w_clock w)) (ticked w)) by exact eq_refl.
  subst spend pct. unfold month_spend. destruct (monthBoundsUtc (clock (w_clock w))) as [f t].
  cbn [fst snd].
  rewrite (bind_ok _ _ (ticked w) (sum_cents (select (usage_in_range orgId f t)
    (db_cloud_org_usage (w_db w)))) (ticked w)) by exact eq_refl.
  cbv beta zeta. destruct (cents_gt _ _); (eexists; exact eq_refl) || (exists EmptyString; exact eq_refl).
Qed.

(** The limit is hard: a provision is refused, before anything is written,
    exactly when the month's recorded spend plus the estimate is above the
    limit; an organisation without a budget is never refused. *)
Theorem budget_check_refuses_iff orgId n (w : World X) :
  match find_first (λ r, cb_orgId r =?s orgId) (db_cloud_org_budget (w_db w)) with
  | None => ∃ r, BudgetGate_check orgId (CentsInt n) w = (Ok r, w)
  | Some b =>
    let projected := month_spend orgId (clock (w_clock w)) (w_db w) + n in
    (cb_monthlyCentsLimit b < projected →
       ∃ msg w', BudgetGate_check orgId (CentsInt n) w = (Throw (ECloudBackend "budget_exceeded" msg), w')
         ∧ w_db w' = w_db w) ∧
    (projected ≤ cb_monthlyCentsLimit b →
       ∃ r w', BudgetGate_check orgId (CentsInt n) w = (Ok r, w') ∧ w_db w' = w_db w ∧
         bc_usageCents r = month_spend orgId (clock (w_clock w)) (w_db w))
  end.
Proof.
  destruct (find_first _ _) as [b|] eqn:Eb.
  - destruct (check_run orgId (CentsInt n) w b Eb) as [e ->]. simpl.
    destruct (Z.ltb_spec (cb_monthlyCentsLimit b)
      (month_spend orgId (clock (w_clock w)) (w_db w) + n)); split; intros; try lia; by do 2 eexists.
  - eexists. unfold BudgetGate_check.
    by erewrite bind_ok; [|unfold CloudBudgetRepo_get, read; rewrite Eb; done].
Qed.

Lemma sum_cents_app l1 l2 : sum_cents (l1 ++ l2) = sum_cents l1 + sum_cents l2.
Proof. induction l1 as [|x l IH]; simpl; [done|]. rewrite IH. lia. Qed.

End gate.

(** The soft warning compares a rounded percentage: at exactly the configured
    share of the budget (2900 cents of 10000, 29%) the gate does not warn,
    because 2900 / 10000 * 100 is below 29 in binary64. *)
Theorem soft_warning_misses_threshold :
  cb_softWarnPct fx_budget * cb_monthlyCentsLimit fx_budget = 100 * (cu_estimatedCents fx_usage + 100) ∧
  match (BudgetGate_check "o1" (CentsInt 100) fx_world).1 with
  | Ok r => bc_usageCents r = cu_estimatedCents fx_usage ∧ bc_warned r = false
  | Throw _ => False
  end.
Proof. split; [done|]. vm_compute. done. Qed.

(** An instance type that names a member of Object.prototype has no price:
    its estimate is NaN, so the gate lets it through whatever the budget and
    the spend. *)
Theorem prototype_sku_passes_gate {X} `{Oracle} `{JsEngine} sku region ttl orgId (w : World X) :
  sku ∈ object_prototype → num_isFinite ttl = true → SFleb ttl (S754_zero false) = false →
  estimateInstanceCostCents sku region ttl = CentsNaN ∧
  ∃ r w', BudgetGate_check orgId (estimateInstanceCostCents sku region ttl) w = (Ok r, w').
Proof.
  intros Hs Hf Hl.
  assert (E : estimateInstanceCostCents sku region ttl = CentsNaN).
  { unfold estimateInstanceCostCents. rewrite Hf, Hl. cbn [negb orb].
    assert (sku_rate sku = S754_nan) as ->; [|done].
    unfold object_prototype in Hs. rewrite !elem_of_cons, elem_of_nil in Hs.
    repeat destruct Hs as [->|Hs]; by vm_compute. }
  split; [done|]. rewrite E.
  destruct (find_first (λ r, cb_orgId r =?s orgId) (db_cloud_org_budget (w_db w))) as [b|] eqn:Eb.
  - destruct (check_run orgId CentsNaN w b Eb) as [e ->]. by do 2 eexists.
  - do 2 eexists. unfold BudgetGate_check.
    by erewrite bind_ok; [|unfold CloudBudgetRepo_get, read; rewrite Eb; done].
Qed.

Lemma prototype_sku_passes_gate_witness :
  ∃ r w', BudgetGate_check "o1" (estimateInstanceCostCents "constructor" "us-east-1" (num_of_Z 600000))
            fx_world = (Ok r, w').
Proof.
  apply (prototype_sku_passes_gate "constructor" "us-east-1" (num_of_Z 600000) "o1" fx_world);
    [apply elem_of_cons; by left|by vm_compute|by vm_compute].
Defined.
