(* ===== verification/CloudSpec.v ===== *)
(** What the AWS backend and the reaper guarantee: the reserved tags, the end
    of the wait for a running instance, the budget around a provision, and
    which instances a sweep terminates. *)

From stdpp Require Import gmap strings.
From S2P Require Import Prelude JsTime JsVal Types World Logic StorageOps CloudTypes Budget.
From S2P Require Import Cloud Events Promotion Fixture BudgetSpec.

(** ** Reserved tags *)

(** The value the backend gives to a reserved tag. *)
Definition sentinel_value `{JsEngine} (orgId : string) (ttlMinutes : jsnum) (now : Z) (k : string)
    : string :=
  if k =?s SIGNALMAN_MANAGED_TAG_KEY then SIGNALMAN_MANAGED_TAG_VALUE
  else if k =?s SIGNALMAN_ORG_TAG_KEY then orgId
  else if k =?s SIGNALMAN_TTL_MINUTES_TAG_KEY then num_to_string ttlMinutes
  else num_to_string (num_add (num_of_Z (now / 1000)) (num_mul ttlMinutes (num_of_Z 60))).

Lemma caller_tags_not_sentinel k (tags : list (string * string)) :
  k ∈ sentinelKeys →
  select (λ kv, kv.1 =?s k)
    (select (λ kv, negb (existsb (λ s, s =?s kv.1) sentinelKeys)) tags) = [].
Proof.
  intros Hk. rewrite select_select.
  induction tags as [|[k' v] l IH]; [done|]. cbn [select]. rewrite IH.
  destruct (_ && _) eqn:E; [|done]. exfalso. bool_hyps. cbn [fst] in *. subst k'.
  match goal with H : existsb _ _ = false |- _ => revert H end. apply not_false_iff_true.
  apply existsb_exists. exists k. rewrite <- list_elem_of_In. by rewrite bool_decide_eq_true_2.
Qed.

Lemma sentinel_cases k : k ∈ sentinelKeys →
  k = SIGNALMAN_MANAGED_TAG_KEY ∨ k = SIGNALMAN_ORG_TAG_KEY ∨
  k = SIGNALMAN_TTL_MINUTES_TAG_KEY ∨ k = SIGNALMAN_TTL_EXPIRES_AT_TAG_KEY.
Proof. unfold sentinelKeys. rewrite !elem_of_cons, elem_of_nil. tauto. Qed.

Lemma buildInstanceTags_sentinel `{JsEngine} config orgId ttl now k :
  k ∈ sentinelKeys →
  select (λ kv, kv.1 =?s k) (buildInstanceTags config orgId ttl now) =
  [(k, sentinel_value orgId ttl now k)].
Proof.
  intros Hk. unfold buildInstanceTags. rewrite select_app, caller_tags_not_sentinel, app_nil_r by done.
  apply sentinel_cases in Hk as [->|[->|[->| ->]]]; reflexivity.
Qed.

(** A caller cannot override the tags the reaper relies on: whatever tags the
    configuration carries, each reserved key appears exactly once on the
    instance, with the value the backend computed. *)
Theorem sentinel_tags_protected `{JsEngine} config orgId ttl now k :
  k ∈ sentinelKeys →
  select (λ kv, kv.1 =?s k) (buildInstanceTags config orgId ttl now) =
  [(k, sentinel_value orgId ttl now k)].
Proof. apply buildInstanceTags_sentinel. Qed.

Definition fx_config : CloudInstanceConfig :=
  mkCloudInstanceConfig "us-east-1" "t3.micro" "ami-1" "probe" (Some "o1") None
    (Some [("signalman-managed", "false"); ("team", "qa")]) None.

Lemma sentinel_tags_protected_witness :
  select (λ kv, kv.1 =?s SIGNALMAN_MANAGED_TAG_KEY)
    (buildInstanceTags fx_config "o1" (num_of_Z 60) epoch2025) =
  [(SIGNALMAN_MANAGED_TAG_KEY, "true")].
Proof.
  apply (sentinel_tags_protected fx_config "o1" (num_of_Z 60) epoch2025 SIGNALMAN_MANAGED_TAG_KEY).
  apply elem_of_cons. by left.
Defined.

(** ** From the tags to the reaper *)

Lemma tagMap_lookup l m k v :
  k ≠ "" → k ≠ "__proto__" →
  (∀ v', (k, v') ∈ l → v' = v) → (m !! k = Some v ∨ (k, v) ∈ l) →
  fold_left tag_put (map (λ kv, (Some kv.1, Some kv.2)) l) m !! k = Some v.
Proof.
  intros H1 H2. revert m. induction l as [|[k' v'] l IH]; intros m Hall Hin; simpl.
  { destruct Hin as [?|Hin]; [done|by apply elem_of_nil in Hin]. }
  apply IH; [intros v'' Hv; apply Hall, elem_of_cons; by right|].
  destruct (decide (k' = k)) as [->|Hne].
  - left. unfold tag_put. simpl.
    rewrite (bool_decide_eq_false_2 (k = "")), (bool_decide_eq_false_2 (k = "__proto__")) by done.
    rewrite lookup_insert_eq. f_equal. apply Hall, elem_of_cons. by left.
  - destruct Hin as [Hm|Hin].
    + left. unfold tag_put. simpl. destruct (bool_decide (k' = "")); [done|].
      destruct (bool_decide (k' = "__proto__")); [done|]. by rewrite lookup_insert_ne.
    + right. apply elem_of_cons in Hin as [[= -> ->]|]; done.
Qed.

(** The handle the service reports for an instance started with [tags]. *)
Definition reported_handle (id : string) (tags : list (string * string)) : CloudInstanceHandle :=
  mkCloudInstanceHandle id "aws" id "us-east-1"
    (Some (tagMap (map (λ kv, (Some kv.1, Some kv.2)) tags))) None.

Lemma reported_sentinel `{JsEngine} id config orgId ttl now k :
  k ∈ sentinelKeys →
  handle_tag (reported_handle id (buildInstanceTags config orgId ttl now)) k =
  Some (sentinel_value orgId ttl now k).
Proof.
  intros Hk. pose proof (buildInstanceTags_sentinel config orgId ttl now k Hk) as E.
  assert (Hin : ∀ v, (k, v) ∈ buildInstanceTags config orgId ttl now ↔ v = sentinel_value orgId ttl now k).
  { intros v. transitivity ((k, v) ∈ [(k, sentinel_value orgId ttl now k)]).
    - rewrite <- E, select_elem. simpl. rewrite bool_decide_eq_true_2 by done. naive_solver.
    - rewrite list_elem_of_singleton. naive_solver. }
  generalize dependent (buildInstanceTags config orgId ttl now). intros tags _ Hin.
  unfold handle_tag, reported_handle, tagMap. cbn [ch_tags]. apply tagMap_lookup.
  - by apply sentinel_cases in Hk as [->|[->|[->| ->]]].
  - by apply sentinel_cases in Hk as [->|[->|[->| ->]]].
  - intros v' Hv. by apply Hin.
  - right. by apply Hin.
Qed.

(** ** The sweep *)

Section sweep.
Context {X : Type} `{Oracle} `{JsEngine}.

Definition ttl_tag (h : CloudInstanceHandle) : option jsnum :=
  (λ v, to_number (Some (JStr v))) <$> handle_tag h SIGNALMAN_TTL_EXPIRES_AT_TAG_KEY.

Definition ttl_missing (h : CloudInstanceHandle) : bool := is_null (ttl_tag h).

Definition ttl_malformed (h : CloudInstanceHandle) : bool :=
  match ttl_tag h with
  | Some x => negb (num_isFinite x) || SFleb x (S754_zero false)
  | None => false
  end.

(** The lifetime is well formed and is not later than [now]. *)
Definition past_ttl (now : Z) (h : CloudInstanceHandle) : bool :=
  match ttl_tag h with
  | Some x => num_isFinite x && negb (SFleb x (S754_zero false)) && negb (SFltb (num_of_Z now) x)
  | None => false
  end.

(** Terminate each handle, keeping the failures. *)
Fixpoint terminate_all (b : CloudBackend X) (hs : list CloudInstanceHandle)
    : M X (list (string * string)) :=
  match hs with
  | [] => mret []
  | h :: hs' =>
    e ← try_catch (be_terminateInstance b h;; mret [])
                  (λ err, mret [(ch_id h, err_message err)]);
    es ← terminate_all b hs';
    mret (e ++ es)
  end.

Lemma reap_handle_spec b now h r (w : World X) :
  reap_handle b now h r w =
  if past_ttl now h then
    match be_terminateInstance b h w with
    | (Ok _, w') => (Ok (rb_count_terminated r), w')
    | (Throw e, w') => (Ok (rb_push_error (ch_id h) (err_message e) r), w')
    end
  else (Ok (if ttl_missing h then rb_count_noTtl r
            else if ttl_malformed h then rb_count_malformed r else r), w).
Proof.
  unfold reap_handle, past_ttl, ttl_missing, ttl_malformed, ttl_tag.
  destruct (handle_tag h _) as [v|]; [|done]. cbn [fmap option_fmap option_map is_null].
  set (x := to_number _). clearbody x.
  destruct (num_isFinite x), (SFleb x (S754_zero false)); cbn [negb orb andb]; try done.
  destruct (SFltb (num_of_Z now) x); cbn [negb]; [done|].
  unfold try_catch. rewrite bind_eq. by destruct (be_terminateInstance b h w) as [[]].
Qed.

Lemma past_ttl_exclusive now h :
  past_ttl now h = true → ttl_missing h = false ∧ ttl_malformed h = false.
Proof.
  unfold past_ttl, ttl_missing, ttl_malformed. destruct (ttl_tag h) as [x|]; [|done].
  by destruct (num_isFinite x), (SFleb x _).
Qed.

Lemma ttl_missing_malformed h : ttl_missing h = true → ttl_malformed h = false.
Proof. unfold ttl_missing, ttl_malformed. by destruct (ttl_tag h). Qed.

(** The result of a sweep of [hs] that failed on [errs], on top of [r]. *)
Definition sweep_result (now : Z) (hs : list CloudInstanceHandle) (errs : list (string * string))
    (r : ReaperBackendResult) : ReaperBackendResult :=
  mkReaperBackendResult (rb_backend r) (rb_inspected r)
    (rb_malformed r + length (select ttl_malformed hs))
    (rb_noTtl r + length (select ttl_missing hs))
    (rb_terminated r + (length (select (past_ttl now) hs) - length errs))
    (rb_listError r) (rb_terminateErrors r ++ errs).

Lemma reap_handles_spec b now hs : ∀ r (w : World X), ∃ errs w',
  terminate_all b (select (past_ttl now) hs) w = (Ok errs, w') ∧
  (length errs ≤ length (select (past_ttl now) hs))%nat ∧
  reap_handles b now hs r w = (Ok (sweep_result now hs errs r), w').
Proof.
  induction hs as [|h hs IH]; intros r w.
  { exists [], w. split_and!; [done|simpl; lia|]. simpl. unfold sweep_result. simpl.
    rewrite !Nat.add_0_r, app_nil_r. by destruct r. }
  simpl. rewrite bind_eq, reap_handle_spec. destruct (past_ttl now h) eqn:Ep.
  - destruct (past_ttl_exclusive now h Ep) as [Em Ef]. unfold sweep_result. simpl. rewrite Em, Ef.
    unfold try_catch. rewrite !bind_eq.
    destruct (be_terminateInstance b h w) as [[[]|e] w1]; simpl.
    + destruct (IH (rb_count_terminated r) w1) as (errs & w2 & Et & Hl & ->).
      exists errs, w2. rewrite bind_eq, Et. split_and!; [done|lia|].
      unfold sweep_result. simpl. do 2 f_equal. rewrite Ep. f_equal. simpl; lia.
    + destruct (IH (rb_push_error (ch_id h) (err_message e) r) w1) as (errs & w2 & Et & Hl & ->).
      exists ((ch_id h, err_message e) :: errs), w2. rewrite bind_eq, Et. split_and!; [done|simpl; lia|].
      unfold sweep_result. simpl. by rewrite Ep, <- app_assoc.
  - set (r' := if ttl_missing h then _ else _).
    destruct (IH r' w) as (errs & w2 & Et & Hl & ->). exists errs, w2. split_and!; [done|done|].
    unfold sweep_result, r'. simpl. rewrite Ep. destruct (ttl_missing h) eqn:Em.
    + rewrite (ttl_missing_malformed h Em). simpl. do 2 f_equal. f_equal; lia.
    + destruct (ttl_malformed h); simpl; [do 2 f_equal; f_equal; lia|done].
Qed.

(** A sweep of one backend terminates exactly the listed instances whose
    lifetime tag is a positive finite number not later than now, in order, each
    attempt isolated from the others' failures; the counters and the error list
    describe precisely that.  Instances without the tag or with a malformed one
    are counted and left alone, and a failed listing terminates nothing. *)
Theorem reaper_sweep_exact now b (w : World X) :
  reap_backend now b w =
  match be_listInstances b [] w with
  | (Throw e, w1) =>
    (Ok (mkReaperBackendResult (be_name b) 0 0 0 0 (Some (err_message e)) []), w1)
  | (Ok hs, w1) =>
    match terminate_all b (select (past_ttl now) hs) w1 with
    | (Ok errs, w2) =>
      (Ok (mkReaperBackendResult (be_name b) (length hs) (length (select ttl_malformed hs))
             (length (select ttl_missing hs)) (length (select (past_ttl now) hs) - length errs)
             None errs), w2)
    | (Throw e, w2) => (Throw e, w2)
    end
  end.
Proof.
  unfold reap_backend. rewrite bind_eq. unfold try_catch. rewrite bind_eq.
  destruct (be_listInstances b [] w) as [[hs|e] w1]; [|done]. cbn [mret M_ret].
  destruct (reap_handles_spec b now hs
    (mkReaperBackendResult (be_name b) (length hs) 0 0 0 None []) w1) as (errs & w2 & -> & _ & E).
  exact E.
Qed.

Lemma reap_backend_total now b (w : World X) : ∃ r w',
  reap_backend now b w = (Ok r, w') ∧ rb_backend r = be_name b ∧
  (rb_terminated r + length (rb_terminateErrors r) ≤ rb_inspected r)%nat.
Proof.
  unfold reap_backend. rewrite bind_eq. unfold try_catch. rewrite bind_eq.
  destruct (be_listInstances b [] w) as [[hs|e] w1]; cbn [mret M_ret].
  - destruct (reap_handles_spec b now hs
      (mkReaperBackendResult (be_name b) (length hs) 0 0 0 None []) w1) as (errs & w2 & _ & Hl & E).
    do 2 eexists. split; [exact E|]. split; [done|]. simpl.
    pose proof (select_length (past_ttl now) hs). lia.
  - do 2 eexists. split; [done|]. split; [done|]. simpl. lia.
Qed.

(** A sweep never fails as a whole: whatever listings or terminations throw,
    every registered backend is swept, in registration order, and reports a
    result in which it terminated or failed on no more instances than it saw;
    the total is the sum over the backends. *)
Theorem reaper_run_total backends (w : World X) : ∃ rr w',
  runOnceInner backends w = (Ok rr, w') ∧
  map rb_backend (rr_backends rr) = map be_name backends ∧
  Forall (λ r, (rb_terminated r + length (rb_terminateErrors r) ≤ rb_inspected r)%nat) (rr_backends rr) ∧
  rr_totalTerminated rr = list_sum (map rb_terminated (rr_backends rr)).
Proof.
  assert (Hc : ∀ t (bs : list (CloudBackend X)) (w : World X), ∃ rs w',
    for_collect bs (reap_backend t) w = (Ok rs, w') ∧ map rb_backend rs = map be_name bs ∧
    Forall (λ r, (rb_terminated r + length (rb_terminateErrors r) ≤ rb_inspected r)%nat) rs).
  { intros t bs. induction bs as [|b bs IH]; intros w0; simpl.
    - exists [], w0. split_and!; [done..|constructor].
    - destruct (reap_backend_total t b w0) as (r & w1 & E & En & Hl).
      destruct (IH w1) as (rs & w2 & E2 & En2 & Hf). exists (r :: rs), w2.
      rewrite (bind_ok _ _ _ _ _ E), (bind_ok _ _ _ _ _ E2). simpl. rewrite En, En2.
      split_and!; [done|done|by constructor]. }
  unfold runOnceInner.
  rewrite (bind_ok _ _ w (toISOString (clock (w_clock w))) (ticked w)) by exact eq_refl.
  rewrite (bind_ok _ _ (ticked w) (clock (S (w_clock w))) (ticked (ticked w))) by exact eq_refl.
  destruct (Hc (clock (S (w_clock w)) / 1000) backends (ticked (ticked w))) as (rs & w' & E & En & Hf).
  rewrite (bind_ok _ _ _ _ _ E).
  do 2 eexists. split; [exact eq_refl|]. split_and!; [done|done|]. cbn [rr_totalTerminated rr_backends].
  induction rs as [|r rs IH]; [done|]. simpl. f_equal.
  clear. induction rs; simpl; congruence.
Qed.
End sweep.

(** The deadline written at provision time is the one the reaper enforces:
    when the service reports the tags it was given and [Number] reads back what
    [String] wrote, the instance is past its lifetime exactly when the sweep's
    clock has reached floor(now / 1000) + ttl * 60, whatever tags the caller
    added. *)
Theorem provisioned_deadline_enforced `{JsEngine} id config orgId ttl now sweep :
  let expires := num_add (num_of_Z (now / 1000)) (num_mul ttl (num_of_Z 60)) in
  to_number (Some (JStr (num_to_string expires))) = expires →
  num_isFinite expires = true → SFleb expires (S754_zero false) = false →
  past_ttl sweep (reported_handle id (buildInstanceTags config orgId ttl now)) =
  negb (SFltb (num_of_Z sweep) expires).
Proof.
  intros expires Hrt Hf Hp. unfold past_ttl, ttl_tag.
  rewrite reported_sentinel by (unfold sentinelKeys; rewrite !elem_of_cons; tauto).
  cbn [fmap option_fmap option_map]. change (sentinel_value orgId ttl now SIGNALMAN_TTL_EXPIRES_AT_TAG_KEY)
    with (num_to_string expires).
  by rewrite Hrt, Hf, Hp.
Qed.

Lemma provisioned_deadline_enforced_witness :
  past_ttl (epoch2025 / 1000 + 3600)
    (reported_handle "i-1" (buildInstanceTags fx_config "o1" (num_of_Z 60) epoch2025)) = true ∧
  past_ttl (epoch2025 / 1000 + 3599)
    (reported_handle "i-1" (buildInstanceTags fx_config "o1" (num_of_Z 60) epoch2025)) = false.
Proof.
  split; etransitivity.
  - apply (provisioned_deadline_enforced "i-1" fx_config "o1" (num_of_Z 60) epoch2025
      (epoch2025 / 1000 + 3600)); by vm_compute.
  - by vm_compute.
  - apply (provisioned_deadline_enforced "i-1" fx_config "o1" (num_of_Z 60) epoch2025
      (epoch2025 / 1000 + 3599)); by vm_compute.
  - by vm_compute.
Defined.

(** ** Provisioning *)

Section provision.
Context {X : Type} `{Oracle} `{JsEngine} `{Ec2 X}.

(** Nothing was written since [w0], and the clock did not go back. *)
Definition quiet (w0 w : World X) : Prop := w_db w = w_db w0 ∧ (w_clock w0 ≤ w_clock w)%nat.

Lemma quiet_refl w : quiet w w.
Proof. by split. Qed.

Lemma quiet_external {A} w0 (f : X → Res A * X) : preserves (quiet w0) (external f).
Proof. intros w [? ?]. unfold external. by destruct (f (w_ext w)). Qed.

Lemma quiet_nowDate w0 : preserves (quiet w0) nowDate.
Proof. intros w [? ?]. split; [done|]. simpl. lia. Qed.

Lemma quiet_status w0 be h : preserves (quiet w0) (aws_getInstanceStatus be h).
Proof.
  unfold aws_getInstanceStatus, ec2_send. apply preserves_bind; [apply quiet_external|].
  intros [err|o]; [destruct (isAwsErrorCode _ _); apply preserves_throw|].
  destruct (do_Reservations o) as [|[|]]; auto with preserve.
Qed.

Lemma quiet_poll w0 be h deadline fuel : preserves (quiet w0) (aws_poll be h deadline fuel).
Proof.
  induction fuel as [|fuel IH]; cbn [aws_poll]; [apply preserves_ret|].
  apply preserves_bind; [apply quiet_nowDate|]. intros now.
  destruct (now <? deadline); [|apply preserves_throw].
  apply preserves_bind; [apply quiet_status|]. intros status.
  destruct (cst_state status); auto with preserve;
    (apply preserves_bind; [apply quiet_nowDate|]; intros now'; cbv zeta;
     destruct (_ <=? _); [apply preserves_throw|];
     apply preserves_bind; [apply quiet_external|by intros _]).
Qed.

Lemma quiet_wait w0 be h fuel : preserves (quiet w0) (waitUntilRunning be h fuel).
Proof. apply preserves_bind; [apply quiet_nowDate|]. intros. apply quiet_poll. Qed.

(** A quiet step, then the rest. *)
Lemma post_quiet {A B} (m : M X A) (k : A → M X B) w0 w (P : World X → Prop) :
  preserves (quiet w0) m → quiet w0 w → (∀ w', quiet w0 w' → P w') →
  (∀ a w', quiet w0 w' → P (k a w').2) → P ((m ≫= k) w).2.
Proof.
  intros Hm Hw HP Hk. rewrite bind_eq. specialize (Hm w Hw).
  destruct (m w) as [[a|e] w']; [by apply Hk|by apply HP].
Qed.

Lemma status_clock be h (w : World X) : w_clock (aws_getInstanceStatus be h w).2 = w_clock w.
Proof.
  unfold aws_getInstanceStatus, ec2_send. rewrite bind_eq. unfold external.
  destruct (DescribeById (ch_id h) (w_ext w)) as [[err|o] x].
  - by destruct (isAwsErrorCode _ _).
  - by destruct (do_Reservations o) as [|[|]].
Qed.

Lemma aws_poll_terminates be h deadline fuel : ∀ n (w : World X),
  deadline ≤ clock (w_clock w + n) → (n < fuel)%nat →
  (aws_poll be h deadline fuel w).1 ≠ Ok None.
Proof.
  induction fuel as [|fuel IH]; intros n w Hd Hn; [lia|]. cbn [aws_poll].
  rewrite (bind_ok _ _ w (clock (w_clock w)) (ticked w)) by exact eq_refl.
  destruct (Z.ltb_spec (clock (w_clock w)) deadline) as [Hlt|]; [|done].
  rewrite bind_eq. pose proof (status_clock be h (ticked w)) as Hc. simpl w_clock in Hc.
  destruct (aws_getInstanceStatus be h (ticked w)) as [[status|e] w1]; [|done]. simpl in Hc.
  assert (Hrest : ((now' ← nowDate;
     let remaining := deadline - now' in
     if remaining <=? 0 then aws_timeout be h
     else external (λ x, (Ok (), sleep_ms (Z.min (aws_pollIntervalMs be) remaining) x));;
       aws_poll be h deadline fuel) w1).1 ≠ Ok None).
  { rewrite (bind_ok _ _ w1 (clock (w_clock w1)) (ticked w1)) by exact eq_refl. cbv beta zeta.
    destruct (Z.leb_spec (deadline - clock (w_clock w1)) 0) as [|Hr]; [done|].
    rewrite bind_eq. unfold external at 1. cbn [w_db w_clock w_ids w_ext ticked].
    destruct n as [|[|n]].
    - rewrite Nat.add_0_r in Hd. lia.
    - rewrite Hc in Hr. replace (w_clock w + 1)%nat with (S (w_clock w)) in Hd by lia. lia.
    - apply (IH n); [|lia]. simpl w_clock. rewrite Hc.
      replace (S (S (w_clock w)) + n)%nat with (w_clock w + S (S n))%nat by lia. exact Hd. }
  destruct (cst_state status); try done; exact Hrest.
Qed.

(** Waiting for an instance ends: once the wall clock reaches the deadline at
    some reading, that many polls are enough for the wait to return or throw,
    whatever the service answers. *)
Theorem waitUntilRunning_terminates be h fuel n (w : World X) :
  clock (w_clock w) + aws_pollTimeoutMs be ≤ clock (S (w_clock w) + n) → (n < fuel)%nat →
  (waitUntilRunning be h fuel w).1 ≠ Ok None.
Proof.
  intros Hd Hn. unfold waitUntilRunning.
  rewrite (bind_ok _ _ w (clock (w_clock w)) (ticked w)) by exact eq_refl.
  by apply (aws_poll_terminates be h _ fuel n).
Qed.

(** The organisation and the estimate the gate is asked about. *)
Definition config_org (config : CloudInstanceConfig) : string := cic_org_id config ?? "default".
Definition config_estimate (config : CloudInstanceConfig) : Cents :=
  estimateInstanceCostCents (cic_instance_type config) (cic_region config)
    (cic_ttl_minutes config ?? num_of_Z DEFAULT_INSTANCE_TTL_MINUTES).

Lemma checkForConfig_eq config :
  BudgetGate_checkForConfig config = BudgetGate_check (X:=X) (config_org config) (config_estimate config).
Proof. done. Qed.

(** Recording a provision adds its estimate to the month, or nothing. *)
Lemma recordStart_spend orgId backend inst ty region ttl now (w : World X) n :
  estimateInstanceCostCents ty region ttl = CentsInt n →
  monthBoundsUtc now = monthBoundsUtc (clock (w_clock w)) →
  billable (clock (w_clock w)) →
  let w' := (BudgetGate_recordStart orgId backend inst ty region ttl w).2 in
  month_spend orgId now (w_db w') = month_spend orgId now (w_db w) + n ∨
  month_spend orgId now (w_db w') = month_spend orgId now (w_db w).
Proof.
  intros En Em Hb2. unfold BudgetGate_recordStart. rewrite En.
  rewrite (bind_ok _ _ w (clock (w_clock w)) (ticked w)) by exact eq_refl. cbv beta.
  rewrite bind_eq. unfold CloudUsageRepo_recordStart.
  rewrite (bind_ok _ _ (ticked w) (fresh_id (w_ids w))
    (mkWorld (w_db w) (S (w_clock w)) (S (w_ids w)) (w_ext w))) by exact eq_refl.
  cbv beta zeta. rewrite bind_eq.
  destruct (db_insert (X:=X) _ _ _) as [[[]|e] w1] eqn:Ei; cbn [snd mret M_ret].
  - left. apply db_insert_inv in Ei as [-> _]. cbn [w_db set_db w_clock w_ids ticked].
    unfold month_spend. rewrite Em. set (s := toISOString _).
    cbn [db_cloud_org_usage tset tget w_db]. rewrite select_app, sum_cents_app. f_equal.
    cbn [select]. unfold usage_in_range. cbn [cu_orgId cu_startedAt].
    rewrite bool_decide_eq_true_2 by done.
    pose proof (monthBoundsUtc_month _ (clock (w_clock w)) Hb2 (billable_iso _ Hb2)) as Hmb.
    destruct (monthBoundsUtc (clock (w_clock w))) as [f t]. cbn [fst snd andb].
    fold s in Hmb. rewrite (proj2 Hmb) by done. simpl. lia.
  - right. apply db_insert_throw in Ei as [-> _]. done.
Qed.

(** The budget is checked before the vendor is called: when the month's spend
    and the estimate are above the limit, the provision throws, no EC2 call has
    been made and nothing has been written. *)
Theorem over_budget_never_reaches_vendor be fuel config (w : World X) b :
  find_first (λ r, cb_orgId r =?s config_org config) (db_cloud_org_budget (w_db w)) = Some b →
  cents_gt (cents_add (month_spend (config_org config) (clock (w_clock w)) (w_db w))
              (config_estimate config)) (cb_monthlyCentsLimit b) = true →
  ∃ e w', aws_provisionInstance be true fuel config w = (Throw e, w') ∧
    w_ext w' = w_ext w ∧ w_db w' = w_db w.
Proof.
  intros Eb Eg. unfold aws_provisionInstance.
  destruct (cic_image_ref config =?s ""); [by do 2 eexists|].
  destruct (cic_instance_type config =?s ""); [by do 2 eexists|].
  destruct (negb (cic_region config =?s aws_region be)); [by do 2 eexists|].
  cbv beta zeta. rewrite !bind_eq, checkForConfig_eq.
  destruct (check_run (config_org config) (config_estimate config) w b Eb) as [msg ->].
  rewrite Eg. by do 2 eexists.
Qed.

(** C39: A provision through the gate that runs on its own, within one calendar month,
    does not take the recorded spend of an organisation above its limit: however
    the provision ends, the recorded spend of the month is afterwards at most the
    limit, or what it was before if that was already more. *)
Theorem provision_within_budget be fuel config (w : World X) b :
  find_first (λ r, cb_orgId r =?s config_org config) (db_cloud_org_budget (w_db w)) = Some b →
  let now := clock (w_clock w) in
  (∀ n, (w_clock w ≤ n)%nat → billable (clock n) ∧ monthBoundsUtc now = monthBoundsUtc (clock n)) →
  month_spend (config_org config) now (w_db (aws_provisionInstance be true fuel config w).2) ≤
  Z.max (month_spend (config_org config) now (w_db w)) (cb_monthlyCentsLimit b).
Proof.
  intros Eb now Hmonth. unfold aws_provisionInstance.
  destruct (cic_image_ref config =?s ""); [simpl; lia|].
  destruct (cic_instance_type config =?s ""); [simpl; lia|].
  destruct (cic_region config =?s aws_region be) eqn:Er; cbn [negb]; [|simpl; lia].
  apply bool_decide_eq_true_1 in Er. cbv beta zeta. rewrite bind_eq, bind_eq, checkForConfig_eq.
  destruct (check_run (config_org config) (config_estimate config) w b Eb) as [msg ->].
  fold now. set (spend := month_spend (config_org config) now (w_db w)).
  destruct (cents_gt _ _) eqn:Eg; [simpl; lia|]. cbn [mret M_ret].
  set (P := λ w' : World X, month_spend (config_org config) now (w_db w') ≤
    Z.max spend (cb_monthlyCentsLimit b)).
  assert (HP : ∀ w', quiet w w' → P w') by (intros w' [Hd _]; unfold P; rewrite Hd; fold spend; lia).
  match goal with |- month_spend _ _ (w_db ?w') ≤ _ => change (P w') end.
  apply (post_quiet _ _ w); [apply quiet_nowDate|by split; simpl; [|lia]|exact HP|].
  intros t w1 Q1. cbv beta zeta. destruct (bool_decide (_ = NM_azure_bastion)); [by apply HP|].
  apply (post_quiet _ _ w); [apply quiet_external|done|exact HP|].
  intros [err|instances] w2 Q2; [by apply HP|].
  destruct (head instances ≫= _) as [id|]; [|by apply HP].
  apply (post_quiet _ _ w); [apply quiet_wait|done|exact HP|].
  intros [[]|] w3 Q3; [|by apply HP]. rewrite bind_eq. unfold try_catch.
  set (rs := BudgetGate_recordStart _ _ _ _ _ _).
  assert (HR : P (rs w3).2); [|by destruct (rs w3) as [[]]].
  unfold rs, P. rewrite <- Er. clear rs. cbn [ch_id].
  fold (config_org config). destruct Q3 as [Hd Hc]. destruct (Hmonth _ Hc) as [Hb Hm].
  unfold config_estimate in Eg. destruct (estimateInstanceCostCents _ _ _) as [n| |] eqn:En.
  - simpl in Eg. apply Z.ltb_ge in Eg.
    destruct (recordStart_spend (config_org config) "aws" id (cic_instance_type config)
      (cic_region config) _ now w3 n En Hm Hb) as [E|E];
      cbv zeta in E; unfold config_org in *; rewrite E, Hd; fold spend; lia.
  - done.
  - unfold BudgetGate_recordStart. rewrite En. rewrite bind_eq. simpl. rewrite Hd. fold spend. lia.
Qed.
End provision.

Definition fx_aws : AwsBackend :=
  mkAwsBackend "us-east-1" AWS_PROVISION_POLL_INTERVAL_MS AWS_PROVISION_TIMEOUT_MS.

Definition fx_handle : CloudInstanceHandle :=
  mkCloudInstanceHandle "i-new" "aws" "probe" "us-east-1" None None.

Lemma waitUntilRunning_terminates_witness :
  (waitUntilRunning fx_aws fx_handle 60 fx_world).1 ≠ Ok None.
Proof. apply (waitUntilRunning_terminates fx_aws fx_handle 60 59 fx_world); [by vm_compute|lia]. Defined.

(** 600 hours of the largest type do not fit in what is left of the budget. *)
Definition fx_config_large : CloudInstanceConfig :=
  mkCloudInstanceConfig "us-east-1" "m5.4xlarge" "ami-1" "probe" (Some "o1") (Some (num_of_Z 36000))
    None None.

Lemma over_budget_never_reaches_vendor_witness :
  ∃ e w', aws_provisionInstance fx_aws true 60 fx_config_large fx_world = (Throw e, w') ∧
    w_ext w' = w_ext fx_world ∧ w_db w' = w_db fx_world.
Proof.
  apply (over_budget_never_reaches_vendor fx_aws 60 fx_config_large fx_world fx_budget); by vm_compute.
Defined.

Lemma fx_month n : billable (clock n) ∧ monthBoundsUtc epoch2025 = monthBoundsUtc (clock n).
Proof.
  assert (Hb : billable (clock n)).
  { simpl. unfold billable, epoch2025. pose proof (Z.mod_pos_bound (Z.of_nat n) 1000000). lia. }
  split; [done|]. unfold monthBoundsUtc.
  assert (getUTCFullYear (clock n) = 2025 ∧ getUTCMonth (clock n) = 0) as [-> ->]; [|by vm_compute].
  apply month_interval; [lia..|]. simpl.
  assert (Date_UTC 2025 0 = 1735689600000) as -> by (by vm_compute).
  assert (Date_UTC 2025 (0 + 1) = 1738368000000) as -> by (by vm_compute).
  unfold epoch2025. pose proof (Z.mod_pos_bound (Z.of_nat n) 1000000). lia.
Qed.

Lemma provision_within_budget_witness :
  month_spend (config_org fx_config) (clock (w_clock fx_world))
    (w_db (aws_provisionInstance fx_aws true 60 fx_config fx_world).2) ≤
  Z.max (month_spend (config_org fx_config) (clock (w_clock fx_world)) (w_db fx_world))
    (cb_monthlyCentsLimit fx_budget).
Proof.
  apply (provision_within_budget fx_aws 60 fx_config fx_world fx_budget); [exact eq_refl|].
  intros n _. destruct (fx_month n) as [? Hn]. destruct (fx_month (w_clock fx_world)) as [_ H0].
  split; [done|]. by rewrite <- H0.
Defined.

(** Two provisions that are checked before either is recorded: both pass the gate, and
    the month ends above the limit of 10000 cents. *)
Example interleaved_provisions_exceed :
  let config := mkCloudInstanceConfig "us-east-1" "m5.4xlarge" "ami-1" "probe" (Some "o1") (Some (num_of_Z 4000)) None None in
  let record id := BudgetGate_recordStart (X := Trace) "o1" "aws" id "m5.4xlarge" "us-east-1" (num_of_Z 4000) in
  let r := (BudgetGate_checkForConfig config;; BudgetGate_checkForConfig config;; record "i-7";; record "i-8") fx_world in
  r.1 = Ok () ∧ month_spend "o1" (clock 0) (w_db r.2) = 13068.
Proof. vm_compute. split; reflexivity. Qed.
