(* ===== verification/CascadeSpec.v ===== *)
(** What a cascade of promotions promises: it ends, whatever the policies, and
    the depth it can reach is known beforehand. *)

From S2P Require Import Prelude JsTime JsVal Types World Logic StorageCatalog StorageDeploy StorageOps.
From S2P Require Import Signing BuildYaml Build Probes Deploy CloudTypes K8s Events Promotion ReleaseDeploy Cascade.
From S2P Require Import Fixture DeployFixture.

(** ** What a program returns *)

Section returns.
Context {X : Type}.

Definition returns {A} (P : A → Prop) (m : M X A) : Prop := ∀ w a w', m w = (Ok a, w') → P a.

Lemma returns_ret {A} (P : A → Prop) a : P a → returns P (mret a).
Proof. intros Ha w b w' [= <- _]. done. Qed.
Lemma returns_throw {A} (P : A → Prop) e : returns P (throw e : M X A).
Proof. by intros w b w' [=]. Qed.
Lemma returns_bind {A B} (Q : A → Prop) (P : B → Prop) (m : M X A) (k : A → M X B) :
  returns Q m → (∀ a, Q a → returns P (k a)) → returns P (m ≫= k).
Proof. intros Hm Hk w b w' E. apply bind_inv_ok in E as (a & w1 & E1 & E2). eapply Hk; [by eapply Hm|done]. Qed.
Lemma returns_seq {A B} (P : B → Prop) (m : M X A) (k : A → M X B) :
  (∀ a, returns P (k a)) → returns P (m ≫= k).
Proof. intros Hk. eapply (returns_bind (λ _, True)); [done|auto]. Qed.
Lemma returns_try {A} (P : A → Prop) (m : M X A) h :
  returns P m → (∀ e, returns P (h e)) → returns P (try_catch m h).
Proof.
  intros Hm Hh w a w' E. unfold try_catch in E. destruct (m w) as [[b|e] w1] eqn:Em.
  - injection E as <- <-. by eapply Hm.
  - by eapply Hh.
Qed.
End returns.

Ltac returning :=
  repeat first
    [ done
    | apply returns_ret
    | apply returns_throw
    | apply returns_try; [|intros ?]
    | apply returns_seq; intros ?
    | match goal with
      | |- returns _ (match ?x with _ => _ end) => destruct x
      | |- returns _ (let '_ := ?x in _) => destruct x
      end ].

Section release.
Context {X : Type} `{Oracle} `{JsEngine} `{K8sHost X} `{BuildHost X} `{R : !CloudRouter X}.
Context `{Zod} `{DeployBackend X} `{DeployHost X} `{Platform X}.

Lemma release_get_returns r : returns (X:=X) (λ o, ∀ rel, o = Some rel → rel_id rel = r) (ReleaseRepo_get r).
Proof.
  intros w o w' [= <- _] rel E. apply find_first_Some in E as [_ Hp]. by bool_hyps.
Qed.

Lemma ready_release_returns r : returns (X:=X) (λ rel, rel_id rel = r) (ready_release r).
Proof.
  unfold ready_release. eapply returns_bind; [apply release_get_returns|]. intros [rel|] Hr; returning.
  by apply Hr.
Qed.

Lemma runDeploy_returns o r t a g :
  returns (X:=X) (λ res, rel_id (rd_release res) = r) (runDeploy o r t a g).
Proof.
  unfold runDeploy. eapply returns_bind; [apply release_get_returns|]. intros [rel|] Hr; [|returning].
  specialize (Hr rel eq_refl). unfold deploy_body, deploy_failed. returning.
Qed.

Lemma cloud_deploy_returns o r t a :
  returns (X:=X) (λ res, rel_id (rd_release res) = r) (runCloudReleaseDeploy o r t a).
Proof.
  unfold runCloudReleaseDeploy, runCloudVmReleaseDeploy, runCloudStackReleaseDeploy.
  assert (Hrel : ∀ (k : Release → M X RunDeployResult),
    (∀ rel, rel_id rel = r → returns (λ res, rel_id (rd_release res) = r) (k rel)) →
    returns (λ res, rel_id (rd_release res) = r) (ready_release r ≫= k)).
  { intros k Hk. by eapply returns_bind; [apply ready_release_returns|]. }
  destruct (tg_kind t); try apply returns_throw; apply returns_seq; intros c; apply Hrel; intros rel Hr.
  - unfold cloud_vm_land, cloud_vm_failed.
    apply returns_seq; intros ?. cbv zeta. case_match; [apply returns_throw|].
    do 2 (apply returns_seq; intros ?). apply returns_seq; intros [[address port] tunnel].
    eapply (returns_bind (λ res, rel_id (rd_release res) = r)); [|intros res Hres]; returning.
  - unfold cloud_stack_body, cloud_stack_failed. returning.
Qed.
End release.

(** ** Open destinations *)

Definition has_approval (r t : string) (d : DB) : bool :=
  existsb (λ a, ap_live a && (ap_releaseId a =?s r) && (ap_destTargetId a =?s t)) (db_approval d).

(** The targets some policy promotes to, which [r] has no live approval for. *)
Definition openings (r : string) (d : DB) : nat :=
  length (select (λ t, negb (has_approval r t d))
            (remove_dups (map pp_destTargetId (db_promotion_policy d)))).

Lemma has_approval_true r t d :
  has_approval r t d = true ↔ ∃ a, a ∈ db_approval d ∧ ap_live a = true ∧ ap_pair a = (r, t).
Proof.
  unfold has_approval. rewrite existsb_exists. unfold ap_pair. split.
  - intros (a & Ha%list_elem_of_In & Hp). bool_hyps. exists a. by subst.
  - intros (a & Ha & Hl & [= <- <-]). exists a. split; [by apply list_elem_of_In|].
    by rewrite Hl, !bool_decide_eq_true_2.
Qed.

Lemma has_approval_mono r t base d d' :
  db_approval d = base → extends base d' → has_approval r t d = true → has_approval r t d' = true.
Proof.
  intros Eb [_ [l Hl]]. rewrite !has_approval_true. intros (a & Ha & ?). exists a. split; [|done].
  rewrite Hl, <- Eb. apply elem_of_app. by left.
Qed.

Lemma select_length_mono {R} (p q : R → bool) l :
  (∀ x, x ∈ l → p x = true → q x = true) → (length (select p l) ≤ length (select q l))%nat.
Proof.
  induction l as [|x l IH]; intros Hpq; [done|]. simpl.
  assert (length (select p l) ≤ length (select q l))%nat by (apply IH; intros; apply Hpq; [by right|done]).
  destruct (p x) eqn:Ep; [rewrite Hpq by (done || left); simpl; lia|].
  destruct (q x); simpl; lia.
Qed.

Lemma select_length_lt {R} (p q : R → bool) l x :
  (∀ x, x ∈ l → p x = true → q x = true) → x ∈ l → p x = false → q x = true →
  (length (select p l) < length (select q l))%nat.
Proof.
  induction l as [|y l IH]; intros Hpq Hx Ep Eq; [by apply elem_of_nil in Hx|].
  assert (Hm : (length (select p l) ≤ length (select q l))%nat).
  { apply select_length_mono. intros; apply Hpq; [by right|done]. }
  apply elem_of_cons in Hx as [->|Hx]; simpl.
  - rewrite Ep, Eq. simpl. lia.
  - assert (length (select p l) < length (select q l))%nat by (apply IH; try done; intros; apply Hpq; [by right|done]).
    destruct (p y) eqn:Ey; [rewrite Hpq by (done || left); simpl; lia|]. destruct (q y); simpl; lia.
Qed.

Lemma openings_mono r d d' :
  db_promotion_policy d' = db_promotion_policy d → extends (db_approval d) d' →
  (openings r d' ≤ openings r d)%nat.
Proof.
  intros Ep He. unfold openings. rewrite Ep. apply select_length_mono. intros t _.
  rewrite !negb_true_iff, <- !not_true_iff_false. intros Hn Hd. apply Hn. by eapply has_approval_mono.
Qed.

(** Filing an approval for an open destination closes it. *)
Lemma openings_filed r d f policy :
  promotion_ok (filed f d) → policy ∈ db_promotion_policy d →
  no_approval r (pp_destTargetId policy) d → ap_live f = true → ap_pair f = (r, pp_destTargetId policy) →
  (openings r (filed f d) < openings r d)%nat.
Proof.
  intros Hok Hp Hn Hl Hf. unfold openings. simpl db_promotion_policy.
  apply (select_length_lt _ _ _ (pp_destTargetId policy)).
  - intros t _. rewrite !negb_true_iff, <- !not_true_iff_false. intros Ha Hd. apply Ha.
    eapply (has_approval_mono r t (db_approval d) d); [done| |done]. split; [done|]. by exists [f].
  - apply elem_of_remove_dups, list_elem_of_fmap. by exists policy.
  - apply negb_false_iff, has_approval_true. exists f. split; [|done]. apply elem_of_app. right. by left.
  - apply negb_true_iff, not_true_iff_false. rewrite has_approval_true. intros (a & Ha & La & Ep).
    by apply (Hn a).
Qed.

(** ** Cascades of bounded depth *)

Section agree.
Context {X : Type} `{Oracle} `{JsEngine}.

Definition fire_with (D : DeployInvoker X) := firePolicy (X:=X).
Definition dispatch_with (D : DeployInvoker X) := dispatchDeploy (X:=X).
Definition deploy_with (D : DeployInvoker X) := deploy (X:=X).

(** Two callbacks that deploy [r] alike while fewer than [k] destinations are open. *)
Definition agree (D1 D2 : DeployInvoker X) (r : string) (k : nat) : Prop :=
  ∀ t a p w, promotion_ok (w_db w) → (openings r (w_db w) < k)%nat →
    deploy_with D1 r t a p w = deploy_with D2 r t a p w.

Context (D1 D2 : DeployInvoker X) (release : Release) (k : nat).
Hypothesis Hagree : agree D1 D2 (rel_id release) k.

Lemma dispatch_agree policy f (w : World X) :
  promotion_ok (w_db w) → f ∈ db_approval (w_db w) → ap_live f = true →
  (openings (rel_id release) (w_db w) < k)%nat →
  dispatch_with D1 policy f release w = dispatch_with D2 policy f release w.
Proof.
  intros Hw Hf Hl Ho. unfold dispatch_with. rewrite !dispatchDeploy_run by done. cbv zeta.
  pose proof (Hagree (pp_destTargetId policy) f policy (ticked w) Hw Ho) as E. unfold deploy_with in E.
  by rewrite E.
Qed.

(** The world while a listener walks its policies. *)
Definition walking (pol : list PromotionPolicy) (w : World X) : Prop :=
  promotion_ok (w_db w) ∧ db_promotion_policy (w_db w) = pol ∧ (openings (rel_id release) (w_db w) ≤ k)%nat.

Lemma fire_agree pol policy (w : World X) :
  walking pol w → policy ∈ pol →
  fire_with D1 policy release w = fire_with D2 policy release w ∧ walking pol (fire_with D1 policy release w).2.
Proof.
  intros (Hw & Hp & Ho) Hin. unfold fire_with. split.
  - destruct (firePolicy_cases policy release w Hw) as [(r & w1 & E & _)|(f & w1 & Hn & Hd & Hw1 & Hl & Hpair & _ & E)].
    + by rewrite !E.
    + rewrite !E. apply (dispatch_agree policy f w1); [done|rewrite Hd; apply elem_of_app; right; by left|done|].
      rewrite Hd. eapply Nat.lt_le_trans; [|exact Ho].
      apply (openings_filed _ _ _ policy); [by rewrite <- Hd|by rewrite Hp|done|done|done].
  - assert (He : extends (db_approval (w_db w)) (w_db (fire_with D1 policy release w).2)).
    { apply (firePolicy_extends (D:=D1)). split; [done|]. exists []. by rewrite app_nil_r. }
    assert (Ep : db_promotion_policy (w_db (fire_with D1 policy release w).2) = pol).
    { apply (firePolicy_unchanged (D:=D1) T_promotion_policy pol policy release);
        [done|intros; apply deploy_policies|exact Hp]. }
    split; [apply He|]. split; [done|]. eapply Nat.le_trans; [|exact Ho].
    apply openings_mono; [exact (eq_trans Ep (eq_sym Hp))|exact He].
Qed.

Lemma fires_agree pol policies (w : World X) :
  walking pol w → (∀ p, p ∈ policies → p ∈ pol) →
  for_collect policies (λ p, fire_with D1 p release) w = for_collect policies (λ p, fire_with D2 p release) w.
Proof.
  revert w. induction policies as [|p l IH]; intros w Hw Hin; [done|]. simpl. rewrite !bind_eq.
  destruct (fire_agree pol p w Hw) as [E Hw']; [apply Hin; left|]. rewrite <- E.
  destruct (fire_with D1 p release w) as [[o|e] w1]; [|done]. simpl in Hw'. rewrite !bind_eq.
  by rewrite (IH w1 Hw') by (intros; apply Hin; by right).
Qed.
End agree.

Section depth.
Context {X : Type} `{Oracle} `{JsEngine} `{K8sHost X} `{BuildHost X} `{R : !CloudRouter X}.
Context `{Zod} `{DeployBackend X} `{DeployHost X} `{Platform X}.

Lemma bind_agree {A B} (m : M X A) (k1 k2 : A → M X B) (w : World X) :
  (∀ a w', m w = (Ok a, w') → k1 a w' = k2 a w') → (m ≫= k1) w = (m ≫= k2) w.
Proof. intros Hk. rewrite !bind_eq. destruct (m w) as [[a|e] w']; [by apply Hk|done]. Qed.

Lemma try_agree {A} (m1 m2 : M X A) h (w : World X) : m1 w = m2 w → try_catch m1 h w = try_catch m2 h w.
Proof. intros E. unfold try_catch. by rewrite E. Qed.

Definition release_deploy_with (D : DeployInvoker X) := runReleaseDeploy (X:=X).

(** States a deploy path goes through before it fires. *)
Definition before (base : list Approval) (pol : list PromotionPolicy) (d : DB) : Prop :=
  extends base d ∧ unchanged T_promotion_policy pol d.

Lemma before_writes base pol : deploy_writes X (before base pol).
Proof. apply and_writes; [apply extends_writes|by apply unchanged_writes]. Qed.

Lemma release_deploy_agree D1 D2 r k n a (w : World X) :
  agree D1 D2 r k → promotion_ok (w_db w) → (openings r (w_db w) ≤ k)%nat →
  release_deploy_with D1 (Some r) None None n a w = release_deploy_with D2 (Some r) None None n a w.
Proof.
  intros Hag Hw Ho. unfold release_deploy_with, runReleaseDeploy.
  set (base := db_approval (w_db w)). set (pol := db_promotion_policy (w_db w)).
  pose proof (before_writes base pol) as W.
  assert (Hb : on_db (before base pol) w).
  { split; [split; [done|]; exists []; by rewrite app_nil_r|done]. }
  apply bind_agree. intros o w1 E1.
  assert (Hb1 : on_db (before base pol) w1).
  { pose proof (active_org_writes _ W w Hb) as Hf. by rewrite E1 in Hf. }
  apply bind_agree. intros r' w2 E2.
  assert (r' = r ∧ w2 = w1) as [-> ->].
  { unfold resolve_release in E2. destruct (truthy (Some r)) as [s|] eqn:Et; [|done].
    simpl in Et. case_match; [done|]. injection Et as <-. by injection E2 as <- <-. }
  apply bind_agree. intros t w2 E3.
  assert (w2 = w1) as ->.
  { unfold target_named in E3. apply bind_inv_ok in E3 as (tg & w3 & [= _ <-] & E3).
    destruct tg; [by injection E3 as _ <-|done]. }
  destruct (isK8sTargetKind (tg_kind t)); [done|].
  apply bind_agree. intros res w2 E4.
  assert (rel_id (rd_release res) = r ∧ on_db (before base pol) w2) as [Hres Hb2].
  { destruct (isCloudTargetKind (tg_kind t)).
    - split; [by eapply cloud_deploy_returns|].
      pose proof (cloud_release_deploy_writes _ W o r t a w1 Hb1) as Hf. by rewrite E4 in Hf.
    - split; [by eapply runDeploy_returns|].
      pose proof (runDeploy_writes _ W o r (tg_id t) a None w1 Hb1) as Hf. by rewrite E4 in Hf. }
  apply bind_agree. intros [] w3 E5.
  assert (Hb3 : on_db (before base pol) w3).
  { unfold fire_deployed in E5. rewrite bind_nowIso in E5.
    apply bind_inv_ok in E5 as (x & w4 & E5 & [= <-]).
    match type of E5 with fireEventBestEffort ?ev ?wx = _ =>
      pose proof (fire_event_writes (before base pol) W ev wx Hb2) as Hf end. by rewrite E5 in Hf. }
  assert (E : fireTierToTierPromotionBestEffort (D:=D1) (rd_release res) (tg_id t) w3
            = fireTierToTierPromotionBestEffort (D:=D2) (rd_release res) (tg_id t) w3).
  { unfold fireTierToTierPromotionBestEffort. apply try_agree. unfold onReleaseDeployed.
    apply bind_agree. intros l w4 [= <- <-].
    apply (fires_agree D1 D2 (rd_release res) k) with (pol := pol); [by rewrite Hres| |].
    - split; [apply Hb3|]. split; [apply Hb3|]. rewrite Hres.
      eapply Nat.le_trans; [|exact Ho]. apply openings_mono; apply Hb3.
    - intros p. rewrite order_asc_elem, select_elem. intros [Hp _]. by destruct Hb3 as [_ <-]. }
  rewrite !bind_eq. destruct (bool_decide _); [|done]. by rewrite !bind_eq, E.
Qed.

Lemma next_agree D1 D2 r k :
  agree D1 D2 r k → agree (next_invoker (D:=D1)) (next_invoker (D:=D2)) r (S k).
Proof.
  intros Hag t a p w Hw Ho. unfold deploy_with, next_invoker. cbn [deploy]. unfold default_deploy.
  apply bind_agree. intros [tg|] w1 [= _ <-]; [|done]. apply try_agree. rewrite !bind_eq.
  pose proof (release_deploy_agree D1 D2 r k (tg_name tg) (Some "promotion") w Hag Hw) as E.
  unfold release_deploy_with in E. rewrite E by lia. done.
Qed.

(** C5: Cascades end.  With the production wiring, in which a landed deploy fires
    the next tier's policies and their deploys may land and fire again, the
    depth of a cascade is at most the number of destinations that the release
    has no live approval for, cyclic policies included: every bound above that
    number gives the same result and the same final state. *)
Theorem cascade_terminates n m r t a p (w : World X) :
  promotion_ok (w_db w) → (openings r (w_db w) < n)%nat → (n ≤ m)%nat →
  deploy (DeployInvoker := cascade_invoker n) r t a p w = deploy (DeployInvoker := cascade_invoker m) r t a p w.
Proof.
  intros Hw Ho Hm. cut (∀ n m, (n ≤ m)%nat → agree (cascade_invoker n) (cascade_invoker m) r n).
  { intros Ha. by apply (Ha n m Hm). }
  clear. induction n as [|n IH]; intros m Hm; [intros t a p w _ Ho; lia|].
  destruct m as [|m]; [lia|]. apply (next_agree _ _ r n). apply IH. lia.
Qed.
End depth.

(** Two targets that promote to each other have two openings; three levels are
    enough, and the release reaches blue, green and blue again. *)
Lemma cascade_terminates_witness :
  dx_cascade 3 = dx_cascade 5 ∧
  select (starts_with "APPLY") (w_ext (dx_cascade 5).2) = ["APPLY blue"; "APPLY green"; "APPLY blue"].
Proof.
  split; [|by vm_compute]. unfold dx_cascade. apply cascade_terminates; [apply dx_promotion_ok|vm_compute; lia|lia].
Defined.
