(* ===== verification/ReleaseDeploySpec.v ===== *)
(** What the Kubernetes and cloud adapters guarantee: a deploy that returns has
    landed, one that throws leaves the previous deployment active; and what a
    Kubernetes rollback leaves behind. *)

From S2P Require Import Prelude JsTime JsVal Types World Logic StorageCatalog StorageDeploy StorageOps.
From S2P Require Import Signing BuildYaml Build Probes Deploy CloudTypes Cloud K8s Events Promotion ReleaseDeploy.
From S2P Require Import Cascade Fixture DeployFixture StorageSpec DeploySpec.

Section body.
Context {X : Type} `{Oracle} (fresh_inj : ∀ m n, fresh_id m = fresh_id n → m = n).
Context (prev : option Deployment) (nid tid rid orgId : string) (orgs : list Org).

Hypothesis known : ∀ w : World X, db_org (w_db w) = orgs → org_known orgId w.

Notation flying := (in_flight (X:=X) prev nid tid rid orgs (λ _, True)).
Notation down := (landed (X:=X) prev nid tid rid orgs (λ _, True)).

(** A program that, run in flight, lands or is still in flight when it throws. *)
Definition lands (m : M X RunDeployResult) : Prop :=
  ∀ w, flying w →
    match m w with
    | (Ok res, w') => hsum_fail (rd_healthSummary res) ≤ 0 ∧
        ∃ w1, down (rd_deployment res) w1 ∧
        db_deployment (w_db w') = db_deployment (w_db w1) ∧ db_ok (w_db w')
    | (Throw _, w') => flying w'
    end.

Lemma lands_bind {A} (m : M X A) k : preserves flying m → (∀ a, lands (k a)) → lands (m ≫= k).
Proof.
  intros Hm Hk w Hw. rewrite bind_eq. specialize (Hm w Hw). destruct (m w) as [[a|e] w1]; [|done].
  by apply Hk.
Qed.

Lemma lands_throw e : lands (throw e).
Proof. by intros w Hw. Qed.

Lemma lands_try m (h : Err → M X RunDeployResult) :
  lands m → (∀ e, preserves flying (h e)) → (∀ e w, is_ok (h e w).1 = false) → lands (try_catch m h).
Proof.
  intros Hm Hh Ht w Hw. unfold try_catch. specialize (Hm w Hw).
  destruct (m w) as [[res|e] w1]; [done|]. specialize (Hh e w1 Hm). specialize (Ht e w1).
  by destruct (h e w1) as [[] w2].
Qed.

(** The tail the adapters share: make it active, write it down, return it. *)
Lemma lands_audit n hs w actor detail rel tg arts :
  down n w → hsum_fail hs ≤ 0 →
  match (AuditLogRepo_append orgId actor "release.deploy.completed" "deployment" nid detail;;
         mret (mkRunDeployResult n rel tg arts hs)) w with
  | (Ok res, w') => hsum_fail (rd_healthSummary res) ≤ 0 ∧
      ∃ w1, down (rd_deployment res) w1 ∧
      db_deployment (w_db w') = db_deployment (w_db w1) ∧ db_ok (w_db w')
  | (Throw _, w') => flying w'
  end.
Proof.
  intros Hn Hz.
  destruct (audit_run fresh_inj orgId actor "release.deploy.completed" "deployment" nid detail w)
    as (row & w3 & Ea & Hok & _ & _ & Hdb); [apply Hn|apply Hn|apply known, Hn|].
  rewrite (bind_ok _ _ _ _ _ Ea). split; [done|]. exists w. split_and!; [done| |done]. by rewrite Hdb.
Qed.

Lemma lands_promote hs actor detail rel tg arts :
  hsum_fail hs ≤ 0 →
  lands (finalized ← promote prev nid hs;
         AuditLogRepo_append orgId actor "release.deploy.completed" "deployment" nid detail;;
         mret (mkRunDeployResult finalized rel tg arts hs)).
Proof.
  intros Hz w Hw. destruct (promote_run _ _ _ _ _ _ hs w Hw) as (n & w1 & Ep & Hn).
  rewrite (bind_ok _ _ _ _ _ Ep). by apply lands_audit.
Qed.

Lemma promote_at_run now hs w :
  flying w → ∃ n w', promote_at now prev nid hs w = (Ok n, w') ∧ down n w'.
Proof.
  intros Hw. destruct (supersede_run _ _ _ _ _ _ w Hw) as (n & w1 & Es & Hc). unfold promote_at.
  fold (supersede (X:=X) prev). rewrite (bind_ok _ _ _ _ _ Es). by apply (activate_at _ _ _ _ _ _ now hs w1 n).
Qed.

Lemma lands_promote_at now hs actor detail rel tg arts :
  hsum_fail hs ≤ 0 →
  lands (finalized ← promote_at now prev nid hs;
         AuditLogRepo_append orgId actor "release.deploy.completed" "deployment" nid detail;;
         mret (mkRunDeployResult finalized rel tg arts hs)).
Proof.
  intros Hz w Hw. destruct (promote_at_run now hs w Hw) as (n & w1 & Ep & Hn).
  rewrite (bind_ok _ _ _ _ _ Ep). by apply lands_audit.
Qed.

(** *** Statements that keep a deploy in flight *)

Lemma flying_external {A} (f : X → Res A * X) : preserves flying (external f).
Proof. by apply in_flight_external. Qed.

Lemma flying_update patch st :
  dp_status patch = Some st → st ≠ DS_active → preserves flying (DeploymentRepo_update nid patch).
Proof.
  intros Hp Hst w Hw. destruct (in_flight_update prev nid tid rid orgs _ patch st w Hp Hst Hw) as (n & w' & E & Hw' & _).
  by rewrite E.
Qed.

Lemma flying_audit actor action ty en detail :
  preserves flying (AuditLogRepo_append orgId actor action ty en detail).
Proof.
  intros w Hw.
  destruct (in_flight_audit fresh_inj prev nid tid rid orgId orgs (λ _, True) actor action ty en detail w)
    as (row & w' & E & Hw' & _); [apply known, Hw|done|]. by rewrite E.
Qed.

Lemma flying_read {A} (f : DB → A) : preserves flying (read f).
Proof. by intros w Hw. Qed.
Lemma flying_observe {A} (f : X → A) : preserves flying (observe f).
Proof. by intros w Hw. Qed.
Lemma flying_lift {A} (r : Res A) : preserves flying (lift r).
Proof. by intros w Hw. Qed.

#[local] Hint Resolve flying_external flying_audit flying_read flying_observe flying_lift : preserve.
#[local] Hint Resolve in_flight_nowIso in_flight_nowDate in_flight_check : preserve.
#[local] Hint Extern 2 (preserves _ (DeploymentRepo_update _ _)) =>
  eapply flying_update; [reflexivity|discriminate] : preserve.

Lemma flying_swallow {A} (m : M X A) : preserves flying m → preserves flying (swallow m).
Proof. intros Hm. unfold swallow. preserve. Qed.
#[local] Hint Resolve flying_swallow : preserve.

Lemma flying_mark_failed actor detail : preserves flying (mark_failed orgId actor nid detail).
Proof. unfold mark_failed, DeploymentRepo_get. preserve. Qed.
#[local] Hint Resolve flying_mark_failed : preserve.

Lemma throws_last {A B} (m : M X A) (err : Err) (w : World X) :
  is_ok ((m;; (throw err : M X B)) w).1 = false.
Proof. rewrite bind_eq. by destruct (m w) as [[]]. Qed.

(** *** Kubernetes *)

Context `{JsEngine} `{K8sHost X}.

Lemma flying_k8s_deploy u n c r wh t : preserves flying (runK8sDeploy u n c r wh t).
Proof.
  unfold runK8sDeploy, helm_apply, kubectl_apply, kubectl_health, runHelm, runKubectl, exec_or, detectBundleKind.
  preserve.
Qed.

Lemma k8s_body_lands actor rel tg conn arts :
  lands (k8s_deploy_body orgId actor rel tg conn arts prev nid).
Proof.
  unfold k8s_deploy_body. apply lands_bind; [apply flying_k8s_deploy|]. intros result. cbv zeta.
  apply lands_bind; [preserve|]. intros _. apply lands_bind; [preserve|]. intros now.
  destruct (match kd_health result with Some h => kh_ready h | None => true end); cbn [negb].
  - by apply lands_promote.
  - do 3 (apply lands_bind; [preserve|]; intros ?). apply lands_throw.
Qed.

Lemma k8s_try_lands actor rel tg conn arts :
  lands (try_catch (k8s_deploy_body orgId actor rel tg conn arts prev nid)
    (λ err, mark_failed orgId actor nid (error_detail rel tg err);; throw err)).
Proof.
  apply lands_try; [apply k8s_body_lands|intros; preserve|]. intros e w. apply throws_last.
Qed.

(** *** Cloud *)

Context `{BuildHost X} `{R : !CloudRouter X}.

Lemma lands_try_dial {A} (m : M X A) h (k : A → M X RunDeployResult) :
  preserves flying m → (∀ e, preserves flying (h e)) → (∀ e w, is_ok (h e w).1 = false) →
  (∀ a, lands (k a)) → lands (try_catch m h ≫= k).
Proof. intros Hm Hh Ht Hk. apply lands_bind; [by apply preserves_try|done]. Qed.

Lemma cloud_failed_throws {A} org actor rel tg i t e (w : World X) :
  is_ok (cloud_vm_failed (A:=A) org actor rel tg i t e w).1 = false.
Proof.
  unfold cloud_vm_failed. rewrite bind_eq. destruct (close_tunnel t w) as [[[]|] w1]; [|done].
  apply throws_last.
Qed.

Lemma stack_failed_throws {A} org actor rel tg c i e (w : World X) :
  is_ok (cloud_stack_failed (A:=A) org actor rel tg c i e w).1 = false.
Proof.
  unfold cloud_stack_failed. rewrite bind_eq. destruct (HealthCheckRepo_append _ _ _ _ _ w) as [[a|] w1]; [|done].
  apply throws_last.
Qed.

Lemma flying_close_tunnel t : preserves flying (close_tunnel t).
Proof. unfold close_tunnel. preserve. Qed.
#[local] Hint Resolve flying_close_tunnel : preserve.

(** Closing the tunnel touches nothing and does not throw. *)
Lemma lands_close m t : lands m → lands (res ← m; close_tunnel t;; mret res).
Proof.
  intros Hm w Hw. specialize (Hm w Hw). rewrite bind_eq. destruct (m w) as [[res|e] w1]; [|done].
  unfold close_tunnel. destruct t as [t|]; [|by rewrite (bind_ok _ _ w1 () w1)].
  by rewrite (bind_ok _ _ _ _ _ (swallow_external _ w1)).
Qed.

Lemma install_bundle_total conn tg i a p :
  preserves flying (install_bundle conn tg i a p).
Proof. unfold install_bundle, package_check. preserve. Qed.

(** A bundle that was installed has no failed package. *)
Lemma install_bundle_clean conn tg i a p (w w' : World X) t ps f :
  install_bundle conn tg i a p w = (Ok (Some (t, ps, f)), w') → f ≤ 0.
Proof.
  unfold install_bundle. destruct (truthy _); [|done]. intros E.
  do 5 (apply bind_inv_ok in E as (? & ? & _ & E)). destruct (Z.ltb_spec 0 (ib_failed x5)) as [|Hz]; [done|].
  by injection E as _ _ <- _.
Qed.

Lemma cloud_vm_lands actor rel tg conn mode arts address port :
  lands (cloud_vm_land orgId actor rel tg conn mode arts prev nid address port).
Proof.
  unfold cloud_vm_land. apply lands_bind; [preserve|]. intros [ok detail].
  apply lands_bind; [preserve|]. intros _. destruct ok; cbn [negb]; [|apply lands_throw].
  intros w Hw. rewrite bind_eq. pose proof (install_bundle_total conn tg nid address port w Hw) as Hi.
  destruct (install_bundle conn tg nid address port w) as [[s|e] w1] eqn:Es; [|done].
  apply (lands_bind nowIso); [preserve| |done]. intros now. apply lands_promote_at.
  destruct s as [[[t ps] f]|]; [|done]. by apply install_bundle_clean in Es.
Qed.

Lemma cloud_stack_lands actor rel tg conn arts :
  lands (cloud_stack_body orgId actor rel tg conn arts prev nid).
Proof.
  unfold cloud_stack_body. do 3 (apply lands_bind; [preserve|]; intros ?). by apply lands_promote_at.
Qed.

Lemma cloud_vm_try_lands actor rel tg conn mode arts :
  lands (dialed ← try_catch (dial conn mode) (cloud_vm_failed orgId actor rel tg nid None);
         let '(address, port, tunnel) := (dialed : string * jsnum * option jsnum) in
         result ← try_catch (cloud_vm_land orgId actor rel tg conn mode arts prev nid address port)
                    (cloud_vm_failed orgId actor rel tg nid tunnel);
         close_tunnel tunnel;; mret result).
Proof.
  apply lands_try_dial; [unfold dial; preserve|intros; unfold cloud_vm_failed; preserve|
    intros; apply cloud_failed_throws|]. intros [[address port] tunnel]. apply lands_close, lands_try.
  - apply cloud_vm_lands.
  - intros. unfold cloud_vm_failed. preserve.
  - intros. apply cloud_failed_throws.
Qed.

Lemma cloud_stack_try_lands actor rel tg conn arts :
  lands (try_catch (cloud_stack_body orgId actor rel tg conn arts prev nid)
           (cloud_stack_failed orgId actor rel tg conn nid)).
Proof.
  apply lands_try; [apply cloud_stack_lands|intros; unfold cloud_stack_failed; preserve|].
  intros. apply stack_failed_throws.
Qed.
End body.

(** ** From the call to the body *)

Section guarantees.
Context {X : Type} `{Oracle} (fresh_inj : ∀ m n, fresh_id m = fresh_id n → m = n).

(** How a deploy of [rid] to [tid] may end. *)
Definition deploy_outcome (tid rid : string) (w : World X) (run : Res RunDeployResult * World X) : Prop :=
  match run with
  | (Ok res, w') =>
    let n := rd_deployment res in
    db_ok (w_db w') ∧ active_of tid (w_db w') = Some n ∧ dep_releaseId n = rid ∧
    (∀ x, x ∈ db_deployment (w_db w') → active_on tid x = true → x = n) ∧
    hsum_fail (rd_healthSummary res) ≤ 0 ∧
    (∀ p, p ∈ db_deployment (w_db w) → active_on tid p = true →
       ∃ q, q ∈ db_deployment (w_db w') ∧ dep_id q = dep_id p ∧ dep_status q = DS_superseded)
  | (Throw _, w') =>
    ∀ p, p ∈ db_deployment (w_db w) → active_on tid p = true → p ∈ db_deployment (w_db w')
  end.

Lemma outcome_throw tid rid (w : World X) e w' :
  w_db w' = w_db w → deploy_outcome tid rid w (Throw e, w').
Proof. intros Hw p Hp _. by rewrite Hw. Qed.

Lemma start_cases org actor rel tg detail (w : World X) :
  db_ok (w_db w) → audit_fresh w → tg ∈ db_target (w_db w) → tg_orgId tg = org →
  match start_deployment org actor rel tg (active_of (tg_id tg) (w_db w)) detail w with
  | (Ok n, w') =>
    in_flight (active_of (tg_id tg) (w_db w)) (dep_id n) (tg_id tg) (rel_id rel) (db_org (w_db w)) (λ _, True) w'
  | (Throw _, w') => w_db w' = w_db w
  end.
Proof.
  intros Hd Hf Hin Eo. unfold start_deployment. rewrite bind_eq.
  destruct (DeploymentRepo_create _ _ _ _ w) as [[n|e] w2] eqn:Ec; [|by apply create_throws in Ec as [-> _]].
  destruct (create_in_flight org (rel_id rel) (tg_id tg) w w2 n Hd Hf Ec) as (K2 & _ & _).
  destruct (in_flight_audit fresh_inj (active_of (tg_id tg) (w_db w)) (dep_id n) (tg_id tg) (rel_id rel) org
    (db_org (w_db w)) (λ _, True) actor "release.deploy.started" "deployment" (dep_id n)
    (Some ([("releaseId", JStr (rel_id rel)); ("targetId", JStr (tg_id tg));
            ("kind", JStr (TargetKind_text (tg_kind tg)))] ++ detail)) w2) as (row & w3 & Ea & K3 & _); [|done|].
  { apply (org_known_orgs org w); [by rewrite (if_orgs _ _ _ _ _ _ _ K2)|].
    destruct (Hd T_target) as [_ Hfk]. destruct (Hfk tg Hin) as [Hk _]. simpl in Hk. by rewrite Eo in Hk. }
  rewrite (bind_ok _ _ _ _ _ Ea), bind_nowIso. set (w4 := mkWorld _ _ _ _).
  assert (K4 : in_flight (active_of (tg_id tg) (w_db w)) (dep_id n) (tg_id tg) (rel_id rel)
    (db_org (w_db w)) (λ _, True) w4) by (by apply in_flight_ticked).
  destruct (in_flight_update _ _ _ _ _ _ (mkDeploymentPatch (Some DS_deploying)
    (Some (toISOString (clock (w_clock w3)))) None None) DS_deploying w4 eq_refl ltac:(done) K4)
    as (n5 & w5 & Eu & K5 & _).
  by rewrite (bind_ok _ _ _ _ _ Eu).
Qed.

(** A deploy that starts and whose body lands ends well. *)
Lemma started_outcome org actor rel tg detail (k : Deployment → M X RunDeployResult) (w : World X) :
  db_ok (w_db w) → audit_fresh w → tg ∈ db_target (w_db w) → tg_orgId tg = org →
  (∀ n, (∀ w' : World X, db_org (w_db w') = db_org (w_db w) → org_known org w') →
     lands (active_of (tg_id tg) (w_db w)) (dep_id n) (tg_id tg) (rel_id rel) (db_org (w_db w)) (k n)) →
  deploy_outcome (tg_id tg) (rel_id rel) w
    ((deployment ← start_deployment org actor rel tg (active_of (tg_id tg) (w_db w)) detail; k deployment) w).
Proof.
  intros Hd Hf Hin Eo Hk. rewrite bind_eq. pose proof (start_cases org actor rel tg detail w Hd Hf Hin Eo) as Hs.
  destruct (start_deployment _ _ _ _ _ _ w) as [[n|e] w1]; [|by apply outcome_throw].
  assert (Hknown : ∀ w' : World X, db_org (w_db w') = db_org (w_db w) → org_known org w').
  { intros w' Ew. apply (org_known_orgs org w); [done|]. destruct (Hd T_target) as [_ Hfk].
    destruct (Hfk tg Hin) as [Hkey _]. simpl in Hkey. by rewrite Eo in Hkey. }
  specialize (Hk n Hknown w1 Hs). destruct (k n w1) as [[res|e] w2].
  - destruct Hk as (Hz & w3 & Hl & Hrows & Hok). destruct Hl as [_ _ _ _ (Hi & Ha & _ & Hrel) Honly Hprev].
    rewrite <- Hrows in Hi, Honly, Hprev. cbv zeta.
    split_and!; [done|by apply active_of_only|done|done|done|]. intros p Hp Hpa. apply Hprev. by apply active_of_only.
  - intros p Hp Hpa. destruct (if_rows _ _ _ _ _ _ _ Hk) as (_ & Hprev & _). by apply Hprev, active_of_only.
Qed.

Lemma ready_release_cases r (w : World X) :
  (∃ e, ready_release r w = (Throw e, w)) ∨ ∃ rel, ready_release r w = (Ok rel, w) ∧ rel_id rel = r.
Proof.
  unfold ready_release, ReleaseRepo_get. rewrite bind_read.
  destruct (find_first _ _) as [rel|] eqn:E; [|left; by eexists].
  apply find_first_Some in E as [_ Hp]. bool_hyps. destruct (negb _); [left; by eexists|]. right. by exists rel.
Qed.

Context `{JsEngine} `{K8sHost X} `{BuildHost X} `{R : !CloudRouter X}.

(** The adapter of a target that is not a virtual machine. *)
Definition adapter_deploy (org rid : string) (tg : Target) (actor : option string) : M X RunDeployResult :=
  if isK8sTargetKind (tg_kind tg) then runK8sReleaseDeploy org rid tg actor
  else runCloudReleaseDeploy org rid tg actor.

(** C4: A deploy to a Kubernetes or cloud target lands or leaves things as they
    were: when it returns, the new deployment is the only active one on the
    target, is of the requested release, has no failed check, and the one active
    before is superseded; when it throws, for whatever reason, the deployment
    that was active is still there, unchanged. *)
Theorem adapter_lands_or_keeps org rid tg actor (w : World X) :
  db_ok (w_db w) → audit_fresh w → tg ∈ db_target (w_db w) → tg_orgId tg = org →
  deploy_outcome (tg_id tg) rid w (adapter_deploy org rid tg actor w).
Proof.
  intros Hd Hf Hin Eo. unfold adapter_deploy.
  assert (Hread : ∀ {A} (r : Res A) (k : A → M X RunDeployResult),
    (∀ a, deploy_outcome (tg_id tg) rid w (k a w)) → deploy_outcome (tg_id tg) rid w ((lift r ≫= k) w)).
  { intros A r k Hk. unfold lift. rewrite bind_eq. destruct r; [done|by apply outcome_throw]. }
  destruct (isK8sTargetKind (tg_kind tg)) eqn:Ek.
  - unfold runK8sReleaseDeploy. cbv zeta. rewrite bind_eq.
    destruct (ready_release_cases rid w) as [[e ->]|(rel & -> & <-)]; [by apply outcome_throw|].
    apply Hread. intros conn. unfold ArtifactRepo_listForRelease, DeploymentRepo_getActiveForTarget.
    rewrite !bind_read. fold (active_of (tg_id tg) (w_db w)).
    apply started_outcome; try done. intros n Hk. by apply k8s_try_lands.
  - unfold runCloudReleaseDeploy. destruct (tg_kind tg) eqn:Et; try by apply outcome_throw.
    + unfold runCloudVmReleaseDeploy. cbv zeta. apply Hread. intros conn. rewrite bind_eq.
      destruct (ready_release_cases rid w) as [[e ->]|(rel & -> & <-)]; [by apply outcome_throw|].
      unfold ArtifactRepo_listForRelease, DeploymentRepo_getActiveForTarget. rewrite bind_read.
      case_match; [by apply outcome_throw|]. rewrite bind_read. fold (active_of (tg_id tg) (w_db w)).
      apply started_outcome; try done. intros n Hk. by apply cloud_vm_try_lands.
    + unfold runCloudStackReleaseDeploy. cbv zeta. apply Hread. intros conn. rewrite bind_eq.
      destruct (ready_release_cases rid w) as [[e ->]|(rel & -> & <-)]; [by apply outcome_throw|].
      unfold ArtifactRepo_listForRelease, DeploymentRepo_getActiveForTarget. rewrite !bind_read.
      fold (active_of (tg_id tg) (w_db w)).
      apply started_outcome; try done. intros n Hk. by apply cloud_stack_try_lands.
Qed.

(** *** Rolling back a Kubernetes target *)

Lemma k8s_rollback_db d u n c wh t : preserves (X:=X) (on_db (eq d)) (runK8sRollback u n c wh t).
Proof. unfold runK8sRollback, kubectl_rollback, helm_rollback, runHelm, runKubectl, exec_or. preserve. Qed.

(** Giving the active row of a target a status that is not active. *)
Lemma retire_active tid a patch st (w : World X) :
  db_ok (w_db w) → active_of tid (w_db w) = Some a → dp_status patch = Some st → st ≠ DS_active →
  ∃ n w', DeploymentRepo_update (dep_id a) patch w = (Ok n, w') ∧ db_ok (w_db w') ∧
    n ∈ db_deployment (w_db w') ∧ dep_id n = dep_id a ∧ dep_status n = st ∧ dep_deletedAt n = None ∧
    (∀ x, x ∈ db_deployment (w_db w) → dep_id x ≠ dep_id a → x ∈ db_deployment (w_db w')) ∧
    active_of tid (w_db w') = None.
Proof.
  intros Hd Ea Hp Hst. pose proof Ea as (Hin & Ha)%find_first_Some. apply active_on_inv in Ha as (Ht & _ & Hl).
  pose proof (DeploymentRepo_update_ok (dep_id a) patch w Hd) as Hok.
  rewrite (DeploymentRepo_update_run patch a w) in Hok |- * by (first [done|rewrite Hp; by intros ->]).
  set (now := toISOString _) in *. do 2 eexists. split; [reflexivity|].
  split_and!; [exact Hok|by apply (update_self patch a now)|done|by simpl; rewrite Hp|done| |].
  - intros x Hx Hne. by apply update_other.
  - apply find_first_None. intros x Hx. destruct (active_on tid x) eqn:Hax; [exfalso|done].
    apply (update_not_active _ _ _ _ tid _ st) in Hx as [Hx Hne]; [|done..].
    rewrite (active_of_only tid (w_db w) x) in Ea by done. by injection Ea as ->.
Qed.

Lemma audit_keeps_deployments o a c t e d (w : World X) :
  db_deployment (w_db (AuditLogRepo_append o a c t e d w).2) = db_deployment (w_db w).
Proof.
  refine ((_ : preserves (on_db (unchanged T_deployment (db_deployment (w_db w)))) _) w eq_refl).
  unfold AuditLogRepo_append. preserve.
Qed.

(** A Kubernetes rollback ends the active deployment and puts nothing in its
    place: when it returns, the deployment that was active is rolled back, every
    other one, the one it superseded included, is what it was, and the target
    has no active deployment. *)
Theorem k8s_rollback_leaves_none org tg actor (w w' : World X) res :
  db_ok (w_db w) → runK8sReleaseRollback org tg actor w = (Ok res, w') →
  ∃ a, active_of (tg_id tg) (w_db w) = Some a ∧ dep_id (rd_deployment res) = dep_id a ∧
    dep_status (rd_deployment res) = DS_rolled_back ∧ rd_deployment res ∈ db_deployment (w_db w') ∧
    (∀ x, x ∈ db_deployment (w_db w) → dep_id x ≠ dep_id a → x ∈ db_deployment (w_db w')) ∧
    active_of (tg_id tg) (w_db w') = None.
Proof.
  intros Hd E. unfold runK8sReleaseRollback in E. cbv zeta in E.
  unfold DeploymentRepo_getActiveForTarget, ReleaseRepo_get, ArtifactRepo_listForRelease in E.
  rewrite bind_read in E.
  match type of E with context [find_first ?f _] => change (find_first f _) with (active_of (tg_id tg) (w_db w)) in E end.
  destruct (active_of (tg_id tg) (w_db w)) as [a|] eqn:Ea; [|by inversion E]. exists a. split; [done|].
  rewrite bind_read in E. destruct (find_first _ _) as [rel|]; [|by inversion E].
  apply bind_inv_ok in E as (conn & w1 & Ec & E). unfold lift in Ec.
  destruct (readK8sConnection tg); [|done]. injection Ec as <- <-. rewrite bind_read in E.
  apply bind_inv_ok in E as (u & w1 & Er & E).
  match type of Er with runK8sRollback ?s ?n ?c ?x ?y _ = _ =>
    pose proof (k8s_rollback_db (w_db w) s n c x y w eq_refl) as Hdb end.
  rewrite Er in Hdb. unfold on_db in Hdb. simpl in Hdb. rewrite Hdb in Hd, Ea |- *. rewrite bind_nowIso in E.
  apply bind_inv_ok in E as (n & w2 & Eu & E). set (patch := mkDeploymentPatch _ _ _ _) in Eu.
  edestruct (retire_active (tg_id tg) a patch DS_rolled_back) as (n' & w2' & Eu' & Hok & Hn & Hid & Hst & Hl & Hx & Hnone);
    [..|rewrite Eu' in Eu; injection Eu as -> ->]; [exact Hd|exact Ea|done|done|].
  apply bind_inv_ok in E as (row & w3 & Eau & E).
  match type of Eau with AuditLogRepo_append ?o ?c ?t ?e ?x ?y _ = _ =>
    pose proof (audit_keeps_deployments o c t e x y w2) as Hsame;
    pose proof (AuditLogRepo_append_ok o c t e x y w2 Hok) as Hok3 end.
  rewrite Eau in Hsame, Hok3. unfold on_db in Hok3. simpl in Hsame, Hok3.
  rewrite <- Hid, (bind_ok _ _ _ _ _ (DeploymentRepo_get_run _ n w3 eq_refl Hok3 ltac:(by rewrite Hsame) Hl)) in E.
  injection E as <- <-. simpl. rewrite Hsame. split_and!; try done. unfold active_of. by rewrite Hsame.
Qed.
End guarantees.

Lemma dx_audit_fresh : audit_fresh dx_world.
Proof. intros x n Hx. by apply elem_of_nil in Hx. Qed.

Local Notation stack_deploy tg := (adapter_deploy "o1" "r1" tg None dx_world).

Lemma blue_deploy_ok : is_ok (stack_deploy dx_blue).1 = true.
Proof. by vm_compute. Qed.
Lemma broken_deploy_throws : is_ok (stack_deploy dx_broken).1 = false.
Proof. by vm_compute. Qed.

(** A stack that applies takes over from the old release; one whose apply fails
    keeps it. *)
Lemma adapter_lands_or_keeps_witness :
  match stack_deploy dx_blue with
  | (Ok res, w') => active_of "s1" (w_db w') = Some (rd_deployment res)
  | (Throw _, _) => False
  end ∧
  match stack_deploy dx_broken with
  | (Ok _, _) => False
  | (Throw _, w') => dx_deployment "d3" "s3" ∈ db_deployment (w_db w')
  end.
Proof.
  pose proof blue_deploy_ok as Hb. pose proof broken_deploy_throws as Hk.
  pose proof (adapter_lands_or_keeps fixture_ids_inj "o1" "r1" dx_blue None dx_world dx_db_ok dx_audit_fresh
    (list_elem_of_here _ _) eq_refl) as Hblue.
  pose proof (adapter_lands_or_keeps fixture_ids_inj "o1" "r1" dx_broken None dx_world dx_db_ok dx_audit_fresh
    (list_elem_of_further _ _ _ (list_elem_of_further _ _ _ (list_elem_of_here _ _))) eq_refl) as Hbroken.
  destruct (stack_deploy dx_blue) as [[res|e] w1], (stack_deploy dx_broken) as [[res'|e'] w2]; try discriminate.
  split; [apply Hblue|]. apply Hbroken; [|reflexivity]. apply list_elem_of_further, list_elem_of_here.
Defined.

Local Notation cluster_rollback := (runK8sReleaseRollback "o1" dx_k8s None dx_world).

Lemma cluster_rollback_ok : is_ok cluster_rollback.1 = true.
Proof. by vm_compute. Qed.

Lemma k8s_rollback_leaves_none_witness :
  match cluster_rollback with
  | (Ok res, w') => active_of "k1" dx_db = Some (dx_deployment "d4" "k1") ∧ active_of "k1" (w_db w') = None
  | (Throw _, _) => False
  end.
Proof.
  pose proof cluster_rollback_ok as Hok. destruct cluster_rollback as [[res|e] w'] eqn:E; [|discriminate].
  split; [reflexivity|].
  destruct (k8s_rollback_leaves_none "o1" dx_k8s None dx_world w' res dx_db_ok E) as (a & _ & _ & _ & _ & _ & Hn).
  exact Hn.
Defined.
