(* ===== verification/VerbsSpec.v ===== *)
(** What the verbs promise: the administrative ones keep the store consistent
    and are on record, a health check records what it saw, a build removes the
    tree it cloned, and the production probe invoker is what the scheduler
    expects. *)

From S2P Require Import Prelude JsTime JsVal Types World Logic StorageCatalog StorageDeploy StorageOps.
From S2P Require Import Signing BuildYaml Build Probes Deploy Scheduler CloudTypes K8s Events Promotion ReleaseDeploy.
From S2P Require Import Verbs Cascade ProbesSpec Fixture DeployFixture.

(** ** Administrative verbs *)

Inductive AdminVerb :=
| AV_product_add (name repoUrl : string) (buildYamlPath : option string)
| AV_product_remove (name : string)
| AV_target_add (name : string) (kind : TargetKind) (connection : json_object)
| AV_target_remove (name : string)
| AV_target_edit (name : string) (newName : option string) (newConnection : option json_object)
| AV_runner_deregister (name id : option string)
| AV_schedule_add (targetName : string) (intervalSeconds : Z) (probeNames : option (list string)) (active : option bool)
| AV_schedule_disable (id : string)
| AV_schedule_enable (id : string)
| AV_schedule_remove (id : string)
| AV_webhook_add (kind : WebhookKind) (url : string) (secret : option string) (kinds : option (list string))
    (active : option bool) (description : option string)
| AV_webhook_remove (id : string)
| AV_policy_add (product dest : string) (gate : PromotionGateKind) (source : option string)
    (config : option json_object) (description : option string)
| AV_policy_remove (id : string).

Definition admin_action (v : AdminVerb) : string :=
  match v with
  | AV_product_add _ _ _ => "product.added"
  | AV_product_remove _ => "product.removed"
  | AV_target_add _ _ _ => "target.added"
  | AV_target_remove _ => "target.removed"
  | AV_target_edit _ _ _ => "target.edited"
  | AV_runner_deregister _ _ => "runner.deregistered"
  | AV_schedule_add _ _ _ _ => "health_schedule.added"
  | AV_schedule_disable _ => "health_schedule.disabled"
  | AV_schedule_enable _ => "health_schedule.enabled"
  | AV_schedule_remove _ => "health_schedule.removed"
  | AV_webhook_add _ _ _ _ _ _ => "webhook.added"
  | AV_webhook_remove _ => "webhook.removed"
  | AV_policy_add _ _ _ _ _ _ => "promotion_policy.added"
  | AV_policy_remove _ => "promotion_policy.removed"
  end.

Section admin.
Context {X : Type} `{Oracle} `{JsEngine}.

Definition run_admin (v : AdminVerb) : M X unit :=
  match v with
  | AV_product_add n u p => runProductAdd n u p;; mret ()
  | AV_product_remove n => runProductRemove n
  | AV_target_add n k c => runTargetAdd n k c;; mret ()
  | AV_target_remove n => runTargetRemove n
  | AV_target_edit n n' c => runTargetEdit n n' c;; mret ()
  | AV_runner_deregister n i => runRunnerDeregister n i;; mret ()
  | AV_schedule_add t i p a => runScheduleAdd t i p a;; mret ()
  | AV_schedule_disable i => runScheduleDisable i;; mret ()
  | AV_schedule_enable i => runScheduleEnable i;; mret ()
  | AV_schedule_remove i => runScheduleRemove i
  | AV_webhook_add k u s e a d => runWebhookAdd k u s e a d;; mret ()
  | AV_webhook_remove i => runWebhookRemove i
  | AV_policy_add p d g s c t => runPromotionPolicyAdd p d g s c t;; mret ()
  | AV_policy_remove i => runPromotionPolicyRemove i
  end.

(** One verb after the other, each whether or not the one before it threw; the
    actions of those that returned. *)
Fixpoint run_admins (vs : list AdminVerb) (w : World X) : list string * World X :=
  match vs with
  | [] => ([], w)
  | v :: vs' =>
    match run_admin v w with
    | (Ok _, w1) => let (done, w2) := run_admins vs' w1 in (admin_action v :: done, w2)
    | (Throw _, w1) => run_admins vs' w1
    end
  end.

Definition keeps_audit {A} (m : M X A) : Prop := ∀ l, preserves (on_db (unchanged T_audit_log l)) m.

(** One entry when it returns, none when it throws. *)
Definition audited {A} (action : string) (m : M X A) : Prop :=
  ∀ w, match m w with
  | (Ok _, w') => ∃ e, db_audit_log (w_db w') = db_audit_log (w_db w) ++ [e] ∧
                       al_action e = action ∧ al_actor e = "cli"
  | (Throw _, w') => db_audit_log (w_db w') = db_audit_log (w_db w)
  end.

Lemma audited_bind {A B} action (m : M X A) (k : A → M X B) :
  keeps_audit m → (∀ a, audited action (k a)) → audited action (m ≫= k).
Proof.
  intros Hm Hk w. rewrite bind_eq. pose proof (Hm _ w eq_refl) as Hw. unfold on_db, unchanged in Hw.
  destruct (m w) as [[a|e] w1]; simpl in Hw; [|exact Hw]. specialize (Hk a w1). by rewrite Hw in Hk.
Qed.

Lemma audited_throw {A} action e : audited action (throw e : M X A).
Proof. by intros w. Qed.

Lemma audited_then {A B} action (m : M X A) (k : A → B) : audited action m → audited action (a ← m; mret (k a)).
Proof. intros Hm w. specialize (Hm w). rewrite bind_eq. by destruct (m w) as [[a|e] w1]. Qed.

Lemma audited_append o action ty en d : audited action (AuditLogRepo_append o "cli" action ty en d).
Proof.
  intros w. unfold AuditLogRepo_append. rewrite bind_nowIso. set (w1 := mkWorld _ _ _ _). rewrite bind_eq.
  unfold newId. cbv beta iota zeta. rewrite bind_eq. set (row := mkAuditLogEntry _ _ _ _ _ _ _ _ _).
  destruct (db_insert T_audit_log row _) as [[[]|e] w2] eqn:Ei.
  - apply db_insert_inv in Ei as [-> _]. exists row. split_and!; [|done|done].
    exact (tget_tset_eq T_audit_log _ (w_db w)).
  - by apply db_insert_throw in Ei as [-> _].
Qed.

(** The repositories of the other tables, and the organisation. *)
Lemma active_org_keeps : keeps_audit getActiveOrgId.
Proof. intros l. unfold getActiveOrgId, ensureDefaultOrg, OrgRepo_getByName, OrgRepo_create. preserve. Qed.

Lemma target_named_keeps o n : keeps_audit (target_named o n).
Proof. intros l. unfold target_named, TargetRepo_getByName. preserve. Qed.

Lemma schedule_with_keeps i : keeps_audit (schedule_with i).
Proof. intros l. unfold schedule_with, HealthScheduleRepo_get. preserve. Qed.

Lemma webhook_with_keeps i : keeps_audit (webhook_with i).
Proof. intros l. unfold webhook_with, WebhookSubscriptionRepo_get. preserve. Qed.

Ltac keeps :=
  solve
    [ apply active_org_keeps | apply target_named_keeps | apply schedule_with_keeps | apply webhook_with_keeps
    | unfold keeps_audit; intros ?;
      unfold ProductRepo_create, ProductRepo_getByName, ProductRepo_softDelete,
        TargetRepo_create, TargetRepo_getByName, TargetRepo_update, TargetRepo_get, TargetRepo_softDelete,
        RunnerRepo_get, RunnerRepo_getByName, RunnerRepo_softDelete,
        HealthScheduleRepo_create, HealthScheduleRepo_update, HealthScheduleRepo_get, HealthScheduleRepo_softDelete,
        WebhookSubscriptionRepo_create, WebhookSubscriptionRepo_get, WebhookSubscriptionRepo_softDelete,
        PromotionPolicyRepo_create, PromotionPolicyRepo_get, PromotionPolicyRepo_softDelete;
      preserve ].

Ltac auditing :=
  repeat first
    [ apply audited_append
    | apply audited_throw
    | apply audited_bind; [keeps|intros ?]
    | apply audited_then
    | match goal with
      | |- audited _ (match ?x with _ => _ end) => destruct x
      | |- audited _ (if ?x then _ else _) => destruct x
      end ].

Lemma admin_audited v : audited (admin_action v) (run_admin v).
Proof.
  destruct v; simpl; unfold runProductAdd, runProductRemove, runTargetAdd, runTargetRemove, runTargetEdit,
    runRunnerDeregister, runScheduleAdd, runScheduleDisable, runScheduleEnable, runScheduleRemove,
    runWebhookAdd, runWebhookRemove, runPromotionPolicyAdd, runPromotionPolicyRemove; auditing.
Qed.

Lemma active_org_ok : preserves (X:=X) (on_db db_ok) getActiveOrgId.
Proof. apply active_org_writes, db_ok_writes. Qed.

Lemma admin_ok v : preserves (on_db db_ok) (run_admin v).
Proof.
  pose proof active_org_ok. destruct v; simpl; unfold runProductAdd, runProductRemove, runTargetAdd, runTargetRemove,
    runTargetEdit, runRunnerDeregister, runScheduleAdd, runScheduleDisable, runScheduleEnable, runScheduleRemove,
    runWebhookAdd, runWebhookRemove, runPromotionPolicyAdd, runPromotionPolicyRemove,
    target_named, schedule_with, webhook_with; preserve.
Qed.

(** C30: Administration is on record: whatever the sequence of product, target,
    runner, schedule, webhook and policy verbs, and whichever of them throw, the
    store keeps its invariants and the audit log grows by exactly one entry of the
    right action for each verb that returned, in their order, and by nothing for
    one that threw. *)
Theorem admin_verbs_audited vs (w : World X) :
  db_ok (w_db w) →
  db_ok (w_db (run_admins vs w).2) ∧
  ∃ es, db_audit_log (w_db (run_admins vs w).2) = db_audit_log (w_db w) ++ es ∧
    map al_action es = (run_admins vs w).1 ∧ Forall (λ e, al_actor e = "cli") es.
Proof.
  revert w. induction vs as [|v vs IH]; intros w Hd; simpl.
  { split; [done|]. exists []. by rewrite app_nil_r. }
  pose proof (admin_ok v w Hd) as Hok. pose proof (admin_audited v w) as Ha. unfold on_db in Hok.
  destruct (run_admin v w) as [[[]|e] w1]; simpl in Hok; specialize (IH w1 Hok) as (Hd' & es & He & Hm & Hc).
  - destruct Ha as (e & Ha & Hact & Hcli). destruct (run_admins vs w1) as [done w2]. simpl in *.
    split; [done|]. exists (e :: es). rewrite He, Ha, <- app_assoc. split; [done|]. simpl. rewrite Hact, Hm.
    split; [done|]. by constructor.
  - split; [done|]. exists es. by rewrite He, Ha.
Qed.
End admin.

Lemma admin_verbs_audited_witness :
  ∃ es, map al_action es = ["target.added"; "health_schedule.added"; "target.removed"] ∧
    db_audit_log (w_db (run_admins
      [AV_target_add "new" TK_vm_demo []; AV_target_add "new" TK_vm_demo [];
       AV_schedule_add "new" 30 None None; AV_schedule_add "new" 60 None None; AV_target_remove "new"]
      fx_world).2) = es.
Proof.
  match goal with |- ∃ _, _ ∧ db_audit_log (w_db (run_admins ?vs _).2) = _ =>
    destruct (admin_verbs_audited vs fx_world fx_db_ok) as (_ & es & He & Hm & _) end.
  exists es. split; [|exact He]. rewrite Hm. by vm_compute.
Defined.

(** ** Health checks *)

Section health.
Context {X : Type} `{Oracle} `{JsEngine} `{Zod} `{DeployBackend X} {V : VerbHost X}.

Lemma probes_db d ps h : preserves (X:=X) (on_db (eq d)) (runProbes ps h).
Proof.
  unfold runProbes, runProbe, runCommandProbe, runHttpProbe, runFileProbe, evaluateMatchers, probe_result. preserve.
Qed.

(** What a check row says. *)
Definition check_line (c : HealthCheck) : string * string * HealthStatus :=
  (hc_deploymentId c, hc_probeName c, hc_status c).

(** [m] appends rows that say [l] to the checks, and writes nothing else. *)
Definition appends {A} (l : list (string * string * HealthStatus)) (m : M X A) : Prop :=
  ∀ w a w', m w = (Ok a, w') → ∃ rows,
    w_db w' = tset T_health_check (db_health_check (w_db w) ++ rows) (w_db w) ∧ map check_line rows = l.

Lemma appends_none {A} (m : M X A) : (∀ d, preserves (on_db (eq d)) m) → appends [] m.
Proof.
  intros Hm w a w' E. specialize (Hm _ w eq_refl). rewrite E in Hm. unfold on_db in Hm. simpl in Hm.
  exists []. rewrite app_nil_r, <- Hm. split; [by destruct (w_db w)|done].
Qed.

Lemma appends_bind {A B} l1 l2 (m : M X A) (k : A → M X B) :
  appends l1 m → (∀ a, appends l2 (k a)) → appends (l1 ++ l2) (m ≫= k).
Proof.
  intros Hm Hk w b w2 (a & w1 & E1 & E2)%bind_inv_ok.
  destruct (Hm w a w1 E1) as (r1 & Hd1 & Hl1), (Hk a w1 b w2 E2) as (r2 & Hd2 & Hl2).
  exists (r1 ++ r2). rewrite map_app, Hl1, Hl2. split; [|done]. rewrite Hd2, Hd1.
  cbn [tset db_health_check]. by rewrite <- app_assoc.
Qed.

Lemma appends_check (d p : string) (s : HealthStatus) l t : appends [(d, p, s)] (HealthCheckRepo_append d p s l t).
Proof.
  intros w a w'. unfold HealthCheckRepo_append. rewrite bind_nowIso. set (w1 := mkWorld _ _ _ _).
  intros (i & w2 & [= <- <-] & E)%bind_inv_ok. apply bind_inv_ok in E as (u & w3 & Ei & [= <- <-]).
  destruct u. apply db_insert_inv in Ei as [-> _]. eexists (cons _ nil). split; [reflexivity|done].
Qed.

Lemma record_appends (d : string) (r : bool * option string) ps :
  appends ((d, "vm_reachable", if r.1 then HS_pass else HS_fail) :: map (λ p, (d, pr_name p, pr_status p)) ps)
    (record_checks d r ps).
Proof.
  unfold record_checks. apply (appends_bind (cons _ nil)); [apply appends_check|]. intros _.
  induction ps as [|p ps IH]; [by apply appends_none; preserve|]. simpl.
  apply (appends_bind (cons _ nil)); [|intros; apply IH]. apply (appends_bind (cons _ nil) nil).
  { apply appends_check. }
  intros. apply appends_none. preserve.
Qed.

(** The probes a check runs: all that are declared, or the named ones. *)
Definition chosen (names : option (list string)) (declared : list Probe) : list Probe :=
  match names ?? [] with
  | [] => declared
  | _ => select (λ p, existsb (λ n, probe_name p =?s n) (names ?? [])) declared
  end.

Lemma active_org_unchanged T l : T ≠ T_org → preserves (X:=X) (on_db (unchanged T l)) getActiveOrgId.
Proof.
  intros Hne. unfold getActiveOrgId, ensureDefaultOrg, OrgRepo_getByName, OrgRepo_create.
  assert (Hi : ∀ r, preserves (X:=X) (on_db (unchanged T l)) (db_insert T_org r)).
  { intros r. apply preserves_insert_indep, unchanged_indep. congruence. }
  preserve.
Qed.

Lemma target_named_inv o n (w w' : World X) t : target_named o n w = (Ok t, w') → w' = w.
Proof.
  unfold target_named. intros (o' & w1 & [= <- <-] & E)%bind_inv_ok. destruct (find_first _ _); by inversion E.
Qed.

Lemma release_to_probe_inv target (w w' : World X) rel d :
  release_to_probe target None w = (Ok (rel, d), w') →
  w' = w ∧ ∃ a, a ∈ db_deployment (w_db w) ∧ dep_targetId a = tg_id target ∧ dep_status a = DS_active ∧
    dep_releaseId a = rel_id rel ∧ d = Some (dep_id a).
Proof.
  unfold release_to_probe. simpl. intros (oa & w1 & [= <- <-] & E)%bind_inv_ok.
  destruct (find_first _ (db_deployment _)) as [a|] eqn:Ea; [|by inversion E].
  apply find_first_Some in Ea as [Hin Ha]. bool_hyps.
  apply bind_inv_ok in E as (orel & w1 & [= <- <-] & E).
  destruct (find_first _ (db_release _)) as [r|] eqn:Er; [|by inversion E].
  apply find_first_Some in Er as [_ Hr]. bool_hyps. injection E as <- <- <-. split; [done|]. by exists a.
Qed.

(** Running the chosen probes changes no row. *)
Lemma chosen_run ps handle (w w' : World X) rs :
  (match ps with [] => mret [] | _ => runProbes ps handle end) w = (Ok rs, w') →
  w_db w' = w_db w ∧ map pr_name rs = map probe_name ps.
Proof.
  intros E. assert (E' : runProbes ps handle w = (Ok rs, w')) by (by destruct ps). split.
  - pose proof (probes_db (w_db w) ps handle w eq_refl) as Hd. rewrite E' in Hd. by symmetry.
  - destruct (runProbes_settle ps handle w) as (rs' & w2 & E2 & Hn & _). rewrite E2 in E'. by injection E' as <- _.
Qed.

(** A health check of a target records what it saw on the deployment that is
    active there: one row for reachability and one per probe it ran, in order and
    with the verdicts it returns, after the rows that were there; it runs the
    probes that the deployed release declares, or the named ones, and touches no
    deployment. *)
Theorem health_check_records name names (w w' : World X) res :
  runHealthCheck name names None w = (Ok res, w') →
  ∃ a declared rows,
    a ∈ db_deployment (w_db w) ∧ dep_targetId a = tg_id (hcr_target res) ∧ dep_status a = DS_active ∧
    dep_releaseId a = rel_id (hcr_release res) ∧ hcr_deploymentId res = Some (dep_id a) ∧
    parseDeclaredProbesFromRelease (hcr_release res) = Ok declared ∧
    map pr_name (hcr_probes res) = map probe_name (chosen names declared) ∧
    db_health_check (w_db w') = db_health_check (w_db w) ++ rows ∧
    map check_line rows =
      (dep_id a, "vm_reachable", if (hcr_reachability res).1 then HS_pass else HS_fail)
      :: map (λ p, (dep_id a, pr_name p, pr_status p)) (hcr_probes res) ∧
    db_deployment (w_db w') = db_deployment (w_db w).
Proof.
  unfold runHealthCheck. intros (o & w1 & Eo & E)%bind_inv_ok.
  pose proof (active_org_unchanged T_health_check _ ltac:(done) w eq_refl) as Hc.
  pose proof (active_org_unchanged T_deployment _ ltac:(done) w eq_refl) as Hdep.
  rewrite Eo in Hc, Hdep. unfold on_db, unchanged in Hc, Hdep. simpl in Hc, Hdep.
  apply bind_inv_ok in E as (tg & w2 & ->%target_named_inv & E).
  apply bind_inv_ok in E as ([rel d] & w2 & Er & E).
  apply release_to_probe_inv in Er as (-> & a & Hin & Hta & Hst & Hrel & ->).
  apply bind_inv_ok in E as (declared & w2 & El & E). unfold lift in El.
  destruct (parseDeclaredProbesFromRelease rel) as [ds|e] eqn:Ep; [|by inversion El]. injection El as <- <-.
  cbv zeta in E. destruct (select _ _) as [|m ms]; [|by inversion E].
  apply bind_inv_ok in E as ([handle vm] & w2 & Ev & E). apply bind_inv_ok in E as (reach & w3 & Eh & E).
  apply bind_inv_ok in E as (probes & w4 & Eps & E).
  apply (chosen_run (chosen names ds)) in Eps as [Hdb Hn].
  apply bind_inv_ok in E as (u & w5 & Erec & [= <- <-]). apply record_appends in Erec as (rows & Hrows & Hl).
  assert (w_db w4 = w_db w1) as Hdb1.
  { unfold external in Ev, Eh. destruct (resolveVm _ _), (isVmReachable _ _). injection Ev as _ <-.
    injection Eh as _ <-. done. }
  exists a, ds, rows. rewrite Hrows, Hdb1. cbn [tset db_health_check db_deployment]. rewrite <- Hdep.
  split_and!; try done. by rewrite Hc.
Qed.
End health.

(** The production invoker is what the scheduler expects of its callback. *)
Section invoker.
Context {X : Type} `{Oracle} `{JsEngine} `{Zod} `{DeployBackend X} {V : VerbHost X}.

Lemma probe_invoker_keeps (I : DB → Prop) s :
  preserves (X:=X) (on_db I) getActiveOrgId →
  (∀ d p st l t, preserves (X:=X) (on_db I) (HealthCheckRepo_append d p st l t)) →
  preserves (X:=X) (on_db I) (createDefaultProbeInvoker s).
Proof.
  intros Ho Hc. unfold createDefaultProbeInvoker, runHealthCheck, release_to_probe, record_checks, target_named,
    TargetRepo_get, TargetRepo_getByName, ReleaseRepo_get, DeploymentRepo_getActiveForTarget.
  assert (Hp : ∀ ps h, preserves (X:=X) (on_db I) (runProbes ps h)).
  { intros ps h w Hw. pose proof (probes_db (w_db w) ps h w eq_refl) as Hd. unfold on_db in *. by rewrite <- Hd. }
  assert (Hl : ∀ A (r : Res A), preserves (X:=X) (on_db I) (lift r)) by (by intros A r w).
  preserve.
Qed.

#[export] Instance default_probe_invoker : ProbeInvoker X.
Proof.
  refine {| invoke := createDefaultProbeInvoker |}; intros.
  - apply probe_invoker_keeps; [apply active_org_writes, db_ok_writes|]. intros. apply db_ok_writes.
  - apply probe_invoker_keeps; [by apply active_org_unchanged|]. intros. unfold HealthCheckRepo_append. preserve.
Defined.
End invoker.

(** ** Building *)

Section building.
Context {X : Type} `{Oracle} `{JsEngine} {P : Platform X} `{Zod} {V : VerbHost X}.
Context {C : Crypto X} {KF : KeyFiles X} {BH : BuildHost X} {D : DeployInvoker X}.

Lemma try_finally_last {A} (m : M X A) tmp (w : World X) :
  ∃ x, w_ext (try_finally m (external (fs_rm tmp)) w).2 = (fs_rm tmp x).2.
Proof.
  unfold try_finally. rewrite bind_eq.
  destruct (try_catch _ _ w) as [[r|e] w1] eqn:E; cycle 1.
  { exfalso. unfold try_catch in E. rewrite bind_eq in E. by destruct (m w) as [[a|e'] w2]. }
  exists (w_ext w1). rewrite bind_eq. unfold external.
  destruct (fs_rm tmp (w_ext w1)) as [[[]|e] x]; [by destruct r|done].
Qed.

(** A build that clones its own tree removes it: once the clone is there,
    however the build ends, the last thing done to the outside is removing the
    temporary directory.  When cloning itself fails, the error is thrown at once
    and the directory that was made for it stays. *)
Theorem release_build_removes_tree keysDir cwd name tag cs rn ac sk (w w1 : World X) o product :
  getActiveOrgId w = (Ok o, w1) → ProductRepo_getByName o name w1 = (Ok (Some product), w1) →
  match build_tree cwd product tag None w1 with
  | (Ok (dir, cleanup), _) =>
    cleanup = Some dir ∧
    ∃ x, w_ext (runReleaseBuild keysDir cwd name tag None cs rn ac sk w).2 = (fs_rm dir x).2
  | (Throw e, w2) => runReleaseBuild keysDir cwd name tag None cs rn ac sk w = (Throw e, w2)
  end.
Proof.
  intros Eo Ep. unfold runReleaseBuild. rewrite (bind_ok _ _ _ _ _ Eo), (bind_ok _ _ _ _ _ Ep), bind_eq.
  destruct (build_tree cwd product tag None w1) as [[[dir cleanup]|e] w2] eqn:Et; [|done].
  assert (cleanup = Some dir) as ->.
  { unfold build_tree in Et. simpl in Et. apply bind_inv_ok in Et as (tmp & w3 & _ & Et).
    apply bind_inv_ok in Et as (u & w4 & _ & [= <- <- _]). done. }
  split; [done|]. apply try_finally_last.
Qed.
End building.

Lemma staging_check_ok : match (runHealthCheck "staging" None None fx_world).1 with Ok _ => True | Throw _ => False end.
Proof. by vm_compute. Qed.

Lemma health_check_records_witness :
  match runHealthCheck "staging" None None fx_world with
  | (Ok res, w') => hcr_deploymentId res = Some "d1" ∧
      ∃ c, db_health_check (w_db w') = db_health_check fx_db ++ [c] ∧ check_line c = ("d1", "vm_reachable", HS_pass)
  | (Throw _, _) => False
  end.
Proof.
  assert (Hv : match runHealthCheck "staging" None None fx_world with
    | (Ok res, w') => hcr_deploymentId res = Some "d1" ∧ (hcr_reachability res).1 = true ∧ hcr_probes res = []
    | (Throw _, _) => False end) by (by vm_compute).
  destruct (runHealthCheck "staging" None None fx_world) as [[res|e] w'] eqn:E; [|done].
  destruct Hv as (Hd & Hr & Hp). split; [done|].
  destruct (health_check_records "staging" None fx_world w' res E)
    as (a & declared & rows & _ & _ & _ & _ & Ha & _ & _ & Hc & Hl & _).
  rewrite Hd in Ha. injection Ha as Ha. rewrite Hr, Hp, <- Ha in Hl.
  destruct rows as [|c [|]]; try discriminate Hl. exists c. split; [done|]. simpl in Hl. congruence.
Defined.

(** The tree is removed after a build, and stays behind when the tag is refused. *)
Lemma release_build_removes_tree_witness :
  (∃ x, w_ext (runReleaseBuild "keys" "src" "app" "v2" None None None None None fx_world).2
        = x ++ ["RM /tmp/signalman-build-0"]) ∧
  (runReleaseBuild "keys" "src" "app" "-v2" None None None None None fx_world).2 = mkWorld fx_db 0 0 ["MKDTEMP"].
Proof.
  split.
  - destruct (release_build_removes_tree "keys" "src" "app" "v2" None None None None fx_world fx_world "o1" fx_product
      eq_refl eq_refl) as [_ [x Hx]]. exists x. exact Hx.
  - pose proof (release_build_removes_tree "keys" "src" "app" "-v2" None None None None fx_world fx_world "o1"
      fx_product eq_refl eq_refl) as H. unfold build_tree in H. simpl in H.
    change (runReleaseBuild "keys" "src" "app" "-v2" None None None None None fx_world
            = (Throw (EGitRefValidation "git ref may not start with '-' (option-injection guard)"),
               mkWorld fx_db 0 0 ["MKDTEMP"])) in H. by rewrite H.
Defined.
