(* ===== verification/HttpSpec.v ===== *)
(** What the HTTP control plane promises: every request is answered, a caller
    changes only rows of its own organisation, a request without credentials
    changes nothing, and a key that was handed out opens exactly the
    organisation it was made for. *)

From S2P Require Import Prelude JsTime JsVal Types World Logic StorageCatalog StorageDeploy StorageOps.
From S2P Require Import Signing BuildYaml Build Probes Deploy CloudTypes K8s Events Promotion ReleaseDeploy.
From S2P Require Import Http HttpApp StorageSpec BuildYamlSpec SigningSpec Fixture DeployFixture.

(** ** Whose row it is *)

(** The organisation a row belongs to: its own column, or that of the release or
    deployment it hangs from. *)
Definition owner (d : DB) (T : table) : row_of T → option string :=
  match T with
  | T_org => λ r, Some (org_id r)
  | T_api_key => λ r, Some (ak_orgId r)
  | T_product => λ r, Some (pr_orgId r)
  | T_release => λ r, Some (rel_orgId r)
  | T_artifact => λ r, option_map rel_orgId (find_first (λ x, rel_id x =?s art_releaseId r) (db_release d))
  | T_audit_log => λ r, Some (al_orgId r)
  | T_target => λ r, Some (tg_orgId r)
  | T_deployment => λ r, Some (dep_orgId r)
  | T_health_check => λ r, option_map dep_orgId (find_first (λ x, dep_id x =?s hc_deploymentId r) (db_deployment d))
  | T_scenario => λ r, Some (sc_orgId r)
  | T_run => λ r, Some (run_orgId r)
  | T_job => λ r, Some (job_orgId r)
  | T_cloud_org_budget => λ r, Some (cb_orgId r)
  | T_cloud_org_usage => λ r, Some (cu_orgId r)
  | T_cloud_org_credential => λ r, Some (cc_orgId r)
  | T_health_schedule => λ r, Some (hs_orgId r)
  | T_webhook_subscription => λ r, Some (wh_orgId r)
  | T_promotion_policy => λ r, Some (pp_orgId r)
  | T_approval => λ r, Some (ap_orgId r)
  | T_runner => λ r, Some (rn_orgId r)
  | T_signing_provider_key => λ r, Some (sk_orgId r)
  | T_signing_nonce => λ r, Some (sn_orgId r)
  end.

Definition foreign (d : DB) (o : string) (T : table) (r : row_of T) : bool :=
  match owner d T r with Some o' => negb (o' =?s o) | None => false end.

(** From [d] to [d'], no row of another organisation was added, changed or
    removed, in any table. *)
Definition isolated (o : string) (d d' : DB) : Prop :=
  ∀ T, select (foreign d o T) (tget T d') = select (foreign d o T) (tget T d).

Lemma isolated_refl o d : isolated o d d.
Proof. by intros T. Qed.

Lemma owned_not_foreign d o T r : owner d T r = Some o → foreign d o T r = false.
Proof. intros E. unfold foreign. by rewrite E, bool_decide_eq_true_2. Qed.

Lemma isolated_tset o d T t :
  select (foreign d o T) t = select (foreign d o T) (tget T d) → isolated o d (tset T t d).
Proof.
  intros E T'. destruct (decide (T = T')) as [<-|Hne]; [by rewrite tget_tset_eq|by rewrite tget_tset_ne].
Qed.

Lemma isolated_insert o d T r : owner d T r = Some o → isolated o d (tset T (tget T d ++ [r]) d).
Proof.
  intros E. apply isolated_tset. rewrite select_app. simpl. rewrite owned_not_foreign by done. apply app_nil_r.
Qed.

Lemma isolated_update o d T p f :
  (∀ r, r ∈ tget T d → p r = true → owner d T r = Some o ∧ owner d T (f r) = Some o) →
  isolated o d (tset T (update_where p f (tget T d)) d).
Proof.
  intros Hp. apply isolated_tset. induction (tget T d) as [|x l IH]; [done|]. simpl.
  assert (IH' := IH ltac:(intros; apply Hp; [by right|done])). destruct (p x) eqn:Ex; simpl; rewrite IH'; [|done].
  destruct (Hp x) as [E1 E2]; [left|done|]. by rewrite !owned_not_foreign.
Qed.

(** ** Programs *)

Section programs.
Context {X : Type} `{Oracle}.

Definition pure {A} (m : M X A) : Prop := ∀ d, preserves (on_db (eq d)) m.

Definition isolates {A} (o : string) (m : M X A) (w : World X) : Prop := isolated o (w_db w) (w_db (m w).2).

Lemma pure_db {A} (m : M X A) w : pure m → w_db (m w).2 = w_db w.
Proof. intros Hm. symmetry. exact (Hm _ w eq_refl). Qed.

Lemma pure_ok {A} (m : M X A) : pure m → preserves (on_db db_ok) m.
Proof. intros Hm w Hw. unfold on_db in *. by rewrite pure_db. Qed.

Lemma isolates_pure {A} o (m : M X A) w : pure m → isolates o m w.
Proof. intros Hm. unfold isolates. rewrite pure_db by done. apply isolated_refl. Qed.

Lemma isolates_bind {A B} o (m : M X A) (k : A → M X B) w :
  pure m → (∀ a w1, m w = (Ok a, w1) → w_db w1 = w_db w → isolates o (k a) w1) → isolates o (m ≫= k) w.
Proof.
  intros Hm Hk. pose proof (pure_db m w Hm) as Hd. unfold isolates. rewrite bind_eq.
  destruct (m w) as [[a|e] w1]; simpl in Hd; simpl.
  - specialize (Hk a w1 eq_refl Hd). unfold isolates in Hk. by rewrite Hd in Hk.
  - rewrite Hd. apply isolated_refl.
Qed.

Lemma isolates_last {A B} o (m : M X A) (k : A → M X B) w :
  isolates o m w → (∀ a, pure (k a)) → isolates o (m ≫= k) w.
Proof.
  intros Hm Hk. unfold isolates in *. rewrite bind_eq. destruct (m w) as [[a|e] w1]; [|done].
  simpl in *. by rewrite (pure_db (k a) w1 (Hk a)).
Qed.

Lemma isolates_insert o T r (w : World X) : owner (w_db w) T r = Some o → isolates o (db_insert T r) w.
Proof.
  intros Ho. unfold isolates. destruct (db_insert T r w) as [[[]|e] w1] eqn:E.
  - apply db_insert_inv in E as [-> _]. by apply isolated_insert.
  - apply db_insert_throw in E as [-> _]. apply isolated_refl.
Qed.

Lemma isolates_update_raw o T p f (w : World X) :
  (∀ r, r ∈ tget T (w_db w) → p r = true → owner (w_db w) T r = Some o ∧ owner (w_db w) T (f r) = Some o) →
  isolates o (db_update_raw T p f) w.
Proof.
  intros Hp. unfold isolates, db_update_raw. destruct (sql_update T p f (w_db w)) as [msg|[d n]] eqn:E.
  - apply isolated_refl.
  - apply sql_update_inv in E as [-> _]. by apply isolated_update.
Qed.

Lemma isolates_update o T p f (w : World X) :
  (∀ r, r ∈ tget T (w_db w) → p r = true → owner (w_db w) T r = Some o ∧ owner (w_db w) T (f r) = Some o) →
  isolates o (db_update T p f) w.
Proof.
  intros Hp. pose proof (isolates_update_raw o T p f w Hp) as Hi. unfold isolates in *.
  unfold db_update, try_catch, db_update_raw in *. by destruct (sql_update T p f (w_db w)) as [msg|[d n]].
Qed.
End programs.

Ltac pures := solve [unfold pure; intros ?; preserve | by intros ? ? ?].

(** Reads first, then one write, then the answer. *)
Ltac reading := repeat (apply isolates_bind; [pures|intros ? ? _ ?]).
Ltac writing := apply isolates_last; [|intros; pures].

Section writes.
Context {X : Type} `{Oracle}.

Lemma insert_isolates {A} o T (r : string → string → row_of T) (a : string → string → A) (w : World X) :
  (∀ now id, owner (w_db w) T (r now id) = Some o) →
  isolates o (now ← nowIso; id ← newId; db_insert T (r now id);; mret (a now id)) w.
Proof.
  intros Ho. apply isolates_bind; [pures|]. intros now w1 _ E1. apply isolates_bind; [pures|].
  intros id w2 _ E2. writing. apply isolates_insert. rewrite E2, E1. apply Ho.
Qed.

(** Rows with the key of an owned row are owned. *)
Lemma same_row T d o a r :
  db_ok d → a ∈ tget T d → owner d T a = Some o → r ∈ tget T d → row_pkey T r = row_pkey T a → owner d T r = Some o.
Proof. intros Hd Ha Ho Hr E. by rewrite (table_ok_pkey_unique T d r a (Hd T) Hr Ha E). Qed.

Lemma update_isolates {A} o T (a : row_of T) p f (k : nat → M X A) (w : World X) :
  db_ok (w_db w) → a ∈ tget T (w_db w) → owner (w_db w) T a = Some o →
  (∀ r, p r = true → row_pkey T r = row_pkey T a) → (∀ r, owner (w_db w) T (f r) = owner (w_db w) T r) →
  (∀ n, pure (k n)) →
  isolates o (db_update T p f ≫= k) w ∧ isolates o (db_update_raw T p f ≫= k) w.
Proof.
  intros Hd Ha Ho Hp Hf Hk.
  assert (Hown : ∀ r, r ∈ tget T (w_db w) → p r = true → owner (w_db w) T r = Some o ∧ owner (w_db w) T (f r) = Some o).
  { intros r Hr Hpr. rewrite Hf. assert (owner (w_db w) T r = Some o) by (apply (same_row T (w_db w) o a r); auto). done. }
  split; (apply isolates_last; [|done]); [by apply isolates_update|by apply isolates_update_raw].
Qed.

Context (o : string).

Lemma product_update_isolates p n r b (w : World X) :
  db_ok (w_db w) → p ∈ db_product (w_db w) → pr_orgId p = o → isolates o (ProductRepo_update (pr_id p) n r b) w.
Proof.
  intros Hd Hp Ho. unfold ProductRepo_update, ProductRepo_get. apply isolates_bind; [pures|].
  intros e w1 [= <- <-] _. destruct (find_first _ _) as [e|] eqn:Ee; [|by apply isolates_pure; pures].
  apply find_first_Some in Ee as [_ Ee]. bool_hyps. cbv zeta. apply isolates_bind; [pures|]. intros now w2 _ E2.
  apply (update_isolates o T_product p); rewrite ?E2; try done; [by simpl; rewrite Ho| |intros; pures].
  intros x Hx. bool_hyps. simpl. congruence.
Qed.

Lemma release_update_isolates p patch (w : World X) :
  db_ok (w_db w) → p ∈ db_release (w_db w) → rel_orgId p = o → isolates o (ReleaseRepo_update (rel_id p) patch) w.
Proof.
  intros Hd Hp Ho. unfold ReleaseRepo_update, ReleaseRepo_get. apply isolates_bind; [pures|].
  intros e w1 [= <- <-] _. destruct (find_first _ _) as [e|] eqn:Ee; [|by apply isolates_pure; pures].
  apply find_first_Some in Ee as [_ Ee]. bool_hyps. apply isolates_bind; [pures|]. intros now w2 _ E2.
  apply (update_isolates o T_release p); rewrite ?E2; try done; [by simpl; rewrite Ho| |intros; pures].
  intros x Hx. bool_hyps. simpl. congruence.
Qed.

Lemma deployment_update_isolates p patch (w : World X) :
  db_ok (w_db w) → p ∈ db_deployment (w_db w) → dep_orgId p = o → isolates o (DeploymentRepo_update (dep_id p) patch) w.
Proof.
  intros Hd Hp Ho. unfold DeploymentRepo_update, DeploymentRepo_get. apply isolates_bind; [pures|].
  intros e w1 [= <- <-] _. destruct (find_first _ _) as [e|] eqn:Ee; [|by apply isolates_pure; pures].
  apply find_first_Some in Ee as [_ Ee]. bool_hyps. apply isolates_bind; [pures|]. intros now w2 _ E2.
  apply (update_isolates o T_deployment p); rewrite ?E2; try done; [by simpl; rewrite Ho| |intros; pures].
  intros x Hx. bool_hyps. simpl. congruence.
Qed.

Lemma job_update_isolates p patch (w : World X) :
  db_ok (w_db w) → p ∈ db_job (w_db w) → job_orgId p = o → isolates o (JobRepo_update (job_id p) patch) w.
Proof.
  intros Hd Hp Ho. unfold JobRepo_update, JobRepo_get. apply isolates_bind; [pures|].
  intros e w1 [= <- <-] _. destruct (find_first _ _) as [e|] eqn:Ee; [|by apply isolates_pure; pures].
  apply find_first_Some in Ee as [_ Ee]. bool_hyps. cbv zeta. apply isolates_bind; [pures|]. intros now w2 _ E2.
  apply (update_isolates o T_job p); rewrite ?E2; try done; [by simpl; rewrite Ho| |intros; pures].
  intros x Hx. bool_hyps. simpl. congruence.
Qed.

(** A soft delete of a row of the organisation. *)
Lemma soft_delete_isolates {A} T (a : row_of T) p (f : string → row_of T → row_of T) (k : nat → M X A) (w : World X) :
  db_ok (w_db w) → a ∈ tget T (w_db w) → owner (w_db w) T a = Some o →
  (∀ r, p r = true → row_pkey T r = row_pkey T a) →
  (∀ now r, owner (w_db w) T (f now r) = owner (w_db w) T r) → (∀ n, pure (k n)) →
  isolates o (now ← nowIso; changes ← db_update_raw T p (f now); k changes) w.
Proof.
  intros Hd Ha Ho Hp Hf Hk. apply isolates_bind; [pures|]. intros now w1 _ E1.
  apply (update_isolates o T a); rewrite ?E1; auto.
Qed.

Lemma claim_isolates by_ (w : World X) : db_ok (w_db w) → isolates o (JobRepo_claimNext o by_) w.
Proof.
  intros Hd. unfold isolates, JobRepo_claimNext, runInTransaction.
  match goal with |- context [match ?m w with _ => _ end] => set (prog := m); assert (Hi : isolates o prog w) end.
  { apply isolates_bind; [pures|]. intros p w1 [= <- <-] _.
    destruct (head _) as [p|] eqn:Ep; [|by apply isolates_pure; pures].
    apply head_Some_elem_of, order_asc_elem, select_elem in Ep as [Hp Hc]. unfold job_claimable in Hc. bool_hyps.
    apply (soft_delete_isolates T_job p _ (job_set_claimed by_)); try done; [by simpl; congruence| |intros; pures].
    intros r Hr. bool_hyps. simpl. congruence. }
  unfold isolates in Hi. destruct (prog w) as [[a|e] w1]; [done|apply isolated_refl].
Qed.

Lemma heartbeat_isolates n meta (w : World X) : db_ok (w_db w) → isolates o (RunnerRepo_heartbeat o n meta) w.
Proof.
  intros Hd. unfold RunnerRepo_heartbeat. apply isolates_bind; [pures|]. intros now w1 _ E1.
  apply isolates_bind; [pures|]. intros e w2 [= <- <-] _. cbv zeta.
  destruct (head _) as [e|] eqn:Ee.
  - apply head_Some_elem_of, order_by_elem, select_elem in Ee as [He Hc]. bool_hyps. rewrite E1 in He.
    destruct (is_null _); apply (update_isolates o T_runner e); rewrite ?E1; try done;
      solve [by simpl; congruence | intros x Hx; bool_hyps; simpl; congruence | intros; pures].
  - apply isolates_bind; [pures|]. intros id w2 _ E2. writing. by apply isolates_insert.
Qed.
End writes.

(** ** Handlers *)

Section handlers.
Context {X : Type} `{Oracle} `{JsEngine} {C : Crypto X} {HH : HttpHost X}.

Lemma lift_keeps {A} I (r : Res A) : preserves (X:=X) (on_db I) (lift r).
Proof. by intros w Hw. Qed.
Lemma validateRepoUrl_keeps I u : preserves (X:=X) (on_db I) (validateRepoUrl u).
Proof. unfold validateRepoUrl. preserve. Qed.
Lemma validateGitRef_keeps I u : preserves (X:=X) (on_db I) (validateGitRef u).
Proof. unfold validateGitRef. preserve. Qed.
Lemma limit_of_keeps I n : preserves (X:=X) (on_db I) (limit_of n).
Proof. unfold limit_of. preserve. Qed.
Lemma in_org_keeps {A} I what (f : A → string) cx id row : preserves (X:=X) (on_db I) (in_org what f cx id row).
Proof. unfold in_org. preserve. Qed.
Lemma optional_body_keeps I cx : preserves (X:=X) (on_db I) (optional_body cx).
Proof. unfold optional_body. destruct (cx_body cx); [apply lift_keeps|preserve]. Qed.
Lemma generate_keeps I : preserves (X:=X) (on_db I) generateApiKey.
Proof. unfold generateApiKey, randomB32. preserve. Qed.
#[local] Hint Resolve lift_keeps validateRepoUrl_keeps validateGitRef_keeps limit_of_keeps in_org_keeps
  optional_body_keeps generate_keeps : preserve.

Lemma in_org_inv {A} what (f : A → string) cx id row (w w' : World X) a :
  in_org what f cx id row w = (Ok a, w') → row = Some a ∧ f a = org cx.
Proof.
  unfold in_org. destruct row as [r|]; [|by intros [=]]. destruct (f r =?s org cx) eqn:E; [|by intros [=]].
  intros [= -> _]. by bool_hyps.
Qed.

Lemma releaseInOrg_keeps I cx id : preserves (X:=X) (on_db I) (releaseInOrg cx id).
Proof. unfold releaseInOrg, ReleaseRepo_get. preserve. Qed.
Lemma productInOrg_keeps I cx id : preserves (X:=X) (on_db I) (productInOrg cx id).
Proof. unfold productInOrg, ProductRepo_get. preserve. Qed.
Lemma targetInOrg_keeps I cx id : preserves (X:=X) (on_db I) (targetInOrg cx id).
Proof. unfold targetInOrg, TargetRepo_get. preserve. Qed.
Lemma deploymentInOrg_keeps I cx : preserves (X:=X) (on_db I) (deploymentInOrg cx).
Proof. unfold deploymentInOrg, DeploymentRepo_get. preserve. Qed.
Lemma jobInOrg_keeps I cx : preserves (X:=X) (on_db I) (jobInOrg cx).
Proof. unfold jobInOrg, JobRepo_get. preserve. Qed.
#[local] Hint Resolve releaseInOrg_keeps productInOrg_keeps targetInOrg_keeps deploymentInOrg_keeps
  jobInOrg_keeps : preserve.

Lemma productInOrg_inv cx id (w w' : World X) p :
  productInOrg cx id w = (Ok p, w') → p ∈ db_product (w_db w) ∧ pr_orgId p = org cx.
Proof.
  unfold productInOrg. intros (row & w1 & [= <- <-] & [E Ho]%in_org_inv)%bind_inv_ok.
  by apply find_first_Some in E as [Hin _].
Qed.
Lemma releaseInOrg_inv cx id (w w' : World X) p :
  releaseInOrg cx id w = (Ok p, w') → p ∈ db_release (w_db w) ∧ rel_orgId p = org cx.
Proof.
  unfold releaseInOrg. intros (row & w1 & [= <- <-] & [E Ho]%in_org_inv)%bind_inv_ok.
  by apply find_first_Some in E as [Hin _].
Qed.
Lemma targetInOrg_inv cx id (w w' : World X) p :
  targetInOrg cx id w = (Ok p, w') → p ∈ db_target (w_db w) ∧ tg_orgId p = org cx.
Proof.
  unfold targetInOrg. intros (row & w1 & [= <- <-] & [E Ho]%in_org_inv)%bind_inv_ok.
  by apply find_first_Some in E as [Hin _].
Qed.
Lemma deploymentInOrg_inv cx (w w' : World X) p :
  deploymentInOrg cx w = (Ok p, w') → p ∈ db_deployment (w_db w) ∧ dep_orgId p = org cx.
Proof.
  unfold deploymentInOrg. intros (row & w1 & [= <- <-] & [E Ho]%in_org_inv)%bind_inv_ok.
  by apply find_first_Some in E as [Hin _].
Qed.
Lemma jobInOrg_inv cx (w w' : World X) p :
  jobInOrg cx w = (Ok p, w') → p ∈ db_job (w_db w) ∧ job_orgId p = org cx.
Proof.
  unfold jobInOrg. intros (row & w1 & [= <- <-] & [E Ho]%in_org_inv)%bind_inv_ok.
  by apply find_first_Some in E as [Hin _].
Qed.

(** The handlers that only read. *)
Definition read_handlers : list (RequestContext → M X Response) :=
  [get_healthz; get_products; get_product_by_name; get_product; get_releases; get_release; get_release_artifacts;
   get_targets; get_target_by_name; get_target; get_target_deployments; get_deployment; get_deployment_health;
   get_scenarios; get_scenario; get_audit; get_api_keys; get_runners; get_jobs; get_job; post_blobs; get_blob].

Lemma read_handlers_pure h cx : h ∈ read_handlers → pure (h cx).
Proof.
  intros Hh d. unfold read_handlers in Hh.
  repeat (apply elem_of_cons in Hh as [->|Hh]; [
    unfold get_healthz, get_products, get_product_by_name, get_product, get_releases, get_release,
      get_release_artifacts, get_targets, get_target_by_name, get_target, get_target_deployments, get_deployment,
      get_deployment_health, get_scenarios, get_scenario, get_audit, get_api_keys, get_runners, get_jobs, get_job,
      post_blobs, get_blob, ok, created, ProductRepo_listForOrg, ProductRepo_getByName, ReleaseRepo_listForProduct,
      ArtifactRepo_listForRelease, TargetRepo_listForOrg, TargetRepo_getByName, DeploymentRepo_listForTarget,
      HealthCheckRepo_listForDeployment, ScenarioRepo_listForOrg, ScenarioRepo_get, AuditLogRepo_listForOrg,
      ApiKeyRepo_listForOrg, RunnerRepo_listForOrg, JobRepo_listForOrg; preserve|]).
  by apply elem_of_nil in Hh.
Qed.

(** A handler from any world with the database [d]. *)
Definition iso {A} (d : DB) (o : string) (m : M X A) : Prop := ∀ w, w_db w = d → isolates o m w.

Lemma iso_bind {A B} d o (m : M X A) (k : A → M X B) :
  pure m → (∀ a w w1, w_db w = d → m w = (Ok a, w1) → iso d o (k a)) → iso d o (m ≫= k).
Proof.
  intros Hm Hk w Hw. apply isolates_bind; [done|]. intros a w1 E E1. apply (Hk a w w1 Hw E). congruence.
Qed.

Lemma iso_last {A B} d o (m : M X A) (k : A → M X B) : iso d o m → (∀ a, pure (k a)) → iso d o (m ≫= k).
Proof. intros Hm Hk w Hw. apply isolates_last; [by apply Hm|done]. Qed.

Lemma iso_pure {A} d o (m : M X A) : pure m → iso d o m.
Proof. intros Hm w _. by apply isolates_pure. Qed.

Lemma owner_artifact d rel i r c k s z b m t u e :
  db_ok d → rel ∈ db_release d → rel_id rel = r →
  owner d T_artifact (mkArtifact i r c k s z b m t u e) = Some (rel_orgId rel).
Proof.
  intros Hd Hr <-. simpl. rewrite (find_first_unique _ _ rel); [done|done|by rewrite bool_decide_eq_true_2|].
  intros y Hy Hp. bool_hyps. apply (table_ok_pkey_unique T_release d); [apply Hd|done|done|]. simpl. congruence.
Qed.

Lemma owner_check d dep i r p s l t a b c e :
  db_ok d → dep ∈ db_deployment d → dep_id dep = r →
  owner d T_health_check (mkHealthCheck i r p s l t a b c e) = Some (dep_orgId dep).
Proof.
  intros Hd Hr <-. simpl. rewrite (find_first_unique _ _ dep); [done|done|by rewrite bool_decide_eq_true_2|].
  intros y Hy Hp. bool_hyps. by eapply deployments_pkey.
Qed.

Ltac step := first
  [ apply iso_last; [|intros; unfold ok, created, no_content; solve [unfold pure; intros; preserve]]
  | apply iso_bind; [solve [unfold pure; intros; preserve]|intros ? ? ? ? ?] ].
Ltac found := repeat match goal with
  | E : productInOrg _ _ ?w = (Ok _, _), W : w_db ?w = _ |- _ =>
    apply productInOrg_inv in E as [? ?]; rewrite W in *
  | E : releaseInOrg _ _ ?w = (Ok _, _), W : w_db ?w = _ |- _ =>
    apply releaseInOrg_inv in E as [? ?]; rewrite W in *
  | E : targetInOrg _ _ ?w = (Ok _, _), W : w_db ?w = _ |- _ =>
    apply targetInOrg_inv in E as [? ?]; rewrite W in *
  | E : deploymentInOrg _ ?w = (Ok _, _), W : w_db ?w = _ |- _ =>
    apply deploymentInOrg_inv in E as [? ?]; rewrite W in *
  | E : jobInOrg _ ?w = (Ok _, _), W : w_db ?w = _ |- _ =>
    apply jobInOrg_inv in E as [? ?]; rewrite W in *
  end.
Ltac inserting := intros ? ?; apply insert_isolates; intros; simpl; congruence.

Context (cx : RequestContext) (d : DB) (Hd : db_ok d).

Lemma post_products_iso : iso d (org cx) (post_products cx).
Proof. unfold post_products. do 6 step. intros ? _. by apply insert_isolates. Qed.

Lemma patch_product_iso : iso d (org cx) (patch_product cx).
Proof. unfold patch_product. do 7 step. found. intros ? E. apply product_update_isolates; rewrite ?E; auto. Qed.

Lemma delete_product_iso : iso d (org cx) (delete_product cx).
Proof.
  unfold delete_product. do 2 step. found. intros ? E. eapply (soft_delete_isolates (org cx) T_product); rewrite ?E;
    [done|done|by simpl; f_equal| |done|intros; pures]. intros r Hr. bool_hyps. simpl. congruence.
Qed.

Lemma post_releases_iso : iso d (org cx) (post_releases cx).
Proof. unfold post_releases. do 7 step. intros ? _. by apply insert_isolates. Qed.

Lemma patch_release_iso : iso d (org cx) (patch_release cx).
Proof. unfold patch_release. do 9 step. found. intros ? E. apply release_update_isolates; rewrite ?E; auto. Qed.

Lemma delete_release_iso : iso d (org cx) (delete_release cx).
Proof.
  unfold delete_release. do 2 step. found. intros ? E. eapply (soft_delete_isolates (org cx) T_release); rewrite ?E;
    [done|done|by simpl; f_equal| |done|intros; pures]. intros r Hr. bool_hyps. simpl. congruence.
Qed.

Lemma post_release_artifacts_iso : iso d (org cx) (post_release_artifacts cx).
Proof.
  unfold post_release_artifacts. do 9 step. found. intros ? E. apply insert_isolates. intros. rewrite E.
  match goal with R : rel_orgId ?r = org cx |- _ => rewrite <- R; by apply owner_artifact end.
Qed.

Lemma post_targets_iso : iso d (org cx) (post_targets cx).
Proof.
  unfold post_targets. do 2 step.
  destruct (get_prop _ _) as [[]|]; first [by apply iso_pure; pures | do 2 step; intros ? _; by apply insert_isolates].
Qed.

Lemma delete_target_iso : iso d (org cx) (delete_target cx).
Proof.
  unfold delete_target. do 2 step. found. intros ? E. eapply (soft_delete_isolates (org cx) T_target); rewrite ?E;
    [done|done|by simpl; f_equal| |done|intros; pures]. intros r Hr. bool_hyps. simpl. congruence.
Qed.

Lemma post_deployments_iso : iso d (org cx) (post_deployments cx).
Proof. unfold post_deployments. do 7 step. intros ? _. by apply insert_isolates. Qed.

Lemma patch_deployment_iso : iso d (org cx) (patch_deployment cx).
Proof.
  unfold patch_deployment. do 5 step. cbv zeta. step. found. intros ? E.
  apply deployment_update_isolates; rewrite ?E; auto.
Qed.

Lemma post_deployment_health_iso : iso d (org cx) (post_deployment_health cx).
Proof.
  unfold post_deployment_health. do 7 step. found. intros ? E. apply insert_isolates. intros. rewrite E.
  match goal with R : dep_orgId ?r = org cx |- _ => rewrite <- R; by apply owner_check end.
Qed.

Lemma post_audit_iso : iso d (org cx) (post_audit cx).
Proof.
  unfold post_audit. do 5 step. cbv zeta. step. intros ? _. by apply insert_isolates.
Qed.

Lemma post_api_keys_iso : iso d (org cx) (post_api_keys cx).
Proof. unfold post_api_keys. do 5 step. intros ? _. by apply insert_isolates. Qed.

Lemma delete_api_key_iso : iso d (org cx) (delete_api_key cx).
Proof.
  unfold delete_api_key. intros w Hw. apply isolates_bind; [pures|]. intros row w1 [= <- <-] _.
  apply isolates_bind; [pures|]. intros key w2 [E Ho]%in_org_inv E2. apply find_first_Some in E as [Hin _].
  rewrite <- E2, Hw in *. writing. eapply (soft_delete_isolates (org cx) T_api_key); rewrite ?E2, ?Hw;
    [done|done|by simpl; f_equal| |done|intros; pures]. intros r Hr. bool_hyps. simpl. congruence.
Qed.

Lemma delete_runner_iso : iso d (org cx) (delete_runner cx).
Proof.
  unfold delete_runner. intros w Hw. apply isolates_bind; [pures|]. intros row w1 [= <- <-] _.
  apply isolates_bind; [pures|]. intros key w2 [E Ho]%in_org_inv E2. apply find_first_Some in E as [Hin _].
  rewrite <- E2, Hw in *. writing. eapply (soft_delete_isolates (org cx) T_runner); rewrite ?E2, ?Hw;
    [done|done|by simpl; f_equal| |done|intros; pures]. intros r Hr. bool_hyps. simpl. congruence.
Qed.

Lemma post_runner_heartbeat_iso : iso d (org cx) (post_runner_heartbeat cx).
Proof.
  unfold post_runner_heartbeat. do 4 step. intros ? E. apply heartbeat_isolates. by rewrite E.
Qed.

Lemma post_jobs_iso : iso d (org cx) (post_jobs cx).
Proof. unfold post_jobs. do 5 step. intros ? _. by apply insert_isolates. Qed.

Lemma post_jobs_claim_iso : iso d (org cx) (post_jobs_claim cx).
Proof. unfold post_jobs_claim. do 3 step. intros ? E. apply claim_isolates. by rewrite E. Qed.

Lemma post_job_complete_iso : iso d (org cx) (post_job_complete cx).
Proof. unfold post_job_complete. do 5 step. found. intros ? E. apply job_update_isolates; rewrite ?E; auto. Qed.

Lemma post_job_fail_iso : iso d (org cx) (post_job_fail cx).
Proof. unfold post_job_fail. do 5 step. found. intros ? E. apply job_update_isolates; rewrite ?E; auto. Qed.

Lemma patch_job_iso : iso d (org cx) (patch_job cx).
Proof. unfold patch_job. do 8 step. found. intros ? E. apply job_update_isolates; rewrite ?E; auto. Qed.

(** The handlers that write, which keep the store well-formed. *)
Definition write_handlers : list (RequestContext → M X Response) :=
  [post_products; patch_product; delete_product; post_releases; patch_release; delete_release;
   post_release_artifacts; post_targets; delete_target; post_deployments; patch_deployment;
   post_deployment_health; post_audit; post_api_keys; delete_api_key; post_runner_heartbeat;
   delete_runner; post_jobs; post_jobs_claim; post_job_complete; post_job_fail; patch_job].

Lemma write_handlers_ok h c : h ∈ write_handlers → preserves (on_db db_ok) (h c).
Proof.
  intros Hh. unfold write_handlers in Hh.
  repeat (apply elem_of_cons in Hh as [->|Hh]; [
    unfold post_products, patch_product, delete_product, post_releases, patch_release,
      delete_release, post_release_artifacts, post_targets, delete_target, post_deployments,
      patch_deployment, post_deployment_health, post_audit, post_api_keys, delete_api_key,
      post_runner_heartbeat, delete_runner, post_jobs, post_jobs_claim, post_job_complete,
      post_job_fail, patch_job,
      ok, created, no_content, ApiKeyRepo_get, RunnerRepo_get; preserve|]).
  by apply elem_of_nil in Hh.
Qed.
End handlers.

(** ** The table *)

#[local] Hint Resolve post_products_iso patch_product_iso delete_product_iso post_releases_iso patch_release_iso
  delete_release_iso post_release_artifacts_iso post_targets_iso delete_target_iso post_deployments_iso
  patch_deployment_iso post_deployment_health_iso post_audit_iso post_api_keys_iso delete_api_key_iso
  post_runner_heartbeat_iso delete_runner_iso post_jobs_iso post_jobs_claim_iso post_job_complete_iso
  post_job_fail_iso patch_job_iso : isolation.

Section table.
Context {X : Type} `{Oracle} `{JsEngine} {C : Crypto X} {HH : HttpHost X}.

Lemma read_handler_iso d o h cx : h ∈ read_handlers (X:=X) → iso d o (h cx).
Proof. intros Hh. by apply iso_pure, read_handlers_pure. Qed.

(** Every handler of the table changes rows of the caller's organisation only. *)
Lemma routes_iso r cx d : r ∈ routes (X:=X) → db_ok d → iso d (org cx) (ro_handler r cx).
Proof.
  intros Hr Hd. unfold routes in Hr.
  repeat (apply elem_of_cons in Hr as [->|Hr];
    [cbn [ro_handler]; first [solve [auto with isolation] | apply read_handler_iso; unfold read_handlers; repeat constructor]|]).
  by apply elem_of_nil in Hr.
Qed.

Lemma find_route_spec m p (l : list (Route (X:=X))) r caps :
  find_route m p l = Some (r, caps) → r ∈ l ∧ match_path (compile_path (ro_path r)) p = Some caps.
Proof.
  induction l as [|x l IH]; [done|]. simpl. destruct (negb _); [intros [? ?]%IH; split; [by right|done]|].
  destruct (match_path (compile_path (ro_path x)) p) as [c|] eqn:E; [intros E1; injection E1 as <- <-; split; [left|done]|].
  intros [? ?]%IH. split; [by right|done].
Qed.

(** The anonymous path answers with the version. *)
Lemma find_route_public m p r caps :
  existsb (λ q, q =?s p) PUBLIC_PATHS = true → find_route m p (routes (X:=X)) = Some (r, caps) →
  ro_handler r = get_healthz ∧ ro_streamBody r = None.
Proof.
  cbn [PUBLIC_PATHS existsb]. rewrite orb_false_r. intros <-%bool_decide_eq_true_1 [Hr Hm]%find_route_spec.
  unfold routes in Hr.
  repeat (apply elem_of_cons in Hr as [->|Hr]; [cbn [ro_path] in Hm; vm_compute in Hm; first [discriminate Hm|done]|]).
  by apply elem_of_nil in Hr.
Qed.
End table.

(** ** Requests *)

Section requests.
Context {X : Type} `{Oracle} `{JsEngine} {C : Crypto X} {HH : HttpHost X}.

Lemma verifyToken_pure token : pure (verifyToken (X:=X) token).
Proof. intros d. unfold verifyToken, ApiKeyRepo_getByPrefix. preserve. Qed.

Lemma insert_row_spec {A} T (r : string → string → row_of T) (a : string → string → A) (w w1 : World X) (res : Res A) :
  (now ← nowIso; id ← newId; db_insert T (r now id);; mret (a now id)) w = (res, w1) →
  match res with
  | Ok x => ∃ now id, w_db w1 = tset T (tget T (w_db w) ++ [r now id]) (w_db w) ∧ x = a now id
  | Throw _ => w_db w1 = w_db w
  end.
Proof.
  rewrite bind_nowIso, bind_newId, bind_eq.
  match goal with |- context [db_insert T ?row ?w2] => destruct (db_insert T row w2) as [[[]|e] w3] eqn:E end.
  - apply db_insert_inv in E as [-> _]. intros [= <- <-]. by do 2 eexists.
  - apply db_insert_throw in E as [-> _]. by intros [= <- <-].
Qed.

(** Looking the default organisation up may create it: nothing else moves, and
    nothing at all when that fails. *)
Lemma ensureDefaultOrg_spec (w w1 : World X) (r : Res Org) :
  ensureDefaultOrg w = (r, w1) →
  match r with
  | Ok o => ∃ orgs, w_db w1 = tset T_org orgs (w_db w) ∧ select (foreign (w_db w) (org_id o) T_org) orgs = select (foreign (w_db w) (org_id o) T_org) (db_org (w_db w))
  | Throw _ => w_db w1 = w_db w
  end.
Proof.
  unfold ensureDefaultOrg. rewrite bind_eq. unfold OrgRepo_getByName, read.
  destruct (find_first _ _) as [o|]; [intros [= <- <-]; exists (db_org (w_db w)); by destruct (w_db w)|].
  intros E. apply (insert_row_spec T_org) in E. destruct r; [|done]. destruct E as (now & id & -> & ->). eexists. split; [done|].
  rewrite select_app. simpl. rewrite owned_not_foreign by done. apply app_nil_r.
Qed.

Lemma isolated_org o orgs d d' :
  select (foreign d o T_org) orgs = select (foreign d o T_org) (db_org d) → isolated o (tset T_org orgs d) d' → isolated o d d'.
Proof.
  intros Ho Hi T. specialize (Hi T). destruct T; try exact Hi. simpl in *. etrans; [exact Hi|exact Ho].
Qed.

Definition authenticated (o : string) (w w1 : World X) : Prop :=
  db_ok (w_db w1) ∧ ∀ d', isolated o (w_db w1) d' → isolated o (w_db w) d'.

Lemma makeAuthenticator_spec dis req (w : World X) :
  db_ok (w_db w) →
  match makeAuthenticator dis req w with
  | (Ok a, w1) => authenticated (au_orgId a) w w1
  | (Throw _, w1) => w_db w1 = w_db w
  end.
Proof.
  intros Hd. unfold makeAuthenticator. destruct (bearer_token _) as [token|].
  - rewrite bind_eq. pose proof (pure_db _ w (verifyToken_pure token)) as Hp.
    destruct (verifyToken token w) as [[[k|]|e] w1]; simpl in *; try done.
    unfold authenticated. by rewrite Hp.
  - destruct (_ && _); [|done]. rewrite bind_eq.
    destruct (ensureDefaultOrg w) as [r w1] eqn:E. pose proof (ensureDefaultOrg_spec _ _ _ E) as Hs.
    assert (Hok : on_db db_ok w1).
    { assert (Hp : preserves (X:=X) (on_db db_ok) ensureDefaultOrg)
        by (unfold ensureDefaultOrg, OrgRepo_getByName; preserve).
      specialize (Hp w Hd). by rewrite E in Hp. }
    destruct r as [o|e]; [|done]. split; [done|]. destruct Hs as (orgs & -> & Ho). intros d'. by apply isolated_org.
Qed.

(** A request of a matched route. *)
Definition answered (dis : bool) (req : Request) (w : World X) (d' : DB) : Prop :=
  match makeAuthenticator dis req w with
  | (Ok a, _) => isolated (au_orgId a) (w_db w) d'
  | (Throw _, _) => d' = w_db w
  end.

Lemma answered_same dis req w : answered dis req w (w_db w).
Proof. unfold answered. destruct (makeAuthenticator dis req w) as [[]]; [apply isolated_refl|done]. Qed.

Lemma authorized_run dis req (w : World X) (k : AuthContext → M X Response) :
  db_ok (w_db w) → existsb (λ p, p =?s rq_path req) PUBLIC_PATHS = false →
  (∀ a d, db_ok d → iso d (au_orgId a) (k a)) →
  answered dis req w (w_db ((authorize (makeAuthenticator dis) PUBLIC_PATHS req ≫= k) w).2).
Proof.
  intros Hd Hp Hk. unfold answered, authorize. rewrite Hp, bind_eq. pose proof (makeAuthenticator_spec dis req w Hd) as Ha.
  destruct (makeAuthenticator dis req w) as [[a|e] w1]; [|done]. destruct Ha as [Hok Hi].
  apply Hi. by apply (Hk a (w_db w1)).
Qed.

Lemma try_catch_db {A} (m : M X A) (h : Err → A) w :
  w_db (try_catch m (λ e, mret (h e)) w).2 = w_db (m w).2.
Proof. unfold try_catch. by destruct (m w) as [[]]. Qed.

Lemma run_route_answered dis req caps r (w : World X) :
  db_ok (w_db w) → r ∈ routes (X:=X) → existsb (λ p, p =?s rq_path req) PUBLIC_PATHS = false →
  answered dis req w (w_db (run_route (makeAuthenticator dis) PUBLIC_PATHS r caps req w).2).
Proof.
  intros Hd Hr Hp. unfold run_route. rewrite bind_eq. simpl.
  destruct (decode_params caps) as [params|e]; [|apply answered_same].
  assert (Hall : ∀ body up a d, db_ok d →
    iso d (au_orgId a) (ro_handler r (mkRequestContext params (rq_query req) body up a)))
    by (intros; by apply (routes_iso r (mkRequestContext _ _ _ _ _))).
  destruct (ro_streamBody r) as [cap|].
  - destruct (capStreamBody req cap) as [content|declared|]; simpl.
    + apply authorized_run; auto.
    + rewrite try_catch_db, bind_eq.
      pose proof (authorized_run dis req w _ Hd Hp (Hall None (Some (UP_declared_too_large declared)))) as Ha.
      match type of Ha with answered _ _ _ (w_db ?p.2) => by destruct p as [[]] end.
    + apply authorized_run; [done|done|]. intros a d Hok w1 Hw. unfold isolates. rewrite try_catch_db.
      refine (iso_last d _ _ _ (Hall _ _ a d Hok) _ w1 Hw). by intros ? ? ? ?.
  - rewrite bind_eq. simpl. destruct (readBody req) as [body|e]; [|apply answered_same]. apply authorized_run; auto.
Qed.

Lemma run_public_same dis req caps r (w : World X) :
  ro_handler r = get_healthz → ro_streamBody r = None → existsb (λ p, p =?s rq_path req) PUBLIC_PATHS = true →
  w_db (run_route (makeAuthenticator dis) PUBLIC_PATHS r caps req w).2 = w_db w.
Proof.
  intros Hh Hs Hp. unfold run_route, authorize. rewrite bind_eq, Hs, Hp, Hh. simpl.
  destruct (decode_params caps) as [params|e]; [|done]. rewrite bind_eq. simpl. by destruct (readBody req).
Qed.

Lemma handle_answered dis req (w : World X) :
  db_ok (w_db w) → answered dis req w (w_db (handle (makeAuthenticator dis) PUBLIC_PATHS routes req w).2).
Proof.
  intros Hd. unfold handle. destruct (find_route _ _ _) as [[r caps]|] eqn:Er; [|apply answered_same].
  destruct (existsb (λ p, p =?s rq_path req) PUBLIC_PATHS) eqn:Hp.
  - destruct (find_route_public _ _ _ _ Hp Er) as [? ?]. rewrite run_public_same by done. apply answered_same.
  - apply run_route_answered; [done| |done]. by apply find_route_spec in Er as [? _].
Qed.

(** The store stays well-formed whatever is asked. *)
Lemma routes_ok r cx : r ∈ routes (X:=X) → preserves (on_db db_ok) (ro_handler r cx).
Proof.
  intros Hr. unfold routes in Hr.
  repeat (apply elem_of_cons in Hr as [->|Hr]; [cbn [ro_handler]; first
    [ apply (write_handlers_ok (X:=X)); unfold write_handlers; solve [repeat constructor]
    | apply pure_ok, read_handlers_pure; unfold read_handlers; repeat constructor]|]).
  by apply elem_of_nil in Hr.
Qed.

Lemma makeAuthenticator_ok dis req : preserves (X:=X) (on_db db_ok) (makeAuthenticator dis req).
Proof.
  intros w Hw. pose proof (makeAuthenticator_spec dis req w Hw) as Hs. unfold on_db.
  destruct (makeAuthenticator dis req w) as [[a|e] w1]; simpl; [by destruct Hs|by rewrite Hs].
Qed.

Lemma authorize_ok dis paths req : preserves (X:=X) (on_db db_ok) (authorize (makeAuthenticator dis) paths req).
Proof. unfold authorize. destruct (existsb _ _); [by intros w Hw|apply makeAuthenticator_ok]. Qed.

Lemma app_ok dis req : preserves (X:=X) (on_db db_ok) (app dis req).
Proof.
  unfold app, listener. apply preserves_try; [|by intros ? ? ?]. unfold handle.
  destruct (find_route _ _ _) as [[r caps]|] eqn:Er; [|by intros ? ?]. apply find_route_spec in Er as [Hr _].
  pose proof (authorize_ok dis PUBLIC_PATHS req) as Ha.
  pose proof (routes_ok r) as Hh. unfold run_route.
  repeat first [ apply lift_keeps | apply Ha | by apply Hh | apply preserves_bind; [|intros ?] | apply preserves_try; [|intros ?]
    | case_match | by intros ? ? ].
Qed.

(** A request that fails to authenticate runs no handler. *)
Lemma refused_run dis req caps r (w w1 : World X) e :
  makeAuthenticator dis req w = (Throw e, w1) → existsb (λ p, p =?s rq_path req) PUBLIC_PATHS = false →
  r ∈ routes (X:=X) →
  let out := run_route (makeAuthenticator dis) PUBLIC_PATHS r caps req w in
  (out.2 = w ∨ out.2 = w1) ∧
  match out.1 with
  | Ok resp => rs_status resp = 413
  | Throw e' => e' = e ∨ ∃ m, e' = EError m
  end.
Proof.
  intros Ea Hp _. unfold run_route, authorize. rewrite Hp. cbv zeta. rewrite bind_eq. simpl.
  destruct (decode_params caps) as [params|e'] eqn:Ed; [|split; [by left|right]].
  2:{ simpl. revert e' Ed. unfold decode_params. induction caps as [|kv l IH]; [done|]. simpl. intros e'.
      destruct (decodeURIComponent kv.2); [|intros [= <-]; eauto]. destruct (foldr _ _ l); [done|].
      intros [= <-]. by apply IH. }
  destruct (ro_streamBody r) as [cap|].
  - destruct (capStreamBody req cap) as [content|declared|]; simpl; unfold try_catch; rewrite !bind_eq, Ea; simpl; eauto.
  - rewrite bind_eq. simpl. destruct (readBody req) as [body|e'] eqn:Eb; simpl.
    + rewrite bind_eq, Ea. simpl. eauto.
    + split; [by left|right]. unfold readBody in Eb. repeat case_match; simplify_eq; eauto.
Qed.

Lemma insert_row_throws {A} T (r : string → string → row_of T) (a : string → string → A) (w w1 : World X) e :
  (now ← nowIso; id ← newId; db_insert T (r now id);; mret (a now id)) w = (Throw e, w1) →
  w_db w1 = w_db w ∧ w_ext w1 = w_ext w ∧ ∃ m, e = EStorageConflict m.
Proof.
  rewrite bind_nowIso, bind_newId, bind_eq.
  match goal with |- context [db_insert T ?row ?w2] => destruct (db_insert T row w2) as [[[]|e'] w3] eqn:E end; [done|].
  apply db_insert_throw in E as [-> [m ->]]. intros [= <- <-]. eauto.
Qed.

Lemma verifyToken_total token (w : World X) :
  ∃ k w1, verifyToken token w = (Ok k, w1) ∧ w_db w1 = w_db w ∧ w_ext w1 = w_ext w.
Proof.
  unfold verifyToken. destruct (match_token token) as [[p secret]|]; [|eauto]. unfold ApiKeyRepo_getByPrefix.
  rewrite bind_read. destruct (find_first _ _) as [k|]; [|eauto]. rewrite bind_eq.
  destruct (truthy (ak_expiresAt k)) as [t|]; [rewrite (bind_eq nowDate)|]; simpl;
    repeat match goal with |- context [if ?b then _ else _] => destruct b end; eauto.
Qed.

Lemma makeAuthenticator_throws dis req (w w1 : World X) e :
  makeAuthenticator dis req w = (Throw e, w1) →
  w_db w1 = w_db w ∧ w_ext w1 = w_ext w ∧ (e = unauthorized "invalid bearer token" ∨
    e = unauthorized UNAUTHORIZED_MESSAGE ∨ ∃ m, e = EStorageConflict m).
Proof.
  unfold makeAuthenticator. destruct (bearer_token _) as [token|].
  - rewrite bind_eq. destruct (verifyToken_total token w) as (k & w2 & -> & ? & ?).
    destruct k; [done|]. intros [= <- <-]. eauto.
  - destruct (_ && _); [|intros [= <- <-]; eauto]. intros [E|(? & ? & ? & [=])]%bind_inv_throw.
    unfold ensureDefaultOrg, OrgRepo_getByName in E. rewrite bind_read in E. destruct (find_first _ _); [done|].
    unfold OrgRepo_create in E. apply insert_row_throws in E as (? & ? & ?). eauto.
Qed.

Lemma app_answers dis req (w : World X) :
  ∃ resp w', app dis req w = (Ok resp, w') ∧ w' = (handle (makeAuthenticator dis) PUBLIC_PATHS routes req w).2.
Proof. unfold app, listener, try_catch. destruct (handle _ _ _ _ w) as [[resp|e] w1]; by do 2 eexists. Qed.

(** C6: every request is answered; the store stays well-formed; and a caller
    leaves the rows of other organisations as they were, in every table, whatever
    method, path, parameters and body it sends.  A caller that does not
    authenticate leaves the whole store as it was. *)
Theorem tenant_isolation dis req (w : World X) :
  db_ok (w_db w) →
  ∃ resp w', app dis req w = (Ok resp, w') ∧ db_ok (w_db w') ∧
  match makeAuthenticator dis req w with
  | (Ok a, _) => isolated (au_orgId a) (w_db w) (w_db w')
  | (Throw _, _) => w_db w' = w_db w
  end.
Proof.
  intros Hd. pose proof (handle_answered dis req w Hd) as Ha. pose proof (app_ok dis req w Hd) as Hok.
  destruct (app_answers dis req w) as (resp & w' & E & Hw). rewrite <- Hw in Ha. rewrite E in Hok.
  exists resp, w'. split; [exact E|]. split; [exact Hok|exact Ha].
Qed.

(** without credentials nothing happens: outside the public paths a request
    that fails to authenticate gets an error status, and neither the store nor the
    blobs or the random generator are touched.  Where a JSON route matches and its
    body is read, the answer is the one for the authentication error. *)
Theorem unauthenticated_refused dis req (w w1 : World X) e :
  makeAuthenticator dis req w = (Throw e, w1) → existsb (λ p, p =?s rq_path req) PUBLIC_PATHS = false →
  ∃ resp w', app dis req w = (Ok resp, w') ∧ w_db w' = w_db w ∧ w_ext w' = w_ext w ∧ 400 ≤ rs_status resp ∧
  (∀ r caps params body, find_route (rq_method req ?? "GET") (rq_path req) (routes (X:=X)) = Some (r, caps) →
     ro_streamBody r = None → decode_params caps = Ok params → readBody req = Ok body → resp = mapError e).
Proof.
  intros Ea Hp. destruct (makeAuthenticator_throws dis req w w1 e Ea) as (Hdb & Hext & He).
  assert (Hst : 400 ≤ rs_status (mapError e)) by (by destruct He as [->|[->|[m ->]]]).
  unfold app, listener, handle, try_catch.
  destruct (find_route _ _ _) as [[r caps]|] eqn:Er; [|do 2 eexists; repeat (split; [done|]); done].
  assert (Hr := proj1 (find_route_spec _ _ _ _ _ Er)).
  pose proof (refused_run dis req caps r w w1 e Ea Hp Hr) as [Hw Hout]. cbv zeta in Hw, Hout.
  destruct (run_route _ _ r caps req w) as [[resp|e'] w2] eqn:Erun; simpl in Hout, Hw; do 2 eexists; (split; [reflexivity|]);
    (split; [by destruct Hw as [->| ->]|]); (split; [by destruct Hw as [->| ->]|]).
  - split; [lia|]. intros r' caps' params body [= <- <-] Hs Hpar Hb. exfalso.
    unfold run_route, authorize in Erun. rewrite bind_eq, Hs, Hpar, Hp in Erun. simpl in Erun.
    rewrite bind_eq, Hb in Erun. simpl in Erun. by rewrite bind_eq, Ea in Erun.
  - split; [destruct Hout as [->|[m ->]]; [done|simpl; lia]|].
    intros r' caps' params body [= <- <-] Hs Hpar Hb.
    unfold run_route, authorize in Erun. rewrite bind_eq, Hs, Hpar, Hp in Erun. simpl in Erun.
    rewrite bind_eq, Hb in Erun. simpl in Erun. rewrite bind_eq, Ea in Erun. by injection Erun as <- _.
Qed.
End requests.

(** ** Keys *)

Lemma all_chars_weaken (p q : ascii → bool) s :
  (∀ c, p c = true → q c = true) → all_chars p s = true → all_chars q s = true.
Proof.
  intros Hpq. induction s as [|c s IH]; [done|]. cbn [all_chars]. intros [Hc Hs]%andb_true_iff.
  by rewrite (Hpq c Hc), IH.
Qed.

Lemma all_chars_app p a b : all_chars p (a +:+ b) = all_chars p a && all_chars p b.
Proof.
  induction a as [|c a IH]; [done|]. rewrite str_app_cons. cbn [all_chars]. by rewrite IH, andb_assoc.
Qed.

Lemma span_end p s : all_chars p s = true → span p s = (s, "").
Proof.
  induction s as [|c s IH]; [done|]. cbn [all_chars span]. intros [-> Hs]%andb_true_iff. by rewrite IH.
Qed.

Lemma trim_start_solid s : all_chars (λ c, negb (is_space c)) s = true → trim_start s = s.
Proof. destruct s as [|c s]; [done|]. cbn [all_chars trim_start]. by intros [->%negb_true_iff _]%andb_true_iff. Qed.

Lemma trim_end_solid s : all_chars (λ c, negb (is_space c)) s = true → trim_end s = s.
Proof.
  induction s as [|c s IH]; [done|]. cbn [all_chars trim_end]. intros [Hc%negb_true_iff Hs]%andb_true_iff.
  rewrite IH, Hc by done. by destruct s.
Qed.

Lemma bearer_token_of token :
  all_chars (λ c, negb (is_space c)) token = true → bearer_token (Some ("Bearer " +:+ token)) = Some token.
Proof.
  intros Ht. unfold bearer_token, trim.
  change "Bearer " with ("Bearer" +:+ " "). rewrite <- str_app_assoc. rewrite (str_drop_app "Bearer").
  change (" " +:+ token) with (String " " token). change (str_take 6 _) with "Bearer".
  change (trim_start (String " " token)) with (trim_start token). rewrite !(trim_start_solid token Ht), trim_end_solid by done.
  rewrite (bool_decide_eq_false_2 (token = String " " token)); [done|].
  intros E1%(f_equal String.length). simpl in E1. lia.
Qed.

Lemma match_token_of p s :
  all_chars is_crockford p = true → all_chars is_crockford s = true → p ≠ "" → s ≠ "" →
  match_token (("sk_" +:+ p) +:+ "_" +:+ s) = Some (p, s).
Proof.
  intros Hp Hs Np Ns. unfold match_token. rewrite <- str_app_assoc, starts_with_app.
  rewrite (str_drop_app "sk_"). cbn [negb]. change ("_" +:+ s) with (String "_" s).
  rewrite span_all, span_end by done. rewrite (bool_decide_eq_false_2 (p = "")), (bool_decide_eq_false_2 (s = "")) by done. done.
Qed.

Lemma crockford_get i : (i < 32)%nat → ∃ c, String.get i CROCKFORD = Some c ∧ is_crockford c = true.
Proof. intros Hi. do 32 (destruct i as [|i]; [by eexists|]). lia. Qed.

Lemma b32_from_spec n bytes :
  (n ≤ String.length bytes)%nat → all_chars is_crockford (b32_from n bytes) = true ∧ String.length (b32_from n bytes) = n.
Proof.
  revert bytes. induction n as [|n IH]; intros bytes Hn; [by destruct bytes|].
  destruct bytes as [|b bytes]; [simpl in Hn; lia|]. cbn [b32_from].
  destruct (crockford_get (Ascii.nat_of_ascii b mod 32)) as (c & -> & Hc); [apply Nat.mod_upper_bound; lia|].
  destruct (IH bytes) as [Ha Hl]; [simpl in Hn; lia|]. cbn [all_chars String.length]. by rewrite Hc, Ha, Hl.
Qed.

Lemma crockford_not_space c : is_crockford c = true → negb (is_space c) = true.
Proof. destruct c as [[] [] [] [] [] [] [] []]; vm_compute; congruence. Qed.

Section keys.
Context {X : Type} `{Oracle} `{JsEngine} {C : Crypto X} {HH : HttpHost X}.
Hypothesis randomBytes_length : ∀ n x, String.length (randomBytes n x).1 = n.

Lemma randomB32_spec n (w w1 : World X) s :
  randomB32 n w = (Ok s, w1) → w_db w1 = w_db w ∧ all_chars is_crockford s = true ∧ String.length s = n.
Proof.
  unfold randomB32, external. pose proof (randomBytes_length (n * 2) (w_ext w)) as Hl.
  destruct (randomBytes _ _) as [bytes x]. intros [= <- <-]. split; [done|]. apply b32_from_spec. simpl in Hl. lia.
Qed.

(** A generated key: its token is read back as its prefix and a secret with its
    hash. *)
Definition key_reads (g : GeneratedApiKey) : Prop :=
  ∃ p s, gk_prefix g = "sk_" +:+ p ∧ gk_hash g = sha256_hex s ∧ match_token (gk_token g) = Some (p, s) ∧
  all_chars (λ c, negb (is_space c)) (gk_token g) = true.

Lemma generateApiKey_spec (w w1 : World X) g : generateApiKey w = (Ok g, w1) → w_db w1 = w_db w ∧ key_reads g.
Proof.
  unfold generateApiKey. intros (p & w2 & (Hd & Hp & Lp)%randomB32_spec & E)%bind_inv_ok.
  apply bind_inv_ok in E as (s & w3 & (Hd' & Hs & Ls)%randomB32_spec & [= <- <-]).
  split; [congruence|]. exists p, s. split; [done|]. split; [done|]. cbn [gk_token]. split.
  - apply match_token_of; [done|done| |]; by intros ->.
  - rewrite !all_chars_app. pose proof (all_chars_weaken _ _ p crockford_not_space Hp) as ->.
    by pose proof (all_chars_weaken _ _ s crockford_not_space Hs) as ->.
Qed.

Definition still_valid (k : PublicApiKey) (now : Z) : bool :=
  match truthy (pak_expiresAt k) with
  | Some e => match Date_parse legacy_date_parse e with Some t => now <=? t | None => true end
  | None => true
  end.

Lemma post_api_keys_spec cx (w w' : World X) k token :
  post_api_keys cx w = (Ok (mkResponse 201 (R_api_key_created k token)), w') →
  ∃ g row, token = gk_token g ∧ key_reads g ∧ k = public_key row ∧ ak_orgId row = org cx ∧ ak_deletedAt row = None ∧
    ak_prefix row = gk_prefix g ∧ ak_hash row = gk_hash g ∧ w_db w' = tset T_api_key (db_api_key (w_db w) ++ [row]) (w_db w).
Proof.
  unfold post_api_keys. intros (body & w1 & [= _ <-] & E)%bind_inv_ok.
  apply bind_inv_ok in E as (g & w2 & [Hd Hg]%generateApiKey_spec & E).
  apply bind_inv_ok in E as (name & w3 & [= _ <-] & E). apply bind_inv_ok in E as (ex & w4 & [= _ <-] & E).
  apply bind_inv_ok in E as (row & w5 & E1 & [= <- <- <-]).
  apply (insert_row_spec T_api_key) in E1 as (now & id & -> & ->). rewrite Hd. exists g. by eexists.
Qed.

(** The row of a live key is the only one with its prefix. *)
Lemma getByPrefix_live row (d : DB) :
  db_ok d → row ∈ db_api_key d → ak_deletedAt row = None →
  find_first (λ r, (ak_prefix r =?s ak_prefix row) && is_null (ak_deletedAt r)) (db_api_key d) = Some row.
Proof.
  intros Hd Hin Hl. apply find_first_unique; [done|by rewrite Hl, bool_decide_eq_true_2|].
  intros y Hy Hp. bool_hyps. destruct (ak_deletedAt y) eqn:Ey; [done|].
  apply (table_ok_ukey_unique T_api_key d y row [ak_prefix row] (Hd _) Hy Hin); simpl; rewrite ?Ey, ?Hl; congruence.
Qed.

Lemma verifyToken_live g row (w : World X) :
  db_ok (w_db w) → row ∈ db_api_key (w_db w) → ak_deletedAt row = None → key_reads g →
  ak_prefix row = gk_prefix g → ak_hash row = gk_hash g →
  ∃ w1, verifyToken (gk_token g) w =
    (Ok (if still_valid (public_key row) (clock (w_clock w)) then Some row else None), w1).
Proof.
  intros Hd Hin Hl (p & s & Ep & Eh & Em & _) Hp Hh. unfold verifyToken. rewrite Em.
  unfold ApiKeyRepo_getByPrefix. rewrite bind_read. rewrite <- Ep, <- Hp, getByPrefix_live by done. rewrite bind_eq.
  unfold still_valid. cbn [pak_expiresAt public_key]. rewrite Hh, Eh, bool_decide_eq_true_2 by done. cbn [negb].
  destruct (truthy (ak_expiresAt row)) as [e|]; [rewrite (bind_eq nowDate)|]; simpl; [|by eexists].
  destruct (Date_parse _ e) as [t|]; [|by eexists]. rewrite Z.leb_antisym. destruct (t <? _); by eexists.
Qed.

Lemma verifyToken_revoked g (w : World X) :
  key_reads g →
  (∀ r, r ∈ db_api_key (w_db w) → ak_prefix r = gk_prefix g → ak_deletedAt r ≠ None) →
  verifyToken (gk_token g) w = (Ok None, w).
Proof.
  intros (p & s & Ep & _ & Em & _) Hno. unfold verifyToken. rewrite Em. unfold ApiKeyRepo_getByPrefix.
  rewrite bind_read. destruct (find_first _ _) as [r|] eqn:E; [|done]. exfalso.
  apply find_first_Some in E as [Hin Hr]. bool_hyps. apply (Hno r Hin); [congruence|by destruct (ak_deletedAt r)].
Qed.

(** What a caller had to show. *)
Definition shows_key (req : Request) (w : World X) (id orgId : string) : Prop :=
  ∃ token p s row, bearer_token (rq_authorization req) = Some token ∧ match_token token = Some (p, s) ∧
    row ∈ db_api_key (w_db w) ∧ ak_id row = id ∧ ak_orgId row = orgId ∧ ak_deletedAt row = None ∧
    ak_prefix row = "sk_" +:+ p ∧ ak_hash row = sha256_hex s ∧
    still_valid (public_key row) (clock (w_clock w)) = true.

Lemma verifyToken_sound token row (w w1 : World X) :
  verifyToken token w = (Ok (Some row), w1) →
  ∃ p s, match_token token = Some (p, s) ∧ row ∈ db_api_key (w_db w) ∧ ak_deletedAt row = None ∧
    ak_prefix row = "sk_" +:+ p ∧ ak_hash row = sha256_hex s ∧
    still_valid (public_key row) (clock (w_clock w)) = true.
Proof.
  unfold verifyToken. destruct (match_token token) as [[p s]|] eqn:Em; [|done]. unfold ApiKeyRepo_getByPrefix.
  rewrite bind_read. destruct (find_first _ _) as [k|] eqn:Ek; [|done].
  apply find_first_Some in Ek as [Hin Hk]. bool_hyps. intros (expired & w2 & Ee & E)%bind_inv_ok.
  destruct expired; [done|]. destruct (negb _) eqn:Eh; [done|]. injection E as -> ->. bool_hyps.
  exists p, s. repeat split; try done; [by destruct (ak_deletedAt row)|]. unfold still_valid. cbn [pak_expiresAt public_key].
  destruct (truthy _) as [e|]; [|done]. rewrite (bind_eq nowDate) in Ee. simpl in Ee.
  destruct (Date_parse _ e) as [t|]; [|done]. injection Ee as Ee _. rewrite Z.leb_antisym. by rewrite Ee.
Qed.

(** C7: whoever is let in showed a secret with the stored hash under the prefix of
    a live key that has not expired, and acts for that key's organisation; or came
    without a bearer token over loopback with the bypass on, and acts for the
    default organisation. *)
Theorem authentication_sound dis req (w w1 : World X) a :
  makeAuthenticator dis req w = (Ok a, w1) →
  match au_apiKeyId a with
  | Some id => shows_key req w id (au_orgId a)
  | None => bearer_token (rq_authorization req) = None ∧ dis = false ∧ isLoopback (rq_remoteAddress req) = true ∧
    ∃ o, o ∈ db_org (w_db w1) ∧ org_name o = DEFAULT_ORG_NAME ∧ org_deletedAt o = None ∧ org_id o = au_orgId a
  end.
Proof.
  unfold makeAuthenticator. destruct (bearer_token _) as [token|] eqn:Eb.
  - intros (r & w2 & Ev & E)%bind_inv_ok. destruct r as [k|]; [|done]. injection E as <- <-. simpl.
    apply verifyToken_sound in Ev as (p & s & ? & ? & ? & ? & ? & ?). exists token, p, s, k. by repeat split.
  - destruct (negb dis && _) eqn:El; [|done]. apply andb_true_iff in El as [->%negb_true_iff Hl].
    intros (o & w2 & Eo & [= <- <-])%bind_inv_ok. simpl. repeat (split; [done|]). exists o.
    unfold ensureDefaultOrg, OrgRepo_getByName in Eo. rewrite bind_read in Eo.
    destruct (find_first _ _) as [x|] eqn:Ex.
    + injection Eo as -> ->. apply find_first_Some in Ex as [? Hx]. bool_hyps. by destruct (org_deletedAt o).
    + apply (insert_row_spec T_org) in Eo as (now & id & -> & ->). simpl. split; [|done].
      apply elem_of_app. right. by left.
Qed.

(** A successful revocation leaves no live key with the id. *)
Lemma delete_api_key_spec cx (w w' : World X) r :
  delete_api_key cx w = (Ok r, w') → ∀ k, k ∈ db_api_key (w_db w') → ak_deletedAt k = None →
  k ∈ db_api_key (w_db w) ∧ ak_id k ≠ param cx "id".
Proof.
  unfold delete_api_key, ApiKeyRepo_get. rewrite bind_read.
  intros (key & w1 & Hk & E)%bind_inv_ok. assert (w1 = w) as ->.
  { unfold in_org in Hk. destruct (find_first _ _); [|by inversion Hk]. destruct (_ =?s _); by inversion Hk. }
  apply in_org_inv in Hk as [Hf _]. apply find_first_Some in Hf as [_ Hid]. bool_hyps.
  apply bind_inv_ok in E as (u & w2 & E & [= <- <-]). unfold ApiKeyRepo_softDelete in E. rewrite bind_nowIso in E.
  apply bind_inv_ok in E as (n & w3 & Eu & E). assert (w3 = w2) as -> by (by destruct (_ =? 0)%nat; inversion E).
  unfold db_update_raw in Eu. destruct (sql_update _ _ _ _) as [m|[d' n']] eqn:Es; [done|].
  injection Eu as <- <-. apply sql_update_inv in Es as [-> _].
  intros k [(y & Hy & Hp & ->)|[Hin Hp]]%update_where_elem Hl; [done|]. split; [done|].
  intros Hid'. rewrite Hl, bool_decide_eq_true_2 in Hp by congruence. done.
Qed.

(** C8: the token handed out for a new key opens the organisation that asked for
    it, as that key, until the key's expiry, or for ever when it has none or when
    the text given for it is not a date; once the key is revoked, the token is
    refused. *)
Theorem api_key_roundtrip dis cx (w w' : World X) k token :
  db_ok (w_db w) → post_api_keys cx w = (Ok (mkResponse 201 (R_api_key_created k token)), w') →
  ∀ req, rq_authorization req = Some ("Bearer " +:+ token) →
  (∀ w2, w_db w2 = w_db w' → ∃ w3, makeAuthenticator dis req w2 =
     (if still_valid k (clock (w_clock w2)) then Ok (mkAuthContext (org cx) (Some (pak_id k)))
      else Throw (unauthorized "invalid bearer token"), w3)) ∧
  (∀ cx' w2 w3 r, w_db w2 = w_db w' → param cx' "id" = pak_id k → delete_api_key cx' w2 = (Ok r, w3) →
     makeAuthenticator dis req w3 = (Throw (unauthorized "invalid bearer token"), w3)).
Proof.
  intros Hd E req Hreq. assert (Hok : on_db db_ok w').
  { pose proof (write_handlers_ok post_api_keys cx ltac:(unfold write_handlers; repeat constructor) w Hd) as Hp.
    by rewrite E in Hp. }
  apply post_api_keys_spec in E as (g & row & -> & Hg & -> & Ho & Hl & Hp & Hh & Hw).
  assert (Hin : row ∈ db_api_key (w_db w')) by (rewrite Hw; simpl; apply elem_of_app; right; left).
  assert (Hb : bearer_token (rq_authorization req) = Some (gk_token g)).
  { rewrite Hreq. apply bearer_token_of. by destruct Hg as (? & ? & _ & _ & _ & ?). }
  unfold makeAuthenticator. rewrite Hb. split.
  - intros w2 E2. rewrite bind_eq. destruct (verifyToken_live g row w2) as [w3 ->]; rewrite ?E2; try done.
    exists w3. destruct (still_valid _ _); [|done]. by rewrite Ho.
  - intros cx' w2 w3 r E2 Hid Edel. rewrite bind_eq, verifyToken_revoked; [done|done|].
    intros x Hx Ex Hlx. destruct (delete_api_key_spec _ _ _ _ Edel x Hx Hlx) as [Hx' Hne]. apply Hne. rewrite Hid.
    cbn [public_key pak_id]. f_equal. rewrite E2 in Hx'.
    apply (table_ok_ukey_unique T_api_key (w_db w') x row [ak_prefix row] (Hok _) Hx' Hin);
      simpl; rewrite ?Hlx, ?Hl; congruence.
Qed.
End keys.

(** ** Witnesses *)

Fixpoint repeat_char (n : nat) : string := match n with O => "" | S n' => String "A" (repeat_char n') end.

Lemma repeat_char_length n : String.length (repeat_char n) = n.
Proof. induction n; simpl; congruence. Qed.

#[local] Instance fixture_http_host : HttpHost Trace := {
  VERSION := "0.4.0";
  randomBytes := λ n x, (repeat_char n, x ++ ["RANDOM"]);
  blobs_put_stream := λ o u x, (Ok ("blob://" +:+ o, "", 0), x ++ ["PUT"]);
  blobs_resolveBySha := λ o sha, "blob://" +:+ o +:+ "/" +:+ sha;
  blobs_open := λ uri x, (Throw (EBlobNotFound uri), x);
  asserted_summary := λ _, mkDeploymentHealthSummary 0 0 0 0 None
}.

Lemma fixture_random n (x : Trace) : String.length (randomBytes n x).1 = n.
Proof. apply repeat_char_length. Qed.

Definition hx_request (method path : string) (token remote : option string) : Request :=
  mkRequest (Some method) path [] token None None [] remote.

(** A local caller revokes one of its targets. *)
Definition hx_delete : Request := hx_request "DELETE" "/v1/targets/s3" None (Some "127.0.0.1").

Lemma tenant_isolation_witness :
  (app false hx_delete dx_world).1 = Ok (mkResponse 204 R_null) ∧
  ∃ resp w', app false hx_delete dx_world = (Ok resp, w') ∧ db_ok (w_db w') ∧
  match makeAuthenticator false hx_delete dx_world with
  | (Ok a, _) => isolated (au_orgId a) (w_db dx_world) (w_db w')
  | (Throw _, _) => w_db w' = w_db dx_world
  end.
Proof. split; [by vm_compute|]. apply (tenant_isolation false hx_delete dx_world). apply dx_db_ok. Defined.

(** The same from outside, without a key. *)
Definition hx_outside : Request := hx_request "DELETE" "/v1/targets/s3" None (Some "10.0.0.7").

Lemma unauthenticated_refused_witness :
  ∃ resp w', app false hx_outside dx_world = (Ok resp, w') ∧ w_db w' = w_db dx_world ∧
  w_ext w' = w_ext dx_world ∧ 400 ≤ rs_status resp ∧
  (∀ r caps params body, find_route (rq_method hx_outside ?? "GET") (rq_path hx_outside) (routes (X:=Trace)) = Some (r, caps) →
     ro_streamBody r = None → decode_params caps = Ok params → readBody hx_outside = Ok body →
     resp = mapError (unauthorized UNAUTHORIZED_MESSAGE)).
Proof.
  apply (unauthenticated_refused false hx_outside dx_world dx_world (unauthorized UNAUTHORIZED_MESSAGE)); by vm_compute.
Defined.

Definition hx_cx : RequestContext :=
  mkRequestContext [] [] (Some (JObj [("name", JStr "ci")])) None (mkAuthContext "o1" None).

Definition hx_key : PublicApiKey * string :=
  match (post_api_keys hx_cx dx_world).1 with
  | Ok (mkResponse _ (R_api_key_created k token)) => (k, token)
  | _ => (mkPublicApiKey "" "" "" "" None "" "", "")
  end.

Lemma api_key_roundtrip_witness :
  let req := hx_request "GET" "/v1/targets" (Some ("Bearer " +:+ hx_key.2)) (Some "10.0.0.7") in
  let w' := (post_api_keys hx_cx dx_world).2 in
  (∀ w2, w_db w2 = w_db w' → ∃ w3, makeAuthenticator false req w2 =
     (if still_valid hx_key.1 (clock (w_clock w2)) then Ok (mkAuthContext "o1" (Some (pak_id hx_key.1)))
      else Throw (unauthorized "invalid bearer token"), w3)) ∧
  (∀ cx' w2 w3 r, w_db w2 = w_db w' → param cx' "id" = pak_id hx_key.1 → delete_api_key cx' w2 = (Ok r, w3) →
     makeAuthenticator false req w3 = (Throw (unauthorized "invalid bearer token"), w3)).
Proof.
  intros req w'.
  apply (api_key_roundtrip fixture_random false hx_cx dx_world w' hx_key.1 hx_key.2);
    [apply dx_db_ok|by vm_compute|done].
Defined.

Lemma authentication_sound_witness :
  let req := hx_request "GET" "/v1/targets" (Some ("Bearer " +:+ hx_key.2)) (Some "10.0.0.7") in
  shows_key req (post_api_keys hx_cx dx_world).2 (pak_id hx_key.1) "o1".
Proof.
  intros req.
  apply (authentication_sound true req (post_api_keys hx_cx dx_world).2 (post_api_keys hx_cx dx_world).2
    (mkAuthContext "o1" (Some (pak_id hx_key.1)))). by vm_compute.
Defined.
