(* ===== verification/WorkerSpec.v ===== *)
(** What the runner promises against the real server: no two workers ever hold
    the same job, however their requests interleave, and a turn takes the job at
    the head of its organisation's queue to its end. *)

From stdpp Require Import relations.
From S2P Require Import Prelude JsTime JsVal JsonReader Types World Logic StorageCatalog StorageDeploy StorageOps.
From S2P Require Import Signing BuildYaml Build Probes Deploy CloudTypes Budget Cloud K8s Events Promotion ReleaseDeploy.
From S2P Require Import Http HttpApp Worker StorageSpec BuildYamlSpec SigningSpec HttpSpec Fixture DeployFixture.

(** ** Requests to the server *)

Section requests.
Context {X : Type} `{Oracle} `{JsEngine} {C : Crypto X} {HH : HttpHost X}.

(** Whatever the authenticator and the handler it may run preserve, the server
    preserves. *)
Lemma app_keeps I dis req :
  preserves (X:=X) (on_db I) (makeAuthenticator dis req) →
  (∀ r caps params body up a, find_route (rq_method req ?? "GET") (rq_path req) (routes (X:=X)) = Some (r, caps) →
     (ro_streamBody r = None → readBody req = Ok body) →
     preserves (on_db I) (ro_handler r (mkRequestContext params (rq_query req) body up a))) →
  preserves (on_db I) (app dis req).
Proof.
  intros Ha Hh. unfold app, listener. apply preserves_try; [|by intros ? ? ?]. unfold handle.
  destruct (find_route _ _ _) as [[r caps]|] eqn:Er; [|by intros ? ?].
  assert (Hz : preserves (on_db I) (authorize (makeAuthenticator dis) PUBLIC_PATHS req)).
  { unfold authorize. destruct (existsb _ _); [by intros ? ?|done]. }
  unfold run_route. apply preserves_bind; [apply lift_keeps|intros params].
  destruct (ro_streamBody r) eqn:Es.
  - cbv zeta. destruct (capStreamBody req z); simpl;
      repeat first [ apply Hz | apply (Hh r caps); [done|congruence] | apply preserves_bind; [|intros ?]
        | apply preserves_try; [|intros ?] | by intros ? ? ].
  - destruct (readBody req) as [body|e] eqn:Eb; [|by intros ? ?]. intros w Hw. rewrite bind_eq. cbn [lift].
    revert w Hw. apply preserves_bind; [done|]. intros a. by apply (Hh r caps).
Qed.
End requests.

(** ** Jobs that are no longer pending *)

Definition settled (id : string) (d : DB) : Prop :=
  ∃ r, r ∈ db_job d ∧ job_id r = id ∧ job_status r ≠ JS_pending.

Lemma settled_indep T id : T ≠ T_job → indep T (settled id).
Proof.
  intros HT l d (r & Hr & Hid). exists r. split; [|done]. change (db_job ?x) with (tget T_job x) in *.
  by rewrite tget_tset_ne.
Qed.

Lemma settled_update_where id d p f :
  settled id d → (∀ r, job_status r ≠ JS_pending → p r = true → job_id (f r) = job_id r ∧ job_status (f r) ≠ JS_pending) →
  settled id (tset T_job (update_where p f (db_job d)) d).
Proof.
  intros (r & Hr & Hid & Hs) Hf. destruct (p r) eqn:Ep.
  - destruct (Hf r Hs Ep) as [Ei Es]. exists (f r). split; [|by rewrite Ei].
    apply update_where_elem. left. by exists r.
  - exists r. split; [|done]. apply update_where_elem. by right.
Qed.

#[local] Hint Extern 3 (preserves (on_db (settled _)) (db_insert _ _)) =>
  apply preserves_insert_indep, settled_indep; discriminate : preserve.
#[local] Hint Extern 3 (preserves (on_db (settled _)) (db_update _ _ _)) =>
  apply preserves_update_indep, settled_indep; discriminate : preserve.
#[local] Hint Extern 3 (preserves (on_db (settled _)) (db_update_raw _ _ _)) =>
  apply preserves_update_raw_indep, settled_indep; discriminate : preserve.

Section settled.
Context {X : Type} `{Oracle} `{JsEngine} {C : Crypto X} {HH : HttpHost X} (id : string).

Lemma settled_update_raw p f :
  (∀ r, job_status r ≠ JS_pending → p r = true → job_id (f r) = job_id r ∧ job_status (f r) ≠ JS_pending) →
  preserves (X:=X) (on_db (settled id)) (db_update_raw T_job p f).
Proof.
  intros Hf w Hw. unfold db_update_raw. destruct (sql_update T_job p f (w_db w)) as [m|[d n]] eqn:E; [done|].
  apply sql_update_inv in E as [-> _]. by apply settled_update_where.
Qed.

Lemma settled_insert row : preserves (X:=X) (on_db (settled id)) (db_insert T_job row).
Proof.
  intros w Hw. destruct (db_insert T_job row w) as [[[]|e] w1] eqn:E.
  - apply db_insert_inv in E as [-> _]. destruct Hw as (r & Hr & Hid). exists r. split; [|done].
    simpl. apply elem_of_app. by left.
  - by apply db_insert_throw in E as [-> _].
Qed.

Lemma claimNext_settled o by_ : preserves (X:=X) (on_db (settled id)) (JobRepo_claimNext o by_).
Proof.
  unfold JobRepo_claimNext. apply preserves_runInTransaction. preserve. apply settled_update_raw.
  intros r Hs Hp. bool_hyps. done.
Qed.

Lemma job_update_settled i st res err sa ca :
  st ≠ JS_pending → preserves (X:=X) (on_db (settled id)) (JobRepo_update i (mkJobPatch (Some st) res err sa ca)).
Proof. intros Hst. unfold JobRepo_update, JobRepo_get. preserve; [apply settled_update_raw; by intros r _ _|apply preserves_mapSqliteError]. Qed.

Lemma org_settled dis req : preserves (X:=X) (on_db (settled id)) (makeAuthenticator dis req).
Proof.
  unfold makeAuthenticator, verifyToken, ensureDefaultOrg, ApiKeyRepo_getByPrefix, OrgRepo_getByName, OrgRepo_create.
  preserve.
Qed.

Lemma jobInOrg_settled cx : preserves (X:=X) (on_db (settled id)) (jobInOrg cx).
Proof. apply jobInOrg_keeps. Qed.

Lemma claim_settled cx : preserves (X:=X) (on_db (settled id)) (post_jobs_claim cx).
Proof.
  unfold post_jobs_claim. apply preserves_bind; [apply optional_body_keeps|intros ?].
  apply preserves_bind; [apply lift_keeps|intros ?]. apply preserves_bind; [apply claimNext_settled|intros ?]. by intros ? ?.
Qed.

Ltac job_parts := repeat first
  [ apply lift_keeps | apply jobInOrg_keeps | apply optional_body_keeps | apply job_update_settled; discriminate
  | apply settled_insert | apply validateGitRef_keeps | apply preserves_bind; [|intros ?]
  | match goal with |- preserves _ (match ?x with _ => _ end) => destruct x end
  | solve [unfold preserves; intros; assumption] | solve [preserve] ].

Lemma complete_settled cx : preserves (X:=X) (on_db (settled id)) (post_job_complete cx).
Proof. unfold post_job_complete. job_parts. Qed.
Lemma fail_settled cx : preserves (X:=X) (on_db (settled id)) (post_job_fail cx).
Proof. unfold post_job_fail. job_parts. Qed.
Lemma submit_settled cx : preserves (X:=X) (on_db (settled id)) (post_jobs cx).
Proof. unfold post_jobs, JobRepo_create. job_parts. Qed.

Lemma running_settled cx now :
  cx_body cx = Some (running_body now) → preserves (X:=X) (on_db (settled id)) (patch_job cx).
Proof.
  intros Hb. unfold patch_job. rewrite Hb. unfold running_body. apply preserves_bind; [apply jobInOrg_keeps|intros j].
  intros w Hw. rewrite bind_eq. cbn [lift asObject]. rewrite bind_eq. cbn -[JobRepo_update]. revert w Hw. job_parts.
Qed.

Lemma heartbeat_settled cx : preserves (X:=X) (on_db (settled id)) (post_runner_heartbeat cx).
Proof.
  pose proof (@lift_keeps X) as Hl. unfold post_runner_heartbeat, RunnerRepo_heartbeat. preserve; apply Hl.
Qed.
End settled.

(** ** The routes of a worker's requests *)

Section routing.
Context {X : Type} `{Oracle} `{JsEngine} {C : Crypto X} {HH : HttpHost X}.

Lemma find_route_method m p (l : list (Route (X:=X))) r caps : find_route m p l = Some (r, caps) → ro_method r = m.
Proof.
  induction l as [|x l IH]; [done|]. simpl. destruct (ro_method x =?s m) eqn:E; simpl; [|done]. bool_hyps.
  destruct (match_path (compile_path (ro_path x)) p); [|done]. intros E1. by injection E1 as <- _.
Qed.

Ltac each_route Hr tac :=
  unfold routes in Hr; repeat (apply elem_of_cons in Hr as [->|Hr]; [tac|]); by apply elem_of_nil in Hr.

Lemma job_post_routes s r caps :
  find_route "POST" ("/v1/jobs/" +:+ s) (routes (X:=X)) = Some (r, caps) →
  ro_streamBody r = None ∧
  (ro_handler r = post_jobs_claim ∨ ro_handler r = post_job_complete ∨ ro_handler r = post_job_fail).
Proof.
  intros E. pose proof (find_route_method _ _ _ _ _ E) as Em. apply find_route_spec in E as [Hr Hm].
  each_route Hr ltac:(cbn [ro_method ro_path] in *; first [discriminate Em | discriminate Hm | cbn; auto]).
Qed.

Lemma job_patch_route s r caps :
  find_route "PATCH" ("/v1/jobs/" +:+ s) (routes (X:=X)) = Some (r, caps) →
  ro_streamBody r = None ∧ ro_handler r = patch_job.
Proof.
  intros E. pose proof (find_route_method _ _ _ _ _ E) as Em. apply find_route_spec in E as [Hr Hm].
  each_route Hr ltac:(cbn [ro_method ro_path] in *; first [discriminate Em | discriminate Hm | cbn; auto]).
Qed.
End routing.

(** ** Clients of the server *)

Lemma span_prefix p a s : all_chars p a = true → (span p (a +:+ s)).1 = a +:+ (span p s).1.
Proof.
  induction a as [|x a IH]; [done|]. cbn [all_chars]. intros [Hx Ha]%andb_true_iff. rewrite !str_app_cons. cbn [span].
  rewrite Hx, <- IH by done. by destruct (span p (a +:+ s)).
Qed.

Section clients.
Context {X : Type} `{Oracle} `{JsEngine} {C : Crypto X} {HH : HttpHost X}.
Context (origin : string) (dis : bool) (remote : option string).
#[local] Instance net : Network X := server_network origin dis remote.

Definition sent (c : HttpClient) (method path : string) (body : option json) : Request :=
  served_request origin remote (hc_baseUrl c +:+ path) method (bearer c) (option_map (λ _, "application/json") body)
    (option_map json_stringify body).

Lemma fetch_server c method path body :
  fetch (X:=X) (hc_baseUrl c +:+ path) method (bearer c) (option_map (λ _, "application/json") body)
    (option_map json_stringify body) =
  (resp ← app dis (sent c method path body); mret (mkFetchResponse (rs_status resp) (response_body (rs_reply resp)))).
Proof. reflexivity. Qed.

Lemma client_request_keeps I c method path body :
  preserves (on_db I) (app (X:=X) dis (sent c method path body)) → preserves (on_db I) (client_request c method path body).
Proof.
  intros Ha. unfold client_request. apply preserves_bind.
  - rewrite fetch_server. apply preserves_bind; [exact Ha|]. intros resp. by intros ? ?.
  - intros res w Hw. destruct (_ =? 204); [done|]. destruct (fr_body res); try destruct (res_ok _); done.
Qed.

Lemma auth_jobs req (w : World X) :
  on_db (unchanged T_job (db_job (w_db w))) (makeAuthenticator dis req w).2.
Proof.
  assert (Hp : preserves (X:=X) (on_db (unchanged T_job (db_job (w_db w)))) (makeAuthenticator dis req)); [|by apply Hp].
  unfold makeAuthenticator, verifyToken, ensureDefaultOrg, ApiKeyRepo_getByPrefix, OrgRepo_getByName, OrgRepo_create.
  preserve.
Qed.

Context (c : HttpClient) (Hc : hc_baseUrl c = origin).

Lemma sent_method method path body : rq_method (sent c method path body) = Some method.
Proof. unfold sent, served_request. by destruct (span _ _). Qed.

Lemma sent_path method path body :
  rq_path (sent c method path body) = (span (λ x, negb (is_char "?" x)) path).1.
Proof. unfold sent, served_request. rewrite Hc, str_drop_app. by destruct (span _ _). Qed.

Lemma sent_body method path body :
  rq_chunks (sent c method path body) = (match body with Some b => [json_stringify b] | None => [] end) ∧
  rq_contentType (sent c method path body) = option_map (λ _, "application/json") body.
Proof. unfold sent, served_request. destruct (span _ _). by destruct body. Qed.

Lemma jobs_path s : (span (λ x, negb (is_char "?" x)) ("/v1/jobs/" +:+ s)).1 = "/v1/jobs/" +:+ (span (λ x, negb (is_char "?" x)) s).1.
Proof. by apply span_prefix. Qed.

(** A body that is read is the value that was sent. *)
Lemma sent_read method path v body :
  JSON_parse (json_stringify v) = Some v → readBody (sent c method path (Some v)) = Ok body → body = Some v.
Proof.
  intros Hp. unfold readBody. destruct (sent_body method path (Some v)) as [-> ->]. cbn [option_map str_concat fold_right].
  rewrite str_app_nil_r. destruct (_ <? _)%nat; [done|]. 
  change (str_includes (lower (Some "application/json" ?? "")) "application/json") with true. cbn [negb].
  rewrite Hp. by intros [= <-].
Qed.

Lemma post_job_settled id s body :
  preserves (X:=X) (on_db (settled id)) (client_request c "POST" ("/v1/jobs/" +:+ s) body).
Proof.
  apply client_request_keeps, app_keeps; [apply org_settled|]. intros r caps params b up a E _.
  rewrite sent_method, sent_path, jobs_path in E. apply job_post_routes in E as [_ [->|[->| ->]]];
    [apply claim_settled|apply complete_settled|apply fail_settled].
Qed.

Lemma patch_job_settled id s now :
  JSON_parse (json_stringify (running_body now)) = Some (running_body now) →
  preserves (X:=X) (on_db (settled id)) (client_request c "PATCH" ("/v1/jobs/" +:+ s) (Some (running_body now))).
Proof.
  intros Hp. apply client_request_keeps, app_keeps; [apply org_settled|]. intros r caps params b up a E Hb.
  rewrite sent_method, sent_path, jobs_path in E. apply job_patch_route in E as [Hs ->].
  apply (running_settled _ _ now). simpl. by eapply sent_read, Hb.
Qed.

(** The answer to a request of a JSON route: an error, with the jobs as they were,
    or what its handler said. *)
Lemma app_json_inv req r caps (w w' : World X) resp :
  app dis req w = (Ok resp, w') → existsb (λ p, p =?s rq_path req) PUBLIC_PATHS = false →
  find_route (rq_method req ?? "GET") (rq_path req) routes = Some (r, caps) → ro_streamBody r = None →
  (∃ e, resp = mapError e) ∨
  ∃ params body a w1, decode_params caps = Ok params ∧ readBody req = Ok body ∧
    makeAuthenticator dis req w = (Ok a, w1) ∧
    ro_handler r (mkRequestContext params (rq_query req) body None a) w1 = (Ok resp, w').
Proof.
  unfold app, listener, handle. intros E Hp Er Hs. rewrite Er in E. unfold run_route, authorize, try_catch in E.
  rewrite Hs, Hp, bind_eq in E. cbn [lift] in E. destruct (decode_params caps) as [params|e]; [|injection E as <- _; eauto].
  rewrite bind_eq in E. cbn [lift] in E. destruct (readBody req) as [body|e]; [|injection E as <- _; eauto].
  rewrite bind_eq in E. destruct (makeAuthenticator dis req w) as [[a|e] w1]; [|injection E as <- _; eauto].
  destruct (ro_handler r _ w1) as [[resp'|e] w2] eqn:Eh; injection E as <- <-; [|eauto].
  right. exists params, body, a, w1. by rewrite Eh.
Qed.

Lemma client_request_inv method path body (w w' : World X) rep :
  client_request c method path body w = (Ok rep, w') →
  ∃ resp, app dis (sent c method path body) w = (Ok resp, w') ∧ (rep = None ∨ rep = Some (rs_reply resp)).
Proof.
  unfold client_request. rewrite fetch_server. intros (res & w2 & Ef & E)%bind_inv_ok. apply bind_inv_ok in Ef as (resp & w3 & Ea & Ef). injection Ef as <- <-.
  exists resp. cbn [fr_status fr_body] in E. destruct (_ =? 204); [injection E as <- <-; by eauto|].
  unfold response_body in E.
  destruct (rs_reply resp); cbv beta iota in E;
    first [discriminate E | destruct (res_ok _); [|discriminate E]; injection E as <- <-; by eauto].
Qed.

Lemma claim_route : ∃ r, find_route "POST" "/v1/jobs/claim" (routes (X:=X)) = Some (r, []) ∧
  ro_handler r = post_jobs_claim ∧ ro_streamBody r = None.
Proof. eexists. by repeat split. Qed.

Lemma error_has_no_job e : reply_job (rs_reply (mapError e)) = None.
Proof. by destruct e. Qed.

Lemma claim_path name : rq_path (sent c "POST" "/v1/jobs/claim" (Some (claim_body name))) = "/v1/jobs/claim".
Proof. by rewrite sent_path. Qed.

Lemma claim_answer name (w w' : World X) resp :
  app dis (sent c "POST" "/v1/jobs/claim" (Some (claim_body name))) w = (Ok resp, w') →
  (∃ e, resp = mapError e) ∨
  ∃ by_ a w1, makeAuthenticator dis (sent c "POST" "/v1/jobs/claim" (Some (claim_body name))) w = (Ok a, w1) ∧
    ∃ job, JobRepo_claimNext (au_orgId a) by_ w1 = (Ok job, w') ∧ resp = mkResponse 200 (R_claimed job).
Proof.
  intros Ea. destruct claim_route as (r & Hr & Hh & Hs).
  eapply app_json_inv in Ea as [He|(params & body & a & w1 & _ & _ & Eauth & Eh)]; [by left|right| | |exact Hs].
  - rewrite Hh in Eh. unfold post_jobs_claim in Eh. apply bind_inv_ok in Eh as (b & w5 & Eb & Eh).
    assert (w5 = w1) as -> by (unfold optional_body in Eb; simpl in Eb; destruct body; by inversion Eb).
    apply bind_inv_ok in Eh as (by_ & w5 & [= _ <-] & Eh). apply bind_inv_ok in Eh as (job & w5 & Ec & [= <- <-]).
    exists (by_ ?? "anonymous"), a, w1. split; [done|]. by exists job.
  - by rewrite claim_path.
  - rewrite sent_method, claim_path. exact Hr.
Qed.

(** A job that a claim hands out was pending. *)
Lemma claimJob_pending name (w w' : World X) j :
  db_ok (w_db w) → claimJob c name w = (Ok (Some j), w') →
  (∃ r, r ∈ db_job (w_db w) ∧ job_id r = job_id j ∧ job_status r = JS_pending) ∧ settled (job_id j) (w_db w').
Proof.
  intros Hd. unfold claimJob. intros (rep & w1 & E & Er)%bind_inv_ok. injection Er as Er <-.
  apply client_request_inv in E as (resp & Ea & Hrep).
  assert (Ej : reply_job (rs_reply resp) = Some j).
  { destruct Hrep as [->| ->]; [discriminate Er|]. destruct (rs_reply resp); simpl in *; congruence. }
  destruct (claim_answer name w w1 resp Ea) as [[e ->]|(b & a & w4 & Eauth & Eh)]; [by rewrite error_has_no_job in Ej|].
  pose proof (makeAuthenticator_spec dis (sent c "POST" "/v1/jobs/claim" (Some (claim_body name))) w Hd) as Hspec.
  pose proof (auth_jobs (sent c "POST" "/v1/jobs/claim" (Some (claim_body name))) w) as Hjobs.
  rewrite Eauth in Hspec, Hjobs. destruct Hspec as [Hok _]. unfold on_db, unchanged in Hjobs. cbn [snd] in Hjobs.
  destruct Eh as (job & Ec & ->). cbn [rs_reply reply_job] in Ej. subst job.
  destruct (job_queue (au_orgId a) (w_db w4)) as [|p rest] eqn:Eq; [by rewrite JobRepo_claimNext_empty in Ec|].
  rewrite (JobRepo_claimNext_run _ _ _ p rest Hok Eq) in Ec. injection Ec as <- <-.
  assert (Hp : p ∈ job_queue (au_orgId a) (w_db w4)) by (rewrite Eq; left).
  apply job_queue_elem in Hp as [Hp Hcl]. unfold job_claimable in Hcl. bool_hyps. split.
  - exists p. by rewrite <- Hjobs.
  - eexists. split; [|split; [reflexivity|]].
    + simpl. apply update_where_elem. left. exists p. split; [done|]. split; [|reflexivity].
      by rewrite !bool_decide_eq_true_2.
    + done.
Qed.
End clients.

(** ** Workers, interleaved *)

Record WorkerConfig (X : Type) := mkWorkerConfig {
  wc_client : HttpClient;
  wc_name : string;
  wc_poll : jsnum;
  wc_handlers : list (string * JobHandler (X:=X))
}.
Arguments wc_client {X}.
Arguments wc_name {X}.
Arguments wc_poll {X}.
Arguments wc_handlers {X}.

Definition held (p : Phase) : option Job :=
  match p with
  | P_idle => None
  | P_claimed j | P_running j | P_reporting j _ | P_failing j _ => Some j
  end.

Section system.
Context {X : Type} `{Oracle} `{JsEngine} {C : Crypto X} {HH : HttpHost X} {WH : WorkerHost X}.
Context (origin : string) (dis : bool) (remote : option string).
#[local] Existing Instance net.
#[local] Instance system_net : Network X := net origin dis remote.
Context (cfg : nat → WorkerConfig X).

(** What is asked of a handler: it keeps the store well-formed and sends no job
    back to the queue. *)
Definition well_behaved (m : M X (option json)) : Prop :=
  preserves (on_db db_ok) m ∧ ∀ id, preserves (on_db (settled id)) m.

Hypothesis base_url : ∀ i, hc_baseUrl (wc_client (cfg i)) = origin.
Hypothesis body_reads : ∀ n, let body := running_body (toISOString (clock n)) in
  JSON_parse (json_stringify body) = Some body.
Hypothesis handlers_ok : ∀ i kv, kv ∈ wc_handlers (cfg i) → ∀ job, well_behaved (kv.2 job).

Definition step_worker (i : nat) (p : Phase) : M X Phase :=
  advance (wc_client (cfg i)) (wc_name (cfg i)) (wc_poll (cfg i)) (wc_handlers (cfg i)) p.

(** The state of the system: the server's world and where each worker is. *)
Definition Sys : Type := World X * (nat → Phase).

Inductive sys_step : Sys → Sys → Prop :=
| ss_worker i w f p w' :
  step_worker i (f i) w = (Ok p, w') → sys_step (w, f) (w', λ k, if decide (k = i) then p else f k)
| ss_heartbeat i meta w f r w' :
  heartbeat_turn (wc_client (cfg i)) (wc_name (cfg i)) meta w = (r, w') → sys_step (w, f) (w', f)
| ss_submit i kind input w f r w' :
  submitJob (wc_client (cfg i)) kind input w = (r, w') → sys_step (w, f) (w', f).

Lemma find_handler_ok i kind h job : find_handler (wc_handlers (cfg i)) kind = Some h → well_behaved (h job).
Proof.
  unfold find_handler. destruct (find_first _ _) as [kv|] eqn:E.
  - intros [= <-]. apply find_first_Some in E as [Hin _]. by apply (handlers_ok i).
  - destruct (negb _); [done|]. destruct (_ =?s _); [intros [= <-]; split; by intros ? ?|].
    destruct (_ =?s _); intros [= <-]; split; by intros ? ?.
Qed.

Lemma client_ok c method path body : preserves (X:=X) (on_db db_ok) (client_request c method path body).
Proof. apply client_request_keeps, app_ok. Qed.

Lemma pause_keeps I ms : preserves (X:=X) (on_db I) (pause ms).
Proof. by intros w Hw. Qed.

(** An invariant that requests, handlers and the marking of a job keep. *)
Lemma step_keeps I i p :
  (∀ s body, preserves (on_db I) (client_request (X:=X) (wc_client (cfg i)) "POST" ("/v1/jobs/" +:+ s) body)) →
  (∀ s n, preserves (on_db I) (client_request (X:=X) (wc_client (cfg i)) "PATCH" ("/v1/jobs/" +:+ s)
            (Some (running_body (toISOString (clock n)))))) →
  (∀ kind h job, find_handler (wc_handlers (cfg i)) kind = Some h → preserves (on_db I) (h job)) →
  preserves (on_db I) (step_worker i p).
Proof.
  intros Hpost Hpatch Hh. unfold step_worker.
  assert (Hclaim : preserves (on_db I) (claimJob (wc_client (cfg i)) (wc_name (cfg i)))).
  { apply preserves_bind; [apply (Hpost "claim")|intros ?; apply lift_keeps]. }
  assert (Hmark : ∀ s, preserves (on_db I) (setJobRunning (wc_client (cfg i)) s)).
  { intros s w Hw. unfold setJobRunning. rewrite bind_nowIso.
    apply preserves_bind; [apply Hpatch|intros ?; apply lift_keeps|done]. }
  assert (Hcomplete : ∀ s r, preserves (on_db I) (completeJob (wc_client (cfg i)) s r)).
  { intros s r. apply preserves_bind; [apply Hpost|intros ?; apply lift_keeps]. }
  assert (Hfail : ∀ s m, preserves (on_db I) (failJob (wc_client (cfg i)) s m)).
  { intros s m. apply preserves_bind; [apply Hpost|intros ?; apply lift_keeps]. }
  assert (Hret : ∀ A (x : A), preserves (X:=X) (on_db I) (mret x)) by (by intros ? ? ? ?).
  destruct p as [|j|j|j res|j m]; cbn [advance].
  - apply preserves_bind; [apply preserves_try; [by apply preserves_bind|by intros ?]|].
    intros [[j|]|]; [apply Hret| |]; (apply preserves_bind; [apply pause_keeps|by intros ?]).
  - apply preserves_bind; [apply preserves_try; [by apply preserves_bind|by intros ?]|by intros ?].
  - destruct (find_handler _ _) as [h|] eqn:E; [|apply Hret].
    apply preserves_try; [|by intros ?]. apply preserves_bind; [by eapply Hh|by intros ?].
  - apply preserves_try; [|by intros ?]. by apply preserves_bind.
  - apply preserves_bind; [|by intros ?]. apply preserves_try; [|by intros ?]. by apply preserves_bind.
Qed.

Lemma step_ok i p : preserves (on_db db_ok) (step_worker i p).
Proof.
  apply step_keeps; [intros; apply client_ok|intros; apply client_ok|].
  intros kind h job Hf. by destruct (find_handler_ok i kind h job Hf).
Qed.

Lemma step_settled id i p : preserves (on_db (settled id)) (step_worker i p).
Proof.
  apply step_keeps; [intros; by apply post_job_settled|intros; by apply patch_job_settled|].
  intros kind h job Hf. by destruct (find_handler_ok i kind h job Hf).
Qed.

(** A step never throws, and a job that a worker comes to hold was pending. *)
Lemma step_held i p (w : World X) :
  db_ok (w_db w) →
  ∃ p' w', step_worker i p w = (Ok p', w') ∧
    ∀ j, held p' = Some j → held p = Some j ∨
      ((∃ r, r ∈ db_job (w_db w) ∧ job_id r = job_id j ∧ job_status r = JS_pending) ∧ settled (job_id j) (w_db w')).
Proof.
  intros Hd. unfold step_worker. destruct p as [|j|j|j res|j m]; cbn [advance held].
  - rewrite bind_eq. unfold try_catch. rewrite bind_eq.
    destruct (claimJob _ _ w) as [[[j|]|e] w1] eqn:E; simpl; do 2 eexists; (split; [reflexivity|]); intros j' Hj';
      [injection Hj' as <-|discriminate Hj'|discriminate Hj']. right. exact (claimJob_pending origin dis remote _ (base_url i) _ _ _ _ Hd E).
  - rewrite bind_eq. unfold try_catch. rewrite bind_eq.
    destruct (setJobRunning _ _ w) as [[r|e] w1]; simpl; do 2 eexists; (split; [reflexivity|]); intros ? Hj; first [by left|discriminate Hj].
  - destruct (find_handler _ _) as [h|]; [|do 2 eexists; split; [reflexivity|by left]].
    unfold try_catch. rewrite bind_eq. destruct (h j w) as [[r|e] w1]; do 2 eexists; (split; [reflexivity|]); intros ? Hj; first [by left|discriminate Hj].
  - unfold try_catch. rewrite bind_eq.
    destruct (completeJob _ _ _ w) as [[r|e] w1]; do 2 eexists; (split; [reflexivity|]); intros ? Hj; first [by left|discriminate Hj].
  - rewrite bind_eq. unfold safeFail, try_catch. rewrite bind_eq.
    destruct (failJob _ _ _ w) as [[r|e] w1]; simpl; do 2 eexists; (split; [reflexivity|]); intros ? Hj; discriminate Hj.
Qed.

Definition sys_ok (s : Sys) : Prop :=
  db_ok (w_db s.1) ∧ (∀ i j, held (s.2 i) = Some j → settled (job_id j) (w_db s.1)) ∧
  (∀ i k a b, i ≠ k → held (s.2 i) = Some a → held (s.2 k) = Some b → job_id a ≠ job_id b).

(** A job that is pending is not settled. *)
Lemma pending_not_settled d r : db_ok d → r ∈ db_job d → job_status r = JS_pending → ¬ settled (job_id r) d.
Proof. intros Hd Hr Hp (x & Hx & Hid & Hs). by rewrite (jobs_pkey d x r Hd Hx Hr Hid) in Hs. Qed.

Lemma worker_step_ok i w f p w' :
  sys_ok (w, f) → step_worker i (f i) w = (Ok p, w') → sys_ok (w', λ k, if decide (k = i) then p else f k).
Proof.
  intros (Hd & Hs & Hx) E. pose proof (step_ok i (f i) w Hd) as Hd'. rewrite E in Hd'.
  assert (Hset : ∀ id, settled id (w_db w) → settled id (w_db w')).
  { intros id Hid. pose proof (step_settled id i (f i) w Hid) as Hp. by rewrite E in Hp. }
  destruct (step_held i (f i) w Hd) as (p' & w1 & E1 & Hheld). rewrite E in E1. injection E1 as <- <-.
  assert (Hnew : ∀ k a b, k ≠ i → held p = Some a → held (f k) = Some b → job_id a ≠ job_id b).
  { intros k a b Hne Ha Hb. destruct (Hheld a Ha) as [Ho|[(r & Hr & Hid & Hpend) _]]; [by apply (Hx i k)|].
    intros Eid. apply (pending_not_settled (w_db w) r Hd Hr Hpend). rewrite Hid, Eid. by apply (Hs k). }
  split; [done|]. cbn [snd fst] in *. split.
  - intros k j. destruct (decide (k = i)) as [->|Hne]; intros Hj; [|by apply Hset, (Hs k)].
    destruct (Hheld j Hj) as [Ho|[_ Ho]]; [by apply Hset, (Hs i)|done].
  - intros k l a b Hkl. destruct (decide (k = i)) as [->|Hk], (decide (l = i)) as [->|Hl]; intros Ha Hb; [done| | |].
    + by apply (Hnew l).
    + intros Eid. by apply (Hnew k b a Hk Hb Ha).
    + by apply (Hx k l).
Qed.

Lemma quiet_step_ok (w w' : World X) f :
  sys_ok (w, f) → db_ok (w_db w') → (∀ id, settled id (w_db w) → settled id (w_db w')) → sys_ok (w', f).
Proof. intros (Hd & Hs & Hx) Hd' Hset. split; [done|]. split; [|done]. intros i j Hj. by apply Hset, (Hs i). Qed.

Lemma heartbeat_route : ∃ r, find_route "POST" "/v1/runners/heartbeat" (routes (X:=X)) = Some (r, []) ∧
  ro_handler r = post_runner_heartbeat.
Proof. eexists. by repeat split. Qed.

Lemma submit_route : ∃ r, find_route "POST" "/v1/jobs" (routes (X:=X)) = Some (r, []) ∧ ro_handler r = post_jobs.
Proof. eexists. by repeat split. Qed.

(** A request to a fixed path, when its handler keeps the invariant. *)
Lemma fixed_request_keeps I i path body r :
  (span (λ x, negb (is_char "?" x)) path).1 = path → find_route "POST" path (routes (X:=X)) = Some (r, []) →
  (∀ q, preserves (X:=X) (on_db I) (makeAuthenticator dis q)) → (∀ cx, preserves (on_db I) (ro_handler r cx)) →
  preserves (X:=X) (on_db I) (client_request (wc_client (cfg i)) "POST" path body).
Proof.
  intros Hp Hr Ha Hh. apply client_request_keeps, app_keeps; [apply Ha|]. intros r' caps params b up a E _.
  rewrite sent_method, sent_path, Hp in E by done. change (Some "POST" ?? "GET") with "POST" in E. rewrite Hr in E. injection E as <- _. apply Hh.
Qed.

Lemma heartbeat_keeps I i meta :
  (∀ q, preserves (X:=X) (on_db I) (makeAuthenticator dis q)) → (∀ cx, preserves (X:=X) (on_db I) (post_runner_heartbeat cx)) →
  preserves (X:=X) (on_db I) (heartbeat_turn (wc_client (cfg i)) (wc_name (cfg i)) meta).
Proof.
  intros Ha Hh. destruct heartbeat_route as (r & Hr & Er). unfold heartbeat_turn, postRunnerHeartbeat.
  apply preserves_try; [|by intros ? ? ?]. apply preserves_bind; [|by intros ? ? ?].
  apply preserves_bind; [|intros ?; apply lift_keeps].
  apply (fixed_request_keeps I i _ _ r); [done|done|done|]. intros cx. by rewrite Er.
Qed.

Lemma submit_keeps I i kind input :
  (∀ q, preserves (X:=X) (on_db I) (makeAuthenticator dis q)) → (∀ cx, preserves (X:=X) (on_db I) (post_jobs cx)) →
  preserves (X:=X) (on_db I) (submitJob (wc_client (cfg i)) kind input).
Proof.
  intros Ha Hh. destruct submit_route as (r & Hr & Er). unfold submitJob.
  apply preserves_bind; [|intros ?; apply lift_keeps].
  apply (fixed_request_keeps I i _ _ r); [done|done|done|]. intros cx. by rewrite Er.
Qed.

Lemma sys_step_ok s s' : sys_ok s → sys_step s s' → sys_ok s'.
Proof.
  intros Hs Hstep. destruct Hstep as [i w f p w' E|i meta w f r w' E|i kind input w f r w' E].
  - by eapply worker_step_ok.
  - assert (Hk := λ I Ha Hh, heartbeat_keeps I i meta Ha Hh w). rewrite E in Hk. cbn [snd] in Hk.
    apply (quiet_step_ok w); [done| |].
    + apply (Hk db_ok); [intros; apply makeAuthenticator_ok| |by destruct Hs].
      intros cx. apply (write_handlers_ok post_runner_heartbeat). unfold write_handlers. repeat constructor.
    + intros id. apply (Hk (settled id)); [intros; apply org_settled|intros; apply heartbeat_settled].
  - assert (Hk := λ I Ha Hh, submit_keeps I i kind input Ha Hh w). rewrite E in Hk. cbn [snd] in Hk.
    apply (quiet_step_ok w); [done| |].
    + apply (Hk db_ok); [intros; apply makeAuthenticator_ok| |by destruct Hs].
      intros cx. apply (write_handlers_ok post_jobs). unfold write_handlers. repeat constructor.
    + intros id. apply (Hk (settled id)); [intros; apply org_settled|intros; apply submit_settled].
Qed.

(** C9: Any number of workers share one server, and their requests interleave in
    any order with each other, with heartbeats and with new submissions.  No job
    is ever in the hands of two workers: from the moment a claim hands it out
    until its outcome has been reported, nobody else is given it. *)
Theorem workers_exclusive (w : World X) s :
  db_ok (w_db w) → rtc sys_step (w, λ _, P_idle) s →
  ∀ i k a b, i ≠ k → held (s.2 i) = Some a → held (s.2 k) = Some b → job_id a ≠ job_id b.
Proof.
  intros Hd Hr. assert (H0s : sys_ok (w, λ _, P_idle)) by (split; [done|]; split; by intros).
  assert (Hs : sys_ok s); [|by destruct Hs as (_ & _ & ?)].
  induction Hr as [|s1 s2 s3 Hstep _ IH]; [done|]. apply IH. by eapply sys_step_ok.
Qed.
End system.

(** ** One turn, from the queue to the outcome *)

(** The row with a key is replaced. *)
Definition put (id : string) (j : Job) (t : list Job) : list Job := update_where (λ r, job_id r =?s id) (λ _, j) t.

Lemma put_put id a b t : job_id a = id → put id b (put id a t) = put id b t.
Proof.
  intros Ha. unfold put, update_where. rewrite map_map. apply map_ext. intros r.
  destruct (job_id r =?s id) eqn:E; [|by rewrite E]. by rewrite Ha, bool_decide_eq_true_2.
Qed.

Lemma put_elem id j e t : e ∈ t → job_id e = id → j ∈ put id j t.
Proof. intros He Hid. apply update_where_elem. left. exists e. by rewrite bool_decide_eq_true_2. Qed.

Lemma put_only (p : Job → bool) f e t :
  p e = true → (∀ r, r ∈ t → p r = true → r = e) → (∀ r, r ∈ t → job_id r = job_id e → r = e) →
  update_where p f t = put (job_id e) (f e) t.
Proof.
  intros He Hp Hid. unfold put, update_where. apply map_ext_in. intros r Hr%list_elem_of_In.
  destruct (p r) eqn:E1, (job_id r =?s job_id e) eqn:E2; bool_hyps; try done.
  - by rewrite (Hp r Hr E1).
  - by rewrite (Hp r Hr E1) in E2.
  - rewrite (Hid r Hr E2) in E1. congruence.
Qed.

Definition job_patched (patch : JobPatch) (now : string) (e : Job) : Job :=
  mkJob (job_id e) (job_orgId e) (job_kind e) (job_input e) (jp_status patch ?? job_status e)
    (jp_result patch ?? job_result e) (jp_error patch ?? job_error e) (job_claimedBy e) (job_claimedAt e)
    (jp_startedAt patch ?? job_startedAt e) (jp_completedAt patch ?? job_completedAt e) (job_createdAt e) now
    (job_deletedAt e).

Section turn.
Context {X : Type} `{Oracle} `{JsEngine} {C : Crypto X} {HH : HttpHost X} {WH : WorkerHost X}.

Lemma JobRepo_update_run patch e (w : World X) :
  db_ok (w_db w) → e ∈ db_job (w_db w) → job_deletedAt e = None →
  ∃ now w', JobRepo_update (job_id e) patch w = (Ok (job_patched patch now e), w') ∧
    w_db w' = tset T_job (put (job_id e) (job_patched patch now e) (db_job (w_db w))) (w_db w).
Proof.
  intros Hd He Hl. unfold JobRepo_update.
  assert (Hone : ∀ y, y ∈ db_job (w_db w) → job_id y = job_id e → y = e) by (intros; by apply (jobs_pkey (w_db w))).
  rewrite (bind_ok _ _ w (Some e) w).
  2: { unfold JobRepo_get, read. do 2 f_equal. apply find_first_unique; [done| |].
       - by rewrite bool_decide_eq_true_2, Hl.
       - intros y Hy Ey. bool_hyps. by apply Hone. }
  rewrite bind_nowIso. cbv zeta. set (now := toISOString (clock (w_clock w))).
  erewrite bind_ok; [|eapply (db_update_one T_job _ _ e); simpl; try done].
  - exists now. eexists. split; [reflexivity|]. simpl. f_equal.
    rewrite (put_only _ _ e); [reflexivity|by rewrite bool_decide_eq_true_2| |done]. intros r Hr Hp. bool_hyps. by apply Hone.
  - by rewrite bool_decide_eq_true_2.
  - intros r _. rewrite bool_decide_eq_true. split; [by intros ->|congruence].
  - by apply (Hd T_job).
Qed.
End turn.

(** *** Paths with an identifier in them *)

Definition is_id_char (c : ascii) : bool := is_letter c || is_digit c.
Definition plain_id (id : string) : bool := negb (id =?s "") && all_chars is_id_char id.

Lemma id_char_facts c : is_id_char c = true → is_char "/" c = false ∧ is_char "?" c = false ∧ Ascii.eqb c "%" = false.
Proof. destruct c as [[] [] [] [] [] [] [] []]; vm_compute; try discriminate; done. Qed.

Lemma decode_plain n id : all_chars is_id_char id = true → (String.length id ≤ n)%nat → decode_with n id = Some id.
Proof.
  revert n. induction id as [|c id IH]; intros [|n] Hp Hn; simpl in Hn; try lia; [done..|].
  cbn [all_chars] in Hp. apply andb_true_iff in Hp as [Hc Hp]. cbn [decode_with].
  rewrite IH by (done || lia). apply id_char_facts in Hc as (_ & _ & Hc).
  destruct c as [[] [] [] [] [] [] [] []]; try discriminate Hc; reflexivity.
Qed.

Lemma decode_id id : plain_id id = true → decode_params [("id", id)] = Ok [("id", id)].
Proof.
  intros [_ Hp]%andb_true_iff. unfold decode_params. simpl. unfold decodeURIComponent. by rewrite decode_plain.
Qed.

Lemma not_slash id : all_chars is_id_char id = true → all_chars (λ c, negb (is_char "/" c)) id = true.
Proof. apply all_chars_weaken. intros c Hc. apply id_char_facts in Hc as (-> & _). done. Qed.

Lemma not_query id : all_chars is_id_char id = true → all_chars (λ c, negb (is_char "?" c)) id = true.
Proof. apply all_chars_weaken. intros c Hc. apply id_char_facts in Hc as (_ & -> & _). done. Qed.

Lemma first_split_all id rest k name caps :
  id ≠ "" → k rest = Some caps → first_split (String.length id) id rest k name = Some ((name, id) :: caps).
Proof.
  intros Hne Hk. destruct (String.length id) as [|n] eqn:E; [by destruct id|]. cbn [first_split]. rewrite <- E.
  assert (Ed : str_drop (String.length id) id = "") by (rewrite <- (str_app_nil_r id) at 2; apply str_drop_app).
  rewrite Ed. change ("" +:+ rest) with rest. rewrite Hk. unfold str_take. by rewrite substring_whole.
Qed.

(** A parameter takes the identifier, up to the slash or the end. *)
Lemma match_param id tail ts name caps :
  plain_id id = true → tail = "" ∨ (∃ t, tail = String "/" t) → match_path ts tail = Some caps →
  match_path (PT_param name :: ts) (id +:+ tail) = Some ((name, id) :: caps).
Proof.
  intros [Hne Hp]%andb_true_iff Ht Hts. cbn [match_path]. apply not_slash in Hp.
  assert (Hid : id ≠ "") by (intros ->; done).
  assert (span (λ c, negb (is_char "/" c)) (id +:+ tail) = (id, tail)) as ->.
  { destruct Ht as [->|[t ->]]; [rewrite str_app_nil_r; by apply span_end|by apply span_all]. }
  by apply first_split_all.
Qed.

Lemma match_param_none id t ts name :
  plain_id id = true → (∀ s, match_path ts (s +:+ String "/" t) = None) →
  match_path (PT_param name :: ts) (id +:+ String "/" t) = None.
Proof.
  intros [_ Hp]%andb_true_iff Hts. cbn [match_path]. apply not_slash in Hp. rewrite span_all by done.
  induction (String.length id) as [|n IH]; [done|]. cbn [first_split]. by rewrite Hts.
Qed.

(** A literal without a slash does not match a text with one. *)
Lemma match_literal_slash lit id t :
  all_chars (λ c, negb (is_char "/" c)) lit = true → all_chars is_id_char id = true →
  match_path (map PT_char (String.list_ascii_of_string lit)) (id +:+ String "/" t) = None.
Proof.
  intros Hl Hid. revert id Hid. induction lit as [|c lit IH]; intros id Hid; [by destruct id|].
  cbn [all_chars] in Hl. apply andb_true_iff in Hl as [Hc Hl]. cbn [String.list_ascii_of_string map match_path].
  destruct id as [|x id].
  - change ("" +:+ String "/" t) with (String "/" t). destruct (Ascii.eqb c "/") eqn:E; [|by rewrite E].
    apply Ascii.eqb_eq in E as ->. discriminate Hc.
  - rewrite str_app_cons. destruct (Ascii.eqb c x); [|done]. apply IH; [done|].
    cbn [all_chars] in Hid. by apply andb_true_iff in Hid as [_ ?].
Qed.

Section job_routes.
Context {X : Type} `{Oracle} `{JsEngine} {C : Crypto X} {HH : HttpHost X}.

Lemma find_route_skip m p r (l : list (Route (X:=X))) :
  (ro_method r =?s m) = false ∨ match_path (compile_path (ro_path r)) p = None → find_route m p (r :: l) = find_route m p l.
Proof. intros Hs. simpl. destruct (ro_method r =?s m); [|done]. destruct Hs as [|E]; [done|]. simpl. by rewrite E. Qed.

Lemma find_route_hit m p r (l : list (Route (X:=X))) caps :
  (ro_method r =?s m) = true → match_path (compile_path (ro_path r)) p = Some caps → find_route m p (r :: l) = Some (r, caps).
Proof. intros Hm Hc. simpl. by rewrite Hm, Hc. Qed.

Ltac skip_routes := unfold routes;
  repeat (rewrite find_route_skip; [|first [left; reflexivity | right; reflexivity]]).

Lemma claim_misses id t :
  plain_id id = true → match_path (compile_path "/v1/jobs/claim") ("/v1/jobs/" +:+ id +:+ String "/" t) = None.
Proof. intros [_ Hp]%andb_true_iff. apply (match_literal_slash "claim"); done. Qed.

Lemma complete_route id :
  plain_id id = true → ∃ r, find_route "POST" ("/v1/jobs/" +:+ id +:+ "/complete") (routes (X:=X)) = Some (r, [("id", id)]) ∧
    ro_handler r = post_job_complete ∧ ro_streamBody r = None.
Proof.
  intros Hp. eexists. split.
  - skip_routes. rewrite find_route_skip; [|right; by apply claim_misses].
    apply find_route_hit; [reflexivity|]. apply (match_param id "/complete"); [done|right; by eexists|reflexivity].
  - by split.
Qed.

Lemma fail_route id :
  plain_id id = true → ∃ r, find_route "POST" ("/v1/jobs/" +:+ id +:+ "/fail") (routes (X:=X)) = Some (r, [("id", id)]) ∧
    ro_handler r = post_job_fail ∧ ro_streamBody r = None.
Proof.
  intros Hp. eexists. split.
  - skip_routes. rewrite find_route_skip; [|right; by apply claim_misses].
    rewrite find_route_skip; [|right; apply (match_param_none id "fail"); [done|]].
    2:{ intros s. do 9 (destruct s as [|? s]; [reflexivity|];
          rewrite str_app_cons; cbn [match_path]; destruct (Ascii.eqb _ _); [|reflexivity]). by destruct s. }
    apply find_route_hit; [reflexivity|]. apply (match_param id "/fail"); [done|right; by eexists|reflexivity].
  - by split.
Qed.

Lemma running_route id :
  plain_id id = true → ∃ r, find_route "PATCH" ("/v1/jobs/" +:+ id) (routes (X:=X)) = Some (r, [("id", id)]) ∧
    ro_handler r = patch_job ∧ ro_streamBody r = None.
Proof.
  intros Hp. eexists. split.
  - skip_routes. apply find_route_hit; [reflexivity|].
    rewrite <- (str_app_nil_r id) at 1. apply (match_param id ""); [done|by left|reflexivity].
  - by split.
Qed.
End job_routes.

(** *** The requests of a turn *)

Section requests_run.
Context {X : Type} `{Oracle} `{JsEngine} {C : Crypto X} {HH : HttpHost X} {WH : WorkerHost X}.
Context (origin : string) (dis : bool) (remote : option string).
#[local] Instance turn_net : Network X := net origin dis remote.
Context (c : HttpClient) (o : string).
Hypothesis base_url : hc_baseUrl c = origin.

(** The client's credentials open the organisation, as long as the keys and the
    organisations stay as they are. *)
Definition signs_in (d : DB) : Prop :=
  ∀ w req, rq_authorization req = bearer c → rq_remoteAddress req = remote →
  db_api_key (w_db w) = db_api_key d → db_org (w_db w) = db_org d →
  ∃ a (w1 : World X), makeAuthenticator dis req w = (Ok a, w1) ∧ au_orgId a = o ∧ w_db w1 = w_db w.

(** A body that the server reads: JSON gives it back, and it is within the limit. *)
Definition body_fits (v : json) : Prop :=
  JSON_parse (json_stringify v) = Some v ∧ (String.length (json_stringify v) ≤ MAX_BODY_BYTES)%nat.

Lemma sent_auth method path body :
  rq_authorization (sent origin remote c method path body) = bearer c ∧ rq_remoteAddress (sent origin remote c method path body) = remote.
Proof. unfold sent, served_request. by destruct (span _ _). Qed.

Lemma sent_reads method path v : body_fits v → readBody (sent origin remote c method path (Some v)) = Ok (Some v).
Proof.
  intros [Hp Hl]. unfold readBody. destruct (sent_body origin remote c method path (Some v)) as [-> ->].
  cbn [option_map str_concat fold_right]. rewrite str_app_nil_r.
  assert ((MAX_BODY_BYTES <? String.length (json_stringify v))%nat = false) as -> by (by apply Nat.ltb_ge).
  change (str_includes (lower (Some "application/json" ?? "")) "application/json") with true. cbn [negb]. by rewrite Hp.
Qed.

(** The answer of a JSON route to a signed-in client. *)
Lemma served_run method path pathname v r caps params (w : World X) d :
  signs_in d → db_api_key (w_db w) = db_api_key d → db_org (w_db w) = db_org d → body_fits v →
  (span (λ x, negb (is_char "?" x)) path).1 = pathname → existsb (λ p, p =?s pathname) PUBLIC_PATHS = false →
  find_route method pathname (routes (X:=X)) = Some (r, caps) → ro_streamBody r = None → decode_params caps = Ok params →
  ∃ q a (w1 : World X), au_orgId a = o ∧ w_db w1 = w_db w ∧
    ∀ reply w', ro_handler r (mkRequestContext params q (Some v) None a) w1 = (Ok (mkResponse 200 reply), w') →
      reply_job reply ≠ None → 
      client_request c method path (Some v) w = (Ok (Some reply), w').
Proof.
  intros Hin Hk Ho Hb Hpath Hpub Hr Hs Hpar. set (req := sent origin remote c method path (Some v)).
  destruct (sent_auth method path (Some v)) as [Ha Hrem]. destruct (Hin w req Ha Hrem Hk Ho) as (a & w1 & Eauth & Eo & Ew).
  exists (rq_query req), a, w1. split; [done|]. split; [done|]. intros reply w' Eh Hj.
  assert (Eapp : app dis req w = (Ok (mkResponse 200 reply), w')).
  { assert (Ep : rq_path req = pathname) by (unfold req; rewrite sent_path; done).
    assert (Em : rq_method req = Some method) by apply sent_method.
    assert (Eb : readBody req = Ok (Some v)) by (by apply sent_reads).
    unfold app, listener, handle. rewrite Ep, Em. change (Some method ?? "GET") with method. rewrite Hr.
    unfold try_catch, run_route, authorize. rewrite Hs, Hpar, Eb, Ep, Hpub, !bind_eq. cbn [lift].
    rewrite bind_eq. cbn [lift]. by rewrite bind_eq, Eauth, Eh. }
  unfold client_request, turn_net. rewrite (fetch_server origin dis remote c method path (Some v)). fold req.
  rewrite bind_eq, bind_eq, Eapp.
  cbn [mret fr_status fr_body rs_status rs_reply]. by destruct reply.
Qed.

Lemma jobInOrg_run params q v a e (w : World X) :
  db_ok (w_db w) → e ∈ db_job (w_db w) → job_deletedAt e = None → job_orgId e = au_orgId a →
  jobInOrg (mkRequestContext (("id", job_id e) :: params) q v None a) w = (Ok e, w).
Proof.
  intros Hd He Hl Ho. unfold jobInOrg, JobRepo_get. rewrite bind_read.
  assert (param (mkRequestContext (("id", job_id e) :: params) q v None a) "id" = job_id e) as -> by done.
  rewrite (find_first_unique _ _ e).
  - unfold in_org, org. cbn [cx_auth]. by rewrite Ho, bool_decide_eq_true_2.
  - done.
  - by rewrite bool_decide_eq_true_2, Hl.
  - intros y Hy Hp. bool_hyps. by apply (jobs_pkey (w_db w)).
Qed.

Definition running_patch (t : string) : JobPatch := mkJobPatch (Some JS_running) None None (Some (Some t)) None.
Definition done_patch (result : option json_object) (t : string) : JobPatch :=
  mkJobPatch (Some JS_succeeded) (Some result) None None (Some (Some t)).
Definition failed_patch (error t : string) : JobPatch :=
  mkJobPatch (Some JS_failed) None (Some (Some error)) None (Some (Some t)).

(** A job of the organisation, with its row in the store. *)
Definition own_job (e : Job) (d : DB) : Prop :=
  e ∈ db_job d ∧ job_deletedAt e = None ∧ job_orgId e = o ∧ plain_id (job_id e) = true.

(** The row of [e] was rewritten by [patch], and nothing else. *)
Definition patched (e : Job) (patch : JobPatch) (d d' : DB) : Prop :=
  ∃ now, d' = tset T_job (put (job_id e) (job_patched patch now e) (db_job d)) d.

Lemma id_path_span id t :
  plain_id id = true → all_chars (λ x, negb (is_char "?" x)) t = true →
  (span (λ x, negb (is_char "?" x)) ("/v1/jobs/" +:+ id +:+ t)).1 = "/v1/jobs/" +:+ id +:+ t.
Proof.
  intros [_ Hp]%andb_true_iff Ht. rewrite span_end; [done|]. rewrite !all_chars_app, Ht, (not_query id Hp). done.
Qed.

Section of_job.
Context (e : Job) (w : World X) (d0 : DB).
Hypothesis (Hin : signs_in d0) (Hkeys : db_api_key (w_db w) = db_api_key d0) (Horgs : db_org (w_db w) = db_org d0).
Hypothesis (Hd : db_ok (w_db w)) (He : own_job e (w_db w)).

Lemma completeJob_run result :
  body_fits (complete_body (option_map JObj result)) →
  ∃ j t w', completeJob c (job_id e) (option_map JObj result) w = (Ok (Some j), w') ∧
    patched e (done_patch result t) (w_db w) (w_db w').
Proof.
  intros Hb. destruct He as (Hr & Hl & Ho & Hid). destruct (complete_route (job_id e) Hid) as (r & Hroute & Hh & Hs).
  destruct (served_run "POST" _ _ _ r _ _ w d0 Hin Hkeys Horgs Hb (id_path_span (job_id e) "/complete" Hid ltac:(done))
    ltac:(done) Hroute Hs (decode_id _ Hid)) as (q & a & w1 & Eo & Ew & Hrun).
  assert (Hh1 : ∃ j t w', ro_handler r (mkRequestContext [("id", job_id e)] q (Some (complete_body (option_map JObj result))) None a) w1
      = (Ok (mkResponse 200 (R_job j)), w') ∧ patched e (done_patch result t) (w_db w1) (w_db w')).
  { rewrite Hh. unfold post_job_complete. rewrite <- Ew in Hd, Hr.
    rewrite (bind_ok _ _ _ _ _ (jobInOrg_run [] q _ a e w1 Hd Hr Hl ltac:(congruence))).
    assert (Hres : ∀ k, (result' ← (match get_prop "result" (opt_prop "result" (option_map JObj result)) with
            | None => mret None | v => x ← lift (asObject v "result"); mret (Some x) end); k result') w1 = k result w1 :> Res Response * World X)
      by (by destruct result).
    unfold optional_body, complete_body. cbn [cx_body]. rewrite bind_eq. cbn [lift asObject]. rewrite Hres, bind_nowIso.
    destruct (JobRepo_update_run (done_patch result (toISOString (clock (w_clock w1)))) e
      (mkWorld (w_db w1) (S (w_clock w1)) (w_ids w1) (w_ext w1)) Hd Hr Hl) as (now & w' & E & Ew').
    fold (done_patch result (toISOString (clock (w_clock w1)))). rewrite (bind_ok _ _ _ _ _ E).
    do 3 eexists. split; [reflexivity|]. by exists now. }
  destruct Hh1 as (j & t & w' & Eh & Hpat). exists j, t, w'. rewrite <- Ew. split; [|done].
  unfold completeJob. by rewrite (bind_ok _ _ _ _ _ (Hrun _ _ Eh ltac:(done))).
Qed.

Lemma failJob_run error :
  error ≠ "" → body_fits (fail_body error) →
  ∃ j t w', failJob c (job_id e) error w = (Ok (Some j), w') ∧ patched e (failed_patch error t) (w_db w) (w_db w').
Proof.
  intros Hne Hb. destruct He as (Hr & Hl & Ho & Hid). destruct (fail_route (job_id e) Hid) as (r & Hroute & Hh & Hs).
  destruct (served_run "POST" _ _ _ r _ _ w d0 Hin Hkeys Horgs Hb (id_path_span (job_id e) "/fail" Hid ltac:(done))
    ltac:(done) Hroute Hs (decode_id _ Hid)) as (q & a & w1 & Eo & Ew & Hrun).
  assert (Hh1 : ∃ j t w', ro_handler r (mkRequestContext [("id", job_id e)] q (Some (fail_body error)) None a) w1
      = (Ok (mkResponse 200 (R_job j)), w') ∧ patched e (failed_patch error t) (w_db w1) (w_db w')).
  { rewrite Hh. unfold post_job_fail. rewrite <- Ew in Hd, Hr.
    rewrite (bind_ok _ _ _ _ _ (jobInOrg_run [] q _ a e w1 Hd Hr Hl ltac:(congruence))).
    unfold optional_body, fail_body. cbn [cx_body]. rewrite bind_eq. cbn [lift asObject]. rewrite bind_eq.
    assert (readString [("error", JStr error)] "error" = Ok error) as -> by (by destruct error). cbn [lift].
    rewrite bind_nowIso.
    destruct (JobRepo_update_run (failed_patch error (toISOString (clock (w_clock w1)))) e
      (mkWorld (w_db w1) (S (w_clock w1)) (w_ids w1) (w_ext w1)) Hd Hr Hl) as (now & w' & E & Ew').
    fold (failed_patch error (toISOString (clock (w_clock w1)))). rewrite (bind_ok _ _ _ _ _ E).
    do 3 eexists. split; [reflexivity|]. by exists now. }
  destruct Hh1 as (j & t & w' & Eh & Hpat). exists j, t, w'. rewrite <- Ew. split; [|done].
  unfold failJob. by rewrite (bind_ok _ _ _ _ _ (Hrun _ _ Eh ltac:(done))).
Qed.
End of_job.

Lemma setJobRunning_run e (w : World X) d0 :
  signs_in d0 → db_api_key (w_db w) = db_api_key d0 → db_org (w_db w) = db_org d0 → db_ok (w_db w) → own_job e (w_db w) →
  body_fits (running_body (toISOString (clock (w_clock w)))) →
  ∃ j t w', setJobRunning c (job_id e) w = (Ok (Some j), w') ∧ patched e (running_patch t) (w_db w) (w_db w').
Proof.
  intros Hin Hkeys Horgs Hd (Hr & Hl & Ho & Hid) Hb. destruct (running_route (job_id e) Hid) as (r & Hroute & Hh & Hs).
  unfold setJobRunning. rewrite bind_nowIso. set (t := toISOString (clock (w_clock w))) in *.
  set (w0 := mkWorld (w_db w) (S (w_clock w)) (w_ids w) (w_ext w)).
  assert (Hspan : (span (λ x, negb (is_char "?" x)) ("/v1/jobs/" +:+ job_id e)).1 = "/v1/jobs/" +:+ job_id e).
  { rewrite <- (str_app_nil_r (job_id e)). by apply id_path_span. }
  destruct (served_run "PATCH" _ _ _ r _ _ w0 d0 Hin Hkeys Horgs Hb Hspan ltac:(done) Hroute Hs (decode_id _ Hid))
    as (q & a & w1 & Eo & Ew & Hrun).
  change (w_db w0) with (w_db w) in Ew.
  assert (Hh1 : ∃ j w', ro_handler r (mkRequestContext [("id", job_id e)] q (Some (running_body t)) None a) w1
      = (Ok (mkResponse 200 (R_job j)), w') ∧ patched e (running_patch t) (w_db w1) (w_db w')).
  { rewrite Hh. unfold patch_job. rewrite <- Ew in Hd, Hr.
    rewrite (bind_ok _ _ _ _ _ (jobInOrg_run [] q _ a e w1 Hd Hr Hl ltac:(congruence))).
    destruct (JobRepo_update_run (running_patch t) e w1 Hd Hr Hl) as (now & w' & E & Ew').
    change (mkJobPatch (Some JS_running) None None (Some (Some t)) None) with (running_patch t) in *.
    exists (job_patched (running_patch t) now e), w'. split; [|by exists now].
    unfold running_body. cbn [cx_body].
    erewrite bind_ok; [|reflexivity]. erewrite bind_ok; [|reflexivity]. erewrite bind_ok; [|reflexivity].
    erewrite bind_ok; [|reflexivity]. erewrite bind_ok; [|reflexivity]. erewrite bind_ok; [|reflexivity].
    by rewrite (bind_ok _ _ _ _ _ E). }
  destruct Hh1 as (j & w' & Eh & Hpat). exists j, t, w'. rewrite <- Ew. split; [|done].
  by rewrite (bind_ok _ _ _ _ _ (Hrun _ _ Eh ltac:(done))).
Qed.

Lemma claimJob_run name p rest (w : World X) d0 :
  signs_in d0 → db_api_key (w_db w) = db_api_key d0 → db_org (w_db w) = db_org d0 → db_ok (w_db w) →
  body_fits (claim_body name) → job_queue o (w_db w) = p :: rest →
  ∃ now w', let j := job_set_claimed name now p in
    claimJob c name w = (Ok (Some j), w') ∧ w_db w' = tset T_job (put (job_id p) j (db_job (w_db w))) (w_db w).
Proof.
  intros Hin Hkeys Horgs Hd Hb Hq. destruct (claim_route (X:=X)) as (r & Hroute & Hh & Hs).
  destruct (served_run "POST" "/v1/jobs/claim" "/v1/jobs/claim" _ r [] [] w d0 Hin Hkeys Horgs Hb ltac:(done) ltac:(done)
    Hroute Hs ltac:(done)) as (q & a & w1 & Eo & Ew & Hrun).
  rewrite <- Ew in Hd, Hq. set (now := toISOString (clock (w_clock w1))). set (j := job_set_claimed name now p).
  pose proof (JobRepo_claimNext_run o name w1 p rest Hd Hq) as E. cbv zeta in E. fold now j in E.
  assert (Hp : p ∈ job_queue o (w_db w1)) by (rewrite Hq; left).
  apply job_queue_elem in Hp as [Hp Hcl]. unfold job_claimable in Hcl. bool_hyps.
  rewrite (put_only _ _ p) in E.
  2:{ by rewrite !bool_decide_eq_true_2. }
  2:{ intros x Hx Hpx. apply andb_true_iff in Hpx as [Hpx _]. apply bool_decide_eq_true in Hpx. exact (jobs_pkey _ x p Hd Hx Hp Hpx). }
  2:{ intros x Hx Hpx. exact (jobs_pkey _ x p Hd Hx Hp Hpx). }
  fold j in E. match type of E with _ = (_, ?x) => set (w' := x) in E end.
  exists now, w'. cbv zeta. fold j. rewrite <- Ew. split.
  - unfold claimJob. rewrite (bind_ok _ _ _ (Some (R_claimed (Some j))) w'); [reflexivity|].
    apply Hrun; [|discriminate].
    rewrite Hh. unfold post_jobs_claim, claim_body. erewrite bind_ok; [|reflexivity].
    assert (readOptionalString [("claimed_by", JStr name)] "claimed_by" = Ok (Some name)) as -> by done.
    erewrite bind_ok; [|reflexivity]. unfold org. cbn [cx_auth]. rewrite Eo.
    change (Some name ?? "anonymous") with name. by rewrite (bind_ok _ _ _ _ _ E).
  - reflexivity.
Qed.

Lemma claimJob_ok name : preserves (X:=X) (on_db db_ok) (claimJob c name).
Proof. apply preserves_bind; [apply (client_ok origin dis remote)|intros ?; apply lift_keeps]. Qed.

Lemma setJobRunning_ok id : preserves (X:=X) (on_db db_ok) (setJobRunning c id).
Proof.
  intros w Hw. unfold setJobRunning. rewrite bind_nowIso.
  apply preserves_bind; [apply (client_ok origin dis remote)|intros ?; apply lift_keeps|done].
Qed.

(** What a worker does with a job that it has marked as running. *)
Definition work (handlers : list (string * JobHandler)) (job : Job) : M X (option json) :=
  match find_handler handlers (job_kind job) with
  | None => throw (EError ("no handler registered for job kind '" +:+ job_kind job +:+ "'"))
  | Some handler => handler job
  end.

(** The row that the outcome of the work is to leave behind. *)
Definition recorded (out : Res (option json)) (j : Job) : Prop :=
  match out with
  | Ok result => job_status j = JS_succeeded ∧ option_map JObj (job_result j) = result
  | Throw err => job_status j = JS_failed ∧ job_error j = Some (err_message err)
  end.

(** An outcome that can be reported: a result is an object or nothing, a message is
    not empty, and the request is within the limit. *)
Definition reportable (out : Res (option json)) : Prop :=
  match out with
  | Ok result => (∃ r, result = option_map JObj r) ∧ body_fits (complete_body result)
  | Throw err => err_message err ≠ "" ∧ body_fits (fail_body (err_message err))
  end.

(** Work that leaves the jobs and the credentials alone. *)
Definition quiet (m : M X (option json)) : Prop :=
  ∀ w : World X, db_ok (w_db w) → let w' := (m w).2 in
  db_ok (w_db w') ∧ db_job (w_db w') = db_job (w_db w) ∧ db_api_key (w_db w') = db_api_key (w_db w) ∧
  db_org (w_db w') = db_org (w_db w).

Lemma report_run e out (w : World X) d0 :
  signs_in d0 → db_api_key (w_db w) = db_api_key d0 → db_org (w_db w) = db_org d0 → db_ok (w_db w) → own_job e (w_db w) →
  reportable out →
  ∃ j w', try_catch (result ← lift out; completeJob c (job_id e) result;; mret ()) (λ err, safeFail c e (err_message err)) w = (Ok (), w') ∧
    w_db w' = tset T_job (put (job_id e) j (db_job (w_db w))) (w_db w) ∧ recorded out j ∧
    job_id j = job_id e ∧ job_orgId j = job_orgId e ∧ job_kind j = job_kind e ∧ job_claimedBy j = job_claimedBy e.
Proof.
  intros Hin Hk Ho Hd He Hout. unfold try_catch. destruct out as [result|err].
  - destruct Hout as [[r ->] Hb]. rewrite bind_eq. cbn [lift].
    destruct (completeJob_run e w d0 Hin Hk Ho Hd He r Hb) as (j & t & w' & E & now & Ew).
    rewrite (bind_ok _ _ _ _ _ E). do 2 eexists. split; [reflexivity|]. split; [exact Ew|]. by repeat split.
  - destruct Hout as [Hne Hb]. rewrite bind_eq. cbn [lift].
    destruct (failJob_run e w d0 Hin Hk Ho Hd He _ Hne Hb) as (j & t & w' & E & now & Ew).
    unfold safeFail, try_catch. rewrite (bind_ok _ _ _ _ _ E). do 2 eexists. split; [reflexivity|].
    split; [exact Ew|]. by repeat split.
Qed.

(** A handler's outcome, and what is done with it. *)
Lemma outcome_split {A B} (m : M X A) (k : A → M X B) (f : Err → M X B) (w : World X) :
  try_catch (a ← m; k a) f w = let '(out, w1) := m w in try_catch (a ← lift out; k a) f w1.
Proof. unfold try_catch. rewrite bind_eq. by destruct (m w) as [[a|e] w1]. Qed.

(** A worker works on a job it has claimed and marked. *)
Lemma work_run handlers job (w : World X) :
  match find_handler handlers (job_kind job) with
  | None => safeFail c job ("no handler registered for job kind '" +:+ job_kind job +:+ "'")
  | Some handler =>
    try_catch (result ← handler job; completeJob c (job_id job) result;; mret ()) (λ err, safeFail c job (err_message err))
  end w =
  let '(out, w1) := work handlers job w in
  try_catch (result ← lift out; completeJob c (job_id job) result;; mret ()) (λ err, safeFail c job (err_message err)) w1.
Proof.
  unfold work. destruct (find_handler handlers (job_kind job)) as [h|]; [apply outcome_split|].
  cbn [throw]. unfold try_catch. rewrite bind_eq. cbn [lift err_message]. reflexivity.
Qed.

(** The claim and the mark that a turn begins with. *)
Lemma turn_begins name poll handlers p rest (w : World X) :
  signs_in (w_db w) → db_ok (w_db w) → job_queue o (w_db w) = p :: rest → plain_id (job_id p) = true →
  body_fits (claim_body name) → (∀ n, body_fits (running_body (toISOString (clock n)))) →
  ∃ t e w2, let job := job_set_claimed name t p in
    worker_turn c name poll handlers w =
      (let '(out, w3) := work handlers job w2 in
       try_catch (result ← lift out; completeJob c (job_id job) result;; mret ()) (λ err, safeFail c job (err_message err)) w3) ∧
    db_ok (w_db w2) ∧ own_job e (w_db w2) ∧ job_id e = job_id p ∧ job_kind e = job_kind p ∧ job_claimedBy e = Some name ∧
    job_status e = JS_running ∧ w_db w2 = tset T_job (put (job_id p) e (db_job (w_db w))) (w_db w).
Proof.
  intros Hin Hd Hq Hid Hbc Hbr.
  assert (Hp : p ∈ job_queue o (w_db w)) by (rewrite Hq; left).
  apply job_queue_elem in Hp as [Hp Hcl]. unfold job_claimable in Hcl. bool_hyps.
  destruct (claimJob_run name p rest w (w_db w) Hin eq_refl eq_refl Hd Hbc Hq) as (t & w1 & Ec & Ew1).
  pose proof (claimJob_ok name w Hd) as Hd1. rewrite Ec in Hd1. set (job := job_set_claimed name t p) in *.
  assert (Hown : own_job job (w_db w1)).
  { rewrite Ew1. split; [by eapply put_elem|]. repeat split; try done. simpl. by destruct (job_deletedAt p). }
  destruct (setJobRunning_run job w1 (w_db w) Hin ltac:(by rewrite Ew1) ltac:(by rewrite Ew1) Hd1 Hown (Hbr _))
    as (j & t2 & w2 & Em & now & Ew2).
  pose proof (setJobRunning_ok (job_id job) w1 Hd1) as Hd2. rewrite Em in Hd2.
  set (e := job_patched (running_patch t2) now job) in *.
  assert (Edb : w_db w2 = tset T_job (put (job_id p) e (db_job (w_db w))) (w_db w)).
  { rewrite Ew2, Ew1. simpl. by rewrite put_put. }
  exists t, e, w2. cbv zeta. fold job. split.
  - unfold worker_turn. rewrite (bind_ok _ _ w (Some (Some job)) w1).
    2:{ apply try_ok. by rewrite (bind_ok _ _ _ _ _ Ec). }
    cbn beta iota. rewrite (bind_ok _ _ w1 true w2).
    2:{ apply try_ok. by rewrite (bind_ok _ _ _ _ _ Em). }
    cbn [negb]. apply work_run.
  - split; [done|]. split; [|done]. destruct Hown as (_ & Hl & Ho & _). split; [rewrite Edb; by eapply put_elem|done].
Qed.

(** C10: One turn of a worker, against a server that lets it in.  When its
    organisation's queue is not empty, the turn claims the job at the head, works on
    it once, and leaves the row of that job succeeded with the result of the work or
    failed with the message of its error.  The work starts from the store with that
    row running, every other job stays as it was, and the other tables are as the
    work left them.  The work is one that leaves the jobs and the credentials alone
    and whose outcome can be reported: a result is an object or missing, a message
    is not empty, and no request body is longer than the server accepts. *)
Theorem turn_finishes_job name poll handlers p rest (w : World X) :
  signs_in (w_db w) → db_ok (w_db w) → job_queue o (w_db w) = p :: rest → plain_id (job_id p) = true →
  body_fits (claim_body name) → (∀ n, body_fits (running_body (toISOString (clock n)))) →
  (∀ t, quiet (work handlers (job_set_claimed name t p))) →
  (∀ t (w : World X), reportable (work handlers (job_set_claimed name t p) w).1) →
  ∃ t e w2 j w', let outcome := work handlers (job_set_claimed name t p) w2 in
    worker_turn c name poll handlers w = (Ok (), w') ∧
    job_status e = JS_running ∧ w_db w2 = tset T_job (put (job_id p) e (db_job (w_db w))) (w_db w) ∧
    recorded outcome.1 j ∧ job_id j = job_id p ∧ job_kind j = job_kind p ∧ job_claimedBy j = Some name ∧
    w_db w' = tset T_job (put (job_id p) j (db_job (w_db w))) (w_db outcome.2).
Proof.
  intros Hin Hd Hq Hid Hbc Hbr Hquiet Hreport.
  destruct (turn_begins name poll handlers p rest w Hin Hd Hq Hid Hbc Hbr) as (t & e & w2 & -> & Hd2 & He & Eid & Ekind & Eby & Est & Edb).
  cbv zeta. pose proof (Hquiet t w2 Hd2) as Hw. pose proof (Hreport t w2) as Hrep.
  exists t, e, w2. destruct (work handlers _ w2) as [out w3]. cbn [fst snd] in *. destruct Hw as (Hd3 & Ej & Ek & Eo).
  assert (He3 : own_job e (w_db w3)) by (unfold own_job; by rewrite Ej).
  destruct (report_run e out w3 (w_db w) Hin ltac:(by rewrite Ek, Edb) ltac:(by rewrite Eo, Edb) Hd3 He3 Hrep)
    as (j & w' & E & Ejob & Hrec & Hi & _ & Hkd & Hby).
  exists j, w'. split; [|do 3 (split; [done|])].
  - revert E. unfold safeFail. rewrite Eid. done.
  - rewrite Hi, Hkd, Hby, Ejob, Eid, Ej, Edb. simpl. by rewrite put_put.
Qed.
End requests_run.

(** ** The turn is its phases *)

Section phases.
Context {X : Type} `{Oracle} `{JsEngine} {N : Network X} {WH : WorkerHost X}.
Context (c : HttpClient) (name : string) (poll : jsnum) (handlers : list (string * JobHandler (X:=X))).

(** Phase after phase, until the worker is idle again. *)
Fixpoint run_phases (fuel : nat) (p : Phase) : M X bool :=
  match fuel with
  | O => mret false
  | S fuel' =>
    p' ← advance c name poll handlers p;
    match p' with P_idle => mret true | _ => run_phases fuel' p' end
  end.

Lemma phase_step fuel p p' (w w1 : World X) :
  advance c name poll handlers p w = (Ok p', w1) →
  run_phases (S fuel) p w = match p' with P_idle => (Ok true, w1) | _ => run_phases fuel p' w1 end.
Proof. intros E. cbn [run_phases]. rewrite (bind_ok _ _ _ _ _ E). by destruct p'. Qed.

Lemma finish_failing fuel job message (w : World X) :
  run_phases (S fuel) (P_failing job message) w = (safeFail c job message;; mret true) w.
Proof.
  assert (Hs : ∃ w1, safeFail c job message w = (Ok (), w1)).
  { unfold safeFail, try_catch. rewrite bind_eq. destruct (failJob _ _ _ w) as [[r|e] w1]; by eexists. }
  destruct Hs as [w1 E]. rewrite (bind_ok _ _ _ _ _ E). apply (phase_step _ _ P_idle).
  cbn [advance]. by rewrite (bind_ok _ _ _ _ _ E).
Qed.

Lemma finish_reporting fuel job result (w : World X) :
  run_phases (S (S fuel)) (P_reporting job result) w =
  (try_catch (completeJob c (job_id job) result;; mret ()) (λ err, safeFail c job (err_message err));; mret true) w.
Proof.
  rewrite (bind_eq (try_catch _ _)). unfold try_catch at 1. rewrite bind_eq.
  destruct (completeJob c (job_id job) result w) as [[r|e] w1] eqn:E.
  - apply (phase_step _ _ P_idle). cbn [advance]. apply try_ok. by rewrite (bind_ok _ _ _ _ _ E).
  - rewrite (phase_step _ _ (P_failing job (err_message e)) w w1).
    + rewrite finish_failing. by rewrite bind_eq.
    + cbn [advance]. rewrite (try_throw _ _ w e w1); [done|]. by rewrite bind_eq, E.
Qed.

Lemma finish_running fuel job (w : World X) :
  run_phases (S (S (S fuel))) (P_running job) w =
  (match find_handler handlers (job_kind job) with
   | None => safeFail c job ("no handler registered for job kind '" +:+ job_kind job +:+ "'")
   | Some handler =>
     try_catch (result ← handler job; completeJob c (job_id job) result;; mret ()) (λ err, safeFail c job (err_message err))
   end;; mret true) w.
Proof.
  destruct (find_handler handlers (job_kind job)) as [h|] eqn:Eh.
  - rewrite (bind_eq (try_catch _ _)), outcome_split. destruct (h job w) as [[r|e] w1] eqn:E.
    + rewrite (phase_step _ _ (P_reporting job r) w w1), finish_reporting, bind_eq; [done|].
      cbn [advance]. rewrite Eh. apply try_ok. by rewrite (bind_ok _ _ _ _ _ E).
    + rewrite (phase_step _ _ (P_failing job (err_message e)) w w1), finish_failing, bind_eq; [done|].
      cbn [advance]. rewrite Eh, (try_throw _ _ w e w1); [done|]. by rewrite bind_eq, E.
  - rewrite (phase_step _ _ (P_failing job ("no handler registered for job kind '" +:+ job_kind job +:+ "'")) w w); [apply finish_failing|].
    cbn [advance]. by rewrite Eh.
Qed.

(** A turn of the claim loop is the sequence of its phases: the turn that is
    one function in the code and the worker that is interleaved with others,
    request by request, do the same, and five phases always bring the worker
    back to idle. *)
Theorem turn_is_phases (w : World X) :
  run_phases 5 P_idle w = (worker_turn c name poll handlers;; mret true) w.
Proof.
  unfold worker_turn. rewrite (bind_eq (_ ≫= _)), bind_eq. unfold try_catch at 1. rewrite bind_eq.
  destruct (claimJob c name w) as [[[job|]|e] w1] eqn:Ec; cbn [mret M_ret].
  - rewrite (phase_step _ _ (P_claimed job) w w1).
    2:{ cbn [advance]. rewrite bind_eq. unfold try_catch. by rewrite (bind_ok _ _ _ _ _ Ec). }
    rewrite bind_eq. unfold try_catch at 1. rewrite bind_eq.
    destruct (setJobRunning c (job_id job) w1) as [[r|e] w2] eqn:Em; cbn [mret M_ret negb].
    + rewrite (phase_step _ _ (P_running job) w1 w2), finish_running, bind_eq; [done|].
      cbn [advance]. rewrite bind_eq. unfold try_catch. by rewrite (bind_ok _ _ _ _ _ Em).
    + apply (phase_step _ _ P_idle). cbn [advance]. rewrite bind_eq. unfold try_catch. by rewrite bind_eq, Em.
  - apply (phase_step _ _ P_idle). cbn [advance]. rewrite bind_eq. unfold try_catch. by rewrite (bind_ok _ _ _ _ _ Ec).
  - apply (phase_step _ _ P_idle). cbn [advance]. rewrite bind_eq. unfold try_catch. by rewrite bind_eq, Ec.
Qed.
End phases.

(** ** Two workers and two jobs *)

(** The clock stands still, and JSON is read by [read_json]. *)
#[local] Instance still_oracle : Oracle := {
  clock := λ _, epoch2025;
  clock_range := λ _, fixture_clock_range 0;
  fresh_id := @fresh_id fixture_oracle
}.

#[local] Instance reading_engine : JsEngine := {
  legacy_date_parse := λ _, None;
  num_to_string := @num_to_string fixture_engine;
  num_toFixed := @num_toFixed fixture_engine;
  JSON_parse := read_json (λ t, @to_number_other fixture_engine (JStr t));
  json_syntax_error := @json_syntax_error fixture_engine;
  to_number_other := @to_number_other fixture_engine
}.

#[local] Instance worker_http_host : HttpHost Trace := {
  VERSION := "0.4.0";
  randomBytes := λ n x, ("", x ++ ["RANDOM"]);
  blobs_put_stream := λ o u x, (Ok ("blob://" +:+ o, "", 0), x ++ ["PUT"]);
  blobs_resolveBySha := λ o sha, "blob://" +:+ o +:+ "/" +:+ sha;
  blobs_open := λ uri x, (Throw (EBlobNotFound uri), x);
  asserted_summary := λ _, mkDeploymentHealthSummary 0 0 0 0 None
}.

#[local] Instance fixture_worker_host : WorkerHost Trace := {
  sleep := λ _ x, x ++ ["SLEEP"];
  timer := λ _ x, x ++ ["TIMER"];
  aborted := λ _, false;
  inherited_error := λ _, "Cannot convert undefined or null to object"
}.

Definition wx_job (id : string) : Job :=
  mkJob id "o1" "noop" [("duration_ms", JInt 10)] JS_pending None None None None None None t0 t0 None.
Definition wx_db : DB := tset T_job [wx_job "j1"; wx_job "j2"] fx_db.
Definition wx_world : World Trace := mkWorld wx_db 0 0 [].
Definition wx_origin : string := "http://control-plane.local".
Definition wx_client : HttpClient := mkHttpClient wx_origin None.
Definition wx_config (i : nat) : WorkerConfig Trace :=
  mkWorkerConfig _ wx_client ("worker-" +:+ pretty.pretty i) (num_of_Z 1000) [("noop", noop)].

Lemma wx_db_ok : db_ok wx_db.
Proof. apply db_okb_sound. by vm_compute. Qed.

Lemma wx_fits v :
  readable (λ t, @to_number_other fixture_engine (JStr t)) v = true →
  (String.length (json_stringify v) <=? MAX_BODY_BYTES)%nat = true → body_fits v.
Proof. intros Hr Hl. split; [by apply read_json_stringify|by apply Nat.leb_le]. Qed.

Definition wx_step (i : nat) (s : Sys (X:=Trace)) : Sys :=
  match step_worker wx_origin false (Some "127.0.0.1") wx_config i (s.2 i) s.1 with
  | (Ok p, w') => (w', λ k, if decide (k = i) then p else s.2 k)
  | (Throw _, w') => (w', s.2)
  end.

Definition wx_after : Sys (X:=Trace) := wx_step 1 (wx_step 0 (wx_step 0 (wx_world, λ _, P_idle))).

Definition wx_steps := sys_step wx_origin false (Some "127.0.0.1") wx_config.

Lemma wx_step_ok i s :
  match (step_worker wx_origin false (Some "127.0.0.1") wx_config i (s.2 i) s.1).1 with Ok _ => true | Throw _ => false end = true →
  wx_steps s (wx_step i s).
Proof.
  unfold wx_step. destruct s as [w f]. cbn [fst snd].
  destruct (step_worker _ _ _ _ _ _ w) as [[p|e] w'] eqn:E; [|done]. intros _. by constructor.
Qed.

Lemma wx_noop_behaves i kv : kv ∈ wc_handlers (wx_config i) → ∀ job, well_behaved (kv.2 job).
Proof.
  intros Hkv job. apply list_elem_of_singleton in Hkv as ->. split; intros; by intros w Hw.
Qed.

Lemma wx_body n : let body := running_body (toISOString (clock n)) in JSON_parse (json_stringify body) = Some body.
Proof. apply read_json_stringify. by vm_compute. Qed.

Lemma workers_exclusive_witness :
  (option_map job_id (held (wx_after.2 0%nat)) = Some "j1" ∧ option_map job_id (held (wx_after.2 1%nat)) = Some "j2") ∧
  ∀ i k a b, i ≠ k → held (wx_after.2 i) = Some a → held (wx_after.2 k) = Some b → job_id a ≠ job_id b.
Proof.
  split; [by vm_compute|].
  apply (workers_exclusive wx_origin false (Some "127.0.0.1") wx_config (λ _, eq_refl) wx_body wx_noop_behaves wx_world); [apply wx_db_ok|].
  unfold wx_after. do 3 (eapply rtc_r; [|apply wx_step_ok; by vm_compute]). apply rtc_refl.
Defined.

Lemma wx_signs_in : signs_in (X:=Trace) false (Some "127.0.0.1") wx_client "o1" wx_db.
Proof.
  intros w req Ha Hr _ Ho. unfold makeAuthenticator. rewrite Ha, Hr.
  exists (mkAuthContext "o1" None), w. split; [|done]. unfold ensureDefaultOrg, OrgRepo_getByName.
  change (bearer_token (bearer wx_client)) with (None (A:=string)). cbv iota.
  change (negb false && isLoopback (Some "127.0.0.1")) with true. cbv iota.
  rewrite bind_eq, bind_read, Ho. reflexivity.
Qed.

Lemma wx_work t (w : World Trace) : work [("noop", noop)] (job_set_claimed "worker-0" t (wx_job "j1")) w =
  (Ok (Some (JObj [("ok", JBool true); ("slept_ms", JInt 10)])), mkWorld (w_db w) (w_clock w) (w_ids w) (w_ext w ++ ["TIMER"])).
Proof. reflexivity. Qed.
Lemma wx_quiet t : quiet (work [("noop", noop)] (job_set_claimed "worker-0" t (wx_job "j1"))).
Proof. intros w Hd. by rewrite wx_work. Qed.
Lemma wx_reportable t (w : World Trace) : reportable (work [("noop", noop)] (job_set_claimed "worker-0" t (wx_job "j1")) w).1.
Proof.
  rewrite wx_work. split; [by exists (Some [("ok", JBool true); ("slept_ms", JInt 10)])|]. apply wx_fits; by vm_compute.
Qed.

Lemma turn_finishes_job_witness :
  ∃ t e w2 j w', let outcome := work [("noop", noop)] (job_set_claimed "worker-0" t (wx_job "j1")) w2 in
    worker_turn (N := turn_net wx_origin false (Some "127.0.0.1")) wx_client "worker-0" (num_of_Z 1000) [("noop", noop)] wx_world = (Ok (), w') ∧
    job_status e = JS_running ∧ w_db w2 = tset T_job (put "j1" e (db_job wx_db)) wx_db ∧
    recorded outcome.1 j ∧ job_id j = "j1" ∧ job_kind j = "noop" ∧ job_claimedBy j = Some "worker-0" ∧
    w_db w' = tset T_job (put "j1" j (db_job wx_db)) (w_db outcome.2).
Proof.
  apply (turn_finishes_job wx_origin false (Some "127.0.0.1") wx_client "o1" eq_refl "worker-0" (num_of_Z 1000)
    [("noop", noop)] (wx_job "j1") [wx_job "j2"] wx_world wx_signs_in wx_db_ok).
  - by vm_compute.
  - by vm_compute.
  - apply wx_fits; by vm_compute.
  - intros n. apply wx_fits; by vm_compute.
  - apply wx_quiet.
  - apply wx_reportable.
Defined.

(** A handler that throws an error without a message: the server refuses the report of
    the failure, the worker goes on, and the job stays running. *)
Example empty_message_stays_running :
  let silent := λ _ : Job, throw (X := Trace) (A := option json) (EError "") in
  let r := worker_turn (N := turn_net wx_origin false (Some "127.0.0.1")) wx_client "worker-0" (num_of_Z 1000) [("noop", silent)] wx_world in
  r.1 = Ok () ∧ map (λ j, (job_id j, job_status j)) (db_job (w_db r.2)) = [("j1", JS_running); ("j2", JS_pending)].
Proof. vm_compute. split; reflexivity. Qed.
