(* ===== verification/Registry.v ===== *)
(** The artifact registry (registry/src): its errors and data (types.ts), the
    manifest catalog in SQLite (storage/sqlite-index.ts), the content-addressed
    blob files (storage/local-fs.ts) and their composition
    (storage/registry-storage.ts).  A registry program is a state transformer
    that gives a value or throws; every file operation may fail, and a write that
    fails may leave a part behind. *)

From stdpp Require Import gmap strings.
From S2P Require Import Prelude JsTime JsVal Signing Build BuildYaml.

(** ** Data *)

Record Blob := mkBlob {
  bl_sha256 : string;
  bl_size : Z;
  bl_contentType : option string;
  bl_createdAt : string
}.

Record BlobRef := mkBlobRef {
  br_mediaType : string;
  br_sha256 : string;
  br_size : option jsnum;
  br_name : option string
}.

Record ManifestSignature := mkManifestSignature { ms_signatureB64 : string; ms_signedBy : string }.

Inductive ManifestKind := MK_generic | MK_cargo | MK_npm | MK_oci | MK_pypi | MK_maven | MK_nuget | MK_hf.

#[export] Instance ManifestKind_eq_dec : EqDecision ManifestKind.
Proof. solve_decision. Defined.

Inductive SchemaVariant := SV_oci_v1 | SV_docker_v2_2.

(** A child of an image index, as its row summarises it. *)
Record ChildManifest := mkChildManifest {
  cm_digest : string;
  cm_mediaType : string;
  cm_size : jsnum;
  cm_platform : option (string * string * option string)   (* architecture, os, variant *)
}.

Record OciManifestMetadata := mkOciManifestMetadata {
  om_isIndex : bool;
  om_schemaVariant : SchemaVariant;
  om_configDigest : option string;
  om_configMediaType : option string;
  om_layerDigests : option (list string);
  om_totalSize : option jsnum;
  om_childManifests : option (list ChildManifest);
  om_subjectDigest : option string;
  om_artifactType : option string
}.

(** Annotations, and the metadata that came with a push through the generic route,
    are stored and returned as they came. *)
Record Manifest := mkManifest {
  mf_name : string;
  mf_version : string;
  mf_mediaType : string;
  mf_kind : option ManifestKind;
  mf_blobs : list BlobRef;
  mf_annotations : option json;
  mf_signature : option ManifestSignature;
  mf_ociMetadata : option OciManifestMetadata;
  mf_otherMetadata : list (ManifestKind * json);
  mf_createdAt : string
}.

Inductive ProvenanceSource := PS_upload | PS_proxy_cache | PS_manifest_create | PS_migration.

Record Provenance := mkProvenance {
  pv_source : ProvenanceSource;
  pv_upstreamUrl : option string;
  pv_fetchedAt : string;
  pv_fetchedBy : option string;
  pv_originalSignature : option ManifestSignature
}.

Record ManifestRow := mkManifestRow {
  mr_name : string;
  mr_version : string;
  mr_media_type : string;
  mr_blobs : list BlobRef;
  mr_annotations : option json;
  mr_signature_b64 : option string;
  mr_signed_by : option string;
  mr_canonical_bytes : string;
  mr_created_at : string;
  mr_kind : ManifestKind;
  mr_provenance : option Provenance;
  mr_oci_metadata : option OciManifestMetadata;
  mr_other_metadata : list (ManifestKind * json)
}.

Record ListedManifest := mkListedManifest {
  lm_name : string;
  lm_version : string;
  lm_mediaType : string;
  lm_kind : ManifestKind;
  lm_createdAt : string;
  lm_signed : bool
}.

Inductive AuditAction := AA_upload | AA_proxy_cache | AA_manifest_create | AA_yank | AA_unyank | AA_delete.
Inductive AuditEntityType := AE_blob | AE_manifest | AE_cargo_crate | AE_virtual_upstream.

#[export] Instance AuditAction_eq_dec : EqDecision AuditAction.
Proof. solve_decision. Defined.
#[export] Instance AuditEntityType_eq_dec : EqDecision AuditEntityType.
Proof. solve_decision. Defined.

Record RegistryAuditEntry := mkRegistryAuditEntry {
  ra_id : string;
  ra_action : AuditAction;
  ra_entityType : AuditEntityType;
  ra_entityId : string;
  ra_actor : string;
  ra_detail : option json_object;
  ra_createdAt : string
}.

(** The rows of the OCI facade. *)
Record TagRow := mkTagRow {
  tg_repository : string;
  tg_tag : string;
  tg_manifestSha256 : string;
  tg_updatedAt : string
}.

Record PendingUploadChunk := mkPendingUploadChunk { pc_offset : Z; pc_length : Z; pc_sha256 : string }.

Record PendingUploadRow := mkPendingUploadRow {
  pu_uploadId : string;
  pu_repository : string;
  pu_chunks : list PendingUploadChunk;
  pu_bytesReceived : Z;
  pu_createdAt : string;
  pu_expiresAt : string;
  pu_actor : string
}.


(** *** Virtual upstreams *)

Inductive VirtualUpstreamKind := VK_cargo | VK_npm | VK_oci | VK_maven | VK_pip | VK_pypi | VK_nuget | VK_huggingface | VK_helm.

#[export] Instance VirtualUpstreamKind_eq_dec : EqDecision VirtualUpstreamKind.
Proof. solve_decision. Defined.

(** The knobs that the OCI facade reads. *)
Record VirtualUpstreamConfig := mkVirtualUpstreamConfig {
  vc_allow_patterns : option (list string);
  vc_deny_patterns : option (list string);
  vc_resign_on_cache : bool;
  vc_auth_header_template : option string;
  vc_upstream_flavor : option string;
  vc_upstream_repo_template : option string;
  vc_aws_region : option string;
  vc_aws_access_key_id : option string;
  vc_aws_secret_access_key : option string;
  vc_aws_session_token : option string;
  vc_api_endpoint : option string;
  vc_token_endpoint : option string;
  vc_token_service : option string
}.

Record VirtualUpstream := mkVirtualUpstream {
  vu_id : string;
  vu_org : string;
  vu_kind : VirtualUpstreamKind;
  vu_upstreamUrl : string;
  vu_config : VirtualUpstreamConfig;
  vu_enabled : bool;
  vu_createdAt : string;
  vu_updatedAt : string
}.

(** ** Errors *)

Inductive OciErrorCode :=
| BLOB_UNKNOWN | BLOB_UPLOAD_INVALID | BLOB_UPLOAD_UNKNOWN | DIGEST_INVALID | MANIFEST_BLOB_UNKNOWN
| MANIFEST_INVALID | MANIFEST_UNKNOWN | NAME_INVALID | NAME_UNKNOWN | SIZE_INVALID | UNAUTHORIZED | DENIED
| UNSUPPORTED | TOOMANYREQUESTS.

Inductive RegistryErrorCode :=
| BAD_BLOB_REF | BAD_MANIFEST | BAD_NAME | BAD_VERSION | BAD_SHA256 | BLOB_NOT_FOUND | MANIFEST_NOT_FOUND
| MANIFEST_EXISTS | SIGNATURE_INVALID | REG_UNAUTHORIZED | FORBIDDEN.

#[export] Instance OciErrorCode_eq_dec : EqDecision OciErrorCode.
Proof. solve_decision. Defined.
#[export] Instance RegistryErrorCode_eq_dec : EqDecision RegistryErrorCode.
Proof. solve_decision. Defined.

Inductive JwtReason :=
| JR_malformed | JR_header_invalid | JR_payload_invalid | JR_alg_unsupported | JR_signature_invalid | JR_expired
| JR_not_yet_valid | JR_wrong_audience | JR_wrong_issuer.

Inductive RErr :=
| OciError (code : OciErrorCode) (message : string) (detail : option json)
| RegistryError (code : RegistryErrorCode) (message : string)
| HttpError (status : Z) (message code : string)
| JwtError (reason : JwtReason) (message : string)
| SignatureVerificationError (message : string)
| PlainError (message : string).

Definition rerr_message (e : RErr) : string :=
  match e with OciError _ m _ | RegistryError _ m | HttpError _ m _ | JwtError _ m | SignatureVerificationError m | PlainError m => m end.

Definition RRes (A : Type) : Type := RErr + A.

#[export] Instance RRes_ret : MRet RRes := λ A a, inr a.
#[export] Instance RRes_bind : MBind RRes := λ A B k r, match r with inl e => inl e | inr a => k a end.

(** ** The registry's state *)

(** The text of a sidecar file: written, or cut off. *)
Record SidecarMetadata := mkSidecarMetadata { sd_createdAt : string; sd_size : Z; sd_contentType : option string }.
Inductive Sidecar := SC_json (meta : SidecarMetadata) | SC_torn.

Record Reg := mkReg {
  rg_manifest : list ManifestRow;
  rg_blob : list Blob;
  rg_tag : list TagRow;
  rg_upload : list PendingUploadRow;
  rg_audit : list RegistryAuditEntry;
  rg_upstream : list VirtualUpstream;
  rg_tmp : gmap string string;          (* uploads/<id> *)
  rg_files : gmap string string;        (* blobs/<xx>/<sha256> *)
  rg_sidecars : gmap string Sidecar;    (* blobs/<xx>/<sha256>.meta.json *)
  rg_fetches : list string;          (* the URLs asked of upstreams so far *)
  rg_tick : nat
}.

Definition set_manifest (v : list ManifestRow) (r : Reg) : Reg :=
  mkReg v (rg_blob r) (rg_tag r) (rg_upload r) (rg_audit r) (rg_upstream r) (rg_tmp r) (rg_files r) (rg_sidecars r) (rg_fetches r) (rg_tick r).
Definition set_blob (v : list Blob) (r : Reg) : Reg :=
  mkReg (rg_manifest r) v (rg_tag r) (rg_upload r) (rg_audit r) (rg_upstream r) (rg_tmp r) (rg_files r) (rg_sidecars r) (rg_fetches r) (rg_tick r).
Definition set_tag (v : list TagRow) (r : Reg) : Reg :=
  mkReg (rg_manifest r) (rg_blob r) v (rg_upload r) (rg_audit r) (rg_upstream r) (rg_tmp r) (rg_files r) (rg_sidecars r) (rg_fetches r) (rg_tick r).
Definition set_upload (v : list PendingUploadRow) (r : Reg) : Reg :=
  mkReg (rg_manifest r) (rg_blob r) (rg_tag r) v (rg_audit r) (rg_upstream r) (rg_tmp r) (rg_files r) (rg_sidecars r) (rg_fetches r) (rg_tick r).
Definition set_audit (v : list RegistryAuditEntry) (r : Reg) : Reg :=
  mkReg (rg_manifest r) (rg_blob r) (rg_tag r) (rg_upload r) v (rg_upstream r) (rg_tmp r) (rg_files r) (rg_sidecars r) (rg_fetches r) (rg_tick r).
Definition set_upstream (v : list VirtualUpstream) (r : Reg) : Reg :=
  mkReg (rg_manifest r) (rg_blob r) (rg_tag r) (rg_upload r) (rg_audit r) v (rg_tmp r) (rg_files r) (rg_sidecars r) (rg_fetches r) (rg_tick r).
Definition set_tmp (v : gmap string string) (r : Reg) : Reg :=
  mkReg (rg_manifest r) (rg_blob r) (rg_tag r) (rg_upload r) (rg_audit r) (rg_upstream r) v (rg_files r) (rg_sidecars r) (rg_fetches r) (rg_tick r).
Definition set_files (v : gmap string string) (r : Reg) : Reg :=
  mkReg (rg_manifest r) (rg_blob r) (rg_tag r) (rg_upload r) (rg_audit r) (rg_upstream r) (rg_tmp r) v (rg_sidecars r) (rg_fetches r) (rg_tick r).
Definition set_sidecars (v : gmap string Sidecar) (r : Reg) : Reg :=
  mkReg (rg_manifest r) (rg_blob r) (rg_tag r) (rg_upload r) (rg_audit r) (rg_upstream r) (rg_tmp r) (rg_files r) v (rg_fetches r) (rg_tick r).
Definition set_fetches (v : list string) (r : Reg) : Reg :=
  mkReg (rg_manifest r) (rg_blob r) (rg_tag r) (rg_upload r) (rg_audit r) (rg_upstream r) (rg_tmp r) (rg_files r) (rg_sidecars r) v (rg_tick r).
Definition set_tick (v : nat) (r : Reg) : Reg :=
  mkReg (rg_manifest r) (rg_blob r) (rg_tag r) (rg_upload r) (rg_audit r) (rg_upstream r) (rg_tmp r) (rg_files r) (rg_sidecars r) (rg_fetches r) v.

(** ** Programs *)

Definition RM (A : Type) : Type := Reg → RRes A * Reg.

#[export] Instance RM_ret : MRet RM := λ A a s, (inr a, s).
#[export] Instance RM_bind : MBind RM := λ A B k m s,
  match m s with (inr a, s') => k a s' | (inl e, s') => (inl e, s') end.

Definition rthrow {A} (e : RErr) : RM A := λ s, (inl e, s).
Definition rlift {A} (r : RRes A) : RM A := λ s, (r, s).
Definition rget {A} (f : Reg → A) : RM A := λ s, (inr (f s), s).
Definition rput (f : Reg → Reg) : RM unit := λ s, (inr (), f s).
Definition rcatch {A} (m : RM A) (h : RErr → RM A) : RM A := λ s,
  match m s with (inr a, s') => (inr a, s') | (inl e, s') => h e s' end.

(** How a file operation goes: well, or badly after so many bytes. *)
Inductive Io := Io_ok | Io_fail (written : nat) (message : string).

Class RegHost := {
  (** The SHA-256 of some bytes, in lowercase hex. *)
  sha256 : string → string;
  (** The n-th reading of the clock, random identifier, audit identifier, and the
      outcome of the n-th file operation. *)
  reg_clock : nat → Z;
  random_id : nat → string;
  audit_id : nat → string;
  io : nat → Io;
  (** The message of a missing file. *)
  enoent : string → string;
  (** The message of JSON.parse on a sidecar that was cut off. *)
  torn_json : string;
  (** [stat.mtime] of a blob file, as text. *)
  mtime : string → string
}.

Section effects.
Context `{RegHost}.

Definition tick : RM nat := λ s, (inr (rg_tick s), set_tick (S (rg_tick s)) s).

Definition reg_now : RM Z := n ← tick; mret (reg_clock n).
Definition reg_nowIso : RM string := t ← reg_now; mret (toISOString t).

(** A file operation without bytes to write. *)
Definition file_op : RM unit :=
  n ← tick; match io n with Io_ok => mret () | Io_fail _ m => rthrow (PlainError m) end.
End effects.

(** ** Validators (types.ts) *)

Definition is_lower_hex (c : ascii) : bool := is_digit c || existsb (λ d, is_char d c) ["a"; "b"; "c"; "d"; "e"; "f"]%char.
Definition is_hex_of (n : nat) (s : string) : bool := (String.length s =? n)%nat && all_chars is_lower_hex s.

Definition truncateForError (s : string) : string :=
  if (String.length s <=? 64)%nat then s else str_take 64 s +:+ "...".

Definition validateSha256 (sha : string) : RRes unit :=
  if negb (is_hex_of 64 sha) then inl (RegistryError BAD_SHA256 ("invalid sha256: " +:+ truncateForError sha)) else inr ().

Definition is_lower_alnum (c : ascii) : bool := is_lower c || is_digit c.
Definition is_name_char (c : ascii) : bool := is_lower_alnum c || existsb (λ d, is_char d c) ["."; "_"; "-"]%char.

(** The last character, and what is before it. *)
Fixpoint unsnoc_string (s : string) : option (string * ascii) :=
  match s with
  | EmptyString => None
  | String c s' => match unsnoc_string s' with None => Some ("", c) | Some (i, l) => Some (String c i, l) end
  end.

(** [[a-z0-9](?:<mid>{0,max}[a-z0-9])?]: one character, or two ends with at most
    [max] characters between them. *)
Definition bracketed (mid : ascii → bool) (max : nat) (s : string) : bool :=
  match s with
  | EmptyString => false
  | String c s' =>
    is_lower_alnum c &&
    match unsnoc_string s' with
    | None => true
    | Some (m, l) => is_lower_alnum l && all_chars mid m && (String.length m <=? max)%nat
    end
  end.

(** NAME_RE: a scoped name, or a plain one. *)
Definition matches_NAME_RE (s : string) : bool :=
  (match s with
   | String "@"%char rest =>
     let (scope, tail) := span (λ c, negb (is_char "/" c)) rest in
     match scope, tail with
     | String c scope', String _ name =>
       is_lower_alnum c && all_chars is_name_char scope' && (String.length scope' <=? 62)%nat
       && (2 <=? String.length name)%nat
       && bracketed (λ c, is_name_char c || is_char "/" c) 189 name
     | _, _ => false
     end
   | _ => false
   end)
  || bracketed (λ c, is_name_char c || is_char "/" c || is_char "@" c) 253 s.

Definition validateManifestName (name : string) : RRes unit :=
  if negb (matches_NAME_RE name) then inl (RegistryError BAD_NAME ("invalid manifest name: " +:+ truncateForError name))
  else if str_includes name ".." then
    inl (RegistryError BAD_NAME ("manifest name must not contain '..': " +:+ truncateForError name))
  else inr ().

Definition version_char (c : ascii) : bool :=
  let n := Ascii.nat_of_ascii c in negb ((n <=? 32)%nat || (n =? 127)%nat || is_char "/" c).

Definition validateManifestVersion (version : string) : RRes unit :=
  if (String.length version =? 0)%nat || (255 <? String.length version)%nat then
    inl (RegistryError BAD_VERSION ("invalid manifest version length: " +:+ truncateForError version))
  else if negb (all_chars version_char version) then
    inl (RegistryError BAD_VERSION ("invalid manifest version: " +:+ truncateForError version))
  else if str_includes version ".." then
    inl (RegistryError BAD_VERSION ("manifest version must not contain '..': " +:+ truncateForError version))
  else inr ().

(** ** The catalog (storage/sqlite-index.ts) *)

Definition rowToManifest (row : ManifestRow) : Manifest :=
  mkManifest (mr_name row) (mr_version row) (mr_media_type row)
    (if bool_decide (mr_kind row = MK_generic) then None else Some (mr_kind row))
    (mr_blobs row) (mr_annotations row)
    (match truthy (mr_signature_b64 row), truthy (mr_signed_by row) with
     | Some b, Some k => Some (mkManifestSignature b k)
     | _, _ => None
     end)
    (mr_oci_metadata row) (mr_other_metadata row) (mr_created_at row).

Definition is_row (name version : string) (r : ManifestRow) : bool := (mr_name r =?s name) && (mr_version r =?s version).

Section index.
Context `{RegHost}.

Definition fetchRow (name version : string) : RM (option ManifestRow) :=
  rget (λ s, find_first (is_row name version) (rg_manifest s)).

Definition putManifest (input : Manifest) (canonicalBytes : string) (explicitProvenance : option Provenance) : RM Manifest :=
  rlift (validateManifestName (mf_name input));;
  rlift (validateManifestVersion (mf_version input));;
  if (String.length (mf_mediaType input) =? 0)%nat then
    rthrow (RegistryError BAD_MANIFEST "manifest mediaType must not be empty")
  else
    existing ← fetchRow (mf_name input) (mf_version input);
    match existing with
    | Some row =>
      if mr_canonical_bytes row =?s canonicalBytes then mret (rowToManifest row)
      else rthrow (RegistryError MANIFEST_EXISTS
        ("manifest " +:+ mf_name input +:+ "@" +:+ mf_version input +:+ " already exists with different content"))
    | None =>
      createdAt ← (if mf_createdAt input =?s "" then reg_nowIso else mret (mf_createdAt input));
      let provenance := explicitProvenance ?? mkProvenance PS_manifest_create None createdAt None None in
      rput (λ s, set_manifest (rg_manifest s ++
        [mkManifestRow (mf_name input) (mf_version input) (mf_mediaType input) (mf_blobs input) (mf_annotations input)
           (option_map ms_signatureB64 (mf_signature input)) (option_map ms_signedBy (mf_signature input))
           canonicalBytes createdAt (mf_kind input ?? MK_generic) (Some provenance)
           (mf_ociMetadata input) (mf_otherMetadata input)]) s);;
      mret (mkManifest (mf_name input) (mf_version input) (mf_mediaType input) (mf_kind input) (mf_blobs input)
        (mf_annotations input) (mf_signature input) (mf_ociMetadata input) (mf_otherMetadata input) createdAt)
    end.

Definition getProvenance (name version : string) : RM (option Provenance) :=
  rlift (validateManifestName name);; rlift (validateManifestVersion version);;
  row ← fetchRow name version; mret (row ≫= mr_provenance).

Definition getManifest (name version : string) : RM (option Manifest) :=
  rlift (validateManifestName name);; rlift (validateManifestVersion version);;
  row ← fetchRow name version; mret (option_map rowToManifest row).

Definition getCanonicalBytes (name version : string) : RM (option string) :=
  rlift (validateManifestName name);; rlift (validateManifestVersion version);;
  row ← fetchRow name version; mret (option_map mr_canonical_bytes row).

Definition listManifestVersions (name : string) : RM (list ListedManifest) :=
  rlift (validateManifestName name);;
  rget (λ s, map (λ r, mkListedManifest (mr_name r) (mr_version r) (mr_media_type r) (mr_kind r) (mr_created_at r)
                         (negb (is_null (mr_signature_b64 r))))
               (order_desc mr_created_at (select (λ r, mr_name r =?s name) (rg_manifest s)))).

Definition deleteManifest (name version : string) : RM unit :=
  rlift (validateManifestName name);; rlift (validateManifestVersion version);;
  rput (λ s, set_manifest (select (λ r, negb (is_row name version r)) (rg_manifest s)) s).

Definition appendAuditEntry (action : AuditAction) (entityType : AuditEntityType) (entityId actor : string)
    (detail : option json_object) : RM RegistryAuditEntry :=
  n ← tick;
  createdAt ← reg_nowIso;
  let entry := mkRegistryAuditEntry (audit_id n) action entityType entityId actor detail createdAt in
  used ← rget (λ s, existsb (λ e, ra_id e =?s audit_id n) (rg_audit s));
  if used : bool then rthrow (PlainError "UNIQUE constraint failed: registry_audit_log.id")
  else rput (λ s, set_audit (rg_audit s ++ [entry]) s);; mret entry.

(** The filters of the audit query; an empty text is no filter. *)
Definition audit_matches (action : option AuditAction) (entityType : option AuditEntityType)
    (entityId actor since : option string) (e : RegistryAuditEntry) : bool :=
  (match action with Some a => bool_decide (ra_action e = a) | None => true end)
  && (match entityType with Some t => bool_decide (ra_entityType e = t) | None => true end)
  && (match truthy entityId with Some i => ra_entityId e =?s i | None => true end)
  && (match truthy actor with Some a => ra_actor e =?s a | None => true end)
  && (match truthy since with Some t => str_leb t (ra_createdAt e) | None => true end).

Definition listAuditEntries (action : option AuditAction) (entityType : option AuditEntityType)
    (entityId actor since : option string) (limit : option Z) : RM (list RegistryAuditEntry) :=
  rget (λ s, sql_limit (limit ?? 200)
    (order_desc ra_createdAt (select (audit_matches action entityType entityId actor since) (rg_audit s)))).

(** [ON CONFLICT(sha256) DO NOTHING]; the CHECK of the table refuses a negative size. *)
Definition recordBlob (blob : Blob) : RM unit := λ s,
  if bl_size blob <? 0 then (inl (PlainError "CHECK constraint failed: size >= 0"), s)
  else if existsb (λ b, bl_sha256 b =?s bl_sha256 blob) (rg_blob s) then (inr (), s)
  else (inr (), set_blob (rg_blob s ++ [blob]) s).

Definition getBlobRecord (sha : string) : RM (option Blob) :=
  rget (λ s, find_first (λ b, bl_sha256 b =?s sha) (rg_blob s)).

(** ** The blob files (storage/local-fs.ts) *)

(** [fileExists]: an operation that fails says no. *)
Definition fileExists (sha : string) : RM bool :=
  rcatch (file_op;; rget (λ s, negb (is_null (rg_files s !! sha)))) (λ _, mret false).

Definition readSidecar (sha : string) : RM (option SidecarMetadata) :=
  file_op;;
  text ← rget (λ s, rg_sidecars s !! sha);
  match text with
  | None => mret None
  | Some (SC_json meta) => mret (Some meta)
  | Some SC_torn => rthrow (PlainError torn_json)
  end.

Definition getBlob (sha : string) : RM string :=
  rlift (validateSha256 sha);;
  there ← fileExists sha;
  if negb (there : bool) then rthrow (RegistryError BLOB_NOT_FOUND ("blob not found: " +:+ sha))
  else
    file_op;;
    content ← rget (λ s, rg_files s !! sha);
    match content with Some c => mret c | None => rthrow (PlainError (enoent sha)) end.

Definition fs_statBlob (sha : string) : RM (option Blob) :=
  rlift (validateSha256 sha);;
  there ← fileExists sha;
  if negb (there : bool) then mret None
  else
    meta ← readSidecar sha;
    match meta with
    | Some m => mret (Some (mkBlob sha (sd_size m) (sd_contentType m) (sd_createdAt m)))
    | None =>
      file_op;;
      content ← rget (λ s, rg_files s !! sha);
      match content with
      | Some c => mret (Some (mkBlob sha (Z.of_nat (String.length c)) None (mtime sha)))
      | None => rthrow (PlainError (enoent sha))
      end
    end.

(** [unlink(…).catch(() => undefined)]. *)
Definition unlink_quietly (drop : Reg → Reg) : RM unit := rcatch (file_op;; rput drop) (λ _, mret ()).

Definition deleteBlob (sha : string) : RM unit :=
  rlift (validateSha256 sha);;
  unlink_quietly (λ s, set_files (delete sha (rg_files s)) s);;
  unlink_quietly (λ s, set_sidecars (delete sha (rg_sidecars s)) s).

(** Writing the sidecar; a write that fails may leave a part of it. *)
Definition writeSidecar (sha : string) (meta : SidecarMetadata) : RM unit :=
  n ← tick;
  match io n with
  | Io_ok => rput (λ s, set_sidecars (<[sha := SC_json meta]> (rg_sidecars s)) s)
  | Io_fail O m => rthrow (PlainError m)
  | Io_fail (S _) m => rput (λ s, set_sidecars (<[sha := SC_torn]> (rg_sidecars s)) s);; rthrow (PlainError m)
  end.

(** The temporary file of putBlob is under a name nobody else reads: the body
    becomes visible when it is renamed. *)
Definition fs_putBlob (body : string) (contentType : option string) : RM Blob :=
  file_op;;                                                   (* mkdir blobs *)
  file_op;;                                                   (* the pipeline into the temporary file *)
  let sha := sha256 body in
  rlift (validateSha256 sha);;
  file_op;;                                                   (* mkdir blobs/<xx> *)
  existing ← readSidecar sha;
  match existing with
  | Some m => unlink_quietly (λ s, s);; mret (mkBlob sha (sd_size m) (sd_contentType m) (sd_createdAt m))
  | None =>
    file_op;;
    rput (λ s, set_files (<[sha := body]> (rg_files s)) s);;  (* rename *)
    createdAt ← reg_nowIso;
    let meta := mkSidecarMetadata createdAt (Z.of_nat (String.length body)) (truthy contentType) in
    writeSidecar sha meta;;
    mret (mkBlob sha (sd_size meta) (sd_contentType meta) createdAt)
  end.

(** ** The storage (storage/registry-storage.ts) *)

Definition storage_putBlob (body : string) (contentType : option string) : RM Blob :=
  stored ← fs_putBlob body contentType; recordBlob stored;; mret stored.

Definition statBlob (sha : string) : RM (option Blob) :=
  row ← getBlobRecord sha;
  match row with Some b => mret (Some b) | None => fs_statBlob sha end.

(** *** Virtual upstreams *)

(** [/^https?:\/\//i] *)
Definition is_http_url (url : string) : bool := starts_with "http://" (lower url) || starts_with "https://" (lower url).

Definition is_upstream (org : string) (kind : VirtualUpstreamKind) (url : string) (u : VirtualUpstream) : bool :=
  (vu_org u =?s org) && bool_decide (vu_kind u = kind) && (vu_upstreamUrl u =?s url).

Definition getVirtualUpstream (id : string) : RM (option VirtualUpstream) :=
  rget (λ s, find_first (λ u, vu_id u =?s id) (rg_upstream s)).

Definition addVirtualUpstream (org : string) (kind : VirtualUpstreamKind) (upstreamUrl : string)
    (config : VirtualUpstreamConfig) (enabled : option bool) : RM VirtualUpstream :=
  if negb (is_http_url upstreamUrl) then
    rthrow (RegistryError BAD_NAME ("virtual upstream URL must be http(s); got '" +:+ upstreamUrl +:+ "'"))
  else
    existing ← rget (λ s, find_first (is_upstream org kind upstreamUrl) (rg_upstream s));
    match existing with
    | Some u => mret u
    | None =>
      n ← tick;
      now ← reg_nowIso;
      let row := mkVirtualUpstream (audit_id n) org kind upstreamUrl config (enabled ?? true) now now in
      used ← rget (λ s, existsb (λ u, vu_id u =?s vu_id row) (rg_upstream s));
      if used : bool then rthrow (PlainError "UNIQUE constraint failed: virtual_upstream.id")
      else rput (λ s, set_upstream (rg_upstream s ++ [row]) s);; mret row
    end.

Definition listVirtualUpstreams (org : string) (kind : option VirtualUpstreamKind) (includeDisabled : bool)
    : RM (list VirtualUpstream) :=
  rget (λ s, order_asc vu_createdAt (select (λ u,
    (vu_org u =?s org) && (match kind with Some k => bool_decide (vu_kind u = k) | None => true end)
    && (includeDisabled || vu_enabled u)) (rg_upstream s))).

Definition removeVirtualUpstream (id : string) : RM unit :=
  rput (λ s, set_upstream (select (λ u, negb (vu_id u =?s id)) (rg_upstream s)) s).

(** *** Aggregates: groups come out in the order of their keys *)

Definition ManifestKind_name (k : ManifestKind) : string :=
  match k with
  | MK_generic => "generic" | MK_cargo => "cargo" | MK_npm => "npm" | MK_oci => "oci" | MK_pypi => "pypi"
  | MK_maven => "maven" | MK_nuget => "nuget" | MK_hf => "hf"
  end.

Definition ProvenanceSource_text (p : ProvenanceSource) : string :=
  match p with
  | PS_upload => "upload" | PS_proxy_cache => "proxy_cache" | PS_manifest_create => "manifest_create" | PS_migration => "migration"
  end.

Definition kind_and_source (r : ManifestRow) : string * string :=
  (ManifestKind_name (mr_kind r), match mr_provenance r with Some p => ProvenanceSource_text (pv_source p) | None => "unknown" end).

Definition count_where {R} (p : R → bool) (l : list R) : Z := Z.of_nat (length (select p l)).

Definition manifestCountsByKindAndSource : RM (list (string * string * Z)) :=
  rget (λ s, map (λ g, (g, count_where (λ r, bool_decide (kind_and_source r = g)) (rg_manifest s)))
    (order_asc fst (order_asc snd (remove_dups (map kind_and_source (rg_manifest s)))))).

(** The upstream a row came from, when it came from one. *)
Definition upstream_of (r : ManifestRow) : option string :=
  match mr_provenance r with
  | Some p => if bool_decide (ProvenanceSource_text (pv_source p) = "proxy_cache") then truthy (pv_upstreamUrl p) else None
  | None => None
  end.

Definition artifactsByUpstream : RM (list (string * Z)) :=
  rget (λ s, order_by (λ a b, b.2 <=? a.2)
    (map (λ u, (u, count_where (λ r, bool_decide (upstream_of r = Some u)) (rg_manifest s)))
       (order_asc id (remove_dups (omap upstream_of (rg_manifest s)))))).
End index.
