(* ===== verification/Oci.v ===== *)
(** The OCI facade of the registry, below its routes: media types and errors
    (oci/types.ts, oci/errors.ts), response helpers and Content-Range
    (oci/http.ts), names, tags and digests (oci/paths.ts), the parsers of
    manifests (oci/guards.ts), upload sessions (oci/upload-store.ts,
    oci/upload-fs.ts), tags (oci/tag-store.ts) and the reaper (oci/reaper.ts). *)

From stdpp Require Import gmap strings.
From S2P Require Import Prelude JsTime JsVal Signing Build BuildYaml Registry.

(** ** Media types and errors *)

Definition OCI_MANIFEST_V1 : string := "application/vnd.oci.image.manifest.v1+json".
Definition OCI_INDEX_V1 : string := "application/vnd.oci.image.index.v1+json".
Definition DOCKER_MANIFEST_V2_2 : string := "application/vnd.docker.distribution.manifest.v2+json".
Definition DOCKER_MANIFEST_LIST_V2_2 : string := "application/vnd.docker.distribution.manifest.list.v2+json".

Definition SINGLE_MANIFEST_MEDIA_TYPES : list string := [OCI_MANIFEST_V1; DOCKER_MANIFEST_V2_2].
Definition INDEX_MEDIA_TYPES : list string := [OCI_INDEX_V1; DOCKER_MANIFEST_LIST_V2_2].

Definition has_type (types : list string) (t : string) : bool := existsb (λ x, x =?s t) types.

Definition ociErrorStatus (code : OciErrorCode) : Z :=
  match code with
  | UNAUTHORIZED => 401
  | DENIED => 403
  | NAME_UNKNOWN | MANIFEST_UNKNOWN | BLOB_UNKNOWN | BLOB_UPLOAD_UNKNOWN => 404
  | UNSUPPORTED => 405
  | BLOB_UPLOAD_INVALID => 416
  | TOOMANYREQUESTS => 429
  | NAME_INVALID | DIGEST_INVALID | MANIFEST_INVALID | MANIFEST_BLOB_UNKNOWN | SIZE_INVALID => 400
  end.

Definition oci_throw {A} (code : OciErrorCode) (message : string) : RRes A := inl (OciError code message None).

(** ** Responses (oci/http.ts) *)

Inductive OciBody :=
| OB_empty
| OB_error (code : OciErrorCode) (message : string) (detail : option json)
| OB_bytes (content : string)
| OB_repositories (names : list string)
| OB_tags (name : string) (tags : list string)
| OB_too_large.

Record OciResponse := mkOciResponse {
  or_status : Z;
  or_headers : list (string * string);
  or_body : OciBody
}.

Definition asOciError (err : RErr) : OciErrorCode * string * option json :=
  match err with
  | OciError code m d => (code, m, d)
  | err => (UNSUPPORTED, "internal: " +:+ rerr_message err, None)
  end.

Definition writeOciError (err : RErr) : OciResponse :=
  let '(code, m, d) := asOciError err in
  mkOciResponse (ociErrorStatus code) [("content-type", "application/json; charset=utf-8")] (OB_error code m d).

Record ContentRange := mkContentRange { cr_start : Z; cr_end : Z }.

(** [Number(m)] of digits, where it is a safe integer. *)
Fixpoint decimal_value (acc : Z) (s : string) : Z :=
  match s with
  | EmptyString => acc
  | String c s' => decimal_value (10 * acc + (Z.of_nat (Ascii.nat_of_ascii c) - 48)) s'
  end.
Definition MAX_SAFE_INTEGER : Z := 9007199254740991.

Definition parseContentRange (value : option string) : RRes ContentRange :=
  match truthy value with
  | None => oci_throw BLOB_UPLOAD_INVALID "Content-Range header is required for chunked PATCH"
  | Some v =>
    let malformed := oci_throw BLOB_UPLOAD_INVALID
      ("Content-Range '" +:+ v +:+ "' does not match the OCI grammar '<start>-<end>'") in
    match span is_digit v with
    | (String a start, String "-"%char (String b finish)) =>
      if negb (all_chars is_digit (String b finish)) then malformed
      else
        let start := decimal_value 0 (String a start) in
        let finish := decimal_value 0 (String b finish) in
        if (MAX_SAFE_INTEGER <? start) || (MAX_SAFE_INTEGER <? finish) then
          oci_throw BLOB_UPLOAD_INVALID ("Content-Range '" +:+ v +:+ "' contains unsafe integers")
        else if finish <? start then oci_throw BLOB_UPLOAD_INVALID ("Content-Range '" +:+ v +:+ "' has end < start")
        else inr (mkContentRange start finish)
    | _ => malformed
    end
  end.

Definition contentRangeLength (range : ContentRange) : Z := cr_end range - cr_start range + 1.

Definition range_header (bytesReceived : Z) : string :=
  if bytesReceived =? 0 then "0-0" else "0-" +:+ show_Z (bytesReceived - 1).

Definition writeUploadAccepted (location uploadId : string) (bytesReceived : Z) : OciResponse :=
  mkOciResponse 202 [("Location", location); ("Docker-Upload-UUID", uploadId); ("Range", range_header bytesReceived);
                     ("content-length", "0")] OB_empty.

Definition writeBlobCreated (location digest : string) : OciResponse :=
  mkOciResponse 201 [("Location", location); ("Docker-Content-Digest", digest); ("content-length", "0")] OB_empty.

(** ** Names, tags and digests (oci/paths.ts) *)

Definition oci_truncate (s : string) : string := if (64 <? String.length s)%nat then str_take 64 s +:+ "..." else s.

(** OCI_NAME_COMPONENT as an automaton: runs of lowercase letters and digits,
    separated by a dot, one or two underscores, or hyphens. *)
Inductive NameState := NS_start | NS_run | NS_dot | NS_under | NS_under2 | NS_hyphen.

Definition name_step (st : NameState) (c : ascii) : option NameState :=
  if is_lower_alnum c then Some NS_run
  else match st with
  | NS_run => if is_char "." c then Some NS_dot else if is_char "_" c then Some NS_under
              else if is_char "-" c then Some NS_hyphen else None
  | NS_under => if is_char "_" c then Some NS_under2 else None
  | NS_hyphen => if is_char "-" c then Some NS_hyphen else None
  | NS_start | NS_dot | NS_under2 => None
  end.

Fixpoint name_accepts (st : NameState) (s : string) : bool :=
  match s with
  | EmptyString => match st with NS_run => true | _ => false end
  | String c s' => match name_step st c with Some st' => name_accepts st' s' | None => false end
  end.
Definition is_name_component (s : string) : bool := name_accepts NS_start s.

(** [s.split(sep)] for a separator of one character. *)
Fixpoint split_on (sep : ascii) (s : string) : list string :=
  match s with
  | EmptyString => [""]
  | String c s' =>
    if is_char sep c then "" :: split_on sep s'
    else match split_on sep s' with seg :: rest => String c seg :: rest | [] => [String c ""] end
  end.

Definition MAX_REPOSITORY_NAME_LENGTH : nat := 255.

Fixpoint check_segments (segs : list string) : RRes unit :=
  match segs with
  | [] => inr ()
  | seg :: segs' =>
    if negb (is_name_component seg) then
      oci_throw NAME_INVALID ("invalid repository name segment '" +:+ oci_truncate seg +:+ "'")
    else check_segments segs'
  end.

Definition validateOciRepositoryName (name : string) : RRes unit :=
  if (String.length name =? 0)%nat then oci_throw NAME_INVALID "repository name must be a non-empty string"
  else if (MAX_REPOSITORY_NAME_LENGTH <? String.length name)%nat then
    oci_throw NAME_INVALID ("repository name length " +:+ show_Z (Z.of_nat (String.length name)) +:+ " exceeds max "
      +:+ show_Z (Z.of_nat MAX_REPOSITORY_NAME_LENGTH))
  else check_segments (split_on "/" name).

Definition is_tag_start (c : ascii) : bool := is_letter c || is_digit c || is_char "_" c.
Definition is_tag_char (c : ascii) : bool := is_tag_start c || is_char "." c || is_char "-" c.

Definition is_tag (s : string) : bool :=
  match s with
  | EmptyString => false
  | String c s' => is_tag_start c && all_chars is_tag_char s' && (String.length s' <=? 127)%nat
  end.

Definition validateOciTag (tag : string) : RRes unit :=
  if negb (is_tag tag) then oci_throw MANIFEST_INVALID ("invalid tag '" +:+ oci_truncate tag +:+ "'") else inr ().

Definition SHA256_PREFIX : string := "sha256:".
Definition is_digest (s : string) : bool := starts_with SHA256_PREFIX s && is_hex_of 64 (str_drop 7 s).

Definition validateOciDigest (digest : string) : RRes string :=
  if negb (is_digest digest) then oci_throw DIGEST_INVALID ("invalid digest '" +:+ oci_truncate digest +:+ "'")
  else inr (str_drop 7 digest).

Inductive OciReference := Ref_tag (value : string) | Ref_digest (value hex : string).

Definition ref_value (r : OciReference) : string := match r with Ref_tag v | Ref_digest v _ => v end.

Definition parseOciReference (s : string) : RRes OciReference :=
  if (String.length s =? 0)%nat then oci_throw MANIFEST_INVALID "manifest reference must be a non-empty string"
  else if starts_with SHA256_PREFIX s then hex ← validateOciDigest s; inr (Ref_digest s hex)
  else validateOciTag s ≫= λ _, inr (Ref_tag s).

(** cargo/paths.ts: the name of an organisation. *)
Definition cargo_truncate (s : string) : string := if (String.length s <=? 80)%nat then s else str_take 80 s +:+ "...".
Definition validateCargoOrgName (org : string) : RRes unit :=
  if negb (bracketed (λ c, is_lower_alnum c || is_char "_" c || is_char "-" c) 62 org) then
    inl (RegistryError BAD_NAME ("invalid org name (must match [a-z0-9](?:[a-z0-9_-]{0,62}[a-z0-9])?): " +:+ cargo_truncate org))
  else inr ().

Definition OCI_PREFIX : string := "oci/".

Definition ociManifestName (org repo : string) : RRes string :=
  validateCargoOrgName org ≫= λ _, validateOciRepositoryName repo ≫= λ _, inr (OCI_PREFIX +:+ org +:+ "/" +:+ repo).

Definition parseOciManifestName (storageName : string) : option (string * string) :=
  if negb (starts_with OCI_PREFIX storageName) then None
  else
    let '(org, tail) := span (λ c, negb (is_char "/" c)) (str_drop 4 storageName) in
    match org, tail with
    | EmptyString, _ | _, EmptyString => None
    | _, String _ EmptyString => None
    | _, String _ repo => Some (org, repo)
    end.

Record ParsedRepository := mkParsedRepository { rp_org : string; rp_repo : string; rp_storageName : string }.

(** parseRepositoryParam, the same in blobs.ts, manifests.ts and catalog.ts. *)
Definition parseRepositoryParam (rawName : string) : RRes ParsedRepository :=
  if (String.length rawName =? 0)%nat then oci_throw NAME_INVALID "<name> path parameter is required"
  else
    let '(org, tail) := span (λ c, negb (is_char "/" c)) rawName in
    match org, tail with
    | EmptyString, _ | _, EmptyString | _, String _ EmptyString =>
      oci_throw NAME_INVALID "<name> must include both an org and a repository segment"
    | _, String _ repo =>
      validateOciRepositoryName rawName ≫= λ _,
      storageName ← ociManifestName org repo;
      inr (mkParsedRepository org repo storageName)
    end.

(** ** Manifests (oci/guards.ts) *)

Record OciPlatform := mkOciPlatform {
  op_architecture : string;
  op_os : string;
  op_os_version : option string;
  op_os_features : option (list string);
  op_variant : option string;
  op_features : option (list string)
}.

Record OciDescriptor := mkOciDescriptor {
  od_mediaType : string;
  od_digest : string;
  od_size : jsnum;
  od_annotations : option (list (string * string));
  od_urls : option (list string);
  od_platform : option OciPlatform;
  od_artifactType : option string
}.

Record OciManifest := mkOciManifest {
  oma_mediaType : string;
  oma_config : OciDescriptor;
  oma_layers : list OciDescriptor;
  oma_annotations : option (list (string * string));
  oma_subject : option OciDescriptor;
  oma_artifactType : option string
}.

Record OciIndex := mkOciIndex {
  oi_mediaType : string;
  oi_manifests : list OciDescriptor;
  oi_annotations : option (list (string * string));
  oi_subject : option OciDescriptor;
  oi_artifactType : option string
}.

Inductive ParsedManifest := PM_manifest (value : OciManifest) | PM_index (value : OciIndex).

Definition pm_mediaType (p : ParsedManifest) : string :=
  match p with PM_manifest m => oma_mediaType m | PM_index i => oi_mediaType i end.

Section guards.
Context `{JsEngine}.

(** [typeof v === "string" && v.length > 0]. *)
Definition required_text (v : option json) (code : OciErrorCode) (message : string) : RRes string :=
  match v with
  | Some (JStr (String c s)) => inr (String c s)
  | _ => oci_throw code message
  end.

(** A field that may be left out, read by [p] when it is there. *)
Definition optional {A} (v : option json) (p : json → RRes A) : RRes (option A) :=
  match v with None => inr None | Some x => a ← p x; inr (Some a) end.

Definition text_or (message : string) (v : json) : RRes string :=
  match v with JStr s => inr s | _ => oci_throw MANIFEST_INVALID message end.

(** The elements of an array of texts, from index [i] on. *)
Fixpoint texts_from (context : string) (i : nat) (l : list json) : RRes (list string) :=
  match l with
  | [] => inr []
  | JStr s :: l' => rest ← texts_from context (S i) l'; inr (s :: rest)
  | _ :: _ => oci_throw MANIFEST_INVALID (context +:+ "[" +:+ show_Z (Z.of_nat i) +:+ "] must be a string")
  end.

Definition text_array (context notArray : string) (v : json) : RRes (list string) :=
  match v with
  | JArr l => texts_from context 0 l
  | _ => oci_throw MANIFEST_INVALID notArray
  end.

(** An assignment to the key __proto__ with a text does nothing. *)
Fixpoint annotations_from (context : string) (o : json_object) : RRes (list (string * string)) :=
  match o with
  | [] => inr []
  | (k, JStr v) :: o' =>
    rest ← annotations_from context o'; inr (if k =?s "__proto__" then rest else (k, v) :: rest)
  | (k, _) :: _ => oci_throw MANIFEST_INVALID (context +:+ "[" +:+ json_quote k +:+ "] must be a string")
  end.

Definition parseAnnotations (context : string) (value : json) : RRes (list (string * string)) :=
  match value with
  | JObj o => annotations_from context o
  | _ => oci_throw MANIFEST_INVALID (context +:+ " must be an object")
  end.

Definition parsePlatform (context : string) (value : json) : RRes OciPlatform :=
  match value with
  | JObj o =>
    architecture ← required_text (get_prop "architecture" o) MANIFEST_INVALID
      (context +:+ ".architecture must be a non-empty string");
    os ← required_text (get_prop "os" o) MANIFEST_INVALID (context +:+ ".os must be a non-empty string");
    os_version ← optional (get_prop "os.version" o) (text_or (context +:+ "['os.version'] must be a string"));
    os_features ← optional (get_prop "os.features" o)
      (text_array (context +:+ "['os.features']") (context +:+ "['os.features'] must be an array"));
    variant ← optional (get_prop "variant" o) (text_or (context +:+ ".variant must be a string"));
    features ← optional (get_prop "features" o)
      (text_array (context +:+ ".features") (context +:+ ".features must be an array"));
    inr (mkOciPlatform architecture os os_version os_features variant features)
  | _ => oci_throw MANIFEST_INVALID (context +:+ " must be an object")
  end.

(** [Number.isInteger(n) && n >= 0 && Number.isSafeInteger(n)]. *)
Definition is_size (n : jsnum) : bool :=
  num_isInteger n && (0 <=? num_floor n) && (num_floor n <=? MAX_SAFE_INTEGER).

Definition parse_size (context : string) (v : option json) : RRes jsnum :=
  match v with
  | Some (JNum n) =>
    if is_size n then inr n else oci_throw SIZE_INVALID (context +:+ ".size must be a non-negative integer")
  | _ => oci_throw SIZE_INVALID (context +:+ ".size must be a non-negative integer")
  end.

Definition parse_digest (context : string) (v : option json) : RRes string :=
  match v with
  | Some (JStr d) =>
    if is_digest d then inr d else oci_throw DIGEST_INVALID (context +:+ ".digest must be 'sha256:<64-hex-lowercase>'")
  | _ => oci_throw DIGEST_INVALID (context +:+ ".digest must be 'sha256:<64-hex-lowercase>'")
  end.

Definition parseDescriptor (context : string) (value : json) : RRes OciDescriptor :=
  match value with
  | JObj o =>
    mediaType ← required_text (get_prop "mediaType" o) MANIFEST_INVALID (context +:+ ".mediaType must be a non-empty string");
    digest ← parse_digest context (get_prop "digest" o);
    size ← parse_size context (get_prop "size" o);
    annotations ← optional (get_prop "annotations" o) (parseAnnotations (context +:+ ".annotations"));
    urls ← optional (get_prop "urls" o) (text_array (context +:+ ".urls") (context +:+ ".urls must be an array when present"));
    platform ← optional (get_prop "platform" o) (parsePlatform (context +:+ ".platform"));
    artifactType ← optional (get_prop "artifactType" o) (text_or (context +:+ ".artifactType must be a string"));
    inr (mkOciDescriptor mediaType digest size annotations urls platform artifactType)
  | _ => oci_throw MANIFEST_INVALID (context +:+ " must be an object")
  end.

Fixpoint descriptors_from (field : string) (i : nat) (l : list json) : RRes (list OciDescriptor) :=
  match l with
  | [] => inr []
  | v :: l' =>
    d ← parseDescriptor (field +:+ "[" +:+ show_Z (Z.of_nat i) +:+ "]") v;
    rest ← descriptors_from field (S i) l';
    inr (d :: rest)
  end.

(** [value.schemaVersion !== 2]. *)
Definition check_schema (what : string) (v : option json) : RRes unit :=
  match v with
  | Some (JNum n) => if SFeqb n (num_of_Z 2) then inr () else oci_throw MANIFEST_INVALID (what +:+ ".schemaVersion must be 2")
  | _ => oci_throw MANIFEST_INVALID (what +:+ ".schemaVersion must be 2")
  end.

Definition typed (types : list string) (v : option json) (message : string) : RRes string :=
  match v with
  | Some (JStr t) => if has_type types t then inr t else oci_throw MANIFEST_INVALID message
  | _ => oci_throw MANIFEST_INVALID message
  end.

Definition parseOciManifest (value : json) : RRes OciManifest :=
  match value with
  | JObj o =>
    check_schema "manifest" (get_prop "schemaVersion" o) ≫= λ _,
    mediaType ← typed SINGLE_MANIFEST_MEDIA_TYPES (get_prop "mediaType" o)
      ("manifest.mediaType '" +:+ shown (get_prop "mediaType" o) +:+ "' is not a recognised single-platform manifest type");
    config ← (match get_prop "config" o with
              | Some (JObj c) => parseDescriptor "config" (JObj c)
              | _ => oci_throw MANIFEST_INVALID "manifest.config is required"
              end);
    layers ← (match get_prop "layers" o with
              | Some (JArr l) => descriptors_from "layers" 0 l
              | _ => oci_throw MANIFEST_INVALID "manifest.layers must be an array"
              end);
    annotations ← optional (get_prop "annotations" o) (parseAnnotations "annotations");
    subject ← optional (get_prop "subject" o) (parseDescriptor "subject");
    artifactType ← optional (get_prop "artifactType" o) (text_or "manifest.artifactType must be a string");
    inr (mkOciManifest mediaType config layers annotations subject artifactType)
  | _ => oci_throw MANIFEST_INVALID "manifest must be a JSON object"
  end.

Definition parseOciIndex (value : json) : RRes OciIndex :=
  match value with
  | JObj o =>
    check_schema "index" (get_prop "schemaVersion" o) ≫= λ _,
    mediaType ← typed INDEX_MEDIA_TYPES (get_prop "mediaType" o)
      ("index.mediaType '" +:+ shown (get_prop "mediaType" o) +:+ "' is not a recognised index/manifest-list type");
    manifests ← (match get_prop "manifests" o with
                 | Some (JArr l) => descriptors_from "manifests" 0 l
                 | _ => oci_throw MANIFEST_INVALID "index.manifests must be an array"
                 end);
    annotations ← optional (get_prop "annotations" o) (parseAnnotations "annotations");
    subject ← optional (get_prop "subject" o) (parseDescriptor "subject");
    artifactType ← optional (get_prop "artifactType" o) (text_or "index.artifactType must be a string");
    inr (mkOciIndex mediaType manifests annotations subject artifactType)
  | _ => oci_throw MANIFEST_INVALID "index must be a JSON object"
  end.

Definition parseManifestOrIndex (value : json) : RRes ParsedManifest :=
  match value with
  | JObj o =>
    match get_prop "mediaType" o with
    | Some (JStr t) =>
      if has_type INDEX_MEDIA_TYPES t then i ← parseOciIndex value; inr (PM_index i)
      else if has_type SINGLE_MANIFEST_MEDIA_TYPES t then m ← parseOciManifest value; inr (PM_manifest m)
      else oci_throw MANIFEST_INVALID ("manifest.mediaType '" +:+ t +:+ "' is not recognised by this registry")
    | _ => oci_throw MANIFEST_INVALID "manifest.mediaType must be a string"
    end
  | _ => oci_throw MANIFEST_INVALID "manifest must be a JSON object"
  end.
End guards.

(** ** Upload sessions (oci/upload-store.ts) *)

Definition DEFAULT_UPLOAD_TTL_SECONDS : Z := 24 * 60 * 60.

Definition is_upload (id : string) (r : PendingUploadRow) : bool := pu_uploadId r =?s id.

Section uploads.
Context `{RegHost} (ttlSeconds : Z).

Definition UploadStore_create (repository actor : string) : RM PendingUploadRow :=
  n ← tick;
  let uploadId := random_id n in
  createdAt ← reg_now;
  let row := mkPendingUploadRow uploadId repository [] 0 (toISOString createdAt)
               (toISOString (createdAt + ttlSeconds * 1000)) actor in
  used ← rget (λ s, existsb (is_upload uploadId) (rg_upload s));
  if used : bool then rthrow (PlainError "UNIQUE constraint failed: pending_blob_uploads.upload_id")
  else rput (λ s, set_upload (rg_upload s ++ [row]) s);; mret row.

Definition UploadStore_get (uploadId : string) : RM (option PendingUploadRow) :=
  rget (λ s, find_first (is_upload uploadId) (rg_upload s)).

Definition appended (chunk : PendingUploadChunk) (expiresAt : string) (r : PendingUploadRow) : PendingUploadRow :=
  mkPendingUploadRow (pu_uploadId r) (pu_repository r) (pu_chunks r ++ [chunk]) (pu_bytesReceived r + pc_length chunk)
    (pu_createdAt r) expiresAt (pu_actor r).

Definition UploadStore_appendChunk (uploadId : string) (chunk : PendingUploadChunk) : RM PendingUploadRow :=
  existing ← UploadStore_get uploadId;
  match existing with
  | None => rthrow (PlainError ("pending upload " +:+ uploadId +:+ " not found"))
  | Some existing =>
    t ← reg_now;
    let row := appended chunk (toISOString (t + ttlSeconds * 1000)) existing in
    rput (λ s, set_upload (update_where (is_upload uploadId) (appended chunk (toISOString (t + ttlSeconds * 1000))) (rg_upload s)) s);;
    mret row
  end.

Definition UploadStore_delete (uploadId : string) : RM unit :=
  rput (λ s, set_upload (select (λ r, negb (is_upload uploadId r)) (rg_upload s)) s).

Definition UploadStore_listExpired (cutoff : Z) : RM (list PendingUploadRow) :=
  rget (λ s, order_asc pu_expiresAt (select (λ r, str_leb (pu_expiresAt r) (toISOString cutoff)) (rg_upload s))).

(** *** The files of sessions (oci/upload-fs.ts) *)

Definition upload_truncate (s : string) : string := if (48 <? String.length s)%nat then str_take 48 s +:+ "..." else s.

Definition validateUploadId (uploadId : string) : RRes unit :=
  if negb (is_hex_of 32 uploadId) then inl (PlainError ("invalid upload id: " +:+ upload_truncate uploadId)) else inr ().

Definition ensureDir : RM unit := file_op.

(** Opening for append makes the file; an append that fails may have written a
    part; the descriptor is closed in either case. *)
Definition UploadFs_appendBytes (uploadId bytes : string) : RM Z :=
  ensureDir;;
  rlift (validateUploadId uploadId);;
  file_op;;
  rput (λ s, set_tmp (<[uploadId := rg_tmp s !! uploadId ?? ""]> (rg_tmp s)) s);;
  n ← tick;
  let write k := rput (λ s, set_tmp (<[uploadId := (rg_tmp s !! uploadId ?? "") +:+ str_take k bytes]> (rg_tmp s)) s) in
  (match io n with
   | Io_ok => write (String.length bytes)
   | Io_fail k m => write k;; file_op;; rthrow (PlainError m)
   end);;
  file_op;;
  file_op;;
  size ← rget (λ s, option_map String.length (rg_tmp s !! uploadId));
  match size with
  | Some k => mret (Z.of_nat k)
  | None => rthrow (PlainError (enoent uploadId))
  end.

Definition UploadFs_delete (uploadId : string) : RM unit :=
  rlift (validateUploadId uploadId);;
  unlink_quietly (λ s, set_tmp (delete uploadId (rg_tmp s)) s).

Definition UploadFs_hashAssembled (uploadId : string) : RM string :=
  rlift (validateUploadId uploadId);;
  file_op;;
  content ← rget (λ s, rg_tmp s !! uploadId);
  match content with Some c => mret (sha256 c) | None => rthrow (PlainError (enoent uploadId)) end.

Definition UploadFs_promoteToBlob (uploadId sha : string) (contentType : option string) : RM Z :=
  rlift (validateUploadId uploadId);;
  rlift (validateSha256 sha);;
  file_op;;                                                  (* mkdir *)
  file_op;;                                                  (* readFile of the sidecar *)
  existing ← rget (λ s, rg_sidecars s !! sha);
  match existing with
  | Some (SC_json meta) => unlink_quietly (λ s, set_tmp (delete uploadId (rg_tmp s)) s);; mret (sd_size meta)
  | Some SC_torn => rthrow (PlainError torn_json)
  | None =>
    file_op;;                                                (* stat *)
    content ← rget (λ s, rg_tmp s !! uploadId);
    match content with
    | None => rthrow (PlainError (enoent uploadId))
    | Some c =>
      file_op;;                                              (* rename *)
      rput (λ s, set_files (<[sha := c]> (rg_files s)) (set_tmp (delete uploadId (rg_tmp s)) s));;
      createdAt ← reg_nowIso;
      writeSidecar sha (mkSidecarMetadata createdAt (Z.of_nat (String.length c)) (truthy contentType));;
      mret (Z.of_nat (String.length c))
    end
  end.

(** *** The reaper (oci/reaper.ts) *)

Definition reap_detail (row : PendingUploadRow) : json_object :=
  [("kind", JStr "oci"); ("phase", JStr "pending_upload_reaped"); ("repository", JStr (pu_repository row));
   ("bytes_received", JInt (pu_bytesReceived row)); ("created_at", JStr (pu_createdAt row));
   ("expires_at", JStr (pu_expiresAt row))].

Definition reap_row (row : PendingUploadRow) : RM unit :=
  rcatch (UploadFs_delete (pu_uploadId row)) (λ _, mret ());;
  UploadStore_delete (pu_uploadId row);;
  appendAuditEntry AA_delete AE_blob ("upload:" +:+ pu_uploadId row) "reaper" (Some (reap_detail row));;
  mret ().

Fixpoint reap_rows (rows : list PendingUploadRow) : RM nat :=
  match rows with
  | [] => mret 0%nat
  | row :: rows' => reap_row row;; n ← reap_rows rows'; mret (S n)
  end.

Definition sweep (stopped : bool) : RM nat :=
  if stopped then mret 0%nat
  else cutoff ← reg_now; expired ← UploadStore_listExpired cutoff; reap_rows expired.
End uploads.

(** ** Tags (oci/tag-store.ts) *)

Definition is_tag_row (repository tag : string) (r : TagRow) : bool :=
  (tg_repository r =?s repository) && (tg_tag r =?s tag).

Section tags.
Context `{RegHost}.

Definition TagStore_get (repository tag : string) : RM (option TagRow) :=
  rget (λ s, find_first (is_tag_row repository tag) (rg_tag s)).

Definition upsert_tag (row : TagRow) (l : list TagRow) : list TagRow :=
  if existsb (is_tag_row (tg_repository row) (tg_tag row)) l
  then update_where (is_tag_row (tg_repository row) (tg_tag row)) (λ _, row) l
  else l ++ [row].

(** The previous digest, when the pointer moved. *)
Definition TagStore_put (repository tag manifestSha256 : string) : RM (option string) :=
  existing ← TagStore_get repository tag;
  updatedAt ← reg_nowIso;
  rput (λ s, set_tag (upsert_tag (mkTagRow repository tag manifestSha256 updatedAt) (rg_tag s)) s);;
  mret (match existing with
        | Some r => if tg_manifestSha256 r =?s manifestSha256 then None else Some (tg_manifestSha256 r)
        | None => None
        end).

Definition TagStore_list (repository : string) (after : option string) (limit : option Z) : RM (list TagRow) :=
  rget (λ s, sql_limit (limit ?? 1000)
    (order_asc tg_tag (select (λ r, (tg_repository r =?s repository) && str_ltb (after ?? "") (tg_tag r)) (rg_tag s)))).

Definition TagStore_delete (repository tag : string) : RM bool :=
  found ← rget (λ s, existsb (is_tag_row repository tag) (rg_tag s));
  rput (λ s, set_tag (select (λ r, negb (is_tag_row repository tag r)) (rg_tag s)) s);;
  mret (found : bool).

Definition points_at (repository manifestSha256 : string) (r : TagRow) : bool :=
  (tg_repository r =?s repository) && (tg_manifestSha256 r =?s manifestSha256).

Definition TagStore_deleteByDigest (repository manifestSha256 : string) : RM (list string) :=
  rows ← rget (λ s, select (points_at repository manifestSha256) (rg_tag s));
  rput (λ s, set_tag (select (λ r, negb (points_at repository manifestSha256 r)) (rg_tag s)) s);;
  mret (map tg_tag rows).
End tags.
