(* ===== verification/OciApp.v ===== *)
(** The routes of the OCI facade: blobs and upload sessions (oci/blobs.ts),
    manifests and tags (oci/manifests.ts), catalog and tag lists
    (oci/catalog.ts).  A handler turns the registry's state into a response and a
    new state; what it throws becomes the response of [writeOciError]. *)

From stdpp Require Import gmap strings.
From S2P Require Import Prelude JsTime JsVal Signing Build BuildYaml Probes Http Worker Registry Oci.

(** ** Requests *)

(** The body: all of it, or a stream that breaks, perhaps after the router has
    answered that it is too large. *)
Inductive StreamBody := SB_bytes (content : string) | SB_broken (message : string) (answered : option OciResponse).

Record OciRequest := mkOciRequest {
  oq_name : string;
  oq_reference : string;                  (* :digest, :uploadId or :reference *)
  oq_query : list (string * string);
  oq_contentRange : option string;
  oq_contentType : option string;
  oq_accept : option string;
  oq_body : option StreamBody;
  oq_tokenPrefix : option string
}.

Definition query_of (req : OciRequest) (k : string) : option string :=
  option_map snd (find_first (λ kv, kv.1 =?s k) (oq_query req)).

Definition actor_of (req : OciRequest) : string := oq_tokenPrefix req ?? "anonymous".

(** [try { … } catch (err) { writeOciError(res, asOciError(err)) }]; nothing is
    written over a response that has been sent. *)
Definition answer (req : OciRequest) (m : RM OciResponse) (s : Reg) : OciResponse * Reg :=
  match m s with
  | (inr r, s') => (r, s')
  | (inl e, s') =>
    (match oq_body req with Some (SB_broken _ (Some r)) => r | _ => writeOciError e end, s')
  end.

Definition readChunk (body : StreamBody) : RM string :=
  match body with SB_bytes c => mret c | SB_broken m _ => rthrow (PlainError m) end.

Definition oci_fail {A} (code : OciErrorCode) (message : string) : RM A := rthrow (OciError code message None).

Record OciConfig := mkOciConfig {
  oc_baseUrl : string;
  oc_ttlSeconds : Z;
  oc_maxManifestBytes : Z;
  oc_allowDelete : bool;
  oc_defaultPageSize : Z;
  oc_maxPageSize : Z;
  (** What a virtual upstream fetches and caches. *)
  oc_proxyBlob : option (string → string → string → RM bool);
  oc_proxyManifest : option (string → string → OciReference → RM (option string))
}.

Definition DEFAULT_MAX_MANIFEST_BYTES : Z := 4 * 1024 * 1024.
Definition DEFAULT_PAGE_SIZE : Z := 100.
Definition MAX_PAGE_SIZE : Z := 1000.

Section app.
Context `{RegHost} `{JsEngine} (cfg : OciConfig).

(** ** Blobs (oci/blobs.ts) *)

Definition upload_location (repo : ParsedRepository) (uploadId : string) : string :=
  oc_baseUrl cfg +:+ "/v2/" +:+ rp_org repo +:+ "/" +:+ rp_repo repo +:+ "/blobs/uploads/" +:+ uploadId.

Definition post_upload (req : OciRequest) : RM OciResponse :=
  repo ← rlift (parseRepositoryParam (oq_name req));
  ensureDir;;
  row ← UploadStore_create (oc_ttlSeconds cfg) (rp_storageName repo) (actor_of req);
  mret (writeUploadAccepted (upload_location repo (pu_uploadId row)) (pu_uploadId row) 0).

(** The session of the request, in its own repository. *)
Definition session_of (req : OciRequest) (repo : ParsedRepository) : RM PendingUploadRow :=
  rlift (validateUploadId (oq_reference req));;
  row ← UploadStore_get (oq_reference req);
  match row with
  | None => oci_fail BLOB_UPLOAD_UNKNOWN ("pending upload " +:+ oq_reference req +:+ " unknown")
  | Some row =>
    if negb (pu_repository row =?s rp_storageName repo) then
      oci_fail BLOB_UPLOAD_UNKNOWN ("pending upload " +:+ oq_reference req +:+ " belongs to a different repository")
    else mret row
  end.

Definition patch_upload (req : OciRequest) : RM OciResponse :=
  repo ← rlift (parseRepositoryParam (oq_name req));
  row ← session_of req repo;
  range ← rlift (parseContentRange (oq_contentRange req));
  if negb (cr_start range =? pu_bytesReceived row) then
    rthrow (OciError BLOB_UPLOAD_INVALID
      ("out-of-order chunk: Content-Range start " +:+ show_Z (cr_start range) +:+ " != bytes_received "
        +:+ show_Z (pu_bytesReceived row))
      (Some (JObj [("expected_offset", JInt (pu_bytesReceived row)); ("got", JInt (cr_start range))])))
  else
    let expectedLength := contentRangeLength range in
    match oq_body req with
    | None => oci_fail BLOB_UPLOAD_INVALID "PATCH requires a request body"
    | Some body =>
      chunk ← readChunk body;
      let length := Z.of_nat (String.length chunk) in
      if negb (length =? expectedLength) then
        oci_fail SIZE_INVALID ("body length " +:+ show_Z length +:+ " does not match Content-Range length "
          +:+ show_Z expectedLength)
      else
        newTotal ← UploadFs_appendBytes (pu_uploadId row) chunk;
        if negb (newTotal =? pu_bytesReceived row + length) then
          oci_fail BLOB_UPLOAD_INVALID "internal: tmp-file cursor diverged after append"
        else
          updated ← UploadStore_appendChunk (oc_ttlSeconds cfg) (pu_uploadId row)
                      (mkPendingUploadChunk (cr_start range) length (sha256 chunk));
          mret (writeUploadAccepted (upload_location repo (pu_uploadId row)) (pu_uploadId row) (pu_bytesReceived updated))
    end.

(** The closing bytes of a PUT, at [offset]; none is fine. *)
Definition append_tail (row : PendingUploadRow) (offset : Z) (tail : string) : RM unit :=
  if (String.length tail =? 0)%nat then mret ()
  else
    UploadFs_appendBytes (pu_uploadId row) tail;;
    UploadStore_appendChunk (oc_ttlSeconds cfg) (pu_uploadId row)
      (mkPendingUploadChunk offset (Z.of_nat (String.length tail)) (sha256 tail));;
    mret ().

Definition final_chunk (req : OciRequest) (row : PendingUploadRow) : RM unit :=
  match oq_body req with
  | None => mret ()
  | Some body =>
    match oq_contentRange req with
    | Some range =>
      parsed ← rlift (parseContentRange (Some range));
      if negb (cr_start parsed =? pu_bytesReceived row) then
        oci_fail BLOB_UPLOAD_INVALID ("out-of-order final chunk: Content-Range start " +:+ show_Z (cr_start parsed)
          +:+ " != bytes_received " +:+ show_Z (pu_bytesReceived row))
      else
        tail ← readChunk body;
        if negb (Z.of_nat (String.length tail) =? contentRangeLength parsed) then
          oci_fail SIZE_INVALID ("final chunk body length " +:+ show_Z (Z.of_nat (String.length tail))
            +:+ " != Content-Range length " +:+ show_Z (contentRangeLength parsed))
        else append_tail row (cr_start parsed) tail
    | None => tail ← readChunk body; append_tail row (pu_bytesReceived row) tail
    end
  end.

Definition put_upload (req : OciRequest) : RM OciResponse :=
  repo ← rlift (parseRepositoryParam (oq_name req));
  row ← session_of req repo;
  match truthy (query_of req "digest") with
  | None => oci_fail DIGEST_INVALID "PUT finalize requires the ?digest=<digest> query parameter"
  | Some declaredDigest =>
    declaredHex ← rlift (validateOciDigest declaredDigest);
    final_chunk req row;;
    assembledHex ← UploadFs_hashAssembled (pu_uploadId row);
    if negb (assembledHex =?s declaredHex) then
      oci_fail DIGEST_INVALID ("assembled digest sha256:" +:+ assembledHex +:+ " does not match declared sha256:" +:+ declaredHex)
    else
      UploadFs_promoteToBlob (pu_uploadId row) assembledHex (Some "application/octet-stream");;
      stat ← fs_statBlob assembledHex;
      (match stat with Some b => recordBlob b | None => mret () end);;
      UploadStore_delete (pu_uploadId row);;
      appendAuditEntry AA_upload AE_blob assembledHex (actor_of req)
        (Some [("kind", JStr "oci"); ("org", JStr (rp_org repo)); ("repository", JStr (rp_repo repo));
               ("upload_id", JStr (pu_uploadId row));
               ("bytes", match stat with Some b => JInt (bl_size b) | None => JNull end)]);;
      mret (writeBlobCreated
        (oc_baseUrl cfg +:+ "/v2/" +:+ rp_org repo +:+ "/" +:+ rp_repo repo +:+ "/blobs/" +:+ declaredDigest) declaredDigest)
  end.

Definition blob_headers (digest : string) (stat : Blob) : list (string * string) :=
  [("Docker-Content-Digest", digest); ("content-type", bl_contentType stat ?? "application/octet-stream");
   ("content-length", show_Z (bl_size stat))].

(** When the file cannot be opened the digest header is already set. *)
Definition opened (digest : string) (m : RM OciResponse) : RM OciResponse :=
  rcatch m (λ e, let r := writeOciError e in
    mret (mkOciResponse (or_status r) (("Docker-Content-Digest", digest) :: or_headers r) (or_body r))).

Definition blob_unknown {A} (digest : string) : RM A := oci_fail BLOB_UNKNOWN ("blob " +:+ digest +:+ " not found").

Definition get_oci_blob (req : OciRequest) : RM OciResponse :=
  rlift (validateOciRepositoryName (oq_name req));;
  hex ← rlift (validateOciDigest (oq_reference req));
  stat ← statBlob hex;
  stat ← (match stat, oc_proxyBlob cfg with
          | None, Some proxyBlob =>
            repo ← rlift (parseRepositoryParam (oq_name req));
            proxied ← proxyBlob (rp_org repo) (rp_repo repo) hex;
            if proxied : bool then statBlob hex else mret None
          | _, _ => mret stat
          end);
  match stat with
  | None => blob_unknown (oq_reference req)
  | Some stat =>
    opened (oq_reference req)
      (content ← getBlob hex; mret (mkOciResponse 200 (blob_headers (oq_reference req) stat) (OB_bytes content)))
  end.

Definition head_oci_blob (req : OciRequest) : RM OciResponse :=
  rlift (validateOciRepositoryName (oq_name req));;
  hex ← rlift (validateOciDigest (oq_reference req));
  stat ← statBlob hex;
  match stat with
  | None => blob_unknown (oq_reference req)
  | Some stat => mret (mkOciResponse 200 (blob_headers (oq_reference req) stat) OB_empty)
  end.

Definition delete_oci_blob (req : OciRequest) : RM OciResponse :=
  rlift (validateOciRepositoryName (oq_name req));;
  hex ← rlift (validateOciDigest (oq_reference req));
  stat ← statBlob hex;
  match stat with
  | None => blob_unknown (oq_reference req)
  | Some _ =>
    deleteBlob hex;;
    rput (λ s, set_blob (select (λ b, negb (bl_sha256 b =?s hex)) (rg_blob s)) s);;
    appendAuditEntry AA_delete AE_blob hex (actor_of req)
      (Some [("kind", JStr "oci"); ("repository", JStr (oq_name req))]);;
    mret (mkOciResponse 202 [("content-length", "0")] OB_empty)
  end.

(** ** Manifests (oci/manifests.ts) *)

Definition readBytes (body : StreamBody) (max : Z) : RM string :=
  match body with
  | SB_bytes c =>
    if max <? Z.of_nat (String.length c) then oci_fail SIZE_INVALID ("manifest body exceeded max " +:+ show_Z max +:+ " bytes")
    else mret c
  | SB_broken m _ => rthrow (PlainError m)
  end.

(** A layer that names where else its bytes are. *)
Definition is_foreign (layer : OciDescriptor) : bool :=
  match od_urls layer with Some (_ :: _) => true | _ => false end.

Fixpoint check_layers (i : nat) (layers : list OciDescriptor) : RM unit :=
  match layers with
  | [] => mret ()
  | layer :: layers' =>
    if is_foreign layer then check_layers (S i) layers'
    else
      hex ← rlift (validateOciDigest (od_digest layer));
      stat ← statBlob hex;
      match stat with
      | None => oci_fail MANIFEST_BLOB_UNKNOWN
          ("layer[" +:+ show_Z (Z.of_nat i) +:+ "] blob " +:+ od_digest layer +:+ " not found")
      | Some _ => check_layers (S i) layers'
      end
  end.

Definition validateSingleManifestReferences (manifest : OciManifest) : RM unit :=
  configHex ← rlift (validateOciDigest (od_digest (oma_config manifest)));
  stat ← statBlob configHex;
  match stat with
  | None => oci_fail MANIFEST_BLOB_UNKNOWN ("config blob " +:+ od_digest (oma_config manifest) +:+ " not found")
  | Some _ => check_layers 0 (oma_layers manifest)
  end.

Fixpoint check_children (storageName : string) (children : list OciDescriptor) : RM unit :=
  match children with
  | [] => mret ()
  | child :: children' =>
    hex ← rlift (validateOciDigest (od_digest child));
    m ← getManifest storageName hex;
    match m with
    | None => oci_fail MANIFEST_BLOB_UNKNOWN ("child manifest " +:+ od_digest child +:+ " not found in " +:+ storageName)
    | Some _ => check_children storageName children'
    end
  end.

Definition validateIndexChildManifests (index : OciIndex) (storageName : string) : RM unit :=
  check_children storageName (oi_manifests index).

Definition classifySchemaVariant (mediaType : string) : SchemaVariant :=
  if (mediaType =?s OCI_MANIFEST_V1) || (mediaType =?s OCI_INDEX_V1) then SV_oci_v1
  else if (mediaType =?s DOCKER_MANIFEST_V2_2) || (mediaType =?s DOCKER_MANIFEST_LIST_V2_2) then SV_docker_v2_2
  else SV_oci_v1.

Definition child_summary (c : OciDescriptor) : ChildManifest :=
  mkChildManifest (od_digest c) (od_mediaType c) (od_size c)
    (option_map (λ p, (op_architecture p, op_os p, truthy (op_variant p))) (od_platform c)).

Definition projectOciMetadata (parsed : ParsedManifest) : OciManifestMetadata :=
  match parsed with
  | PM_manifest m =>
    mkOciManifestMetadata false (classifySchemaVariant (oma_mediaType m)) (Some (od_digest (oma_config m)))
      (Some (od_mediaType (oma_config m))) (Some (map od_digest (oma_layers m)))
      (Some (fold_left (λ acc l, num_add acc (od_size l)) (oma_layers m) (od_size (oma_config m)))) None
      (option_map od_digest (oma_subject m)) (truthy (oma_artifactType m))
  | PM_index i =>
    mkOciManifestMetadata true (classifySchemaVariant (oi_mediaType i)) None None None None
      (Some (map child_summary (oi_manifests i))) (option_map od_digest (oi_subject i)) (truthy (oi_artifactType i))
  end.

Definition blob_ref (d : OciDescriptor) : BlobRef :=
  mkBlobRef (od_mediaType d) (str_drop 7 (od_digest d)) (Some (od_size d)) None.

(** The digests have been validated by the parser. *)
Definition buildBlobRefsFromManifest (manifest : OciManifest) : list BlobRef :=
  blob_ref (oma_config manifest) :: map blob_ref (select (λ l, negb (is_foreign l)) (oma_layers manifest)).

Definition parse_body (raw : string) : RRes ParsedManifest :=
  match JSON_parse raw with
  | Some v => parseManifestOrIndex v
  | None => oci_throw MANIFEST_INVALID ("manifest body is not valid JSON: " +:+ json_syntax_error raw)
  end.

Definition SchemaVariant_text (v : SchemaVariant) : string :=
  match v with SV_oci_v1 => "oci-v1" | SV_docker_v2_2 => "docker-v2-2" end.
Definition ref_kind (r : OciReference) : string := match r with Ref_tag _ => "tag" | Ref_digest _ _ => "digest" end.
Definition count_of {A} (o : option (list A)) : json := match o with Some l => JInt (Z.of_nat (length l)) | None => JNull end.

(** [s.slice(-16)]. *)
Definition last16 (s : string) : string := str_drop (String.length s - 16) s.

Definition manifest_id (repo : ParsedRepository) (digest : string) : string := rp_storageName repo +:+ "@" +:+ digest.

(** Storing the manifest; the same digest again is not an error. *)
Definition store_manifest (req : OciRequest) (repo : ParsedRepository) (parsed : ParsedManifest) (sha raw : string) : RM unit :=
  createdAt ← reg_nowIso;
  let manifest := mkManifest (rp_storageName repo) sha (pm_mediaType parsed) (Some MK_oci)
    (match parsed with PM_manifest m => buildBlobRefsFromManifest m | PM_index _ => [] end) None None
    (Some (projectOciMetadata parsed)) [] createdAt in
  rcatch (putManifest manifest raw (Some (mkProvenance PS_upload None createdAt (option_map last16 (oq_tokenPrefix req)) None));; mret ())
    (λ err, match err with RegistryError MANIFEST_EXISTS _ => mret () | _ => rthrow err end).

Definition upload_detail (repo : ParsedRepository) (parsed : ParsedManifest) (raw : string) (ref : OciReference) : json_object :=
  let meta := projectOciMetadata parsed in
  [("kind", JStr "oci"); ("org", JStr (rp_org repo)); ("repository", JStr (rp_repo repo));
   ("mediaType", JStr (pm_mediaType parsed)); ("isIndex", JBool (om_isIndex meta));
   ("schemaVariant", JStr (SchemaVariant_text (om_schemaVariant meta)));
   ("layer_count", count_of (om_layerDigests meta)); ("child_manifest_count", count_of (om_childManifests meta));
   ("bytes", JInt (Z.of_nat (String.length raw))); ("ref_kind", JStr (ref_kind ref)); ("ref_value", JStr (ref_value ref))].

(** Moving the tag, when the reference is one. *)
Definition point_tag (req : OciRequest) (repo : ParsedRepository) (ref : OciReference) (sha digest : string) : RM unit :=
  match ref with
  | Ref_digest _ _ => mret ()
  | Ref_tag tag =>
    previous ← TagStore_put (rp_storageName repo) tag sha;
    appendAuditEntry AA_manifest_create AE_manifest (manifest_id repo digest) (actor_of req)
      (Some [("kind", JStr "oci"); ("org", JStr (rp_org repo)); ("repository", JStr (rp_repo repo)); ("tag", JStr tag);
             ("rotated", JBool (negb (is_null previous))); ("previous_sha256", JOptStr previous)]);;
    mret ()
  end.

Definition put_manifest (req : OciRequest) : RM OciResponse :=
  repo ← rlift (parseRepositoryParam (oq_name req));
  ref ← rlift (parseOciReference (oq_reference req));
  match oq_body req with
  | None => oci_fail MANIFEST_INVALID "PUT requires a request body"
  | Some body =>
    raw ← readBytes body (oc_maxManifestBytes cfg);
    let sha := sha256 raw in
    let digest := SHA256_PREFIX +:+ sha in
    if (match ref with Ref_digest v _ => negb (v =?s digest) | Ref_tag _ => false end) then
      oci_fail DIGEST_INVALID ("body digest " +:+ digest +:+ " does not match path reference " +:+ ref_value ref)
    else match truthy (oq_contentType req) with
    | None => oci_fail MANIFEST_INVALID "Content-Type required on manifest PUT"
    | Some ct =>
      if negb (has_type SINGLE_MANIFEST_MEDIA_TYPES ct) && negb (has_type INDEX_MEDIA_TYPES ct) then
        oci_fail MANIFEST_INVALID ("Content-Type '" +:+ ct +:+ "' is not a recognised manifest type")
      else
        parsed ← rlift (parse_body raw);
        if negb (pm_mediaType parsed =?s ct) then
          oci_fail MANIFEST_INVALID ("body.mediaType '" +:+ pm_mediaType parsed +:+ "' does not match Content-Type '" +:+ ct +:+ "'")
        else
          (match parsed with
           | PM_manifest m => validateSingleManifestReferences m
           | PM_index i => validateIndexChildManifests i (rp_storageName repo)
           end);;
          store_manifest req repo parsed sha raw;;
          appendAuditEntry AA_upload AE_manifest (manifest_id repo digest) (actor_of req)
            (Some (upload_detail repo parsed raw ref));;
          point_tag req repo ref sha digest;;
          mret (mkOciResponse 201
            [("Location", oc_baseUrl cfg +:+ "/v2/" +:+ rp_org repo +:+ "/" +:+ rp_repo repo +:+ "/manifests/" +:+ digest);
             ("Docker-Content-Digest", digest); ("content-length", "0")] OB_empty)
    end
  end.

(** parseAcceptHeader. *)
Definition parseAcceptHeader (value : option string) : list string :=
  match truthy value with
  | None => []
  | Some v =>
    select (λ p, negb (p =?s ""))
      (map (λ part, trim (match split_on ";" part with x :: _ => x | [] => "" end)) (split_on "," v))
  end.

Definition manifest_unknown {A} (ref : OciReference) : RM A :=
  oci_fail MANIFEST_UNKNOWN ("manifest " +:+ ref_value ref +:+ " not found").

(** The digest that a reference stands for, and its manifest. *)
Definition resolve_manifest (repo : ParsedRepository) (ref : OciReference) : RM (option string * option Manifest) :=
  hex ← (match ref with
         | Ref_digest _ hex => mret (Some hex)
         | Ref_tag tag => row ← TagStore_get (rp_storageName repo) tag; mret (option_map tg_manifestSha256 row)
         end);
  manifest ← (match truthy hex with Some h => getManifest (rp_storageName repo) h | None => mret None end);
  match manifest, oc_proxyManifest cfg with
  | None, Some proxyManifest =>
    proxied ← proxyManifest (rp_org repo) (rp_repo repo) ref;
    match proxied with
    | Some h => m ← getManifest (rp_storageName repo) h; mret (Some h, m)
    | None => mret (hex, None)
    end
  | m, _ => mret (hex, m)
  end.

Definition serveManifest (req : OciRequest) (head : bool) : RM OciResponse :=
  repo ← rlift (parseRepositoryParam (oq_name req));
  ref ← rlift (parseOciReference (oq_reference req));
  found ← resolve_manifest repo ref;
  match truthy found.1, found.2 with
  | Some hex, Some manifest =>
    bytes ← getCanonicalBytes (rp_storageName repo) hex;
    match bytes with
    | None => oci_fail MANIFEST_UNKNOWN ("manifest bytes for " +:+ ref_value ref +:+ " not found")
    | Some bytes =>
      let accept := parseAcceptHeader (oq_accept req) in
      if negb (match accept with [] => true | _ => has_type accept "*/*" || has_type accept (mf_mediaType manifest) end) then
        oci_fail MANIFEST_UNKNOWN ("no manifest in " +:+ rp_storageName repo +:+ " matches Accept '" +:+ join ", " accept +:+ "'")
      else
        mret (mkOciResponse 200
          [("content-type", mf_mediaType manifest); ("content-length", show_Z (Z.of_nat (String.length bytes)));
           ("Docker-Content-Digest", SHA256_PREFIX +:+ hex)] (if head then OB_empty else OB_bytes bytes))
    end
  | _, _ => manifest_unknown ref
  end.

Definition get_manifest (req : OciRequest) : RM OciResponse := serveManifest req false.
Definition head_manifest (req : OciRequest) : RM OciResponse := serveManifest req true.

Definition deleted : OciResponse := mkOciResponse 202 [("content-length", "0")] OB_empty.

Definition delete_tag (req : OciRequest) (repo : ParsedRepository) (tag : string) : RM OciResponse :=
  row ← TagStore_get (rp_storageName repo) tag;
  match row with
  | None => oci_fail MANIFEST_UNKNOWN ("tag " +:+ tag +:+ " not found in " +:+ rp_storageName repo)
  | Some row =>
    TagStore_delete (rp_storageName repo) tag;;
    appendAuditEntry AA_delete AE_manifest (manifest_id repo (SHA256_PREFIX +:+ tg_manifestSha256 row)) (actor_of req)
      (Some [("kind", JStr "oci"); ("phase", JStr "tag_delete"); ("org", JStr (rp_org repo));
             ("repository", JStr (rp_repo repo)); ("tag", JStr tag); ("manifest_sha256", JStr (tg_manifestSha256 row))]);;
    mret deleted
  end.

Definition delete_digest (req : OciRequest) (repo : ParsedRepository) (value hex : string) : RM OciResponse :=
  stored ← getManifest (rp_storageName repo) hex;
  match stored with
  | None => oci_fail MANIFEST_UNKNOWN ("manifest " +:+ value +:+ " not found")
  | Some _ =>
    deleteManifest (rp_storageName repo) hex;;
    removedTags ← TagStore_deleteByDigest (rp_storageName repo) hex;
    appendAuditEntry AA_delete AE_manifest (manifest_id repo value) (actor_of req)
      (Some [("kind", JStr "oci"); ("phase", JStr "digest_delete"); ("org", JStr (rp_org repo));
             ("repository", JStr (rp_repo repo)); ("cascaded_tags", JArr (map JStr removedTags))]);;
    mret deleted
  end.

Definition delete_manifest (req : OciRequest) : RM OciResponse :=
  if negb (oc_allowDelete cfg) then oci_fail UNSUPPORTED "manifest DELETE is disabled on this registry"
  else
    repo ← rlift (parseRepositoryParam (oq_name req));
    ref ← rlift (parseOciReference (oq_reference req));
    match ref with
    | Ref_tag tag => delete_tag req repo tag
    | Ref_digest value hex => delete_digest req repo value hex
    end.

(** ** Catalog and tags (oci/catalog.ts) *)

Record Paging := mkPaging { pg_n : Z; pg_last : option string }.

Definition parsePaging (req : OciRequest) : RRes Paging :=
  match query_of req "n" with
  | None => inr (mkPaging (oc_defaultPageSize cfg) (query_of req "last"))
  | Some rawN =>
    let parsed := to_number (Some (JStr rawN)) in
    if negb (num_isInteger parsed) || (num_floor parsed <? 0) then
      oci_throw MANIFEST_INVALID ("n must be a non-negative integer; got '" +:+ rawN +:+ "'")
    else inr (mkPaging (Z.min (num_floor parsed) (oc_maxPageSize cfg)) (query_of req "last"))
  end.

(** The length of a JSON body is not part of the response. *)
Definition json_headers : list (string * string) := [("content-type", "application/json; charset=utf-8")].

(** [name LIKE 'oci/%'] ignores the case of letters. *)
Definition listRepositoriesAfter (afterStorage : string) (limit : Z) : RM (list string) :=
  rget (λ s, sql_limit limit (order_asc id (remove_dups (map mr_name
    (select (λ r, str_ltb afterStorage (mr_name r) && starts_with OCI_PREFIX (lower (mr_name r))) (rg_manifest s)))))).

(** The first [n] rows, and the link to the next page when there are more. *)
Definition page (n : Z) (rows : list string) (link : string → string) : list string * list (string * string) :=
  let overflow := n <? Z.of_nat (length rows) in
  let p := if overflow then take (Z.to_nat n) rows else rows in
  (p, match overflow, last p with
      | true, Some cursor => [("Link", "<" +:+ oc_baseUrl cfg +:+ link (encodeURIComponent cursor) +:+ ">; rel=" +:+ json_quote "next")]
      | _, _ => []
      end).

Definition get_catalog (req : OciRequest) : RM OciResponse :=
  paging ← rlift (parsePaging req);
  let n := pg_n paging in
  if n =? 0 then mret (mkOciResponse 200 json_headers (OB_repositories []))
  else
    rows ← listRepositoriesAfter (match truthy (pg_last paging) with Some l => OCI_PREFIX +:+ l | None => OCI_PREFIX end) (n + 1);
    let '(p, link) := page n (map (str_drop 4) rows)
      (λ cursor, "/v2/_catalog?n=" +:+ show_Z n +:+ "&last=" +:+ cursor) in
    mret (mkOciResponse 200 (link ++ json_headers) (OB_repositories p)).

Definition get_tags (req : OciRequest) : RM OciResponse :=
  repo ← rlift (parseRepositoryParam (oq_name req));
  paging ← rlift (parsePaging req);
  rlift (match pg_last paging with Some l => validateOciTag l | None => inr () end);;
  let n := pg_n paging in
  let name := rp_org repo +:+ "/" +:+ rp_repo repo in
  if n =? 0 then mret (mkOciResponse 200 json_headers (OB_tags name []))
  else
    rows ← TagStore_list (rp_storageName repo) (truthy (pg_last paging)) (Some (n + 1));
    let '(p, link) := page n (map tg_tag rows)
      (λ cursor, "/v2/" +:+ name +:+ "/tags/list?n=" +:+ show_Z n +:+ "&last=" +:+ cursor) in
    mret (mkOciResponse 200 (link ++ json_headers) (OB_tags name p)).

(** ** The facade *)

Inductive OciRoute :=
| OR_post_upload | OR_patch_upload | OR_put_upload | OR_get_blob | OR_head_blob | OR_delete_blob
| OR_put_manifest | OR_get_manifest | OR_head_manifest | OR_delete_manifest | OR_catalog | OR_tags.

Definition oci_handler (route : OciRoute) : OciRequest → RM OciResponse :=
  match route with
  | OR_post_upload => post_upload | OR_patch_upload => patch_upload | OR_put_upload => put_upload
  | OR_get_blob => get_oci_blob | OR_head_blob => head_oci_blob | OR_delete_blob => delete_oci_blob
  | OR_put_manifest => put_manifest | OR_get_manifest => get_manifest | OR_head_manifest => head_manifest
  | OR_delete_manifest => delete_manifest | OR_catalog => get_catalog | OR_tags => get_tags
  end.

Definition serve (route : OciRoute) (req : OciRequest) (s : Reg) : OciResponse * Reg :=
  answer req (oci_handler route req) s.
End app.
