(* ===== verification/RegistryAuth.v ===== *)
(** Who may use the registry: bearer tokens (http/auth.ts), the compact JWTs of
    the token endpoint (oci/jwt.ts) and the two routes of the bearer challenge
    (oci/auth.ts).  Node's key objects, Ed25519 and the decoder of base64 are the
    class [RegCrypto]; the encoder is RFC 4648's. *)

From stdpp Require Import gmap strings.
From S2P Require Import Prelude JsTime JsVal Signing Build BuildYaml Probes Http Worker Registry Oci OciApp.

Class RegCrypto := {
  (** crypto.KeyObject *)
  RKey : Type;
  (** createPrivateKey and createPublicKey of a PEM, or the message they throw *)
  rk_createPrivateKey : string → string + RKey;
  rk_createPublicKey : string → string + RKey;
  (** createPublicKey of a private key, and export({type: "spki", format: "pem"}) *)
  rk_publicOf : RKey → RKey;
  rk_exportPem : RKey → string;
  (** export({type: "spki", format: "der"}) and createPublicKey of it *)
  rk_exportDer : RKey → string;
  rk_ofDer : string → string + RKey;
  rk_type : RKey → option string;
  (** crypto.sign(null, data, key) and crypto.verify(null, data, key, signature) *)
  rk_sign : string → RKey → string;
  rk_verify : string → RKey → string → bool;
  (** Buffer.from(s, "base64") *)
  buffer_from_base64 : string → string
}.

(** ** Base64 *)

Definition b64_alphabet : string := "ABCDEFGHIJKLMNOPQRSTUVWXYZabcdefghijklmnopqrstuvwxyz0123456789+/".
Definition b64_digit (n : nat) : ascii := match String.get n b64_alphabet with Some c => c | None => "="%char end.
Definition code (c : ascii) : nat := Ascii.nat_of_ascii c.

(** Buffer.toString("base64"): three bytes are four digits. *)
Fixpoint b64_encode (s : string) : string :=
  match s with
  | EmptyString => ""
  | String a EmptyString =>
    String (b64_digit (code a / 4)) (String (b64_digit (code a mod 4 * 16)) "==")
  | String a (String b EmptyString) =>
    String (b64_digit (code a / 4)) (String (b64_digit (code a mod 4 * 16 + code b / 16))
      (String (b64_digit (code b mod 16 * 4)) "="))
  | String a (String b (String c s')) =>
    String (b64_digit (code a / 4)) (String (b64_digit (code a mod 4 * 16 + code b / 16))
      (String (b64_digit (code b mod 16 * 4 + code c / 64)) (String (b64_digit (code c mod 64)) (b64_encode s'))))
  end.

(** [.replace(/=+$/g, "")] *)
Fixpoint drop_trailing (c : ascii) (s : string) : string :=
  match s with
  | EmptyString => ""
  | String x s' =>
    match drop_trailing c s' with
    | EmptyString => if is_char c x then "" else String x ""
    | r => String x r
    end
  end.

Fixpoint map_chars (f : ascii → ascii) (s : string) : string :=
  match s with EmptyString => "" | String c s' => String (f c) (map_chars f s') end.

Definition to_url (c : ascii) : ascii := if is_char "+" c then "-"%char else if is_char "/" c then "_"%char else c.
Definition of_url (c : ascii) : ascii := if is_char "-" c then "+"%char else if is_char "_" c then "/"%char else c.

Fixpoint repeat_char (n : nat) (c : ascii) : string := match n with O => "" | S n' => String c (repeat_char n' c) end.

Definition base64UrlEncode (buf : string) : string := map_chars to_url (drop_trailing "=" (b64_encode buf)).

Section auth.
Context `{RegHost} `{JsEngine} `{RegCrypto}.

Definition base64UrlDecode (s : string) : string :=
  let padded := map_chars of_url s in
  buffer_from_base64 (padded +:+ repeat_char ((4 - String.length padded mod 4) mod 4) "=").

(** ** JWTs (oci/jwt.ts) *)

Record JwtClaims := mkJwtClaims {
  jc_iss : string;
  jc_sub : string;
  jc_aud : string;
  jc_scope : string;
  jc_iat : jsnum;
  jc_exp : jsnum
}.

Record MintedJwt := mkMintedJwt { mj_token : string; mj_claims : JwtClaims; mj_expiresIn : Z; mj_issuedAt : string }.

Definition DEFAULT_TTL_SECONDS : Z := 3600.
Definition DEFAULT_ISSUER : string := "signalman-registry".
Definition DEFAULT_AUDIENCE : string := "signalman-registry".
Definition DEFAULT_SKEW : Z := 60.

Definition jwt_header : json := JObj [("alg", JStr "EdDSA"); ("typ", JStr "JWT")].
Definition claims_json (c : JwtClaims) : json :=
  JObj [("iss", JStr (jc_iss c)); ("sub", JStr (jc_sub c)); ("aud", JStr (jc_aud c)); ("scope", JStr (jc_scope c));
        ("iat", JNum (jc_iat c)); ("exp", JNum (jc_exp c))].

(** The key of a PEM, which must be an Ed25519 key. *)
Definition ed25519_key (r : string + RKey) (message : string) : RRes RKey :=
  match r with
  | inl m => inl (PlainError m)
  | inr key => if bool_decide (rk_type key = Some "ed25519") then inr key
               else inl (PlainError (message +:+ (rk_type key ?? "undefined")))
  end.

Definition mintJwt (privateKeyPem subject scope : string) (ttl : Z) (audience issuer : string) : RM MintedJwt :=
  iatDate ← reg_now;
  let iat := iatDate / 1000 in
  let payload := mkJwtClaims issuer subject audience scope (num_of_Z iat) (num_of_Z (iat + ttl)) in
  let signingInput := base64UrlEncode (json_stringify jwt_header) +:+ "." +:+ base64UrlEncode (json_stringify (claims_json payload)) in
  key ← rlift (ed25519_key (rk_createPrivateKey privateKeyPem) "JWT signing key must be Ed25519; got ");
  mret (mkMintedJwt (signingInput +:+ "." +:+ base64UrlEncode (rk_sign signingInput key)) payload ttl (toISOString iatDate)).

Definition jwt_fail {A} (reason : JwtReason) (message : string) : RM A := rthrow (JwtError reason message).

(** [JSON.parse] of a part, whose failure has [reason]. *)
Definition jwt_part (part : string) (reason : JwtReason) (message : string) : RM json :=
  match JSON_parse (base64UrlDecode part) with Some v => mret v | None => jwt_fail reason message end.

(** [v.k]; only null has no properties at all. *)
Definition read_prop (v : json) (k : string) : RRes (option json) :=
  match v with
  | JNull => inl (PlainError ("Cannot read properties of null (reading '" +:+ k +:+ "')"))
  | JObj o => inr (get_prop k o)
  | _ => inr None
  end.

Definition is_text (t : string) (v : option json) : bool := match v with Some (JStr s) => s =?s t | _ => false end.

Definition claims_of (payload : json) : option JwtClaims :=
  match payload with
  | JObj o =>
    match get_prop "iss" o, get_prop "sub" o, get_prop "aud" o, get_prop "scope" o, get_prop "iat" o, get_prop "exp" o with
    | Some (JStr iss), Some (JStr sub), Some (JStr aud), Some (JStr scope), Some (JNum iat), Some (JNum exp) =>
      Some (mkJwtClaims iss sub aud scope iat exp)
    | _, _, _, _, _, _ => None
    end
  | _ => None
  end.

Definition verifyJwt (token publicKeyPem : string) (expectedAudience : string) (skew : Z) : RM JwtClaims :=
  match split_on "." token with
  | [headerB64; payloadB64; signatureB64] =>
    header ← jwt_part headerB64 JR_header_invalid "JWT header is not valid JSON";
    typ ← rlift (read_prop header "typ");
    if negb (is_text "JWT" typ) then
      jwt_fail JR_header_invalid ("JWT typ must be 'JWT'; got " +:+ shown typ)
    else
    alg ← rlift (read_prop header "alg");
    if negb (is_text "EdDSA" alg) then
      jwt_fail JR_alg_unsupported ("JWT alg must be 'EdDSA'; got " +:+ shown alg)
    else
    key ← rlift (ed25519_key (rk_createPublicKey publicKeyPem) "JWT verification key must be Ed25519; got ");
    if negb (rk_verify (headerB64 +:+ "." +:+ payloadB64) key (base64UrlDecode signatureB64)) then
      jwt_fail JR_signature_invalid "JWT signature did not verify"
    else
    payload ← jwt_part payloadB64 JR_payload_invalid "JWT payload is not valid JSON";
    rlift (read_prop payload "iss");;
    match claims_of payload with
    | None => jwt_fail JR_payload_invalid "JWT payload missing required claims"
    | Some claims =>
      if negb (jc_aud claims =?s expectedAudience) then
        jwt_fail JR_wrong_audience ("JWT audience " +:+ jc_aud claims +:+ " != expected " +:+ expectedAudience)
      else if negb (jc_iss claims =?s DEFAULT_ISSUER) then
        jwt_fail JR_wrong_issuer ("JWT issuer " +:+ jc_iss claims +:+ " != expected " +:+ DEFAULT_ISSUER)
      else
        now ← reg_now;
        let nowSeconds := now / 1000 in
        if SFltb (num_add (jc_exp claims) (num_of_Z skew)) (num_of_Z nowSeconds) then
          jwt_fail JR_expired ("JWT expired at " +:+ num_to_string (jc_exp claims) +:+ "; now is " +:+ show_Z nowSeconds)
        else if SFltb (num_of_Z nowSeconds) (SFsub 53 1024 (jc_iat claims) (num_of_Z skew)) then
          jwt_fail JR_not_yet_valid ("JWT iat " +:+ num_to_string (jc_iat claims) +:+ " is ahead of now " +:+ show_Z nowSeconds)
        else mret claims
    end
  | _ => jwt_fail JR_malformed "JWT must have 3 dot-separated parts"
  end.

Definition is_b64url (c : ascii) : bool := is_letter c || is_digit c || is_char "_" c || is_char "-" c.

Definition looksLikeJwt (token : string) : bool :=
  match split_on "." token with
  | [a; b; c] => forallb (λ part, negb (part =?s "") && all_chars is_b64url part) [a; b; c]
  | _ => false
  end.

Definition publicKeyPemFromPrivate (privateKeyPem : string) : RRes string :=
  match rk_createPrivateKey privateKeyPem with
  | inl m => inl (PlainError m)
  | inr priv =>
    if bool_decide (rk_type priv = Some "ed25519") then inr (rk_exportPem (rk_publicOf priv))
    else inl (PlainError ("cannot derive public key — input is not Ed25519 (" +:+ (rk_type priv ?? "undefined") +:+ ")"))
  end.

(** ** Bearer tokens (http/auth.ts) *)

Record ParsedToken := mkParsedToken { pt_prefix : string; pt_secret : string }.
Record RegAuthContext := mkRegAuthContext { ax_tokenPrefix : option string; ax_scopes : list string }.

Definition unauthorized_default : string := "missing or invalid bearer token".
Definition reg_unauthorized (message : string) : RErr := HttpError 401 message "unauthorized".

Definition length_within (lo hi : nat) (s : string) : bool := (lo <=? String.length s)%nat && (String.length s <=? hi)%nat.

(** TOKEN_RE *)
Definition match_registry_token (token : string) : option (string * string) :=
  match match_token token with
  | Some (p, secret) => if length_within 4 16 p && length_within 16 64 secret then Some (p, secret) else None
  | None => None
  end.

Definition parseBearerToken (authHeader : option string) : RRes ParsedToken :=
  match bearer_token authHeader with
  | None => inl (reg_unauthorized unauthorized_default)
  | Some token =>
    match match_registry_token token with
    | None => inl (reg_unauthorized "token does not match the federated sk_<prefix>_<secret> shape")
    | Some (p, secret) => inr (mkParsedToken ("sk_" +:+ p) secret)
    end
  end.

Record AuthOptions := mkAuthOptions {
  ao_allowLoopbackBypass : bool;
  ao_acceptAnyValidShape : bool;
  ao_validateToken : option (ParsedToken → option RegAuthContext);
  ao_jwtPublicKeyPem : option string
}.

Definition JwtReason_text (r : JwtReason) : string :=
  match r with
  | JR_malformed => "malformed" | JR_header_invalid => "header_invalid" | JR_payload_invalid => "payload_invalid"
  | JR_alg_unsupported => "alg_unsupported" | JR_signature_invalid => "signature_invalid" | JR_expired => "expired"
  | JR_not_yet_valid => "not_yet_valid" | JR_wrong_audience => "wrong_audience" | JR_wrong_issuer => "wrong_issuer"
  end.

Definition authenticate (opts : AuthOptions) (authorization remoteAddress : option string) : RM RegAuthContext :=
  match bearer_token authorization with
  | Some raw =>
    match truthy (ao_jwtPublicKeyPem opts), looksLikeJwt raw with
    | Some pem, true =>
      claims ← rcatch (verifyJwt raw pem DEFAULT_AUDIENCE DEFAULT_SKEW) (λ err,
        match err with
        | JwtError reason _ => rthrow (reg_unauthorized ("JWT verification failed: " +:+ JwtReason_text reason))
        | _ => rthrow err
        end);
      mret (mkRegAuthContext (Some (jc_sub claims)) ["admin"])
    | _, _ =>
      token ← rlift (parseBearerToken authorization);
      match ao_validateToken opts with
      | Some validateToken =>
        match validateToken token with
        | None => rthrow (reg_unauthorized "invalid bearer token")
        | Some ctx => mret ctx
        end
      | None =>
        if ao_acceptAnyValidShape opts then mret (mkRegAuthContext (Some (pt_prefix token)) ["admin"])
        else rthrow (reg_unauthorized unauthorized_default)
      end
    end
  | None =>
    if ao_allowLoopbackBypass opts && isLoopback remoteAddress then mret (mkRegAuthContext None ["admin"])
    else rthrow (reg_unauthorized unauthorized_default)
  end.

(** ** The bearer challenge (oci/auth.ts) *)

Record OciAuthConfig := mkOciAuthConfig {
  oa_privateKeyPem : option string;
  oa_publicKeyPem : option string;
  oa_baseUrl : string;
  oa_ttlSeconds : Z;
  oa_service : string
}.

Definition quoted (s : string) : string := String dquote (s +:+ String dquote "").

Definition get_v2 (cfg : OciAuthConfig) (authorization : option string) : RM OciResponse :=
  let granted := mkOciResponse 200 [("content-type", "application/json; charset=utf-8"); ("content-length", "2")] (OB_bytes "{}") in
  let challenge :=
    let r := writeOciError (OciError UNAUTHORIZED "authentication required" None) in
    mkOciResponse (or_status r)
      ((match truthy (oa_privateKeyPem cfg) with
        | Some _ => [("WWW-Authenticate", "Bearer realm=" +:+ quoted (oa_baseUrl cfg +:+ "/oci/token")
                                            +:+ ",service=" +:+ quoted (oa_service cfg))]
        | None => []
        end) ++ or_headers r) (or_body r) in
  match bearer_token authorization with
  | None => mret challenge
  | Some raw =>
    match parseBearerToken authorization, truthy (oa_publicKeyPem cfg) with
    | inr _, _ => mret granted
    | inl _, Some pem => rcatch (verifyJwt raw pem DEFAULT_AUDIENCE DEFAULT_SKEW;; mret granted) (λ _, mret challenge)
    | inl _, None => mret challenge
    end
  end.

Definition basic_credentials (header : option string) : option string :=
  match header with
  | Some h =>
    let r := str_drop 5 h in
    if (lower (str_take 5 h) =?s "basic") && negb (trim_start r =?s r) then Some (trim (trim_start r)) else None
  | None => None
  end.

(** The user name in front of the first colon. *)
Definition decodeBasic (b64 : string) : option string :=
  let decoded := buffer_from_base64 b64 in
  let (username, rest) := span (λ c, negb (is_char ":" c)) decoded in
  match rest with String _ _ => Some username | EmptyString => None end.

Definition issue_token (cfg : OciAuthConfig) (service scope authorization : option string) : RM OciResponse :=
  match truthy (oa_privateKeyPem cfg) with
  | None => oci_fail UNSUPPORTED "token issuance is not configured on this registry"
  | Some privateKeyPem =>
    if match service with Some s => negb (s =?s oa_service cfg) | None => false end then
      oci_fail DENIED ("service " +:+ (service ?? "") +:+ " not served; expected " +:+ oa_service cfg)
    else
    match basic_credentials authorization with
    | None => oci_fail UNAUTHORIZED "Basic Authentication required"
    | Some b64 =>
      match decodeBasic b64 with
      | None => oci_fail UNAUTHORIZED "Basic Authentication credentials malformed"
      | Some username =>
        match parseBearerToken (Some ("Bearer " +:+ username)) with
        | inl _ => oci_fail UNAUTHORIZED "Basic Authentication username is not a recognised registry bearer"
        | inr parsed =>
          minted ← mintJwt privateKeyPem (pt_prefix parsed) (scope ?? "") (oa_ttlSeconds cfg) (oa_service cfg) (oa_service cfg);
          mret (mkOciResponse 200 [("content-type", "application/json; charset=utf-8")]
            (OB_bytes (json_stringify (JObj
              [("token", JStr (mj_token minted)); ("access_token", JStr (mj_token minted));
               ("expires_in", JInt (mj_expiresIn minted)); ("issued_at", JStr (mj_issuedAt minted))]))))
        end
      end
    end
  end.

(** A refusal asks for Basic credentials. *)
Definition get_oci_token (cfg : OciAuthConfig) (service scope authorization : option string) : RM OciResponse :=
  rcatch (issue_token cfg service scope authorization) (λ err,
    let r := writeOciError err in
    let '(code, _, _) := asOciError err in
    mret (if bool_decide (code = UNAUTHORIZED)
          then mkOciResponse (or_status r) (("WWW-Authenticate", "Basic realm=" +:+ quoted (oa_service cfg)) :: or_headers r) (or_body r)
          else r)).
End auth.
