(* ===== verification/RegistrySigning.v ===== *)
(** Signatures on registry manifests (signing.ts) and the storage operation that
    pushes a manifest (storage/registry-storage.ts).  What is signed is the
    canonical JSON of the manifest without its signature. *)

From stdpp Require Import gmap strings.
From S2P Require Import Prelude JsTime JsVal Manifest Signing Build BuildYaml Probes Http Worker Registry Oci OciApp RegistryAuth.

(** ** Canonical bytes *)

Definition other_metadata_key (k : Registry.ManifestKind) : string := ManifestKind_name k +:+ "Metadata".

Definition SchemaVariant_name (v : SchemaVariant) : string := match v with SV_oci_v1 => "oci-v1" | SV_docker_v2_2 => "docker-v2-2" end.

Definition child_json (c : ChildManifest) : json :=
  JObj ([("digest", JStr (cm_digest c)); ("mediaType", JStr (cm_mediaType c)); ("size", JNum (cm_size c))]
    ++ opt_prop "platform" (option_map (λ p, let '(architecture, os, variant) := p in
         JObj ([("architecture", JStr architecture); ("os", JStr os)] ++ opt_prop "variant" (option_map JStr variant))) (cm_platform c))).

Definition oci_metadata_json (m : OciManifestMetadata) : json :=
  JObj ([("isIndex", JBool (om_isIndex m)); ("schemaVariant", JStr (SchemaVariant_name (om_schemaVariant m)))]
    ++ opt_prop "configDigest" (option_map JStr (om_configDigest m))
    ++ opt_prop "configMediaType" (option_map JStr (om_configMediaType m))
    ++ opt_prop "layerDigests" (option_map (λ l, JArr (map JStr l)) (om_layerDigests m))
    ++ opt_prop "totalSize" (option_map JNum (om_totalSize m))
    ++ opt_prop "childManifests" (option_map (λ l, JArr (map child_json l)) (om_childManifests m))
    ++ opt_prop "subjectDigest" (option_map JStr (om_subjectDigest m))
    ++ opt_prop "artifactType" (option_map JStr (om_artifactType m))).

Definition blob_ref_json (b : BlobRef) : json :=
  JObj ([("mediaType", JStr (br_mediaType b)); ("sha256", JStr (br_sha256 b))]
    ++ opt_prop "size" (option_map JNum (br_size b)) ++ opt_prop "name" (option_map JStr (br_name b))).

(** The manifest without its signature. *)
Definition unsigned_json (m : Registry.Manifest) : json :=
  JObj ([("name", JStr (mf_name m)); ("version", JStr (mf_version m)); ("mediaType", JStr (mf_mediaType m))]
    ++ opt_prop "kind" (option_map (λ k, JStr (ManifestKind_name k)) (mf_kind m))
    ++ [("blobs", JArr (map blob_ref_json (mf_blobs m)))]
    ++ opt_prop "annotations" (mf_annotations m)
    ++ opt_prop "ociMetadata" (option_map oci_metadata_json (mf_ociMetadata m))
    ++ map (λ km, (other_metadata_key km.1, km.2)) (mf_otherMetadata m)
    ++ [("createdAt", JStr (mf_createdAt m))]).

Section signing.
Context `{RegHost} `{JsEngine} `{RegCrypto}.

Definition canonicalManifestBytes (manifest : Registry.Manifest) : string := canonicalize (unsigned_json manifest).

Definition CLOCK_SKEW_TOLERANCE_MS : Z := 60000.

Definition key_fingerprint (publicKey : RKey) : string := str_take 16 (sha256 (rk_exportDer publicKey)).

Definition fingerprintPublicKey (publicKeyPem : string) : RRes string :=
  match rk_createPublicKey publicKeyPem with inl m => inl (PlainError m) | inr key => inr (key_fingerprint key) end.

(** The inline provider checks the age of the request it is handed. *)
Definition signManifest (manifest : Registry.Manifest) (privateKeyPem : string) : RM ManifestSignature :=
  match rk_createPrivateKey privateKeyPem with
  | inl m => rthrow (PlainError m)
  | inr key =>
    if negb (bool_decide (rk_type key = Some "ed25519")) then
      rthrow (RegistryError SIGNATURE_INVALID ("signing key must be Ed25519, got " +:+ (rk_type key ?? "undefined")))
    else
      let bytes := canonicalManifestBytes manifest in
      requestedAt ← reg_now;
      now ← reg_now;
      if CLOCK_SKEW_TOLERANCE_MS <? Z.abs (now - requestedAt) then
        rthrow (PlainError ("SignRequest.requestedAt skew is " +:+ show_Z (Z.abs (now - requestedAt)) +:+ "ms; policy allows up to "
          +:+ show_Z CLOCK_SKEW_TOLERANCE_MS +:+ "ms"))
      else mret (mkManifestSignature (b64_encode (rk_sign bytes key)) (key_fingerprint (rk_publicOf key)))
  end.

Definition sig_fail (message : string) : RRes bool := inl (SignatureVerificationError message).

Definition verifyManifest (canonicalBytes : string) (signature : ManifestSignature) (publicKeyPem : string) : RRes bool :=
  match rk_createPublicKey publicKeyPem with
  | inl m => inl (PlainError m)
  | inr key =>
    if negb (bool_decide (rk_type key = Some "ed25519")) then
      sig_fail ("public key must be Ed25519, got " +:+ (rk_type key ?? "undefined"))
    else
      let fp := key_fingerprint key in
      if negb (fp =?s ms_signedBy signature) then
        sig_fail ("public-key fingerprint mismatch: manifest signed by " +:+ ms_signedBy signature +:+ ", you provided " +:+ fp)
      else match rk_ofDer (buffer_from_base64 (b64_encode (rk_exportDer key))) with
      | inl m => inl (PlainError m)
      | inr publicKey =>
        if rk_verify canonicalBytes publicKey (buffer_from_base64 (ms_signatureB64 signature)) then inr true
        else sig_fail "signature is cryptographically invalid (manifest tampered or wrong key)"
      end
  end.

Definition verifyManifestInline (manifest : Registry.Manifest) (publicKeyPem : string) : RRes bool :=
  match mf_signature manifest with
  | None => sig_fail "manifest carries no signature; cannot verify"
  | Some signature => verifyManifest (canonicalManifestBytes manifest) signature publicKeyPem
  end.

(** ** Pushing a manifest (storage/registry-storage.ts) *)

Fixpoint check_refs (refs : list BlobRef) : RM unit :=
  match refs with
  | [] => mret ()
  | ref :: refs' =>
    present ← statBlob (br_sha256 ref);
    match present with
    | None => rthrow (RegistryError BLOB_NOT_FOUND ("manifest references unknown blob: " +:+ br_sha256 ref))
    | Some _ => check_refs refs'
    end
  end.

Definition storage_putManifest (manifest : Registry.Manifest) (provenance : option Provenance) : RM Registry.Manifest :=
  check_refs (mf_blobs manifest);;
  putManifest manifest (canonicalManifestBytes manifest) provenance.
End signing.
