(* ===== verification/OciVirtual.v ===== *)
(** Pull-through of the OCI facade: what a local miss fetches from a configured
    upstream (oci/virtual.ts), how it authenticates there (oci/upstream-auth.ts,
    oci/sigv4.ts) and which names it asks for (cargo/virtual.ts).  The network,
    the URL class, HMAC-SHA256 and the environment are the class [Upstream]. *)

From stdpp Require Import gmap strings.
From S2P Require Import Prelude JsTime JsVal Manifest Signing Build BuildYaml Probes ReleaseDeploy Http Worker.
From S2P Require Import Registry Oci OciApp RegistryAuth RegistrySigning.

Record FetchInit := mkFetchInit { fi_method : option string; fi_headers : list (string * string); fi_body : option string }.
Record UpstreamFetchResult := mkUpstreamFetchResult { fr_status : Z; fr_headers : list (string * string); fr_body : string }.

Class Upstream := {
  (** What the n-th request is answered, or the message of its failure. *)
  fetcher : nat → string → FetchInit → string + UpstreamFetchResult;
  (** [new URL(s)]: host, pathname and search parameters *)
  url_parse : string → option (string * string * list (string * string));
  hmac_sha256 : string → string → string;
  process_env : string → option string
}.

(** ** Which names an upstream serves (cargo/virtual.ts) *)

(** [.] in a regular expression. *)
Definition is_line_end (c : ascii) : bool := is_char (Ascii.ascii_of_nat 10) c || is_char (Ascii.ascii_of_nat 13) c.

Fixpoint globMatch (pattern s : string) : bool :=
  match pattern with
  | EmptyString => match s with EmptyString => true | _ => false end
  | String "*" pattern' =>
    (fix star (s : string) : bool :=
       globMatch pattern' s || match s with String c s' => negb (is_line_end c) && star s' | EmptyString => false end) s
  | String "?" pattern' =>
    match s with String c s' => negb (is_line_end c) && globMatch pattern' s' | EmptyString => false end
  | String d pattern' =>
    match s with String c s' => Ascii.eqb d c && globMatch pattern' s' | EmptyString => false end
  end.

Definition nameMatchesPatterns (name : string) (config : VirtualUpstreamConfig) : bool :=
  let lc := lower name in
  if existsb (λ p, globMatch p lc) (vc_deny_patterns config ?? []) then false
  else match vc_allow_patterns config with
  | Some (p :: ps) => existsb (λ p, globMatch p lc) (p :: ps)
  | _ => true
  end.

(** ** Helpers (oci/virtual.ts) *)

Inductive UpstreamFlavor := UF_dockerhub | UF_ghcr | UF_ecr.

Definition UpstreamFlavor_text (f : UpstreamFlavor) : string :=
  match f with UF_dockerhub => "dockerhub" | UF_ghcr => "ghcr" | UF_ecr => "ecr" end.

Definition upstreamFlavorFrom (upstream : VirtualUpstream) : option UpstreamFlavor :=
  match vc_upstream_flavor (vu_config upstream) with
  | Some f => if f =?s "dockerhub" then Some UF_dockerhub else if f =?s "ghcr" then Some UF_ghcr
              else if f =?s "ecr" then Some UF_ecr else None
  | None => None
  end.

(** [s.replace(/{repo}/g, repo)]; a repository name has no dollar sign.  Every step
    consumes a character. *)
Fixpoint fill_repo (fuel : nat) (repo s : string) : string :=
  match fuel, s with
  | O, _ | _, EmptyString => s
  | S fuel', String c s' =>
    if starts_with "{repo}" s then repo +:+ fill_repo fuel' repo (str_drop 6 s) else String c (fill_repo fuel' repo s')
  end.

Definition composeUpstreamRepo (localRepo : string) (upstream : VirtualUpstream) : string :=
  match truthy (vc_upstream_repo_template (vu_config upstream)) with
  | Some template => fill_repo (String.length template) localRepo template
  | None => localRepo
  end.

Definition composeFetchHeaders (authValue : string) : list (string * string) :=
  ("accept", join ", " [OCI_MANIFEST_V1; OCI_INDEX_V1; DOCKER_MANIFEST_V2_2; DOCKER_MANIFEST_LIST_V2_2])
  :: (if authValue =?s "" then [] else [("authorization", authValue)]).

Definition stripBearerPrefix (value : string) : string := bearer_token (Some value) ?? trim value.

Definition trimTrailingSlash (s : string) : string := if ends_with "/" s then str_take (String.length s - 1) s else s.

Definition header_of (r : UpstreamFetchResult) (k : string) : option string :=
  option_map snd (find_first (λ kv, kv.1 =?s k) (fr_headers r)).

(** [a?.k] *)
Definition opt_chain (v : option json) (k : string) : option json :=
  match v with Some (JObj o) => get_prop k o | _ => None end.

Definition json_text (v : option json) : option string := match v with Some (JStr s) => Some s | _ => None end.
Definition json_number (v : option json) : option jsnum := match v with Some (JNum n) => Some n | _ => None end.

(** [l.digest], [c.digest] of the elements of an array. *)
Fixpoint each_prop (k : string) (l : list json) : RRes (list (option json)) :=
  match l with
  | [] => inr []
  | v :: l' => p ← read_prop v k; ps ← each_prop k l'; inr (p :: ps)
  end.

Definition single_metadata (parsed : json) : RRes json_object :=
  let config := opt_chain (Some parsed) "config" in
  let base :=
    opt_prop "configDigest" (json_truthy (opt_chain config "digest")) ++ opt_prop "configMediaType" (json_truthy (opt_chain config "mediaType")) in
  match opt_chain (Some parsed) "layers" with
  | Some (JArr layers) =>
    digests ← each_prop "digest" layers;
    sizes ← each_prop "size" layers;
    let total := fold_left (λ acc v, num_add acc (json_number v ?? num_of_Z 0)) sizes (json_number (opt_chain config "size") ?? num_of_Z 0) in
    inr (base ++ [("layerDigests", JArr (map JStr (omap (λ v, truthy (json_text v)) digests)))]
         ++ (if SFltb (num_of_Z 0) total then [("totalSize", JNum total)] else []))
  | _ => inr base
  end.

Definition child_of (c : json) : json :=
  let platform := opt_chain (Some c) "platform" in
  JObj ([("digest", JStr (json_text (opt_chain (Some c) "digest") ?? ""));
         ("mediaType", match opt_chain (Some c) "mediaType" with None | Some JNull => JStr "" | Some v => v end);
         ("size", JNum (json_number (opt_chain (Some c) "size") ?? num_of_Z 0))]
        ++ match json_text (opt_chain platform "architecture"), json_text (opt_chain platform "os") with
           | Some architecture, Some os =>
             [("platform", JObj ([("architecture", JStr architecture); ("os", JStr os)]
                                 ++ opt_prop "variant" (json_truthy (opt_chain platform "variant"))))]
           | _, _ => []
           end).

Definition index_metadata (parsed : json) : RRes json_object :=
  match opt_chain (Some parsed) "manifests" with
  | Some (JArr manifests) =>
    each_prop "digest" manifests;;
    inr [("childManifests", JArr (map child_of (select (λ c, negb (is_null (json_text (opt_chain (Some c) "digest")))) manifests)))]
  | _ => inr []
  end.

Section virtual.
Context `{RegHost} `{JsEngine} `{RegCrypto} `{Upstream}.

Definition projectMinimalMetadata (body mediaType : string) : RRes json :=
  let isIndex := has_type INDEX_MEDIA_TYPES mediaType in
  let out := [("isIndex", JBool isIndex);
              ("schemaVariant", JStr (if str_includes mediaType "vnd.oci." then "oci-v1" else "docker-v2-2"))] in
  match JSON_parse body with
  | Some parsed =>
    more ← (if isIndex then index_metadata parsed else single_metadata parsed); inr (JObj (out ++ more))
  | None => inr (JObj out)
  end.

(** A request to an upstream; its URL is remembered. *)
Definition upstream_fetch (url : string) (init : FetchInit) : RM UpstreamFetchResult :=
  n ← tick;
  rput (λ s, set_fetches (rg_fetches s ++ [url]) s);;
  match fetcher n url init with inl m => rthrow (PlainError m) | inr r => mret r end.

(** ** AWS Signature Version 4 (oci/sigv4.ts) *)

Fixpoint hex_of (s : string) : string :=
  match s with
  | EmptyString => ""
  | String c s' => String (hex_char (code c / 16)) (String (hex_char (code c mod 16)) (hex_of s'))
  end.

Definition formatAmzDate (d : Z) : string :=
  show_Z (getUTCFullYear d) +:+ dec 2 (getUTCMonth d + 1) +:+ dec 2 (getUTCDate d) +:+ "T" +:+ dec 2 (getUTCHours d)
  +:+ dec 2 (getUTCMinutes d) +:+ dec 2 (getUTCSeconds d) +:+ "Z".

(** [encodeURIComponent(s).replace(/!/g, "%21")] *)
Fixpoint escape_bang (s : string) : string :=
  match s with
  | EmptyString => ""
  | String c s' => (if is_char "!" c then "%21" else String c "") +:+ escape_bang s'
  end.

Definition canonicalQueryString (params : list (string * string)) : string :=
  join "&" (map (λ kv, escape_bang (encodeURIComponent kv.1) +:+ "=" +:+ escape_bang (encodeURIComponent kv.2)) (order_asc fst params)).

Definition deriveSigningKey (secret dateStamp region service : string) : string :=
  hmac_sha256 (hmac_sha256 (hmac_sha256 (hmac_sha256 ("AWS4" +:+ secret) dateStamp) region) service) "aws4_request".

Definition signSigV4Request (accessKeyId secretAccessKey : string) (sessionToken : option string)
    (region service url body amzTarget : string) : RM FetchInit :=
  now ← reg_now;
  let amzDate := formatAmzDate now in
  let dateStamp := str_take 8 amzDate in
  match url_parse url with
  | None => rthrow (PlainError "Invalid URL")
  | Some (host, pathname, searchParams) =>
    let headers := [("host", host); ("x-amz-date", amzDate); ("x-amz-target", amzTarget); ("content-type", "application/x-amz-json-1.1")]
                   ++ match truthy sessionToken with Some t => [("x-amz-security-token", t)] | None => [] end in
    let sorted := order_asc fst headers in
    let signedHeaders := join ";" (map fst sorted) in
    let canonicalRequest := join newline
      ["POST"; if pathname =?s "" then "/" else pathname; canonicalQueryString searchParams;
       str_concat (map (λ kv, kv.1 +:+ ":" +:+ trim kv.2 +:+ newline) sorted); signedHeaders; sha256 body] in
    let credentialScope := dateStamp +:+ "/" +:+ region +:+ "/" +:+ service +:+ "/aws4_request" in
    let stringToSign := join newline ["AWS4-HMAC-SHA256"; amzDate; credentialScope; sha256 canonicalRequest] in
    let signature := hex_of (hmac_sha256 (deriveSigningKey secretAccessKey dateStamp region service) stringToSign) in
    let authorization := "AWS4-HMAC-SHA256 Credential=" +:+ accessKeyId +:+ "/" +:+ credentialScope +:+ ", SignedHeaders="
                         +:+ signedHeaders +:+ ", Signature=" +:+ signature in
    mret (mkFetchInit (Some "POST") (headers ++ [("authorization", authorization)]) (Some body))
  end.

(** ** Adapters (oci/upstream-auth.ts) *)

Definition plain_fail {A} (message : string) : RM A := rthrow (PlainError message).

(** URLSearchParams.toString of one text. *)
Fixpoint form_encode (s : string) : string :=
  match s with
  | EmptyString => ""
  | String c s' =>
    (if is_letter c || is_digit c || existsb (λ d, is_char d c) ["*"; "-"; "."; "_"]%char then String c ""
     else if is_char " " c then "+"
     else String "%" (String (upper_hex (code c / 16)) (String (upper_hex (code c mod 16)) ""))) +:+ form_encode s'
  end.

(** The answer of a token endpoint as JSON. *)
Definition token_body (who : string) (resp : UpstreamFetchResult) : RM json :=
  match JSON_parse (fr_body resp) with
  | Some v => mret v
  | None => plain_fail (who +:+ " returned non-JSON body: " +:+ json_syntax_error (fr_body resp))
  end.

Definition dockerHub_authorize (tokenEndpoint service : option string) (repository : string) : RM string :=
  resp ← upstream_fetch ((tokenEndpoint ?? "https://auth.docker.io/token") +:+ "?service=" +:+ form_encode (service ?? "registry.docker.io")
           +:+ "&scope=" +:+ form_encode ("repository:" +:+ repository +:+ ":pull")) (mkFetchInit None [] None);
  if negb (fr_status resp =? 200) then
    plain_fail ("dockerhub token endpoint returned " +:+ show_Z (fr_status resp) +:+ " for scope " +:+ repository +:+ ":pull")
  else
    parsed ← token_body "dockerhub token endpoint" resp;
    token ← rlift (read_prop parsed "token");
    let token := match token with None | Some JNull => opt_chain (Some parsed) "access_token" | t => t end in
    match json_truthy token with
    | None => plain_fail "dockerhub token endpoint returned no token field"
    | Some t => mret ("Bearer " +:+ js_String t)
    end.

Definition ghcr_authorize (bearerToken : option string) : RM string :=
  match truthy bearerToken with None => mret "" | Some t => mret ("Bearer " +:+ t) end.

(** [data?.[0]] *)
Definition first_of (v : option json) : option json :=
  match v with
  | Some (JArr l) => head l
  | Some (JObj o) => get_prop "0" o
  | Some (JStr (String c _)) => Some (JStr (String c ""))
  | _ => None
  end.

Definition ecr_authorize (region : string) (accessKeyId secretAccessKey sessionToken apiEndpoint : option string) : RM string :=
  let or_env v k := match v with Some x => Some x | None => process_env k end in
  match truthy (or_env accessKeyId "AWS_ACCESS_KEY_ID"), truthy (or_env secretAccessKey "AWS_SECRET_ACCESS_KEY") with
  | Some accessKeyId, Some secretAccessKey =>
    let endpoint := apiEndpoint ?? ("https://api.ecr." +:+ region +:+ ".amazonaws.com/") in
    signed ← signSigV4Request accessKeyId secretAccessKey (or_env sessionToken "AWS_SESSION_TOKEN") region "ecr" endpoint "{}"
               "AmazonEC2ContainerRegistry_V20150921.GetAuthorizationToken";
    resp ← upstream_fetch endpoint signed;
    if negb (fr_status resp =? 200) then plain_fail ("ECR GetAuthorizationToken returned " +:+ show_Z (fr_status resp))
    else
      parsed ← token_body "ECR GetAuthorizationToken" resp;
      data ← rlift (read_prop parsed "authorizationData");
      match json_truthy (opt_chain (first_of data) "authorizationToken") with
      | None => plain_fail "ECR GetAuthorizationToken: authorizationData[0].authorizationToken missing"
      | Some t => mret ("Basic " +:+ js_String t)
      end
  | _, _ => plain_fail "ECR adapter requires AWS credentials (provide accessKeyId+secretAccessKey or AWS_ACCESS_KEY_ID + AWS_SECRET_ACCESS_KEY env vars)"
  end.

(** createUpstreamAuthAdapter, then [adapter.authorize]. *)
Definition authorize_upstream (flavor : UpstreamFlavor) (config : VirtualUpstreamConfig) (repository : string) : RM string :=
  match flavor with
  | UF_dockerhub => dockerHub_authorize (truthy (vc_token_endpoint config)) (truthy (vc_token_service config)) repository
  | UF_ghcr => ghcr_authorize (option_map stripBearerPrefix (truthy (vc_auth_header_template config)))
  | UF_ecr =>
    match truthy (vc_aws_region config) with
    | None => plain_fail "ECR upstream requires config.aws_region to be set"
    | Some region => ecr_authorize region (truthy (vc_aws_access_key_id config)) (truthy (vc_aws_secret_access_key config))
                       (truthy (vc_aws_session_token config)) (truthy (vc_api_endpoint config))
    end
  end.

(** ** Pull-through (oci/virtual.ts) *)

Definition PROXY_ACTOR : string := "virtual-oci".

Definition logProxyFailure (upstream : VirtualUpstream) (phase : string) (detail : json_object) : RM unit :=
  appendAuditEntry AA_proxy_cache AE_virtual_upstream (vu_id upstream) PROXY_ACTOR
    (Some ([("kind", JStr "oci"); ("phase", JStr phase)] ++ detail));;
  mret ().

(** [try { … } catch (err) { logProxyFailure(…); continue }] *)
Definition or_log {A} (upstream : VirtualUpstream) (phase : string) (detail : json_object) (m : RM A) : RM (option A) :=
  rcatch (a ← m; mret (Some a)) (λ err, logProxyFailure upstream phase (detail ++ [("error", JStr (rerr_message err))]);; mret None).

(** The answer of an upstream below 400, and the repository and URL it was asked
    for; [None] is [continue]. *)
Definition upstream_get (upstream : VirtualUpstream) (repo path : string) : RM (option (UpstreamFlavor * string * string * UpstreamFetchResult)) :=
  if negb (nameMatchesPatterns (lower repo) (vu_config upstream)) then mret None
  else match upstreamFlavorFrom upstream with
  | None => mret None
  | Some flavor =>
    let upstreamRepo := composeUpstreamRepo repo upstream in
    authValue ← or_log upstream "auth_error" [("repository", JStr upstreamRepo)] (authorize_upstream flavor (vu_config upstream) upstreamRepo);
    match authValue with
    | None => mret None
    | Some authValue =>
      let url := trimTrailingSlash (vu_upstreamUrl upstream) +:+ "/v2/" +:+ upstreamRepo +:+ path in
      resp ← or_log upstream "fetch_error" [("url", JStr url)] (upstream_fetch url (mkFetchInit (Some "GET") (composeFetchHeaders authValue) None));
      match resp with
      | None => mret None
      | Some resp =>
        if fr_status resp =? 404 then mret None
        else if 400 <=? fr_status resp then
          logProxyFailure upstream "upstream_error" [("url", JStr url); ("status", JInt (fr_status resp))];; mret None
        else mret (Some (flavor, upstreamRepo, url, resp))
      end
    end
  end.

Record ProxiedManifest := mkProxiedManifest { px_digestHex : string; px_mediaType : string; px_body : string }.

(** Whether the digest the upstream advertises contradicts the bytes. *)
Definition digest_conflict (resp : UpstreamFetchResult) (digestHex : string) : option string :=
  match truthy (match header_of resp "docker-content-digest" with Some d => Some d | None => header_of resp "Docker-Content-Digest" end) with
  | None => None
  | Some d => match validateOciDigest d with inr hex => if hex =?s digestHex then None else Some d | inl _ => None end
  end.

Definition content_type_of (resp : UpstreamFetchResult) (default : string) : string :=
  match header_of resp "content-type" with Some t => t | None => header_of resp "Content-Type" ?? default end.

(** A signature that fails is left out, and logged. *)
Definition resigned (signingKey : option string) (upstream : VirtualUpstream) (upstreamRepo : string) (manifest : Registry.Manifest)
    : RM (option ManifestSignature) :=
  match vc_resign_on_cache (vu_config upstream), truthy signingKey with
  | true, Some pem => or_log upstream "resign_error" [("repository", JStr upstreamRepo)] (signManifest manifest pem)
  | _, _ => mret None
  end.

Definition with_signature (sig : option ManifestSignature) (m : Registry.Manifest) : Registry.Manifest :=
  mkManifest (mf_name m) (mf_version m) (mf_mediaType m) (mf_kind m) (mf_blobs m) (mf_annotations m) sig (mf_ociMetadata m)
    (mf_otherMetadata m) (mf_createdAt m).

(** Caching what was fetched; [false] is [continue]. *)
Definition cache_manifest (upstream : VirtualUpstream) (upstreamRepo : string) (manifest : Registry.Manifest) (body : string)
    (provenance : Provenance) : RM bool :=
  rcatch (putManifest manifest body (Some provenance);; mret true) (λ err,
    match err with
    | RegistryError MANIFEST_EXISTS _ => mret true
    | _ => logProxyFailure upstream "store_error" [("repository", JStr upstreamRepo); ("error", JStr (rerr_message err))];; mret false
    end).

Definition proxy_manifest_from (signingKey : option string) (org repo : string) (reference : OciReference) (upstream : VirtualUpstream)
    : RM (option ProxiedManifest) :=
  got ← upstream_get upstream repo ("/manifests/" +:+ ref_value reference);
  match got with
  | None => mret None
  | Some (flavor, upstreamRepo, url, resp) =>
    let mediaType := content_type_of resp OCI_MANIFEST_V1 in
    let digestHex := sha256 (fr_body resp) in
    match digest_conflict resp digestHex with
    | Some upstreamDigest =>
      logProxyFailure upstream "digest_mismatch" [("url", JStr url); ("upstream_digest", JStr upstreamDigest);
        ("computed_digest", JStr (SHA256_PREFIX +:+ digestHex))];; mret None
    | None =>
      storageName ← rlift (ociManifestName org repo);
      fetchedAt ← reg_nowIso;
      metadata ← rlift (projectMinimalMetadata (fr_body resp) mediaType);
      let provenance := mkProvenance PS_proxy_cache (Some (vu_upstreamUrl upstream)) fetchedAt (Some PROXY_ACTOR) None in
      let manifest := mkManifest storageName digestHex mediaType (Some Registry.MK_oci) [] None None None [(Registry.MK_oci, metadata)] fetchedAt in
      signature ← resigned signingKey upstream upstreamRepo manifest;
      cached ← cache_manifest upstream upstreamRepo (with_signature signature manifest) (fr_body resp) provenance;
      if negb cached then mret None
      else
        (match reference with Ref_tag tag => TagStore_put storageName tag digestHex;; mret () | Ref_digest _ _ => mret () end);;
        appendAuditEntry AA_proxy_cache AE_manifest (storageName +:+ "@sha256:" +:+ digestHex) PROXY_ACTOR
          (Some [("kind", JStr "oci"); ("upstream_url", JStr (vu_upstreamUrl upstream)); ("upstream_id", JStr (vu_id upstream));
                 ("upstream_flavor", JStr (UpstreamFlavor_text flavor)); ("upstream_repo", JStr upstreamRepo);
                 ("ref_kind", JStr (ref_kind reference)); ("ref_value", JStr (ref_value reference));
                 ("bytes", JInt (Z.of_nat (String.length (fr_body resp)))); ("media_type", JStr mediaType);
                 ("resigned", JBool (vc_resign_on_cache (vu_config upstream) && negb (is_null (truthy signingKey))))]);;
        mret (Some (mkProxiedManifest digestHex mediaType (fr_body resp)))
    end
  end.

(** The first upstream that has it. *)
Fixpoint first_upstream {A} (f : VirtualUpstream → RM (option A)) (l : list VirtualUpstream) : RM (option A) :=
  match l with
  | [] => mret None
  | u :: l' => r ← f u; match r with Some a => mret (Some a) | None => first_upstream f l' end
  end.

Definition proxyOciManifest (signingKey : option string) (org repo : string) (reference : OciReference) : RM (option ProxiedManifest) :=
  upstreams ← listVirtualUpstreams org (Some VK_oci) false;
  first_upstream (proxy_manifest_from signingKey org repo reference) upstreams.

Definition proxy_blob_from (repo digestHex : string) (upstream : VirtualUpstream) : RM (option string) :=
  got ← upstream_get upstream repo ("/blobs/sha256:" +:+ digestHex);
  match got with
  | None => mret None
  | Some (flavor, upstreamRepo, url, resp) =>
    let computed := sha256 (fr_body resp) in
    if negb (computed =?s digestHex) then
      logProxyFailure upstream "digest_mismatch" [("url", JStr url); ("upstream_digest", JStr (SHA256_PREFIX +:+ computed));
        ("requested_digest", JStr (SHA256_PREFIX +:+ digestHex))];; mret None
    else
      let contentType := content_type_of resp "application/octet-stream" in
      blob ← storage_putBlob (fr_body resp) (Some contentType);
      if negb (bl_sha256 blob =?s digestHex) then mret None
      else
        appendAuditEntry AA_proxy_cache AE_blob digestHex PROXY_ACTOR
          (Some [("kind", JStr "oci"); ("upstream_url", JStr (vu_upstreamUrl upstream)); ("upstream_id", JStr (vu_id upstream));
                 ("upstream_flavor", JStr (UpstreamFlavor_text flavor)); ("upstream_repo", JStr upstreamRepo);
                 ("bytes", JInt (Z.of_nat (String.length (fr_body resp)))); ("content_type", JStr contentType)]);;
        mret (Some (fr_body resp))
  end.

Definition proxyOciBlob (org repo digestHex : string) : RM (option string) :=
  upstreams ← listVirtualUpstreams org (Some VK_oci) false;
  first_upstream (proxy_blob_from repo digestHex) upstreams.

(** The facade with its upstreams (oci/mount.ts). *)
Definition mounted (cfg : OciConfig) (signingKey : option string) : OciConfig :=
  mkOciConfig (oc_baseUrl cfg) (oc_ttlSeconds cfg) (oc_maxManifestBytes cfg) (oc_allowDelete cfg) (oc_defaultPageSize cfg)
    (oc_maxPageSize cfg)
    (Some (λ org repo digestHex, b ← proxyOciBlob org repo digestHex; mret (negb (is_null b))))
    (Some (λ org repo reference, m ← proxyOciManifest signingKey org repo reference; mret (option_map px_digestHex m))).
End virtual.
