(* ===== verification/Cargo.v ===== *)
(** The registry's Cargo facade: crate names and index paths (cargo/paths.ts), the
    sparse index and downloads (cargo/read.ts), publishing and yanking
    (cargo/publish.ts, and setCargoYanked of storage/sqlite-index.ts) and the
    pull-through from an upstream index (cargo/virtual.ts). *)

From stdpp Require Import gmap strings.
From S2P Require Import Prelude JsTime JsVal JsonReader Manifest Signing Build BuildYaml Probes ReleaseDeploy Http Worker.
From S2P Require Import Registry Oci OciApp RegistryAuth RegistrySigning OciVirtual.

(** ** Paths (cargo/paths.ts) *)

Definition is_crate_char (c : ascii) : bool := is_letter c || is_digit c || is_char "_" c || is_char "-" c.

(** CRATE_NAME_RE *)
Definition is_crate_name (name : string) : bool :=
  (1 <=? String.length name)%nat && (String.length name <=? 64)%nat && all_chars is_crate_char name.

Definition validateCargoCrateName (name : string) : RRes unit :=
  if negb (is_crate_name name) then
    inl (RegistryError BAD_NAME ("invalid cargo crate name (must match [a-zA-Z0-9_-]{1,64}): " +:+ cargo_truncate name))
  else inr ().

(** The path of a name, once it is known to be one. *)
Definition index_path (name : string) : string :=
  let lc := lower name in
  match String.length lc with
  | 1%nat => "1/" +:+ name
  | 2%nat => "2/" +:+ name
  | 3%nat => "3/" +:+ str_take 1 lc +:+ "/" +:+ name
  | _ => str_take 2 lc +:+ "/" +:+ str_take 2 (str_drop 2 lc) +:+ "/" +:+ name
  end.

Definition sparseIndexPathFor (name : string) : RRes string :=
  validateCargoCrateName name ≫= λ _, inr (index_path name).

Definition path_candidate (parts : list string) : option string :=
  match parts with
  | [a; b] => if (a =?s "1") || (a =?s "2") then Some b else None
  | [_; _; c] => Some c
  | _ => None
  end.

Definition crateNameFromSparseIndexPath (suffix : string) : option string :=
  let path := if starts_with "/" suffix then str_drop 1 suffix else suffix in
  match path_candidate (split_on "/" path) with
  | None => None
  | Some candidate =>
    if negb (is_crate_name candidate) then None
    else if negb (index_path candidate =?s path) then None else Some candidate
  end.

Definition CARGO_PREFIX : string := "cargo/".

Definition cargoManifestName (org crateName : string) : RRes string :=
  validateCargoOrgName org ≫= λ _, validateCargoCrateName crateName ≫= λ _, inr (CARGO_PREFIX +:+ org +:+ "/" +:+ lower crateName).

(** ** The publish body (cargo/publish.ts) *)

(** [body.readUInt32LE(offset)] *)
Definition byte_at (i : nat) (s : string) : Z := match String.get i s with Some c => Z.of_nat (code c) | None => 0 end.
Definition readUInt32LE (s : string) (offset : nat) : Z :=
  byte_at offset s + 2 ^ 8 * byte_at (offset + 1) s + 2 ^ 16 * byte_at (offset + 2) s + 2 ^ 24 * byte_at (offset + 3) s.

Definition bad_manifest (message : string) : RErr := RegistryError BAD_MANIFEST message.

(** [v ?? d] *)
Definition nullish (v : option json) (d : json) : json := match v with None | Some JNull => d | Some x => x end.
(** [...(v != null ? { k: v } : {})] *)
Definition non_null (k : string) (v : option json) : json_object := match v with None | Some JNull => [] | Some x => [(k, x)] end.

(** A text that is not empty. *)
Definition publish_text (v : option json) : option string := truthy (json_text v).

Definition validatePublishMetadata (metadata : json) : RRes (string * string) :=
  name ← read_prop metadata "name";
  match publish_text name with
  | None => inl (bad_manifest "cargo publish metadata: name is required")
  | Some name =>
    validateCargoCrateName name;;
    match publish_text (opt_chain (Some metadata) "vers") with
    | None => inl (bad_manifest "cargo publish metadata: vers is required")
    | Some vers =>
      match opt_chain (Some metadata) "deps" with
      | None | Some (JArr _) => inr (name, vers)
      | Some _ => inl (bad_manifest "cargo publish metadata: deps must be an array when set")
      end
    end
  end.

Section bodies.
Context `{RegHost} `{JsEngine}.

Definition parsePublishBody (body : string) : RRes (json * string * string * string) :=
  let len := Z.of_nat (String.length body) in
  if len <? 8 then
    inl (bad_manifest ("cargo publish body too short (" +:+ show_Z len +:+ " bytes); minimum 8 bytes for the two length prefixes"))
  else
    let metaLen := readUInt32LE body 0 in
    if len <? 4 + metaLen + 4 then
      inl (bad_manifest ("cargo publish body: declared metadata length " +:+ show_Z metaLen +:+ " exceeds body"))
    else
      let metaJson := str_take (Z.to_nat metaLen) (str_drop 4 body) in
      match JSON_parse metaJson with
      | None => inl (bad_manifest ("cargo publish body: metadata is not valid JSON: " +:+ json_syntax_error metaJson))
      | Some metadata =>
        let tarLenOffset := 4 + metaLen in
        let tarLen := readUInt32LE body (Z.to_nat tarLenOffset) in
        if negb (tarLenOffset + 4 + tarLen =? len) then
          inl (bad_manifest ("cargo publish body: declared tarball length " +:+ show_Z tarLen +:+ " does not match remaining "
            +:+ show_Z (len - tarLenOffset - 4) +:+ " bytes"))
        else
          let tarball := str_drop (Z.to_nat (tarLenOffset + 4)) body in
          nv ← validatePublishMetadata metadata;
          inr (metadata, nv.1, nv.2, tarball)
      end.

Definition normaliseDep (dep : json) : RRes json :=
  name ← read_prop dep "name";
  let get k := opt_chain (Some dep) k in
  match json_truthy name, json_truthy (get "req") with
  | Some name, Some req =>
    inr (JObj ([("name", name); ("req", req); ("features", nullish (get "features") (JArr []));
                ("optional", nullish (get "optional") (JBool false)); ("default_features", nullish (get "default_features") (JBool true));
                ("target", nullish (get "target") JNull); ("kind", nullish (get "kind") (JStr "normal"));
                ("registry", nullish (get "registry") JNull)] ++ opt_prop "package" (json_truthy (get "package"))))
  | _, _ => inl (bad_manifest ("cargo publish metadata: dep missing required name + req: " +:+ json_stringify dep))
  end.

Fixpoint normaliseDeps (deps : list json) : RRes (list json) :=
  match deps with
  | [] => inr []
  | d :: ds => x ← normaliseDep d; xs ← normaliseDeps ds; inr (x :: xs)
  end.

(** [metadata.deps ?? []] of validated metadata. *)
Definition deps_of (metadata : json) : list json := match opt_chain (Some metadata) "deps" with Some (JArr l) => l | _ => [] end.

Definition publishMetadataToStored (metadata : json) (name vers cksum : string) : RRes json :=
  let get k := opt_chain (Some metadata) k in
  deps ← normaliseDeps (deps_of metadata);
  inr (JObj ([("name", JStr (lower name)); ("vers", JStr vers); ("deps", JArr deps); ("cksum", JStr cksum);
              ("features", nullish (get "features") (JObj [])); ("yanked", nullish (get "yanked") (JBool false))]
             ++ non_null "rust_version" (get "rust_version") ++ non_null "links" (get "links"))).

(** The sparse-index entry of stored metadata (serializeIndexEntry). *)
Definition serializeIndexEntry (meta : json) : json :=
  let get k := opt_chain (Some meta) k in
  JObj (opt_prop "name" (get "name") ++ opt_prop "vers" (get "vers") ++ opt_prop "deps" (get "deps") ++ opt_prop "cksum" (get "cksum")
        ++ [("features", nullish (get "features") (JObj []))] ++ opt_prop "yanked" (get "yanked")
        ++ opt_prop "rust_version" (get "rust_version") ++ opt_prop "links" (get "links")).
End bodies.

(** ** Requests and responses *)

Inductive CargoBody :=
| CB_config (dl api : string)
| CB_text (t : string)
| CB_tar (content : string)
| CB_error (code message : string)
| CB_warnings
| CB_ok.

Record CargoResponse := mkCargoResponse { cr_status : Z; cr_headers : list (string * string); cr_body : CargoBody }.

Definition write404 (code message : string) : CargoResponse :=
  mkCargoResponse 404 [("content-type", "application/json; charset=utf-8")] (CB_error code message).

Definition index_reply (text : string) : CargoResponse :=
  mkCargoResponse 200 [("content-type", "application/json; charset=utf-8")] (CB_text text).

Definition tar_headers (name version : string) (length : option string) : list (string * string) :=
  [("content-type", "application/x-tar");
   ("content-disposition", "attachment; filename=" +:+ quoted (name +:+ "-" +:+ version +:+ ".crate"))]
  ++ match length with Some n => [("content-length", n)] | None => [] end.

(** [m.cargoMetadata] *)
Definition cargo_metadata (m : Registry.Manifest) : option json :=
  option_map snd (find_first (λ km, bool_decide (km.1 = MK_cargo)) (mf_otherMetadata m)).

Definition CRATE_MEDIA_TYPE : string := "application/vnd.signalman.cargo-crate.v1+json".
Definition DEFAULT_MAX_PUBLISH_BYTES : Z := 10 * 1024 * 1024.
Definition CARGO_ACTOR : string := "virtual-cargo".

Definition bad_crate_version (version : string) : bool := (version =?s "") || negb (all_chars (λ c, negb (is_space c) && negb (is_char "/" c)) version).

Section facade.
Context `{RegHost} `{JsEngine} `{RegCrypto} `{Upstream}.

(** ** Publishing (cargo/publish.ts) *)

(** The body arrives in one piece: the message of a body that is too large then
    carries its whole length. *)
Definition readBodyStream (stream : StreamBody) (max : Z) : RM string :=
  body ← readChunk stream;
  if max <? Z.of_nat (String.length body) then
    rthrow (bad_manifest ("cargo publish body too large: " +:+ show_Z (Z.of_nat (String.length body)) +:+ " bytes (max " +:+ show_Z max +:+ ")"))
  else mret body.

Definition put_crate (maxPublishBytes : Z) (org : string) (stream : option StreamBody) (tokenPrefix : option string) : RM CargoResponse :=
  rlift (validateCargoOrgName org);;
  match stream with
  | None => rthrow (bad_manifest "cargo publish requires a request body")
  | Some stream =>
    body ← readBodyStream stream maxPublishBytes;
    parsed ← rlift (parsePublishBody body);
    let '(metadata, name, vers, tarball) := parsed in
    let cksum := sha256 tarball in
    blobMeta ← storage_putBlob tarball (Some "application/x-tar");
    if negb (bl_sha256 blobMeta =?s cksum) then
      rthrow (bad_manifest ("cargo publish: stored blob sha256 " +:+ bl_sha256 blobMeta +:+ " does not match computed " +:+ cksum))
    else
      cargoMetadata ← rlift (publishMetadataToStored metadata name vers cksum);
      manifestName ← rlift (cargoManifestName org name);
      createdAt ← reg_nowIso;
      let manifest := mkManifest manifestName vers CRATE_MEDIA_TYPE (Some MK_cargo)
        [mkBlobRef "application/x-tar" cksum (Some (num_of_Z (Z.of_nat (String.length tarball)))) (Some (name +:+ "-" +:+ vers +:+ ".crate"))]
        None None None [(MK_cargo, cargoMetadata)] createdAt in
      let provenance := mkProvenance PS_upload None createdAt (option_map last16 tokenPrefix) None in
      rcatch (storage_putManifest manifest (Some provenance)) (λ err,
        match err with
        | RegistryError MANIFEST_EXISTS _ =>
          rthrow (RegistryError MANIFEST_EXISTS ("cargo crate " +:+ name +:+ "@" +:+ vers +:+ " already published with different content"))
        | _ => rthrow err
        end);;
      appendAuditEntry AA_upload AE_cargo_crate (manifestName +:+ "@" +:+ vers) (tokenPrefix ?? "anonymous")
        (Some [("tarball_bytes", JInt (Z.of_nat (String.length tarball))); ("cksum", JStr cksum); ("org", JStr org)]);;
      mret (mkCargoResponse 200 json_headers CB_warnings)
  end.

(** ** Yanking (cargo/publish.ts, storage/sqlite-index.ts) *)

Definition set_metadata (meta : json) (row : ManifestRow) : list (Registry.ManifestKind * json) :=
  map (λ km, if bool_decide (km.1 = MK_cargo) then (MK_cargo, meta) else km) (mr_other_metadata row).

(** [meta.yanked = yanked] *)
Definition with_yanked (meta : json) (yanked : bool) : json :=
  match meta with JObj o => JObj (set_prop "yanked" (JBool yanked) o) | _ => meta end.

(** The row after the update: its bytes are computed again and its signature goes. *)
Definition yanked_row (meta : json) (row : ManifestRow) : ManifestRow :=
  let changed bytes b64 by_ := mkManifestRow (mr_name row) (mr_version row) (mr_media_type row) (mr_blobs row) (mr_annotations row) b64 by_
    bytes (mr_created_at row) (mr_kind row) (mr_provenance row) (mr_oci_metadata row) (set_metadata meta row) in
  changed (canonicalManifestBytes (rowToManifest (changed (mr_canonical_bytes row) (mr_signature_b64 row) (mr_signed_by row)))) None None.

Definition setCargoYanked (name version : string) (yanked : bool) : RM unit :=
  rlift (validateManifestName name);; rlift (validateManifestVersion version);;
  row ← fetchRow name version;
  let missing := rthrow (RegistryError MANIFEST_NOT_FOUND ("cargo crate " +:+ name +:+ "@" +:+ version +:+ " not found")) in
  match row with
  | None => missing
  | Some row =>
    match option_map snd (find_first (λ km, bool_decide (km.1 = MK_cargo)) (mr_other_metadata row)) with
    | None => missing
    | Some meta =>
      if negb (bool_decide (mr_kind row = MK_cargo)) then missing
      else if match opt_chain (Some meta) "yanked" with Some (JBool b) => eqb b yanked | _ => false end then mret ()
      else rput (λ s, set_manifest (update_where (is_row name version) (yanked_row (with_yanked meta yanked)) (rg_manifest s)) s)
    end
  end.

Definition mutateYank (org name version : string) (tokenPrefix : option string) (yanked : bool) : RM CargoResponse :=
  rlift (validateCargoOrgName org);;
  rlift (validateCargoCrateName name);;
  if bad_crate_version version then rthrow (RegistryError BAD_VERSION ("invalid cargo crate version: " +:+ version))
  else
    manifestName ← rlift (cargoManifestName org name);
    manifest ← getManifest manifestName version;
    match manifest with
    | Some m =>
      if negb (bool_decide (mf_kind m = Some MK_cargo)) || is_null (json_truthy (cargo_metadata m)) then
        rthrow (RegistryError MANIFEST_NOT_FOUND ("cargo crate " +:+ org +:+ "/" +:+ name +:+ "@" +:+ version +:+ " not found"))
      else
        setCargoYanked manifestName version yanked;;
        appendAuditEntry (if yanked then AA_yank else AA_unyank) AE_cargo_crate (manifestName +:+ "@" +:+ version) (tokenPrefix ?? "anonymous")
          (Some [("org", JStr org); ("name", JStr name); ("version", JStr version)]);;
        mret (mkCargoResponse 200 json_headers CB_ok)
    | None => rthrow (RegistryError MANIFEST_NOT_FOUND ("cargo crate " +:+ org +:+ "/" +:+ name +:+ "@" +:+ version +:+ " not found"))
    end.

(** ** Pull-through (cargo/virtual.ts) *)

Definition joinUrl (base suffix : string) : string :=
  trimTrailingSlash base +:+ (if starts_with "/" suffix then suffix else "/" +:+ suffix).

Definition buildAuthHeaders (config : VirtualUpstreamConfig) : list (string * string) :=
  match truthy (vc_auth_header_template config) with Some t => [("authorization", t)] | None => [] end.

Definition cargo_audit (upstream : VirtualUpstream) (phase : string) (detail : json_object) : RM unit :=
  appendAuditEntry AA_proxy_cache AE_virtual_upstream (vu_id upstream) CARGO_ACTOR (Some (("phase", JStr phase) :: detail));; mret ().

(** A request to the upstream; a failure is logged, and [None] is [continue]. *)
Definition cargo_fetch (upstream : VirtualUpstream) (url phase : string) (detail : json_object) : RM (option UpstreamFetchResult) :=
  rcatch (r ← upstream_fetch url (mkFetchInit None (buildAuthHeaders (vu_config upstream)) None); mret (Some r)) (λ err,
    cargo_audit upstream phase ([("url", JStr url)] ++ detail ++ [("error", JStr (rerr_message err))]);; mret None).

Definition normaliseCargoMetadata (entry : json) : json :=
  let get k := opt_chain (Some entry) k in
  JObj (opt_prop "name" (get "name") ++ opt_prop "vers" (get "vers") ++ [("deps", nullish (get "deps") (JArr []))] ++ opt_prop "cksum" (get "cksum")
        ++ [("features", nullish (get "features") (JObj [])); ("yanked", nullish (get "yanked") (JBool false))]
        ++ non_null "rust_version" (get "rust_version") ++ non_null "links" (get "links")).

(** The text that a validator is given.  For anything but a text the call throws,
    as a rule because a string method is missing; the errors are not told apart. *)
Definition text_or_throw (v : json) (method : string) : RRes string :=
  match v with JStr s => inr s | _ => inl (PlainError (method +:+ " is not a function")) end.

Definition cacheUpstreamVersion (signingKey : option string) (org : string) (upstream : VirtualUpstream) (entry name vers cksum : json) : RM bool :=
  name ← rlift (text_or_throw name "crateName.toLowerCase");
  manifestName ← rlift (cargoManifestName org name);
  vers ← rlift (text_or_throw vers "version.includes");
  existing ← getManifest manifestName vers;
  match existing with
  | Some _ => mret false
  | None =>
    createdAt ← reg_nowIso;
    let manifest := mkManifest manifestName vers CRATE_MEDIA_TYPE (Some MK_cargo)
      [mkBlobRef "application/x-tar" (js_String cksum) None (Some (name +:+ "-" +:+ vers +:+ ".crate"))]
      None None None [(MK_cargo, normaliseCargoMetadata entry)] createdAt in
    signature ← (match vc_resign_on_cache (vu_config upstream), truthy signingKey with
                 | true, Some pem =>
                   rcatch (sig ← signManifest manifest pem; mret (Some sig)) (λ err,
                     cargo_audit upstream "resign_error" [("name", JStr name); ("vers", JStr vers); ("error", JStr (rerr_message err))];; mret None)
                 | _, _ => mret None
                 end);
    let signed := with_signature signature manifest in
    let provenance := mkProvenance PS_proxy_cache (Some (vu_upstreamUrl upstream)) createdAt (Some CARGO_ACTOR) None in
    stored ← rcatch (putManifest signed (canonicalManifestBytes signed) (Some provenance);; mret true) (λ err,
      cargo_audit upstream "store_error" [("name", JStr name); ("vers", JStr vers); ("error", JStr (rerr_message err))];; mret false);
    if negb stored then mret false
    else
      appendAuditEntry AA_proxy_cache AE_cargo_crate (manifestName +:+ "@" +:+ vers) CARGO_ACTOR
        (Some [("upstream_url", JStr (vu_upstreamUrl upstream)); ("upstream_id", JStr (vu_id upstream)); ("org", JStr org);
               ("name", JStr name); ("vers", JStr vers); ("cksum", cksum);
               ("resigned", JBool (vc_resign_on_cache (vu_config upstream) && negb (is_null (truthy signingKey))))]);;
      mret true
  end.

(** One line of the upstream's index; lines that are no JSON or lack a field are
    passed over. *)
Definition cache_line (signingKey : option string) (org : string) (upstream : VirtualUpstream) (line : string) : RM bool :=
  match JSON_parse line with
  | None => mret false
  | Some entry =>
    name ← rlift (read_prop entry "name");
    match json_truthy name, json_truthy (opt_chain (Some entry) "vers"), json_truthy (opt_chain (Some entry) "cksum") with
    | Some name, Some vers, Some cksum => cacheUpstreamVersion signingKey org upstream entry name vers cksum
    | _, _, _ => mret false
    end
  end.

Fixpoint cache_lines (signingKey : option string) (org : string) (upstream : VirtualUpstream) (lines : list string) : RM nat :=
  match lines with
  | [] => mret O
  | l :: ls =>
    ok ← cache_line signingKey org upstream l;
    n ← cache_lines signingKey org upstream ls;
    mret (if ok : bool then S n else n)
  end.

(** The index lines of the stored versions. *)
Fixpoint index_lines (versions : list ListedManifest) : RM (list string) :=
  match versions with
  | [] => mret []
  | v :: vs =>
    m ← getManifest (lm_name v) (lm_version v);
    rest ← index_lines vs;
    mret (match m with
          | Some m => match bool_decide (mf_kind m = Some MK_cargo), json_truthy (cargo_metadata m) with
                      | true, Some meta => json_stringify (serializeIndexEntry meta) :: rest
                      | _, _ => rest
                      end
          | None => rest
          end)
  end.

Definition body_lines (body : string) : list string :=
  select (λ l, negb (l =?s "")) (map trim (split_on (Ascii.ascii_of_nat 10) body)).

Definition ndjson (lines : list string) : string := join newline lines +:+ newline.

(** [Some r] ends the loop with [r]. *)
Definition proxy_index_from (signingKey : option string) (org name : string) (upstream : VirtualUpstream) : RM (option (option string)) :=
  if negb (nameMatchesPatterns name (vu_config upstream)) then mret None
  else
    path ← rlift (sparseIndexPathFor name);
    let url := joinUrl (vu_upstreamUrl upstream) path in
    resp ← cargo_fetch upstream url "fetch_error" [("name", JStr name)];
    match resp with
    | None => mret None
    | Some resp =>
      if fr_status resp =? 404 then mret None
      else if 400 <=? fr_status resp then
        cargo_audit upstream "upstream_error" [("url", JStr url); ("name", JStr name); ("status", JInt (fr_status resp))];; mret None
      else
        cached ← cache_lines signingKey org upstream (body_lines (fr_body resp));
        if (cached =? 0)%nat then mret None
        else
          manifestName ← rlift (cargoManifestName org name);
          versions ← listManifestVersions manifestName;
          lines ← index_lines versions;
          mret (Some (match lines with [] => None | _ => Some (ndjson lines) end))
    end.

Definition proxyCargoSparseIndex (signingKey : option string) (org name : string) : RM (option string) :=
  upstreams ← listVirtualUpstreams org (Some VK_cargo) false;
  r ← first_upstream (proxy_index_from signingKey org name) upstreams;
  mret (match r with Some r => r | None => None end).

Definition proxy_download_from (name version : string) (upstream : VirtualUpstream) : RM (option (string * string)) :=
  if negb (nameMatchesPatterns name (vu_config upstream)) then mret None
  else
    let url := joinUrl (vu_upstreamUrl upstream) (name +:+ "/" +:+ version +:+ "/download") in
    resp ← cargo_fetch upstream url "download_fetch_error" [("name", JStr name); ("version", JStr version)];
    match resp with
    | None => mret None
    | Some resp =>
      if fr_status resp =? 404 then mret None
      else if 400 <=? fr_status resp then mret None
      else
        let sha := sha256 (fr_body resp) in
        blob ← storage_putBlob (fr_body resp) (Some "application/x-tar");
        if negb (bl_sha256 blob =?s sha) then mret None
        else
          cargo_audit upstream "download_cached" [("url", JStr url); ("name", JStr name); ("version", JStr version);
            ("bytes", JInt (Z.of_nat (String.length (fr_body resp)))); ("sha256", JStr sha)];;
          mret (Some (sha, fr_body resp))
    end.

Definition proxyCargoDownload (org name version : string) : RM (option (string * string)) :=
  upstreams ← listVirtualUpstreams org (Some VK_cargo) false;
  first_upstream (proxy_download_from name version) upstreams.

(** ** Reading (cargo/read.ts) *)

Definition get_cargo_config (baseUrl org : string) : RM CargoResponse :=
  rlift (validateCargoOrgName org);;
  mret (mkCargoResponse 200 json_headers
    (CB_config (baseUrl +:+ "/cargo/" +:+ org +:+ "/api/v1/crates/{crate}/{version}/download") (baseUrl +:+ "/cargo/" +:+ org))).

Definition get_sparse_index (signingKey : option string) (org rest : string) : RM CargoResponse :=
  match validateCargoOrgName org with
  | inl err => mret (write404 "bad_name" (rerr_message err))
  | inr _ =>
    match crateNameFromSparseIndexPath rest with
    | None => mret (write404 "not_found" "cargo sparse-index entry not found")
    | Some name =>
      manifestName ← rlift (cargoManifestName org name);
      versions ← listManifestVersions manifestName;
      lines ← index_lines versions;
      match lines with
      | [] =>
        proxied ← proxyCargoSparseIndex signingKey org name;
        match proxied with
        | Some text => mret (index_reply text)
        | None => mret (write404 "not_found" ("cargo crate not found: " +:+ org +:+ "/" +:+ name))
        end
      | _ => mret (index_reply (ndjson lines))
      end
    end
  end.

Definition tar_reply (name version : string) (length : option string) (content : string) : CargoResponse :=
  mkCargoResponse 200 (tar_headers name version length) (CB_tar content).

Definition get_crate (org name version : string) : RM CargoResponse :=
  match validateCargoOrgName org ≫= λ _, validateCargoCrateName name with
  | inl err => mret (write404 "bad_name" (rerr_message err))
  | inr _ =>
    if bad_crate_version version then mret (write404 "bad_version" ("invalid cargo crate version: " +:+ version))
    else
      manifestName ← rlift (cargoManifestName org name);
      manifest ← getManifest manifestName version;
      match manifest with
      | None =>
        proxied ← proxyCargoDownload org name version;
        match proxied with
        | Some (_, bytes) => mret (tar_reply name version (Some (show_Z (Z.of_nat (String.length bytes)))) bytes)
        | None => mret (write404 "not_found" ("cargo crate " +:+ org +:+ "/" +:+ name +:+ "@" +:+ version +:+ " not found"))
        end
      | Some m =>
        if negb (bool_decide (mf_kind m = Some MK_cargo)) then
          mret (write404 "bad_manifest" ("manifest " +:+ mf_name m +:+ "@" +:+ mf_version m +:+ " is not a cargo crate (kind="
            +:+ ManifestKind_name (mf_kind m ?? Registry.MK_generic) +:+ ")"))
        else match mf_blobs m with
        | [] => mret (write404 "bad_manifest" ("cargo manifest " +:+ mf_name m +:+ "@" +:+ mf_version m +:+ " pins no blobs"))
        | ref :: _ =>
          stream ← rcatch (b ← getBlob (br_sha256 ref); mret (Some b)) (λ err,
            match err with RegistryError BLOB_NOT_FOUND _ => mret None | _ => rthrow err end);
          match stream with
          | Some content => mret (tar_reply name version (option_map num_to_string (br_size ref)) content)
          | None =>
            proxied ← proxyCargoDownload org name version;
            match proxied with
            | Some (sha, bytes) =>
              if sha =?s br_sha256 ref then mret (tar_reply name version (Some (show_Z (Z.of_nat (String.length bytes)))) bytes)
              else mret (write404 "blob_not_found" ("crate tarball blob not found: " +:+ br_sha256 ref))
            | None => mret (write404 "blob_not_found" ("crate tarball blob not found: " +:+ br_sha256 ref))
            end
          end
        end
      end
  end.
End facade.
