(* ===== verification/RegistryApp.v ===== *)
(** The registry's HTTP application: the router (http/router.ts), the error mapping
    (http/errors.ts), the generic routes (http/app.ts), the forensic routes
    (http/forensic.ts) and, mounted beside them, the Cargo facade and the OCI facade
    with their upstreams and the bearer challenge (oci/mount.ts). *)

From stdpp Require Import gmap strings.
From S2P Require Import Prelude JsTime JsVal Manifest Signing Build BuildYaml Probes ReleaseDeploy Http Worker.
From S2P Require Import Registry Oci OciApp RegistryAuth RegistrySigning OciVirtual Cargo.

(** ** Requests and responses *)

Record RegRequest := mkRegRequest {
  gq_base : Request;
  gq_contentRange : option string;
  gq_accept : option string
}.

Inductive RegBody :=
| RB_null
| RB_health (version : string)
| RB_error (code message : string)
| RB_blob (b : Blob)
| RB_bytes (content : string)
| RB_manifest (m : Registry.Manifest) (canonical : option string)
| RB_versions (l : list ListedManifest)
| RB_provenance (m : Registry.Manifest) (p : option Provenance)
| RB_audit (l : list RegistryAuditEntry) (limit : Z)
| RB_summary (total : Z) (byKind : list (string * list (string * Z))) (raw : list (string * string * Z))
| RB_upstreams (l : list (string * Z))
| RB_oci (b : OciBody)
| RB_cargo (b : CargoBody).

Record RegResponse := mkRegResponse { rr_status : Z; rr_headers : list (string * string); rr_body : RegBody }.

Definition json_reply (status : Z) (body : RegBody) : RegResponse := mkRegResponse status json_headers body.
Definition oci_reply (r : OciResponse) : RegResponse := mkRegResponse (or_status r) (or_headers r) (RB_oci (or_body r)).

Definition cargo_reply (r : CargoResponse) : RegResponse := mkRegResponse (cr_status r) (cr_headers r) (RB_cargo (cr_body r)).

(** ** Errors (http/errors.ts) *)

Definition reg_badRequest (message : string) : RErr := HttpError 400 message "bad_request".
Definition reg_notFound (message : string) : RErr := HttpError 404 message "not_found".
Definition reg_forbidden (message : string) : RErr := HttpError 403 message "forbidden".

Definition RegistryErrorCode_text (c : RegistryErrorCode) : string :=
  match c with
  | BAD_BLOB_REF => "bad_blob_ref" | BAD_MANIFEST => "bad_manifest" | BAD_NAME => "bad_name" | BAD_VERSION => "bad_version"
  | BAD_SHA256 => "bad_sha256" | BLOB_NOT_FOUND => "blob_not_found" | MANIFEST_NOT_FOUND => "manifest_not_found"
  | MANIFEST_EXISTS => "manifest_exists" | SIGNATURE_INVALID => "signature_invalid" | REG_UNAUTHORIZED => "unauthorized"
  | FORBIDDEN => "forbidden"
  end.

Definition REGISTRY_CODE_TO_STATUS (c : RegistryErrorCode) : Z :=
  match c with
  | BAD_BLOB_REF | BAD_MANIFEST | BAD_NAME | BAD_VERSION | BAD_SHA256 => 400
  | BLOB_NOT_FOUND | MANIFEST_NOT_FOUND => 404
  | MANIFEST_EXISTS => 409
  | SIGNATURE_INVALID => 422
  | REG_UNAUTHORIZED => 401
  | FORBIDDEN => 403
  end.

Definition reg_mapError (err : RErr) : RegResponse :=
  match err with
  | HttpError status message code => json_reply status (RB_error code message)
  | RegistryError code message => json_reply (REGISTRY_CODE_TO_STATUS code) (RB_error (RegistryErrorCode_text code) message)
  | SignatureVerificationError message => json_reply 422 (RB_error "signature_invalid" message)
  | _ => json_reply 500 (RB_error "internal_error" "internal server error")
  end.

(** ** Bodies of manifests (http/app.ts) *)

Definition prop_of (v : json) (k : string) : option json := match v with JObj o => get_prop k o | _ => None end.

(** [v && typeof v === "object"] *)
Definition object_or_none (v : option json) : option json :=
  match v with Some (JObj o) => Some (JObj o) | Some (JArr l) => Some (JArr l) | _ => None end.

Definition parse_blob_ref (idx : nat) (entry : json) : RRes BlobRef :=
  let context := "blobs[" +:+ show_Z (Z.of_nat idx) +:+ "]" in
  match object_or_none (Some entry) with
  | None => inl (reg_badRequest (context +:+ " must be an object"))
  | Some ref =>
    match truthy (json_text (prop_of ref "mediaType")), json_text (prop_of ref "sha256") with
    | None, _ => inl (reg_badRequest (context +:+ ".mediaType is required (string)"))
    | _, None => inl (reg_badRequest (context +:+ ".sha256 is required (string)"))
    | Some mediaType, Some sha =>
      match validateSha256 sha with
      | inl err => inl (reg_badRequest (context +:+ ": " +:+ rerr_message err))
      | inr _ =>
        let size := match json_number (prop_of ref "size") with
                    | Some n => if num_isInteger n && SFleb (num_of_Z 0) n then Some n else None
                    | None => None
                    end in
        inr (mkBlobRef mediaType sha size (json_text (prop_of ref "name")))
      end
    end
  end.

Fixpoint parse_blob_refs (idx : nat) (entries : list json) : RRes (list BlobRef) :=
  match entries with
  | [] => inr []
  | e :: es => b ← parse_blob_ref idx e; bs ← parse_blob_refs (S idx) es; inr (b :: bs)
  end.

Definition parseSignatureBody (value : option json) : RRes (option ManifestSignature) :=
  match value with
  | None | Some JNull => inr None
  | Some v =>
    match object_or_none (Some v) with
    | None => inl (reg_badRequest "signature must be an object")
    | Some o =>
      match json_text (prop_of o "signatureB64"), json_text (prop_of o "signedBy") with
      | Some b, Some k => inr (Some (mkManifestSignature b k))
      | _, _ => inl (reg_badRequest "signature.signatureB64 and signature.signedBy are required")
      end
    end
  end.

Definition parse_kind (v : option json) : option Registry.ManifestKind :=
  match v with
  | Some (JStr s) => find_first (λ k, ManifestKind_name k =?s s) [Registry.MK_generic; MK_cargo; MK_npm; MK_oci]
  | _ => None
  end.

Definition body_mismatch (field expected : string) (v : option json) : option RErr :=
  match json_text v with
  | Some given =>
    if given =?s expected then None
    else Some (reg_badRequest ("body." +:+ field +:+ " '" +:+ given +:+ "' must equal URL path " +:+ field +:+ " '" +:+ expected +:+ "'"))
  | None => None
  end.

Section app.
Context `{RegHost} `{JsEngine} `{RegCrypto} `{Upstream}.

Definition parseManifestBody (body : option json) (expectedName expectedVersion : string) : RM Registry.Manifest :=
  match body with
  | Some (JObj obj) =>
    match body_mismatch "name" expectedName (get_prop "name" obj), body_mismatch "version" expectedVersion (get_prop "version" obj) with
    | Some err, _ | None, Some err => rthrow err
    | None, None =>
      match truthy (json_text (get_prop "mediaType" obj)), get_prop "blobs" obj with
      | None, _ => rthrow (reg_badRequest "mediaType is required (string)")
      | Some mediaType, Some (JArr blobs) =>
        parsedBlobs ← rlift (parse_blob_refs 0 blobs);
        signature ← rlift (parseSignatureBody (get_prop "signature" obj));
        createdAt ← (match get_prop "createdAt" obj with Some (JStr t) => mret t | _ => reg_nowIso end);
        let metadata k := match object_or_none (get_prop (other_metadata_key k) obj) with Some m => [(k, m)] | None => [] end in
        mret (mkManifest expectedName expectedVersion mediaType (parse_kind (get_prop "kind" obj)) parsedBlobs
          (object_or_none (get_prop "annotations" obj)) signature None (metadata MK_cargo ++ metadata MK_npm ++ metadata MK_oci) createdAt)
      | Some _, _ => rthrow (reg_badRequest "blobs is required (array)")
      end
    end
  | _ => rthrow (reg_badRequest "manifest body must be a JSON object")
  end.

(** ** The generic routes *)

Record RegContext := mkRegContext {
  gc_params : list (string * string);
  gc_query : list (string * string);
  gc_json : option json;
  gc_stream : option StreamBody;
  gc_request : RegRequest;
  gc_auth : RegAuthContext
}.

Definition gparam (ctx : RegContext) (k : string) : string := option_map snd (find_first (λ kv, kv.1 =?s k) (gc_params ctx)) ?? "".
(** The last of repeated query parameters counts. *)
Definition gquery (ctx : RegContext) (k : string) : option string := option_map snd (find_first (λ kv, kv.1 =?s k) (rev (gc_query ctx))).

Definition VERSION : string := "0.0.1".
Definition DEFAULT_BLOB_MAX_BYTES : Z := 5 * 1024 * 1024 * 1024.

Definition get_reg_healthz (ctx : RegContext) : RM RegResponse := mret (json_reply 200 (RB_health VERSION)).

Definition validateSha256Param (sha : string) : RRes unit :=
  match validateSha256 sha with
  | inl (RegistryError _ m) => inl (HttpError 400 m "bad_sha256")
  | r => r
  end.

Definition put_v1_blob (ctx : RegContext) : RM RegResponse :=
  let sha := gparam ctx "sha256" in
  rlift (validateSha256Param sha);;
  match gc_stream ctx with
  | None => rthrow (reg_badRequest "blob upload requires a request body")
  | Some stream =>
    body ← readChunk stream;
    meta ← storage_putBlob body (truthy (rq_contentType (gq_base (gc_request ctx))));
    if negb (bl_sha256 meta =?s sha) then
      rthrow (reg_badRequest ("body hashes to " +:+ bl_sha256 meta +:+ ", not the URL-declared " +:+ sha))
    else mret (json_reply 201 (RB_blob meta))
  end.

Definition get_v1_blob (ctx : RegContext) : RM RegResponse :=
  let sha := gparam ctx "sha256" in
  match validateSha256 sha with
  | inl _ => mret (json_reply 400 (RB_error "bad_sha256" ("invalid sha256: " +:+ oci_truncate sha)))
  | inr _ =>
    stream ← rcatch (b ← getBlob sha; mret (Some b)) (λ err,
      match err with RegistryError BLOB_NOT_FOUND _ => mret None | _ => rthrow err end);
    match stream with
    | None => mret (json_reply 404 (RB_error "blob_not_found" ("blob not found: " +:+ sha)))
    | Some content =>
      stat ← statBlob sha;
      mret (mkRegResponse 200
        (("content-type", (stat ≫= bl_contentType) ?? "application/octet-stream")
         :: match stat with
            | Some b => [("content-length", show_Z (bl_size b)); ("etag", quoted ("sha256:" +:+ bl_sha256 b))]
            | None => []
            end) (RB_bytes content))
    end
  end.

Definition put_v1_manifest (ctx : RegContext) : RM RegResponse :=
  let name := gparam ctx "name" in
  let version := gparam ctx "version" in
  rlift (validateManifestName name);; rlift (validateManifestVersion version);;
  parsed ← parseManifestBody (gc_json ctx) name version;
  stored ← storage_putManifest parsed None;
  mret (json_reply 201 (RB_manifest stored None)).

Definition get_v1_manifest (ctx : RegContext) : RM RegResponse :=
  let name := gparam ctx "name" in
  let version := gparam ctx "version" in
  rlift (validateManifestName name);; rlift (validateManifestVersion version);;
  manifest ← getManifest name version;
  match manifest with
  | None => rthrow (reg_notFound ("manifest not found: " +:+ name +:+ "@" +:+ version))
  | Some m =>
    bytes ← getCanonicalBytes name version;
    mret (json_reply 200 (RB_manifest m (truthy (option_map b64_encode bytes))))
  end.

Definition get_v1_versions (ctx : RegContext) : RM RegResponse :=
  let name := gparam ctx "name" in
  rlift (validateManifestName name);;
  l ← listManifestVersions name;
  mret (json_reply 200 (RB_versions l)).

Definition delete_v1_manifest (ctx : RegContext) : RM RegResponse :=
  if negb (has_type (ax_scopes (gc_auth ctx)) "admin") then rthrow (reg_forbidden "delete requires the 'admin' scope")
  else
    let name := gparam ctx "name" in
    let version := gparam ctx "version" in
    rlift (validateManifestName name);; rlift (validateManifestVersion version);;
    deleteManifest name version;;
    mret (json_reply 204 RB_null).

(** ** Forensic routes (http/forensic.ts) *)

Definition AUDIT_LIMIT_DEFAULT : Z := 200.
Definition AUDIT_LIMIT_MAX : Z := 1000.

Definition get_provenance_route (ctx : RegContext) : RM RegResponse :=
  let name := gparam ctx "name" in
  let version := gparam ctx "version" in
  manifest ← getManifest name version;
  match manifest with
  | None => rthrow (reg_notFound ("manifest not found: " +:+ name +:+ "@" +:+ version))
  | Some m => p ← getProvenance name version; mret (json_reply 200 (RB_provenance m p))
  end.

Definition parseAuditAction (s : option string) : RRes (option AuditAction) :=
  match s with
  | None => inr None
  | Some s =>
    match find_first (λ p, p.1 =?s s) [("upload", AA_upload); ("proxy_cache", AA_proxy_cache); ("manifest_create", AA_manifest_create);
            ("yank", AA_yank); ("unyank", AA_unyank); ("delete", AA_delete)] with
    | Some p => inr (Some p.2)
    | None => inl (reg_badRequest ("unknown audit action: " +:+ s))
    end
  end.

Definition parseAuditEntityType (s : option string) : RRes (option AuditEntityType) :=
  match s with
  | None => inr None
  | Some s =>
    match find_first (λ p, p.1 =?s s) [("blob", AE_blob); ("manifest", AE_manifest); ("cargo_crate", AE_cargo_crate);
            ("virtual_upstream", AE_virtual_upstream)] with
    | Some p => inr (Some p.2)
    | None => inl (reg_badRequest ("unknown entity type: " +:+ s))
    end
  end.

Definition parse_audit_limit (raw : option string) : RRes Z :=
  match raw with
  | None => inr AUDIT_LIMIT_DEFAULT
  | Some text =>
    let parsed := to_number (Some (JStr text)) in
    if negb (num_isInteger parsed) || (num_floor parsed <? 1) then
      inl (reg_badRequest ("limit must be a positive integer (got '" +:+ text +:+ "')"))
    else inr (Z.min (num_floor parsed) AUDIT_LIMIT_MAX)
  end.

Definition get_audit_route (ctx : RegContext) : RM RegResponse :=
  action ← rlift (parseAuditAction (gquery ctx "action"));
  entityType ← rlift (parseAuditEntityType (gquery ctx "entity_type"));
  limit ← rlift (parse_audit_limit (gquery ctx "limit"));
  let since := gquery ctx "since" in
  if match since with Some t => is_null (Date_parse legacy_date_parse t) | None => false end then
    rthrow (reg_badRequest ("since must be ISO-8601 (got '" +:+ (since ?? "") +:+ "')"))
  else
    entries ← listAuditEntries action entityType (gquery ctx "entity_id") (gquery ctx "actor") since (Some limit);
    mret (json_reply 200 (RB_audit entries limit)).

(** The counts of each kind, by source. *)
Definition roll_up (counts : list (string * string * Z)) : list (string * list (string * Z)) :=
  map (λ k, (k, map (λ c, (c.1.2, c.2)) (select (λ c, c.1.1 =?s k) counts))) (remove_dups (map (λ c, c.1.1) counts)).

Definition get_summary_route (ctx : RegContext) : RM RegResponse :=
  counts ← manifestCountsByKindAndSource;
  mret (json_reply 200 (RB_summary (fold_right Z.add 0 (map snd counts)) (roll_up counts) counts)).

Definition get_upstreams_route (ctx : RegContext) : RM RegResponse :=
  rows ← artifactsByUpstream; mret (json_reply 200 (RB_upstreams rows)).

(** ** The router (http/router.ts) *)

(** [:name] is a segment, [*name] the rest of the path. *)
Inductive RegToken := RT_char (c : ascii) | RT_segment (name : string) | RT_rest (name : string).

Fixpoint reg_compile_with (fuel : nat) (path : string) : list RegToken :=
  match fuel with
  | O => []
  | S fuel' =>
    match path with
    | EmptyString => []
    | String k (String c rest) =>
      if (is_char ":" k || is_char "*" k) && name_start c then
        let (name, rest') := span name_rest rest in
        (if is_char "*" k then RT_rest (String c name) else RT_segment (String c name)) :: reg_compile_with fuel' rest'
      else RT_char k :: reg_compile_with fuel' (String c rest)
    | String c rest => RT_char c :: reg_compile_with fuel' rest
    end
  end.

(** Every step consumes a character. *)
Definition reg_compile (path : string) : list RegToken := reg_compile_with (String.length path) path.

Fixpoint reg_match (ts : list RegToken) (s : string) : option (list (string * string)) :=
  match ts with
  | [] => match s with EmptyString => Some [] | _ => None end
  | RT_char c :: ts' =>
    match s with String c' s' => if Ascii.eqb c c' then reg_match ts' s' else None | EmptyString => None end
  | RT_segment name :: ts' =>
    let (run, rest) := span (λ c, negb (is_char "/" c)) s in
    first_split (String.length run) run rest (reg_match ts') name
  | RT_rest name :: ts' =>
    let (run, rest) := span (λ c, negb (is_line_end c)) s in
    first_split (String.length run) run rest (reg_match ts') name
  end.

Record RegRoute := mkRegRoute {
  gr_method : string;
  gr_path : string;
  gr_streamBody : option Z;
  gr_handler : RegContext → RM RegResponse
}.

Fixpoint reg_find (method path : string) (routes : list RegRoute) : option (RegRoute * list (string * string)) :=
  match routes with
  | [] => None
  | r :: routes' =>
    if negb (gr_method r =?s method) then reg_find method path routes'
    else match reg_match (reg_compile (gr_path r)) path with Some caps => Some (r, caps) | None => reg_find method path routes' end
  end.

Fixpoint reg_decode (caps : list (string * string)) : RRes (list (string * string)) :=
  match caps with
  | [] => inr []
  | (name, text) :: caps' =>
    match decodeURIComponent text with
    | None => inl (PlainError "URI malformed")
    | Some v => rest ← reg_decode caps'; inr ((name, v) :: rest)
    end
  end.

Definition readJsonBody (req : Request) : RRes (option json) :=
  let raw := str_concat (rq_chunks req) in
  if (MAX_BODY_BYTES <? String.length raw)%nat then inl (PlainError "request body too large")
  else match rq_chunks req with
  | [] => inr None
  | _ =>
    if negb (str_includes (lower (rq_contentType req ?? "")) "application/json") then inr (Some (JStr raw))
    else match JSON_parse raw with
    | Some v => inr (Some v)
    | None => inl (PlainError ("invalid JSON body: " +:+ json_syntax_error raw))
    end
  end.

Definition too_large : OciResponse := mkOciResponse 413 json_headers OB_too_large.

(** The body a streaming handler reads; over the cap, 413 is the answer. *)
Definition stream_of (req : Request) (cap : Z) : StreamBody :=
  match capStreamBody req cap with
  | UP_complete content => SB_bytes content
  | _ => SB_broken "request body too large" (Some too_large)
  end.

Record RegOptions := mkRegOptions {
  gp_auth : option AuthOptions;
  gp_blobMaxBytes : Z;
  gp_maxChunkBytes : Z;
  gp_oci : OciConfig;
  gp_resignKey : option string;
  gp_tokenKey : option string;
  gp_tokenPublicKey : option string;
  gp_tokenTtlSeconds : Z
}.

Definition REG_PUBLIC_PATHS : list string := ["/v1/healthz"; "/v2/"; "/oci/token"].

Definition reg_authorize (auth : AuthOptions) (req : Request) : RM RegAuthContext :=
  if has_type REG_PUBLIC_PATHS (rq_path req) then mret (mkRegAuthContext None [])
  else authenticate auth (rq_authorization req) (rq_remoteAddress req).

(** A matched route.  A declared length over the cap is answered first; what the
    handler makes of the broken stream does not change the answer. *)
Definition reg_run_route (auth : AuthOptions) (r : RegRoute) (caps : list (string * string)) (req : RegRequest) : RM RegResponse :=
  let base := gq_base req in
  params ← rlift (reg_decode caps);
  match gr_streamBody r with
  | None =>
    body ← rlift (readJsonBody base);
    ctx ← reg_authorize auth base;
    gr_handler r (mkRegContext params (rq_query base) body None req ctx)
  | Some cap =>
    let run := ctx ← reg_authorize auth base;
               gr_handler r (mkRegContext params (rq_query base) None (Some (stream_of base cap)) req ctx) in
    match capStreamBody base cap with
    | UP_complete _ => run
    | UP_declared_too_large _ => rcatch (run;; mret (oci_reply too_large)) (λ _, mret (oci_reply too_large))
    | UP_exceeded =>
      ctx ← reg_authorize auth base;
      rcatch (gr_handler r (mkRegContext params (rq_query base) None (Some (stream_of base cap)) req ctx);; mret (oci_reply too_large))
        (λ _, mret (oci_reply too_large))
    end
  end.

Definition reg_handle (auth : AuthOptions) (routes : list RegRoute) (req : RegRequest) : RM RegResponse :=
  let base := gq_base req in
  let method := rq_method base ?? "GET" in
  match reg_find method (rq_path base) routes with
  | Some (r, caps) => reg_run_route auth r caps req
  | None => mret (json_reply 404 (RB_error "not_found" ("no route for " +:+ method +:+ " " +:+ rq_path base)))
  end.

Definition reg_listener (auth : AuthOptions) (routes : list RegRoute) (req : RegRequest) (s : Reg) : RegResponse * Reg :=
  match reg_handle auth routes req s with
  | (inr r, s') => (r, s')
  | (inl e, s') => (reg_mapError e, s')
  end.

(** ** The application (http/app.ts, oci/mount.ts) *)

Definition oci_request (ctx : RegContext) (reference : string) : OciRequest :=
  mkOciRequest (gparam ctx "name") (gparam ctx reference) (rev (gc_query ctx)) (gq_contentRange (gc_request ctx))
    (rq_contentType (gq_base (gc_request ctx))) (gq_accept (gc_request ctx)) (gc_stream ctx) (ax_tokenPrefix (gc_auth ctx)).

Definition oci_route (opts : RegOptions) (route : OciRoute) (reference : string) (ctx : RegContext) : RM RegResponse := λ s,
  let (r, s') := serve (mounted (gp_oci opts) (gp_resignKey opts)) route (oci_request ctx reference) s in (inr (oci_reply r), s').

(** A route of the Cargo facade. *)
Definition cargo_route (h : RegContext → RM CargoResponse) (ctx : RegContext) : RM RegResponse := r ← h ctx; mret (cargo_reply r).

Definition cargo_routes (opts : RegOptions) : list RegRoute :=
  let base := oc_baseUrl (gp_oci opts) in
  let token ctx := ax_tokenPrefix (gc_auth ctx) in
  let yank b ctx := mutateYank (gparam ctx "org") (gparam ctx "name") (gparam ctx "version") (token ctx) b in
  [mkRegRoute "GET" "/cargo/:org/index/config.json" None (cargo_route (λ ctx, get_cargo_config base (gparam ctx "org")));
   mkRegRoute "GET" "/cargo/:org/index/*rest" None (cargo_route (λ ctx, get_sparse_index (gp_resignKey opts) (gparam ctx "org") (gparam ctx "rest")));
   mkRegRoute "GET" "/cargo/:org/api/v1/crates/:name/:version/download" None
     (cargo_route (λ ctx, get_crate (gparam ctx "org") (gparam ctx "name") (gparam ctx "version")));
   mkRegRoute "PUT" "/cargo/:org/api/v1/crates/new" (Some DEFAULT_MAX_PUBLISH_BYTES)
     (cargo_route (λ ctx, put_crate DEFAULT_MAX_PUBLISH_BYTES (gparam ctx "org") (gc_stream ctx) (token ctx)));
   mkRegRoute "DELETE" "/cargo/:org/api/v1/crates/:name/:version/yank" None (cargo_route (yank true));
   mkRegRoute "PUT" "/cargo/:org/api/v1/crates/:name/:version/unyank" None (cargo_route (yank false))].

(** The public key that goes with the signing key, unless one is given. *)
Definition token_public_key (opts : RegOptions) : RRes (option string) :=
  match truthy (gp_tokenPublicKey opts), truthy (gp_tokenKey opts) with
  | Some pem, _ => inr (Some pem)
  | None, Some priv => pem ← publicKeyPemFromPrivate priv; inr (Some pem)
  | None, None => inr None
  end.

Definition auth_options (opts : RegOptions) (publicKey : option string) : AuthOptions :=
  let base := gp_auth opts ?? mkAuthOptions false true None None in
  mkAuthOptions (ao_allowLoopbackBypass base) (ao_acceptAnyValidShape base) (ao_validateToken base)
    (match truthy publicKey with Some k => Some k | None => ao_jwtPublicKeyPem base end).

Definition oci_auth_config (opts : RegOptions) (publicKey : option string) : OciAuthConfig :=
  mkOciAuthConfig (truthy (gp_tokenKey opts)) (truthy publicKey) (oc_baseUrl (gp_oci opts)) (gp_tokenTtlSeconds opts) "signalman-registry".

Definition reg_routes (opts : RegOptions) (publicKey : option string) : list RegRoute :=
  let o := oci_route opts in
  let chunk := Some (gp_maxChunkBytes opts) in
  let authz ctx := rq_authorization (gq_base (gc_request ctx)) in
  [mkRegRoute "GET" "/v1/healthz" None get_reg_healthz;
   mkRegRoute "PUT" "/v1/blobs/:sha256" (Some (gp_blobMaxBytes opts)) put_v1_blob;
   mkRegRoute "GET" "/v1/blobs/:sha256" None get_v1_blob;
   mkRegRoute "PUT" "/v1/manifests/:name/:version" None put_v1_manifest;
   mkRegRoute "GET" "/v1/manifests/:name/:version" None get_v1_manifest;
   mkRegRoute "GET" "/v1/manifests/:name" None get_v1_versions;
   mkRegRoute "DELETE" "/v1/manifests/:name/:version" None delete_v1_manifest] ++
  cargo_routes opts ++
  [mkRegRoute "GET" "/v1/provenance/manifest/:name/:version" None get_provenance_route;
   mkRegRoute "GET" "/v1/audit" None get_audit_route;
   mkRegRoute "GET" "/v1/forensic/summary" None get_summary_route;
   mkRegRoute "GET" "/v1/forensic/upstreams" None get_upstreams_route;
   mkRegRoute "POST" "/v2/*name/blobs/uploads/" None (o OR_post_upload "uploadId");
   mkRegRoute "PATCH" "/v2/*name/blobs/uploads/:uploadId" chunk (o OR_patch_upload "uploadId");
   mkRegRoute "PUT" "/v2/*name/blobs/uploads/:uploadId" chunk (o OR_put_upload "uploadId");
   mkRegRoute "GET" "/v2/*name/blobs/:digest" None (o OR_get_blob "digest");
   mkRegRoute "HEAD" "/v2/*name/blobs/:digest" None (o OR_head_blob "digest");
   mkRegRoute "DELETE" "/v2/*name/blobs/:digest" None (o OR_delete_blob "digest");
   mkRegRoute "PUT" "/v2/*name/manifests/:reference" (Some (oc_maxManifestBytes (gp_oci opts))) (o OR_put_manifest "reference");
   mkRegRoute "GET" "/v2/*name/manifests/:reference" None (o OR_get_manifest "reference");
   mkRegRoute "HEAD" "/v2/*name/manifests/:reference" None (o OR_head_manifest "reference");
   mkRegRoute "DELETE" "/v2/*name/manifests/:reference" None (o OR_delete_manifest "reference");
   mkRegRoute "GET" "/v2/_catalog" None (o OR_catalog "reference");
   mkRegRoute "GET" "/v2/*name/tags/list" None (o OR_tags "reference");
   mkRegRoute "GET" "/v2/" None (λ ctx, r ← get_v2 (oci_auth_config opts publicKey) (authz ctx); mret (oci_reply r));
   mkRegRoute "GET" "/oci/token" None (λ ctx,
     r ← get_oci_token (oci_auth_config opts publicKey) (gquery ctx "service") (gquery ctx "scope") (authz ctx); mret (oci_reply r))].

(** buildApp: a signing key that is not Ed25519 is refused at start. *)
Definition registry_app (opts : RegOptions) : RRes (RegRequest → Reg → RegResponse * Reg) :=
  publicKey ← token_public_key opts;
  inr (reg_listener (auth_options opts publicKey) (reg_routes opts publicKey)).
End app.
