(* ===== verification/OciSpec.v ===== *)
(** What the OCI facade of the registry promises: content is stored under its
    digest and tags point at manifests, whatever the disk does; blobs and
    manifests come back as they were pushed; pages of tags add up to all tags;
    the reaper drops exactly the expired sessions. *)

From stdpp Require Import gmap strings relations.
From S2P Require Import Prelude JsTime JsVal Signing Build BuildYaml Probes Http Worker SigningSpec JsonReader Fixture Registry Oci OciApp.

(** ** Reasoning about registry programs *)

Lemma rbind_eq {A B} (m : RM A) (k : A → RM B) s :
  (m ≫= k) s = match m s with (inr a, s') => k a s' | (inl e, s') => (inl e, s') end.
Proof. done. Qed.

Lemma rbind_ok {A B} (m : RM A) (k : A → RM B) s a s' : m s = (inr a, s') → (m ≫= k) s = k a s'.
Proof. intros E. by rewrite rbind_eq, E. Qed.

Lemma rbind_inv {A B} (m : RM A) (k : A → RM B) s b s2 :
  (m ≫= k) s = (inr b, s2) → ∃ a s1, m s = (inr a, s1) ∧ k a s1 = (inr b, s2).
Proof. rewrite rbind_eq. destruct (m s) as [[e|a] s1] eqn:E; [done|eauto]. Qed.

(** [m] takes [P] to [Q] when it returns and to [E] when it throws. *)
Definition triple {A} (P : Reg → Prop) (m : RM A) (Q : A → Reg → Prop) (E : Reg → Prop) : Prop :=
  ∀ s, P s → match m s with (inr a, s') => Q a s' | (inl _, s') => E s' end.

(** Whatever [m] does, [I] holds afterwards. *)
Definition keeps {A} (I : Reg → Prop) (m : RM A) : Prop := triple I m (λ _, I) I.

Create HintDb registry.

Lemma triple_bind {A B} P (m : RM A) Q (k : A → RM B) R E :
  triple P m Q E → (∀ a, triple (Q a) (k a) R E) → triple P (m ≫= k) R E.
Proof. intros Hm Hk s Hs. rewrite rbind_eq. specialize (Hm s Hs). destruct (m s) as [[e|a] s']; [done|by apply Hk]. Qed.

Lemma triple_weaken {A} (P P' : Reg → Prop) (m : RM A) (Q Q' : A → Reg → Prop) (E E' : Reg → Prop) :
  triple P m Q E → (∀ s, P' s → P s) → (∀ a s, Q a s → Q' a s) → (∀ s, E s → E' s) → triple P' m Q' E'.
Proof. intros Hm HP HQ HE s Hs. specialize (Hm s (HP s Hs)). destruct (m s) as [[e|a] s']; auto. Qed.

Section keeps.
Context (I : Reg → Prop).

Lemma keeps_ret {A} (a : A) : keeps I (mret a).
Proof. by intros s Hs. Qed.
Lemma keeps_throw {A} e : keeps I (rthrow e : RM A).
Proof. by intros s Hs. Qed.
Lemma keeps_lift {A} (r : RRes A) : keeps I (rlift r).
Proof. intros s Hs. by destruct r. Qed.
Lemma keeps_get {A} (f : Reg → A) : keeps I (rget f).
Proof. by intros s Hs. Qed.
Lemma keeps_put f : (∀ s, I s → I (f s)) → keeps I (rput f).
Proof. intros Hf s Hs. by apply Hf. Qed.
Lemma keeps_bind {A B} (m : RM A) (k : A → RM B) : keeps I m → (∀ a, keeps I (k a)) → keeps I (m ≫= k).
Proof. intros Hm Hk. by eapply triple_bind. Qed.
Lemma keeps_catch {A} (m : RM A) h : keeps I m → (∀ e, keeps I (h e)) → keeps I (rcatch m h).
Proof. intros Hm Hh s Hs. unfold rcatch. specialize (Hm s Hs). destruct (m s) as [[e|a] s']; [by apply Hh|done]. Qed.
End keeps.

#[export] Hint Resolve keeps_ret keeps_throw keeps_lift keeps_get : registry.

(** Splits a program into its statements. *)
Ltac keep := repeat first
  [ solve [eauto with registry]
  | apply keeps_bind; [|intros ?]
  | apply keeps_catch; [|intros ?]
  | match goal with |- keeps _ (match ?x with _ => _ end) => destruct x end
  | match goal with |- keeps _ (if ?x then _ else _) => destruct x end ].

(** ** The invariant *)

Section invariant.
Context `{RegHost}.

Record reg_ok (s : Reg) : Prop := {
  (** The bytes of a blob file hash to its name. *)
  ok_files : ∀ h c, rg_files s !! h = Some c → sha256 c = h;
  (** The bytes of a manifest under one of the facade's names hash to its version. *)
  ok_manifests : ∀ r, r ∈ rg_manifest s → starts_with OCI_PREFIX (mr_name r) = true → mr_version r = sha256 (mr_canonical_bytes r);
  (** A tag points at a manifest of its repository. *)
  ok_tags : ∀ t, t ∈ rg_tag s → ∃ r, r ∈ rg_manifest s ∧ is_row (tg_repository t) (tg_manifestSha256 t) r = true;
  (** Tags have the form of tags, and belong to the facade's names. *)
  ok_tag_names : ∀ t, t ∈ rg_tag s → is_tag (tg_tag t) = true ∧ starts_with OCI_PREFIX (tg_repository t) = true;
  (** The primary keys. *)
  ok_manifest_keys : NoDup (map (λ r, (mr_name r, mr_version r)) (rg_manifest s));
  ok_tag_keys : NoDup (map (λ t, (tg_repository t, tg_tag t)) (rg_tag s));
  ok_upload_keys : NoDup (map pu_uploadId (rg_upload s));
  ok_blob_keys : NoDup (map bl_sha256 (rg_blob s));
  ok_audit_keys : NoDup (map ra_id (rg_audit s))
}.

(** [reg_ok] reads neither the clock, nor the sessions' files, nor the sidecars. *)
Lemma ok_set_tick n s : reg_ok s → reg_ok (set_tick n s).
Proof. intros []. by constructor. Qed.
Lemma ok_set_tmp m s : reg_ok s → reg_ok (set_tmp m s).
Proof. intros []. by constructor. Qed.
Lemma ok_set_sidecars m s : reg_ok s → reg_ok (set_sidecars m s).
Proof. intros []. by constructor. Qed.

Lemma ok_set_files m s : reg_ok s → (∀ h c, m !! h = Some c → sha256 c = h) → reg_ok (set_files m s).
Proof. intros [] Hm. by constructor. Qed.

Lemma tick_ok : keeps reg_ok tick.
Proof. intros s Hs. by apply ok_set_tick. Qed.
Hint Resolve tick_ok : registry.

Lemma now_ok : keeps reg_ok reg_now.
Proof. unfold reg_now. keep. Qed.
Hint Resolve now_ok : registry.

Lemma nowIso_ok : keeps reg_ok reg_nowIso.
Proof. unfold reg_nowIso. keep. Qed.

Lemma file_op_ok : keeps reg_ok file_op.
Proof. unfold file_op. keep. Qed.
Hint Resolve nowIso_ok file_op_ok : registry.
End invariant.
#[export] Hint Resolve tick_ok now_ok nowIso_ok file_op_ok : registry.

(** ** Lists with keys *)

Section keyed.
Context {R K : Type} (key : R → K).

Lemma keyed_snoc l x : NoDup (map key l) → (∀ y, y ∈ l → key y ≠ key x) → NoDup (map key (l ++ [x])).
Proof.
  intros Hl Hx. rewrite map_app. simpl. apply NoDup_app. split; [done|]. split; [|apply NoDup_singleton].
  intros k Hk%list_elem_of_fmap ->%list_elem_of_singleton. destruct Hk as (y & E & Hy). by apply (Hx y Hy).
Qed.

Lemma keyed_select p l : NoDup (map key l) → NoDup (map key (select p l)).
Proof. apply select_NoDup_fmap. Qed.

Lemma keyed_update p f (l : list R) : NoDup (map key l) → (∀ x, p x = true → key (f x) = key x) → NoDup (map key (update_where p f l)).
Proof.
  intros Hl Hf. assert (map key (update_where p f l) = map key l) as ->; [|done].
  unfold update_where. rewrite map_map. apply map_ext. intros x. destruct (p x) eqn:E; [by apply Hf|done].
Qed.
End keyed.

Lemma existsb_false {R} (p : R → bool) l : existsb p l = false → ∀ x, x ∈ l → p x = false.
Proof.
  intros Hl x Hx. destruct (p x) eqn:E; [|done]. rewrite <- Hl. symmetry. apply existsb_exists.
  exists x. by rewrite <- list_elem_of_In.
Qed.

Section storage_ok.
Context `{RegHost}.

Lemma is_row_eq name version r : is_row name version r = true ↔ mr_name r = name ∧ mr_version r = version.
Proof. unfold is_row. by rewrite andb_true_iff, !bool_decide_eq_true. Qed.

Lemma appendAuditEntry_ok a t i ac d : keeps reg_ok (appendAuditEntry a t i ac d).
Proof.
  unfold appendAuditEntry. apply keeps_bind; [auto with registry|intros n]. apply keeps_bind; [auto with registry|intros at_].
  intros s Hs. rewrite rbind_eq. cbn [rget]. destruct (existsb _ _) eqn:E; [done|].
  cbn. destruct Hs. constructor; try done. simpl. apply keyed_snoc; [done|]. intros y Hy E1.
  pose proof (existsb_false _ _ E y Hy) as Hn. simpl in Hn, E1. by rewrite E1, bool_decide_eq_true_2 in Hn.
Qed.

Lemma recordBlob_ok b : keeps reg_ok (recordBlob b).
Proof.
  intros s Hs. unfold recordBlob. destruct (_ <? 0); [done|]. destruct (existsb _ _) eqn:E; [done|].
  destruct Hs. constructor; try done. simpl. apply keyed_snoc; [done|]. intros y Hy E1.
  pose proof (existsb_false _ _ E y Hy) as Hn. simpl in Hn. by rewrite E1, bool_decide_eq_true_2 in Hn.
Qed.

Lemma fileExists_ok sha : keeps reg_ok (fileExists sha).
Proof. unfold fileExists. keep. Qed.
Lemma readSidecar_ok sha : keeps reg_ok (readSidecar sha).
Proof. unfold readSidecar. keep. Qed.
Hint Resolve appendAuditEntry_ok recordBlob_ok fileExists_ok readSidecar_ok : registry.

Lemma getBlob_ok sha : keeps reg_ok (getBlob sha).
Proof. unfold getBlob. keep. Qed.
Lemma fs_statBlob_ok sha : keeps reg_ok (fs_statBlob sha).
Proof. unfold fs_statBlob. keep. Qed.
Lemma statBlob_ok sha : keeps reg_ok (statBlob sha).
Proof. unfold statBlob, getBlobRecord. pose proof (fs_statBlob_ok sha). keep. Qed.

Lemma unlink_quietly_ok f : (∀ s, reg_ok s → reg_ok (f s)) → keeps reg_ok (unlink_quietly f).
Proof. intros Hf. unfold unlink_quietly. pose proof (keeps_put reg_ok f Hf). keep. Qed.

Lemma deleteBlob_ok sha : keeps reg_ok (deleteBlob sha).
Proof.
  unfold deleteBlob. apply keeps_bind; [apply keeps_lift|intros ?].
  apply keeps_bind; [|intros ?]; apply unlink_quietly_ok; intros s Hs; [|by apply ok_set_sidecars].
  apply ok_set_files; [done|]. intros h c [_ Hc]%lookup_delete_Some. by apply (ok_files s Hs).
Qed.

Lemma writeSidecar_ok sha meta : keeps reg_ok (writeSidecar sha meta).
Proof.
  unfold writeSidecar. apply keeps_bind; [auto with registry|intros n].
  destruct (io n) as [|[|k] m]; keep; apply keeps_put; intros s Hs; by apply ok_set_sidecars.
Qed.
Hint Resolve getBlob_ok fs_statBlob_ok statBlob_ok deleteBlob_ok writeSidecar_ok : registry.

(** A file under its own digest. *)
Lemma ok_add_file c s : reg_ok s → reg_ok (set_files (<[sha256 c := c]> (rg_files s)) s).
Proof.
  intros Hs. apply ok_set_files; [done|]. intros h x [[<- <-]|[_ Hx]]%lookup_insert_Some; [done|]. by apply (ok_files s Hs).
Qed.

Lemma fs_putBlob_ok body ct : keeps reg_ok (fs_putBlob body ct).
Proof.
  pose proof (keeps_put reg_ok _ (ok_add_file body)) as Hf. unfold fs_putBlob. cbv zeta.
  pose proof (unlink_quietly_ok (λ s, s) (λ _ Hs, Hs)). keep.
Qed.

Lemma storage_putBlob_ok body ct : keeps reg_ok (storage_putBlob body ct).
Proof. unfold storage_putBlob. pose proof (fs_putBlob_ok body ct). keep. Qed.

(** *** Manifests and tags *)

Lemma ok_add_manifest row s :
  reg_ok s → (starts_with OCI_PREFIX (mr_name row) = true → mr_version row = sha256 (mr_canonical_bytes row)) →
  find_first (is_row (mr_name row) (mr_version row)) (rg_manifest s) = None → reg_ok (set_manifest (rg_manifest s ++ [row]) s).
Proof.
  intros [] Hk Hn. pose proof (proj1 (find_first_None _ _) Hn) as Hnew. constructor; try done; simpl.
  - intros r [Hr|Hr]%elem_of_app; [by auto|]. by apply list_elem_of_singleton in Hr as ->.
  - intros t Ht. destruct (ok_tags0 t Ht) as (r & Hr & E). exists r. split; [|done]. apply elem_of_app. by left.
  - apply keyed_snoc; [done|]. intros y Hy [= E1 E2]. specialize (Hnew y Hy).
    assert (is_row (mr_name row) (mr_version row) y = true) by (by apply is_row_eq). congruence.
Qed.

(** What a stored manifest leaves behind. *)
Definition has_manifest (name version : string) (s : Reg) : Prop :=
  ∃ r, r ∈ rg_manifest s ∧ is_row name version r = true.

Lemma putManifest_ok m bytes pv :
  (starts_with OCI_PREFIX (mf_name m) = true → mf_version m = sha256 bytes) →
  triple reg_ok (putManifest m bytes pv) (λ _ s, reg_ok s ∧ has_manifest (mf_name m) (mf_version m) s) reg_ok.
Proof.
  intros Hk. unfold putManifest.
  eapply triple_bind; [apply keeps_lift|intros ?]. eapply triple_bind; [apply keeps_lift|intros ?]. destruct (_ =? _)%nat; [by intros s Hs|].
  intros s Hs. rewrite rbind_eq. cbn [fetchRow rget]. destruct (find_first _ _) as [row|] eqn:E.
  - destruct (_ =?s _); [|done]. apply find_first_Some in E as [Hin Hrow]. split; [done|]. by exists row.
  - assert (Hc : keeps (λ s', reg_ok s' ∧ rg_manifest s' = rg_manifest s)
        (if mf_createdAt m =?s "" then reg_nowIso else mret (mf_createdAt m))).
    { destruct (_ =?s _); [|apply keeps_ret]. intros s' [Hs' Em]. split; [by apply ok_set_tick|done]. }
    rewrite rbind_eq. specialize (Hc s (conj Hs eq_refl)).
    match goal with |- context [let (r, s') := ?m s in _] => destruct (m s) as [[e|at_] s1] end; [by destruct Hc|].
    destruct Hc as [Hs1 Em]. cbn. split.
    + by apply ok_add_manifest; [done|simpl; auto|rewrite Em].
    + eexists. split; [simpl; apply elem_of_app; right; by apply list_elem_of_singleton|]. by apply is_row_eq.
Qed.
End storage_ok.
#[export] Hint Resolve appendAuditEntry_ok recordBlob_ok getBlob_ok fs_statBlob_ok statBlob_ok deleteBlob_ok : registry.

Section tags_ok.
Context `{RegHost}.

Lemma is_tag_row_eq repo tag t : is_tag_row repo tag t = true ↔ tg_repository t = repo ∧ tg_tag t = tag.
Proof. unfold is_tag_row. by rewrite andb_true_iff, !bool_decide_eq_true. Qed.

Lemma ok_upsert_tag row s :
  reg_ok s → has_manifest (tg_repository row) (tg_manifestSha256 row) s →
  is_tag (tg_tag row) = true ∧ starts_with OCI_PREFIX (tg_repository row) = true →
  reg_ok (set_tag (upsert_tag row (rg_tag s)) s).
Proof.
  intros [] Hm Hn. unfold upsert_tag. destruct (existsb _ _) eqn:E; constructor; try done; simpl.
  - intros t [(x & _ & _ & ->)|[Ht _]]%update_where_elem; [done|by auto].
  - intros t [(x & _ & _ & ->)|[Ht _]]%update_where_elem; [done|by auto].
  - apply keyed_update; [done|]. intros x [-> ->]%is_tag_row_eq. done.
  - intros t [Ht|Ht]%elem_of_app; [by auto|]. by apply list_elem_of_singleton in Ht as ->.
  - intros t [Ht|Ht]%elem_of_app; [by auto|]. by apply list_elem_of_singleton in Ht as ->.
  - apply keyed_snoc; [done|]. intros y Hy [= E1 E2]. pose proof (existsb_false _ _ E y Hy) as Hne.
    assert (is_tag_row (tg_repository row) (tg_tag row) y = true) by (by apply is_tag_row_eq). congruence.
Qed.

Lemma ok_select_tags p s : reg_ok s → reg_ok (set_tag (select p (rg_tag s)) s).
Proof.
  intros []. constructor; try done; simpl.
  - intros t [Ht _]%select_elem. by auto.
  - intros t [Ht _]%select_elem. by auto.
  - by apply keyed_select.
Qed.

Lemma TagStore_put_ok repo tag sha :
  is_tag tag = true → starts_with OCI_PREFIX repo = true → triple (λ s, reg_ok s ∧ has_manifest repo sha s) (TagStore_put repo tag sha) (λ _, reg_ok) reg_ok.
Proof. intros Ht Hr s [Hs Hm]. cbn. apply (ok_upsert_tag (mkTagRow repo tag sha _)); [by apply ok_set_tick|done|done]. Qed.

Lemma TagStore_delete_ok repo tag : keeps reg_ok (TagStore_delete repo tag).
Proof. unfold TagStore_delete. keep. apply keeps_put. intros s. apply ok_select_tags. Qed.

(** A manifest goes together with the tags that point at it. *)
Lemma ok_drop_manifest repo hex s :
  reg_ok s →
  reg_ok (set_tag (select (λ t, negb (points_at repo hex t)) (rg_tag s))
    (set_manifest (select (λ r, negb (is_row repo hex r)) (rg_manifest s)) s)).
Proof.
  intros []. constructor; try done; simpl.
  - intros r [Hr _]%select_elem. by auto.
  - intros t [Ht Hp]%select_elem. destruct (ok_tags0 t Ht) as (r & Hr & Er). exists r. split; [|done].
    apply select_elem. split; [done|]. apply negb_true_iff in Hp. apply negb_true_iff.
    apply is_row_eq in Er as [En Ev]. unfold is_row, points_at in *. by rewrite En, Ev.
  - intros t [Ht _]%select_elem. by auto.
  - by apply keyed_select.
  - by apply keyed_select.
Qed.

Lemma delete_digest_ok req repo value hex : keeps reg_ok (delete_digest req repo value hex).
Proof.
  unfold delete_digest, getManifest, fetchRow. apply keeps_bind; [keep|intros [m|]]; [|keep].
  intros s Hs. unfold deleteManifest. rewrite rbind_eq, rbind_eq. cbn [rlift]. destruct (validateManifestName _); [done|].
  rewrite rbind_eq. cbn [rlift]. destruct (validateManifestVersion _); [done|]. cbn [rput].
  rewrite rbind_eq. unfold TagStore_deleteByDigest. rewrite rbind_eq. cbn [rget]. rewrite rbind_eq. cbn [rput mret RM_ret].
  pose proof (ok_drop_manifest (rp_storageName repo) hex s Hs) as Hd.
  match goal with |- let (_, _) := (?m ?x) in _ => assert (Hm : keeps reg_ok m) by keep; exact (Hm x Hd) end.
Qed.
End tags_ok.

Lemma file_op_frame `{RegHost} (P : Reg → Prop) : (∀ n s, P s → P (set_tick n s)) → keeps P file_op.
Proof. intros HP s Hs. unfold file_op. rewrite rbind_eq. cbn. destruct (io _); by apply HP. Qed.

(** *** Sessions *)

Section uploads_ok.
Context `{RegHost} (ttl : Z).

Lemma ok_set_upload l s : reg_ok s → NoDup (map pu_uploadId l) → reg_ok (set_upload l s).
Proof. intros [] Hl. by constructor. Qed.

Lemma UploadStore_create_ok repo actor : keeps reg_ok (UploadStore_create ttl repo actor).
Proof.
  unfold UploadStore_create. apply keeps_bind; [auto with registry|intros n]. cbv zeta. apply keeps_bind; [auto with registry|intros t].
  intros s Hs. rewrite rbind_eq. cbn [rget]. destruct (existsb _ _) eqn:E; [done|]. cbn.
  apply ok_set_upload; [done|]. apply keyed_snoc; [apply Hs|]. intros y Hy E1.
  pose proof (existsb_false _ _ E y Hy) as Hn. unfold is_upload in Hn. simpl in E1. by rewrite E1, bool_decide_eq_true_2 in Hn.
Qed.

Lemma UploadStore_appendChunk_ok id c : keeps reg_ok (UploadStore_appendChunk ttl id c).
Proof.
  unfold UploadStore_appendChunk, UploadStore_get. keep. apply keeps_put. intros s Hs. apply ok_set_upload; [done|].
  apply keyed_update; [apply Hs|done].
Qed.

Lemma UploadStore_delete_ok id : keeps reg_ok (UploadStore_delete id).
Proof. apply keeps_put. intros s Hs. apply ok_set_upload; [done|]. apply keyed_select, Hs. Qed.

Lemma UploadFs_appendBytes_ok id bytes : keeps reg_ok (UploadFs_appendBytes id bytes).
Proof.
  pose proof (λ f, keeps_put reg_ok (λ s, set_tmp (f s) s) (λ s, ok_set_tmp (f s) s)) as Htmp.
  unfold UploadFs_appendBytes, ensureDir. cbv zeta. keep.
Qed.

Lemma UploadFs_delete_ok id : keeps reg_ok (UploadFs_delete id).
Proof.
  unfold UploadFs_delete. apply keeps_bind; [apply keeps_lift|intros ?]. apply unlink_quietly_ok. intros s. apply ok_set_tmp.
Qed.

(** The session's file is what was hashed. *)
Definition hashed (id sha : string) (s : Reg) : Prop := ∃ c, rg_tmp s !! id = Some c ∧ sha256 c = sha.

Lemma hashAssembled_ok id :
  triple reg_ok (UploadFs_hashAssembled id) (λ sha s, reg_ok s ∧ hashed id sha s) reg_ok.
Proof.
  unfold UploadFs_hashAssembled. eapply triple_bind; [apply keeps_lift|intros ?].
  eapply triple_bind; [apply file_op_ok|intros ?]. intros s Hs. rewrite rbind_eq. cbn [rget].
  destruct (rg_tmp s !! id) as [c|] eqn:E; [|done]. split; [done|]. by exists c.
Qed.

Lemma promoteToBlob_ok id sha ct :
  triple (λ s, reg_ok s ∧ hashed id sha s) (UploadFs_promoteToBlob id sha ct) (λ _, reg_ok) reg_ok.
Proof.
  assert (Hf : triple (λ s, reg_ok s ∧ hashed id sha s) file_op (λ _ s, reg_ok s ∧ hashed id sha s) reg_ok).
  { eapply triple_weaken; [apply (file_op_frame (λ s, reg_ok s ∧ hashed id sha s))|done|done|by intros s []].
    intros n s [Hs Hh]. split; [by apply ok_set_tick|done]. }
  assert (Hl : ∀ r : RRes unit, triple (λ s, reg_ok s ∧ hashed id sha s) (rlift r) (λ _ s, reg_ok s ∧ hashed id sha s) reg_ok).
  { intros r s [Hs Hh]. by destruct r. }
  unfold UploadFs_promoteToBlob. do 2 (eapply triple_bind; [apply Hl|intros ?]). do 2 (eapply triple_bind; [apply Hf|intros ?]).
  intros s [Hs Hh]. rewrite rbind_eq. cbn [rget]. destruct (rg_sidecars s !! sha) as [[meta|]|]; [|done|].
  - revert s Hs Hh. match goal with |- ∀ s, _ → _ → let (_, _) := (?m s) in _ => assert (Hm : keeps reg_ok m) end.
    { apply keeps_bind; [|intros ?; apply keeps_ret]. apply unlink_quietly_ok. intros s. apply ok_set_tmp. }
    intros s Hs _. by apply Hm.
  - revert s Hs Hh. 
    match goal with |- ∀ s, _ → _ → let (_, _) := (?m s) in _ =>
      assert (Hm : triple (λ s, reg_ok s ∧ hashed id sha s) m (λ _, reg_ok) reg_ok) end.
    { eapply triple_bind; [apply Hf|intros ?]. intros s [Hs (c & Ec & Eh)]. rewrite rbind_eq. cbn [rget]. rewrite Ec.
      assert (Hrest : ∀ s, reg_ok s → keeps reg_ok (reg_nowIso ≫= λ createdAt,
        writeSidecar sha (mkSidecarMetadata createdAt (Z.of_nat (String.length c)) (truthy ct));; mret (Z.of_nat (String.length c)))).
      { intros _ _. pose proof (λ m, writeSidecar_ok sha m). keep. }
      rewrite rbind_eq. pose proof (file_op_ok s Hs) as Ho. destruct (file_op s) as [[e|[]] s1]; [done|].
      rewrite rbind_eq. cbn [rput]. apply (Hrest s Hs). subst sha.
      apply (ok_add_file c (set_tmp (delete id (rg_tmp s1)) s1)). by apply ok_set_tmp. }
    intros s Hs Hh. by apply Hm.
Qed.

Lemma reap_rows_ok rows : keeps reg_ok (reap_rows rows).
Proof.
  pose proof UploadFs_delete_ok. pose proof UploadStore_delete_ok.
  induction rows as [|row rows IH]; simpl; [keep|]. unfold reap_row. keep.
Qed.

Lemma sweep_ok stopped : keeps reg_ok (sweep stopped).
Proof. unfold sweep, UploadStore_listExpired. pose proof reap_rows_ok. keep. Qed.
End uploads_ok.

(** ** Integrity *)

(** A reference that came out of the parser. *)
Definition ref_ok (ref : OciReference) : Prop := match ref with Ref_tag t => is_tag t = true | Ref_digest _ _ => True end.

Section integrity.
Context `{RegHost} `{JsEngine} (cfg : OciConfig).

(** What is asked of the virtual upstreams: that they keep the registry intact. *)
Hypothesis proxyBlob_ok : ∀ p, oc_proxyBlob cfg = Some p → ∀ o r h, keeps reg_ok (p o r h).
Hypothesis proxyManifest_ok : ∀ p, oc_proxyManifest cfg = Some p → ∀ o r ref, ref_ok ref → keeps reg_ok (p o r ref).

Lemma getManifest_ok name v : keeps reg_ok (getManifest name v).
Proof. unfold getManifest, fetchRow. keep. Qed.
Lemma getCanonicalBytes_ok name v : keeps reg_ok (getCanonicalBytes name v).
Proof. unfold getCanonicalBytes, fetchRow. keep. Qed.
Hint Resolve getManifest_ok getCanonicalBytes_ok : registry.

Lemma session_of_ok req repo : keeps reg_ok (session_of req repo).
Proof. unfold session_of, UploadStore_get. keep. Qed.
Hint Resolve session_of_ok : registry.

Lemma readChunk_ok b : keeps reg_ok (readChunk b).
Proof. unfold readChunk. keep. Qed.
Hint Resolve readChunk_ok : registry.

Lemma post_upload_ok req : keeps reg_ok (post_upload cfg req).
Proof. unfold post_upload, ensureDir. pose proof (UploadStore_create_ok (oc_ttlSeconds cfg)). keep. Qed.

Lemma patch_upload_ok req : keeps reg_ok (patch_upload cfg req).
Proof.
  pose proof UploadFs_appendBytes_ok. pose proof (UploadStore_appendChunk_ok (oc_ttlSeconds cfg)).
  unfold patch_upload. cbv zeta. keep.
Qed.

Lemma final_chunk_ok req row : keeps reg_ok (final_chunk cfg req row).
Proof.
  pose proof UploadFs_appendBytes_ok. pose proof (UploadStore_appendChunk_ok (oc_ttlSeconds cfg)).
  unfold final_chunk, append_tail. keep.
Qed.

Lemma put_upload_ok req : keeps reg_ok (put_upload cfg req).
Proof.
  pose proof UploadStore_delete_ok. unfold put_upload.
  apply keeps_bind; [keep|intros repo]. apply keeps_bind; [keep|intros row]. destruct (truthy _) as [d|]; [|keep].
  apply keeps_bind; [keep|intros hex]. apply keeps_bind; [apply final_chunk_ok|intros []].
  eapply triple_bind; [apply hashAssembled_ok|intros sha]. destruct (negb _); [by intros s []|].
  eapply triple_bind; [apply promoteToBlob_ok|intros ?].
  match goal with |- triple _ ?m _ _ => change (keeps reg_ok m) end. keep.
Qed.

Lemma get_oci_blob_ok req : keeps reg_ok (get_oci_blob cfg req).
Proof. unfold get_oci_blob, opened. destruct (oc_proxyBlob cfg) as [p|]; [pose proof (proxyBlob_ok p eq_refl)|]; keep. Qed.

Lemma head_oci_blob_ok req : keeps reg_ok (head_oci_blob req).
Proof. unfold head_oci_blob. keep. Qed.

Lemma delete_oci_blob_ok req : keeps reg_ok (delete_oci_blob req).
Proof.
  unfold delete_oci_blob. keep. apply keeps_put. intros s []. constructor; try done. simpl. by apply keyed_select.
Qed.

Lemma check_layers_ok i l : keeps reg_ok (check_layers i l).
Proof. revert i. induction l as [|d l IH]; intros i; simpl; [keep|]. destruct (is_foreign d); [apply IH|keep]. Qed.

Lemma check_children_ok name l : keeps reg_ok (check_children name l).
Proof. induction l as [|d l IH]; simpl; keep. Qed.

(** A manifest that exists already is there. *)
Lemma putManifest_exists m bytes pv msg s s' :
  putManifest m bytes pv s = (inl (RegistryError MANIFEST_EXISTS msg), s') → has_manifest (mf_name m) (mf_version m) s'.
Proof.
  unfold putManifest. rewrite rbind_eq. cbn [rlift]. unfold validateManifestName, validateManifestVersion.
  repeat (match goal with |- context [if ?b then inl _ else _] => destruct b end; [done|]).
  rewrite rbind_eq. cbn [rlift]. repeat (match goal with |- context [if ?b then inl _ else _] => destruct b end; [done|]).
  destruct (_ =? _)%nat; [done|]. rewrite rbind_eq. cbn [fetchRow rget].
  destruct (find_first _ _) as [row|] eqn:E.
  - destruct (_ =?s _); [done|]. intros [= _ <-]. apply find_first_Some in E as [Hin Hr]. by exists row.
  - destruct (_ =?s _); done.
Qed.

Lemma store_manifest_ok req repo parsed raw :
  triple reg_ok (store_manifest req repo parsed (sha256 raw) raw)
    (λ _ s, reg_ok s ∧ has_manifest (rp_storageName repo) (sha256 raw) s) reg_ok.
Proof.
  unfold store_manifest. eapply triple_bind; [apply nowIso_ok|intros at_]. cbv zeta. intros s Hs. unfold rcatch. rewrite rbind_eq.
  match goal with |- context [putManifest ?m ?b ?p s] =>
    pose proof (putManifest_ok m b p (λ _, eq_refl) s Hs) as Hp; pose proof (putManifest_exists m b p) as He;
    destruct (putManifest m b p s) as [[e|x] s1] eqn:E end; cbn [mf_name mf_version] in *; [|done].
  destruct e as [| [] | | | |]; try done. split; [done|]. by eapply He.
Qed.

Lemma storage_prefix name repo : parseRepositoryParam name = inr repo → starts_with OCI_PREFIX (rp_storageName repo) = true.
Proof.
  unfold parseRepositoryParam. destruct (_ =? _)%nat; [done|].
  destruct (span _ name) as [[|a org] [|c [|d tail]]]; try done. cbn -[ociManifestName].
  destruct (validateOciRepositoryName name); [done|]. unfold ociManifestName.
  destruct (validateCargoOrgName (String a org)); [done|]. cbn -[validateOciRepositoryName].
  destruct (validateOciRepositoryName (String d tail)); [done|]. by intros [= <-].
Qed.

Lemma parseOciReference_ok text ref : parseOciReference text = inr ref → ref_ok ref.
Proof.
  unfold parseOciReference, validateOciTag, validateOciDigest. destruct (_ =? _)%nat; [done|]. destruct (starts_with _ _).
  - destruct (negb _); [done|]. by intros [= <-].
  - destruct (is_tag text) eqn:E; [|done]. by intros [= <-].
Qed.

Lemma point_tag_ok req repo ref sha digest :
  ref_ok ref → starts_with OCI_PREFIX (rp_storageName repo) = true →
  triple (λ s, reg_ok s ∧ has_manifest (rp_storageName repo) sha s) (point_tag req repo ref sha digest) (λ _, reg_ok) reg_ok.
Proof.
  intros Href Hpre. unfold point_tag. destruct ref as [tag|]; [|by intros s []]. eapply triple_bind; [by apply TagStore_put_ok|intros p].
  match goal with |- triple _ ?m _ _ => change (keeps reg_ok m) end. keep.
Qed.

Lemma audit_frame (P : Reg → Prop) a t i ac d :
  (∀ n s, P s → P (set_tick n s)) → (∀ l s, P s → P (set_audit l s)) → keeps P (appendAuditEntry a t i ac d).
Proof.
  intros Ht Ha. assert (Hk : keeps P tick) by (intros s Hs; by apply Ht).
  assert (Hn : keeps P reg_nowIso) by (unfold reg_nowIso, reg_now; keep).
  unfold appendAuditEntry. cbv zeta. keep. apply keeps_put. intros s. apply Ha.
Qed.

Lemma put_manifest_ok req : keeps reg_ok (put_manifest cfg req).
Proof.
  pose proof check_layers_ok. pose proof check_children_ok.
  unfold put_manifest, readBytes, validateSingleManifestReferences, validateIndexChildManifests. cbv zeta.
  destruct (parseRepositoryParam (oq_name req)) as [e|repo] eqn:Hrepo; [by intros s Hs|]. apply storage_prefix in Hrepo.
  match goal with |- keeps _ (rlift (inr repo) ≫= ?k) => change (keeps reg_ok (k repo)) end. cbv beta.
  destruct (parseOciReference (oq_reference req)) as [e|ref] eqn:Href; [by intros s Hs|]. apply parseOciReference_ok in Href.
  match goal with |- keeps _ (rlift (inr ref) ≫= ?k) => change (keeps reg_ok (k ref)) end. cbv beta. destruct (oq_body req) as [b|]; [|keep].
  apply keeps_bind; [keep|intros raw]. match goal with |- keeps _ (if ?c then _ else _) => destruct c end; [keep|].
  destruct (truthy (oq_contentType req)) as [ct|]; [|keep]. match goal with |- keeps _ (if ?c then _ else _) => destruct c end; [keep|].
  apply keeps_bind; [keep|intros parsed]. match goal with |- keeps _ (if ?c then _ else _) => destruct c end; [keep|]. apply keeps_bind; [keep|intros ?].
  eapply triple_bind; [apply store_manifest_ok|intros ?].
  eapply triple_bind; [|intros ?; eapply triple_bind; [by apply point_tag_ok|intros ?; apply keeps_ret]].
  intros s [Hs Hm]. pose proof (appendAuditEntry_ok AA_upload AE_manifest (manifest_id repo (SHA256_PREFIX +:+ sha256 raw)) (actor_of req)
    (Some (upload_detail repo parsed raw ref)) s Hs) as Ha.
  pose proof (audit_frame (has_manifest (rp_storageName repo) (sha256 raw)) AA_upload AE_manifest
    (manifest_id repo (SHA256_PREFIX +:+ sha256 raw)) (actor_of req) (Some (upload_detail repo parsed raw ref))
    (λ _ _ Hx, Hx) (λ _ _ Hx, Hx) s Hm) as Hb.
  destruct (appendAuditEntry _ _ _ _ _ s) as [[e|x] s1]; [done|by split].
Qed.

Lemma serveManifest_ok req head : keeps reg_ok (serveManifest cfg req head).
Proof.
  unfold serveManifest, resolve_manifest, TagStore_get. cbv zeta. apply keeps_bind; [keep|intros repo].
  destruct (parseOciReference (oq_reference req)) as [e|ref] eqn:Href; [by intros s Hs|]. apply parseOciReference_ok in Href.
  match goal with |- keeps _ (rlift (inr ref) ≫= ?k) => change (keeps reg_ok (k ref)) end. cbv beta.
  destruct (oc_proxyManifest cfg) as [p|]; [assert (∀ o r, keeps reg_ok (p o r ref)) by (intros o r; by apply (proxyManifest_ok p eq_refl))|]; keep.
Qed.

Lemma delete_manifest_ok req : keeps reg_ok (delete_manifest cfg req).
Proof.
  pose proof TagStore_delete_ok. pose proof delete_digest_ok. unfold delete_manifest, delete_tag, TagStore_get. keep.
Qed.

Lemma get_catalog_ok req : keeps reg_ok (get_catalog cfg req).
Proof. unfold get_catalog, listRepositoriesAfter. cbv zeta. keep. Qed.

Lemma get_tags_ok req : keeps reg_ok (get_tags cfg req).
Proof. unfold get_tags, TagStore_list. cbv zeta. keep. Qed.

Lemma answer_ok req (m : RM OciResponse) s : keeps reg_ok m → reg_ok s → reg_ok (answer req m s).2.
Proof. intros Hk Hs. unfold answer. specialize (Hk s Hs). destruct (m s) as [[e|r] s']; done. Qed.

Lemma serve_ok route req s : reg_ok s → reg_ok (serve cfg route req s).2.
Proof.
  intros Hs. assert (Hk : keeps reg_ok (oci_handler cfg route req)).
  { destruct route; simpl; [apply post_upload_ok|apply patch_upload_ok|apply put_upload_ok|apply get_oci_blob_ok|apply head_oci_blob_ok
    |apply delete_oci_blob_ok|apply put_manifest_ok|apply serveManifest_ok|apply serveManifest_ok|apply delete_manifest_ok
    |apply get_catalog_ok|apply get_tags_ok]. }
  by apply answer_ok.
Qed.

End integrity.

(** Looking blobs and manifests up moves the clock only. *)
Lemma references_frame `{RegHost} `{JsEngine} (P : Reg → Prop) parsed storageName :
  (∀ n s, P s → P (set_tick n s)) →
  keeps P (match parsed with
           | PM_manifest m => validateSingleManifestReferences m
           | PM_index i => validateIndexChildManifests i storageName
           end).
Proof.
  intros HP. pose proof (file_op_frame P HP) as Hf.
  assert (Hstat : ∀ sha, keeps P (statBlob sha)).
  { intros sha. unfold statBlob, getBlobRecord, fs_statBlob, fileExists, readSidecar. keep. }
  assert (Hlayers : ∀ l i, keeps P (check_layers i l)).
  { induction l as [|d l IH]; intros i; simpl; [keep|]. destruct (is_foreign d); [apply IH|keep]. }
  assert (Hchildren : ∀ l, keeps P (check_children storageName l)).
  { induction l as [|d l IH]; simpl; unfold getManifest, fetchRow; keep. }
  destruct parsed as [m|i]; unfold validateSingleManifestReferences, validateIndexChildManifests; keep.
Qed.

(** ** Runs on a disk that works *)

Section healthy.
Context `{RegHost} `{JsEngine} (cfg : OciConfig).
Hypothesis healthy : ∀ n, io n = Io_ok.
Hypothesis sha_hex : ∀ c, is_hex_of 64 (sha256 c) = true.
Hypothesis id_hex : ∀ n, is_hex_of 32 (random_id n) = true.

Lemma file_op_run s : file_op s = (inr (), set_tick (S (rg_tick s)) s).
Proof. unfold file_op. rewrite rbind_eq. cbn. by rewrite healthy. Qed.

(** The state but for the clock. *)
Definition later (s s' : Reg) : Prop := (rg_tick s ≤ rg_tick s')%nat ∧ s' = set_tick (rg_tick s') s.

Lemma later_refl s : later s s.
Proof. split; [done|]. by destruct s. Qed.
Lemma later_tick s s' n : later s s' → (rg_tick s' ≤ n)%nat → later s (set_tick n s').
Proof. intros [Hle E] Hn. split; [simpl; lia|]. rewrite E. by destruct s. Qed.

Lemma appendBytes_run id bytes s :
  is_hex_of 32 id = true →
  ∃ n, (rg_tick s ≤ n)%nat ∧
  UploadFs_appendBytes id bytes s =
    (inr (Z.of_nat (String.length ((rg_tmp s !! id ?? "") +:+ bytes))),
     set_tick n (set_tmp (<[id := (rg_tmp s !! id ?? "") +:+ bytes]> (rg_tmp s)) s)).
Proof.
  intros Hid. unfold UploadFs_appendBytes, ensureDir, validateUploadId. rewrite Hid.
  rewrite (rbind_ok _ _ _ _ _ (file_op_run s)). rewrite rbind_eq. cbn [negb rlift].
  rewrite (rbind_ok _ _ _ _ _ (file_op_run _)). rewrite rbind_eq. cbn [rput]. rewrite rbind_eq. cbn [tick]. rewrite healthy.
  rewrite rbind_eq. cbn [rput]. rewrite (rbind_ok _ _ _ _ _ (file_op_run _)), (rbind_ok _ _ _ _ _ (file_op_run _)).
  rewrite rbind_eq. cbn. rewrite !lookup_insert_eq. cbn. unfold str_take. rewrite substring_whole.
  exists (5 + rg_tick s)%nat. split; [lia|]. rewrite insert_insert_eq. reflexivity.
Qed.

(** *** A session *)

Definition len (c : string) : Z := Z.of_nat (String.length c).

Lemma len_app a b : len (a +:+ b) = len a + len b.
Proof. unfold len. rewrite str_app_length. lia. Qed.

(** The session has received [content]. *)
Definition session (id repository content : string) (s : Reg) : Prop :=
  (∃ row, find_first (is_upload id) (rg_upload s) = Some row ∧ pu_uploadId row = id ∧ pu_repository row = repository ∧
          pu_bytesReceived row = len content) ∧
  rg_tmp s !! id ?? "" = content ∧ (content ≠ "" → is_Some (rg_tmp s !! id)).

(** Only sessions and the clock moved on. *)
Definition sessions_only (s s' : Reg) : Prop :=
  rg_manifest s' = rg_manifest s ∧ rg_blob s' = rg_blob s ∧ rg_tag s' = rg_tag s ∧ rg_audit s' = rg_audit s ∧
  rg_files s' = rg_files s ∧ rg_sidecars s' = rg_sidecars s ∧ (rg_tick s ≤ rg_tick s')%nat.

Lemma sessions_only_trans s1 s2 s3 : sessions_only s1 s2 → sessions_only s2 s3 → sessions_only s1 s3.
Proof. unfold sessions_only. intuition (try congruence; lia). Qed.

Lemma find_first_update_where {R} (p : R → bool) f l :
  (∀ x, p x = true → p (f x) = true) → find_first p (update_where p f l) = option_map f (find_first p l).
Proof.
  intros Hf. induction l as [|x l IH]; [done|]. simpl. destruct (p x) eqn:E; simpl; [by rewrite Hf|by rewrite E].
Qed.

Definition post_request (name : string) (token : option string) : OciRequest := mkOciRequest name "" [] None None None None token.
Definition patch_request (name id range chunk : string) (token : option string) : OciRequest :=
  mkOciRequest name id [] (Some range) None None (Some (SB_bytes chunk)) token.
Definition put_request (name id digest : string) (token : option string) : OciRequest :=
  mkOciRequest name id [("digest", digest)] None None None (Some (SB_bytes "")) token.
Definition get_request (name digest : string) (token : option string) : OciRequest :=
  mkOciRequest name digest [] None None None None token.

Context (name : string) (repo : ParsedRepository) (token : option string).
Hypothesis name_parses : parseRepositoryParam name = inr repo.

Lemma session_of_run req id content s :
  oq_reference req = id → is_hex_of 32 id = true → session id (rp_storageName repo) content s →
  ∃ row, session_of req repo s = (inr row, s) ∧ pu_uploadId row = id ∧ pu_bytesReceived row = len content ∧
    pu_repository row = rp_storageName repo ∧
    find_first (is_upload id) (rg_upload s) = Some row.
Proof.
  intros <- Hid [(row & Ef & Ei & Er & Eb) _]. exists row. split; [|done].
  unfold session_of, validateUploadId, UploadStore_get. rewrite Hid, rbind_eq. cbn [rlift negb]. rewrite rbind_eq. cbn [rget].
  by rewrite Ef, Er, bool_decide_eq_true_2.
Qed.

Lemma reg_now_run s : reg_now s = (inr (reg_clock (rg_tick s)), set_tick (S (rg_tick s)) s).
Proof. done. Qed.

Lemma create_run ttl repository actor s :
  let id := random_id (rg_tick s) in
  let t := reg_clock (S (rg_tick s)) in
  let row := mkPendingUploadRow id repository [] 0 (toISOString t) (toISOString (t + ttl * 1000)) actor in
  existsb (is_upload id) (rg_upload s) = false →
  UploadStore_create ttl repository actor s = (inr row, set_upload (rg_upload s ++ [row]) (set_tick (2 + rg_tick s) s)).
Proof.
  intros id t row Hu. unfold UploadStore_create. rewrite rbind_eq. cbn [tick]. rewrite (rbind_ok _ _ _ _ _ (reg_now_run _)).
  rewrite rbind_eq. cbn [rget rg_upload set_tick rg_tick]. fold id. rewrite Hu. reflexivity.
Qed.

Lemma post_run s :
  (∀ n, (rg_tick s ≤ n)%nat → (∀ r, r ∈ rg_upload s → pu_uploadId r ≠ random_id n) ∧ rg_tmp s !! random_id n = None) →
  ∃ id s', serve cfg OR_post_upload (post_request name token) s
      = (writeUploadAccepted (upload_location cfg repo id) id 0, s') ∧
    is_hex_of 32 id = true ∧ session id (rp_storageName repo) "" s' ∧ sessions_only s s'.
Proof.
  intros Hfresh. destruct (Hfresh (S (rg_tick s)) ltac:(lia)) as [Hnew Htmp].
  assert (Hu : existsb (is_upload (random_id (S (rg_tick s)))) (rg_upload s) = false).
  { apply not_true_iff_false. intros (r & Hr & E)%existsb_exists. apply bool_decide_eq_true in E. apply (Hnew r); [by apply list_elem_of_In|done]. }
  unfold serve, answer. cbn [oci_handler]. unfold post_upload, ensureDir. cbn [oq_name post_request].
  rewrite name_parses, rbind_eq. cbn [rlift]. rewrite (rbind_ok _ _ _ _ _ (file_op_run s)).
  rewrite (rbind_ok _ _ _ _ _ (create_run _ _ _ (set_tick (S (rg_tick s)) s) Hu)). cbn [mret RM_ret pu_uploadId rg_tick set_tick].
  do 2 eexists. split; [reflexivity|]. split; [apply id_hex|]. split; [|repeat split; simpl; lia].
  split; [|split; simpl; [by rewrite Htmp|done]]. eexists. simpl. rewrite find_first_app.
  assert (find_first (is_upload (random_id (S (rg_tick s)))) (rg_upload s) = None) as ->.
  { apply find_first_None. intros x Hx. apply (existsb_false _ _ Hu x Hx). }
  simpl. unfold is_upload. simpl. rewrite bool_decide_eq_true_2 by done. split; [reflexivity|]. by repeat split.
Qed.

Lemma appendChunk_run ttl id chunk row s :
  find_first (is_upload id) (rg_upload s) = Some row →
  let f := appended chunk (toISOString (reg_clock (rg_tick s) + ttl * 1000)) in
  UploadStore_appendChunk ttl id chunk s =
    (inr (f row), set_upload (update_where (is_upload id) f (rg_upload s)) (set_tick (S (rg_tick s)) s)).
Proof.
  intros Ef f. unfold UploadStore_appendChunk, UploadStore_get. rewrite rbind_eq. cbn [rget]. rewrite Ef.
  rewrite (rbind_ok _ _ _ _ _ (reg_now_run _)). reflexivity.
Qed.

Lemma patch_run id content range chunk s :
  is_hex_of 32 id = true → session id (rp_storageName repo) content s →
  parseContentRange (Some range) = inr (mkContentRange (len content) (len content + len chunk - 1)) →
  ∃ s', serve cfg OR_patch_upload (patch_request name id range chunk token) s
      = (writeUploadAccepted (upload_location cfg repo id) id (len (content +:+ chunk)), s') ∧
    session id (rp_storageName repo) (content +:+ chunk) s' ∧ sessions_only s s'.
Proof.
  intros Hid Hs Hr. unfold serve, answer. cbn [oci_handler]. unfold patch_upload. cbn [oq_name oq_contentRange oq_body patch_request].
  rewrite name_parses, rbind_eq. cbn [rlift].
  destruct (session_of_run (patch_request name id range chunk token) id content s eq_refl Hid Hs) as (row & Er & Ei & Eb & Erep & Ef).
  rewrite (rbind_ok _ _ _ _ _ Er), Hr, rbind_eq. cbn [rlift cr_start]. rewrite Eb, Z.eqb_refl. cbn [negb].
  cbv zeta. unfold contentRangeLength. cbn [cr_start cr_end readChunk]. rewrite rbind_eq. cbn [mret RM_ret].
  assert (Z.of_nat (String.length chunk) =? len content + len chunk - 1 - len content + 1 = true) as ->
    by (unfold len; apply Z.eqb_eq; lia). cbn [negb].
  destruct Hs as (_ & Ht & _). rewrite Ei. destruct (appendBytes_run id chunk s Hid) as (n & Hn & Ea). rewrite Ht in Ea.
  rewrite (rbind_ok _ _ _ _ _ Ea).
  assert (Z.of_nat (String.length (content +:+ chunk)) =? len content + Z.of_nat (String.length chunk) = true) as ->
    by (apply Z.eqb_eq; rewrite str_app_length; unfold len; lia). cbn [negb].
  match goal with |- context [(UploadStore_appendChunk ?t id ?k ≫= _) ?s1] =>
    rewrite (rbind_ok _ _ _ _ _ (appendChunk_run t id k row s1 Ef)) end. cbn [mret RM_ret].
  eexists. split; [|split].
  - rewrite len_app, <- Eb. reflexivity.
  - split; [|split; simpl; [by rewrite lookup_insert_eq|by rewrite lookup_insert_eq]].
    eexists. simpl. rewrite find_first_update_where by done. rewrite Ef. split; [reflexivity|]. simpl.
    split; [done|]. split; [|by rewrite len_app, <- Eb]. done.
  - repeat split; simpl; lia.
Qed.

(** *** Finishing a session *)

(** Every sidecar is whole and describes a file that is there. *)
Definition disk_ok (s : Reg) : Prop :=
  ∀ h x, rg_sidecars s !! h = Some x → ∃ m c, x = SC_json m ∧ rg_files s !! h = Some c ∧ sd_size m = len c.

Definition fresh_audit (s : Reg) : Prop := ∀ n, (rg_tick s ≤ n)%nat → ∀ e, e ∈ rg_audit s → ra_id e ≠ audit_id n.

Lemma digest_of c : validateOciDigest (SHA256_PREFIX +:+ sha256 c) = inr (sha256 c).
Proof.
  unfold validateOciDigest, is_digest. rewrite starts_with_app.
  assert (str_drop 7 (SHA256_PREFIX +:+ sha256 c) = sha256 c) as -> by apply (str_drop_app SHA256_PREFIX). by rewrite sha_hex.
Qed.

Lemma appendAudit_run a t i ac d s :
  fresh_audit s → ∃ e, appendAuditEntry a t i ac d s = (inr e, set_audit (rg_audit s ++ [e]) (set_tick (2 + rg_tick s) s)).
Proof.
  intros Hf. unfold appendAuditEntry. rewrite rbind_eq. cbn [tick]. rewrite rbind_eq. unfold reg_nowIso.
  rewrite (rbind_ok _ _ _ _ _ (reg_now_run _)). cbn [mret RM_ret]. cbv zeta. rewrite rbind_eq. cbn [rget rg_audit set_tick rg_tick].
  assert (existsb (λ e, ra_id e =?s audit_id (rg_tick s)) (rg_audit s) = false) as ->.
  { apply not_true_iff_false. intros (e & He & E)%existsb_exists. apply bool_decide_eq_true in E.
    apply (Hf (rg_tick s) ltac:(lia) e); [by apply list_elem_of_In|done]. }
  by eexists.
Qed.

Lemma hashAssembled_run id c s :
  is_hex_of 32 id = true → rg_tmp s !! id = Some c →
  UploadFs_hashAssembled id s = (inr (sha256 c), set_tick (S (rg_tick s)) s).
Proof.
  intros Hid Ht. unfold UploadFs_hashAssembled, validateUploadId. rewrite Hid, rbind_eq. cbn [negb rlift].
  rewrite (rbind_ok _ _ _ _ _ (file_op_run s)), rbind_eq. cbn [rget rg_tmp set_tick]. by rewrite Ht.
Qed.

Lemma unlink_run f s : unlink_quietly f s = (inr (), f (set_tick (S (rg_tick s)) s)).
Proof. unfold unlink_quietly, rcatch. by rewrite (rbind_ok _ _ _ _ _ (file_op_run s)). Qed.

Lemma writeSidecar_run sha m s :
  writeSidecar sha m s = (inr (), set_sidecars (<[sha := SC_json m]> (rg_sidecars s)) (set_tick (S (rg_tick s)) s)).
Proof. unfold writeSidecar. rewrite rbind_eq. cbn [tick]. by rewrite healthy. Qed.

(** After a promotion the content is on disk, with its sidecar. *)
Definition stored (c : string) (s : Reg) : Prop :=
  ∃ m x, rg_sidecars s !! sha256 c = Some (SC_json m) ∧ rg_files s !! sha256 c = Some x ∧ sha256 x = sha256 c ∧ sd_size m = len x.

Lemma promoteToBlob_run id c s :
  is_hex_of 32 id = true → rg_tmp s !! id = Some c → reg_ok s → disk_ok s →
  ∃ z s', UploadFs_promoteToBlob id (sha256 c) (Some "application/octet-stream") s = (inr z, s') ∧ stored c s' ∧
    rg_blob s' = rg_blob s ∧ rg_audit s' = rg_audit s ∧ (rg_tick s ≤ rg_tick s')%nat.
Proof.
  intros Hid Ht Hok Hd. unfold UploadFs_promoteToBlob, validateUploadId, validateSha256. rewrite Hid, sha_hex, rbind_eq. cbn [negb rlift].
  rewrite rbind_eq. cbn [rlift]. rewrite (rbind_ok _ _ _ _ _ (file_op_run s)), (rbind_ok _ _ _ _ _ (file_op_run _)), rbind_eq.
  cbn [rget rg_sidecars set_tick rg_tick]. destruct (rg_sidecars s !! sha256 c) as [x|] eqn:Es.
  - destruct (Hd _ _ Es) as (m & y & -> & Hy & Hsz). rewrite (rbind_ok _ _ _ _ _ (unlink_run _ _)).
    do 2 eexists. split; [reflexivity|]. split; [|simpl; by repeat split; lia].
    exists m, y. simpl. split; [done|]. split; [done|]. split; [by apply (ok_files s Hok)|done].
  - rewrite (rbind_ok _ _ _ _ _ (file_op_run _)), rbind_eq. cbn [rget rg_tmp set_tick rg_tick]. rewrite Ht.
    rewrite (rbind_ok _ _ _ _ _ (file_op_run _)), rbind_eq. cbn [rput]. rewrite rbind_eq. unfold reg_nowIso.
    rewrite (rbind_ok _ _ _ _ _ (reg_now_run _)). cbn [mret RM_ret]. rewrite (rbind_ok _ _ _ _ _ (writeSidecar_run _ _ _)).
    do 2 eexists. split; [reflexivity|]. split; [|simpl; by repeat split; lia].
    do 2 eexists. simpl. rewrite !lookup_insert_eq. by repeat split.
Qed.

Lemma fileExists_run sha c s : rg_files s !! sha = Some c → fileExists sha s = (inr true, set_tick (S (rg_tick s)) s).
Proof. intros E. unfold fileExists, rcatch. rewrite (rbind_ok _ _ _ _ _ (file_op_run s)). cbn [rget rg_files set_tick]. by rewrite E. Qed.

Lemma statBlob_run c s :
  stored c s → ∃ b n, fs_statBlob (sha256 c) s = (inr (Some b), set_tick n s) ∧ (rg_tick s ≤ n)%nat ∧ bl_sha256 b = sha256 c ∧ 0 ≤ bl_size b.
Proof.
  intros (m & x & Hm & Hx & _ & Hsz). unfold fs_statBlob, validateSha256. rewrite sha_hex, rbind_eq. cbn [negb rlift].
  rewrite (rbind_ok _ _ _ _ _ (fileExists_run _ x s Hx)). cbn [negb]. rewrite rbind_eq. unfold readSidecar.
  rewrite (rbind_ok _ _ _ _ _ (file_op_run _)), rbind_eq. cbn [rget rg_sidecars set_tick]. rewrite Hm. cbn [mret RM_ret].
  do 2 eexists. split; [reflexivity|]. split; [simpl; lia|]. split; [done|]. simpl. rewrite Hsz. unfold len. lia.
Qed.

Definition known (sha : string) (s : Reg) : Prop := ∃ b, find_first (λ b, bl_sha256 b =?s sha) (rg_blob s) = Some b.

Lemma recordBlob_run b s :
  0 ≤ bl_size b → ∃ s', recordBlob b s = (inr (), s') ∧ known (bl_sha256 b) s' ∧ s' = set_blob (rg_blob s') s.
Proof.
  intros Hsz. unfold recordBlob. assert (bl_size b <? 0 = false) as -> by lia.
  destruct (existsb _ _) eqn:E.
  - exists s. split; [done|]. split; [|by destruct s]. apply existsb_exists in E as (x & Hx & Ex). apply find_first_is_Some with x; [by apply list_elem_of_In|done].
  - eexists. split; [done|]. split; [|by destruct s]. eexists. cbn [rg_blob set_blob]. rewrite find_first_app.
    rewrite (proj2 (find_first_None _ _)) by (intros x Hx; apply (existsb_false _ _ E x Hx)). simpl.
    by rewrite bool_decide_eq_true_2.
Qed.

Lemma put_run id content s :
  is_hex_of 32 id = true → session id (rp_storageName repo) content s → content ≠ "" → reg_ok s → disk_ok s → fresh_audit s →
  ∃ location s' x, serve cfg OR_put_upload (put_request name id (SHA256_PREFIX +:+ sha256 content) token) s
      = (writeBlobCreated location (SHA256_PREFIX +:+ sha256 content), s') ∧
    known (sha256 content) s' ∧ rg_files s' !! sha256 content = Some x ∧ sha256 x = sha256 content.
Proof.
  intros Hid Hs Hne Hok Hd Hf. unfold serve, answer. cbn [oci_handler]. unfold put_upload. cbn [oq_name put_request].
  rewrite name_parses, rbind_eq. cbn [rlift].
  destruct (session_of_run (put_request name id (SHA256_PREFIX +:+ sha256 content) token) id content s eq_refl Hid Hs)
    as (row & Er & Ei & Eb & Erep & Ef).
  destruct Hs as (_ & Ht & Hsome). destruct (Hsome Hne) as [c Hc]. rewrite Hc in Ht. subst c.
  rewrite (rbind_ok _ _ _ _ _ Er).
  assert (truthy (query_of (put_request name id (SHA256_PREFIX +:+ sha256 content) token) "digest")
    = Some (SHA256_PREFIX +:+ sha256 content)) as -> by done.
  rewrite digest_of, rbind_eq. cbn [rlift]. rewrite rbind_eq. unfold final_chunk, append_tail. cbn [oq_body oq_contentRange put_request].
  rewrite rbind_eq. cbn [readChunk mret RM_ret String.length Nat.eqb]. rewrite Ei.
  rewrite (rbind_ok _ _ _ _ _ (hashAssembled_run id content s Hid Hc)), bool_decide_eq_true_2 by done. cbn [negb].
  destruct (promoteToBlob_run id content (set_tick (S (rg_tick s)) s) Hid Hc (ok_set_tick _ _ Hok) Hd) as (z & s1 & E1 & Hst & Hb1 & Ha1 & Hn1).
  rewrite (rbind_ok _ _ _ _ _ E1). destruct (statBlob_run content s1 Hst) as (b & n & E2 & Hn & Hsha & Hsz).
  rewrite (rbind_ok _ _ _ _ _ E2). destruct (recordBlob_run b (set_tick n s1) Hsz) as (s2 & E3 & Hk & Es2).
  rewrite (rbind_ok _ _ _ _ _ E3), rbind_eq. cbn [UploadStore_delete rput].
  match goal with |- context [(appendAuditEntry ?a ?t ?i ?ac ?d ≫= _) ?s3] => destruct (appendAudit_run a t i ac d s3) as [e E4] end.
  { intros k Hk' e He. rewrite Es2 in He, Hk'. cbn [rg_audit set_upload set_blob set_tick] in He. rewrite Ha1 in He.
    apply (Hf k); [|done]. simpl in *. lia. }
  rewrite (rbind_ok _ _ _ _ _ E4). destruct Hst as (m & x & _ & Hx & Hxs & _).
  exists (oc_baseUrl cfg +:+ "/v2/" +:+ rp_org repo +:+ "/" +:+ rp_repo repo +:+ "/blobs/" +:+ SHA256_PREFIX +:+ sha256 content).
  eexists _, x. split; [reflexivity|]. split; [by rewrite <- Hsha|]. split; [|done]. simpl. by rewrite Es2.
Qed.

Lemma name_valid : validateOciRepositoryName name = inr ().
Proof.
  revert name_parses. unfold parseRepositoryParam. destruct (_ =? _)%nat; [done|].
  destruct (span _ name) as [[|a org] [|c [|d tail]]]; try done.
  cbn. destruct (validateOciRepositoryName name) as [e|[]]; done.
Qed.

Lemma get_run sha x s :
  is_hex_of 64 sha = true → known sha s → rg_files s !! sha = Some x →
  ∃ headers s', serve cfg OR_get_blob (get_request name (SHA256_PREFIX +:+ sha) token) s = (mkOciResponse 200 headers (OB_bytes x), s').
Proof.
  intros Hsha [b Hb] Hx. unfold serve, answer. cbn [oci_handler]. unfold get_oci_blob. cbn [oq_name oq_reference get_request].
  rewrite name_valid, rbind_eq. cbn [rlift].
  assert (validateOciDigest (SHA256_PREFIX +:+ sha) = inr sha) as ->.
  { unfold validateOciDigest, is_digest. rewrite starts_with_app.
    assert (str_drop 7 (SHA256_PREFIX +:+ sha) = sha) as -> by apply (str_drop_app SHA256_PREFIX). by rewrite Hsha. }
  rewrite rbind_eq. cbn [rlift]. unfold statBlob, getBlobRecord. rewrite rbind_eq, rbind_eq. cbn [rget]. rewrite Hb. cbn [mret RM_ret].
  rewrite rbind_eq. cbn [mret RM_ret]. unfold opened, rcatch, getBlob, validateSha256. rewrite Hsha. rewrite rbind_eq, rbind_eq. cbn [negb rlift].
  rewrite (rbind_ok _ _ _ _ _ (fileExists_run sha x s Hx)). cbn [negb]. rewrite (rbind_ok _ _ _ _ _ (file_op_run _)), rbind_eq.
  cbn [rget rg_files set_tick]. rewrite Hx. cbn. by do 2 eexists.
Qed.

(** *** The whole push *)

(** Chunk after chunk, each with the range that continues the one before. *)
Fixpoint contiguous (offset : Z) (chunks : list (string * string)) : Prop :=
  match chunks with
  | [] => True
  | (range, c) :: chunks' =>
    parseContentRange (Some range) = inr (mkContentRange offset (offset + len c - 1)) ∧ contiguous (offset + len c) chunks'
  end.

Fixpoint push_chunks (id : string) (chunks : list (string * string)) (s : Reg) : list OciResponse * Reg :=
  match chunks with
  | [] => ([], s)
  | (range, c) :: chunks' =>
    let '(r, s1) := serve cfg OR_patch_upload (patch_request name id range c token) s in
    let '(rs, s2) := push_chunks id chunks' s1 in (r :: rs, s2)
  end.

Lemma push_keeps (I : Reg → Prop) id chunks s :
  (∀ req s, I s → I (serve cfg OR_patch_upload req s).2) → I s → I (push_chunks id chunks s).2.
Proof.
  intros Hp. revert s. induction chunks as [|[range c] chunks IH]; intros s Hs; [done|]. cbn [push_chunks].
  specialize (Hp (patch_request name id range c token) s Hs). destruct (serve _ _ _ s) as [r s1]. specialize (IH s1 Hp).
  by destruct (push_chunks id chunks s1).
Qed.

Lemma push_run id chunks content s :
  is_hex_of 32 id = true → session id (rp_storageName repo) content s → contiguous (len content) chunks →
  ∃ rs s', push_chunks id chunks s = (rs, s') ∧ Forall (λ r, or_status r = 202) rs ∧
    session id (rp_storageName repo) (content +:+ str_concat (map snd chunks)) s' ∧ sessions_only s s'.
Proof.
  intros Hid. revert content s. induction chunks as [|[range c] chunks IH]; intros content s Hs Hc.
  - exists [], s. cbn. rewrite str_app_nil_r. repeat split; try done; apply Hs.
  - destruct Hc as [Hp Hc]. destruct (patch_run id content range c s Hid Hs Hp) as (s1 & E1 & Hs1 & Ho1).
    rewrite <- len_app in Hc. destruct (IH _ _ Hs1 Hc) as (rs & s2 & E2 & Hrs & Hs2 & Ho2).
    eexists _, s2. cbn [push_chunks]. rewrite E1, E2. split; [reflexivity|]. split; [by constructor|].
    split; [|by eapply sessions_only_trans]. cbn. by rewrite str_app_assoc.
Qed.

Lemma contiguous_nonempty offset chunks : contiguous offset chunks → chunks ≠ [] → str_concat (map snd chunks) ≠ "".
Proof.
  destruct chunks as [|[range c] chunks]; [done|]. intros [Hp _] _ E. cbn in E.
  assert (c = "") as -> by (by destruct c). unfold parseContentRange in Hp. destruct (truthy (Some range)) as [v|]; [|done].
  destruct (span is_digit v) as [[|a start] [|d [|b finish]]]; [done..|by destruct d as [[][][][][][][][]]|].
  destruct d as [[][][][][][][][]]; try done. destruct (negb _); [done|]. destruct (_ || _); [done|].
  destruct (_ <? _) eqn:El; [done|]. injection Hp as Hs He. change (len "") with 0 in He. apply Z.ltb_ge in El. cbn [decimal_value] in El. lia.
Qed.

(** Identifiers that the registry has not used. *)
Definition fresh (s : Reg) : Prop :=
  fresh_audit s ∧ ∀ n, (rg_tick s ≤ n)%nat → (∀ r, r ∈ rg_upload s → pu_uploadId r ≠ random_id n) ∧ rg_tmp s !! random_id n = None.

(** C24: A blob pushed in chunks comes back.  On a disk that works, an upload is
    opened, takes every chunk whose Content-Range continues the ones before,
    is closed under the digest of all the bytes, and a GET of that digest
    returns exactly the chunks, put together. *)
Theorem chunked_upload_roundtrip chunks s :
  reg_ok s → disk_ok s → fresh s → contiguous 0 chunks → chunks ≠ [] →
  let content := str_concat (map snd chunks) in
  (∀ x, sha256 x = sha256 content → x = content) →
  ∃ id s1 rs s2 r3 s3 headers s4,
    serve cfg OR_post_upload (post_request name token) s = (writeUploadAccepted (upload_location cfg repo id) id 0, s1) ∧
    push_chunks id chunks s1 = (rs, s2) ∧ Forall (λ r, or_status r = 202) rs ∧
    serve cfg OR_put_upload (put_request name id (SHA256_PREFIX +:+ sha256 content) token) s2 = (r3, s3) ∧ or_status r3 = 201 ∧
    serve cfg OR_get_blob (get_request name (SHA256_PREFIX +:+ sha256 content) token) s3
      = (mkOciResponse 200 headers (OB_bytes content), s4).
Proof.
  intros Hok Hd [Hfa Hfu] Hc Hne content Hcol.
  destruct (post_run s Hfu) as (id & s1 & E1 & Hid & Hs1 & Ho1).
  destruct (push_run id chunks "" s1 Hid Hs1 Hc) as (rs & s2 & E2 & Hrs & Hs2 & Ho2).
  change ("" +:+ str_concat (map snd chunks)) with content in Hs2.
  destruct (sessions_only_trans _ _ _ Ho1 Ho2) as (Em & Eb & Et & Ea & Efi & Esc & Htick).
  assert (Hok2 : reg_ok s2).
  { assert (Hok1 : reg_ok s1).
    { replace s1 with (serve cfg OR_post_upload (post_request name token) s).2 by (by rewrite E1).
      apply answer_ok; [apply post_upload_ok|done]. }
    replace s2 with (push_chunks id chunks s1).2 by (by rewrite E2).
    apply push_keeps; [|done]. intros req s' Hs'. apply answer_ok; [apply patch_upload_ok|done]. }
  assert (Hd2 : disk_ok s2) by (unfold disk_ok; by rewrite Efi, Esc).
  assert (Hf2 : fresh_audit s2) by (intros n Hn e; rewrite Ea; apply Hfa; lia).
  destruct (put_run id content s2 Hid Hs2 (contiguous_nonempty 0 chunks Hc Hne) Hok2 Hd2 Hf2) as (location & s3 & x & E3 & Hk & Hx & Hxs).
  rewrite (Hcol x Hxs) in Hx. destruct (get_run (sha256 content) content s3 (sha_hex _) Hk Hx) as (headers & s4 & E4).
  by exists id, s1, rs, s2, (writeBlobCreated location (SHA256_PREFIX +:+ sha256 content)), s3, headers, s4.
Qed.

(** *** The disk stays in order *)

Lemma disk_frame s s' : rg_files s' = rg_files s → rg_sidecars s' = rg_sidecars s → disk_ok s → disk_ok s'.
Proof. intros Ef Es Hs. unfold disk_ok. by rewrite Ef, Es. Qed.

Ltac keep_disk := keep; try (apply keeps_put; intros ?; apply disk_frame; reflexivity).

Lemma disk_tick : keeps disk_ok tick.
Proof. intros s Hs. by apply (disk_frame s). Qed.
Hint Resolve disk_tick : registry.
Lemma disk_now : keeps disk_ok reg_now.
Proof. unfold reg_now. keep. Qed.
Hint Resolve disk_now : registry.
Lemma disk_nowIso : keeps disk_ok reg_nowIso.
Proof. unfold reg_nowIso. keep. Qed.
Lemma disk_file_op : keeps disk_ok file_op.
Proof. unfold file_op. keep. Qed.
Hint Resolve disk_nowIso disk_file_op : registry.
Lemma disk_audit a t i ac d : keeps disk_ok (appendAuditEntry a t i ac d).
Proof. apply audit_frame; intros; by eapply disk_frame. Qed.
Lemma disk_record b : keeps disk_ok (recordBlob b).
Proof. intros s Hs. unfold recordBlob. destruct (_ <? 0); [done|]. destruct (existsb _ _); [done|]. by eapply disk_frame. Qed.
Lemma disk_stat sha : keeps disk_ok (statBlob sha).
Proof. unfold statBlob, getBlobRecord, fs_statBlob, fileExists, readSidecar. keep. Qed.
Lemma disk_fs_stat sha : keeps disk_ok (fs_statBlob sha).
Proof. unfold fs_statBlob, fileExists, readSidecar. keep. Qed.
Lemma disk_get sha : keeps disk_ok (getBlob sha).
Proof. unfold getBlob, fileExists. keep. Qed.
Lemma disk_getManifest n v : keeps disk_ok (getManifest n v).
Proof. unfold getManifest, fetchRow. keep. Qed.
Lemma disk_bytes n v : keeps disk_ok (getCanonicalBytes n v).
Proof. unfold getCanonicalBytes, fetchRow. keep. Qed.
Lemma disk_session req r : keeps disk_ok (session_of req r).
Proof. unfold session_of, UploadStore_get. keep. Qed.
Lemma disk_append id b : keeps disk_ok (UploadFs_appendBytes id b).
Proof. unfold UploadFs_appendBytes, ensureDir. cbv zeta. keep_disk. Qed.
Lemma disk_chunk ttl id c : keeps disk_ok (UploadStore_appendChunk ttl id c).
Proof. unfold UploadStore_appendChunk, UploadStore_get. keep_disk. Qed.
Hint Resolve disk_audit disk_record disk_stat disk_fs_stat disk_get disk_getManifest disk_bytes disk_session disk_append disk_chunk : registry.

(** Deleting a blob takes the file and its sidecar. *)
Lemma disk_delete sha : keeps disk_ok (deleteBlob sha).
Proof.
  unfold deleteBlob. apply keeps_bind; [apply keeps_lift|intros _]. intros s Hs.
  rewrite (rbind_ok _ _ _ _ _ (unlink_run _ s)), unlink_run. cbn. intros h x Hx. cbn in *.
  apply lookup_delete_Some in Hx as [Hne Hx]. destruct (Hs h x Hx) as (m & c & Em & Hc & Hsz). exists m, c.
  by rewrite lookup_delete_ne.
Qed.

(** A promotion adds a file and a sidecar that describes it. *)
Lemma disk_promote id sha ct : keeps disk_ok (UploadFs_promoteToBlob id sha ct).
Proof.
  unfold UploadFs_promoteToBlob. do 4 (apply keeps_bind; [keep|intros _]).
  intros s Hs. rewrite rbind_eq. cbn [rget]. destruct (rg_sidecars s !! sha) as [[m|]|] eqn:Es; [|done|].
  - rewrite (rbind_ok _ _ _ _ _ (unlink_run _ _)). by apply (disk_frame s).
  - rewrite (rbind_ok _ _ _ _ _ (file_op_run _)), rbind_eq. cbn [rget rg_tmp set_tick]. destruct (rg_tmp s !! id) as [c|]; [|by apply (disk_frame s)].
    rewrite (rbind_ok _ _ _ _ _ (file_op_run _)), rbind_eq. cbn [rput]. rewrite rbind_eq. unfold reg_nowIso.
    rewrite (rbind_ok _ _ _ _ _ (reg_now_run _)). cbn [mret RM_ret]. rewrite (rbind_ok _ _ _ _ _ (writeSidecar_run _ _ _)).
    intros h x Hx. cbn in *. destruct (decide (h = sha)) as [->|Hne].
    + rewrite lookup_insert_eq in Hx. assert (x = SC_json _) as -> by (symmetry; by injection Hx).
      do 2 eexists. split; [reflexivity|]. rewrite lookup_insert_eq. by split.
    + rewrite lookup_insert_ne in Hx by done. rewrite lookup_insert_ne by done. by apply Hs.
Qed.

Lemma disk_references parsed storageName :
  keeps disk_ok (match parsed with PM_manifest m => validateSingleManifestReferences m | PM_index i => validateIndexChildManifests i storageName end).
Proof. apply references_frame. intros n s Hs. by apply (disk_frame s). Qed.
Hint Resolve disk_delete disk_promote disk_references : registry.

Hypothesis no_proxy : oc_proxyBlob cfg = None ∧ oc_proxyManifest cfg = None.

(** On a disk that works every request leaves sidecars that are whole. *)
Lemma serve_disk_ok route req s : disk_ok s → disk_ok (serve cfg route req s).2.
Proof.
  intros Hs. assert (Hk : keeps disk_ok (oci_handler cfg route req)).
  { destruct no_proxy as [Hpb Hpm]. destruct route; simpl.
    - unfold post_upload, ensureDir, UploadStore_create. cbv zeta. keep_disk.
    - unfold patch_upload, readChunk. cbv zeta. keep_disk.
    - unfold put_upload, final_chunk, append_tail, readChunk, UploadFs_hashAssembled, UploadStore_delete. keep_disk.
    - unfold get_oci_blob, opened. rewrite Hpb. keep_disk.
    - unfold head_oci_blob. keep_disk.
    - unfold delete_oci_blob. keep_disk.
    - unfold put_manifest, readBytes, store_manifest, putManifest, fetchRow, point_tag, TagStore_put, TagStore_get. cbv zeta. keep_disk.
    - unfold get_manifest, serveManifest, resolve_manifest, TagStore_get. rewrite Hpm. cbv zeta. keep_disk.
    - unfold head_manifest, serveManifest, resolve_manifest, TagStore_get. rewrite Hpm. cbv zeta. keep_disk.
    - unfold delete_manifest, delete_tag, delete_digest, TagStore_get, TagStore_delete, deleteManifest, TagStore_deleteByDigest. keep_disk.
    - unfold get_catalog, listRepositoriesAfter. cbv zeta. keep_disk.
    - unfold get_tags, TagStore_list. cbv zeta. keep_disk. }
  unfold answer, serve. specialize (Hk s Hs). unfold answer. destruct (oci_handler cfg route req s) as [[e|r] s']; done.
Qed.
End healthy.

(** ** Manifests come back *)

Section manifests.
Context `{RegHost} `{JsEngine} (cfg : OciConfig).
Hypothesis sha_hex : ∀ c, is_hex_of 64 (sha256 c) = true.

(** The row that a reader of (name, version) finds. *)
Definition holds (name version bytes : string) (s : Reg) : Prop :=
  ∃ row, find_first (is_row name version) (rg_manifest s) = Some row ∧ mr_canonical_bytes row = bytes.

Lemma rlift_inv {A} (r : RRes A) s a s' : rlift r s = (inr a, s') → r = inr a ∧ s' = s.
Proof. intros [= -> <-]. done. Qed.

Lemma bad_name n e : validateManifestName n = inl e → ∃ msg, e = RegistryError BAD_NAME msg.
Proof. unfold validateManifestName. destruct (negb _); [naive_solver|]. destruct (str_includes _ _); naive_solver. Qed.

Lemma bad_version v e : validateManifestVersion v = inl e → ∃ msg, e = RegistryError BAD_VERSION msg.
Proof.
  unfold validateManifestVersion. destruct (_ || _); [naive_solver|]. destruct (negb _); [naive_solver|].
  destruct (str_includes _ _); naive_solver.
Qed.

(** A manifest is stored, or was there already. *)
Lemma putManifest_inv m bytes pv s r s' :
  putManifest m bytes pv s = (r, s') → match r with inr _ | inl (RegistryError MANIFEST_EXISTS _) => True | _ => False end →
  validateManifestName (mf_name m) = inr () ∧ validateManifestVersion (mf_version m) = inr () ∧
  ((∃ row, find_first (is_row (mf_name m) (mf_version m)) (rg_manifest s) = Some row ∧ rg_manifest s' = rg_manifest s) ∨
   holds (mf_name m) (mf_version m) bytes s').
Proof.
  unfold putManifest. rewrite rbind_eq. cbn [rlift].
  destruct (validateManifestName (mf_name m)) as [e|[]] eqn:En; [apply bad_name in En as [msg ->]; by intros [= <- <-]|].
  rewrite rbind_eq. cbn [rlift].
  destruct (validateManifestVersion (mf_version m)) as [e|[]] eqn:Ev; [apply bad_version in Ev as [msg ->]; by intros [= <- <-]|].
  destruct (_ =? _)%nat; [by intros [= <- <-]|]. rewrite rbind_eq. cbn [fetchRow rget].
  destruct (find_first _ _) as [row|] eqn:Ef.
  - intros E _. split; [done|]. split; [done|]. left. exists row. split; [done|]. by destruct (_ =?s _); injection E as _ <-.
  - intros E _. split; [done|]. split; [done|]. right. rewrite rbind_eq in E.
    assert (Hc : rg_manifest ((if mf_createdAt m =?s "" then reg_nowIso else mret (mf_createdAt m)) s).2 = rg_manifest s)
      by (by destruct (mf_createdAt m =?s "")).
    destruct ((if mf_createdAt m =?s "" then reg_nowIso else mret (mf_createdAt m)) s) as [[e|t] s1] eqn:E1.
    + exfalso. by destruct (mf_createdAt m =?s "").
    + cbn in E, Hc. injection E as _ <-. eexists. cbn [rg_manifest set_manifest]. rewrite find_first_app, Hc, Ef. simpl.
      unfold is_row. simpl. rewrite !bool_decide_eq_true_2 by done. split; [reflexivity|done].
Qed.

Lemma store_manifest_inv req repo parsed raw s s' :
  reg_ok s → (∀ x, sha256 x = sha256 raw → x = raw) → starts_with OCI_PREFIX (rp_storageName repo) = true →
  store_manifest req repo parsed (sha256 raw) raw s = (inr (), s') →
  validateManifestName (rp_storageName repo) = inr () ∧ validateManifestVersion (sha256 raw) = inr () ∧
  holds (rp_storageName repo) (sha256 raw) raw s'.
Proof.
  intros Hok Hcol Hpre. unfold store_manifest. rewrite rbind_eq. unfold reg_nowIso. rewrite (rbind_ok _ _ _ _ _ (reg_now_run _)). cbn [mret RM_ret].
  cbv zeta. unfold rcatch. rewrite rbind_eq.
  match goal with |- context [putManifest ?m ?b ?p ?s0] => pose proof (putManifest_inv m b p s0) as Hi; destruct (putManifest m b p s0) as [r s1] end.
  cbn [mf_name mf_version] in Hi. intros E. destruct (Hi r s1 eq_refl) as (Hn & Hv & Hd).
  { destruct r as [[|[]| | | |]|]; done. }
  assert (s1 = s') as -> by (destruct r as [[|[]| | | |]|]; by inversion E).
  split; [done|]. split; [done|]. destruct Hd as [(row & Hf & Em)|Hd]; [|done]. cbn [rg_manifest set_tick] in Hf, Em.
  exists row. rewrite Em. split; [done|]. apply Hcol. apply find_first_Some in Hf as [Hin Hr%is_row_eq]. destruct Hr as [Hrn Hrv].
  rewrite <- (ok_manifests s Hok row Hin); [done|by rewrite Hrn].
Qed.

(** The digest that a reference stands for. *)
Definition refers (repository : string) (ref : OciReference) (hex : string) (s : Reg) : Prop :=
  match ref with
  | Ref_digest _ h => h = hex
  | Ref_tag tag => ∃ row, find_first (is_tag_row repository tag) (rg_tag s) = Some row ∧ tg_manifestSha256 row = hex
  end.

Lemma get_manifest_run req repo ref hex bytes s :
  parseRepositoryParam (oq_name req) = inr repo → parseOciReference (oq_reference req) = inr ref → oq_accept req = None →
  validateManifestName (rp_storageName repo) = inr () → validateManifestVersion hex = inr () → hex ≠ "" →
  refers (rp_storageName repo) ref hex s → holds (rp_storageName repo) hex bytes s →
  ∃ mediaType, serve cfg OR_get_manifest req s =
    (mkOciResponse 200 [("content-type", mediaType); ("content-length", show_Z (Z.of_nat (String.length bytes)));
                        ("Docker-Content-Digest", SHA256_PREFIX +:+ hex)] (OB_bytes bytes), s).
Proof.
  intros Hname Href Hacc Hn Hv Hne Hrefers (row & Hf & Hb).
  assert (Hres : resolve_manifest cfg repo ref s = (inr (Some hex, Some (rowToManifest row)), s)).
  { assert (Hget : getManifest (rp_storageName repo) hex s = (inr (Some (rowToManifest row)), s)).
    { unfold getManifest. rewrite Hn, Hv, rbind_eq. cbn [rlift]. rewrite rbind_eq. cbn [rlift]. rewrite rbind_eq. cbn [fetchRow rget]. by rewrite Hf. }
    assert (Htr : truthy (Some hex) = Some hex) by (by destruct hex).
    unfold resolve_manifest. rewrite (rbind_ok _ _ s (Some hex) s).
    - rewrite Htr, (rbind_ok _ _ _ _ _ Hget). reflexivity.
    - destruct ref as [tag|v h]; simpl in Hrefers; [|by subst h]. destruct Hrefers as (t & Et & <-).
      unfold TagStore_get. rewrite rbind_eq. cbn [rget]. by rewrite Et. }
  exists (mf_mediaType (rowToManifest row)). unfold serve, answer. cbn [oci_handler]. unfold get_manifest, serveManifest.
  rewrite Hname, Href, rbind_eq. cbn [rlift]. rewrite rbind_eq. cbn [rlift]. rewrite (rbind_ok _ _ _ _ _ Hres). cbn [fst snd].
  assert (truthy (Some hex) = Some hex) as -> by (by destruct hex).
  unfold getCanonicalBytes. rewrite Hn, Hv, rbind_eq, rbind_eq. cbn [rlift]. rewrite rbind_eq. cbn [rlift]. rewrite rbind_eq. cbn [fetchRow rget].
  rewrite Hf, Hacc. cbn -[rowToManifest SHA256_PREFIX]. by rewrite Hb.
Qed.

Lemma upsert_find row l : find_first (is_tag_row (tg_repository row) (tg_tag row)) (upsert_tag row l) = Some row.
Proof.
  assert (Hrow : is_tag_row (tg_repository row) (tg_tag row) row = true) by (by apply is_tag_row_eq).
  unfold upsert_tag. destruct (existsb _ l) eqn:E.
  - rewrite find_first_update_where by done. apply existsb_exists in E as (x & Hx%list_elem_of_In & Ex).
    by destruct (find_first_is_Some _ l x Hx Ex) as [y ->].
  - rewrite find_first_app, (proj2 (find_first_None _ _)) by (intros x Hx; apply (existsb_false _ _ E x Hx)). simpl. by rewrite Hrow.
Qed.

(** An audit entry changes the audit log and the clock. *)
Lemma appendAudit_frame {A} (f : Reg → A) a t i ac d s :
  (∀ n s, f (set_tick n s) = f s) → (∀ l s, f (set_audit l s) = f s) → f (appendAuditEntry a t i ac d s).2 = f s.
Proof.
  intros Ht Ha. assert (Hk : keeps (λ s', f s' = f s) (appendAuditEntry a t i ac d)).
  { apply audit_frame; intros x s' E; cbv beta in *; [by rewrite Ht|by rewrite Ha]. }
  specialize (Hk s eq_refl). by destruct (appendAuditEntry a t i ac d s) as [[e|x] s'].
Qed.

Lemma point_tag_inv req repo ref sha digest s s' :
  point_tag req repo ref sha digest s = (inr (), s') →
  rg_manifest s' = rg_manifest s ∧
  match ref with Ref_tag _ => refers (rp_storageName repo) ref sha s' | Ref_digest _ _ => True end.
Proof.
  unfold point_tag. destruct ref as [tag|]; [|by intros [= <-]]. intros (previous & s1 & Ep & E)%rbind_inv.
  assert (Hs1 : rg_manifest s1 = rg_manifest s ∧ refers (rp_storageName repo) (Ref_tag tag) sha s1).
  { unfold TagStore_put, TagStore_get in Ep. rewrite rbind_eq in Ep. cbn [rget] in Ep. rewrite rbind_eq in Ep. unfold reg_nowIso in Ep.
    rewrite (rbind_ok _ _ _ _ _ (reg_now_run _)) in Ep. cbn [mret RM_ret] in Ep. injection Ep as _ <-. split; [done|].
    eexists. split; [exact (upsert_find (mkTagRow _ _ _ _) _)|done]. }
  apply rbind_inv in E as (e & s2 & Ea & [= <-]). destruct Hs1 as [Em Ht].
  replace s2 with (appendAuditEntry AA_manifest_create AE_manifest (manifest_id repo digest) (actor_of req)
    (Some [("kind", JStr "oci"); ("org", JStr (rp_org repo)); ("repository", JStr (rp_repo repo)); ("tag", JStr tag);
             ("rotated", JBool (negb (is_null previous))); ("previous_sha256", JOptStr previous)]) s1).2 by (by rewrite Ea).
  split; [by rewrite (appendAudit_frame rg_manifest)|]. unfold refers. by rewrite (appendAudit_frame rg_tag).
Qed.

Lemma status_not_created e : or_status (writeOciError e) ≠ 201.
Proof. unfold writeOciError. destruct (asOciError e) as [[code m] d]. by destruct code. Qed.

(** What a push that was accepted has done. *)
Lemma put_manifest_inv req raw s r s' :
  reg_ok s → (∀ x, sha256 x = sha256 raw → x = raw) → oq_body req = Some (SB_bytes raw) →
  put_manifest cfg req s = (inr r, s') →
  ∃ repo ref, parseRepositoryParam (oq_name req) = inr repo ∧ parseOciReference (oq_reference req) = inr ref ∧
    validateManifestName (rp_storageName repo) = inr () ∧ validateManifestVersion (sha256 raw) = inr () ∧
    refers (rp_storageName repo) ref (sha256 raw) s' ∧ holds (rp_storageName repo) (sha256 raw) raw s'.
Proof.
  intros Hok Hcol Hbody E. unfold put_manifest in E.
  apply rbind_inv in E as (repo & s1 & [Hrepo ->]%rlift_inv & E). apply rbind_inv in E as (ref & s1 & [Href ->]%rlift_inv & E).
  exists repo, ref. split; [done|]. split; [done|]. rewrite Hbody in E.
  apply rbind_inv in E as (raw' & s1 & Eraw & E). assert (raw' = raw ∧ s1 = s) as [-> ->].
  { unfold readBytes in Eraw. destruct (_ <? _); [done|]. by injection Eraw as <- <-. }
  cbv zeta in E. match type of E with (if ?c then _ else _) _ = _ => destruct c eqn:Eref end; [done|].
  destruct (truthy (oq_contentType req)) as [ct|]; [|done]. match type of E with (if ?c then _ else _) _ = _ => destruct c end; [done|].
  apply rbind_inv in E as (parsed & s1 & [_ ->]%rlift_inv & E). match type of E with (if ?c then _ else _) _ = _ => destruct c end; [done|].
  apply rbind_inv in E as ([] & s1 & Ev & E). apply rbind_inv in E as ([] & s2 & Est & E).
  apply rbind_inv in E as (entry & s3 & Ea & E). apply rbind_inv in E as ([] & s4 & Ept & [= _ <-]).
  assert (Hs1 : reg_ok s1).
  { pose proof (references_frame reg_ok parsed (rp_storageName repo) (λ n x, ok_set_tick n x) s Hok) as Hr. by rewrite Ev in Hr. }
  destruct (store_manifest_inv req repo parsed raw s1 s2 Hs1 Hcol (storage_prefix _ _ Hrepo) Est) as (Hn & Hv & Hh).
  split; [done|]. split; [done|].
  pose proof (appendAudit_frame rg_manifest AA_upload AE_manifest (manifest_id repo (SHA256_PREFIX +:+ sha256 raw)) (actor_of req)
    (Some (upload_detail repo parsed raw ref)) s2 ltac:(done) ltac:(done)) as Em3. rewrite Ea in Em3. cbn [snd] in Em3.
  destruct (point_tag_inv req repo ref (sha256 raw) (SHA256_PREFIX +:+ sha256 raw) s3 s4 Ept) as [Em4 Hrefers].
  split; [|unfold holds; by rewrite Em4, Em3]. destruct ref as [tag|v h]; [done|]. simpl. apply negb_false_iff, bool_decide_eq_true in Eref.
  revert Href. unfold parseOciReference. destruct (_ =? _)%nat; [done|]. destruct (starts_with _ _).
  - unfold validateOciDigest. destruct (negb _); [done|]. cbn. intros [= Ed <-]. rewrite Ed, Eref. apply (str_drop_app SHA256_PREFIX).
  - unfold validateOciTag. by destruct (negb _).
Qed.

(** C25: A manifest that is pushed comes back byte by byte.  In a registry in which
    every manifest under an OCI name hashes to its version, as all but the generic
    manifest routes keep it, and for bytes whose digest no others have: when the
    registry answers 201 to a push, a GET of the same name and reference, tag or
    digest, and a GET of the digest of the pushed bytes, both return exactly those
    bytes under that digest. *)
Theorem manifest_roundtrip req raw s r s' :
  reg_ok s → (∀ x, sha256 x = sha256 raw → x = raw) → oq_body req = Some (SB_bytes raw) →
  serve cfg OR_put_manifest req s = (r, s') → or_status r = 201 →
  ∀ reference, reference = oq_reference req ∨ reference = SHA256_PREFIX +:+ sha256 raw →
  ∃ mediaType, serve cfg OR_get_manifest (get_request (oq_name req) reference (oq_tokenPrefix req)) s' =
    (mkOciResponse 200 [("content-type", mediaType); ("content-length", show_Z (Z.of_nat (String.length raw)));
                        ("Docker-Content-Digest", SHA256_PREFIX +:+ sha256 raw)] (OB_bytes raw), s').
Proof.
  intros Hok Hcol Hbody E Hst reference Hreference.
  assert (Hput : put_manifest cfg req s = (inr r, s')).
  { unfold serve, answer in E. cbn [oci_handler] in E. rewrite Hbody in E. destruct (put_manifest cfg req s) as [[e|r1] s1].
    - injection E as <- _. by apply status_not_created in Hst.
    - by injection E as -> ->. }
  destruct (put_manifest_inv req raw s r s' Hok Hcol Hbody Hput) as (repo & ref & Hrepo & Href & Hn & Hv & Hrefers & Hh).
  assert (Hne : sha256 raw ≠ "") by (intros En; pose proof (sha_hex raw) as Hx; rewrite En in Hx; by vm_compute in Hx).
  destruct Hreference as [->| ->].
  - by apply (get_manifest_run _ repo ref).
  - apply (get_manifest_run _ repo (Ref_digest (SHA256_PREFIX +:+ sha256 raw) (sha256 raw))); try done.
    cbn [oq_reference get_request]. unfold parseOciReference. cbn [String.length SHA256_PREFIX String.append Nat.eqb].
    rewrite (starts_with_app SHA256_PREFIX). by rewrite (digest_of sha_hex).
Qed.
End manifests.

(** ** Pages of tags *)

(** ** The reaper *)

Section reaper.
Context `{RegHost}.
Hypothesis audit_inj : ∀ m n, audit_id m = audit_id n → m = n.

(** Audit identifiers of the past. *)
Definition audits_past (s : Reg) : Prop := ∀ e, e ∈ rg_audit s → ∃ n, ra_id e = audit_id n ∧ (n < rg_tick s)%nat.

Definition is_reap_of (row : PendingUploadRow) (e : RegistryAuditEntry) : Prop :=
  ra_action e = AA_delete ∧ ra_entityId e = "upload:" +:+ pu_uploadId row ∧ ra_actor e = "reaper" ∧ ra_detail e = Some (reap_detail row).

Lemma appendAuditEntry_run a t i ac d s :
  audits_past s → ∃ e s', appendAuditEntry a t i ac d s = (inr e, s') ∧ ra_action e = a ∧ ra_entityId e = i ∧ ra_actor e = ac ∧
    ra_detail e = d ∧ rg_audit s' = rg_audit s ++ [e] ∧ audits_past s' ∧ rg_upload s' = rg_upload s ∧ (rg_tick s ≤ rg_tick s')%nat.
Proof.
  intros Hp. destruct (appendAudit_run a t i ac d s) as [e E].
  { intros n Hn x Hx Ex. destruct (Hp x Hx) as (k & Ek & Hk). rewrite Ek in Ex. apply audit_inj in Ex. lia. }
  assert (He : ra_id e = audit_id (rg_tick s) ∧ ra_action e = a ∧ ra_entityId e = i ∧ ra_actor e = ac ∧ ra_detail e = d).
  { revert E. unfold appendAuditEntry. rewrite rbind_eq. cbn [tick]. rewrite rbind_eq. unfold reg_nowIso.
    rewrite (rbind_ok _ _ _ _ _ (reg_now_run _)). cbn [mret RM_ret]. cbv zeta. rewrite rbind_eq. cbn [rget].
    destruct (existsb _ _); [done|]. cbn. by intros [= <- _]. }
  destruct He as (Hid & Ha & Hi & Hac & Hd). exists e. eexists. split; [exact E|]. do 4 (split; [done|]). split; [done|].
  split; [|split; [done|simpl; lia]]. intros x [Hx|Hx]%elem_of_app; simpl.
  - destruct (Hp x Hx) as (k & Ek & Hk). exists k. split; [done|]. lia.
  - apply list_elem_of_singleton in Hx as ->. exists (rg_tick s). split; [done|]. lia.
Qed.

Lemma UploadFs_delete_frame id s :
  ∃ r s', rcatch (UploadFs_delete id) (λ _, mret ()) s = (inr r, s') ∧ rg_upload s' = rg_upload s ∧ rg_audit s' = rg_audit s ∧
    (rg_tick s ≤ rg_tick s')%nat.
Proof.
  unfold rcatch, UploadFs_delete, validateUploadId. rewrite rbind_eq. cbn [rlift].
  destruct (negb (is_hex_of 32 id)); [by do 2 eexists|]. unfold unlink_quietly, rcatch, file_op. rewrite rbind_eq, rbind_eq. cbn [tick].
  destruct (io _); do 2 eexists; (split; [reflexivity|]); simpl; repeat split; lia.
Qed.

Lemma reap_row_run row s :
  audits_past s → ∃ e s', reap_row row s = (inr (), s') ∧ is_reap_of row e ∧ rg_audit s' = rg_audit s ++ [e] ∧ audits_past s' ∧
    rg_upload s' = select (λ r, negb (is_upload (pu_uploadId row) r)) (rg_upload s).
Proof.
  intros Hp. unfold reap_row. destruct (UploadFs_delete_frame (pu_uploadId row) s) as (r & s1 & E1 & Hu & Ha & Ht).
  rewrite (rbind_ok _ _ _ _ _ E1), rbind_eq. cbn [UploadStore_delete rput].
  match goal with |- context [(appendAuditEntry ?a ?t ?i ?ac ?d ≫= _) ?s2] =>
    destruct (appendAuditEntry_run a t i ac d s2) as (e & s3 & E3 & H1 & H2 & H3 & H4 & H5 & H6 & H7 & _) end.
  { intros x Hx. simpl in Hx. rewrite Ha in Hx. destruct (Hp x Hx) as (k & Ek & Hk). exists k. split; [done|]. simpl. lia. }
  rewrite (rbind_ok _ _ _ _ _ E3). exists e, s3. split; [done|]. split; [done|]. rewrite H5, H7. simpl. by rewrite Hu, Ha.
Qed.

Lemma reap_rows_run rows s :
  audits_past s → ∃ es s', reap_rows rows s = (inr (length rows), s') ∧ Forall2 is_reap_of rows es ∧ rg_audit s' = rg_audit s ++ es ∧
    rg_upload s' = select (λ r, negb (existsb (λ x, is_upload (pu_uploadId x) r) rows)) (rg_upload s).
Proof.
  revert s. induction rows as [|row rows IH]; intros s Hp.
  - exists [], s. cbn. rewrite app_nil_r, select_all by done. by repeat split.
  - destruct (reap_row_run row s Hp) as (e & s1 & E1 & He & Ha & Hp1 & Hu). destruct (IH s1 Hp1) as (es & s2 & E2 & Hes & Ha2 & Hu2).
    exists (e :: es), s2. cbn [reap_rows]. rewrite (rbind_ok _ _ _ _ _ E1), (rbind_ok _ _ _ _ _ E2). split; [done|].
    split; [by constructor|]. rewrite Ha2, Ha, <- app_assoc. split; [done|]. rewrite Hu2, Hu, select_select. apply select_ext.
    intros x _. simpl. by rewrite negb_orb.
Qed.

(** A sweep of the reaper drops exactly the sessions whose time is over,
    whatever the disk does with their files, leaves every other session as it
    was, and records each of the dropped ones in the audit log, in the order of
    their expiry. *)
Theorem sweep_exact s :
  reg_ok s → audits_past s →
  let due r := str_leb (pu_expiresAt r) (toISOString (reg_clock (rg_tick s))) in
  let expired := order_asc pu_expiresAt (select due (rg_upload s)) in
  ∃ es s', sweep false s = (inr (length expired), s') ∧ rg_upload s' = select (λ r, negb (due r)) (rg_upload s) ∧
    rg_audit s' = rg_audit s ++ es ∧ Forall2 is_reap_of expired es.
Proof.
  intros Hs Hp due expired. unfold sweep. rewrite (rbind_ok _ _ _ _ _ (reg_now_run _)).
  unfold UploadStore_listExpired. rewrite rbind_eq. cbn [rget rg_upload set_tick]. fold due. fold expired.
  destruct (reap_rows_run expired (set_tick (S (rg_tick s)) s)) as (es & s' & E & Hes & Ha & Hu).
  { intros e He. destruct (Hp e He) as (n & En & Hn). exists n. split; [done|]. simpl. lia. }
  exists es, s'. split; [done|]. split; [|by split]. rewrite Hu. cbn [rg_upload set_tick]. apply select_ext. intros x Hx. f_equal.
  destruct (due x) eqn:Ed.
  - apply existsb_exists. exists x. split; [|by apply bool_decide_eq_true_2]. apply list_elem_of_In, order_asc_elem, select_elem. done.
  - apply not_true_iff_false. intros (y & Hy%list_elem_of_In & Ey)%existsb_exists. apply order_asc_elem, select_elem in Hy as [Hy Hdy].
    apply bool_decide_eq_true in Ey. assert (x = y) as ->; [|congruence].
    pose proof (ok_upload_keys s Hs) as Hn. apply list_elem_of_lookup in Hx as [i Hi]. apply list_elem_of_lookup in Hy as [j Hj].
    assert (i = j) as ->; [|congruence]. eapply NoDup_lookup; [exact Hn| |]; rewrite list_lookup_fmap; [by rewrite Hi|by rewrite Hj, Ey].
Qed.
End reaper.

(** ** A registry to try it on *)

Definition rx_blob : string := "hello, registry".

(** An index without children, as it is pushed. *)
Definition rx_index : json :=
  JObj [("schemaVersion", JInt 2); ("mediaType", JStr OCI_INDEX_V1); ("manifests", JArr [])].

#[local] Instance rx_engine : JsEngine := {
  legacy_date_parse := λ _, None;
  num_to_string := @num_to_string fixture_engine;
  num_toFixed := @num_toFixed fixture_engine;
  JSON_parse := read_json (λ t, @to_number_other fixture_engine (JStr t));
  json_syntax_error := @json_syntax_error fixture_engine;
  to_number_other := @to_number_other fixture_engine
}.

Definition rx_raw : string := json_stringify rx_index.

Fixpoint hex_block (n : nat) (c : ascii) : string := match n with O => "" | S n' => String c (hex_block n' c) end.

(** A digest that tells the two contents apart from everything else. *)
Definition rx_sha (c : string) : string :=
  if c =?s rx_blob then hex_block 64 "a" else if c =?s rx_raw then hex_block 64 "b" else hex_block 64 "0".

(** Operations fail where [bad] says so. *)
Definition rx_host (bad : nat → bool) : RegHost := {|
  sha256 := rx_sha;
  reg_clock := λ _, epoch2025;
  random_id := λ _, hex_block 32 "c";
  audit_id := λ n, pretty.pretty n;
  io := λ n, if bad n then Io_fail 0 "EIO" else Io_ok;
  enoent := λ _, "ENOENT";
  torn_json := "Unexpected end of JSON input";
  mtime := λ _, ""
|}.
#[local] Instance rx_good : RegHost := rx_host (λ _, false).

Definition rx_config : OciConfig := mkOciConfig "" DEFAULT_UPLOAD_TTL_SECONDS DEFAULT_MAX_MANIFEST_BYTES true 1 MAX_PAGE_SIZE None None.
Definition rx_name : string := "acme/app".
Definition rx_repo : ParsedRepository := mkParsedRepository "acme" "app" "oci/acme/app".
Definition rx_empty : Reg := mkReg [] [] [] [] [] [] ∅ ∅ ∅ [] 0.

Lemma rx_sha_hex c : is_hex_of 64 (sha256 c) = true.
Proof. change (sha256 c) with (rx_sha c). unfold rx_sha. destruct (_ =?s _); [by vm_compute|]. destruct (_ =?s _); by vm_compute. Qed.

Lemma rx_healthy n : io n = Io_ok.
Proof. reflexivity. Qed.

Lemma rx_id_hex n : is_hex_of 32 (random_id n) = true.
Proof. by vm_compute. Qed.

Lemma rx_name_parses : parseRepositoryParam rx_name = inr rx_repo.
Proof. by vm_compute. Qed.

Lemma rx_empty_ok : reg_ok rx_empty.
Proof. constructor; simpl; try (by intros ? ?%elem_of_nil); try constructor. intros h c Hc. by rewrite lookup_empty in Hc. Qed.

Definition rx_manifest_request (tag : string) : OciRequest :=
  mkOciRequest rx_name tag [] None (Some OCI_INDEX_V1) None (Some (SB_bytes rx_raw)) None.

Definition rx_tagged : Reg := (serve rx_config OR_put_manifest (rx_manifest_request "v1") rx_empty).2.
Definition rx_two : Reg := (serve rx_config OR_put_manifest (rx_manifest_request "v2") rx_tagged).2.

Lemma rx_two_ok : reg_ok rx_two.
Proof. apply serve_ok; [done|done|]. apply serve_ok; [done|done|apply rx_empty_ok]. Qed.

Definition rx_chunks : list (string * string) := [("0-6", "hello, "); ("7-14", "registry")].

Lemma chunked_upload_roundtrip_witness :
  ∃ id s1 rs s2 r3 s3 headers s4,
    serve rx_config OR_post_upload (post_request rx_name None) rx_empty
      = (writeUploadAccepted (upload_location rx_config rx_repo id) id 0, s1) ∧
    push_chunks rx_config rx_name None id rx_chunks s1 = (rs, s2) ∧ Forall (λ r, or_status r = 202) rs ∧
    serve rx_config OR_put_upload (put_request rx_name id (SHA256_PREFIX +:+ sha256 rx_blob) None) s2 = (r3, s3) ∧ or_status r3 = 201 ∧
    serve rx_config OR_get_blob (get_request rx_name (SHA256_PREFIX +:+ sha256 rx_blob) None) s3
      = (mkOciResponse 200 headers (OB_bytes rx_blob), s4).
Proof.
  apply (chunked_upload_roundtrip rx_config rx_healthy rx_sha_hex rx_id_hex rx_name rx_repo None rx_name_parses
    rx_chunks rx_empty rx_empty_ok).
  - intros h x Hx. cbn [rx_empty rg_sidecars] in Hx. by rewrite lookup_empty in Hx.
  - split; [by intros n _ e He%elem_of_nil|]. intros n _. split; [by intros r Hr%elem_of_nil|apply lookup_empty].
  - repeat split; by vm_compute.
  - done.
  - intros x. change (sha256 x) with (rx_sha x). unfold rx_sha at 1. destruct (x =?s rx_blob) eqn:E; [by apply bool_decide_eq_true in E as ->|].
    destruct (x =?s rx_raw); by vm_compute.
Defined.

Lemma manifest_roundtrip_witness :
  ∃ mediaType, serve rx_config OR_get_manifest (get_request rx_name "v1" None) rx_tagged =
    (mkOciResponse 200 [("content-type", mediaType); ("content-length", show_Z (Z.of_nat (String.length rx_raw)));
                        ("Docker-Content-Digest", SHA256_PREFIX +:+ sha256 rx_raw)] (OB_bytes rx_raw), rx_tagged).
Proof.
  apply (manifest_roundtrip rx_config rx_sha_hex (rx_manifest_request "v1") rx_raw rx_empty
    (serve rx_config OR_put_manifest (rx_manifest_request "v1") rx_empty).1 rx_tagged rx_empty_ok).
  - intros x. change (sha256 x) with (rx_sha x). unfold rx_sha at 1. destruct (x =?s rx_blob) eqn:E1.
    + by vm_compute.
    + destruct (x =?s rx_raw) eqn:E; [by apply bool_decide_eq_true in E as ->|by vm_compute].
  - done.
  - unfold rx_tagged. by destruct (serve _ _ _ rx_empty).
  - by vm_compute.
  - by left.
Defined.

(** A session that is over as soon as it is opened. *)
Definition rx_due : Reg :=
  (serve (mkOciConfig "" (-1) DEFAULT_MAX_MANIFEST_BYTES true 1 MAX_PAGE_SIZE None None) OR_post_upload (post_request rx_name None) rx_empty).2.

Lemma rx_due_ok : reg_ok rx_due.
Proof. apply serve_ok; [done|done|apply rx_empty_ok]. Qed.

Lemma rx_audit_inj m n : audit_id m = audit_id n → m = n.
Proof. apply pretty.pretty_nat_inj. Qed.

Lemma sweep_exact_witness :
  length (rg_upload rx_due) = 1%nat ∧
  let due r := str_leb (pu_expiresAt r) (toISOString (reg_clock (rg_tick rx_due))) in
  let expired := order_asc pu_expiresAt (select due (rg_upload rx_due)) in
  ∃ es s', sweep false rx_due = (inr (length expired), s') ∧ rg_upload s' = select (λ r, negb (due r)) (rg_upload rx_due) ∧
    rg_audit s' = rg_audit rx_due ++ es ∧ Forall2 is_reap_of expired es.
Proof.
  split; [by vm_compute|]. apply (sweep_exact rx_audit_inj rx_due rx_due_ok).
  intros e He. assert (rg_audit rx_due = []) as Hn by (by vm_compute). rewrite Hn in He. by apply elem_of_nil in He.
Defined.

(** *** What goes wrong *)

(** A push of the blob in one chunk: the status of the last answer, and the state. *)
Definition rx_push (host : RegHost) (s : Reg) : Z * Reg :=
  let id := hex_block 32 "c" in
  let s1 := (@serve host rx_engine rx_config OR_post_upload (post_request rx_name None) s).2 in
  let s2 := (@serve host rx_engine rx_config OR_patch_upload (patch_request rx_name id "0-14" rx_blob None) s1).2 in
  let '(r, s3) := @serve host rx_engine rx_config OR_put_upload (put_request rx_name id (SHA256_PREFIX +:+ rx_sha rx_blob) None) s2 in
  (or_status r, s3).

Definition rx_blob_request : OciRequest := get_request rx_name (SHA256_PREFIX +:+ rx_sha rx_blob) None.

(** The file of a deleted blob is gone but its sidecar could not be unlinked: a
    second push is acknowledged, and its bytes are dropped. *)
Example orphan_sidecar_loses_upload :
  let host := rx_host (λ n, (n =? 21)%nat) in
  let '(first, s1) := rx_push host rx_empty in
  let '(r, s2) := @serve host rx_engine rx_config OR_delete_blob rx_blob_request s1 in
  let '(second, s3) := rx_push host s2 in
  first = 201 ∧ or_status r = 202 ∧ second = 201 ∧
  or_status (@serve host rx_engine rx_config OR_get_blob rx_blob_request s3).1 = 404.
Proof. by vm_compute. Qed.

(** The empty blob cannot be pushed: nothing is appended, so there is no file to
    hash. *)
Example empty_blob_refused :
  let s1 := (serve rx_config OR_post_upload (post_request rx_name None) rx_empty).2 in
  or_status (serve rx_config OR_put_upload (put_request rx_name (hex_block 32 "c") (SHA256_PREFIX +:+ sha256 "") None) s1).1 = 405.
Proof. by vm_compute. Qed.
