(* ===== verification/RegistryAuthSpec.v ===== *)
(** What the registry's credentials promise: base64url is read back, a token that
    was minted is accepted exactly during its lifetime and nothing unsigned is, and
    whoever is let in showed one of the accepted credentials. *)

From stdpp Require Import gmap strings.
From S2P Require Import Prelude JsTime JsVal JsInt Signing Build BuildYaml Probes Http Worker SigningSpec JsonReader.
From S2P Require Import Registry Oci OciApp RegistryAuth RegistrySigning OciSpec.

(** What the registry relies on of Node's crypto. *)
Class RegCryptoLaws `{RegCrypto} := {
  base64_reads : ∀ b, buffer_from_base64 (b64_encode b) = b;
  ed25519_verifies : ∀ data k, rk_type k = Some "ed25519" → rk_verify data (rk_publicOf k) (rk_sign data k) = true;
  public_type : ∀ k, rk_type (rk_publicOf k) = rk_type k;
  public_pem : ∀ k, rk_createPublicKey (rk_exportPem (rk_publicOf k)) = inr (rk_publicOf k);
  public_der : ∀ k, rk_ofDer (rk_exportDer (rk_publicOf k)) = inr (rk_publicOf k)
}.

(** ** Base64 *)

Definition b64_safe (c : ascii) : bool := negb (is_char "=" c) && negb (is_char "-" c) && negb (is_char "_" c) && negb (is_char "." c).

Lemma b64_digit_safe n : (n < 64)%nat → b64_safe (b64_digit n) = true.
Proof.
  intros Hn. assert (Hall : forallb (λ n, b64_safe (b64_digit n)) (seq 0 64) = true) by (by vm_compute).
  rewrite forallb_forall in Hall. apply Hall, in_seq. lia.
Qed.

Lemma code_bound c : (code c < 256)%nat.
Proof. apply Ascii.nat_ascii_bounded. Qed.

Lemma drop_trailing_keep c x s : is_char c x = false → drop_trailing c (String x s) = String x (drop_trailing c s).
Proof. intros Hx. cbn [drop_trailing]. destruct (drop_trailing c s); [by rewrite Hx|done]. Qed.

Lemma drop_safe x s : b64_safe x = true → drop_trailing "=" (String x s) = String x (drop_trailing "=" s).
Proof. intros Hx. apply drop_trailing_keep. unfold b64_safe in Hx. by bool_hyps. Qed.

Definition padding (s : string) : string := repeat_char ((4 - String.length s mod 4) mod 4) "=".

Lemma string_ind3 (P : string → Prop) :
  P "" → (∀ x, P (String x "")) → (∀ x y, P (String x (String y ""))) →
  (∀ x y z b, P b → P (String x (String y (String z b)))) → ∀ b, P b.
Proof.
  intros H0 H1 H2 H3. fix go 1. intros [|x [|y [|z b]]]; [exact H0|apply H1|apply H2|apply H3, go].
Qed.

(** The digits of a group. *)
Lemma digit_ranges x y z :
  (code x / 4 < 64 ∧ code x mod 4 * 16 < 64 ∧ code x mod 4 * 16 + code y / 16 < 64 ∧
   code y mod 16 * 4 < 64 ∧ code y mod 16 * 4 + code z / 64 < 64 ∧ code z mod 64 < 64)%nat.
Proof.
  pose proof (code_bound x). pose proof (code_bound y). pose proof (code_bound z).
  pose proof (Nat.div_mod (code x) 4). pose proof (Nat.div_mod (code y) 16). pose proof (Nat.div_mod (code z) 64).
  pose proof (Nat.mod_upper_bound (code x) 4). pose proof (Nat.mod_upper_bound (code y) 16). pose proof (Nat.mod_upper_bound (code z) 64).
  lia.
Qed.

Ltac digits x y z := apply b64_digit_safe; apply (digit_ranges x y z).

(** Dropping the padding leaves safe digits, and the length gives it back. *)
Lemma b64_shape b :
  let d := drop_trailing "=" (b64_encode b) in d +:+ padding d = b64_encode b ∧ all_chars b64_safe d = true.
Proof.
  induction b as [|x|x y|x y z b [IHe IHs]] using string_ind3; [done| | |]; cbn [b64_encode]; cbv zeta.
  - rewrite !drop_safe by (digits x x x). split; [done|]. cbn. by rewrite !b64_digit_safe by (apply (digit_ranges x x x)).
  - rewrite !drop_safe by (digits x y y). split; [done|]. cbn. by rewrite !b64_digit_safe by (apply (digit_ranges x y y)).
  - rewrite !drop_safe by (digits x y z). cbn [all_chars]. rewrite !b64_digit_safe by (apply (digit_ranges x y z)).
    rewrite IHs. split; [|done]. rewrite !str_app_cons. do 4 f_equal. rewrite <- IHe at 3. f_equal. unfold padding. cbn [String.length].
    set (n := String.length _). replace (S (S (S (S n)))) with (n + 1 * 4)%nat by lia. by rewrite Nat.Div0.mod_add.
Qed.

Lemma map_chars_cancel f g s p : all_chars p s = true → (∀ c, p c = true → g (f c) = c) → map_chars g (map_chars f s) = s.
Proof. intros Hs Hc. induction s as [|c s IH]; [done|]. cbn in *. bool_hyps. f_equal; auto. Qed.

Lemma map_chars_all f p q s : all_chars p s = true → (∀ c, p c = true → q (f c) = true) → all_chars q (map_chars f s) = true.
Proof. intros Hs Hc. induction s as [|c s IH]; [done|]. cbn in *. bool_hyps. rewrite Hc by done. auto. Qed.

Lemma url_cancel c : b64_safe c = true → of_url (to_url c) = c.
Proof.
  unfold b64_safe, of_url, to_url, is_char. intros Hc. bool_hyps.
  repeat match goal with |- context [bool_decide (c = ?d)] => destruct (decide (c = d)) as [->|?]; [done|rewrite (bool_decide_eq_false_2 (c = d)) by done] end.
  done.
Qed.

(** ** base64url *)

Lemma to_url_digit c : b64_safe c = true → negb (is_char "." (to_url c)) = true.
Proof.
  intros Hc. unfold b64_safe in Hc. bool_hyps. unfold to_url. destruct (is_char "+" c); [done|].
  destruct (is_char "/" c); [done|]. by apply negb_true_iff.
Qed.

(** What is encoded has no dot, and the decoder reads it back. *)
Lemma base64Url_no_dot b : all_chars (λ c, negb (is_char "." c)) (base64UrlEncode b) = true.
Proof. eapply map_chars_all; [apply b64_shape|apply to_url_digit]. Qed.

Section base64url.
Context `{RegHost} `{JsEngine} `{RegCryptoLaws}.

Lemma base64Url_roundtrip b : base64UrlDecode (base64UrlEncode b) = b.
Proof.
  destruct (b64_shape b) as [Hp Hs]. unfold base64UrlDecode, base64UrlEncode. cbv zeta.
  rewrite (map_chars_cancel to_url of_url _ b64_safe Hs url_cancel). fold (padding (drop_trailing "=" (b64_encode b))).
  rewrite Hp. apply base64_reads.
Qed.
End base64url.

(** ** Splitting *)

Lemma split_on_none sep s : all_chars (λ c, negb (is_char sep c)) s = true → split_on sep s = [s].
Proof.
  induction s as [|c s IH]; [done|]. cbn [all_chars split_on]. intros Hs. bool_hyps. rewrite IH by done.
  by destruct (is_char sep c).
Qed.

Lemma split_on_cons sep s t :
  all_chars (λ c, negb (is_char sep c)) s = true → split_on sep (s +:+ String sep t) = s :: split_on sep t.
Proof.
  induction s as [|c s IH]; cbn [all_chars]; intros Hs.
  - change ("" +:+ String sep t) with (String sep t). cbn [split_on]. unfold is_char. by rewrite bool_decide_eq_true_2.
  - bool_hyps. rewrite str_app_cons. cbn [split_on]. rewrite IH by done. by destruct (is_char sep c).
Qed.

Lemma split_on_join sep s : ∃ x rest, split_on sep s = x :: rest ∧ s = x +:+ foldr (λ y t, String sep (y +:+ t)) "" rest.
Proof.
  induction s as [|c s (x & rest & E & ->)]; [by exists "", []|]. cbn [split_on]. destruct (is_char sep c) eqn:Ec.
  - apply bool_decide_eq_true in Ec as ->. exists "", (split_on sep (x +:+ foldr (λ y t, String sep (y +:+ t)) "" rest)).
    split; [done|]. by rewrite E.
  - rewrite E. by exists (String c x), rest.
Qed.

Lemma split_on_three sep s a b c : split_on sep s = [a; b; c] → s = a +:+ String sep (b +:+ String sep c).
Proof.
  intros E. destruct (split_on_join sep s) as (x & rest & E' & ->). rewrite E in E'. injection E' as <- <-. cbn [foldr].
  by rewrite str_app_nil_r.
Qed.

(** ** JWTs *)

Section jwt.
Context `{RegHost} `{JsEngine} `{RegCryptoLaws}.

(** Three encoded parts come apart at the dots. *)
Lemma jwt_parts a b c :
  split_on "." (base64UrlEncode a +:+ "." +:+ base64UrlEncode b +:+ "." +:+ base64UrlEncode c)
  = [base64UrlEncode a; base64UrlEncode b; base64UrlEncode c].
Proof.
  change ("." +:+ ?x) with (String "." x). rewrite split_on_cons by apply base64Url_no_dot.
  change ("." +:+ ?x) with (String "." x). rewrite split_on_cons by apply base64Url_no_dot.
  by rewrite split_on_none by apply base64Url_no_dot.
Qed.

Lemma jwt_part_reads v reason message :
  JSON_parse (json_stringify v) = Some v → jwt_part (base64UrlEncode (json_stringify v)) reason message = mret v.
Proof. intros Hv. unfold jwt_part. by rewrite base64Url_roundtrip, Hv. Qed.

Lemma claims_read c : claims_of (claims_json c) = Some c.
Proof. by destruct c. Qed.

(** What the claims say once the signature holds. *)
Definition jwt_window (claims : JwtClaims) (skew now : Z) : RRes JwtClaims :=
  if SFltb (num_add (jc_exp claims) (num_of_Z skew)) (num_of_Z now) then
    inl (JwtError JR_expired ("JWT expired at " +:+ num_to_string (jc_exp claims) +:+ "; now is " +:+ show_Z now))
  else if SFltb (num_of_Z now) (SFsub 53 1024 (jc_iat claims) (num_of_Z skew)) then
    inl (JwtError JR_not_yet_valid ("JWT iat " +:+ num_to_string (jc_iat claims) +:+ " is ahead of now " +:+ show_Z now))
  else inr claims.

Lemma jwt_window_exact iss sub aud scope iat exp skew now :
  0 ≤ skew → skew < iat → iat ≤ exp → exp + skew < 2 ^ 53 → is_safe now →
  let claims := mkJwtClaims iss sub aud scope (num_of_Z iat) (num_of_Z exp) in
  (iat - skew ≤ now ≤ exp + skew → jwt_window claims skew now = inr claims) ∧
  (exp + skew < now → ∃ m, jwt_window claims skew now = inl (JwtError JR_expired m)) ∧
  (now < iat - skew → ∃ m, jwt_window claims skew now = inl (JwtError JR_not_yet_valid m)).
Proof.
  intros Hk Hi He Hb Hn claims. subst claims. unfold jwt_window. cbn [jc_exp jc_iat].
  rewrite num_add_exact, num_sub_exact, !num_ltb_exact by (unfold is_safe in *; lia).
  destruct (exp + skew <? now) eqn:E1; [|destruct (now <? iat - skew) eqn:E2]; split_and!; intros; first [done|lia|by eexists].
Qed.

(** A token made of a header, claims and a good signature. *)
Lemma verifyJwt_signed pem key claims sig aud skew s :
  JSON_parse (json_stringify jwt_header) = Some jwt_header →
  JSON_parse (json_stringify (claims_json claims)) = Some (claims_json claims) →
  rk_createPublicKey pem = inr key → rk_type key = Some "ed25519" →
  let signed := base64UrlEncode (json_stringify jwt_header) +:+ "." +:+ base64UrlEncode (json_stringify (claims_json claims)) in
  rk_verify signed key sig = true → jc_aud claims = aud → jc_iss claims = DEFAULT_ISSUER →
  verifyJwt (signed +:+ "." +:+ base64UrlEncode sig) pem aud skew s
  = (jwt_window claims skew (reg_clock (rg_tick s) / 1000), set_tick (S (rg_tick s)) s).
Proof.
  intros Hh Hc Hk Ht signed Hv <- Hi. subst signed. unfold verifyJwt. rewrite <- !str_app_assoc, jwt_parts.
  rewrite (jwt_part_reads jwt_header) by done. erewrite rbind_ok by done. erewrite rbind_ok by done. cbv iota. cbn [is_text negb].
  change (is_text "JWT" (get_prop "typ" [("alg", JStr "EdDSA"); ("typ", JStr "JWT")])) with true. cbn [negb].
  erewrite rbind_ok by done. change (is_text "EdDSA" (get_prop "alg" [("alg", JStr "EdDSA"); ("typ", JStr "JWT")])) with true. cbn [negb].
  unfold ed25519_key. rewrite Hk, bool_decide_eq_true_2 by done. erewrite rbind_ok by done.
  rewrite base64Url_roundtrip, Hv. cbn [negb]. rewrite (jwt_part_reads (claims_json claims)) by done.
  erewrite rbind_ok by done. erewrite rbind_ok by done. rewrite claims_read, Hi, !bool_decide_eq_true_2 by done. cbn [negb].
  erewrite rbind_ok by done. unfold jwt_window. cbv zeta. destruct (SFltb _ _); [done|]. by destruct (SFltb _ _).
Qed.

(** C22: JWT-ROUNDTRIP.  An Ed25519 key mints a token in one reading of the clock,
    and the public key derived from it accepts that token exactly from its issue
    less the skew to its expiry plus the skew, in whole seconds and with all its
    claims; later the token is refused as expired and earlier as not yet valid. *)
Theorem jwt_roundtrip pem key pub subject scope ttl skew s :
  let iat := reg_clock (rg_tick s) / 1000 in
  let claims := mkJwtClaims DEFAULT_ISSUER subject DEFAULT_AUDIENCE scope (num_of_Z iat) (num_of_Z (iat + ttl)) in
  rk_createPrivateKey pem = inr key → publicKeyPemFromPrivate pem = inr pub →
  JSON_parse (json_stringify jwt_header) = Some jwt_header →
  JSON_parse (json_stringify (claims_json claims)) = Some (claims_json claims) →
  0 ≤ skew → skew < iat → 0 ≤ ttl → iat + ttl + skew < 2 ^ 53 →
  ∃ minted,
    mintJwt pem subject scope ttl DEFAULT_AUDIENCE DEFAULT_ISSUER s = (inr minted, set_tick (S (rg_tick s)) s) ∧
    mj_claims minted = claims ∧
    ∀ s2, let now := reg_clock (rg_tick s2) / 1000 in
      let outcome := fst (verifyJwt (mj_token minted) pub DEFAULT_AUDIENCE skew s2) in
      is_safe now →
      (iat - skew ≤ now ≤ iat + ttl + skew → outcome = inr claims) ∧
      (iat + ttl + skew < now → ∃ m, outcome = inl (JwtError JR_expired m)) ∧
      (now < iat - skew → ∃ m, outcome = inl (JwtError JR_not_yet_valid m)).
Proof.
  intros iat claims Hk Hp Hh Hc ? ? ? ?. unfold publicKeyPemFromPrivate in Hp. rewrite Hk in Hp.
  destruct (bool_decide (rk_type key = _)) eqn:Ht; [|done]. injection Hp as <-. pose proof Ht as Ht'. apply bool_decide_eq_true in Ht'.
  eexists. split; [|split].
  - unfold mintJwt. erewrite rbind_ok by done. cbv zeta. erewrite rbind_ok; [done|]. unfold ed25519_key. by rewrite Hk, Ht.
  - done.
  - intros s2 now outcome Hn. subst outcome. cbn [mj_token]. fold claims. rewrite (verifyJwt_signed _ (rk_publicOf key)); try done.
    + cbn [fst]. apply jwt_window_exact; try done; lia.
    + apply public_pem.
    + by rewrite public_type.
    + by apply ed25519_verifies.
Qed.

Lemma jwt_part_inv part reason message s v s' :
  jwt_part part reason message s = (inr v, s') → JSON_parse (base64UrlDecode part) = Some v ∧ s = s'.
Proof. unfold jwt_part. destruct (JSON_parse _); [|done]. intros [= ? ?]. by subst. Qed.

Lemma ed25519_key_inv r message key : ed25519_key r message = inr key → r = inr key ∧ rk_type key = Some "ed25519".
Proof.
  unfold ed25519_key. destruct r as [|k]; [done|]. destruct (bool_decide _) eqn:E; [|done]. intros [= ->].
  by apply bool_decide_eq_true in E.
Qed.

(** A token that [verifyJwt] accepts: signed by the key over its header and claims,
    for this audience, by this issuer, inside its window. *)
Definition jwt_valid (token pem aud : string) (skew now : Z) (claims : JwtClaims) : Prop :=
  ∃ h p sig key header o,
    split_on "." token = [h; p; sig] ∧
    JSON_parse (base64UrlDecode h) = Some (JObj header) ∧
    is_text "JWT" (get_prop "typ" header) = true ∧ is_text "EdDSA" (get_prop "alg" header) = true ∧
    rk_createPublicKey pem = inr key ∧ rk_type key = Some "ed25519" ∧
    rk_verify (h +:+ "." +:+ p) key (base64UrlDecode sig) = true ∧
    JSON_parse (base64UrlDecode p) = Some (JObj o) ∧ claims_of (JObj o) = Some claims ∧
    jc_aud claims = aud ∧ jc_iss claims = DEFAULT_ISSUER ∧ jwt_window claims skew now = inr claims.

Lemma verifyJwt_iff token pem aud skew s claims :
  fst (verifyJwt token pem aud skew s) = inr claims ↔ jwt_valid token pem aud skew (reg_clock (rg_tick s) / 1000) claims.
Proof.
  split.
  - destruct (verifyJwt token pem aud skew s) as [r s'] eqn:E. cbn [fst]. intros ->. unfold verifyJwt in E.
    destruct (split_on "." token) as [|h [|p [|sig [|? ?]]]] eqn:Es; try done.
    apply rbind_inv in E as (hv & s1 & [Eh <-]%jwt_part_inv & E). apply rbind_inv in E as (typ & s1 & [Er ->]%rlift_inv & E).
    destruct (is_text "JWT" typ) eqn:Et; [|done]. destruct hv as [| | | | |header]; cbn in Er; simplify_eq; try done. cbn [negb] in E.
    apply rbind_inv in E as (alg & s1 & [[= <-] ->]%rlift_inv & E). destruct (is_text "EdDSA" _) eqn:Ea; [|done]. cbn [negb] in E.
    apply rbind_inv in E as (key & s1 & [[Ek Ety]%ed25519_key_inv ->]%rlift_inv & E). destruct (rk_verify _ _ _) eqn:Ev; [|done]. cbn [negb] in E.
    apply rbind_inv in E as (pv & s1 & [Ep <-]%jwt_part_inv & E). apply rbind_inv in E as (iss & s1 & [_ ->]%rlift_inv & E).
    destruct (claims_of pv) as [c|] eqn:Ec; [|done]. destruct pv as [| | | | |o]; try done.
    destruct (jc_aud c =?s aud) eqn:Ead; [|done]. destruct (jc_iss c =?s DEFAULT_ISSUER) eqn:Eis; [|done]. cbn [negb] in E.
    apply bool_decide_eq_true in Ead, Eis. apply rbind_inv in E as (now & s1 & [= <- <-] & E). cbv zeta in E.
    assert (c = claims ∧ jwt_window c skew (reg_clock (rg_tick s) / 1000) = inr c) as [-> Hw].
    { unfold jwt_window. destruct (SFltb _ _); [done|]. destruct (SFltb _ _); [done|]. by injection E. }
    exists h, p, sig, key, header, o. by split_and!.
  - intros (h & p & sig & key & header & o & Es & Eh & Et & Ea & Ek & Ety & Ev & Ep & Ec & Ead & Eis & Hw). unfold verifyJwt, jwt_part.
    rewrite Es, Eh. erewrite rbind_ok by done. erewrite rbind_ok by done. rewrite Et. cbn [negb]. erewrite rbind_ok by done. rewrite Ea.
    cbn [negb]. unfold ed25519_key. rewrite Ek, bool_decide_eq_true_2 by done. erewrite rbind_ok by done. rewrite Ev. cbn [negb].
    rewrite Ep. erewrite rbind_ok by done. erewrite rbind_ok by done. rewrite Ec, Ead, Eis, !bool_decide_eq_true_2 by done. cbn [negb].
    erewrite rbind_ok by done. revert Hw. unfold jwt_window. cbv zeta. destruct (SFltb _ _); [done|]. by destruct (SFltb _ _).
Qed.
End jwt.

(** ** Who is let in *)

Section admitted.
Context `{RegHost} `{JsEngine} `{RegCryptoLaws}.

(** The credentials the registry accepts at a time, and what each is worth. *)
Inductive admitted (opts : AuthOptions) (authorization remoteAddress : option string) (now : Z) : RegAuthContext → Prop :=
| admitted_jwt raw pem claims :
    bearer_token authorization = Some raw → truthy (ao_jwtPublicKeyPem opts) = Some pem → looksLikeJwt raw = true →
    jwt_valid raw pem DEFAULT_AUDIENCE DEFAULT_SKEW now claims →
    admitted opts authorization remoteAddress now (mkRegAuthContext (Some (jc_sub claims)) ["admin"])
| admitted_token raw token validate ctx :
    bearer_token authorization = Some raw → (truthy (ao_jwtPublicKeyPem opts) = None ∨ looksLikeJwt raw = false) →
    parseBearerToken authorization = inr token → ao_validateToken opts = Some validate → validate token = Some ctx →
    admitted opts authorization remoteAddress now ctx
| admitted_shape raw token :
    bearer_token authorization = Some raw → (truthy (ao_jwtPublicKeyPem opts) = None ∨ looksLikeJwt raw = false) →
    parseBearerToken authorization = inr token → ao_validateToken opts = None → ao_acceptAnyValidShape opts = true →
    admitted opts authorization remoteAddress now (mkRegAuthContext (Some (pt_prefix token)) ["admin"])
| admitted_loopback :
    bearer_token authorization = None → ao_allowLoopbackBypass opts = true → isLoopback remoteAddress = true →
    admitted opts authorization remoteAddress now (mkRegAuthContext None ["admin"]).

(** The bearer tokens of [authenticate] when no JWT is presented. *)
Definition by_token (opts : AuthOptions) (authorization : option string) : RM RegAuthContext :=
  token ← rlift (parseBearerToken authorization);
  match ao_validateToken opts with
  | Some validateToken =>
    match validateToken token with
    | None => rthrow (reg_unauthorized "invalid bearer token")
    | Some ctx => mret ctx
    end
  | None =>
    if ao_acceptAnyValidShape opts then mret (mkRegAuthContext (Some (pt_prefix token)) ["admin"])
    else rthrow (reg_unauthorized unauthorized_default)
  end.

Lemma authenticate_token opts authorization addr raw :
  bearer_token authorization = Some raw → (truthy (ao_jwtPublicKeyPem opts) = None ∨ looksLikeJwt raw = false) →
  authenticate opts authorization addr = by_token opts authorization.
Proof. intros Hb Hj. unfold authenticate. rewrite Hb. destruct (truthy _); destruct (looksLikeJwt raw); by destruct Hj. Qed.

Lemma by_token_sound opts authorization addr now raw ctx s :
  bearer_token authorization = Some raw → (truthy (ao_jwtPublicKeyPem opts) = None ∨ looksLikeJwt raw = false) →
  fst (by_token opts authorization s) = inr ctx → admitted opts authorization addr now ctx.
Proof.
  intros Hb Hj. unfold by_token. rewrite rbind_eq. cbn [rlift]. destruct (parseBearerToken authorization) as [|token] eqn:Ep; [done|].
  destruct (ao_validateToken opts) as [v|] eqn:Ev.
  - destruct (v token) as [c|] eqn:Et; [|done]. intros [= <-]. by eapply admitted_token.
  - destruct (ao_acceptAnyValidShape opts) eqn:Ea; [|done]. intros [= <-]. by eapply admitted_shape.
Qed.

Lemma authenticate_jwt opts authorization addr raw pem ctx s :
  bearer_token authorization = Some raw → truthy (ao_jwtPublicKeyPem opts) = Some pem → looksLikeJwt raw = true →
  fst (authenticate opts authorization addr s) = inr ctx ↔
  ∃ claims, fst (verifyJwt raw pem DEFAULT_AUDIENCE DEFAULT_SKEW s) = inr claims ∧ ctx = mkRegAuthContext (Some (jc_sub claims)) ["admin"].
Proof.
  intros Hb Hp Hl. unfold authenticate. rewrite Hb, Hp, Hl, rbind_eq. unfold rcatch.
  destruct (verifyJwt raw pem DEFAULT_AUDIENCE DEFAULT_SKEW s) as [[e|c] s'].
  - split; [|by intros (? & ? & _)]. by destruct e.
  - cbn. split; [intros [= <-]; by eexists|by intros (? & [= <-] & ->)].
Qed.

Lemma authenticate_sound opts authorization addr s ctx :
  fst (authenticate opts authorization addr s) = inr ctx → admitted opts authorization addr (reg_clock (rg_tick s) / 1000) ctx.
Proof.
  destruct (bearer_token authorization) as [raw|] eqn:Hb.
  - destruct (truthy (ao_jwtPublicKeyPem opts)) as [pem|] eqn:Hp; [destruct (looksLikeJwt raw) eqn:Hl|].
    + rewrite authenticate_jwt by done. intros (claims & Hv%verifyJwt_iff & ->). by eapply admitted_jwt.
    + rewrite (authenticate_token _ _ _ raw) by auto. eapply by_token_sound; eauto.
    + rewrite (authenticate_token _ _ _ raw) by auto. eapply by_token_sound; eauto.
  - unfold authenticate. rewrite Hb. destruct (_ && _) eqn:E; [|done]. apply andb_true_iff in E as [? ?]. intros [= <-]. by apply admitted_loopback.
Qed.

(** C21: REGISTRY-AUTHENTICATION.  The registry lets a request in with a context
    exactly when it shows one of four credentials: a JWT signed by the configured
    key for this registry and inside its window, a token the configured validator
    accepts, a token of the right shape when any such token is accepted, or no
    token at all from a loopback address where that is allowed. *)
Theorem registry_authentication opts authorization addr s ctx :
  fst (authenticate opts authorization addr s) = inr ctx ↔
  admitted opts authorization addr (reg_clock (rg_tick s) / 1000) ctx.
Proof.
  split; [apply authenticate_sound|].
  intros [raw pem claims Hb Hp Hl Hv|raw token v c Hb Hj Ht Hv Hc|raw token Hb Hj Ht Hv Ha|Hb Hl Ha].
  - rewrite authenticate_jwt by done. exists claims. by rewrite verifyJwt_iff.
  - rewrite (authenticate_token _ _ _ raw) by auto. unfold by_token. rewrite rbind_eq, Ht, Hv. cbn. by rewrite Hc.
  - rewrite (authenticate_token _ _ _ raw) by auto. unfold by_token. rewrite rbind_eq, Ht, Hv. cbn. by rewrite Ha.
  - unfold authenticate. by rewrite Hb, Hl, Ha.
Qed.
End admitted.

(** ** Signed manifests *)

Section signatures.
Context `{RegHost} `{JsEngine} `{RegCryptoLaws}.

Definition with_inline_signature (m : Manifest) (sig : option ManifestSignature) : Manifest :=
  mkManifest (mf_name m) (mf_version m) (mf_mediaType m) (mf_kind m) (mf_blobs m) (mf_annotations m) sig
    (mf_ociMetadata m) (mf_otherMetadata m) (mf_createdAt m).

Lemma signature_not_signed m sig : canonicalManifestBytes (with_inline_signature m sig) = canonicalManifestBytes m.
Proof. done. Qed.

(** C23: MANIFEST-SIGNATURES.  A manifest signed within a minute of its request
    verifies with the public key of the signer, whatever signature it carried
    before, and carries that key's fingerprint; a key with another fingerprint is
    refused by name, and so is every manifest whose canonical bytes the signature
    does not cover. *)
Theorem signature_roundtrip m pem key pub old s :
  rk_createPrivateKey pem = inr key → publicKeyPemFromPrivate pem = inr pub →
  Z.abs (reg_clock (S (rg_tick s)) - reg_clock (rg_tick s)) ≤ CLOCK_SKEW_TOLERANCE_MS →
  ∃ sig s', signManifest (with_inline_signature m old) pem s = (inr sig, s') ∧
    fingerprintPublicKey pub = inr (ms_signedBy sig) ∧
    verifyManifestInline (with_inline_signature m (Some sig)) pub = inr true ∧
    (∀ other fp, fingerprintPublicKey other = inr fp → fp ≠ ms_signedBy sig →
       ∃ e, verifyManifestInline (with_inline_signature m (Some sig)) other = inl e) ∧
    (∀ m', rk_verify (canonicalManifestBytes m') (rk_publicOf key) (rk_sign (canonicalManifestBytes m) key) = false →
       ∃ e, verifyManifestInline (with_inline_signature m' (Some sig)) pub = inl (SignatureVerificationError e)).
Proof.
  intros Hk Hp Ht. unfold publicKeyPemFromPrivate in Hp. rewrite Hk in Hp.
  destruct (bool_decide (rk_type key = _)) eqn:Ety; [|done]. injection Hp as <-.
  assert (Hpub : bool_decide (rk_type (rk_publicOf key) = Some "ed25519") = true) by (by rewrite public_type).
  assert (Hty : rk_type key = Some "ed25519") by (by apply bool_decide_eq_true in Ety).
  set (bytes := canonicalManifestBytes m). set (sig := mkManifestSignature (b64_encode (rk_sign bytes key)) (key_fingerprint (rk_publicOf key))).
  assert (Hverify : ∀ m', verifyManifestInline (with_inline_signature m' (Some sig)) (rk_exportPem (rk_publicOf key)) =
    if rk_verify (canonicalManifestBytes m') (rk_publicOf key) (rk_sign bytes key) then inr true
    else sig_fail "signature is cryptographically invalid (manifest tampered or wrong key)").
  { intros m'. unfold verifyManifestInline, verifyManifest. cbn [mf_signature with_inline_signature]. rewrite public_pem, Hpub. cbn [negb].
    subst sig. cbn [ms_signedBy ms_signatureB64]. rewrite (bool_decide_eq_true_2 (_ = _)) by done. cbn [negb].
    by rewrite !base64_reads, public_der, signature_not_signed. }
  exists sig, (set_tick (S (S (rg_tick s))) s). split_and!.
  - unfold signManifest. rewrite Hk, Ety. cbn [negb]. cbv zeta. rewrite signature_not_signed. fold bytes.
    erewrite rbind_ok by done. erewrite rbind_ok by done. cbn [rg_tick set_tick].
    by replace (CLOCK_SKEW_TOLERANCE_MS <? _) with false by lia.
  - unfold fingerprintPublicKey. by rewrite public_pem.
  - by rewrite Hverify, (ed25519_verifies bytes).
  - intros other fp Hf Hne. unfold fingerprintPublicKey in Hf. unfold verifyManifestInline, verifyManifest. cbn [mf_signature with_inline_signature].
    destruct (rk_createPublicKey other) as [|k]; [done|]. injection Hf as <-. destruct (bool_decide (rk_type k = _)); [|by eexists]. cbn [negb].
    rewrite bool_decide_eq_false_2 by done. by eexists.
  - intros m' Hm. rewrite Hverify, Hm. by eexists.
Qed.
End signatures.

(** ** Keys to try it on *)

(** The value of a digit, and a decoder of padded base64. *)
Fixpoint position (c : ascii) (s : string) : nat :=
  match s with EmptyString => O | String x s' => if is_char c x then O else S (position c s') end.
Definition b64_value (c : ascii) : nat := position c b64_alphabet.

Fixpoint b64_decode (s : string) : string :=
  match s with
  | String a (String b (String c (String d s'))) =>
    let x := Ascii.ascii_of_nat (b64_value a * 4 + b64_value b / 16) in
    let y := Ascii.ascii_of_nat (b64_value b mod 16 * 16 + b64_value c / 4) in
    let z := Ascii.ascii_of_nat (b64_value c mod 4 * 64 + b64_value d) in
    if is_char "=" c then String x "" else if is_char "=" d then String x (String y "") else String x (String y (String z (b64_decode s')))
  | _ => ""
  end.

Lemma b64_value_digit n : (n < 64)%nat → b64_value (b64_digit n) = n.
Proof.
  intros Hn. assert (Hall : forallb (λ n, b64_value (b64_digit n) =? n)%nat (seq 0 64) = true) by (by vm_compute).
  rewrite forallb_forall in Hall. apply Nat.eqb_eq, Hall, in_seq. lia.
Qed.

(** The bytes of a group. *)
Lemma group_bytes x y z :
  (code x / 4 * 4 + (code x mod 4 * 16) / 16 = code x ∧
   code x / 4 * 4 + (code x mod 4 * 16 + code y / 16) / 16 = code x ∧
   (code x mod 4 * 16 + code y / 16) mod 16 * 16 + (code y mod 16 * 4) / 4 = code y ∧
   (code x mod 4 * 16 + code y / 16) mod 16 * 16 + (code y mod 16 * 4 + code z / 64) / 4 = code y ∧
   (code y mod 16 * 4 + code z / 64) mod 4 * 64 + code z mod 64 = code z)%nat.
Proof.
  pose proof (code_bound x). pose proof (code_bound y). pose proof (code_bound z).
  generalize dependent (code z). generalize dependent (code y). generalize dependent (code x). intros a Ha b Hb c Hc.
  pose proof (Nat.div_mod_eq a 4). pose proof (Nat.div_mod_eq b 16). pose proof (Nat.div_mod_eq c 64).
  pose proof (Nat.mod_upper_bound a 4). pose proof (Nat.mod_upper_bound b 16). pose proof (Nat.mod_upper_bound c 64).
  generalize dependent (a mod 4)%nat. generalize dependent (a / 4)%nat. generalize dependent (b mod 16)%nat.
  generalize dependent (b / 16)%nat. generalize dependent (c mod 64)%nat. generalize dependent (c / 64)%nat.
  intros c1 c2 Ec Hc2 b1 b2 Eb Hb2 a1 a2 Ea Ha2. specialize (Hc2 ltac:(lia)). specialize (Hb2 ltac:(lia)). specialize (Ha2 ltac:(lia)).
  rewrite (Nat.div_mul a2), (Nat.div_mul b2) by lia.
  rewrite (Nat.add_comm (a2 * 16)), (Nat.add_comm (b2 * 4)), !Nat.div_add, !Nat.Div0.mod_add by lia.
  rewrite (Nat.div_small b1), (Nat.div_small c1), (Nat.mod_small b1), (Nat.mod_small c1) by lia. lia.
Qed.

Lemma code_ascii c : Ascii.ascii_of_nat (code c) = c.
Proof. apply Ascii.ascii_nat_embedding. Qed.

Lemma not_padding n : (n < 64)%nat → is_char "=" (b64_digit n) = false.
Proof. intros Hn%b64_digit_safe. unfold b64_safe in Hn. by bool_hyps. Qed.

Lemma b64_decode_encode b : b64_decode (b64_encode b) = b.
Proof.
  induction b as [|x|x y|x y z b IH] using string_ind3; [done| | |]; cbn [b64_encode b64_decode].
  - pose proof (digit_ranges x x x) as (?&?&?&?&?&?). pose proof (group_bytes x x x) as (E1&_).
    rewrite !b64_value_digit by done. rewrite E1, code_ascii. done.
  - pose proof (digit_ranges x y y) as (?&?&?&?&?&?). pose proof (group_bytes x y y) as (_&E1&E2&_).
    rewrite !b64_value_digit, not_padding by done. rewrite E1, E2, !code_ascii. done.
  - pose proof (digit_ranges x y z) as (?&?&?&?&?&?). pose proof (group_bytes x y z) as (_&E1&_&E2&E3).
    rewrite !b64_value_digit, !not_padding by done. rewrite E1, E2, E3, !code_ascii. by rewrite IH.
Qed.

(** A key is its text and whether it is private; what it signs is the text in front
    of the data. *)
#[local] Instance ax_crypto : RegCrypto := {|
  RKey := string * bool;
  rk_createPrivateKey pem := if starts_with "private:" pem then inr (str_drop 8 pem, true) else inl "Invalid PEM";
  rk_createPublicKey pem := if starts_with "public:" pem then inr (str_drop 7 pem, false) else inl "Invalid PEM";
  rk_publicOf k := (k.1, false);
  rk_exportPem k := "public:" +:+ k.1;
  rk_exportDer k := "der:" +:+ k.1;
  rk_ofDer d := inr (str_drop 4 d, false);
  rk_type _ := Some "ed25519";
  rk_sign data k := k.1 +:+ ":" +:+ data;
  rk_verify data k sig := sig =?s (k.1 +:+ ":" +:+ data);
  buffer_from_base64 := b64_decode
|}.

#[local] Instance ax_laws : RegCryptoLaws.
Proof.
  constructor.
  - apply b64_decode_encode.
  - intros data [t b] _. cbn. by apply bool_decide_eq_true_2.
  - done.
  - intros [t b]. change (inr (str_drop (String.length "public:") ("public:" +:+ t), false) = inr (t, false) :> string + string * bool). by rewrite str_drop_app.
  - intros [t b]. change (inr (str_drop (String.length "der:") ("der:" +:+ t), false) = inr (t, false) :> string + string * bool). by rewrite str_drop_app.
Qed.

#[local] Existing Instance rx_engine.
#[local] Existing Instance rx_good.

Definition ax_scope : string := "repository:acme/app:pull".

Lemma ax_header_reads : JSON_parse (json_stringify jwt_header) = Some jwt_header.
Proof. apply read_json_stringify. by vm_compute. Qed.

Lemma jwt_roundtrip_witness :
  ∃ minted,
    mintJwt "private:k" "sk_ABCD" ax_scope 3600 DEFAULT_AUDIENCE DEFAULT_ISSUER rx_empty = (inr minted, set_tick 1 rx_empty) ∧
    fst (verifyJwt (mj_token minted) "public:k" DEFAULT_AUDIENCE 60 rx_tagged) = inr (mj_claims minted).
Proof.
  destruct (jwt_roundtrip "private:k" (("k", true) : @RKey ax_crypto) "public:k" "sk_ABCD" ax_scope 3600 60 rx_empty) as (minted & Hm & Hc & Hv).
  - reflexivity.
  - reflexivity.
  - exact ax_header_reads.
  - apply read_json_stringify. by vm_compute.
  - by vm_compute.
  - by vm_compute.
  - by vm_compute.
  - by vm_compute.
  - exists minted. split; [exact Hm|]. rewrite Hc. apply (Hv rx_tagged); split; by vm_compute.
Defined.

Definition ax_manifest : Manifest := mkManifest "acme/tool" "1.0.0" "application/octet-stream" None [] None None None [] "2025-01-01T00:00:00.000Z".

Lemma signature_roundtrip_witness :
  ∃ sig, fst (signManifest ax_manifest "private:k" rx_empty) = inr sig ∧
    verifyManifestInline (with_inline_signature ax_manifest (Some sig)) "public:k" = inr true.
Proof.
  destruct (signature_roundtrip ax_manifest "private:k" (("k", true) : @RKey ax_crypto) "public:k" None rx_empty) as (sig & s' & Hs & _ & Hv & _).
  - reflexivity.
  - reflexivity.
  - by vm_compute.
  - exists sig. split; [|exact Hv]. change ax_manifest with (with_inline_signature ax_manifest None). by rewrite Hs.
Defined.

(** *** What the token endpoint gives away *)

Definition ax_options : AuthOptions := mkAuthOptions false false (Some (λ _, None)) (Some "public:k").
Definition ax_config : OciAuthConfig := mkOciAuthConfig (Some "private:k") (Some "public:k") "" DEFAULT_TTL_SECONDS DEFAULT_ISSUER.
Definition ax_token : string := "sk_ABCD_0123456789ABCDEF".

(** The token in the answer of the endpoint. *)
Definition issued (r : OciResponse) : option string :=
  match or_body r with
  | OB_bytes b => match JSON_parse b with Some (JObj o) => match get_prop "token" o with Some (JStr t) => Some t | _ => None end | _ => None end
  | _ => None
  end.

(** The validator refuses every token, so a bearer of one is turned away; but the
    token endpoint does not ask it: the same token, shown as a Basic user name,
    buys a JWT that is then accepted as an administrator's. *)
Example token_endpoint_skips_validation :
  fst (authenticate ax_options (Some ("Bearer " +:+ ax_token)) None rx_empty) = inl (reg_unauthorized "invalid bearer token") ∧
  match fst (get_oci_token ax_config None (Some "repository:acme/app:pull") (Some ("Basic " +:+ b64_encode (ax_token +:+ ":"))) rx_empty) with
  | inr r => option_map (λ t, fst (authenticate ax_options (Some ("Bearer " +:+ t)) None rx_empty)) (issued r)
  | inl _ => None
  end = Some (inr (mkRegAuthContext (Some "sk_ABCD") ["admin"])).
Proof. by vm_compute. Qed.

(** A header that is the JSON text null is no [JwtError]: reading its type throws. *)
Example null_header_throws :
  fst (authenticate ax_options (Some ("Bearer " +:+ base64UrlEncode "null" +:+ ".e30.e30")) None rx_empty)
  = inl (PlainError "Cannot read properties of null (reading 'typ')").
Proof. by vm_compute. Qed.
