(* ===== verification/RegistrySpec.v ===== *)
(** What the whole registry promises: requests of its HTTP application, sweeps of
    its reaper and the blobs and upstreams others give it leave it intact, requests
    without a credential change nothing, and what is pulled through an upstream is
    stored under its own digest. *)

From stdpp Require Import gmap strings relations.
From S2P Require Import Prelude JsTime JsVal JsInt Manifest Signing Build BuildYaml Probes ReleaseDeploy Http Worker SigningSpec JsonReader.
From S2P Require Import Registry Oci OciApp RegistryAuth RegistrySigning OciVirtual Cargo RegistryApp OciSpec RegistryAuthSpec.

(** ** The upstreams keep the registry intact *)

Section upstreams_ok.
Context `{RegHost} `{JsEngine} `{RegCrypto} `{Upstream}.

Lemma ok_set_fetches l s : reg_ok s → reg_ok (set_fetches l s).
Proof. intros []. by constructor. Qed.
Lemma ok_set_upstream l s : reg_ok s → reg_ok (set_upstream l s).
Proof. intros []. by constructor. Qed.

Lemma upstream_fetch_ok url init : keeps reg_ok (upstream_fetch url init).
Proof.
  unfold upstream_fetch. apply keeps_bind; [auto with registry|intros n].
  apply keeps_bind; [apply keeps_put; intros s; apply ok_set_fetches|intros ?]. keep.
Qed.
Hint Resolve upstream_fetch_ok : registry.

Lemma signSigV4Request_ok a b c r sv u bd t : keeps reg_ok (signSigV4Request a b c r sv u bd t).
Proof. unfold signSigV4Request. cbv zeta. keep. Qed.
Hint Resolve signSigV4Request_ok : registry.

Lemma authorize_upstream_ok flavor config repo : keeps reg_ok (authorize_upstream flavor config repo).
Proof.
  unfold authorize_upstream, dockerHub_authorize, ghcr_authorize, ecr_authorize, token_body, plain_fail. cbv zeta. keep.
Qed.
Hint Resolve authorize_upstream_ok : registry.

Lemma logProxyFailure_ok u phase detail : keeps reg_ok (logProxyFailure u phase detail).
Proof. unfold logProxyFailure. keep. Qed.
Hint Resolve logProxyFailure_ok : registry.

Lemma or_log_ok {A} u phase detail (m : RM A) : keeps reg_ok m → keeps reg_ok (or_log u phase detail m).
Proof. intros Hm. unfold or_log. keep. Qed.

Lemma upstream_get_ok u repo path : keeps reg_ok (upstream_get u repo path).
Proof.
  unfold upstream_get. cbv zeta. destruct (negb _); [keep|]. destruct (upstreamFlavorFrom u); [|keep].
  apply keeps_bind; [apply or_log_ok; auto with registry|intros [auth|]]; [|keep].
  apply keeps_bind; [apply or_log_ok; auto with registry|intros [resp|]]; keep.
Qed.
Hint Resolve upstream_get_ok : registry.

Lemma proxyOciBlob_ok org repo hex : keeps reg_ok (proxyOciBlob org repo hex).
Proof.
  pose proof storage_putBlob_ok. unfold proxyOciBlob, listVirtualUpstreams. apply keeps_bind; [keep|intros l].
  induction l as [|u l IH]; cbn [first_upstream]; [keep|]. apply keeps_bind; [|intros [b|]; keep].
  unfold proxy_blob_from. cbv zeta. keep.
Qed.

Lemma signManifest_ok m pem : keeps reg_ok (signManifest m pem).
Proof. unfold signManifest. cbv zeta. keep. Qed.

Lemma resigned_ok key u repo m : keeps reg_ok (resigned key u repo m).
Proof. unfold resigned. destruct (vc_resign_on_cache _), (truthy key); try apply keeps_ret. apply or_log_ok, signManifest_ok. Qed.

(** What is cached is stored under its digest. *)
Lemma cache_manifest_ok u repo m body pv :
  (starts_with OCI_PREFIX (mf_name m) = true → mf_version m = sha256 body) →
  triple reg_ok (cache_manifest u repo m body pv) (λ cached s, reg_ok s ∧ (cached = true → has_manifest (mf_name m) (mf_version m) s)) reg_ok.
Proof.
  intros Hk s Hs. unfold cache_manifest, rcatch. rewrite rbind_eq. pose proof (putManifest_ok m body (Some pv) Hk s Hs) as Hput.
  pose proof (putManifest_exists m body (Some pv)) as Hex.
  destruct (putManifest m body (Some pv) s) as [[e|x] s'] eqn:E; [|by destruct Hput].
  assert (Hlog : triple reg_ok (logProxyFailure u "store_error" [("repository", JStr repo); ("error", JStr (rerr_message e))];; mret false)
    (λ cached s, reg_ok s ∧ (cached = true → has_manifest (mf_name m) (mf_version m) s)) reg_ok).
  { eapply triple_bind; [apply logProxyFailure_ok|intros ? s1 Hs1]. by split. }
  destruct e as [| [] | | | |]; try exact (Hlog s' Hput). split; [done|]. intros _. by eapply Hex.
Qed.

Lemma ociManifestName_prefix org repo name : ociManifestName org repo = inr name → starts_with OCI_PREFIX name = true.
Proof.
  unfold ociManifestName. destruct (validateCargoOrgName org); [done|]. cbn -[validateOciRepositoryName].
  destruct (validateOciRepositoryName repo); [done|]. by intros [= <-].
Qed.

(** A tag of what was cached. *)
Lemma proxy_tag_ok storageName reference hex :
  ref_ok reference → starts_with OCI_PREFIX storageName = true →
  triple (λ s, reg_ok s ∧ has_manifest storageName hex s)
    (match reference with Ref_tag tag => TagStore_put storageName tag hex;; mret () | Ref_digest _ _ => mret () end) (λ _, reg_ok) reg_ok.
Proof.
  intros Hr Hp. destruct reference as [tag|]; [|by intros s []].
  eapply triple_bind; [by apply TagStore_put_ok|intros ?; by intros s Hs].
Qed.

Lemma proxy_manifest_from_ok key org repo reference u :
  ref_ok reference → keeps reg_ok (proxy_manifest_from key org repo reference u).
Proof.
  intros Hr. unfold proxy_manifest_from. cbv zeta. apply keeps_bind; [auto with registry|intros [[[[flavor upstreamRepo] url] resp]|]]; [|keep].
  destruct (digest_conflict _ _); [keep|]. destruct (ociManifestName org repo) as [e|storageName] eqn:En; [by intros s Hs|].
  apply ociManifestName_prefix in En. match goal with |- keeps _ (rlift (inr storageName) ≫= ?k) => change (keeps reg_ok (k storageName)) end. cbv beta.
  apply keeps_bind; [keep|intros at_]. apply keeps_bind; [keep|intros metadata]. apply keeps_bind; [apply resigned_ok|intros sig].
  eapply triple_bind; [by apply cache_manifest_ok|intros [|]]; cbn [negb].
  - eapply triple_bind; [|intros ?; apply keeps_bind; [keep|intros ?; apply keeps_ret]].
    eapply triple_weaken; [by apply proxy_tag_ok| |done|done]. intros s [Hs Hm]. by split; [|apply Hm].
  - by intros s [].
Qed.

Lemma proxyOciManifest_ok key org repo reference : ref_ok reference → keeps reg_ok (proxyOciManifest key org repo reference).
Proof.
  intros Hr. unfold proxyOciManifest, listVirtualUpstreams. apply keeps_bind; [keep|intros l].
  induction l as [|u l IH]; cbn [first_upstream]; [keep|]. apply keeps_bind; [by apply proxy_manifest_from_ok|intros [b|]; keep].
Qed.

(** The facade with its upstreams. *)
Lemma mounted_ok cfg key route req s : reg_ok s → reg_ok (serve (mounted cfg key) route req s).2.
Proof.
  apply serve_ok; cbn [oc_proxyBlob oc_proxyManifest mounted].
  - intros p [= <-] o r h. pose proof (proxyOciBlob_ok o r h). keep.
  - intros p [= <-] o r ref Href. pose proof (proxyOciManifest_ok key o r ref Href). keep.
Qed.
End upstreams_ok.

(** ** The Cargo facade keeps the registry intact *)

Section cargo_ok.
Context `{RegHost} `{JsEngine} `{RegCrypto} `{Upstream}.

Lemma check_refs_ok refs : keeps reg_ok (check_refs refs).
Proof. induction refs as [|r refs IH]; cbn [check_refs]; keep. Qed.

Lemma storage_putManifest_ok m pv : starts_with OCI_PREFIX (mf_name m) = false → keeps reg_ok (storage_putManifest m pv).
Proof.
  intros Hn. unfold storage_putManifest. apply keeps_bind; [apply check_refs_ok|intros ?].
  eapply triple_weaken; [apply putManifest_ok; congruence|done| |done]. by intros ? ? [].
Qed.


Lemma cargoManifestName_prefix org name m : cargoManifestName org name = inr m → starts_with OCI_PREFIX m = false.
Proof.
  unfold cargoManifestName. destruct (validateCargoOrgName org); [done|]. cbn -[validateCargoCrateName lower].
  destruct (validateCargoCrateName name); [done|]. by intros [= <-].
Qed.

(** A row outside the facade's names may change, but for its key. *)
Lemma ok_update_row name version f s :
  reg_ok s → starts_with OCI_PREFIX name = false → (∀ r, mr_name (f r) = mr_name r ∧ mr_version (f r) = mr_version r) →
  reg_ok (set_manifest (update_where (is_row name version) f (rg_manifest s)) s).
Proof.
  intros [] Hn Hf. constructor; try done; cbn [rg_manifest rg_tag set_manifest].
  - intros r [(x & Hx & [En _]%is_row_eq & ->)|[Hr _]]%update_where_elem; [|by auto]. intros Hp.
    rewrite (proj1 (Hf x)), En in Hp. congruence.
  - intros t Ht. destruct (ok_tags t Ht) as (r & Hr & Er). exists r. split; [|done]. apply update_where_elem. right. split; [done|].
    apply not_true_iff_false. intros [E1 _]%is_row_eq. apply is_row_eq in Er as [E2 _]. destruct (ok_tag_names t Ht) as [_ Hp]. congruence.
  - apply keyed_update; [done|]. intros x _. by rewrite (proj1 (Hf x)), (proj2 (Hf x)).
Qed.

Lemma setCargoYanked_ok name version b : starts_with OCI_PREFIX name = false → keeps reg_ok (setCargoYanked name version b).
Proof.
  intros Hn. unfold setCargoYanked, fetchRow. cbv zeta. keep. apply keeps_put. intros s Hs. by apply ok_update_row.
Qed.

Lemma mutateYank_ok org name version token b : keeps reg_ok (mutateYank org name version token b).
Proof.
  unfold mutateYank. apply keeps_bind; [keep|intros ?]. apply keeps_bind; [keep|intros ?]. destruct (bad_crate_version version); [keep|].
  destruct (cargoManifestName org name) as [e|m] eqn:E; [by intros s Hs|]. apply cargoManifestName_prefix in E.
  match goal with |- keeps _ (rlift (inr m) ≫= ?k) => change (keeps reg_ok (k m)) end. cbv beta.
  pose proof (setCargoYanked_ok m version b E). pose proof (getManifest_ok m version). keep.
Qed.

Lemma put_crate_ok max org stream token : keeps reg_ok (put_crate max org stream token).
Proof.
  pose proof storage_putBlob_ok. unfold put_crate, readBodyStream, readChunk. cbv zeta. apply keeps_bind; [keep|intros ?].
  destruct stream as [st|]; [|keep]. apply keeps_bind; [keep|intros body]. apply keeps_bind; [keep|intros [[[metadata name] vers] tarball]].
  apply keeps_bind; [keep|intros b]. destruct (negb _); [keep|]. apply keeps_bind; [keep|intros meta].
  destruct (cargoManifestName org name) as [e|m] eqn:E; [by intros s Hs|]. apply cargoManifestName_prefix in E.
  match goal with |- keeps _ (rlift (inr m) ≫= ?k) => change (keeps reg_ok (k m)) end. cbv beta.
  apply keeps_bind; [keep|intros at_]. apply keeps_bind; [|intros ?; keep].
  apply keeps_catch; [by apply storage_putManifest_ok|intros e; keep].
Qed.

Lemma cargo_audit_ok u phase detail : keeps reg_ok (cargo_audit u phase detail).
Proof. unfold cargo_audit. keep. Qed.
Hint Resolve cargo_audit_ok : registry.

Lemma cargo_fetch_ok u url phase detail : keeps reg_ok (cargo_fetch u url phase detail).
Proof. unfold cargo_fetch. pose proof upstream_fetch_ok. keep. Qed.
Hint Resolve cargo_fetch_ok : registry.

Lemma cacheUpstreamVersion_ok key org u entry name vers cksum : keeps reg_ok (cacheUpstreamVersion key org u entry name vers cksum).
Proof.
  pose proof getManifest_ok. pose proof signManifest_ok. unfold cacheUpstreamVersion. cbv zeta. apply keeps_bind; [keep|intros n].
  destruct (cargoManifestName org n) as [e|m] eqn:E; [by intros s Hs|]. apply cargoManifestName_prefix in E.
  match goal with |- keeps _ (rlift (inr m) ≫= ?k) => change (keeps reg_ok (k m)) end. cbv beta.
  apply keeps_bind; [keep|intros v]. apply keeps_bind; [keep|intros [x|]]; [keep|]. apply keeps_bind; [keep|intros at_].
  apply keeps_bind; [destruct (vc_resign_on_cache _), (truthy key); keep|intros sig]. apply keeps_bind; [|intros [|]; keep].
  apply keeps_catch; [|intros e; keep]. apply keeps_bind; [|intros ?; keep].
  eapply triple_weaken; [apply putManifest_ok; intros Hp; change (starts_with OCI_PREFIX m = true) in Hp; congruence|done| |done]. by intros ? ? [].
Qed.

Lemma cache_lines_ok key org u lines : keeps reg_ok (cache_lines key org u lines).
Proof.
  pose proof cacheUpstreamVersion_ok. induction lines as [|l lines IH]; cbn [cache_lines]; [keep|]. unfold cache_line. keep.
Qed.

Lemma index_lines_ok versions : keeps reg_ok (index_lines versions).
Proof. pose proof getManifest_ok. induction versions as [|v vs IH]; cbn [index_lines]; keep. Qed.

Lemma proxyCargoSparseIndex_ok key org name : keeps reg_ok (proxyCargoSparseIndex key org name).
Proof.
  pose proof cache_lines_ok. pose proof index_lines_ok. unfold proxyCargoSparseIndex, listVirtualUpstreams. apply keeps_bind; [keep|intros l].
  apply keeps_bind; [|intros ?; keep]. induction l as [|u l IH]; cbn [first_upstream]; [keep|]. apply keeps_bind; [|intros [r|]; keep].
  unfold proxy_index_from, listManifestVersions. cbv zeta. keep.
Qed.

Lemma proxyCargoDownload_ok org name version : keeps reg_ok (proxyCargoDownload org name version).
Proof.
  pose proof storage_putBlob_ok. unfold proxyCargoDownload, listVirtualUpstreams. apply keeps_bind; [keep|intros l].
  induction l as [|u l IH]; cbn [first_upstream]; [keep|]. apply keeps_bind; [|intros [r|]; keep]. unfold proxy_download_from. cbv zeta. keep.
Qed.

Lemma get_sparse_index_ok key org rest : keeps reg_ok (get_sparse_index key org rest).
Proof. pose proof proxyCargoSparseIndex_ok. pose proof index_lines_ok. unfold get_sparse_index, listManifestVersions. keep. Qed.

Lemma get_crate_ok org name version : keeps reg_ok (get_crate org name version).
Proof. pose proof proxyCargoDownload_ok. pose proof getManifest_ok. unfold get_crate. keep. Qed.
End cargo_ok.

(** ** The application keeps the registry intact *)

(** Credentials are read without writing anything. *)
Section auth_frame.
Context `{RegHost} `{JsEngine} `{RegCrypto} (P : Reg → Prop) (P_tick : ∀ n s, P s → P (set_tick n s)).

Lemma frame_now : keeps P reg_now.
Proof using P_tick. intros s Hs. by apply P_tick. Qed.
Hint Resolve frame_now : registry.

Lemma verifyJwt_frame token pem aud skew : keeps P (verifyJwt token pem aud skew).
Proof using P_tick. unfold verifyJwt, jwt_part, jwt_fail. cbv zeta. keep. Qed.

Lemma authenticate_frame opts authorization addr : keeps P (authenticate opts authorization addr).
Proof using P_tick. pose proof verifyJwt_frame. unfold authenticate. keep. Qed.

Lemma get_v2_frame cfg authorization : keeps P (get_v2 cfg authorization).
Proof using P_tick. pose proof verifyJwt_frame. unfold get_v2. cbv zeta. keep. Qed.

Lemma get_oci_token_frame cfg service scope authorization : keeps P (get_oci_token cfg service scope authorization).
Proof using P_tick. unfold get_oci_token, issue_token, mintJwt, oci_fail. cbv zeta. keep. Qed.

Lemma reg_authorize_frame auth req : keeps P (reg_authorize auth req).
Proof using P_tick. pose proof authenticate_frame. unfold reg_authorize. keep. Qed.
End auth_frame.

Section app_ok.
Context `{RegHost} `{JsEngine} `{RegCrypto} `{Upstream}.

(** Rows outside the facade's names may go: no tag points at them. *)
Lemma deleteManifest_ok name version : starts_with OCI_PREFIX name = false → keeps reg_ok (deleteManifest name version).
Proof.
  intros Hn. unfold deleteManifest. apply keeps_bind; [keep|intros ?]. apply keeps_bind; [keep|intros ?]. apply keeps_put.
  intros s []. constructor; try done; simpl.
  - intros r [Hr _]%select_elem. by auto.
  - intros t Ht. destruct (ok_tags t Ht) as (r & Hr & Er). exists r. split; [|done]. apply select_elem. split; [done|].
    apply negb_true_iff, not_true_iff_false. intros [E1 _]%is_row_eq. apply is_row_eq in Er as [E2 _].
    destruct (ok_tag_names t Ht) as [_ Hp]. congruence.
  - by apply keyed_select.
Qed.

Lemma parseManifestBody_ok body name version :
  triple reg_ok (parseManifestBody body name version) (λ m s, reg_ok s ∧ mf_name m = name) reg_ok.
Proof.
  unfold parseManifestBody. destruct body as [[| | | | |obj]|]; try (by intros ? ?).
  destruct (body_mismatch "name" _ _); [by intros ? ?|]. destruct (body_mismatch "version" _ _); [by intros ? ?|].
  destruct (truthy _); [|by intros ? ?]. destruct (get_prop "blobs" obj) as [[| | | |blobs|]|]; try (by intros ? ?).
  eapply triple_bind; [apply keeps_lift|intros refs]. eapply triple_bind; [apply keeps_lift|intros sig].
  eapply (triple_bind _ _ (λ _, reg_ok)); [|intros at_ s1 Hs1; by split].
  match goal with |- triple _ ?m _ _ => assert (keeps reg_ok m) as Hm by keep; exact Hm end.
Qed.

Lemma put_v1_manifest_ok ctx : starts_with OCI_PREFIX (gparam ctx "name") = false → keeps reg_ok (put_v1_manifest ctx).
Proof.
  intros Hn. unfold put_v1_manifest. cbv zeta. apply keeps_bind; [keep|intros ?]. apply keeps_bind; [keep|intros ?].
  eapply triple_bind; [apply parseManifestBody_ok|intros m]. intros s [Hs Em].
  assert (Hk : keeps reg_ok (stored ← storage_putManifest m None; mret (json_reply 201 (RB_manifest stored None)))).
  { apply keeps_bind; [apply storage_putManifest_ok; by rewrite Em|intros ?; keep]. }
  by apply Hk.
Qed.

(** The two routes that write and drop rows by name. *)
Definition generic_write (r : RegRoute) : bool :=
  ((gr_method r =?s "PUT") || (gr_method r =?s "DELETE")) && (gr_path r =?s "/v1/manifests/:name/:version").

Lemma oci_route_ok opts route reference ctx : keeps reg_ok (oci_route opts route reference ctx).
Proof.
  intros s Hs. unfold oci_route. pose proof (mounted_ok (gp_oci opts) (gp_resignKey opts) route (oci_request ctx reference) s Hs) as Hk.
  destruct (serve _ _ _ s) as [r s']. exact Hk.
Qed.

Lemma reg_routes_ok opts publicKey r ctx :
  r ∈ reg_routes opts publicKey → (generic_write r = true → starts_with OCI_PREFIX (gparam ctx "name") = false) →
  keeps reg_ok (gr_handler r ctx).
Proof.
  pose proof getManifest_ok. pose proof getCanonicalBytes_ok. pose proof storage_putBlob_ok. pose proof oci_route_ok.
  pose proof (get_v2_frame reg_ok ok_set_tick). pose proof (get_oci_token_frame reg_ok ok_set_tick).
  pose proof mutateYank_ok. pose proof put_crate_ok. pose proof get_sparse_index_ok. pose proof get_crate_ok.
  unfold reg_routes, cargo_routes. cbv zeta. cbn [app]. intros Hr Hg. repeat (apply elem_of_cons in Hr as [->|Hr]; [cbn [gr_handler] in *|]); [..|by apply elem_of_nil in Hr].
  4: by apply put_v1_manifest_ok, Hg.
  6: { unfold delete_v1_manifest. cbv zeta. pose proof (deleteManifest_ok (gparam ctx "name") (gparam ctx "version") (Hg eq_refl)). keep. }
  all: unfold get_reg_healthz, put_v1_blob, get_v1_blob, get_v1_manifest, get_v1_versions, get_provenance_route, get_audit_route,
    get_summary_route, get_upstreams_route, readChunk, listManifestVersions, getProvenance, listAuditEntries, fetchRow,
    manifestCountsByKindAndSource, artifactsByUpstream, cargo_route, get_cargo_config; cbv zeta; keep.
Qed.
End app_ok.

(** ** Runs of the registry *)

Section runs.
Context `{RegHost} `{JsEngine} `{RegCrypto} `{Upstream}.

Lemma reg_find_elem method path routes r caps : reg_find method path routes = Some (r, caps) → r ∈ routes ∧ gr_method r = method.
Proof.
  induction routes as [|x routes IH]; [done|]. cbn [reg_find]. destruct (gr_method x =?s method) eqn:Em; cbn [negb].
  - apply bool_decide_eq_true in Em. destruct (reg_match _ _); [intros [= <- <-]; split; [by left|done]|].
    intros [? ?]%IH. split; [by right|done].
  - intros [? ?]%IH. split; [by right|done].
Qed.

(** A request to the generic routes that writes or drops a row under one of the
    facade's names: [PUT] or [DELETE] of /v1/manifests/oci%2F…. *)
Definition writes_oci_row (routes : list RegRoute) (req : RegRequest) : bool :=
  match reg_find (rq_method (gq_base req) ?? "GET") (rq_path (gq_base req)) routes with
  | Some (r, caps) =>
    generic_write r && match reg_decode caps with
                       | inr params => starts_with OCI_PREFIX (option_map snd (find_first (λ kv, kv.1 =?s "name") params) ?? "")
                       | inl _ => false
                       end
  | None => false
  end.

Lemma reg_handle_ok opts publicKey auth req :
  writes_oci_row (reg_routes opts publicKey) req = false → keeps reg_ok (reg_handle auth (reg_routes opts publicKey) req).
Proof.
  unfold writes_oci_row, reg_handle. destruct (reg_find _ _ _) as [[r caps]|] eqn:Ef; [|intros _; apply keeps_ret].
  apply reg_find_elem in Ef as [Hr _]. intros Hg. unfold reg_run_route. cbv zeta.
  destruct (reg_decode caps) as [e|params]; [by intros s Hs|].
  match goal with |- keeps _ (rlift (inr params) ≫= ?k) => change (keeps reg_ok (k params)) end. cbv beta.
  assert (Hh : ∀ q b st rq c, keeps reg_ok (gr_handler r (mkRegContext params q b st rq c))).
  { intros. apply (reg_routes_ok opts publicKey); [done|]. intros Hw. by rewrite Hw in Hg. }
  pose proof (reg_authorize_frame reg_ok ok_set_tick auth (gq_base req)). keep.
Qed.

(** What happens to a registry: a request, a sweep of the reaper, a blob from
    another facade, an upstream that is added or removed. *)
Inductive reg_step (opts : RegOptions) (publicKey : option string) (auth : AuthOptions) : Reg → Reg → Prop :=
| rs_request req s : writes_oci_row (reg_routes opts publicKey) req = false →
    reg_step opts publicKey auth s (reg_listener auth (reg_routes opts publicKey) req s).2
| rs_sweep stopped s : reg_step opts publicKey auth s (sweep stopped s).2
| rs_putBlob body ct s : reg_step opts publicKey auth s (storage_putBlob body ct s).2
| rs_addUpstream org kind url config enabled s : reg_step opts publicKey auth s (addVirtualUpstream org kind url config enabled s).2
| rs_removeUpstream id s : reg_step opts publicKey auth s (removeVirtualUpstream id s).2.

Lemma keeps_run {A} (m : RM A) s : keeps reg_ok m → reg_ok s → reg_ok (m s).2.
Proof. intros Hm Hs. specialize (Hm s Hs). by destruct (m s) as [[e|a] s']. Qed.

Lemma addVirtualUpstream_ok org kind url config enabled : keeps reg_ok (addVirtualUpstream org kind url config enabled).
Proof. unfold addVirtualUpstream. cbv zeta. keep. apply keeps_put. intros s. apply ok_set_upstream. Qed.

Lemma listener_state auth routes req s : (reg_listener auth routes req s).2 = (reg_handle auth routes req s).2.
Proof. unfold reg_listener. by destruct (reg_handle auth routes req s) as [[e|r] s']. Qed.

Lemma reg_steps_ok opts publicKey auth s s' : reg_ok s → rtc (reg_step opts publicKey auth) s s' → reg_ok s'.
Proof.
  intros Hs Hr. induction Hr as [|s1 s2 s3 Hstep _ IH]; [done|]. apply IH.
  destruct Hstep as [req s Hw|stopped s|body ct s|org kind url config enabled s|id s].
  - rewrite listener_state. apply keeps_run; [by apply reg_handle_ok|done].
  - apply keeps_run; [apply sweep_ok|done].
  - apply keeps_run; [apply storage_putBlob_ok|done].
  - apply keeps_run; [apply addVirtualUpstream_ok|done].
  - by apply ok_set_upstream.
Qed.

(** C18: REGISTRY-INTEGRITY.  Whatever requests the registry's application gets,
    with whatever credentials and whatever its upstreams answer, and however its
    disk operations fail, the bytes of every blob file hash to its name, the bytes
    of every manifest under an OCI name hash to its version, every tag points at a
    manifest of its own repository, and no primary key occurs twice; only the two
    generic routes are asked to leave the rows of OCI names alone. *)
Theorem registry_integrity opts publicKey auth s s' : reg_ok s → rtc (reg_step opts publicKey auth) s s' → reg_ok s'.
Proof. apply reg_steps_ok. Qed.
End runs.

(** ** Requests without a credential *)

Section refused.
Context `{RegHost} `{JsEngine} `{RegCryptoLaws} `{Upstream}.

(** The error of a refused credential. *)
Definition refusal (e : RErr) : Prop := match e with HttpError status _ _ => status = 401 | PlainError _ => True | _ => False end.

Lemma verifyJwt_errors token pem aud skew s e s' :
  verifyJwt token pem aud skew s = (inl e, s') → match e with JwtError _ _ | PlainError _ => True | _ => False end.
Proof.
  unfold verifyJwt. destruct (split_on "." token) as [|h [|p [|sig [|? ?]]]]; try (by intros [= <- _]).
  unfold jwt_part, ed25519_key, jwt_fail. rewrite rbind_eq. destruct (JSON_parse _) as [hv|]; [|by intros [= <- _]]. cbn [mret RM_ret].
  rewrite rbind_eq. destruct hv as [| | | | |header]; cbn [read_prop rlift]; try (by intros [= <- _]).
  destruct (negb _); [by intros [= <- _]|]. rewrite rbind_eq. cbn [read_prop rlift]. destruct (negb _); [by intros [= <- _]|].
  rewrite rbind_eq. destruct (rk_createPublicKey pem); [by intros [= <- _]|]. destruct (bool_decide _); [|by intros [= <- _]]. cbn [rlift].
  destruct (negb _); [by intros [= <- _]|]. rewrite rbind_eq. destruct (JSON_parse _) as [pv|]; [|by intros [= <- _]]. cbn [mret RM_ret].
  rewrite rbind_eq. destruct pv as [| | | | |o]; cbn [read_prop rlift]; try (by intros [= <- _]).
  destruct (claims_of _) as [c|]; [|by intros [= <- _]]. destruct (negb _); [by intros [= <- _]|]. destruct (negb _); [by intros [= <- _]|].
  rewrite rbind_eq. change (reg_now s) with (inr (reg_clock (rg_tick s)) : RRes Z, set_tick (S (rg_tick s)) s). cbv beta iota zeta. destruct (SFltb _ _); [by intros [= <- _]|]. destruct (SFltb _ _); by intros [= <- _].
Qed.

Lemma parseBearerToken_errors authorization e : parseBearerToken authorization = inl e → refusal e.
Proof.
  unfold parseBearerToken. destruct (bearer_token _); [|by intros [= <-]]. destruct (match_registry_token _) as [[]|]; [done|by intros [= <-]].
Qed.

Lemma authenticate_errors opts authorization addr s e s' :
  authenticate opts authorization addr s = (inl e, s') → refusal e.
Proof.
  destruct (bearer_token authorization) as [raw|] eqn:Hb.
  - assert (Ht : by_token opts authorization s = (inl e, s') → refusal e).
    { unfold by_token. rewrite rbind_eq. cbn [rlift]. pose proof (parseBearerToken_errors authorization) as Hp.
      destruct (parseBearerToken authorization) as [e1|token]; [intros [= <- _]; by apply Hp|].
      destruct (ao_validateToken opts) as [v|]; [destruct (v token); by intros [= <- _]|]. destruct (ao_acceptAnyValidShape opts); by intros [= <- _]. }
    destruct (truthy (ao_jwtPublicKeyPem opts)) as [pem|] eqn:Hp; [destruct (looksLikeJwt raw) eqn:Hl|];
      try (by rewrite (authenticate_token _ _ _ raw) by auto).
    unfold authenticate. rewrite Hb, Hp, Hl, rbind_eq. unfold rcatch.
    pose proof (verifyJwt_errors raw pem DEFAULT_AUDIENCE DEFAULT_SKEW s) as Hv.
    destruct (verifyJwt raw pem DEFAULT_AUDIENCE DEFAULT_SKEW s) as [[e1|c] s1]; [|done]. specialize (Hv e1 s1 eq_refl).
    destruct e1; try done; by intros [= <- _].
  - unfold authenticate. rewrite Hb. destruct (_ && _); by intros [= <- _].
Qed.

Lemma refusal_status e : refusal e → 400 ≤ rr_status (reg_mapError e).
Proof. destruct e; try done; cbn; lia. Qed.

(** Nothing but the clock moved. *)
Definition frozen (s s' : Reg) : Prop := ∃ n, s' = set_tick n s.

Lemma frozen_refl s : frozen s s.
Proof. exists (rg_tick s). by destruct s. Qed.

Lemma frozen_tick s n s' : frozen s s' → frozen s (set_tick n s').
Proof. intros [k ->]. by exists n. Qed.

(** A request that shows no credential is turned away in front of its handler. *)
Lemma unadmitted auth req s :
  has_type REG_PUBLIC_PATHS (rq_path req) = false →
  (∀ ctx, ¬ admitted auth (rq_authorization req) (rq_remoteAddress req) (reg_clock (rg_tick s) / 1000) ctx) →
  ∃ e s', reg_authorize auth req s = (inl e, s') ∧ refusal e ∧ frozen s s'.
Proof.
  intros Hp Hno. unfold reg_authorize. rewrite Hp.
  pose proof (authenticate_frame (frozen s) (λ n s1, frozen_tick s n s1) auth (rq_authorization req) (rq_remoteAddress req) s (frozen_refl s)) as Hf.
  pose proof (authenticate_sound auth (rq_authorization req) (rq_remoteAddress req) s) as Ha.
  pose proof (authenticate_errors auth (rq_authorization req) (rq_remoteAddress req) s) as He.
  destruct (authenticate _ _ _ s) as [[e|ctx] s']; [|by destruct (Hno ctx); apply Ha].
  exists e, s'. split; [done|]. by split; [eapply He|].
Qed.

Lemma reg_decode_error caps e : reg_decode caps = inl e → ∃ m, e = PlainError m.
Proof.
  induction caps as [|[name text] caps IH]; [done|]. cbn. destruct (decodeURIComponent text); [|intros [= <-]; by eexists].
  destruct (reg_decode caps) as [e1|]; [|done]. intros [= <-]. by apply IH.
Qed.

Lemma readJsonBody_error req e : readJsonBody req = inl e → ∃ m, e = PlainError m.
Proof.
  unfold readJsonBody. destruct (_ <? _)%nat; [intros [= <-]; by eexists|]. destruct (rq_chunks req); [done|].
  destruct (negb _); [done|]. destruct (JSON_parse _); [done|]. intros [= <-]. by eexists.
Qed.

Lemma inr_eq {A B} (x y : B) : (inr x : A + B) = inr y → x = y.
Proof. congruence. Qed.

Lemma registry_app_eq opts publicKey :
  token_public_key opts = inr publicKey →
  registry_app opts = inr (reg_listener (auth_options opts publicKey) (reg_routes opts publicKey)).
Proof. intros Hk. unfold registry_app. by rewrite Hk. Qed.

(** C20: REGISTRY-REFUSAL.  Outside the health check, the version check and the
    token endpoint, a request that shows none of the accepted credentials gets an
    error and leaves the registry as it was: no row, file, tag, session or audit
    entry changes, and no upstream is asked for anything. *)
Theorem refused_frozen opts publicKey app req s :
  token_public_key opts = inr publicKey → registry_app opts = inr app →
  has_type REG_PUBLIC_PATHS (rq_path (gq_base req)) = false →
  (∀ ctx, ¬ admitted (auth_options opts publicKey) (rq_authorization (gq_base req)) (rq_remoteAddress (gq_base req))
            (reg_clock (rg_tick s) / 1000) ctx) →
  400 ≤ rr_status (app req s).1 ∧ frozen s (app req s).2.
Proof.
  intros Hk Happ Hp Hno. pose proof (registry_app_eq opts publicKey Hk) as Happ'. rewrite Happ in Happ'. apply inr_eq in Happ' as ->.
  destruct (unadmitted (auth_options opts publicKey) (gq_base req) s Hp Hno) as (e & s' & Ea & He & Hf).
  pose proof (refusal_status e He) as Hst. unfold reg_listener, reg_handle.
  destruct (reg_find _ _ _) as [[r caps]|]; [|by split; [cbn; lia|apply frozen_refl]].
  unfold reg_run_route. cbv zeta. rewrite rbind_eq. cbn [rlift]. pose proof (reg_decode_error caps) as Hd.
  destruct (reg_decode caps) as [e1|params]; [destruct (Hd e1 eq_refl) as [m ->]; split; [cbn; lia|apply frozen_refl]|].
  destruct (gr_streamBody r) as [cap|].
  - destruct (capStreamBody (gq_base req) cap).
    + rewrite rbind_eq, Ea. by split.
    + unfold rcatch. rewrite rbind_eq, rbind_eq, Ea. by split.
    + rewrite rbind_eq, Ea. by split.
  - rewrite rbind_eq. cbn [rlift]. pose proof (readJsonBody_error (gq_base req)) as Hj.
    destruct (readJsonBody (gq_base req)) as [e1|body]; [destruct (Hj e1 eq_refl) as [m ->]; split; [cbn; lia|apply frozen_refl]|].
    rewrite rbind_eq, Ea. by split.
Qed.
End refused.

(** ** What is pulled *)

Section pulls.
Context `{RegHost} `{JsEngine} `{RegCrypto} `{Upstream}.

Lemma triple_lift {A B} P (r : RRes A) (k : A → RM B) Q E :
  (∀ s, P s → E s) → (∀ a, r = inr a → triple P (k a) Q E) → triple P (rlift r ≫= k) Q E.
Proof. intros HE Hk s Hs. rewrite rbind_eq. cbn [rlift]. destruct r as [e|a]; [by apply HE|by apply Hk]. Qed.

Lemma getBlob_addressed hex : triple reg_ok (getBlob hex) (λ c _, sha256 c = hex) (λ _, True).
Proof.
  unfold getBlob. apply triple_lift; [done|intros ? _]. eapply (triple_bind _ _ (λ _, reg_ok)); [|intros there].
  { eapply triple_weaken; [apply (fileExists_ok hex)|done|done|done]. }
  destruct (negb there); [by intros ? ?|]. eapply (triple_bind _ _ (λ _, reg_ok)); [|intros ?].
  { eapply triple_weaken; [apply file_op_ok|done|done|done]. }
  intros s Hs. rewrite rbind_eq. cbn [rget]. destruct (rg_files s !! hex) as [c|] eqn:E; [|done]. by apply (ok_files s Hs).
Qed.

(** The bytes of an answer. *)
Definition carries (r : OciResponse) (c : string) : Prop := or_body r = OB_bytes c.

Lemma error_carries_nothing e c : ¬ carries (writeOciError e) c.
Proof. unfold carries, writeOciError. by destruct (asOciError e) as [[code message] detail]. Qed.

Context (cfg : OciConfig) (key : option string).

Lemma get_blob_addressed req :
  triple reg_ok (get_oci_blob (mounted cfg key) req) (λ r _, ∀ c, carries r c → validateOciDigest (oq_reference req) = inr (sha256 c)) (λ _, True).
Proof.
  unfold get_oci_blob. apply triple_lift; [done|intros ? _]. apply triple_lift; [done|intros hex Hhex].
  eapply (triple_bind _ _ (λ _, reg_ok)); [eapply triple_weaken; [apply (statBlob_ok hex)|done|done|done]|intros stat].
  eapply (triple_bind _ _ (λ _, reg_ok)).
  { eapply (triple_weaken reg_ok _ _ (λ _, reg_ok) _ reg_ok); [|done|done|done].
    match goal with |- triple _ ?m _ _ => change (keeps reg_ok m) end. cbn [oc_proxyBlob mounted].
    destruct stat; [apply keeps_ret|]. apply keeps_bind; [apply keeps_lift|intros repo].
    pose proof (proxyOciBlob_ok (rp_org repo) (rp_repo repo) hex). keep. }
  intros [st|]; [|by intros ? ?]. intros s Hs. unfold opened, rcatch. rewrite rbind_eq.
  pose proof (getBlob_addressed hex s Hs) as Hg. destruct (getBlob hex s) as [[e|content] s'].
  - intros c Hc. by apply error_carries_nothing in Hc.
  - intros c [= <-]. by rewrite Hg.
Qed.

Lemma bytes_addressed name hex :
  starts_with OCI_PREFIX name = true →
  triple reg_ok (getCanonicalBytes name hex) (λ b _, ∀ c, b = Some c → sha256 c = hex) (λ _, True).
Proof.
  intros Hp. unfold getCanonicalBytes. apply triple_lift; [done|intros ? _]. apply triple_lift; [done|intros ? _].
  intros s Hs. rewrite rbind_eq. cbn [fetchRow rget]. destruct (find_first _ _) as [row|] eqn:E; [|done].
  apply find_first_Some in E as [Hin [En Ev]%is_row_eq]. intros c [= <-]. rewrite <- Ev. symmetry. apply (ok_manifests s Hs row Hin). by rewrite En.
Qed.

Lemma get_manifest_addressed req :
  triple reg_ok (get_manifest (mounted cfg key) req)
    (λ r _, ∀ c, carries r c → ("Docker-Content-Digest", SHA256_PREFIX +:+ sha256 c) ∈ or_headers r) (λ _, True).
Proof.
  unfold get_manifest, serveManifest. apply triple_lift; [done|intros repo Hrepo]. apply triple_lift; [done|intros ref Href].
  apply storage_prefix in Hrepo. apply parseOciReference_ok in Href.
  eapply (triple_bind _ _ (λ _, reg_ok)).
  { eapply (triple_weaken reg_ok _ _ (λ _, reg_ok) _ reg_ok); [|done|done|done].
    match goal with |- triple _ ?m _ _ => change (keeps reg_ok m) end. unfold resolve_manifest, TagStore_get. cbn [oc_proxyManifest mounted].
    pose proof (proxyOciManifest_ok key (rp_org repo) (rp_repo repo) ref Href). pose proof getManifest_ok. keep. }
  intros [hex m]. cbn [fst snd]. destruct (truthy hex) as [h|]; [|by intros ? ?]. destruct m as [manifest|]; [|by intros ? ?].
  eapply triple_bind; [by apply bytes_addressed|intros [bytes|]]; [|by intros ? ?].
  intros s Hb. cbv zeta. destruct (negb _); [done|]. intros c [= <-]. rewrite (Hb bytes eq_refl). right. right. by left.
Qed.

(** C19: PULLS.  In a registry that any requests, sweeps, blobs and upstreams have
    brought from a consistent state to this one, the two generic manifest routes
    having left the rows of OCI names alone, the bytes a client gets for a blob hash
    to the digest it asked for, and the bytes it gets for a manifest hash to the
    digest in the answer's header, whoever pushed them and whatever an upstream sent. *)
Theorem pulls_addressed opts publicKey auth s0 s req c :
  reg_ok s0 → rtc (reg_step opts publicKey auth) s0 s → oq_body req = None →
  (carries (serve (mounted cfg key) OR_get_blob req s).1 c → validateOciDigest (oq_reference req) = inr (sha256 c)) ∧
  (carries (serve (mounted cfg key) OR_get_manifest req s).1 c →
     ("Docker-Content-Digest", SHA256_PREFIX +:+ sha256 c) ∈ or_headers (serve (mounted cfg key) OR_get_manifest req s).1).
Proof.
  intros Hs0 Hsteps Hbody. pose proof (reg_steps_ok _ _ _ _ _ Hs0 Hsteps) as Hs. unfold serve, answer. cbn [oci_handler]. rewrite Hbody. split.
  - pose proof (get_blob_addressed req s Hs) as Hg. destruct (get_oci_blob _ req s) as [[e|r] s']; [by intros ?%error_carries_nothing|apply Hg].
  - pose proof (get_manifest_addressed req s Hs) as Hg. destruct (get_manifest _ req s) as [[e|r] s']; [by intros ?%error_carries_nothing|apply Hg].
Qed.
End pulls.

(** ** Signed manifests in the catalog *)

Section catalog.
Context `{RegHost} `{JsEngine} `{RegCrypto}.

Lemma check_refs_frame (P : Reg → Prop) refs : (∀ n s, P s → P (set_tick n s)) → keeps P (check_refs refs).
Proof.
  intros HP. pose proof (file_op_frame P HP) as Hf. induction refs as [|r refs IH]; cbn [check_refs]; [keep|].
  unfold statBlob, getBlobRecord, fs_statBlob, fileExists, readSidecar. keep.
Qed.

(** What the row keeps of a manifest: all of it, unless its kind is spelled out as
    generic, its date is empty or its signature has an empty part. *)
Definition storable (m : Manifest) : Prop :=
  mf_kind m ≠ Some MK_generic ∧ mf_createdAt m ≠ "" ∧
  ∀ sig, mf_signature m = Some sig → ms_signatureB64 sig ≠ "" ∧ ms_signedBy sig ≠ "".

Lemma row_keeps m bytes pv :
  storable m →
  rowToManifest (mkManifestRow (mf_name m) (mf_version m) (mf_mediaType m) (mf_blobs m) (mf_annotations m)
    (option_map ms_signatureB64 (mf_signature m)) (option_map ms_signedBy (mf_signature m)) bytes (mf_createdAt m)
    (mf_kind m ?? MK_generic) pv (mf_ociMetadata m) (mf_otherMetadata m)) = m.
Proof.
  intros (Hk & _ & Hs). destruct m as [name version mt kind blobs ann sig om other at_]; cbn in *. unfold rowToManifest. cbn.
  assert ((if bool_decide ((kind ?? MK_generic) = MK_generic) then None else Some (kind ?? MK_generic)) = kind) as ->.
  { destruct kind as [[]|]; try done. }
  assert (Hsig : match truthy (option_map ms_signatureB64 sig), truthy (option_map ms_signedBy sig) with
                 | Some b, Some k => Some (mkManifestSignature b k) | _, _ => None end = sig); [|by rewrite Hsig].
  destruct sig as [[b k]|]; [|done]. destruct (Hs _ eq_refl) as [Hb Hkk]. cbn in *. by rewrite !bool_decide_eq_false_2.
Qed.

(** The row of a manifest. *)
Definition row_of (m : Manifest) (bytes : string) (pv : Provenance) : ManifestRow :=
  mkManifestRow (mf_name m) (mf_version m) (mf_mediaType m) (mf_blobs m) (mf_annotations m)
    (option_map ms_signatureB64 (mf_signature m)) (option_map ms_signedBy (mf_signature m)) bytes (mf_createdAt m)
    (mf_kind m ?? MK_generic) (Some pv) (mf_ociMetadata m) (mf_otherMetadata m).

(** A push of a new manifest that returns. *)
Lemma storage_putManifest_inv m pv s m' s' :
  mf_createdAt m ≠ "" → find_first (is_row (mf_name m) (mf_version m)) (rg_manifest s) = None →
  storage_putManifest m pv s = (inr m', s') →
  validateManifestName (mf_name m) = inr () ∧ validateManifestVersion (mf_version m) = inr () ∧
  ∃ s1 p, check_refs (mf_blobs m) s = (inr (), s1) ∧
    s' = set_manifest (rg_manifest s ++ [row_of m (canonicalManifestBytes m) p]) s1.
Proof.
  intros Hat Hnew Hput. unfold storage_putManifest in Hput. apply rbind_inv in Hput as ([] & s1 & Hc & Hput).
  pose proof (check_refs_frame (λ x, rg_manifest x = rg_manifest s) (mf_blobs m) (λ _ _ E, E) s eq_refl) as Hm. rewrite Hc in Hm.
  unfold putManifest in Hput. apply rbind_inv in Hput as ([] & s2 & [Hn ->]%rlift_inv & Hput). apply rbind_inv in Hput as ([] & s2 & [Hv ->]%rlift_inv & Hput).
  destruct (_ =? _)%nat; [done|]. apply rbind_inv in Hput as (ex & s2 & [= <- <-] & Hput). rewrite Hm, Hnew in Hput.
  rewrite (bool_decide_eq_false_2 (mf_createdAt m = "")) in Hput by done. injection Hput as _ <-. split; [done|]. split; [done|].
  do 2 eexists. split; [done|]. cbv [mret RM_ret]. by rewrite Hm.
Qed.

Lemma find_new_row m bytes p l :
  find_first (is_row (mf_name m) (mf_version m)) l = None → find_first (is_row (mf_name m) (mf_version m)) (l ++ [row_of m bytes p]) = Some (row_of m bytes p).
Proof.
  intros Hnew. rewrite find_first_app, Hnew. cbn [find_first].
  by assert (is_row (mf_name m) (mf_version m) (row_of m bytes p) = true) as -> by (by apply is_row_eq).
Qed.

Lemma getManifest_run name version row s :
  validateManifestName name = inr () → validateManifestVersion version = inr () → find_first (is_row name version) (rg_manifest s) = Some row →
  getManifest name version s = (inr (Some (rowToManifest row)), s).
Proof.
  intros Hn Hv Hf. unfold getManifest. rewrite Hn, Hv. erewrite rbind_ok by done. erewrite rbind_ok by done. rewrite rbind_eq.
  cbn [fetchRow rget]. by rewrite Hf.
Qed.

(** CATALOG-ROUNDTRIP.  A manifest that is pushed under a new name and version
    is read back as it was, signature included, and the bytes kept with it are the
    ones that were signed. *)
Theorem catalog_roundtrip m pv s m' s' :
  storable m → find_first (is_row (mf_name m) (mf_version m)) (rg_manifest s) = None →
  storage_putManifest m pv s = (inr m', s') →
  getManifest (mf_name m) (mf_version m) s' = (inr (Some m), s') ∧
  getCanonicalBytes (mf_name m) (mf_version m) s' = (inr (Some (canonicalManifestBytes m)), s').
Proof.
  intros Hst Hnew Hput. destruct (storage_putManifest_inv m pv s m' s') as (Hn & Hv & s1 & p & _ & ->); [by destruct Hst as (_ & ? & _)|done|done|].
  pose proof (find_new_row m (canonicalManifestBytes m) p _ Hnew) as Hf. split.
  - erewrite getManifest_run by done. unfold row_of. by rewrite row_keeps.
  - unfold getCanonicalBytes. rewrite Hn, Hv. erewrite rbind_ok by done. erewrite rbind_ok by done. rewrite rbind_eq.
    cbn [fetchRow rget rg_manifest set_manifest]. by rewrite Hf.
Qed.
End catalog.

(** ** A registry with an upstream *)

#[local] Existing Instance rx_engine.
#[local] Existing Instance rx_good.
#[local] Existing Instance ax_crypto.
#[local] Existing Instance ax_laws.

(** Every manifest the upstream has is the same index, every blob the same bytes. *)
#[local] Instance vx_upstream : Upstream := {|
  fetcher _ url _ :=
    if str_includes url "/manifests/" then inr (mkUpstreamFetchResult 200 [("content-type", OCI_INDEX_V1)] rx_raw)
    else inr (mkUpstreamFetchResult 200 [] rx_blob);
  url_parse _ := None;
  hmac_sha256 k d := k +:+ d;
  process_env _ := None
|}.

Definition vx_options : RegOptions :=
  mkRegOptions (Some (mkAuthOptions false true None None)) DEFAULT_BLOB_MAX_BYTES DEFAULT_BLOB_MAX_BYTES rx_config None None None DEFAULT_TTL_SECONDS.

(** A request, its body of a media type. *)
Definition vx_request (method path : string) (body : option (string * string)) (token : option string) : RegRequest :=
  mkRegRequest (mkRequest (Some method) path [] (option_map (λ t, "Bearer " +:+ t) token) (option_map fst body) None
    (match body with Some (_, b) => [b] | None => [] end) None) None None.

Definition vx_listen : RegRequest → Reg → RegResponse * Reg :=
  reg_listener (auth_options vx_options None) (reg_routes vx_options None).

Definition vx_upstream_row : VirtualUpstreamConfig :=
  mkVirtualUpstreamConfig None None false None (Some "ghcr") None None None None None None None None.

Definition vx_mirror : Reg := (addVirtualUpstream "acme" VK_oci "https://up.example" vx_upstream_row None rx_empty).2.

Definition vx_path (reference : string) : string := "/v2/acme/app/" +:+ reference.
Definition vx_digest (c : ascii) : string := SHA256_PREFIX +:+ hex_block 64 c.
Definition vx_pull (reference : string) : RegRequest := vx_request "GET" (vx_path reference) None (Some ax_token).
Definition vx_push : RegRequest := vx_request "PUT" (vx_path "manifests/v1") (Some (OCI_INDEX_V1, rx_raw)) (Some ax_token).

(** A pull of the blob and of a tag, then a push. *)
Definition vx_busy : Reg :=
  (vx_listen vx_push (vx_listen (vx_pull "manifests/latest") (vx_listen (vx_pull ("blobs/" +:+ vx_digest "a")) vx_mirror).2).2).2.

Lemma vx_step req s :
  writes_oci_row (reg_routes vx_options None) req = false → reg_step vx_options None (auth_options vx_options None) s (vx_listen req s).2.
Proof. apply rs_request. Qed.

Lemma registry_integrity_witness :
  map tg_tag (rg_tag vx_busy) = ["latest"; "v1"] ∧ rg_files vx_busy !! hex_block 64 "a" = Some rx_blob ∧
  rg_fetches vx_busy = ["https://up.example/v2/app/blobs/" +:+ vx_digest "a"; "https://up.example/v2/app/manifests/latest"] ∧ reg_ok vx_busy.
Proof.
  split; [by vm_compute|]. split; [by vm_compute|]. split; [by vm_compute|].
  apply (registry_integrity vx_options None (auth_options vx_options None) rx_empty vx_busy rx_empty_ok).
  unfold vx_busy. do 3 (eapply rtc_r; [|apply vx_step; by vm_compute]). eapply rtc_r; [apply rtc_refl|]. apply rs_addUpstream.
Defined.

Lemma refused_frozen_witness :
  ∃ app, registry_app vx_options = inr app ∧ rr_status (app (vx_request "DELETE" (vx_path "manifests/v1") None (Some "stranger")) vx_busy).1 = 401 ∧
    frozen vx_busy (app (vx_request "DELETE" (vx_path "manifests/v1") None (Some "stranger")) vx_busy).2.
Proof.
  exists vx_listen. split; [exact (registry_app_eq vx_options None eq_refl)|]. split; [by vm_compute|].
  refine (proj2 (refused_frozen vx_options None vx_listen (vx_request "DELETE" (vx_path "manifests/v1") None (Some "stranger")) vx_busy _ _ _ _)).
  - reflexivity.
  - exact (registry_app_eq vx_options None eq_refl).
  - by vm_compute.
  - intros ctx Ha. inversion Ha; subst; try done.
Defined.

Lemma pulls_addressed_witness :
  carries (serve (mounted rx_config None) OR_get_blob (get_request rx_name (vx_digest "a") None) vx_mirror).1 rx_blob ∧
  validateOciDigest (vx_digest "a") = inr (sha256 rx_blob).
Proof.
  assert (Hc : carries (serve (mounted rx_config None) OR_get_blob (get_request rx_name (vx_digest "a") None) vx_mirror).1 rx_blob) by (by vm_compute).
  split; [exact Hc|]. refine (proj1 (pulls_addressed rx_config None vx_options None (auth_options vx_options None) rx_empty vx_mirror
    (get_request rx_name (vx_digest "a") None) rx_blob _ _ _) Hc).
  - apply rx_empty_ok.
  - apply rtc_once, rs_addUpstream.
  - reflexivity.
Defined.

Definition cx_signed (m : Manifest) : Manifest :=
  with_inline_signature m (match fst (signManifest m "private:k" rx_empty) with inr sig => Some sig | inl _ => None end).
Definition cx_stored (m : Manifest) (s : Reg) : Reg := (storage_putManifest m None s).2.
Definition cx_read (s : Reg) : option Manifest :=
  match fst (getManifest "acme/tool" "1.0.0" s) with inr m => m | inl _ => None end.

Lemma catalog_roundtrip_witness :
  is_null (mf_signature (cx_signed ax_manifest)) = false ∧
  getManifest "acme/tool" "1.0.0" (cx_stored (cx_signed ax_manifest) rx_empty)
    = (inr (Some (cx_signed ax_manifest)), cx_stored (cx_signed ax_manifest) rx_empty).
Proof.
  split; [by vm_compute|].
  refine (proj1 (catalog_roundtrip (cx_signed ax_manifest) None rx_empty (cx_signed ax_manifest) _ _ _ _)).
  - split_and!; [by vm_compute|by vm_compute|]. intros sig E. vm_compute in E. injection E as <-. by split.
  - reflexivity.
  - by vm_compute.
Defined.

(** *** What goes wrong *)

Definition vx_body (r : RegResponse) : option string := match rr_body r with RB_oci (OB_bytes b) => Some b | _ => None end.

(** A manifest pulled through by digest is not compared with the digest asked for:
    the upstream's index comes back for a digest it does not have. *)
Example proxied_digest_not_compared :
  let '(r, _) := vx_listen (vx_pull ("manifests/" +:+ vx_digest "d")) vx_mirror in
  rr_status r = 200 ∧ vx_body r = Some rx_raw ∧ SHA256_PREFIX +:+ sha256 rx_raw = vx_digest "b".
Proof. by vm_compute. Qed.

(** The generic routes take the facade's names: a manifest put there is served
    under a digest that its bytes do not have. *)
Definition vx_generic (method : string) (hex : ascii) (body : option (string * string)) : RegRequest :=
  vx_request method ("/v1/manifests/oci%2Facme%2Fapp/" +:+ hex_block 64 hex) body (Some ax_token).

Example generic_put_breaks_digests :
  let body := json_stringify (JObj [("mediaType", JStr OCI_INDEX_V1); ("blobs", JArr [])]) in
  let '(r1, s1) := vx_listen (vx_generic "PUT" "b" (Some ("application/json", body))) rx_empty in
  let '(r2, _) := vx_listen (vx_pull ("manifests/" +:+ vx_digest "b")) s1 in
  rr_status r1 = 201 ∧ rr_status r2 = 200 ∧ option_map (λ b, SHA256_PREFIX +:+ sha256 b) (vx_body r2) = Some (vx_digest "0").
Proof. by vm_compute. Qed.

(** A push of an image over such a row is answered as if it had been stored, and the
    other bytes are served for it. *)
Example push_over_generic_put :
  let body := json_stringify (JObj [("mediaType", JStr OCI_INDEX_V1); ("blobs", JArr [])]) in
  let '(r1, s1) := vx_listen (vx_generic "PUT" "b" (Some ("application/json", body))) rx_empty in
  let '(r2, s2) := vx_listen vx_push s1 in
  let '(r3, _) := vx_listen (vx_pull "manifests/v1") s2 in
  rr_status r1 = 201 ∧ rr_status r2 = 201 ∧ rr_status r3 = 200 ∧ is_Some (vx_body r3) ∧ vx_body r3 ≠ Some rx_raw.
Proof. vm_compute. split_and!; try reflexivity; [by eexists|discriminate]. Qed.

(** And a manifest deleted there leaves its tags behind, pointing at nothing. *)
Example generic_delete_leaves_tags :
  let '(r1, s1) := vx_listen vx_push rx_empty in
  let '(r2, s2) := vx_listen (vx_generic "DELETE" "b" None) s1 in
  let '(r3, _) := vx_listen (vx_pull "manifests/v1") s2 in
  rr_status r1 = 201 ∧ rr_status r2 = 204 ∧ map tg_tag (rg_tag s2) = ["v1"] ∧ rg_manifest s2 = [] ∧ rr_status r3 = 404.
Proof. by vm_compute. Qed.

(** A malformed percent escape in a path is an internal error. *)
Example bad_percent_is_500 : rr_status (vx_listen (vx_pull "manifests/%zz") rx_empty).1 = 500.
Proof. by vm_compute. Qed.

(** A manifest that says its kind is generic is read back without its kind: its own
    signature no longer covers it. *)
Definition cx_generic : Manifest := mkManifest "acme/tool" "1.0.0" "application/octet-stream" (Some MK_generic) [] None None None [] "2025-01-01T00:00:00.000Z".

Example generic_kind_breaks_signature :
  verifyManifestInline (cx_signed cx_generic) "public:k" = inr true ∧
  option_map (λ m, verifyManifestInline m "public:k") (cx_read (cx_stored (cx_signed cx_generic) rx_empty))
  = Some (sig_fail "signature is cryptographically invalid (manifest tampered or wrong key)").
Proof. by vm_compute. Qed.

(** A signature that is pushed after the manifest is dropped, and the push is
    acknowledged all the same. *)
Example late_signature_dropped :
  let s1 := cx_stored ax_manifest rx_empty in
  (∃ m, fst (storage_putManifest (cx_signed ax_manifest) None s1) = inr m) ∧
  option_map mf_signature (cx_read (cx_stored (cx_signed ax_manifest) s1)) = Some None.
Proof. split; [eexists; by vm_compute|by vm_compute]. Qed.
