(* ===== verification/CargoSpec.v ===== *)
(** What the Cargo facade promises: index paths and publish bodies are read exactly
    as they are written, a published crate is downloaded byte by byte, and a yank
    changes one flag. *)

From stdpp Require Import gmap strings.
From S2P Require Import Prelude JsTime JsVal JsInt Manifest Signing Build BuildYaml Probes ReleaseDeploy Http Worker SigningSpec JsonReader Fixture HttpSpec.
From S2P Require Import Registry Oci OciApp RegistryAuth RegistrySigning OciVirtual Cargo RegistryApp OciSpec RegistryAuthSpec RegistrySpec.

(** ** Index paths *)

Lemma crate_char_slash c : is_crate_char c = true → is_char "/" c = false ∧ is_char "/" (to_lower c) = false.
Proof. by destruct c as [[] [] [] [] [] [] [] []]. Qed.

Lemma crate_no_slash s : all_chars is_crate_char s = true → all_chars (λ c, negb (is_char "/" c)) s = true.
Proof.
  induction s as [|c s IH]; [done|]. cbn [all_chars]. intros Hs. bool_hyps.
  destruct (crate_char_slash c) as [-> _]; [done|]. by apply IH.
Qed.

Lemma split_index_path name :
  is_crate_name name = true → path_candidate (split_on "/" (index_path name)) = Some name ∧ starts_with "/" (index_path name) = false.
Proof.
  intros Hn. unfold is_crate_name in Hn. apply andb_true_iff in Hn as [[Hl _]%andb_true_iff Hc]. pose proof (crate_no_slash name Hc) as Hs.
  destruct name as [|a [|b [|c [|d r]]]]; [done| | | |]; cbn [all_chars] in Hc.
  - unfold index_path. cbn [lower String.length]. change ("1/" +:+ ?n) with ("1" +:+ String "/" n). rewrite split_on_cons by done.
    by rewrite split_on_none.
  - unfold index_path. cbn [lower String.length]. change ("2/" +:+ ?n) with ("2" +:+ String "/" n). rewrite split_on_cons by done.
    by rewrite split_on_none.
  - bool_hyps. unfold index_path. cbn [lower String.length]. change (str_take 1 (String (to_lower a) ?t)) with (String (to_lower a) "").
    change ("3/" +:+ String (to_lower a) "" +:+ "/" +:+ ?n) with ("3" +:+ String "/" (String (to_lower a) "" +:+ String "/" n)).
    rewrite split_on_cons by done. rewrite split_on_cons by (cbn; by destruct (crate_char_slash a) as [_ ->]). by rewrite split_on_none.
  - bool_hyps. unfold index_path. cbn [lower String.length].
    change (str_take 2 (String (to_lower a) (String (to_lower b) ?t))) with (String (to_lower a) (String (to_lower b) "")).
    assert (str_take 2 (str_drop 2 (String (to_lower a) (String (to_lower b) (String (to_lower c) (String (to_lower d) (lower r))))))
      = String (to_lower c) (String (to_lower d) "")) as ->.
    { change (String (to_lower a) (String (to_lower b) ?t)) with (String (to_lower a) (String (to_lower b) "") +:+ t).
      rewrite (str_drop_app (String (to_lower a) (String (to_lower b) ""))). cbn. by destruct (lower r). }
    destruct (crate_char_slash a) as [_ Ha]; [done|]. destruct (crate_char_slash b) as [_ Hb]; [done|].
    destruct (crate_char_slash c) as [_ Hcc]; [done|]. destruct (crate_char_slash d) as [_ Hd]; [done|].
    change (?x +:+ "/" +:+ ?y +:+ "/" +:+ ?n) with (x +:+ String "/" (y +:+ String "/" n)).
    rewrite split_on_cons by (cbn; by rewrite Ha, Hb). rewrite split_on_cons by (cbn; by rewrite Hcc, Hd). rewrite split_on_none by done.
    split; [done|]. change (bool_decide ("/"%char = to_lower a) && true = false). rewrite bool_decide_eq_false_2; [done|]. intros E. by rewrite <- E in Ha.
Qed.

(** SPARSE-INDEX-PATHS.  The path of an index request names a crate exactly when
    it is the path of that crate, with or without a leading slash: every name is
    found again from its path, and a path that is not the one of its name is
    refused. *)
Theorem sparse_index_paths suffix name :
  crateNameFromSparseIndexPath suffix = Some name ↔
  ∃ path, sparseIndexPathFor name = inr path ∧ (suffix = path ∨ suffix = "/" +:+ path).
Proof.
  unfold crateNameFromSparseIndexPath, sparseIndexPathFor, validateCargoCrateName. cbv zeta. split.
  - intros Hp.
    assert (is_crate_name name = true ∧ (if starts_with "/" suffix then str_drop 1 suffix else suffix) = index_path name) as [Hn Hi].
    { destruct (path_candidate _) as [c|]; [|done]. destruct (is_crate_name c) eqn:Hn; [|done]. cbn [negb] in Hp.
      destruct (index_path c =?s _) eqn:Hi; [|done]. apply bool_decide_eq_true in Hi. injection Hp as <-. done. }
    exists (index_path name). rewrite Hn. split; [done|]. clear Hp. destruct (starts_with "/" suffix) eqn:Hs; [right|by left].
    destruct suffix as [|c rest]; [done|]. cbn [starts_with] in Hs. apply andb_true_iff in Hs as [<-%bool_decide_eq_true _].
    assert (str_drop 1 (String "/" rest) = rest) as Hd by apply (str_drop_app "/" rest). rewrite Hd in Hi. by rewrite <- Hi.
  - intros (path & Hp & Hs). destruct (is_crate_name name) eqn:Hn; [|done]. injection Hp as <-. destruct (split_index_path name Hn) as [Hc Hst].
    assert ((if starts_with "/" suffix then str_drop 1 suffix else suffix) = index_path name) as ->.
    { destruct Hs as [->| ->]; [by rewrite Hst|]. rewrite (starts_with_app "/"). apply (str_drop_app "/"). }
    by rewrite Hc, Hn, bool_decide_eq_true_2.
Qed.

(** ** Publish bodies *)

Definition byte (n : Z) : ascii := Ascii.ascii_of_nat (Z.to_nat (n mod 256)).

(** A 32-bit number, least significant byte first. *)
Definition le32 (n : Z) : string :=
  String (byte n) (String (byte (n / 2 ^ 8)) (String (byte (n / 2 ^ 16)) (String (byte (n / 2 ^ 24)) ""))).

(** The body that cargo publish sends. *)
Definition publish_body (text tarball : string) : string := le32 (len text) +:+ text +:+ le32 (len tarball) +:+ tarball.

Lemma code_byte n : Z.of_nat (code (byte n)) = n mod 256.
Proof.
  unfold code, byte. pose proof (Z.mod_pos_bound n 256). rewrite Ascii.nat_ascii_embedding by lia. lia.
Qed.

Lemma byte_at_app a b i : byte_at (String.length a + i) (a +:+ b) = byte_at i b.
Proof. unfold byte_at. induction a as [|c a IH]; [done|]. rewrite str_app_cons. exact IH. Qed.

Lemma read_app a b : readUInt32LE (a +:+ b) (String.length a) = readUInt32LE b 0.
Proof.
  unfold readUInt32LE. rewrite <- (Nat.add_0_r (String.length a)) at 1. by rewrite !byte_at_app.
Qed.

Lemma read_le32 n rest : 0 ≤ n < 2 ^ 32 → readUInt32LE (le32 n +:+ rest) 0 = n.
Proof.
  intros Hn. unfold readUInt32LE, le32, byte_at. rewrite !str_app_cons. cbn [String.get Nat.add].
  rewrite !code_byte.
  rewrite <- (Z.mod_small n (2 ^ 32)) at 5 by lia. Z.to_euclidean_division_equations. lia.
Qed.

Lemma le32_read a rest : String.length a = 4%nat → le32 (readUInt32LE (a +:+ rest) 0) = a ∧ 0 ≤ readUInt32LE (a +:+ rest) 0 < 2 ^ 32.
Proof.
  destruct a as [|x [|y [|z [|t [|]]]]]; try done. intros _. unfold readUInt32LE, byte_at. rewrite !str_app_cons. cbn [String.get Nat.add].
  pose proof (code_bound x). pose proof (code_bound y). pose proof (code_bound z). pose proof (code_bound t).
  split; [|lia]. set (n := _ + _ + _ + _).
  assert (Hb : ∀ m c, m mod 256 = Z.of_nat (code c) → byte m = c).
  { intros m c E. unfold byte. rewrite E, Nat2Z.id. apply code_ascii. }
  unfold le32. rewrite (Hb n x), (Hb (n / 2 ^ 8) y), (Hb (n / 2 ^ 16) z), (Hb (n / 2 ^ 24) t); [done|..];
    subst n; Z.to_euclidean_division_equations; lia.
Qed.

Lemma str_split n s : (n ≤ String.length s)%nat → ∃ a b, s = a +:+ b ∧ String.length a = n.
Proof.
  revert n. induction s as [|c s IH]; intros n Hn; (destruct n as [|n]; [by eexists "", _|]); cbn [String.length] in Hn; [lia|].
  destruct (IH n) as (a & b & -> & <-); [lia|]. by exists (String c a), b.
Qed.

Lemma str_take_app a b : str_take (String.length a) (a +:+ b) = a.
Proof. unfold str_take. induction a as [|c a IH]; [by destruct b|]. rewrite str_app_cons. cbn. by rewrite IH. Qed.

Section bodies.
Context `{JsEngine}.

Lemma publish_body_written body metadata name vers tarball :
  parsePublishBody body = inr (metadata, name, vers, tarball) →
  ∃ text, body = publish_body text tarball ∧ len text < 2 ^ 32 ∧ len tarball < 2 ^ 32 ∧
    JSON_parse text = Some metadata ∧ validatePublishMetadata metadata = inr (name, vers).
Proof.
  unfold parsePublishBody. cbv zeta. fold (len body).
  destruct (len body <? 8) eqn:E8; [done|]. destruct (len body <? 4 + readUInt32LE body 0 + 4) eqn:Em; [done|].
  destruct (str_split 4 body) as (a & b & -> & Ha); [unfold len in E8; lia|].
  destruct (le32_read a b Ha) as [Hle Hr]. set (n := readUInt32LE (a +:+ b) 0) in *.
  assert (Hlen : len (a +:+ b) = 4 + len b) by (unfold len; rewrite str_app_length, Ha; lia). rewrite Hlen in *.
  destruct (str_split (Z.to_nat n) b) as (text & c & -> & Ht); [unfold len in *; rewrite str_app_length in *; lia|].
  assert (Hn : n = len text) by (unfold len; lia). rewrite len_app in *.
  destruct (str_split 4 c) as (l & tar & -> & Hl); [unfold len in *; rewrite str_app_length in *; lia|].
  assert (Hc : len (l +:+ tar) = 4 + len tar) by (unfold len; rewrite str_app_length, Hl; lia). rewrite Hc.
  assert (str_drop 4 (a +:+ text +:+ l +:+ tar) = text +:+ l +:+ tar) as -> by (rewrite <- Ha; apply str_drop_app).
  rewrite <- Ht, str_take_app. destruct (JSON_parse text) as [v|] eqn:Ej; [|done].
  assert (readUInt32LE (a +:+ text +:+ l +:+ tar) (Z.to_nat (4 + n)) = readUInt32LE (l +:+ tar) 0) as ->.
  { rewrite str_app_assoc. replace (Z.to_nat (4 + n)) with (String.length (a +:+ text)) by (rewrite str_app_length; lia). apply read_app. }
  destruct (le32_read l tar Hl) as [Hll Hlr]. destruct (_ =? _) eqn:Et; [|done]. cbn [negb].
  assert (str_drop (Z.to_nat (4 + n + 4)) (a +:+ text +:+ l +:+ tar) = tar) as ->.
  { rewrite !str_app_assoc. replace (Z.to_nat (4 + n + 4)) with (String.length ((a +:+ text) +:+ l)) by (rewrite !str_app_length; lia). apply str_drop_app. }
  intros Hv. destruct (validatePublishMetadata v) as [|nv] eqn:Ev; [done|]. injection Hv as <- <- <- <-. exists text.
  assert (readUInt32LE (l +:+ tar) 0 = len tar) as Htar by (apply Z.eqb_eq in Et; lia).
  split; [|split; [lia|split; [lia|split; [done|by destruct nv]]]]. unfold publish_body. rewrite <- Htar, Hll, <- Hn. by rewrite Hle.
Qed.

Lemma publish_body_read text metadata name vers tarball :
  len text < 2 ^ 32 → len tarball < 2 ^ 32 → JSON_parse text = Some metadata → validatePublishMetadata metadata = inr (name, vers) →
  parsePublishBody (publish_body text tarball) = inr (metadata, name, vers, tarball).
Proof.
  intros Ht Hr Hj Hv. unfold parsePublishBody, publish_body. cbv zeta. fold (len (le32 (len text) +:+ text +:+ le32 (len tarball) +:+ tarball)).
  assert (H4 : ∀ n, String.length (le32 n) = 4%nat) by done.
  assert (Hlen : len (le32 (len text) +:+ text +:+ le32 (len tarball) +:+ tarball) = 8 + len text + len tarball).
  { unfold len. rewrite !str_app_length, !H4. lia. }
  rewrite Hlen. assert (0 ≤ len text ∧ 0 ≤ len tarball) as [Hp1 Hp2] by (unfold len; lia).
  rewrite read_le32 by lia. replace (8 + len text + len tarball <? 8) with false by lia.
  replace (8 + len text + len tarball <? 4 + len text + 4) with false by lia.
  assert (str_drop 4 (le32 (len text) +:+ text +:+ le32 (len tarball) +:+ tarball) = text +:+ le32 (len tarball) +:+ tarball) as ->
    by apply (str_drop_app (le32 (len text))).
  replace (Z.to_nat (len text)) with (String.length text) by (unfold len; lia). rewrite str_take_app, Hj.
  assert (readUInt32LE (le32 (len text) +:+ text +:+ le32 (len tarball) +:+ tarball) (Z.to_nat (4 + len text)) = len tarball) as ->.
  { rewrite str_app_assoc. replace (Z.to_nat (4 + len text)) with (String.length (le32 (len text) +:+ text)) by (rewrite str_app_length, H4; unfold len; lia).
    rewrite read_app. apply read_le32. lia. }
  replace (4 + len text + 4 + len tarball =? 8 + len text + len tarball) with true by lia. cbn [negb].
  assert (str_drop (Z.to_nat (4 + len text + 4)) (le32 (len text) +:+ text +:+ le32 (len tarball) +:+ tarball) = tarball) as ->.
  { rewrite !str_app_assoc. replace (Z.to_nat (4 + len text + 4)) with (String.length ((le32 (len text) +:+ text) +:+ le32 (len tarball)))
      by (rewrite !str_app_length, !H4; unfold len; lia). apply str_drop_app. }
  by rewrite Hv.
Qed.

(** C28: PUBLISH-BODY.  A publish body is read as this metadata and this tarball
    exactly when it is their encoding: two length prefixes of 32 bits, little
    endian, in front of a JSON text with a crate name and a version and of the
    bytes of the tarball, and nothing else. *)
Theorem publish_body_exact body metadata name vers tarball :
  parsePublishBody body = inr (metadata, name, vers, tarball) ↔
  ∃ text, body = publish_body text tarball ∧ len text < 2 ^ 32 ∧ len tarball < 2 ^ 32 ∧
    JSON_parse text = Some metadata ∧ validatePublishMetadata metadata = inr (name, vers).
Proof.
  split; [apply publish_body_written|]. intros (text & -> & Ht & Hr & Hj & Hv). by apply publish_body_read.
Qed.
End bodies.

(** ** Publishing, then downloading *)

Section publish.
Context `{RegHost} `{JsEngine} `{RegCrypto} `{Upstream}.
Hypothesis healthy : ∀ n, io n = Io_ok.
Hypothesis sha_hex : ∀ c, is_hex_of 64 (sha256 c) = true.

(** The tables that a blob and the clock do not touch. *)
Definition same_catalog (s s' : Reg) : Prop :=
  rg_manifest s' = rg_manifest s ∧ rg_audit s' = rg_audit s ∧ (rg_tick s ≤ rg_tick s')%nat.

(** The content is on disk, or one with the same digest. *)
Definition on_disk (c : string) (s : Reg) : Prop := ∃ x, rg_files s !! sha256 c = Some x ∧ sha256 x = sha256 c.

Lemma fs_putBlob_run c ct s :
  reg_ok s → disk_ok s →
  ∃ b s', fs_putBlob c ct s = (inr b, s') ∧ bl_sha256 b = sha256 c ∧ 0 ≤ bl_size b ∧ on_disk c s' ∧ same_catalog s s'.
Proof.
  intros Hok Hd. unfold fs_putBlob. cbv zeta. pose proof (file_op_run healthy) as Hop.
  rewrite (rbind_ok _ _ _ _ _ (Hop s)), (rbind_ok _ _ _ _ _ (Hop _)), rbind_eq. unfold validateSha256. rewrite sha_hex. cbn [negb rlift].
  rewrite (rbind_ok _ _ _ _ _ (Hop _)), rbind_eq. unfold readSidecar. rewrite (rbind_ok _ _ _ _ _ (Hop _)), rbind_eq.
  cbn [rget rg_sidecars set_tick rg_tick]. destruct (rg_sidecars s !! sha256 c) as [x|] eqn:Es.
  - destruct (Hd _ _ Es) as (m & y & -> & Hy & Hsz). cbn [mret RM_ret]. rewrite (rbind_ok _ _ _ _ _ (unlink_run healthy _ _)).
    do 2 eexists. split; [reflexivity|]. split; [done|]. split; [cbn; rewrite Hsz; unfold len; lia|].
    split; [|unfold same_catalog; cbn; by repeat split; lia]. exists y. split; [done|]. by apply (ok_files s Hok).
  - cbn [mret RM_ret]. rewrite (rbind_ok _ _ _ _ _ (Hop _)), rbind_eq. cbn [rput]. rewrite rbind_eq. unfold reg_nowIso.
    rewrite (rbind_ok _ _ _ _ _ (reg_now_run _)). cbn [mret RM_ret]. rewrite (rbind_ok _ _ _ _ _ (writeSidecar_run healthy _ _ _)).
    do 2 eexists. split; [reflexivity|]. split; [done|]. split; [cbn; lia|]. split; [|unfold same_catalog; cbn; by repeat split; lia].
    exists c. cbn. by rewrite lookup_insert_eq.
Qed.

Lemma storage_putBlob_run c ct s :
  reg_ok s → disk_ok s →
  ∃ b s', storage_putBlob c ct s = (inr b, s') ∧ bl_sha256 b = sha256 c ∧ known (sha256 c) s' ∧ on_disk c s' ∧ same_catalog s s'.
Proof.
  intros Hok Hd. destruct (fs_putBlob_run c ct s Hok Hd) as (b & s1 & E1 & Hb & Hsz & Hc & Hs).
  unfold storage_putBlob. rewrite (rbind_ok _ _ _ _ _ E1). destruct (recordBlob_run b s1 Hsz) as (s2 & E2 & Hk & Es2).
  rewrite (rbind_ok _ _ _ _ _ E2). do 2 eexists. split; [reflexivity|]. split; [done|]. rewrite Hb in Hk. split; [done|]. by rewrite Es2.
Qed.

Lemma check_refs_run refs s : Forall (λ r, known (br_sha256 r) s) refs → check_refs refs s = (inr (), s).
Proof.
  induction 1 as [|r refs [b Hb] _ IH]; [done|]. cbn [check_refs]. unfold statBlob, getBlobRecord. rewrite !rbind_eq. cbn [rget].
  rewrite Hb. exact IH.
Qed.

(** A new manifest over blobs that are known is stored. *)
Lemma putManifest_run m pv s :
  validateManifestName (mf_name m) = inr () → validateManifestVersion (mf_version m) = inr () → mf_mediaType m ≠ "" → mf_createdAt m ≠ "" →
  Forall (λ r, known (br_sha256 r) s) (mf_blobs m) → find_first (is_row (mf_name m) (mf_version m)) (rg_manifest s) = None →
  ∃ m' p, storage_putManifest m pv s = (inr m', set_manifest (rg_manifest s ++ [row_of m (canonicalManifestBytes m) p]) s).
Proof.
  intros Hn Hv Hm Hat Hr Hnew. unfold storage_putManifest. rewrite (rbind_ok _ _ _ _ _ (check_refs_run _ _ Hr)). unfold putManifest.
  rewrite Hn, Hv, rbind_eq. cbn [rlift]. rewrite rbind_eq. cbn [rlift].
  assert ((String.length (mf_mediaType m) =? 0)%nat = false) as -> by (by destruct (mf_mediaType m)).
  rewrite rbind_eq. cbn [fetchRow rget]. rewrite Hnew, (bool_decide_eq_false_2 (mf_createdAt m = "")) by done. by do 2 eexists.
Qed.

Lemma getBlob_run sha x s : is_hex_of 64 sha = true → rg_files s !! sha = Some x → getBlob sha s = (inr x, set_tick (2 + rg_tick s) s).
Proof.
  intros Hsha Hx. unfold getBlob, validateSha256. rewrite Hsha, rbind_eq. cbn [negb rlift].
  rewrite (rbind_ok _ _ _ _ _ (fileExists_run healthy sha x s Hx)). cbn [negb]. rewrite (rbind_ok _ _ _ _ _ (file_op_run healthy _)), rbind_eq.
  cbn [rget rg_files set_tick]. by rewrite Hx.
Qed.

(** A body that carries a crate the registry can keep. *)
Record publishable (max : Z) (org body name vers mname tarball : string) (metadata meta : json) : Prop := {
  pb_org : validateCargoOrgName org = inr ();
  pb_size : len body ≤ max;
  pb_body : parsePublishBody body = inr (metadata, name, vers, tarball);
  pb_meta : publishMetadataToStored metadata name vers (sha256 tarball) = inr meta;
  pb_mname : cargoManifestName org name = inr mname;
  pb_name : validateManifestName mname = inr ();
  pb_version : validateManifestVersion vers = inr ();
  pb_vers : bad_crate_version vers = false
}.

(** The manifest of a crate. *)
Definition crate_manifest (name vers mname tarball createdAt : string) (meta : json) : Manifest :=
  mkManifest mname vers CRATE_MEDIA_TYPE (Some MK_cargo)
    [mkBlobRef "application/x-tar" (sha256 tarball) (Some (num_of_Z (len tarball))) (Some (name +:+ "-" +:+ vers +:+ ".crate"))]
    None None None [(MK_cargo, meta)] createdAt.

Lemma publish_run max org body name vers mname tarball metadata meta token s :
  publishable max org body name vers mname tarball metadata meta →
  reg_ok s → disk_ok s → fresh_audit s → find_first (is_row mname vers) (rg_manifest s) = None →
  ∃ createdAt p s', put_crate max org (Some (SB_bytes body)) token s = (inr (mkCargoResponse 200 json_headers CB_warnings), s') ∧
    createdAt ≠ "" ∧ on_disk tarball s' ∧
    let m := crate_manifest name vers mname tarball createdAt meta in
    rg_manifest s' = rg_manifest s ++ [row_of m (canonicalManifestBytes m) p].
Proof.
  intros [] Hok Hd Hfr Hnew. unfold put_crate. rewrite pb_org0, rbind_eq. cbn [rlift]. unfold readBodyStream, readChunk.
  rewrite !rbind_eq. cbn [mret RM_ret]. fold (len body). replace (max <? len body) with false by lia. cbn [mret RM_ret].
  rewrite pb_body0, rbind_eq. cbn [rlift].
  destruct (storage_putBlob_run tarball (Some "application/x-tar") s Hok Hd) as (b & s1 & E1 & Hb & Hk & Hc & Hm & Ha & Ht).
  rewrite (rbind_ok _ _ _ _ _ E1), Hb, bool_decide_eq_true_2 by done. cbn [negb]. rewrite pb_meta0, rbind_eq. cbn [rlift].
  rewrite pb_mname0, rbind_eq. cbn [rlift]. unfold reg_nowIso. rewrite rbind_eq, (rbind_ok _ _ _ _ _ (reg_now_run _)). cbn [mret RM_ret]. cbv zeta.
  set (at_ := toISOString _). assert (Hat : at_ ≠ "") by (unfold at_, toISOString, iso_year; destruct (_ && _); [done|]; by destruct (_ <? _)).
  clearbody at_. fold (len tarball). change (mkManifest mname vers CRATE_MEDIA_TYPE _ _ _ _ _ _ _) with (crate_manifest name vers mname tarball at_ meta).
  set (m := crate_manifest name vers mname tarball at_ meta). set (s2 := set_tick _ s1).
  destruct (putManifest_run m (Some (mkProvenance PS_upload None at_ (option_map last16 token) None)) s2) as (m' & p & E2); try done.
  { by apply Forall_singleton. }
  { cbn. by rewrite Hm. }
  set (s3 := set_manifest _ _) in E2. erewrite rbind_ok by (unfold rcatch; by rewrite E2).
  destruct (appendAudit_run AA_upload AE_cargo_crate (mname +:+ "@" +:+ vers) (token ?? "anonymous")
    (Some [("tarball_bytes", JInt (len tarball)); ("cksum", JStr (sha256 tarball)); ("org", JStr org)]) s3) as [e E3].
  { intros n Hn x Hx. cbn in Hn, Hx. rewrite Ha in Hx. apply (Hfr n); [lia|done]. }
  rewrite (rbind_ok _ _ _ _ _ E3). exists at_, p. eexists. split; [reflexivity|]. split; [done|]. split; [done|]. cbn. by rewrite Hm.
Qed.

(** C26: PUBLISH-DOWNLOAD.  A publish body within the size limit that carries a crate
    whose stored name and version the index accepts (which a name with a dash at its
    end is not, although the facade accepts it) is published in a valid organisation
    when the version is new, the disk works and the state of the registry is
    consistent, and a download of it then returns the bytes of the tarball, if no
    other bytes have their hash. *)
Theorem publish_download max org body name vers mname tarball metadata meta token s :
  publishable max org body name vers mname tarball metadata meta →
  reg_ok s → disk_ok s → fresh_audit s → find_first (is_row mname vers) (rg_manifest s) = None →
  (∀ x, sha256 x = sha256 tarball → x = tarball) →
  ∃ s' s'', put_crate max org (Some (SB_bytes body)) token s = (inr (mkCargoResponse 200 json_headers CB_warnings), s') ∧
    get_crate org name vers s' = (inr (tar_reply name vers (Some (num_to_string (num_of_Z (len tarball)))) tarball), s'').
Proof.
  intros Hp Hok Hd Hfr Hnew Hsha. destruct (publish_run _ _ _ _ _ _ _ _ _ token s Hp Hok Hd Hfr Hnew) as (at_ & p & s' & E & Hat & (x & Hx & Hs) & Hrow).
  apply Hsha in Hs as ->. destruct Hp. exists s'. eexists. split; [exact E|]. unfold get_crate.
  assert ((validateCargoOrgName org ≫= λ _, validateCargoCrateName name) = inr ()) as ->.
  { rewrite pb_org0. unfold cargoManifestName in pb_mname0. rewrite pb_org0 in pb_mname0. cbn in *. by destruct (validateCargoCrateName name) as [|[]]. }
  rewrite pb_vers0, pb_mname0, rbind_eq. cbn [rlift].
  set (m := crate_manifest name vers mname tarball at_ meta) in Hrow. set (bytes := canonicalManifestBytes m) in Hrow.
  assert (Hg : getManifest mname vers s' = (inr (Some m), s')).
  { rewrite (getManifest_run mname vers (row_of m bytes p)); [|done|done|].
    - unfold row_of. rewrite row_keeps; [done|]. split; [done|]. by split.
    - rewrite Hrow. by apply (find_new_row m). }
  rewrite (rbind_ok _ _ _ _ _ Hg). cbn [mf_kind m crate_manifest mf_blobs]. rewrite bool_decide_eq_true_2 by done. cbn [negb br_sha256 br_size].
  erewrite rbind_ok by (unfold rcatch; by rewrite (rbind_ok _ _ _ _ _ (getBlob_run _ _ _ (sha_hex tarball) Hx))). reflexivity.
Qed.
End publish.

(** ** Yanking *)

Lemma get_set_prop k v o : get_prop k (set_prop k v o) = Some v.
Proof.
  unfold set_prop, get_prop. destruct (existsb _ o) eqn:E.
  - induction o as [|[k' v'] o IH]; [done|]. cbn in E |- *. destruct (k' =?s k) eqn:Ek; cbn; [by rewrite bool_decide_eq_true_2|]. rewrite Ek. by apply IH.
  - rewrite find_first_app, (proj2 (find_first_None _ _)) by (intros x Hx; apply (existsb_false _ _ E x Hx)). cbn. by rewrite bool_decide_eq_true_2.
Qed.

Lemma get_set_prop_ne k k' v o : k' ≠ k → get_prop k' (set_prop k v o) = get_prop k' o.
Proof.
  intros Hk. unfold set_prop, get_prop. destruct (existsb _ o).
  - induction o as [|[j w] o IH]; [done|]. cbn. destruct (j =?s k) eqn:Ej; cbn.
    + apply bool_decide_eq_true in Ej as ->. by rewrite bool_decide_eq_false_2.
    + by destruct (j =?s k').
  - rewrite find_first_app. cbn. rewrite bool_decide_eq_false_2 by done. by destruct (find_first _ o).
Qed.

Section yank.
Context `{RegHost} `{JsEngine} `{RegCrypto} `{Upstream}.

(** The crate metadata of a row. *)
Definition row_meta (row : ManifestRow) : option json :=
  option_map snd (find_first (λ km, bool_decide (km.1 = MK_cargo)) (mr_other_metadata row)).

Lemma set_metadata_meta meta row old :
  row_meta row = Some old → option_map snd (find_first (λ km, bool_decide (km.1 = MK_cargo)) (set_metadata meta row)) = Some meta.
Proof.
  unfold row_meta, set_metadata. induction (mr_other_metadata row) as [|[k v] l IH]; [done|]. cbn.
  destruct (bool_decide (k = MK_cargo)) eqn:E; cbn; [done|]. by rewrite E.
Qed.

(** The other rows are as they were. *)
Lemma find_other_row name version n v f l :
  (n, v) ≠ (name, version) → (∀ r, mr_name (f r) = mr_name r ∧ mr_version (f r) = mr_version r) →
  find_first (is_row n v) (update_where (is_row name version) f l) = find_first (is_row n v) l.
Proof.
  intros Hne Hf. unfold update_where. induction l as [|r l IH]; [done|]. cbn. rewrite IH. destruct (is_row name version r) eqn:E; [|done].
  apply is_row_eq in E as [En Ev]. assert (Hx : is_row n v (f r) = is_row n v r) by (unfold is_row; by destruct (Hf r) as [-> ->]). rewrite Hx.
  destruct (is_row n v r) eqn:E2; [|done]. apply is_row_eq in E2 as [En2 Ev2]. congruence.
Qed.

(** What a yank may change of a catalog: the flag of one crate, and its signature. *)
Definition flagged (mname version : string) (row : ManifestRow) (o : json_object) (yanked : bool) (s s' : Reg) : Prop :=
  (∃ row' o', find_first (is_row mname version) (rg_manifest s') = Some row' ∧
    row_meta row' = Some (JObj o') ∧ get_prop "yanked" o' = Some (JBool yanked) ∧ (∀ k, k ≠ "yanked" → get_prop k o' = get_prop k o) ∧
    mr_kind row' = MK_cargo ∧ mr_blobs row' = mr_blobs row ∧
    (row' = row ∨ mf_signature (rowToManifest row') = None ∧ mr_canonical_bytes row' = canonicalManifestBytes (rowToManifest row'))) ∧
  (∀ n v, (n, v) ≠ (mname, version) → find_first (is_row n v) (rg_manifest s') = find_first (is_row n v) (rg_manifest s)) ∧
  rg_files s' = rg_files s ∧ rg_blob s' = rg_blob s ∧ rg_sidecars s' = rg_sidecars s.

Lemma setCargoYanked_run mname version yanked row o s :
  validateManifestName mname = inr () → validateManifestVersion version = inr () →
  find_first (is_row mname version) (rg_manifest s) = Some row → mr_kind row = MK_cargo → row_meta row = Some (JObj o) →
  ∃ s', setCargoYanked mname version yanked s = (inr (), s') ∧ flagged mname version row o yanked s s' ∧
    rg_audit s' = rg_audit s ∧ rg_tick s' = rg_tick s.
Proof.
  intros Hn Hv Hf Hk Hm. unfold setCargoYanked. rewrite Hn, Hv, rbind_eq. cbn [rlift]. rewrite rbind_eq. cbn [rlift]. rewrite rbind_eq.
  cbn [fetchRow rget]. rewrite Hf. unfold row_meta in Hm. rewrite Hm. rewrite bool_decide_eq_true_2 by done. cbn [negb opt_chain].
  destruct (match get_prop "yanked" o with Some (JBool b) => eqb b yanked | _ => false end) eqn:Ey.
  - exists s. split; [done|]. split; [|done]. split; [|done]. exists row, o. split_and!; try done; [|by left].
    destruct (get_prop "yanked" o) as [[]|]; try done. by apply eqb_prop in Ey as ->.
  - eexists. split; [reflexivity|]. split; [|done]. split; [|split; [|done]].
    + exists (yanked_row (JObj (set_prop "yanked" (JBool yanked) o)) row), (set_prop "yanked" (JBool yanked) o).
      cbn [rg_manifest set_manifest]. split_and!; try done.
      * rewrite find_first_update_where by done. by rewrite Hf.
      * by apply (set_metadata_meta _ row (JObj o)).
      * apply get_set_prop.
      * intros k Hne. by apply get_set_prop_ne.
      * by right.
    + intros n v Hne. by apply find_other_row.
Qed.

(** C27: YANK.  A yank or unyank of a published crate succeeds; it sets the flag of
    that version and no other field of its metadata, keeps its blobs, computes its
    bytes again and drops its signature when the flag changes, and touches no other
    manifest, no blob and no file, so that downloads go on. *)
Theorem yank_exact org name version token yanked mname row o s :
  cargoManifestName org name = inr mname → validateManifestName mname = inr () → validateManifestVersion version = inr () →
  bad_crate_version version = false → fresh_audit s →
  find_first (is_row mname version) (rg_manifest s) = Some row → mr_kind row = MK_cargo → row_meta row = Some (JObj o) →
  ∃ s', mutateYank org name version token yanked s = (inr (mkCargoResponse 200 json_headers CB_ok), s') ∧
    flagged mname version row o yanked s s'.
Proof.
  intros Hmn Hn Hv Hb Hfr Hf Hk Hm. unfold mutateYank.
  assert (validateCargoOrgName org = inr () ∧ validateCargoCrateName name = inr ()) as [-> ->].
  { unfold cargoManifestName in Hmn. destruct (validateCargoOrgName org) as [|[]]; [done|]. cbn -[validateCargoCrateName lower] in Hmn.
    by destruct (validateCargoCrateName name) as [|[]]. }
  rewrite rbind_eq. cbn [rlift]. rewrite rbind_eq. cbn [rlift]. rewrite Hb, Hmn, rbind_eq. cbn [rlift].
  rewrite (rbind_ok _ _ _ _ _ (getManifest_run mname version row s Hn Hv Hf)). unfold cargo_metadata. cbn [mf_kind mf_otherMetadata rowToManifest].
  rewrite Hk. unfold row_meta in Hm. rewrite Hm. cbn [json_truthy is_null orb negb bool_decide]. rewrite (bool_decide_eq_false_2 (MK_cargo = MK_generic)) by done.
  rewrite bool_decide_eq_true_2 by done. cbn [negb orb].
  destruct (setCargoYanked_run mname version yanked row o s) as (s1 & E1 & Hfl & Ha & Ht); try done.
  rewrite (rbind_ok _ _ _ _ _ E1).
  match goal with |- ∃ s', (appendAuditEntry ?a ?t ?i ?c ?d ≫= _) _ = _ ∧ _ => destruct (appendAudit_run a t i c d s1) as [e E2] end.
  { intros n Hge x Hx. rewrite Ha in Hx. rewrite Ht in Hge. by apply (Hfr n). }
  rewrite (rbind_ok _ _ _ _ _ E2). eexists. by split; [reflexivity|].
Qed.
End yank.

(** ** A registry with a crate *)

#[local] Existing Instance rx_engine.
#[local] Existing Instance ax_crypto.

(** A host whose clock moves with every reading. *)
#[local] Instance kx_host : RegHost := {|
  sha256 := rx_sha;
  reg_clock n := epoch2025 + Z.of_nat n;
  random_id _ := hex_block 32 "c";
  audit_id n := pretty.pretty n;
  io _ := Io_ok;
  enoent _ := "ENOENT";
  torn_json := "Unexpected end of JSON input";
  mtime _ := ""
|}.

Definition kx_json (l : list (string * string)) : string :=
  json_stringify (JObj (map (λ kv, (kv.1, JStr kv.2)) l)).

(** The index of the upstream has one line, of another crate than the one asked for. *)
#[local] Instance kx_upstream : Upstream := {|
  fetcher _ url _ :=
    if str_includes url "/nu/ll/" then inr (mkUpstreamFetchResult 200 [] "null")
    else inr (mkUpstreamFetchResult 200 [] (kx_json [("name", "secret"); ("vers", "9.9.9"); ("cksum", hex_block 64 "a")]));
  url_parse _ := None;
  hmac_sha256 k d := k +:+ d;
  process_env _ := None
|}.

Definition kx_text : string := kx_json [("name", "Foo"); ("vers", "1.0.0"); ("links", "z")].
Definition kx_body : string := publish_body kx_text rx_blob.
Definition kx_metadata : json := JObj [("name", JStr "Foo"); ("vers", JStr "1.0.0"); ("links", JStr "z")].
Definition kx_object : json_object :=
  [("name", JStr "foo"); ("vers", JStr "1.0.0"); ("deps", JArr []); ("cksum", JStr (rx_sha rx_blob)); ("features", JObj []);
   ("yanked", JBool false); ("links", JStr "z")].

Lemma kx_publishable :
  publishable DEFAULT_MAX_PUBLISH_BYTES "acme" kx_body "Foo" "1.0.0" "cargo/acme/foo" rx_blob kx_metadata (JObj kx_object).
Proof. split; try (by vm_compute). Qed.

Definition kx_put (s : Reg) : RRes CargoResponse * Reg := put_crate DEFAULT_MAX_PUBLISH_BYTES "acme" (Some (SB_bytes kx_body)) None s.
Definition kx_published : Reg := (kx_put rx_empty).2.

Lemma kx_empty_ok : reg_ok rx_empty.
Proof. constructor; simpl; try (by intros ? ?%elem_of_nil); try constructor. intros h c Hc. by rewrite lookup_empty in Hc. Qed.

Lemma kx_sha_hex c : is_hex_of 64 (sha256 c) = true.
Proof. apply rx_sha_hex. Qed.

Lemma kx_healthy n : io n = Io_ok.
Proof. reflexivity. Qed.

Lemma publish_download_witness :
  ∃ s' s'', kx_put rx_empty = (inr (mkCargoResponse 200 json_headers CB_warnings), s') ∧
    get_crate "acme" "Foo" "1.0.0" s' = (inr (tar_reply "Foo" "1.0.0" (Some (num_to_string (num_of_Z (len rx_blob)))) rx_blob), s'').
Proof.
  apply (publish_download kx_healthy kx_sha_hex DEFAULT_MAX_PUBLISH_BYTES "acme" kx_body "Foo" "1.0.0" "cargo/acme/foo" rx_blob kx_metadata (JObj kx_object) None rx_empty).
  - apply kx_publishable.
  - apply kx_empty_ok.
  - intros h x Hx. cbn [rx_empty rg_sidecars] in Hx. by rewrite lookup_empty in Hx.
  - by intros n _ e He%elem_of_nil.
  - reflexivity.
  - intros x. change (sha256 x) with (rx_sha x). unfold rx_sha at 1. destruct (x =?s rx_blob) eqn:E; [by apply bool_decide_eq_true in E as ->|].
    destruct (x =?s rx_raw); by vm_compute.
Defined.

Definition kx_row : ManifestRow := match rg_manifest kx_published with r :: _ => r | [] => row_of ax_manifest "" (mkProvenance PS_upload None "" None None) end.

Lemma yank_exact_witness :
  ∃ s', mutateYank "acme" "FOO" "1.0.0" None true kx_published = (inr (mkCargoResponse 200 json_headers CB_ok), s') ∧
    flagged "cargo/acme/foo" "1.0.0" kx_row kx_object true kx_published s'.
Proof.
  apply (yank_exact "acme" "FOO" "1.0.0" None true "cargo/acme/foo" kx_row kx_object kx_published); try (by vm_compute).
  assert (map ra_id (rg_audit kx_published) = ["8"] ∧ rg_tick kx_published = 10%nat) as [Ha Ht] by (by vm_compute).
  intros n Hn e He. rewrite Ht in Hn. apply (list_elem_of_fmap_2 ra_id) in He. change (ra_id <$> ?l) with (map ra_id l) in He. rewrite Ha in He.
  apply list_elem_of_singleton in He as ->. change (pretty.pretty 8%nat ≠ pretty.pretty n). intros E%(inj pretty.pretty). lia.
Defined.

(** *** What goes wrong *)

(** The same body published twice is refused as different content: the time of the
    upload is part of the bytes that are compared. *)
Example republish_is_refused :
  (kx_put kx_published).1
  = inl (RegistryError MANIFEST_EXISTS "cargo crate Foo@1.0.0 already published with different content").
Proof. by vm_compute. Qed.

Definition kx_mirror : Reg :=
  (addVirtualUpstream "acme" VK_cargo "https://up.example"
     (mkVirtualUpstreamConfig None (Some ["secret"]) false None None None None None None None None None None) None rx_empty).2.

(** A line of the upstream's index is cached under the name that the line carries,
    whatever crate was asked for, even when the upstream's deny patterns name it. *)
Example upstream_line_names_the_crate :
  map (λ r, (mr_name r, mr_version r)) (rg_manifest (get_sparse_index None "acme" "op/en/open" kx_mirror).2) = [("cargo/acme/secret", "9.9.9")].
Proof. by vm_compute. Qed.

(** A line that is [null] fails the whole request. *)
Example null_line_throws : ∃ m, (get_sparse_index None "acme" "nu/ll/null" kx_mirror).1 = inl (PlainError m).
Proof. eexists. by vm_compute. Qed.

(** A crate name that the facade accepts and the storage refuses, once its tarball
    is stored. *)
Example trailing_dash_leaves_blob :
  let r := put_crate DEFAULT_MAX_PUBLISH_BYTES "acme" (Some (SB_bytes (publish_body (kx_json [("name", "foo-"); ("vers", "1.0.0")]) rx_blob))) None rx_empty in
  is_crate_name "foo-" = true ∧ r.1 = inl (RegistryError BAD_NAME "invalid manifest name: cargo/acme/foo-") ∧ map bl_sha256 (rg_blob r.2) = [rx_sha rx_blob].
Proof. by vm_compute. Qed.
