(* ===== verification/OciPages.v ===== *)
(** The pages of a repository's tags, read by a client that follows the links of the
    answers: the target of a link is taken apart into the repository and the query of
    the next request. *)

From stdpp Require Import gmap strings.
From S2P Require Import Prelude JsTime JsVal Signing Build BuildYaml Probes K8s Http Worker SigningSpec JsonReader Fixture BuildYamlSpec.
From S2P Require Import HttpSpec Registry Oci OciApp OciSpec RegistryAuthSpec CargoSpec.

(** ** Links *)

Definition strip_suffix (t s : string) : option string :=
  if ends_with t s then Some (str_take (String.length s - String.length t) s) else None.

Definition read_pair (t : string) : option (string * string) :=
  let (k, r) := span (λ c, negb (is_char "=" c)) t in
  match r with String _ v => v ← decodeURIComponent v; Some (k, v) | EmptyString => None end.

(** The repository and the query of [</base/v2/name/tags/list?query>; rel="next"]. *)
Definition read_link (base link : string) : option (string * list (string * string)) :=
  l ← after_prefix ("<" +:+ base +:+ "/v2/") link;
  let (target, tail) := span (λ c, negb (is_char ">" c)) l in
  if negb (tail =?s ">; rel=" +:+ json_quote "next") then None
  else
    let (path, q) := span (λ c, negb (is_char "?" c)) target in
    name ← strip_suffix "/tags/list" path;
    q ← after_prefix "?" q;
    query ← mapM read_pair (split_on "&" q);
    Some (name, query).

Lemma after_prefix_app p s : after_prefix p (p +:+ s) = Some s.
Proof. unfold after_prefix. by rewrite starts_with_app, str_drop_app. Qed.

Lemma strip_suffix_app t s : strip_suffix t (s +:+ t) = Some s.
Proof.
  unfold strip_suffix, ends_with. rewrite str_app_length.
  replace (String.length s + String.length t - String.length t)%nat with (String.length s) by lia.
  rewrite str_drop_app, str_take_app. replace (String.length t <=? _)%nat with true by (symmetry; apply Nat.leb_le; lia).
  by rewrite bool_decide_eq_true_2.
Qed.

Lemma decode_with_unescaped s : ∀ n, all_chars (λ c, negb (is_char "%" c)) s = true → (String.length s ≤ n)%nat → decode_with n s = Some s.
Proof.
  induction s as [|c s IH]; intros [|n] Hp Hn; simpl in Hn; try lia; [done..|].
  cbn [all_chars] in Hp. apply andb_true_iff in Hp as [Hc Hp]. cbn [decode_with]. rewrite IH by (done || lia).
  destruct c as [[] [] [] [] [] [] [] []]; try discriminate Hc; reflexivity.
Qed.
Lemma decode_unescaped s : all_chars (λ c, negb (is_char "%" c)) s = true → decodeURIComponent s = Some s.
Proof. intros Hs. by apply decode_with_unescaped. Qed.

Lemma encode_plain s : all_chars uri_unreserved s = true → encodeURIComponent s = s.
Proof.
  induction s as [|c s IH]; [done|]. cbn [all_chars encodeURIComponent]. intros [-> Hs]%andb_true_iff. by rewrite IH.
Qed.

(** Characters that mean something in a link. *)
Definition link_char (c : ascii) : bool := negb (existsb (λ d, is_char d c) [">"; "?"; "&"; "="; "%"]%char).

Lemma link_chars d s : d ∈ [">"; "?"; "&"; "="; "%"]%char → all_chars link_char s = true → all_chars (λ c, negb (is_char d c)) s = true.
Proof.
  intros Hd. apply all_chars_weaken. intros c Hc. apply negb_true_iff in Hc. apply negb_true_iff, not_true_iff_false. intros E.
  apply not_true_iff_false in Hc. apply Hc, existsb_exists. exists d. split; [by apply list_elem_of_In|done].
Qed.

Lemma tag_chars t : is_tag t = true → all_chars link_char t = true ∧ all_chars uri_unreserved t = true.
Proof.
  destruct t as [|c t]; [done|]. cbn [is_tag all_chars]. intros [[Hc Ht]%andb_true_iff _]%andb_true_iff.
  assert (∀ c, is_tag_char c = true → link_char c = true ∧ uri_unreserved c = true) as Hch.
  { intros [[] [] [] [] [] [] [] []]; vm_compute; auto. }
  destruct (Hch c) as [-> ->]; [unfold is_tag_char; by rewrite Hc|]. split; (eapply all_chars_weaken; [|exact Ht]); intros d Hd; by apply Hch.
Qed.

Lemma digits_chars s : all_chars is_digit s = true → all_chars link_char s = true.
Proof. apply all_chars_weaken. intros [[] [] [] [] [] [] [] []]; vm_compute; auto. Qed.

Lemma pretty_N_digits (n : N) : ∀ s, all_chars is_digit s = true → all_chars is_digit (pretty.pretty_N_go n s) = true.
Proof.
  induction n as [n IH] using (well_founded_induction N.lt_wf_0). intros s Hs. destruct (decide (n = 0)%N) as [->|Hn]; [done|].
  rewrite pretty.pretty_N_go_step by lia. apply IH; [apply N.div_lt; lia|]. cbn [all_chars]. rewrite Hs, andb_true_r.
  destruct (n `mod` 10)%N as [|p]; [done|]. by repeat (destruct p as [p|p|]; try done).
Qed.
Lemma show_digits n : 0 ≤ n → all_chars is_digit (show_Z n) = true.
Proof.
  intros Hn. unfold show_Z, pretty.pretty, pretty.pretty_Z. destruct n as [|p|p]; [done| |lia].
  change (pretty.pretty p) with (pretty.pretty_N (N.pos p)). unfold pretty.pretty_N. case_decide; [done|]. by apply pretty_N_digits.
Qed.

(** The name of a repository is its two parts, and has no such character either. *)
Lemma span_stop p s a c r : span p s = (a, String c r) → p c = false.
Proof.
  revert a. induction s as [|d s IH]; intros a; [done|]. cbn. destruct (p d) eqn:E.
  - destruct (span p s) as [a' b]. intros [= _ ->]. by eapply IH.
  - by intros [= _ <- _].
Qed.

Lemma split_chars sep p s : p sep = true → Forall (λ seg, all_chars p seg = true) (split_on sep s) → all_chars p s = true.
Proof.
  intros Hsep. induction s as [|c s IH]; [done|]. cbn [split_on all_chars]. destruct (is_char sep c) eqn:E.
  - apply bool_decide_eq_true in E as ->. intros [_ Hs]%Forall_cons. by rewrite Hsep, IH.
  - destruct (split_on sep s) as [|seg rest] eqn:Es.
    + by destruct s; cbn in Es; [|destruct (is_char sep a), (split_on sep s)].
    + intros [Hseg Hr]%Forall_cons. cbn in Hseg. apply andb_true_iff in Hseg as [-> Hseg]. apply IH. by constructor.
Qed.

Lemma component_link_chars s : ∀ st, name_accepts st s = true → all_chars link_char s = true.
Proof.
  induction s as [|c s IH]; [done|]. intros st. cbn [name_accepts all_chars]. destruct (name_step st c) as [st'|] eqn:E; [|done].
  intros Hs. apply andb_true_iff. split; [|by eapply IH]. revert E. destruct st, c as [[] [] [] [] [] [] [] []]; vm_compute; intros; congruence.
Qed.

Lemma segments_link_chars l : check_segments l = inr () → Forall (λ seg, all_chars link_char seg = true) l.
Proof.
  induction l as [|seg l IH]; [constructor|]. cbn. destruct (is_name_component seg) eqn:E; [|done]. cbn. intros Hl.
  constructor; [by eapply component_link_chars|auto].
Qed.

Lemma repository_name name repo : parseRepositoryParam name = inr repo →
  name = rp_org repo +:+ "/" +:+ rp_repo repo ∧ all_chars link_char name = true.
Proof.
  unfold parseRepositoryParam. destruct (_ =? _)%nat; [done|]. pose proof (span_app (λ c, negb (is_char "/" c)) name) as Hs.
  destruct (span _ name) as [org tail] eqn:E. destruct Hs as [Hname _].
  destruct org as [|o org]; [done|]. destruct tail as [|c [|d rest]]; try done. apply span_stop, negb_false_iff, bool_decide_eq_true in E as <-.
  destruct (validateOciRepositoryName name) as [|[]] eqn:Ev; [done|]. cbn -[ociManifestName]. destruct (ociManifestName _ _) as [|st]; [done|].
  cbn. intros [= <-]. split; [exact Hname|]. unfold validateOciRepositoryName in Ev. destruct (_ =? _)%nat; [done|]. destruct (_ <? _)%nat; [done|].
  by apply (split_chars "/"), segments_link_chars.
Qed.

(** The link of a page, read back. *)
Definition page_link (cfg : OciConfig) (repo : ParsedRepository) (n : Z) (c : string) : string :=
  "<" +:+ oc_baseUrl cfg +:+ ("/v2/" +:+ (rp_org repo +:+ "/" +:+ rp_repo repo) +:+ "/tags/list?n=" +:+ show_Z n +:+ "&last=" +:+ encodeURIComponent c)
  +:+ ">; rel=" +:+ json_quote "next".

Lemma read_page_link cfg name repo n c : parseRepositoryParam name = inr repo → 0 ≤ n → is_tag c = true →
  read_link (oc_baseUrl cfg) (page_link cfg repo n c) = Some (name, [("n", show_Z n); ("last", c)]).
Proof.
  intros [Hname Hchars]%repository_name Hn [Hc Hu]%tag_chars.
  assert (∀ d, d ∈ [">"; "?"; "&"; "="; "%"]%char → all_chars (λ x, negb (is_char d x)) name = true ∧
    all_chars (λ x, negb (is_char d x)) (show_Z n) = true ∧ all_chars (λ x, negb (is_char d x)) c = true) as Hfree.
  { intros d Hd. split_and!; apply link_chars; try done. by apply digits_chars, show_digits. }
  destruct (Hfree ">"%char ltac:(by repeat constructor)) as (Hn1 & Hd1 & Hc1). destruct (Hfree "?"%char ltac:(by repeat constructor)) as (Hn2 & _).
  destruct (Hfree "&"%char ltac:(by repeat constructor)) as (_ & Hd3 & Hc3). destruct (Hfree "%"%char ltac:(by repeat constructor)) as (_ & Hd4 & Hc4).
  unfold page_link. rewrite (encode_plain c) by done. rewrite <- Hname.
  set (target := name +:+ "/tags/list?n=" +:+ show_Z n +:+ "&last=" +:+ c).
  assert ("<" +:+ oc_baseUrl cfg +:+ ("/v2/" +:+ target) +:+ ">; rel=" +:+ json_quote "next"
    = ("<" +:+ oc_baseUrl cfg +:+ "/v2/") +:+ (target +:+ String ">" ("; rel=" +:+ json_quote "next"))) as ->.
  { by rewrite <- !str_app_assoc. }
  unfold read_link. rewrite after_prefix_app. cbn [mbind option_bind].
  assert (all_chars (λ c, negb (is_char ">" c)) target = true) as Ht.
  { unfold target. by rewrite !all_chars_app, Hn1, Hd1, Hc1. }
  rewrite span_all by done. rewrite bool_decide_eq_true_2 by done. cbn [negb].
  assert (target = (name +:+ "/tags/list") +:+ String "?" ("n=" +:+ show_Z n +:+ "&last=" +:+ c)) as ->.
  { unfold target. by rewrite <- !str_app_assoc. }
  rewrite span_all; [|by rewrite all_chars_app, Hn2|done].
  rewrite strip_suffix_app. cbn [mbind option_bind].
  change (String "?" ?x) with ("?" +:+ x). rewrite after_prefix_app. cbn [mbind option_bind].
  assert ("n=" +:+ show_Z n +:+ "&last=" +:+ c = ("n=" +:+ show_Z n) +:+ String "&" ("last=" +:+ c)) as -> by (by rewrite <- !str_app_assoc).
  rewrite split_on_cons, split_on_none; [|by rewrite all_chars_app, ?Hd3, ?Hc3..].
  assert (∀ k v, all_chars (λ c, negb (is_char "=" c)) k = true → all_chars (λ c, negb (is_char "%" c)) v = true →
    read_pair (k +:+ String "=" v) = Some (k, v)) as Hp.
  { intros k v Hk Hv. unfold read_pair. rewrite span_all by done. by rewrite (decode_unescaped v). }
  change ("n=" +:+ show_Z n) with ("n" +:+ String "=" (show_Z n)). change ("last=" +:+ c) with ("last" +:+ String "=" c).
  cbn [mapM]. by rewrite !Hp.
Qed.

(** ** Ascending lists *)

(** A strictly ascending list of texts. *)
Definition ascending (l : list string) : Prop := StronglySorted (λ a b, str_ltb a b = true) l.

Lemma str_ltb_leb a b : str_ltb a b = true ↔ str_leb a b = true ∧ a ≠ b.
Proof.
  unfold str_ltb. split.
  - intros Hn%negb_true_iff. split; [by apply str_leb_false|]. intros ->. pose proof (str_leb_refl b). unfold str_leb in *. congruence.
  - intros [Hl Hne]. apply negb_true_iff, not_true_iff_false. intros Hba. by apply Hne, str_leb_antisym.
Qed.

Lemma str_ltb_asym a b : str_ltb a b = true → str_ltb b a = false.
Proof. intros [Hl Hne]%str_ltb_leb. apply negb_false_iff. exact Hl. Qed.

(** What is after an element of an ascending list. *)
Lemma ascending_after a c b : ascending (a ++ c :: b) → select (str_ltb c) (a ++ c :: b) = b.
Proof.
  unfold ascending. induction a as [|x a IH]; simpl; intros Hs; apply StronglySorted_inv in Hs as [Hs Hx].
  - rewrite str_ltb_irrefl. apply select_all. intros y Hy. rewrite Forall_forall in Hx. by apply Hx.
  - rewrite Forall_forall in Hx. rewrite str_ltb_asym by (apply Hx, elem_of_app; right; left). by apply IH.
Qed.

Lemma sorted_ascending l :
  StronglySorted (λ a b, str_leb a b = true) l → NoDup l → ascending l.
Proof.
  unfold ascending. induction 1 as [|x l Hs IH Hx]; intros Hn; constructor; apply NoDup_cons in Hn as [Hni Hn]; [by apply IH|].
  rewrite Forall_forall in *. intros y Hy. apply str_ltb_leb. split; [by apply Hx|]. intros ->. done.
Qed.

Lemma StronglySorted_fmap {A B} (f : A → B) (R : B → B → Prop) l :
  StronglySorted (λ a b, R (f a) (f b)) l → StronglySorted R (map f l).
Proof.
  induction 1 as [|x l Hs IH Hx]; simpl; constructor; [done|]. rewrite Forall_forall in Hx. apply Forall_forall.
  intros y (z & -> & Hz)%list_elem_of_fmap. by apply Hx.
Qed.

Section paging.
Context `{RegHost} `{JsEngine} (cfg : OciConfig) (name : string) (repo : ParsedRepository) (token : option string).
Hypothesis name_parses : parseRepositoryParam name = inr repo.
Hypothesis page_size : 1 ≤ oc_defaultPageSize cfg.
Hypothesis max_page_size : 1 ≤ oc_maxPageSize cfg.
(** [Number] reads the decimal text of a page size. *)
Hypothesis sizes_read : ∀ n, 1 ≤ n → n ≤ oc_defaultPageSize cfg →
  let x := to_number (Some (JStr (show_Z n))) in num_isInteger x = true ∧ num_floor x = n.

(** A request for tags with this query. *)
Definition tags_request (name : string) (query : list (string * string)) : OciRequest :=
  mkOciRequest name "" query None None None None token.

(** All tags of the repository, in order. *)
Definition all_tags (s : Reg) : list string :=
  map tg_tag (order_asc tg_tag (select (λ r, tg_repository r =?s rp_storageName repo) (rg_tag s))).

Lemma all_tags_ascending s : reg_ok s → ascending (all_tags s).
Proof.
  intros Hs. apply sorted_ascending.
  - apply (StronglySorted_fmap tg_tag (λ a b, str_leb a b = true)).
    apply (order_by_StronglySorted (λ a b : TagRow, str_leb (tg_tag a) (tg_tag b))); simpl.
    + intros a b. apply str_leb_total.
    + intros a b c. apply str_leb_trans.
  - unfold all_tags. assert (Hp : map tg_tag (order_asc tg_tag (select (λ r, tg_repository r =?s rp_storageName repo) (rg_tag s)))
      ≡ₚ map tg_tag (select (λ r, tg_repository r =?s rp_storageName repo) (rg_tag s))) by (apply fmap_Permutation, order_by_perm).
    rewrite Hp. pose proof (keyed_select _ (λ r, tg_repository r =?s rp_storageName repo) _ (ok_tag_keys s Hs)) as Hn.
    revert Hn. generalize (select_elem (λ r, tg_repository r =?s rp_storageName repo) (rg_tag s)).
    set (l := select _ _). clearbody l. intros Hl Hn. assert (Hrep : ∀ t, t ∈ l → tg_repository t = rp_storageName repo).
    { intros t [_ Ht]%Hl. by apply bool_decide_eq_true in Ht. }
    clear Hl Hp. induction l as [|t l IH]; simpl in *; [constructor|]. apply NoDup_cons in Hn as [Hni Hn]. apply NoDup_cons. split.
    + intros (u & E & Hu)%list_elem_of_fmap. apply Hni, list_elem_of_fmap. exists u. split; [|done].
      rewrite E, (Hrep t), (Hrep u); [done|by right|by left].
    + apply IH; [done|]. intros u Hu. apply Hrep. by right.
Qed.

Lemma map_take {A B} (f : A → B) n l : map f (take n l) = take n (map f l).
Proof. revert n. induction l as [|x l IH]; intros [|n]; simpl; congruence. Qed.

Lemma map_select {A B} (f : A → B) p l : map f (select (λ x, p (f x)) l) = select p (map f l).
Proof. induction l as [|x l IH]; [done|]. simpl. destruct (p (f x)); simpl; congruence. Qed.

(** The rows of a page are the first tags after the cursor. *)
Lemma list_after after limit s :
  map tg_tag (sql_limit limit (order_asc tg_tag (select (λ r, (tg_repository r =?s rp_storageName repo) && str_ltb after (tg_tag r)) (rg_tag s))))
  = sql_limit limit (select (str_ltb after) (all_tags s)).
Proof.
  unfold all_tags. rewrite <- map_select.
  rewrite (select_order_asc tg_tag (λ r, str_ltb after (tg_tag r))), select_select. unfold sql_limit. by destruct (limit <? 0); [|rewrite map_take].
Qed.

Lemma tag_nonempty t : is_tag t = true → str_ltb "" t = true.
Proof. by destruct t. Qed.

Lemma all_tags_names s t : reg_ok s → t ∈ all_tags s → is_tag t = true.
Proof.
  intros Hs (r & -> & Hr)%list_elem_of_fmap. apply order_asc_elem, select_elem in Hr as [Hr _]. by apply (ok_tag_names s Hs r Hr).
Qed.

(** A client that follows the links from page to page. *)
Fixpoint read_tags (fuel : nat) (name : string) (query : list (string * string)) (s : Reg) : option (list string) :=
  match fuel with
  | O => None
  | S fuel' =>
    match serve cfg OR_tags (tags_request name query) s with
    | (mkOciResponse 200 headers (OB_tags _ tags), s') =>
      match find_first (λ h, h.1 =?s "Link") headers with
      | None => Some tags
      | Some h => next ← read_link (oc_baseUrl cfg) h.2; rest ← read_tags fuel' next.1 next.2 s'; Some (tags ++ rest)
      end
    | _ => None
    end
  end.

(** One page of [n], when [rest] is what the cursor leaves. *)
Lemma tags_page query n cursor rest s :
  parsePaging cfg (tags_request name query) = inr (mkPaging n cursor) → 1 ≤ n →
  (match cursor with Some c => is_tag c = true | None => True end) →
  select (str_ltb (cursor ?? "")) (all_tags s) = rest →
  ∃ headers, serve cfg OR_tags (tags_request name query) s
      = (mkOciResponse 200 headers (OB_tags (rp_org repo +:+ "/" +:+ rp_repo repo) (take (Z.to_nat n) rest)), s) ∧
    find_first (λ h, h.1 =?s "Link") headers =
      if (Z.to_nat n <? length rest)%nat then option_map (λ c, ("Link", page_link cfg repo n c)) (last (take (Z.to_nat n) rest)) else None.
Proof.
  intros Hpaging Hn1 Hcur Hrest. set (k := Z.to_nat n). unfold serve, answer. cbn [oci_handler]. unfold get_tags.
  rewrite Hpaging. cbn [oq_name tags_request].
  rewrite name_parses, rbind_eq. cbn [rlift]. rewrite rbind_eq. cbn [rlift pg_last pg_n]. rewrite rbind_eq.
  assert (match cursor with Some l => validateOciTag l | None => inr () end = inr ()) as ->.
  { destruct cursor as [c|]; [|done]. unfold validateOciTag. by rewrite Hcur. }
  cbn [rlift]. cbv zeta. assert (n =? 0 = false) as -> by lia.
  unfold TagStore_list. rewrite rbind_eq. cbn [rget].
  assert (truthy cursor ?? "" = cursor ?? "") as -> by (by destruct cursor as [[]|]).
  change (Some (n + 1) ?? 1000) with (n + 1).
  rewrite list_after, Hrest, sql_limit_nonneg by lia.
  assert (Z.to_nat (n + 1) = S k) as -> by (unfold k; lia). unfold page.
  assert (n <? Z.of_nat (length (take (S k) rest)) = (k <? length rest)%nat) as ->.
  { rewrite length_take. destruct (Nat.ltb_spec k (length rest)); [apply Z.ltb_lt|apply Z.ltb_ge]; unfold k in *; lia. }
  fold k. destruct (k <? length rest)%nat eqn:El.
  - rewrite take_take, Nat.min_l by lia. apply Nat.ltb_lt in El.
    destruct (last (take k rest)) as [c|] eqn:Elast; [by eexists|].
    apply last_None in Elast. apply (f_equal length) in Elast. rewrite length_take in Elast. simpl in Elast. unfold k in *. lia.
  - apply Nat.ltb_ge in El. rewrite !take_ge by lia. by eexists.
Qed.

(** The query of a link asks for a page of the same size, as far as that is allowed. *)
Lemma link_paging n c : 1 ≤ n → n ≤ oc_defaultPageSize cfg →
  parsePaging cfg (tags_request name [("n", show_Z n); ("last", c)]) = inr (mkPaging (Z.min n (oc_maxPageSize cfg)) (Some c)).
Proof.
  intros H1 Hd. destruct (sizes_read n H1 Hd) as [Hi Hfl]. unfold parsePaging.
  change (query_of _ "n") with (Some (show_Z n)). change (query_of _ "last") with (Some c). cbv beta iota zeta. rewrite Hi, Hfl.
  cbn [negb orb]. by replace (n <? 0) with false by lia.
Qed.

Lemma read_rest s : reg_ok s → ∀ fuel before rest n cursor query,
  parsePaging cfg (tags_request name query) = inr (mkPaging n cursor) → 1 ≤ n → n ≤ oc_defaultPageSize cfg →
  (length rest < fuel)%nat → all_tags s = before ++ rest → (match cursor with Some c => is_tag c = true | None => True end) →
  select (str_ltb (cursor ?? "")) (all_tags s) = rest → read_tags fuel name query s = Some rest.
Proof.
  intros Hs. pose proof (all_tags_ascending s Hs) as Hasc.
  induction fuel as [|fuel IH]; intros before rest n cursor query Hq H1 Hdef Hf Hall Hc Hr; [lia|]. cbn [read_tags].
  destruct (tags_page query n cursor rest s Hq H1 Hc Hr) as (headers & -> & ->). set (k := Z.to_nat n).
  destruct (Nat.ltb_spec k (length rest)) as [Hlt|Hge]; [|by rewrite take_ge].
  destruct (last (take k rest)) as [c|] eqn:El; cbn [option_map].
  - apply last_Some in El as [init Einit]. pose proof (take_drop k rest) as Hsplit. rewrite Einit in Hsplit.
    assert (Hnext : all_tags s = (before ++ init) ++ c :: drop k rest) by (rewrite Hall, <- Hsplit at 1; by rewrite <- !app_assoc).
    assert (Htag : is_tag c = true) by (apply (all_tags_names s); [done|]; rewrite Hnext; apply elem_of_app; right; left).
    cbn [snd]. rewrite (read_page_link cfg name repo n c name_parses ltac:(lia) Htag). cbn [mbind option_bind fst snd].
    rewrite (IH (before ++ init ++ [c]) (drop k rest) (Z.min n (oc_maxPageSize cfg)) (Some c)).
    + cbn. rewrite Einit. by rewrite Hsplit.
    + by apply link_paging.
    + lia.
    + lia.
    + rewrite length_drop. unfold k in *. lia.
    + rewrite Hnext. by rewrite <- !app_assoc.
    + done.
    + cbn. rewrite Hnext. apply ascending_after. by rewrite <- Hnext.
  - apply last_None in El. apply (f_equal length) in El. rewrite length_take in El. simpl in El. unfold k in *. lia.
Qed.

(** C29: Reading a repository's tags page by page finds all of them.  A client that
    sends a request for the tags and then follows the link of each answer, taking
    the repository, the size and the cursor of the next request from the target of
    the link, gets, after as many pages as there are tags, exactly the tags of the
    repository in ascending order, each once. *)
Theorem tag_pages_complete s :
  reg_ok s → read_tags (S (length (all_tags s))) name [] s = Some (all_tags s) ∧ NoDup (all_tags s).
Proof.
  intros Hs. pose proof (all_tags_ascending s Hs) as Hasc. split.
  - apply (read_rest s Hs _ [] (all_tags s) (oc_defaultPageSize cfg) None); try done; [lia|].
    apply select_all. intros t Ht. by apply tag_nonempty, (all_tags_names s).
  - unfold ascending in Hasc. induction Hasc as [|x l Hl IH Hx]; constructor; [|done]. intros Hin.
    rewrite Forall_forall in Hx. specialize (Hx x Hin). by rewrite str_ltb_irrefl in Hx.
Qed.
End paging.

#[local] Existing Instance rx_good.

Lemma tag_pages_complete_witness :
  all_tags rx_repo rx_two = ["v1"; "v2"] ∧
  read_tags rx_config None (S (length (all_tags rx_repo rx_two))) rx_name [] rx_two = Some (all_tags rx_repo rx_two) ∧
  NoDup (all_tags rx_repo rx_two).
Proof.
  split; [by vm_compute|].
  apply (tag_pages_complete rx_config rx_name rx_repo None rx_name_parses ltac:(by vm_compute) ltac:(by vm_compute)); [|apply rx_two_ok].
  intros n H1 H2. assert (n = 1) as -> by (change (oc_defaultPageSize rx_config) with 1 in H2; lia). by vm_compute.
Defined.
