(* ===== verification/Assertions.v ===== *)
(** The assertion evaluator of the scenario engine (scenarios/assertions.ts) and the
    two evaluations over it (evaluateAssertions and evaluateAssertionsV2 of
    scenarios/runner.ts). *)

From stdpp Require Import strings.
From S2P Require Import Prelude JsVal BuildYaml Signing Probes ReleaseDeploy.

(** ** Effects of the scenario engine *)

(** A thrown value: an error with its name and message. *)
Record JsError := mkJsError { je_name : string; je_message : string }.
Definition plain_error (message : string) : JsError := mkJsError "Error" message.
(** [`${e}`] *)
Definition error_text (e : JsError) : string :=
  if je_message e =?s "" then je_name e else je_name e +:+ ": " +:+ je_message e.

#[global] Instance JsError_bind : MBind (sum JsError) := λ A B k r, match r with inr a => k a | inl e => inl e end.

(** A call that may throw and changes the world. *)
Definition SM (W A : Type) : Type := W → (JsError + A) * W.

#[global] Instance SM_ret W : MRet (SM W) := λ A a w, (inr a, w).
#[global] Instance SM_bind W : MBind (SM W) := λ A B k m w,
  match m w with (inr a, w') => k a w' | (inl e, w') => (inl e, w') end.
Definition sthrow {W A} (e : JsError) : SM W A := λ w, (inl e, w).
Definition scatch {W A} (m : SM W A) (h : JsError → SM W A) : SM W A := λ w,
  match m w with (inr a, w') => (inr a, w') | (inl e, w') => h e w' end.
Definition slift {W A} (r : JsError + A) : SM W A := λ w, (r, w).
(** A reading that cannot fail. *)
Definition sread {W A} (f : W → A * W) : SM W A := λ w, let (a, w') := f w in (inr a, w').
Definition sget {W A} (f : W → A) : SM W A := λ w, (inr (f w), w).
Definition sput {W} (f : W → W) : SM W unit := λ w, (inr (), f w).

(** ** Values *)

Section values.
Context `{JsEngine}.

(** [typeof v] *)
Inductive JsType := T_undefined | T_object | T_boolean | T_number | T_string.
#[global] Instance JsType_eq_dec : EqDecision JsType.
Proof. solve_decision. Defined.

Definition typeof (v : option json) : JsType :=
  match v with
  | None => T_undefined
  | Some (JBool _) => T_boolean
  | Some (JNum _) => T_number
  | Some (JStr _) => T_string
  | Some _ => T_object
  end.

(** [a === b], where the two come from different documents, so that no two objects
    are the same. *)
Definition js_strict_eq (a b : option json) : bool :=
  match a, b with
  | None, None | Some JNull, Some JNull => true
  | Some (JBool x), Some (JBool y) => eqb x y
  | Some (JNum x), Some (JNum y) => SFeqb x y
  | Some (JStr x), Some (JStr y) => x =?s y
  | _, _ => false
  end.

(** [JSON.stringify(v)]; [undefined] has no JSON text. *)
Definition stringify (v : option json) : option string := option_map json_stringify v.

Definition deepEqual (a b : option json) : bool :=
  if js_strict_eq a b then true
  else match typeof a, typeof b with
  | T_boolean, T_boolean | T_number, T_number => js_strict_eq a b
  | ta, tb => if negb (bool_decide (ta = tb)) then shown a =?s shown b else bool_decide (stringify a = stringify b)
  end.

Definition toNumber (v : option json) : jsnum :=
  match v with
  | Some (JNum n) => n
  | Some (JStr s) => let n := to_number (Some (JStr s)) in match n with S754_nan => S754_zero false | _ => n end
  | _ => S754_zero false
  end.

Definition valueIncludes (actual expected : option json) : bool :=
  match actual with
  | Some (JArr l) => existsb (λ item, deepEqual (Some item) expected) l
  | _ => str_includes (shown actual) (shown expected)
  end.

Definition compareValues (actual expected comparison : option json) : bool :=
  let n := toNumber in
  match comparison with
  | Some (JStr "not_eq") => negb (deepEqual actual expected)
  | Some (JStr "gt") => SFltb (n expected) (n actual)
  | Some (JStr "gte") => SFleb (n expected) (n actual)
  | Some (JStr "lt") => SFltb (n actual) (n expected)
  | Some (JStr "lte") => SFleb (n actual) (n expected)
  | Some (JStr "contains") => str_includes (shown actual) (shown expected)
  | Some (JStr "includes") => valueIncludes actual expected
  | _ => deepEqual actual expected
  end.
End values.

(** ** JSON paths *)

Inductive PathSegment :=
| PS_key (value : string)
| PS_index (value : string)
| PS_filter (key value : string).

(** [\w] *)
Definition is_word_char (c : ascii) : bool := is_lower c || is_upper c || is_digit c || is_underscore c.
Definition is_quote (c : ascii) : bool := bool_decide (c = squote) || bool_decide (c = dquote).

(** What is left of [s] after a prefix, or after one character that passes [p]. *)
Definition after (p s : string) : option string := if starts_with p s then Some (str_drop (String.length p) s) else None.
Definition after_char (p : ascii → bool) (s : string) : option string :=
  match s with String c r => if p c then Some r else None | EmptyString => None end.
(** One or more characters that pass [p]. *)
Definition span1 (p : ascii → bool) (s : string) : option (string * string) :=
  let (w, r) := span p s in if w =?s "" then None else Some (w, r).

(** A filter, with the word in front of it if there is one; the wider pattern that
    is tried first matches whenever this one does. *)
Definition match_filter (s : string) : option (string * string * string * string) :=
  let (w, r) := span is_word_char s in
  r ← after "[?" r;
  kr ← span1 is_word_char r;
  r ← after "==" kr.2;
  r ← after_char is_quote r;
  let (v, r) := span (λ c, negb (is_quote c)) r in
  r ← after_char is_quote r;
  r ← after "]" r;
  Some (w, kr.1, v, r).

(** [/^\[(\d+)\]/] *)
Definition match_bare_index (s : string) : option (string * string) :=
  r ← after "[" s; dr ← span1 is_digit r; r ← after "]" dr.2; Some (dr.1, r).

(** [/^(\w+)\[(\d+)\]/] *)
Definition match_index (s : string) : option (string * string * string) :=
  wr ← span1 is_word_char s; dr ← match_bare_index wr.2; Some (wr.1, dr.1, dr.2).

(** One turn of the loop takes at least one character. *)
Fixpoint tokenize (fuel : nat) (s : string) : list PathSegment :=
  match fuel, s with
  | S fuel, String c rest =>
    if bool_decide (c = "."%char) then tokenize fuel rest
    else match match_filter s with
    | Some (w, k, v, r) => (if w =?s "" then [] else [PS_key w]) ++ PS_filter k v :: tokenize fuel r
    | None =>
      match match_index s with
      | Some (w, d, r) => PS_key w :: PS_index d :: tokenize fuel r
      | None =>
        match match_bare_index s with
        | Some (d, r) => PS_index d :: tokenize fuel r
        | None =>
          match span1 is_word_char s with
          | Some (w, r) => PS_key w :: tokenize fuel r
          | None => tokenize fuel rest
          end
        end
      end
    end
  | _, _ => []
  end.

Definition tokenizePath (jsonPath : string) : list PathSegment := tokenize (String.length jsonPath) jsonPath.

Section paths.
Context `{JsEngine}.

(** [l[parseInt(digits)]], within the bounds of the array. *)
Definition element (l : list json) (digits : string) : option json :=
  match digits_value None digits with
  | Some i => if i <? Z.of_nat (length l) then l !! Z.to_nat i else None
  | None => None
  end.

(** [current[key]] of an object or array; what the prototypes carry is left out. *)
Definition member (v : json) (key : string) : option json :=
  match v with
  | JObj o => get_prop key o
  | JArr l =>
    if key =?s "length" then Some (JInt (Z.of_nat (length l)))
    else match digits_value None key with
    | Some i => if show_Z i =?s key then element l key else None
    | None => None
    end
  | _ => None
  end.

Definition is_object (v : json) : bool := match v with JArr _ | JObj _ => true | _ => false end.

Definition follow (current : option json) (segment : PathSegment) : option json :=
  match current with
  | None | Some JNull => None
  | Some v =>
    match segment with
    | PS_key k => member v k
    | PS_index d =>
      match v with
      | JArr l => element l d
      | _ => None
      end
    | PS_filter k value =>
      match v with
      | JArr l => find_first (λ item, is_object item && (shown (member item k) =?s value)) l
      | _ => None
      end
    end
  end.

Definition resolveJsonPath (obj : option json) (jsonPath : string) : option json :=
  match obj with
  | None | Some JNull => None
  | Some _ => if jsonPath =?s "" then obj else fold_left follow (tokenizePath jsonPath) obj
  end.
End paths.

(** ** The evaluator (AssertionEvaluator) *)

(** Files, the clock, Node's path module and regular expressions. *)
Class AssertHost (W : Type) := {
  ah_now : W → Z * W;
  ah_exists : string → W → bool;
  ah_readFile : string → W → JsError + string;
  path_resolve : string → string → string;
  (** [new RegExp(pattern)] and its [test]. *)
  regex : string → JsError + (string → bool);
  (** What is thrown where a text is needed and this is given. *)
  not_a_text : json → JsError
}.

Record CommandResult := mkCommandResult { cmd_exitCode : option json; cmd_stdout : string }.

Record AssertionResult := mkAssertionResult {
  ar_id : option json;
  ar_passed : bool;
  ar_actual : option json;
  ar_expected : option json;
  ar_message : string;
  ar_severity : json;
  ar_duration_ms : Z
}.

(** A map that keeps the order of insertion: [m.get(k)], [m.set(k, v)]. *)
Definition map_get {V} (k : string) (m : list (string * V)) : option V := option_map snd (find_first (λ kv, kv.1 =?s k) m).
Definition map_set {V} (k : string) (v : V) (m : list (string * V)) : list (string * V) :=
  if existsb (λ kv, kv.1 =?s k) m then map (λ kv, if kv.1 =?s k then (k, v) else kv) m else m ++ [(k, v)].

Record EvaluationContext (W : Type) := mkEvaluationContext {
  ec_commandResults : list (string * CommandResult);
  ec_screenshots : list (string * string);
  ec_scenarioDir : string;
  ec_guestFileExists : option (json → SM W bool);
  ec_guestProcessRunning : option (json → SM W bool);
  ec_guestNetworkReachable : option (json → json → SM W bool)
}.
Arguments mkEvaluationContext {W}. Arguments ec_commandResults {W}. Arguments ec_screenshots {W}. Arguments ec_scenarioDir {W}.
Arguments ec_guestFileExists {W}. Arguments ec_guestProcessRunning {W}. Arguments ec_guestNetworkReachable {W}.

Definition MAX_PATTERN_LENGTH : Z := 500.

Section evaluator.
Context `{JsEngine} {W : Type} `{AssertHost W} (ctx : EvaluationContext W).

(** An assertion is an object of the YAML file. *)
Definition Assertion : Type := json_object.

(** An outcome: whether it passed, the actual and the expected value and the message. *)
Definition Verdict : Type := bool * option json * option json * string.

Definition failed (actual expected : option json) (message : string) : SM W Verdict := mret (false, actual, expected, message).

(** [m.get(v)]: a key that is no text is not found. *)
Definition get_json {V} (k : json) (m : list (string * V)) : option V := match k with JStr s => map_get s m | _ => None end.

Definition show_json (v : option json) : string := match stringify v with Some t => t | None => "undefined" end.

(** [pattern.length] *)
Definition length_of (v : json) : option Z :=
  match v with JStr s => Some (Z.of_nat (String.length s)) | JArr l => Some (Z.of_nat (length l)) | _ => None end.
Definition show_length (v : json) : string := match length_of v with Some n => show_Z n | None => "undefined" end.
(** [pattern.length > 500] and [pattern.length <= 500]; no length is neither. *)
Definition too_long (v : json) : bool := match length_of v with Some n => MAX_PATTERN_LENGTH <? n | None => false end.
Definition short_enough (v : json) : bool := match length_of v with Some n => n <=? MAX_PATTERN_LENGTH | None => false end.

(** [resolveJsonPath(data, field)] for a field that is not empty. *)
Definition resolve_field (data field : json) : SM W (option json) :=
  match data, field with
  | JNull, _ => mret None
  | _, JStr path => mret (resolveJsonPath (Some data) path)
  | _, JArr (_ :: _) => sthrow (not_a_text field)
  | _, _ => mret (Some data)
  end.

Definition json_from_file (source : json) (expected : option json) : SM W (Verdict + json) :=
  match source with
  | JStr s =>
    let filePath := path_resolve (ec_scenarioDir ctx) s in
    there ← sget (ah_exists filePath);
    if negb (there : bool) then
      mret (inl (false, None, expected,
        "Source not found: '" +:+ s +:+ "' (not in command outputs, file not found at '" +:+ filePath +:+ "')"))
    else
      content ← sget (ah_readFile filePath);
      mret (match content with
            | inl e => inl (false, None, expected, "Failed to parse JSON file '" +:+ filePath +:+ "': " +:+ error_text e)
            | inr text =>
              match JSON_parse text with
              | Some v => inr v
              | None => inl (false, None, expected, "Failed to parse JSON file '" +:+ filePath +:+ "': SyntaxError: " +:+ json_syntax_error text)
              end
            end)
  | _ => sthrow (not_a_text source)
  end.

Definition json_source (source : json) (expected : option json) : SM W (Verdict + json) :=
  match get_json source (ec_commandResults ctx) with
  | Some r =>
    mret (match JSON_parse (cmd_stdout r) with
          | Some v => inr v
          | None => inl (false, Some (JStr (cmd_stdout r)), expected, "Failed to parse JSON from command output '" +:+ js_String source +:+ "'")
          end)
  | None => json_from_file source expected
  end.

Definition evalJsonField (a : Assertion) : SM W Verdict :=
  let expected := get_prop "expected" a in
  let comparison := match get_prop "comparison" a with None | Some JNull => JStr "eq" | Some c => c end in
  match json_truthy (get_prop "source" a), json_truthy (get_prop "field" a) with
  | None, _ => failed None expected "json_field assertion missing 'source'"
  | _, None => failed None expected "json_field assertion missing 'field'"
  | Some source, Some field =>
    data ← json_source source expected;
    match data with
    | inl v => mret v
    | inr data =>
      actual ← resolve_field data field;
      match actual with
      | None => failed None expected ("Field '" +:+ js_String field +:+ "' not found in JSON data")
      | Some _ =>
        let passed := compareValues actual expected (Some comparison) in
        let op := match comparison with JStr "eq" => "==" | c => js_String c end in
        mret (passed, actual, expected,
          if passed then "Field '" +:+ js_String field +:+ "' " +:+ op +:+ " " +:+ show_json expected +:+ " (actual: " +:+ show_json actual +:+ ")"
          else "Field '" +:+ js_String field +:+ "': expected " +:+ op +:+ " " +:+ show_json expected +:+ ", got " +:+ show_json actual)
      end
    end
  end.

(** [assertion.expected !== false] *)
Definition expects (a : Assertion) : bool := match get_prop "expected" a with Some (JBool false) => false | _ => true end.

Definition evalFileExists (a : Assertion) : SM W Verdict :=
  let expected := expects a in
  match json_truthy (get_prop "path" a) with
  | None => failed None (Some (JBool expected)) "file_exists assertion missing 'path'"
  | Some filePath =>
    exists_ ← (match ec_guestFileExists ctx with
               | Some check => check filePath
               | None => match filePath with JStr p => sget (ah_exists p) | _ => mret false end
               end);
    let p := js_String filePath in
    let passed := eqb exists_ expected in
    mret (passed, Some (JBool exists_), Some (JBool expected),
      if passed then "File '" +:+ p +:+ "' " +:+ (if expected then "exists" else "does not exist") +:+ " as expected"
      else "File '" +:+ p +:+ "': expected " +:+ (if expected then "to exist" else "not to exist") +:+ ", but "
        +:+ (if exists_ : bool then "it exists" else "it does not"))
  end.

Definition evalProcessRunning (a : Assertion) : SM W Verdict :=
  let expected := expects a in
  match json_truthy (get_prop "name" a), ec_guestProcessRunning ctx with
  | None, _ => failed None (Some (JBool expected)) "process_running assertion missing 'name'"
  | _, None => failed None (Some (JBool expected)) "process_running assertion requires guestProcessRunning callback"
  | Some name, Some check =>
    running ← check name;
    let n := js_String name in
    let state b := if b : bool then "running" else "not running" in
    let passed := eqb running expected in
    mret (passed, Some (JBool running), Some (JBool expected),
      if passed then "Process '" +:+ n +:+ "' is " +:+ state expected +:+ " as expected"
      else "Process '" +:+ n +:+ "': expected " +:+ state expected +:+ ", but " +:+ (if running : bool then "it is running" else "it is not"))
  end.

(** The result of a source, or the last one. *)
Definition result_of (source : option json) : option CommandResult :=
  match json_truthy source with
  | Some k => get_json k (ec_commandResults ctx)
  | None => option_map snd (last (ec_commandResults ctx))
  end.

Definition for_source (source : option json) : string :=
  match json_truthy source with Some k => " for source '" +:+ js_String k +:+ "'" | None => "" end.

Definition evalExitCode (a : Assertion) : SM W Verdict :=
  let source := get_prop "source" a in
  match get_prop "expected" a with
  | None => failed None None "exit_code assertion missing 'expected'"
  | expected =>
    match result_of source with
    | None => failed None expected ("No command result found" +:+ for_source source)
    | Some r =>
      let passed := js_strict_eq (cmd_exitCode r) expected in
      mret (passed, cmd_exitCode r, expected,
        if passed then "Exit code is " +:+ shown expected +:+ " as expected"
        else "Exit code: expected " +:+ shown expected +:+ ", got " +:+ shown (cmd_exitCode r))
    end
  end.

Definition evalNetworkReachable (a : Assertion) : SM W Verdict :=
  let expected := expects a in
  match json_truthy (get_prop "host" a), get_prop "port" a, ec_guestNetworkReachable ctx with
  | None, _, _ => failed None (Some (JBool expected)) "network_reachable assertion missing 'host'"
  | _, None, _ => failed None (Some (JBool expected)) "network_reachable assertion missing 'port'"
  | _, _, None => failed None (Some (JBool expected)) "network_reachable assertion requires guestNetworkReachable callback"
  | Some host, Some port, Some check =>
    reachable ← check host port;
    let at_ := js_String host +:+ ":" +:+ js_String port in
    let state b := if b : bool then "reachable" else "not reachable" in
    let passed := eqb reachable expected in
    mret (passed, Some (JBool reachable), Some (JBool expected),
      if passed then at_ +:+ " is " +:+ state expected +:+ " as expected"
      else at_ +:+ ": expected " +:+ state expected +:+ ", but " +:+ (if reachable : bool then "it is reachable" else "it is not"))
  end.

Definition evalStdoutMatches (a : Assertion) : SM W Verdict :=
  let expected := expects a in
  let source := get_prop "source" a in
  let failed message := failed None (Some (JBool expected)) message in
  match json_truthy (get_prop "pattern" a) with
  | None => failed "stdout_matches assertion missing 'pattern'"
  | Some pattern =>
    let p := js_String pattern in
    if too_long pattern then
      failed ("Regex pattern exceeds maximum length of " +:+ show_Z MAX_PATTERN_LENGTH +:+ " characters (got " +:+ show_length pattern +:+ ")")
    else match regex p with
    | inl e => failed ("Invalid regex pattern '" +:+ p +:+ "': " +:+ error_text e)
    | inr test =>
      match result_of source with
      | None => failed ("No command output found" +:+ for_source source)
      | Some r =>
        let matches := test (cmd_stdout r) in
        let passed := eqb matches expected in
        mret (passed, Some (JBool matches), Some (JBool expected),
          if passed then "stdout " +:+ (if expected then "matches" else "does not match") +:+ " /" +:+ p +:+ "/ as expected"
          else "stdout: expected " +:+ (if expected then "to match" else "not to match") +:+ " /" +:+ p +:+ "/, but it "
            +:+ (if matches : bool then "matched" else "did not"))
      end
    end
  end.

Definition evalStdoutContains (a : Assertion) : SM W Verdict :=
  let source := get_prop "source" a in
  match get_prop "expected" a with
  | None => failed None None "stdout_contains assertion missing 'expected'"
  | expected =>
    match result_of source with
    | None => failed None expected ("No command output found" +:+ for_source source)
    | Some r =>
      let contains := str_includes (cmd_stdout r) (shown expected) in
      mret (contains, Some (JStr (cmd_stdout r)), expected,
        (if contains then "stdout contains '" else "stdout does not contain '") +:+ shown expected +:+ "'")
    end
  end.

(** [expect_?.k], when it is not falsy. *)
Definition expect_prop (a : Assertion) (k : string) : option json :=
  json_truthy (match get_prop "expect" a with Some (JObj o) => get_prop k o | _ => None end).

(** The text of [expect.stdout_matches]: the verdict of the pattern or an early result. *)
Definition match_expect (a : Assertion) (stdout : string) (passed : bool) : Verdict + bool :=
  let expect_ := get_prop "expect" a in
  match expect_prop a "stdout_matches" with
  | None => inr passed
  | Some pat =>
    if too_long pat then
      inl (false, Some (JStr stdout), expect_, "Regex pattern too long (" +:+ show_length pat +:+ " chars, max 500)")
    else match regex (js_String pat) with
    | inl e => inl (false, Some (JStr stdout), expect_, "Invalid regex pattern '" +:+ js_String pat +:+ "': " +:+ error_text e)
    | inr test => inr (test stdout)
    end
  end.

Definition evalCommandOutput (a : Assertion) : SM W Verdict :=
  let expect_ := get_prop "expect" a in
  match json_truthy (get_prop "source" a) with
  | None => failed None None "command_output assertion missing 'source'"
  | Some source =>
    match get_json source (ec_commandResults ctx) with
    | None => failed None None ("No output captured for source: " +:+ js_String source)
    | Some r =>
      let stdout := cmd_stdout r in
      let contained := match expect_prop a "stdout_contains" with Some x => str_includes stdout (js_String x) | None => false end in
      mret (match match_expect a stdout contained with
            | inl v => v
            | inr passed => (passed, Some (JStr stdout), expect_,
                if passed : bool then "Command output matches expectation" else "Command output does not match expectation")
            end)
    end
  end.

Definition evalScreenshotCheck (a : Assertion) : SM W Verdict :=
  match json_truthy (get_prop "source" a) with
  | None => failed None None "screenshot_check assertion missing 'source'"
  | Some source =>
    match truthy (get_json source (ec_screenshots ctx)) with
    | None => failed None None ("Screenshot not captured: " +:+ js_String source)
    | Some path => mret (true, Some (JStr ("Screenshot captured: " +:+ path)), None, "Screenshot '" +:+ js_String source +:+ "' captured")
    end
  end.

Definition evalProcessState (a : Assertion) : SM W Verdict :=
  let expect_ := get_prop "expect" a in
  match json_truthy (get_prop "source" a) with
  | None => failed None None "process_state assertion missing 'source'"
  | Some source =>
    match get_json source (ec_commandResults ctx) with
    | None => failed None None ("No output for source: " +:+ js_String source)
    | Some r =>
      let answer passed := mret (passed, Some (JStr (cmd_stdout r)), expect_,
        if passed : bool then "Process state matches" else "Process state does not match") in
      match expect_prop a "json_field" with
      | None => answer false
      | Some field =>
        match JSON_parse (cmd_stdout r) with
        | None | Some JNull => failed (Some (JStr (cmd_stdout r))) expect_ "Failed to parse JSON output"
        | Some v =>
          let unwanted := match expect_ with Some (JObj o) => get_prop "json_field_not_equals" o | _ => None end in
          answer (match unwanted with None => false | x => negb (js_strict_eq (member v (js_String field)) x) end)
        end
      end
    end
  end.

Definition eval_type (a : Assertion) : SM W Verdict :=
  let unknown := failed None None ("Unknown assertion type: " +:+ shown (get_prop "type" a)) in
  match get_prop "type" a with
  | Some (JStr t) =>
    if t =?s "json_field" then evalJsonField a
    else if t =?s "file_exists" then evalFileExists a
    else if t =?s "process_running" then evalProcessRunning a
    else if t =?s "exit_code" then evalExitCode a
    else if t =?s "network_reachable" then evalNetworkReachable a
    else if t =?s "stdout_matches" then evalStdoutMatches a
    else if t =?s "stdout_contains" then evalStdoutContains a
    else if t =?s "command_output" then evalCommandOutput a
    else if t =?s "screenshot_check" then evalScreenshotCheck a
    else if t =?s "process_state" then evalProcessState a
    else unknown
  | _ => unknown
  end.

Definition severity_of (a : Assertion) : json := match get_prop "severity" a with None | Some JNull => JStr "medium" | Some v => v end.

Definition makeResult (a : Assertion) (start : Z) (v : Verdict) : SM W AssertionResult :=
  let '(passed, actual, expected, message) := v in
  now ← sread ah_now;
  mret (mkAssertionResult (get_prop "id" a) passed actual expected message (severity_of a) (now - start)).

Definition evaluate (a : Assertion) : SM W AssertionResult :=
  start ← sread ah_now;
  v ← scatch (eval_type a) (λ e, mret (false, None, None, "Assertion evaluation error: " +:+ error_text e));
  makeResult a start v.

Fixpoint evaluateAll (assertions : list Assertion) : SM W (list AssertionResult) :=
  match assertions with
  | [] => mret []
  | a :: l => r ← evaluate a; rs ← evaluateAll l; mret (r :: rs)
  end.
End evaluator.

(** ** The verdict over all assertions (scenarios/runner.ts) *)

Record AssertionConfig := mkAssertionConfig {
  acf_assertions : list Assertion;
  acf_pass_threshold : jsnum;
  acf_critical_must_pass : bool
}.

Definition is_critical (a : Assertion) : bool := match get_prop "severity" a with Some (JStr "critical") => true | _ => false end.

(** Score and verdict of the assertions with their outcomes. *)
Definition score_of (passed : list bool) : jsnum :=
  let total := Z.of_nat (length passed) in
  if 0 <? total then num_div (num_of_Z (Z.of_nat (length (select (λ b, b) passed)))) (num_of_Z total) else num_of_Z 0.

Definition overall (config : AssertionConfig) (passed : list bool) : bool :=
  let criticalFailed := existsb (λ ap, is_critical ap.1 && negb ap.2) (combine (acf_assertions config) passed) in
  SFleb (acf_pass_threshold config) (score_of passed) && (negb (acf_critical_must_pass config) || negb criticalFailed).

Section verdicts.
Context `{JsEngine} {W : Type} `{AssertHost W}.

(** The guest callbacks are the last argument. *)
Definition evaluateAssertionsV2 (config : AssertionConfig) (ctx : EvaluationContext W) : SM W (list AssertionResult * bool * jsnum) :=
  results ← evaluateAll ctx (acf_assertions config);
  let passed := map ar_passed results in
  mret (results, overall config passed, score_of passed).

(** A result of the first evaluator: the actual text and the error. *)
Record V1Result := mkV1Result { v1_passed : bool; v1_actual : option string; v1_error : option string }.

(** [outputs.get(source)] that is not empty. *)
Definition output_of (a : Assertion) (outputs : list (string * string)) : option string :=
  truthy (match get_prop "source" a with Some k => get_json k outputs | None => None end).

(** [assertion.expect.k]: an assertion without [expect] throws. *)
Definition v1_expect (a : Assertion) (k : string) : JsError + option json :=
  match get_prop "expect" a with
  | None => inl (mkJsError "TypeError" ("Cannot read properties of undefined (reading '" +:+ k +:+ "')"))
  | Some JNull => inl (mkJsError "TypeError" ("Cannot read properties of null (reading '" +:+ k +:+ "')"))
  | Some (JObj o) => inr (get_prop k o)
  | Some _ => inr None
  end.

Definition v1_command_output (a : Assertion) (output : string) : JsError + V1Result :=
  contains ← v1_expect a "stdout_contains";
  let passed := match json_truthy contains with Some x => str_includes output (js_String x) | None => false end in
  matches ← v1_expect a "stdout_matches";
  inr (match json_truthy matches with
       | None => mkV1Result passed (Some output) None
       | Some pat =>
         if short_enough pat then
           match regex (W := W) (js_String pat) with
           | inr test => mkV1Result (test output) (Some output) None
           | inl _ => mkV1Result passed (Some output) (Some ("Invalid regex pattern: " +:+ js_String pat))
           end
         else mkV1Result passed (Some output) (Some ("Regex pattern too long (" +:+ show_length pat +:+ " chars, max 500)"))
       end).

Definition v1_process_state (a : Assertion) (output : string) : JsError + V1Result :=
  field ← v1_expect a "json_field";
  match json_truthy field with
  | None => inr (mkV1Result false (Some output) None)
  | Some field =>
    match JSON_parse output with
    | None | Some JNull => inr (mkV1Result false (Some output) (Some "Failed to parse JSON output"))
    | Some v =>
      unwanted ← v1_expect a "json_field_not_equals";
      inr (mkV1Result (match json_truthy unwanted with None => false | x => negb (js_strict_eq (member v (js_String field)) x) end) (Some output) None)
    end
  end.

Definition v1_eval (outputs screenshots : list (string * string)) (a : Assertion) : V1Result :=
  let source := shown (get_prop "source" a) in
  let on_output missing eval :=
    match output_of a outputs with
    | None => mkV1Result false None (Some (missing +:+ source))
    | Some output =>
      match eval a output with
      | inr r => r
      | inl e => mkV1Result false (Some output) (Some ("Assertion evaluation error: " +:+ error_text e))
      end
    end in
  match get_prop "type" a with
  | Some (JStr "command_output") => on_output "No output captured for source: " v1_command_output
  | Some (JStr "screenshot_check") =>
    match output_of a screenshots with
    | None => mkV1Result false None (Some ("Screenshot not captured: " +:+ source))
    | Some path => mkV1Result true (Some ("Screenshot captured: " +:+ path)) None
    end
  | Some (JStr "process_state") => on_output "No output for source: " v1_process_state
  | _ => mkV1Result false None None
  end.

Definition evaluateAssertions (config : AssertionConfig) (outputs screenshots : list (string * string)) : list V1Result * bool * jsnum :=
  let results := map (v1_eval outputs screenshots) (acf_assertions config) in
  let passed := map v1_passed results in
  (results, overall config passed, score_of passed).
End verdicts.
