(* ===== verification/Narrative.v ===== *)
(** The pure parts of the scenario engine: the workflow document and its tool blocks
    (scenarios/narrative.ts, extractToolBlocks of scenarios/runner.ts), references to
    parameters and secrets, capabilities and names (scenarios/orchestrator.ts), and
    the identity of a run (scenarios/envelope-hash.ts). *)

From stdpp Require Import strings.
From S2P Require Import Prelude JsVal JsonReader Manifest Signing BuildYaml Build Probes ReleaseDeploy Oci Assertions.

(** What the engine gets from outside: YAML, the environment and SHA-256. *)
Class ScenarioText := {
  yaml_parse : string → JsError + json;
  environment : string → option string;
  scenario_sha256 : string → string
}.

Definition LF : ascii := Ascii.ascii_of_nat 10.
Definition CR : ascii := Ascii.ascii_of_nat 13.

(** [params.k] *)
Definition prop_in (k : string) (v : json) : option json := match v with JObj o => get_prop k o | _ => None end.
(** [v === t] *)
Definition is_json_text (t : string) (v : json) : bool := match v with JStr s => s =?s t | _ => false end.
(** [v ?? d] *)
Definition or_else (v : option json) (d : json) : json := match v with None | Some JNull => d | Some x => x end.

(** ** Tool blocks *)

Record ToolBlock := mkToolBlock { tb_tool : string; tb_params : json; tb_context : string }.

(** [Object.keys(parsed)[0]] and the value under it; [null] has no keys. *)
Definition tool_of (parsed : json) : option (string * json) :=
  match parsed with
  | JNull => None
  | JObj ((k, v) :: _) => Some (k, or_else (Some v) (JObj []))
  | JArr (v :: _) => Some ("0", or_else (Some v) (JObj []))
  | JStr (String c _) => Some ("0", JStr (String c ""))
  | _ => Some ("undefined", JObj [])
  end.

Definition fence : string := "```".
Definition tool_fence : string := "```tool".

(** The text before and after the first occurrence of [p]. *)
Fixpoint cut (p s : string) : option (string * string) :=
  if starts_with p s then Some ("", str_drop (String.length p) s)
  else match s with
  | EmptyString => None
  | String c s' => option_map (λ ba, (String c ba.1, ba.2)) (cut p s')
  end.

Section documents.
Context `{ScenarioText}.

(** One block per match of the regular expression; a match takes characters, so the
    length of the text is enough. *)
Fixpoint extract_blocks (fuel : nat) (markdown : string) : list ToolBlock :=
  match fuel with
  | O => []
  | S fuel =>
    match cut (tool_fence +:+ String LF "") markdown with
    | None => []
    | Some (before, rest) =>
      match cut fence rest with
      | None => []
      | Some (content, rest) =>
        let blocks := extract_blocks fuel rest in
        match yaml_parse (trim content) with
        | inl _ => blocks
        | inr parsed =>
          match tool_of parsed with
          | Some (tool, params) => mkToolBlock tool params (trim before) :: blocks
          | None => blocks
          end
        end
      end
    end
  end.

Definition extractToolBlocks (markdown : string) : list ToolBlock := extract_blocks (String.length markdown) markdown.

(** ** The narrative *)

Record NarrativeStep := mkNarrativeStep { ns_heading : string; ns_level : nat; ns_prose : string; ns_toolBlocks : list ToolBlock }.
Record Narrative := mkNarrative { nv_title : string; nv_narrator : string; nv_steps : list NarrativeStep }.

(** The heading pattern: two to six marks, white space, and a text without a
    carriage return. *)
Definition no_CR (s : string) : bool := all_chars (λ c, negb (bool_decide (c = CR))) s.
Definition is_hash (c : ascii) : bool := bool_decide (c = "#"%char).

Definition heading (line : string) : option (nat * string) :=
  let (marks, rest) := span is_hash line in
  let (blanks, text) := span is_space rest in
  let level := String.length marks in
  let n := String.length blanks in
  if (2 <=? level)%nat && (level <=? 6)%nat && (1 <=? n)%nat
     && (if text =?s "" then (2 <=? n)%nat && no_CR (str_drop (n - 1) blanks) else no_CR text)
  then Some (level, trim text) else None.

(** Where the loop over the lines stands. *)
Record Reader := mkReader {
  rd_title : string;
  rd_narrator : string;
  rd_quoting : bool;                    (* continuation lines of the narrator *)
  rd_steps : list NarrativeStep;
  rd_current : option NarrativeStep;
  rd_prose : string;
  rd_block : option string              (* the content of an open tool block *)
}.

Definition narrator_text (line : string) : option string :=
  match after "> **Narrator**:" line, after "> *Narrator*:" line with
  | Some t, _ | None, Some t => Some (trim t)
  | None, None => None
  end.

Definition flush (r : Reader) : list NarrativeStep := rd_steps r ++ match rd_current r with Some s => [s] | None => [] end.

Definition close_block (r : Reader) (content : string) : Reader :=
  let current :=
    match yaml_parse content with
    | inl _ => rd_current r
    | inr parsed =>
      match tool_of parsed, rd_current r with
      | Some (tool, params), Some s =>
        Some (mkNarrativeStep (ns_heading s) (ns_level s) (ns_prose s) (ns_toolBlocks s ++ [mkToolBlock tool params (trim (rd_prose r))]))
      | _, c => c
      end
    end in
  mkReader (rd_title r) (rd_narrator r) false (rd_steps r) current "" None.

(** A line that neither names the document nor the narrator. *)
Definition read_body_line (r : Reader) (line : string) : Reader :=
  let open := negb (is_null (rd_block r)) in
  match (if open then None else heading line) with
  | Some (level, text) =>
    mkReader (rd_title r) (rd_narrator r) false (flush r) (Some (mkNarrativeStep text level "" [])) "" (rd_block r)
  | None =>
    if trim line =?s tool_fence then
      mkReader (rd_title r) (rd_narrator r) false (rd_steps r) (rd_current r) (rd_prose r) (Some "")
    else match rd_block r with
    | Some content =>
      if trim line =?s fence then close_block r content
      else mkReader (rd_title r) (rd_narrator r) false (rd_steps r) (rd_current r) (rd_prose r) (Some (content +:+ line +:+ newline))
    | None =>
      mkReader (rd_title r) (rd_narrator r) false (rd_steps r)
        (option_map (λ s, mkNarrativeStep (ns_heading s) (ns_level s) (ns_prose s +:+ line +:+ newline) (ns_toolBlocks s)) (rd_current r))
        (rd_prose r +:+ line +:+ newline) None
    end
  end.

Definition read_line (r : Reader) (line : string) : Reader :=
  if rd_quoting r && starts_with "> " line then
    mkReader (rd_title r) (rd_narrator r +:+ " " +:+ trim (str_drop 1 line)) true (rd_steps r) (rd_current r) (rd_prose r) (rd_block r)
  else if (rd_title r =?s "") && starts_with "# " line then
    mkReader (trim (str_drop 2 line)) (rd_narrator r) false (rd_steps r) (rd_current r) (rd_prose r) (rd_block r)
  else match narrator_text line with
  | Some t => mkReader (rd_title r) t true (rd_steps r) (rd_current r) (rd_prose r) (rd_block r)
  | None => read_body_line r line
  end.

Definition parseNarrative (markdown : string) : Narrative :=
  let r := fold_left read_line (split_on LF markdown) (mkReader "" "" false [] None "" None) in
  mkNarrative (rd_title r) (rd_narrator r) (flush r).

Definition narrativeToSummary (n : Narrative) : string :=
  let line s := s +:+ newline in
  line ("# " +:+ nv_title n) +:+ newline
  +:+ (if nv_narrator n =?s "" then "" else line ("> " +:+ nv_narrator n) +:+ newline)
  +:+ join "" (map (λ s, line (join "" (replicate (ns_level s) "#") +:+ " " +:+ ns_heading s) +:+ newline
                        +:+ line (show_Z (Z.of_nat (length (ns_toolBlocks s))) +:+ " tool invocation(s)") +:+ newline) (nv_steps n)).

(** ** References to parameters and secrets (scenarios/orchestrator.ts) *)

Inductive RefPart := RP_char (c : ascii) | RP_param (name : string) (default : option string) | RP_secret (name : string).

Definition is_ref_first (c : ascii) : bool := is_letter c || is_underscore c.
Definition is_ref_char (c : ascii) : bool := is_letter c || is_digit c || is_underscore c.

(** The name and the optional default up to the closing brace. *)
Definition match_ref_name (s : string) : option (string * option string * string) :=
  let (name, rest) := span is_ref_char s in
  match name with
  | String c _ =>
    if negb (is_ref_first c) then None
    else match after "}" rest with
    | Some tail => Some (name, None, tail)
    | None =>
      r ← after ":-" rest;
      let (def, r) := span (λ c, negb (bool_decide (c = "}"%char))) r in
      tail ← after "}" r;
      Some (name, Some def, tail)
    end
  | EmptyString => None
  end.

Definition match_ref (s : string) : option (RefPart * string) :=
  match after "${param:" s, after "${secret:" s with
  | Some r, _ => ndt ← match_ref_name r; let '(name, def, tail) := ndt in Some (RP_param name def, tail)
  | None, Some r => ndt ← match_ref_name r; let '(name, _, tail) := ndt in Some (RP_secret name, tail)
  | None, None => None
  end.

Fixpoint ref_parts (fuel : nat) (s : string) : list RefPart :=
  match fuel, s with
  | S fuel, String c s' =>
    match match_ref s with
    | Some (part, tail) => part :: ref_parts fuel tail
    | None => RP_char c :: ref_parts fuel s'
    end
  | _, _ => []
  end.

Definition mergeRuntimeParams (declared : option json) (supplied : json_object) : json_object :=
  fold_left (λ o kv, set_prop kv.1 kv.2 o) supplied (match declared with Some (JObj o) => o | _ => [] end).

Definition secretFromEnv (name : string) : option string :=
  match environment ("SIGNALMAN_SECRET_" +:+ name) with Some v => Some v | None => environment name end.

Definition unresolved (message : string) : JsError := mkJsError "ReferenceResolutionError" message.
End documents.

Section references.
Context `{ScenarioText} `{JsEngine}.

Definition ref_text (params : json_object) (part : RefPart) : JsError + string :=
  match part with
  | RP_char c => inr (String c "")
  | RP_secret name =>
    match secretFromEnv name with Some v => inr v | None => inl (unresolved ("secret-unresolved: " +:+ name)) end
  | RP_param name def =>
    match get_prop name params, def with
    | Some v, _ => inr (js_String v)
    | None, Some d => inr d
    | None, None => inl (unresolved ("parameter-unresolved: " +:+ name))
    end
  end.

Fixpoint concat_refs (params : json_object) (parts : list RefPart) : JsError + string :=
  match parts with
  | [] => inr ""
  | p :: ps => t ← ref_text params p; ts ← concat_refs params ps; inr (t +:+ ts)
  end.

Definition substituteRuntimeRefs (input : string) (params : json_object) : JsError + string :=
  concat_refs params (ref_parts (String.length input) input).

Fixpoint substituteRuntimeRefsDeep (params : json_object) (value : json) : JsError + json :=
  match value with
  | JStr s => t ← substituteRuntimeRefs s params; inr (JStr t)
  | JArr l =>
    r ← (fix go l := match l with
                     | [] => inr []
                     | v :: l => x ← substituteRuntimeRefsDeep params v; xs ← go l; inr (x :: xs)
                     end) l;
    inr (JArr r)
  | JObj fields =>
    r ← (fix go (l : json_object) : JsError + json_object :=
           match l with
           | [] => inr []
           | (k, v) :: l => x ← substituteRuntimeRefsDeep params v; xs ← go l; inr ((k, x) :: xs)
           end) fields;
    inr (JObj r)
  | v => inr v
  end.
End references.

(** ** Capabilities (scenarios/orchestrator.ts) *)

Definition is_slash (c : ascii) : bool := bool_decide (c = "/"%char).

(** The segments of a path once [.] and [..] are resolved, last one first. *)
Definition push_segment (above : bool) (stack : list string) (segment : string) : list string :=
  if (segment =?s "") || (segment =?s ".") then stack
  else if segment =?s ".." then
    match stack with
    | [] => if above then [".."] else []
    | last :: rest => if last =?s ".." then ".." :: stack else rest
    end
  else segment :: stack.

(** [path.normalize] of a POSIX system. *)
Definition path_normalize (p : string) : string :=
  if p =?s "" then "."
  else
    let absolute := starts_with "/" p in
    let trailing := ends_with "/" p in
    let path := join "/" (rev (fold_left (push_segment (negb absolute)) (split_on "/" p) [])) in
    if path =?s "" then (if absolute then "/" else if trailing then "./" else ".")
    else (if absolute then "/" else "") +:+ path +:+ (if trailing then "/" else "").

(** [s.replace(/[\\/]+/g, "/")] *)
Fixpoint squash (after_sep : bool) (s : string) : string :=
  match s with
  | EmptyString => ""
  | String c s' =>
    if is_slash c || bool_decide (c = backslash) then (if after_sep then squash true s' else String "/" (squash true s'))
    else String c (squash false s')
  end.

Definition normalizeCapabilityPath (p : string) : string := lower (squash false (path_normalize p)).

Definition pattern_allows (norm pattern : string) : bool :=
  let p := normalizeCapabilityPath pattern in
  if ends_with "/**" p then
    let prefix := str_take (String.length p - 3) p in (norm =?s prefix) || starts_with (prefix +:+ "/") norm
  else norm =?s p.

Definition pathAllowed (actual : string) (allowed : list string) : bool :=
  existsb (pattern_allows (normalizeCapabilityPath actual)) allowed.

(** The texts of an array, and the objects. *)
Definition texts (v : option json) : list string :=
  match v with Some (JArr l) => omap (λ x, match x with JStr s => Some s | _ => None end) l | _ => [] end.
Definition objects (v : option json) : list json_object :=
  match v with Some (JArr l) => omap (λ x, match x with JObj o => Some o | _ => None end) l | _ => [] end.

Section capabilities.
Context `{ScenarioText} `{JsEngine}.

(** [step.direction ?? "host_to_guest"] *)
Definition direction_of (step : json_object) : json := or_else (get_prop "direction" step) (JStr "host_to_guest").

Definition writes_host (step : json_object) : bool :=
  is_json_text "from_vm" (direction_of step) || is_json_text "guest_to_host" (direction_of step).

Definition copyStepHostPath (step : json_object) : option string :=
  match get_prop "host_path" step with
  | Some (JStr p) => Some p
  | _ =>
    if is_json_text "vm_copy_file" (or_else (get_prop "action" step) JNull) then
      match (if writes_host step then get_prop "dest" step else get_prop "src" step) with Some (JStr p) => Some p | _ => None end
    else None
  end.

Definition requireCapability (condition : bool) (message : string) : JsError + () :=
  if condition then inr () else inl (plain_error ("capability-denied: " +:+ message)).

(** [set.size === 0 || set.has(x)] *)
Definition declared (set : list string) (x : json) : bool :=
  match set with [] => true | _ => match x with JStr s => existsb (λ y, y =?s s) set | _ => false end end.

Record Capabilities := mkCapabilities {
  cp_vms : list string;
  cp_networks : list string;
  cp_read : list string;
  cp_write : list string
}.

Definition capabilities_of (caps : json) : Capabilities :=
  let paths := match prop_in "host_paths" caps with Some v => v | None => JNull end in
  mkCapabilities (texts (prop_in "vms" caps) ++ texts (prop_in "hosts" caps)) (texts (prop_in "networks" caps))
    (texts (prop_in "read" paths)) (texts (prop_in "write" paths)).

Definition check_vm (caps : Capabilities) (vm : json_object) : JsError + () :=
  let name := or_else (get_prop "name" vm) JNull in
  requireCapability (declared (cp_vms caps) name) ("VM '" +:+ js_String name +:+ "' is not declared in capabilities.vms") ≫= λ _,
  match json_truthy (get_prop "network" vm ≫= prop_in "switch") with
  | Some switch =>
    requireCapability (declared (cp_networks caps) switch) ("network '" +:+ js_String switch +:+ "' is not declared in capabilities.networks")
  | None => inr ()
  end.

(** [if (!hostPath) continue]: an empty path is not looked at. *)
Definition check_step (caps : Capabilities) (step : json_object) : JsError + () :=
  let action := shown (get_prop "action" step) in
  match json_truthy (get_prop "vm" step) with
  | Some vm => requireCapability (declared (cp_vms caps) vm) ("step '" +:+ action +:+ "' targets undeclared VM '" +:+ js_String vm +:+ "'")
  | None => inr ()
  end ≫= λ _,
  match truthy (copyStepHostPath step) with
  | None => inr ()
  | Some hostPath =>
    let writes := writes_host step in
    requireCapability (pathAllowed hostPath (if writes then cp_write caps else cp_read caps))
      ("step '" +:+ action +:+ "' " +:+ (if writes then "writes" else "reads") +:+ " undeclared host path '" +:+ hostPath +:+ "'")
  end.

Fixpoint check_all {A} (check : A → JsError + ()) (l : list A) : JsError + () :=
  match l with [] => inr () | x :: l => check x ≫= λ _, check_all check l end.

(** [{ action: block.tool, ...block.params }] *)
Definition block_step (b : ToolBlock) : json_object :=
  match tb_params b with JObj o => o | _ => [] end ++ [("action", JStr (tb_tool b))].

Definition assertScenarioCapabilities (config : json) (workflowMarkdown : string) : JsError + () :=
  match json_truthy (prop_in "capabilities" config) with
  | None => inr ()
  | Some c =>
    let caps := capabilities_of c in
    check_all (check_vm caps) (objects (prop_in "vms" config)) ≫= λ _,
    check_all (check_step caps)
      (objects (prop_in "setup" config) ++ objects (prop_in "teardown" config) ++ map block_step (extractToolBlocks workflowMarkdown))
  end.

(** ** Names *)

(** Every character outside the class becomes a dash. *)
Fixpoint dash_others (ok : ascii → bool) (s : string) : string :=
  match s with EmptyString => "" | String c s' => String (if ok c then c else "-"%char) (dash_others ok s') end.
(** Runs of dashes become one. *)
Fixpoint single_dashes (s : string) : string :=
  match s with
  | EmptyString => ""
  | String c s' =>
    match s' with
    | String d _ => if is_dash c && is_dash d then single_dashes s' else String c (single_dashes s')
    | EmptyString => s
    end
  end.
Fixpoint strip_dashes_start (s : string) : string := match s with String c s' => if is_dash c then strip_dashes_start s' else s | _ => s end.
Fixpoint strip_dashes_end (s : string) : string :=
  match s with
  | EmptyString => ""
  | String c s' => let t := strip_dashes_end s' in if (t =?s "") && is_dash c then "" else String c t
  end.
Definition dashed (ok : ascii → bool) (name : string) : string :=
  strip_dashes_end (strip_dashes_start (single_dashes (dash_others ok (lower name)))).

Definition slugifyScenarioName (name : string) : string :=
  let slug := dashed (λ c, is_lower c || is_digit c) name in if slug =?s "" then "scenario" else slug.

(** ** The identity of a run (scenarios/envelope-hash.ts) *)

Fixpoint first_some {A} (l : list (option A)) : option A :=
  match l with [] => None | Some x :: _ => Some x | None :: l => first_some l end.

(** The first number without a JSON text. *)
Fixpoint non_finite (v : json) : option jsnum :=
  match v with
  | JNum n => if num_isFinite n then None else Some n
  | JArr l => first_some (map non_finite l)
  | JObj fields => first_some (map snd (order_asc fst (map (λ kv, (kv.1, non_finite kv.2)) fields)))
  | _ => None
  end.

Definition canonicalJson (v : json) : JsError + string :=
  match non_finite v with
  | None => inr (canonicalize v)
  | Some n => inl (mkJsError "EnvelopeHashError"
      ("cannot canonicalize value: non-finite number is not JSON-representable: " +:+ num_to_string n))
  end.

(** The byte-order mark in UTF-8. *)
Definition BOM : string := String (Ascii.ascii_of_nat 239) (String (Ascii.ascii_of_nat 187) (String (Ascii.ascii_of_nat 191) "")).

(** [replace(/\r\n/g, "\n")] *)
Fixpoint unix_lines (s : string) : string :=
  match s with
  | EmptyString => ""
  | String c s' =>
    match s' with
    | String d _ => if bool_decide (c = CR) && bool_decide (d = LF) then unix_lines s' else String c (unix_lines s')
    | EmptyString => s
    end
  end.

Definition normalizeWorkflow (content : string) : string := unix_lines (match after BOM content with Some r => r | None => content end).

Definition computeScenarioHash (setup assertions : json) (workflow : string) : JsError + string :=
  s ← canonicalJson setup;
  a ← canonicalJson assertions;
  combined ← canonicalJson (JObj [("assertions", JStr (scenario_sha256 a)); ("setup", JStr (scenario_sha256 s));
                                  ("workflow", JStr (scenario_sha256 (normalizeWorkflow workflow)))]);
  inr (scenario_sha256 combined).

Definition sanitizeSwitchName : string → string := dashed (λ c, is_lower c || is_digit c || is_underscore c || is_dash c).

Definition classifyNetwork (pre_started : bool) (switch : option string) : string :=
  if pre_started then "pre-started"
  else match truthy switch with
  | Some sw => let s := sanitizeSwitchName sw in if s =?s "" then "default" else s
  | None => "default"
  end.

Definition aggregateVmLineageHashes (hashes : list string) : string :=
  match hashes with
  | [] => ""
  | [h] => h
  | _ => scenario_sha256 (canonicalize (JArr (map JStr (order_asc (λ h, h) hashes))))
  end.

(** [new Set(l)]: the first of each. *)
Fixpoint unique (seen l : list string) : list string :=
  match l with
  | [] => []
  | x :: l => if existsb (λ y, y =?s x) seen then unique seen l else x :: unique (x :: seen) l
  end.

Definition aggregateUniqueStrings (labels : list (option string)) : option string :=
  match omap truthy labels with
  | [] => None
  | real => Some (join "," (order_asc (λ h, h) (unique [] real)))
  end.
Definition aggregateAgentVersions : list (option string) → option string := aggregateUniqueStrings.
End capabilities.
