(* ===== verification/Reporter.v ===== *)
(** The JUnit report of a scenario run (output/reporter.ts): the results that it is
    made of and its text.  An assertion whose id is not a text makes the writer throw. *)

From stdpp Require Import strings.
From S2P Require Import Prelude JsVal JsTime JsonReader Signing BuildYaml Build Probes ReleaseDeploy Oci Assertions Narrative.

Record ToolBlockResult := mkToolBlockResult {
  tr_stepIndex : nat;
  tr_tool : string;
  tr_passed : bool;
  tr_error : option string;
  tr_outputSnippet : option string
}.

Record AssertionResultEntry := mkAssertionResultEntry {
  re_id : option json;
  re_description : option json;
  re_severity : string;
  re_passed : bool;
  re_actual : option string;
  re_error : option string
}.

Record TestResult := mkTestResult {
  tt_scenario : string;
  tt_startedAt : string;
  tt_finishedAt : string;
  tt_durationMs : Z;
  tt_passed : bool;
  tt_score : jsnum;
  tt_assertions : list AssertionResultEntry;
  tt_toolBlocks : list ToolBlockResult;
  tt_screenshots : list string;
  tt_errors : list string
}.

(** [s.replace(/c/g, by)] *)
Fixpoint replace_char (c : ascii) (by_ s : string) : string :=
  match s with
  | EmptyString => ""
  | String d s => if bool_decide (d = c) then by_ +:+ replace_char c by_ s else String d (replace_char c by_ s)
  end.

Definition escapeXml (str : string) : string :=
  replace_char "'" "&apos;" (replace_char dquote "&quot;" (replace_char ">" "&gt;" (replace_char "<" "&lt;" (replace_char "&" "&amp;" str)))).

(** [escapeXml] of something that may not be a text. *)
Definition escape_any (v : option json) : JsError + string :=
  match v with
  | Some (JStr s) => inr (escapeXml s)
  | None => inl (mkJsError "TypeError" "Cannot read properties of undefined (reading 'replace')")
  | Some JNull => inl (mkJsError "TypeError" "Cannot read properties of null (reading 'replace')")
  | Some _ => inl (mkJsError "TypeError" "str.replace is not a function")
  end.

Definition xml_line (s : string) : string := s +:+ String LF "".
Definition xml_attr (name value : string) : string := " " +:+ name +:+ "=" +:+ String dquote (value +:+ String dquote "").

(** [(ms / 1000).toFixed(3)] *)
Definition seconds_fixed (ms : Z) : string := (if ms <? 0 then "-" else "") +:+ show_Z (Z.abs ms / 1000) +:+ "." +:+ dec 3 (Z.abs ms mod 1000).

Definition junit_case (scenario name failure : string) : string :=
  xml_line ("    <testcase" +:+ xml_attr "name" name +:+ xml_attr "classname" (escapeXml scenario) +:+ xml_attr "time" "0" +:+ ">")
  +:+ failure +:+ xml_line "    </testcase>".

Definition junit_failure (message type_ detail : string) : string :=
  xml_line ("      <failure" +:+ xml_attr "message" (escapeXml message) +:+ xml_attr "type" type_ +:+ ">") +:+ detail +:+ xml_line "      </failure>".

Definition junit_block (scenario : string) (tb : ToolBlockResult) : string :=
  let testName := "step-" +:+ show_Z (Z.of_nat (tr_stepIndex tb)) +:+ "." +:+ tr_tool tb in
  junit_case scenario (escapeXml testName) 
    (if tr_passed tb then ""
     else junit_failure (match tr_error tb with Some e => e | None => "Tool block '" +:+ testName +:+ "' failed" end) "tool_block"
       (match truthy (tr_outputSnippet tb) with Some t => xml_line ("        Output snippet: " +:+ escapeXml t) | None => "" end)).

Definition junit_assertion (scenario : string) (a : AssertionResultEntry) : JsError + string :=
  id ← escape_any (re_id a);
  inr (junit_case scenario id
    (if re_passed a then ""
     else junit_failure (match re_error a with
                         | Some e => e
                         | None => "Expected assertion '" +:+ match re_id a with Some (JStr i) => i | _ => "" end +:+ "' to pass"
                         end) (re_severity a)
       (match truthy (re_actual a) with Some t => xml_line ("        Actual: " +:+ escapeXml t) | None => "" end))).

Fixpoint junit_assertions (scenario : string) (l : list AssertionResultEntry) : JsError + string :=
  match l with
  | [] => inr ""
  | a :: l => x ← junit_assertion scenario a; rest ← junit_assertions scenario l; inr (x +:+ rest)
  end.

Definition count_failed {A} (passed : A → bool) (l : list A) : nat := length (select (λ a, negb (passed a)) l).

(** The text that writeJunitReport writes to results.xml. *)
Definition junit_xml (result : TestResult) : JsError + string :=
  let testCount := (length (tt_assertions result) + length (tt_toolBlocks result))%nat in
  let failures := (count_failed re_passed (tt_assertions result) + count_failed tr_passed (tt_toolBlocks result))%nat in
  assertions ← junit_assertions (tt_scenario result) (tt_assertions result);
  inr (xml_line ("<?xml" +:+ xml_attr "version" "1.0" +:+ xml_attr "encoding" "UTF-8" +:+ "?>") +:+ xml_line "<testsuites>"
    +:+ xml_line ("  <testsuite" +:+ xml_attr "name" (escapeXml (tt_scenario result)) +:+ xml_attr "tests" (show_Z (Z.of_nat testCount))
          +:+ xml_attr "failures" (show_Z (Z.of_nat failures)) +:+ xml_attr "time" (seconds_fixed (tt_durationMs result))
          +:+ xml_attr "timestamp" (tt_startedAt result) +:+ ">")
    +:+ join "" (map (junit_block (tt_scenario result)) (tt_toolBlocks result)) +:+ assertions
    +:+ xml_line "  </testsuite>" +:+ xml_line "</testsuites>").

(** ** Escaped text stays inside an attribute *)

Fixpoint occurs (c : ascii) (s : string) : bool := match s with EmptyString => false | String d s => bool_decide (d = c) || occurs c s end.

Lemma occurs_app c s t : occurs c (s +:+ t) = occurs c s || occurs c t.
Proof. induction s as [|d s IH]; [done|]. rewrite str_app_cons. cbn. by rewrite IH, orb_assoc. Qed.

(** Replacing brings in only what the replacement holds. *)
Lemma replace_char_occurs c d t s : occurs c t = false → d = c ∨ occurs c s = false → occurs c (replace_char d t s) = false.
Proof.
  intros Ht Hs. induction s as [|e s IH]; [done|]. cbn in *.
  assert (Hr : occurs c (replace_char d t s) = false) by (apply IH; destruct Hs as [|[_ ?]%orb_false_iff]; auto). clear IH.
  destruct (bool_decide (e = d)) eqn:He; [by rewrite occurs_app, Ht, Hr|]. apply bool_decide_eq_false in He. cbn. rewrite Hr, orb_false_r. apply bool_decide_eq_false.
  destruct Hs as [->|[He'%bool_decide_eq_false _]%orb_false_iff]; congruence.
Qed.

Lemma escapeXml_closed c s : In c ["<"; ">"; "'"; dquote]%char → occurs c (escapeXml s) = false.
Proof.
  unfold escapeXml. intros [<-|[<-|[<-|[<-|[]]]]]; repeat (apply replace_char_occurs; [reflexivity|first [by left|right]]).
Qed.
