(* ===== verification/Scenario.v ===== *)
(** Running a scenario (scenarios/orchestrator.ts): resolving the virtual machines,
    software bundles, setup and teardown steps with their retries, the tool blocks of
    the workflow, the assertions, the clean-up that always follows and the report. *)

From stdpp Require Import strings.
From S2P Require Import Prelude JsVal JsTime JsonReader Signing BuildYaml Build Probes ReleaseDeploy Oci Assertions Narrative Reporter.

(** ** Data *)

Record VMHandle := mkVMHandle { vh_id : string; vh_name : string; vh_backend : string }.

Record VmDefinition := mkVmDefinition {
  vd_name : string;
  vd_template : string;
  vd_checkpoint_restore : option string;
  vd_wait_for_heartbeat : bool;
  vd_provision_if_missing : bool;
  vd_ephemeral : bool;
  vd_pre_started : bool;
  vd_switch : option string;
  vd_kernel_debug : bool;
  vd_credentials : option json;
  vd_fields : json_object               (* the whole entry: port, addresses, debugger *)
}.

Record EphemeralVmRecord := mkEphemeralVmRecord { er_name : string; er_handle : VMHandle; er_lineage : string }.

Record RetryPolicy := mkRetryPolicy { rp_count : nat; rp_backoff_ms : Z; rp_jitter : bool }.

Record SetupStep := mkSetupStep { st_action : string; st_vm : string; st_retry : option RetryPolicy; st_fields : json_object }.

Inductive StepStatus := SS_success | SS_failed | SS_skipped.
#[global] Instance StepStatus_eq_dec : EqDecision StepStatus.
Proof. solve_decision. Defined.

Record StepResult := mkStepResult {
  sr_action : string;
  sr_vm : string;
  sr_status : StepStatus;
  sr_duration_ms : Z;
  sr_error : option string;
  sr_attempts : option nat;
  sr_attempt_failures : list string     (* left out when it is empty *)
}.

(** What both evaluators are brought to. *)
Record AssertionEntry := mkAssertionEntry {
  ae_id : option json;
  ae_description : option json;
  ae_passed : bool;
  ae_actual : option string;
  ae_error : option string
}.

Inductive RunStatus := RS_passed | RS_failed | RS_error.
#[global] Instance RunStatus_eq_dec : EqDecision RunStatus.
Proof. solve_decision. Defined.

(** What the caller is told while the run goes on. *)
Inductive Event :=
| EV_started (i : nat) (kind vm : string)
| EV_retry_started (i : nat) (kind vm : string) (attempt of_ : nat) (previous_error : string) (backoff_ms : Z)
| EV_completed (i : nat) (kind vm : string) (duration_ms : Z) (attempts : option nat)
| EV_skipped (i : nat) (kind vm : string) (reason : option string)
| EV_failed (i : nat) (kind vm : string) (duration_ms : Z) (error : string) (attempts : option nat)
| EV_assertion_passed (id : option json)
| EV_assertion_failed (id : option json) (actual error : option string).

Record GuestResult := mkGuestResult { gr_exitCode : Z; gr_stdout : string; gr_stderr : string }.
Record BundleResult := mkBundleResult { br_failed : nat; br_total : nat; br_first : option (string * string) }.
Record LoadResult := mkLoadResult { lr_config : json; lr_assertions : AssertionConfig; lr_assertions_json : json; lr_workflow : string }.

(** What the run did to machines, files and containers, in order. *)
Inductive Call :=
| CL_read (path vm : string)            (* a host file goes into a guest *)
| CL_write (path vm : string)           (* a host file is written *)
| CL_exec (vm : string)
| CL_install (vm : string)
| CL_bundle (vm path : string)
| CL_restore (vm : string)
| CL_checkpoint (vm : string)
| CL_docker
| CL_tool (tool : string)
| CL_saved (path vm : string)           (* an image of a guest goes into a host file *)
| CL_report (path : string)             (* a file of the report *)
| CL_provisioned (name : string)
| CL_destroyed (name : string).

(** ** The world *)

(** The variables of one run that its handlers and its end still see. *)
Record ScenarioRun := mkRun {
  ru_name : string;
  ru_status : RunStatus;
  ru_error : option string;
  ru_setup : list StepResult;
  ru_teardown : list StepResult;
  ru_assertions : list AssertionEntry;
  ru_blocks : list ToolBlockResult;
  ru_outputs : list (string * string);
  ru_vmMap : option (list (string * VMHandle));
  ru_teardownSteps : list SetupStep;
  ru_retry : option RetryPolicy;
  ru_ephemeral : list EphemeralVmRecord;
  ru_hash : option string;
  ru_agents : list (string * option string);
  ru_networks : list (string * string);
  ru_credentials : list (string * json)
}.

(** [run] with fields replaced: the status; the error; what a phase added. *)
Definition with_status (st : RunStatus) (ru : ScenarioRun) : ScenarioRun :=
  mkRun (ru_name ru) st (ru_error ru) (ru_setup ru) (ru_teardown ru) (ru_assertions ru) (ru_blocks ru) (ru_outputs ru) (ru_vmMap ru)
    (ru_teardownSteps ru) (ru_retry ru) (ru_ephemeral ru) (ru_hash ru) (ru_agents ru) (ru_networks ru) (ru_credentials ru).
Definition with_error (e : string) (ru : ScenarioRun) : ScenarioRun :=
  mkRun (ru_name ru) (ru_status ru) (Some e) (ru_setup ru) (ru_teardown ru) (ru_assertions ru) (ru_blocks ru) (ru_outputs ru) (ru_vmMap ru)
    (ru_teardownSteps ru) (ru_retry ru) (ru_ephemeral ru) (ru_hash ru) (ru_agents ru) (ru_networks ru) (ru_credentials ru).
Definition with_name (n : string) (ru : ScenarioRun) : ScenarioRun :=
  mkRun n (ru_status ru) (ru_error ru) (ru_setup ru) (ru_teardown ru) (ru_assertions ru) (ru_blocks ru) (ru_outputs ru) (ru_vmMap ru)
    (ru_teardownSteps ru) (ru_retry ru) (ru_ephemeral ru) (ru_hash ru) (ru_agents ru) (ru_networks ru) (ru_credentials ru).
Definition with_setup (l : list StepResult) (ru : ScenarioRun) : ScenarioRun :=
  mkRun (ru_name ru) (ru_status ru) (ru_error ru) (ru_setup ru ++ l) (ru_teardown ru) (ru_assertions ru) (ru_blocks ru) (ru_outputs ru) (ru_vmMap ru)
    (ru_teardownSteps ru) (ru_retry ru) (ru_ephemeral ru) (ru_hash ru) (ru_agents ru) (ru_networks ru) (ru_credentials ru).
Definition with_teardown (l : list StepResult) (ru : ScenarioRun) : ScenarioRun :=
  mkRun (ru_name ru) (ru_status ru) (ru_error ru) (ru_setup ru) (ru_teardown ru ++ l) (ru_assertions ru) (ru_blocks ru) (ru_outputs ru) (ru_vmMap ru)
    (ru_teardownSteps ru) (ru_retry ru) (ru_ephemeral ru) (ru_hash ru) (ru_agents ru) (ru_networks ru) (ru_credentials ru).
Definition with_assertions (l : list AssertionEntry) (ru : ScenarioRun) : ScenarioRun :=
  mkRun (ru_name ru) (ru_status ru) (ru_error ru) (ru_setup ru) (ru_teardown ru) l (ru_blocks ru) (ru_outputs ru) (ru_vmMap ru)
    (ru_teardownSteps ru) (ru_retry ru) (ru_ephemeral ru) (ru_hash ru) (ru_agents ru) (ru_networks ru) (ru_credentials ru).
Definition with_block (b : ToolBlockResult) (key output : string) (ru : ScenarioRun) : ScenarioRun :=
  mkRun (ru_name ru) (ru_status ru) (ru_error ru) (ru_setup ru) (ru_teardown ru) (ru_assertions ru) (ru_blocks ru ++ [b])
    (map_set key output (ru_outputs ru)) (ru_vmMap ru) (ru_teardownSteps ru) (ru_retry ru) (ru_ephemeral ru) (ru_hash ru) (ru_agents ru) (ru_networks ru) (ru_credentials ru).
Definition with_vms (m : list (string * VMHandle)) (steps : list SetupStep) (ru : ScenarioRun) : ScenarioRun :=
  mkRun (ru_name ru) (ru_status ru) (ru_error ru) (ru_setup ru) (ru_teardown ru) (ru_assertions ru) (ru_blocks ru) (ru_outputs ru) (Some m)
    steps (ru_retry ru) (ru_ephemeral ru) (ru_hash ru) (ru_agents ru) (ru_networks ru) (ru_credentials ru).
Definition with_retry (r : option RetryPolicy) (ru : ScenarioRun) : ScenarioRun :=
  mkRun (ru_name ru) (ru_status ru) (ru_error ru) (ru_setup ru) (ru_teardown ru) (ru_assertions ru) (ru_blocks ru) (ru_outputs ru) (ru_vmMap ru)
    (ru_teardownSteps ru) r (ru_ephemeral ru) (ru_hash ru) (ru_agents ru) (ru_networks ru) (ru_credentials ru).
Definition with_hash (h : string) (networks : list (string * string)) (ru : ScenarioRun) : ScenarioRun :=
  mkRun (ru_name ru) (ru_status ru) (ru_error ru) (ru_setup ru) (ru_teardown ru) (ru_assertions ru) (ru_blocks ru) (ru_outputs ru) (ru_vmMap ru)
    (ru_teardownSteps ru) (ru_retry ru) (ru_ephemeral ru) (Some h) (ru_agents ru) networks (ru_credentials ru).
Definition with_agents (a : list (string * option string)) (ru : ScenarioRun) : ScenarioRun :=
  mkRun (ru_name ru) (ru_status ru) (ru_error ru) (ru_setup ru) (ru_teardown ru) (ru_assertions ru) (ru_blocks ru) (ru_outputs ru) (ru_vmMap ru)
    (ru_teardownSteps ru) (ru_retry ru) (ru_ephemeral ru) (ru_hash ru) a (ru_networks ru) (ru_credentials ru).
Definition with_credentials (c : list (string * json)) (ru : ScenarioRun) : ScenarioRun :=
  mkRun (ru_name ru) (ru_status ru) (ru_error ru) (ru_setup ru) (ru_teardown ru) (ru_assertions ru) (ru_blocks ru) (ru_outputs ru) (ru_vmMap ru)
    (ru_teardownSteps ru) (ru_retry ru) (ru_ephemeral ru) (ru_hash ru) (ru_agents ru) (ru_networks ru) c.
Definition add_ephemeral (r : EphemeralVmRecord) (ru : ScenarioRun) : ScenarioRun :=
  mkRun (ru_name ru) (ru_status ru) (ru_error ru) (ru_setup ru) (ru_teardown ru) (ru_assertions ru) (ru_blocks ru) (ru_outputs ru) (ru_vmMap ru)
    (ru_teardownSteps ru) (ru_retry ru) (ru_ephemeral ru ++ [r]) (ru_hash ru) (ru_agents ru) (ru_networks ru) (ru_credentials ru).

(** The host outside, the machines that have a guest client, the events, the calls
    and the run. *)
Record SW (X : Type) := mkSW { sw_ext : X; sw_clients : list string; sw_events : list Event; sw_calls : list Call; sw_run : ScenarioRun }.
Arguments mkSW {X}. Arguments sw_ext {X}. Arguments sw_clients {X}. Arguments sw_events {X}. Arguments sw_calls {X}. Arguments sw_run {X}.

Definition set_ext {X} x (w : SW X) : SW X := mkSW x (sw_clients w) (sw_events w) (sw_calls w) (sw_run w).
Definition set_clients {X} l (w : SW X) : SW X := mkSW (sw_ext w) l (sw_events w) (sw_calls w) (sw_run w).
Definition add_event {X} e (w : SW X) : SW X := mkSW (sw_ext w) (sw_clients w) (sw_events w ++ [e]) (sw_calls w) (sw_run w).
Definition add_call {X} c (w : SW X) : SW X := mkSW (sw_ext w) (sw_clients w) (sw_events w) (sw_calls w ++ [c]) (sw_run w).
Definition set_run {X} r (w : SW X) : SW X := mkSW (sw_ext w) (sw_clients w) (sw_events w) (sw_calls w) r.

(** One reading or operation of the host. *)
Definition Op (X A : Type) : Type := X → (JsError + A) * X.

Class ScenarioHost (X : Type) := {
  sc_now : X → Z * X;
  sc_sleep : Z → X → X;
  sc_random : X → jsnum * X;
  (** Files and Node's path module; [path.resolve(p)] is [sc_resolve cwd p]. *)
  sc_exists : string → X → bool;
  sc_readFile : string → X → JsError + string;
  sc_resolve : string → string → string;
  sc_cwd : string;
  sc_dirname : string → string;
  sc_regex : bool → string → JsError + (string → bool);           (* with the flag m or without *)
  sc_not_a_text : json → JsError;
  sc_load : string → Op X LoadResult;
  (** The configuration. *)
  sc_alias : string → option string;
  sc_outputDir : option string;                                   (* where the orchestrator writes reports *)
  sc_configOutputDir : string;                                    (* scenarios.outputDir *)
  sc_screenshotDir : string;                                      (* scenarios.screenshotDir *)
  (** The hypervisor. *)
  sc_backend : string;
  sc_credentials : bool;                                          (* withGuestCredentials is there *)
  sc_heartbeat : option (VMHandle → Z → Op X bool);
  sc_listVMs : Op X (list VMHandle);
  sc_getStatus : VMHandle → Op X string;
  sc_startVM : VMHandle → Op X unit;
  sc_restoreCheckpoint : VMHandle → option json → Op X unit;
  sc_createCheckpoint : VMHandle → option json → Op X unit;
  sc_executeCommand : option json → VMHandle → option json → json → json → Op X GuestResult;
  sc_copyFileToVM : option json → VMHandle → string → option json → Op X unit;
  sc_copyFileFromVM : option json → VMHandle → option json → string → Op X unit;
  sc_provisionVM : string → VmDefinition → Op X VMHandle;
  sc_provisionEphemeralVm : string → option string → VmDefinition → Op X EphemeralVmRecord;
  sc_teardownEphemeralVm : EphemeralVmRecord → Op X unit;
  (** The guest client of a machine. *)
  sc_installSoftware : string → option json → json → option json → option json → Op X unit;
  sc_runCommand : string → option json → json → json → option json → Op X GuestResult;
  sc_writeFile : string → option json → string → bool → Op X unit;
  sc_readGuestFile : string → option json → Op X string;          (* chunk after chunk *)
  sc_httpCopy : string → string → option json → Op X unit;
  sc_agentVersion : string → X → option string * X;
  sc_installBundle : string → string → Op X BundleResult;
  sc_writeHostFile : string → string → Op X unit;
  sc_mkdir : string → Op X unit;                                  (* with the directories above *)
  (** Waiting for the agents, which may connect clients; debugger sessions. *)
  sc_waitForGuestAgents : list VmDefinition → list (string * VMHandle) → list string → X → (option JsError * list string) * X;
  sc_spawnKernelDebug : list VmDefinition → Op X unit;
  sc_teardownKernelDebug : X → X;
  (** Docker, when there is a client. *)
  sc_docker : bool;
  sc_composeUp : json_object → option json → Op X unit;
  sc_composePs : json_object → Op X (list (string * string));
  sc_waitForHealthy : string → json → Op X bool;
  sc_composeDown : json_object → option json → Op X unit;
  (** The tools of the user interface, the browser and the debugger.  The ones that
      take a picture give it, if there is one, and the answer from the path under
      which it was saved. *)
  sc_capture : string → string → json → Op X (option string * (option string → string));
  sc_tool : string → option (string → json → Op X string);
  (** Turns of a poll; enough when the clock passes the deadline before. *)
  sc_fuel : nat
}.

#[global] Instance scenario_asserts {X} `{ScenarioHost X} : AssertHost (SW X) := {|
  ah_now w := let (t, x) := sc_now (sw_ext w) in (t, set_ext x w);
  ah_exists p w := sc_exists p (sw_ext w);
  ah_readFile p w := sc_readFile p (sw_ext w);
  path_resolve := sc_resolve;
  regex := sc_regex false;
  not_a_text := sc_not_a_text
|}.

Definition GUEST_FILE_CHUNK_BYTES : Z := 1024 * 1024.

Section orchestrator.
Context {X : Type} `{ScenarioHost X} `{ScenarioText} `{JsEngine}.

Definition op {A} (f : Op X A) : SM (SW X) A := λ w, let (r, x) := f (sw_ext w) in (r, set_ext x w).
(** An operation that is written down before it starts. *)
Definition call {A} (c : Call) (f : Op X A) : SM (SW X) A := sput (add_call c);; op f.
Definition now : SM (SW X) Z := sread ah_now.
Definition sleep (ms : Z) : SM (SW X) unit := sput (λ w, set_ext (sc_sleep ms (sw_ext w)) w).
Definition emit_event (e : Event) : SM (SW X) unit := sput (add_event e).
Definition fail {A} (message : string) : SM (SW X) A := sthrow (plain_error message).

Definition vm_missing (vm : string) : string := "VM '" +:+ vm +:+ "' not found in resolved VMs".
Definition no_client (vm : string) : string := "No guest client for VM '" +:+ vm +:+ "'".

Definition has_client (vm : string) : SM (SW X) bool := sget (λ w, existsb (λ c, c =?s vm) (sw_clients w)).

(** ** Files *)

Definition is_win_drive (p : string) : bool :=
  match p with
  | String c (String d (String s _)) => is_letter c && is_char ":" d && (is_slash s || bool_decide (s = backslash))
  | _ => false
  end.
(** [path.isAbsolute(p) || path.win32.isAbsolute(p)] *)
Definition is_absolute (p : string) : bool :=
  match p with String c _ => is_slash c || bool_decide (c = backslash) || is_win_drive p | EmptyString => false end.

Definition resolveHostFilePath (hostPath : option json) : SM (SW X) string :=
  match hostPath with
  | Some (JStr p) => mret (if is_absolute p then p else sc_resolve sc_cwd p)
  | v => sthrow (sc_not_a_text (or_else v JNull))
  end.

(** The backend with the credentials of the machine, if it has its own. *)
Definition backendForVm (credentials : list (string * json)) (vm : string) : SM (SW X) (option json) :=
  match map_get vm credentials with
  | None => mret None
  | Some c =>
    if sc_credentials then mret (Some c)
    else fail ("Backend '" +:+ sc_backend +:+ "' does not support per-VM credentials, but a credential override was requested for VM '" +:+ vm +:+ "'.")
  end.

(** The file in pieces of a megabyte; an empty one is one empty piece. *)
Fixpoint pieces (fuel : nat) (s : string) : list string :=
  match fuel with
  | O => []
  | S fuel =>
    if Z.of_nat (String.length s) <=? GUEST_FILE_CHUNK_BYTES then [s]
    else let n := Z.to_nat GUEST_FILE_CHUNK_BYTES in str_take n s :: pieces fuel (str_drop n s)
  end.

Fixpoint write_pieces (vm : string) (guestPath : option json) (append : bool) (l : list string) : SM (SW X) unit :=
  match l with
  | [] => mret ()
  | p :: l => op (sc_writeFile vm guestPath p append);; write_pieces vm guestPath true l
  end.

Definition copyFileToGuest (credentials : list (string * json)) (vm : string) (handle : VMHandle) (hostPath guestPath : option json) : SM (SW X) unit :=
  client ← has_client vm;
  p ← resolveHostFilePath hostPath;
  if negb (client : bool) then
    c ← backendForVm credentials vm;
    call (CL_read p vm) (sc_copyFileToVM c handle p guestPath)
  else if vh_id handle =?s "pre-started" then call (CL_read p vm) (sc_httpCopy vm p guestPath)
  else
    sput (add_call (CL_read p vm));;
    content ← sget (λ w, sc_readFile p (sw_ext w));
    content ← slift content;
    write_pieces vm guestPath false (pieces (S (String.length content)) content).

Definition copyFileFromGuest (credentials : list (string * json)) (vm : string) (handle : VMHandle) (guestPath hostPath : option json) : SM (SW X) unit :=
  client ← has_client vm;
  p ← resolveHostFilePath hostPath;
  if negb (client : bool) then
    c ← backendForVm credentials vm;
    call (CL_write p vm) (sc_copyFileFromVM c handle guestPath p)
  else
    sput (add_call (CL_write p vm));;
    content ← op (sc_readGuestFile vm guestPath);
    op (sc_writeHostFile p content).

(** ** Setup and teardown steps *)

Definition num_quarter : jsnum := num_div (num_of_Z 1) (num_of_Z 4).
Definition num_half : jsnum := num_div (num_of_Z 1) (num_of_Z 2).

Definition resolveStepRetry (step : SetupStep) (scenarioRetry : option RetryPolicy) : option RetryPolicy :=
  match st_retry step with Some r => Some r | None => scenarioRetry end.

Definition computeBackoff (policy : RetryPolicy) : SM (SW X) Z :=
  let base := rp_backoff_ms policy in
  if negb (rp_jitter policy) then mret base
  else
    r ← sread (λ w : SW X, let (r, x) := sc_random (sw_ext w) in (r, set_ext x w));
    let factor := num_add (num_add num_half num_quarter) (num_mul r num_half) in
    mret (Z.max 0 (num_floor (num_mul (num_of_Z base) factor))).

(** A command that ran out of time or was cancelled for it: the message, whatever
    its case, with both words on one line. *)
Definition cancelled_in_time (line : string) : bool :=
  match cut "cancelled" line with Some (_, rest) => str_includes rest "timeout" | None => false end.
Definition isDeadline (message : string) : bool :=
  let m := lower message in
  str_includes m "deadline_exceeded" || existsb (λ l, existsb cancelled_in_time (split_on CR l)) (split_on LF m).

Definition retry_deadline {A} (m : SM (SW X) A) : SM (SW X) A := scatch m (λ e, if isDeadline (je_message e) then m else sthrow e).

Definition handle_of (vmMap : list (string * VMHandle)) (vm : string) (message : string) : SM (SW X) VMHandle :=
  match map_get vm vmMap with Some h => mret h | None => fail message end.

Definition client_of (vm : string) : SM (SW X) unit := c ← has_client vm; if c : bool then mret () else fail (no_client vm).

Definition requireDocker : SM (SW X) unit :=
  if sc_docker then mret ()
  else fail "Docker action requested but no DockerClient was provided to the orchestrator. Pass a DockerClient via the `docker` option in the constructor.".

Definition compose_config (p : json_object) (file : option json) : json_object :=
  opt_prop "projectName" (get_prop "project_name" p) ++ opt_prop "composeFile" file ++ opt_prop "env" (get_prop "env" p).

Fixpoint wait_healthy (timeout : json) (containers : list (string * string)) : SM (SW X) unit :=
  match containers with
  | [] => mret ()
  | (name, state) :: l =>
    (if state =?s "running" then
       healthy ← op (sc_waitForHealthy name timeout);
       if healthy : bool then mret ()
       else fail ("Container '" +:+ name +:+ "' did not become healthy within " +:+ js_String timeout +:+ "ms")
     else mret ());;
    wait_healthy timeout l
  end.

Definition composeUp (p : json_object) : SM (SW X) unit :=
  requireDocker;;
  let config := compose_config p (get_prop "compose_file" p) in
  call CL_docker (sc_composeUp config (get_prop "services" p));;
  match json_truthy (get_prop "wait_healthy" p) with
  | None => mret ()
  | Some _ =>
    let timeout := or_else (get_prop "timeout_ms" p) (JInt 60000) in
    containers ← op (sc_composePs config);
    wait_healthy timeout containers
  end.

Definition composeDown (p : json_object) : SM (SW X) unit :=
  requireDocker;;
  call CL_docker (sc_composeDown (compose_config p (Some (or_else (get_prop "compose_file" p) (JStr "")))) (get_prop "remove_volumes" p)).

Definition copy_file (credentials : list (string * json)) (vm : string) (handle : VMHandle) (p : json_object) : SM (SW X) unit :=
  if is_json_text "host_to_guest" (direction_of p) then copyFileToGuest credentials vm handle (get_prop "host_path" p) (get_prop "guest_path" p)
  else copyFileFromGuest credentials vm handle (get_prop "guest_path" p) (get_prop "host_path" p).

Definition install_software (vm : string) (p : json_object) : SM (SW X) unit :=
  client_of vm;;
  call (CL_install vm) (sc_installSoftware vm (get_prop "package_id" p) (or_else (get_prop "source" p) (JStr "winget"))
    (get_prop "version" p) (get_prop "timeout_ms" p)).

Definition wait_step (p : json_object) : SM (SW X) unit :=
  sleep (match or_else (get_prop "duration_ms" p) (JInt 1000) with JNum n => num_floor n | _ => 0 end).

(** [result.stderr || result.stdout] *)
Definition said (r : GuestResult) : string := if gr_stderr r =?s "" then gr_stdout r else gr_stderr r.

Definition run_once (credentials : list (string * json)) (vm : string) (handle : VMHandle) (p : json_object) : SM (SW X) unit :=
  client ← has_client vm;
  let command := get_prop "command" p in
  let args := or_else (get_prop "args" p) (JArr []) in
  let timeout := or_else (get_prop "timeout_ms" p) (JInt 60000) in
  if client : bool then call (CL_exec vm) (sc_runCommand vm command args timeout (get_prop "run_as" p));; mret ()
  else
    c ← backendForVm credentials vm;
    r ← call (CL_exec vm) (sc_executeCommand c handle command args timeout);
    if gr_exitCode r =? 0 then mret () else fail ("vm_run_command exited " +:+ show_Z (gr_exitCode r) +:+ ": " +:+ said r).

Definition bundle_step (vm : string) (p : json_object) : SM (SW X) unit :=
  client_of vm;;
  match json_truthy (get_prop "bundle" p) with
  | Some (JStr path) =>
    r ← call (CL_bundle vm path) (sc_installBundle vm path);
    if (br_failed r =? 0)%nat then mret ()
    else fail ("install_bundle: " +:+ show_Z (Z.of_nat (br_failed r)) +:+ "/" +:+ show_Z (Z.of_nat (br_total r)) +:+ " packages failed"
      +:+ match br_first r with Some (package, error) => " — first: " +:+ package +:+ ": " +:+ error | None => "" end)
  | Some v => sthrow (sc_not_a_text v)
  | None => fail "install_bundle missing 'bundle' path"
  end.

(** [None] is success; an unknown action is skipped, with the reason. *)
Definition executeStepBody (credentials : list (string * json)) (step : SetupStep) (vmMap : list (string * VMHandle)) : SM (SW X) (option string) :=
  let vm := st_vm step in
  let p := st_fields step in
  let handle := handle_of vmMap vm (vm_missing vm) in
  let action := st_action step in
  if action =?s "vm_install" then handle;; install_software vm p;; mret None
  else if action =?s "install_bundle" then handle;; bundle_step vm p;; mret None
  else if action =?s "vm_copy_file" then h ← handle; copy_file credentials vm h p;; mret None
  else if action =?s "vm_run_command" then h ← handle; retry_deadline (run_once credentials vm h p);; mret None
  else if action =?s "vm_restore" then h ← handle; call (CL_restore vm) (sc_restoreCheckpoint h (get_prop "checkpoint" p));; mret None
  else if action =?s "vm_checkpoint" then h ← handle; call (CL_checkpoint vm) (sc_createCheckpoint h (get_prop "label" p));; mret None
  else if action =?s "wait" then wait_step p;; mret None
  else if action =?s "docker_compose_up" then composeUp p;; mret None
  else if action =?s "docker_compose_down" then composeDown p;; mret None
  else mret (Some ("Unknown action: " +:+ action)).

(** The attempts that are left, the number of this one and the messages so far; the
    last error or the outcome. *)
Fixpoint attempts (i : nat) (step : SetupStep) (policy : option RetryPolicy) (body : SM (SW X) (option string))
    (more attempt : nat) (failures : list string) : SM (SW X) (list string * (JsError + option string)) :=
  outcome ← scatch (r ← body; mret (inr r)) (λ e, mret (inl e));
  match outcome, more with
  | inr r, _ => mret (failures, inr r)
  | inl e, O => mret (failures, inl e)
  | inl e, S more =>
    delay ← match policy with Some p => computeBackoff p | None => mret 0 end;
    emit_event (EV_retry_started i (st_action step) (st_vm step) (S attempt) (S attempt + more) (je_message e) delay);;
    (if 0 <? delay then sleep delay else mret ());;
    attempts i step policy body more (S attempt) (failures ++ [je_message e])
  end.

Definition executeStep (credentials : list (string * json)) (vmMap : list (string * VMHandle)) (scenarioRetry : option RetryPolicy)
    (i : nat) (step : SetupStep) : SM (SW X) StepResult :=
  let kind := st_action step in
  let vm := st_vm step in
  startTime ← now;
  emit_event (EV_started i kind vm);;
  let policy := resolveStepRetry step scenarioRetry in
  let count := match policy with Some p => rp_count p | None => O end in
  r ← attempts i step policy (executeStepBody credentials step vmMap) count 1 [];
  endTime ← now;
  let '(failures, outcome) := r in
  let duration := endTime - startTime in
  let total := match outcome with inr _ => S (length failures) | inl _ => S count end in
  let recorded := if (1 <? total)%nat then Some total else None in
  match outcome with
  | inr None =>
    emit_event (EV_completed i kind vm duration recorded);;
    mret (mkStepResult kind vm SS_success duration None recorded failures)
  | inr (Some reason) =>
    emit_event (EV_skipped i kind vm (Some reason));;
    mret (mkStepResult kind vm SS_skipped duration (Some reason) recorded failures)
  | inl e =>
    emit_event (EV_failed i kind vm duration (je_message e) recorded);;
    mret (mkStepResult kind vm SS_failed duration (Some (je_message e)) recorded failures)
  end.

Fixpoint execute_from (credentials : list (string * json)) (vmMap : list (string * VMHandle)) (scenarioRetry : option RetryPolicy)
    (i : nat) (steps : list SetupStep) : SM (SW X) (list StepResult) :=
  match steps with
  | [] => mret []
  | s :: l =>
    r ← executeStep credentials vmMap scenarioRetry i s;
    rs ← execute_from credentials vmMap scenarioRetry (S i) l;
    mret (r :: rs)
  end.

Definition executeSetup (credentials : list (string * json)) (steps : list SetupStep) (vmMap : list (string * VMHandle))
    (scenarioRetry : option RetryPolicy) : SM (SW X) (list StepResult) := execute_from credentials vmMap scenarioRetry 0 steps.

Definition executeTeardown := executeSetup.

(** ** Tool blocks of the workflow *)

(** A pattern of [expect_stdout_regex] or [expect_stdout_not_regex] with the failure
    of a pattern that does not compile, for which [fallback] stands in. *)
Definition compile_expect (name pattern : string) (fallback : string → bool) : list string * (string → bool) :=
  match sc_regex true pattern with
  | inr test => ([], test)
  | inl e => ([name +:+ ": invalid regex " +:+ json_quote pattern +:+ ": " +:+ je_message e], fallback)
  end.

(** The expectations that a command did not meet. *)
Definition expectations (p : json_object) (r : GuestResult) : list string :=
  let stdout := gr_stdout r in
  let expectedExit := match get_prop "expect_exit_code" p with Some v => v | None => JInt 0 end in
  (if js_strict_eq (Some (JInt (gr_exitCode r))) (Some expectedExit) then []
   else ["expect_exit_code: expected " +:+ js_String expectedExit +:+ ", got " +:+ show_Z (gr_exitCode r) +:+ ": " +:+ said r])
  ++ match get_prop "expect_stdout" p with
     | None => []
     | Some e => if str_includes stdout (js_String e) then []
                 else ["expect_stdout: expected substring " +:+ json_stringify e +:+ " not found in stdout"]
     end
  ++ match get_prop "expect_stdout_regex" p with
     | None => []
     | Some e =>
       let (failures, test) := compile_expect "expect_stdout_regex" (js_String e) (λ _, true) in
       failures ++ (if test stdout then [] else ["expect_stdout_regex: pattern " +:+ json_stringify e +:+ " did not match stdout"])
     end
  ++ match get_prop "expect_stdout_not_regex" p with
     | None => []
     | Some e =>
       let (failures, test) := compile_expect "expect_stdout_not_regex" (js_String e) (λ s, s =?s "") in
       failures ++ (if test stdout then ["expect_stdout_not_regex: pattern " +:+ json_stringify e +:+ " unexpectedly matched stdout"] else [])
     end.

Definition snippet (n : nat) (s : string) : string := if (n <? String.length s)%nat then str_take n s +:+ "..." else s.

Definition dispatch_command (credentials : list (string * json)) (vm : string) (handle : option VMHandle) (p : json_object) : SM (SW X) (option GuestResult) :=
  client ← has_client vm;
  let command := get_prop "command" p in
  let args := or_else (get_prop "args" p) (JArr []) in
  let timeout := or_else (get_prop "timeout_ms" p) (JInt 60000) in
  if client : bool then r ← call (CL_exec vm) (sc_runCommand vm command args timeout (get_prop "run_as" p)); mret (Some r)
  else match handle with
  | Some h => c ← backendForVm credentials vm; r ← call (CL_exec vm) (sc_executeCommand c h command args timeout); mret (Some r)
  | None => mret None
  end.

Definition run_command_block (credentials : list (string * json)) (vm : string) (handle : option VMHandle) (p : json_object) : SM (SW X) string :=
  result ← retry_deadline (dispatch_command credentials vm handle p);
  match result with
  | None => fail ("VM '" +:+ vm +:+ "' not found")
  | Some r =>
    match expectations p r with
    | [] => mret (gr_stdout r)
    | failures => fail ("vm_run_command expectations failed: " +:+ join "; " failures +:+ " | stdout snippet: " +:+ json_quote (snippet 256 (gr_stdout r)))
    end
  end.

Definition CAPTURE_TOOLS : list string := ["browser_expect"; "browser_snapshot"; "ui_screenshot"; "ui_snapshot"].
Definition takes_picture (tool : string) : bool := existsb (λ t, t =?s tool) CAPTURE_TOOLS.

(** [replace(/^\.\//, "")] *)
Definition drop_here (s : string) : string := if starts_with "./" s then str_drop 2 s else s.

Definition resolveWorkflowScreenshotPath (output : string) : string :=
  if is_absolute output then output
  else
    let normalized := drop_here (replace_char backslash "/" output) in
    if (normalized =?s "output") || starts_with "output/" normalized then sc_resolve (sc_dirname sc_configOutputDir) normalized
    else sc_resolve sc_screenshotDir output.

(** A tool that takes a picture of a guest, and writes it where [output] says. *)
Definition capture_block (tool vm : string) (params : json) (p : json_object) : SM (SW X) string :=
  client_of vm;;
  (if (tool =?s "browser_expect") && is_null (json_truthy (get_prop "expression" p)) then fail "browser_expect missing 'expression'" else mret ());;
  r ← call (CL_tool tool) (sc_capture tool vm params);
  let '(image, answer) := r in
  match image, get_prop "output" p with
  | Some image, Some (JStr output) =>
    if output =?s "" then mret (answer None)
    else
      let savedPath := resolveWorkflowScreenshotPath output in
      sput (add_call (CL_saved savedPath vm));;
      op (sc_mkdir (sc_dirname savedPath));;
      op (sc_writeHostFile savedPath image);;
      mret (answer (Some savedPath))
  | _, _ => mret (answer None)
  end.

Definition executeToolBlock (credentials : list (string * json)) (tool : string) (params : json) (vmMap : list (string * VMHandle)) : SM (SW X) string :=
  let p := match params with JObj o => o | _ => [] end in
  (* params.vm ?? vmMap.keys().next().value *)
  let vm := match get_prop "vm" p with
            | None | Some JNull => match vmMap with (n, _) :: _ => n | [] => "undefined" end
            | Some v => js_String v
            end in
  if tool =?s "vm_run_command" then run_command_block credentials vm (map_get vm vmMap) p
  else if tool =?s "vm_copy_file" then h ← handle_of vmMap vm ("VM '" +:+ vm +:+ "' not found"); copy_file credentials vm h p;; mret "ok"
  else if tool =?s "vm_install" then install_software vm p;; mret "installed"
  else if tool =?s "wait" then wait_step p;; mret "waited"
  else if tool =?s "docker_compose_up" then composeUp p;; mret "compose stack started"
  else if tool =?s "docker_compose_down" then composeDown p;; mret "compose stack stopped"
  else if takes_picture tool then capture_block tool vm params p
  else match sc_tool tool with Some f => call (CL_tool tool) (f vm params) | None => fail ("Unknown workflow tool: " +:+ tool) end.

(** ** Virtual machines *)

(** The polls until a machine runs; [true] when it does before the deadline. *)
Fixpoint poll_running (fuel : nat) (handle : VMHandle) (deadline : Z) : SM (SW X) bool :=
  match fuel with
  | O => mret false
  | S fuel =>
    t ← now;
    if deadline <=? t then mret false
    else
      state ← op (sc_getStatus handle);
      if state =?s "running" then mret true
      else
        t ← now;
        if deadline - t <=? 0 then mret false
        else sleep (Z.min 1000 (deadline - t));; poll_running fuel handle deadline
  end.

Definition ensure_running (handle : VMHandle) (message : string) : SM (SW X) unit :=
  state ← op (sc_getStatus handle);
  if state =?s "running" then mret ()
  else
    op (sc_startVM handle);;
    t ← now;
    running ← poll_running sc_fuel handle (t + 60000);
    if running : bool then mret () else fail message.

Definition update_run (f : ScenarioRun → ScenarioRun) : SM (SW X) unit := sput (λ w, set_run (f (sw_run w)) w).

Definition resolve_ephemeral (slug : string) (runId : option string) (def : VmDefinition) : SM (SW X) VMHandle :=
  if negb (sc_backend =?s "hyperv") then
    fail ("VM '" +:+ vd_name def +:+ "' declares ephemeral: true but the active hypervisor backend is '" +:+ sc_backend
      +:+ "'. Ephemeral provisioning is Hyper-V-only in v0.3.0-2. Either run against the Hyper-V backend or remove the ephemeral flag.")
  else
    r ← op (sc_provisionEphemeralVm slug runId def);
    sput (add_call (CL_provisioned (er_name r)));;
    update_run (add_ephemeral r);;
    ensure_running (er_handle r) ("Ephemeral VM '" +:+ er_name r +:+ "' did not reach running state within 60000ms");;
    mret (er_handle r).

Definition physical_name (def : VmDefinition) : string := match sc_alias (vd_name def) with Some n => n | None => vd_name def end.

Definition resolve_existing (allVms : list VMHandle) (def : VmDefinition) : SM (SW X) (VMHandle * list VMHandle) :=
  let name := physical_name def in
  found ← match find_first (λ h, lower (vh_name h) =?s lower name) allVms with
          | Some h => mret (h, allVms)
          | None =>
            if vd_provision_if_missing def then h ← op (sc_provisionVM name def); mret (h, allVms ++ [h])
            else fail ("VM '" +:+ vd_name def +:+ "'" +:+ (if name =?s vd_name def then "" else " (alias for '" +:+ name +:+ "')")
              +:+ " not found in hypervisor. Available VMs: " +:+ join ", " (map vh_name allVms)
              +:+ ". Set provision_if_missing: true on this VM in setup.yaml to have signalman provision it automatically (P9.4).")
          end;
  let h := found.1 in
  match truthy (vd_checkpoint_restore def) with
  | Some label => call (CL_restore (vd_name def)) (sc_restoreCheckpoint h (Some (JStr label)))
  | None => mret ()
  end;;
  ensure_running h ("VM '" +:+ vd_name def +:+ "' did not reach running state within 60000ms");;
  match vd_wait_for_heartbeat def, sc_heartbeat with
  | true, Some beat =>
    ready ← op (beat h 180000);
    if ready : bool then mret () else fail ("VM '" +:+ vd_name def +:+ "' heartbeat did not become ready within 180000ms")
  | _, _ => mret ()
  end;;
  mret found.

Fixpoint resolve_defs (slug : string) (runId : option string) (allVms : list VMHandle) (vmMap : list (string * VMHandle)) (defs : list VmDefinition)
    : SM (SW X) (list (string * VMHandle)) :=
  match defs with
  | [] => mret vmMap
  | def :: defs =>
    if vd_pre_started def then
      resolve_defs slug runId allVms (map_set (vd_name def) (mkVMHandle "pre-started" (physical_name def) sc_backend) vmMap) defs
    else if vd_ephemeral def then
      h ← resolve_ephemeral slug runId def;
      resolve_defs slug runId allVms (map_set (vd_name def) h vmMap) defs
    else
      r ← resolve_existing allVms def;
      resolve_defs slug runId r.2 (map_set (vd_name def) r.1 vmMap) defs
  end.

Definition resolveVms (slug : string) (runId : option string) (defs : list VmDefinition) : SM (SW X) (list (string * VMHandle)) :=
  allVms ← (if some_items defs && forallb vd_pre_started defs then mret [] else op sc_listVMs);
  resolve_defs slug runId allVms [] defs.

(** ** The configuration of a scenario *)

(** Its fields, of a document that the schema accepted. *)
Definition text_of (k : string) (o : json_object) : option string := match get_prop k o with Some (JStr s) => Some s | _ => None end.
Definition bool_of (k : string) (d : bool) (o : json_object) : bool := match get_prop k o with Some (JBool b) => b | _ => d end.

Definition vm_definition (vm : json_object) : VmDefinition :=
  mkVmDefinition (text_of "name" vm ?? "") (text_of "template" vm ?? "") (text_of "checkpoint_restore" vm) (bool_of "wait_for_heartbeat" true vm)
    (bool_of "provision_if_missing" false vm) (bool_of "ephemeral" false vm) (bool_of "pre_started" false vm)
    (match get_prop "network" vm with Some (JObj o) => text_of "switch" o | _ => None end)
    (match get_prop "kernel_debug" vm with Some (JObj o) => bool_of "enabled" false o | _ => false end)
    (get_prop "credentials" vm) vm.

Definition retry_policy (v : option json) : option RetryPolicy :=
  match v with
  | Some (JObj o) =>
    let number k d := match get_prop k o with Some (JNum n) => num_floor n | _ => d end in
    Some (mkRetryPolicy (Z.to_nat (number "count" 0)) (number "backoff_ms" 1000) (bool_of "jitter" false o))
  | _ => None
  end.

Definition setup_step (o : json_object) : SetupStep :=
  mkSetupStep (text_of "action" o ?? "") (text_of "vm" o ?? "") (retry_policy (get_prop "retry" o)) o.

Definition software_of (config : json) : list (string * option string) :=
  match prop_in "software" config with
  | Some (JArr l) => map (λ v, match v with
                               | JObj o => (text_of "path" o ?? "", text_of "vm" o)
                               | v => (js_String v, None)
                               end) l
  | _ => []
  end.

Definition credentials_of (defs : list VmDefinition) : list (string * json) :=
  fold_left (λ m d, match json_truthy (vd_credentials d) with Some c => map_set (vd_name d) c m | None => m end) defs [].

Definition rebuildVmCredentialsIndex (defs : list VmDefinition) : SM (SW X) (list (string * json)) :=
  let offenders := map vd_name (select (λ d, negb (is_null (json_truthy (vd_credentials d)))) defs) in
  if sc_credentials || negb (some_items offenders) then mret (credentials_of defs)
  else fail ("Scenario declares per-VM credentials on " +:+ join ", " offenders +:+ ", but the active backend '" +:+ sc_backend
    +:+ "' does not support credential overrides (no withGuestCredentials method). Either install the signalman service daemon (signalman-service install) so the ServiceBackend handles guest credentials, or remove the vms[].credentials block(s) and align local VM accounts with the global hypervisor.guestCredentials in .signalman/config.yaml.").

(** ** Software bundles *)

Definition software_result (vm : string) (status : StepStatus) (start : Z) (error : option string) : SM (SW X) StepResult :=
  t ← now; mret (mkStepResult "install_bundle" vm status (t - start) error None []).

Definition apply_software (vmMap : list (string * VMHandle)) (scenarioDir : string) (ref : string * option string) : SM (SW X) StepResult :=
  let '(path, vm) := ref in
  start ← now;
  match truthy vm, vmMap with
  | None, ([] | _ :: _ :: _) =>
    software_result "" SS_failed start (Some ("software entry '" +:+ path +:+ "' must specify 'vm:' when scenario has multiple VMs"))
  | _, _ =>
    let vm := match truthy vm, vmMap with Some n, _ => n | None, (n, _) :: _ => n | None, [] => "" end in
    client ← has_client vm;
    if is_null (map_get vm vmMap) then software_result vm SS_failed start (Some (vm_missing vm))
    else if negb client then software_result vm SS_failed start (Some (no_client vm))
    else
      let file := if starts_with "/" path then path else path_normalize (scenarioDir +:+ "/" +:+ path) in
      r ← scatch (b ← call (CL_bundle vm file) (sc_installBundle vm file);
                  mret (if (br_failed b =? 0)%nat then None
                        else Some (show_Z (Z.of_nat (br_failed b)) +:+ "/" +:+ show_Z (Z.of_nat (br_total b)) +:+ " packages failed")))
           (λ e, mret (Some (je_message e)));
      software_result vm (match r with None => SS_success | Some _ => SS_failed end) start r
  end.

Fixpoint applyScenarioSoftware (vmMap : list (string * VMHandle)) (scenarioDir : string) (refs : list (string * option string)) : SM (SW X) (list StepResult) :=
  match refs with
  | [] => mret []
  | ref :: refs => r ← apply_software vmMap scenarioDir ref; rs ← applyScenarioSoftware vmMap scenarioDir refs; mret (r :: rs)
  end.

Definition any_failed (l : list StepResult) : bool := existsb (λ r, bool_decide (sr_status r = SS_failed)) l.

(** [results.push(...l); if (l.some(failed)) status = "failed"] *)
Definition record_setup (l : list StepResult) : SM (SW X) unit :=
  update_run (with_setup l);; if any_failed l then update_run (with_status RS_failed) else mret ().

(** ** The workflow *)

Definition workflow_blocks (markdown : string) : list ToolBlock :=
  if markdown =?s "" then []
  else match nv_steps (parseNarrative markdown) with
  | [] => extractToolBlocks markdown
  | steps => mjoin (map ns_toolBlocks steps)
  end.

Fixpoint run_blocks (credentials : list (string * json)) (vmMap : list (string * VMHandle)) (i : nat) (blocks : list ToolBlock) : SM (SW X) unit :=
  match blocks with
  | [] => mret ()
  | b :: blocks =>
    let key := "step-" +:+ show_Z (Z.of_nat i) in
    outcome ← scatch (o ← executeToolBlock credentials (tb_tool b) (tb_params b) vmMap; mret (inr o)) (λ e, mret (inl e));
    match outcome with
    | inr output => update_run (with_block (mkToolBlockResult i (tb_tool b) true None (Some (snippet 256 output))) key output)
    | inl e =>
      update_run (with_block (mkToolBlockResult i (tb_tool b) false (Some (snippet 512 (je_message e))) None) key ("ERROR: " +:+ je_message e));;
      update_run (with_status RS_failed)
    end;;
    run_blocks credentials vmMap (S i) blocks
  end.

(** ** Assertions *)

Definition is_legacy (a : Assertion) : bool :=
  match get_prop "type" a with
  | Some t => is_json_text "command_output" t || is_json_text "screenshot_check" t || is_json_text "process_state" t
  | None => false
  end.

(** The outputs as command results: only the text is carried over. *)
Definition v2_context (outputs : list (string * string)) (scenarioPath : string) : EvaluationContext (SW X) :=
  mkEvaluationContext (map (λ ko, (ko.1, mkCommandResult None ko.2)) outputs) [] scenarioPath None None None.

Definition v2_entry (r : AssertionResult) : AssertionEntry :=
  mkAssertionEntry (ar_id r) (Some (JStr "")) (ar_passed r)
    (match ar_actual r with Some (JStr t) => Some t | Some v => Some (json_stringify v) | None => None end) None.

Definition v1_entry (a : Assertion) (r : V1Result) : AssertionEntry :=
  mkAssertionEntry (get_prop "id" a) (get_prop "description" a) (v1_passed r) (v1_actual r) (v1_error r).

(** The entries and the verdict: the second evaluator has a threshold, the first
    wants every assertion to pass. *)
Definition assess (config : AssertionConfig) (scenarioPath : string) : SM (SW X) (list AssertionEntry * bool) :=
  outputs ← sget (λ w, ru_outputs (sw_run w));
  if existsb (λ a, negb (is_legacy a)) (acf_assertions config) then
    r ← evaluateAssertionsV2 config (v2_context outputs scenarioPath);
    mret (map v2_entry r.1.1, r.1.2)
  else
    let entries := map (λ ar, v1_entry ar.1 ar.2)
      (combine (acf_assertions config) (evaluateAssertions (W := SW X) config outputs []).1.1) in
    mret (entries, forallb ae_passed entries).

Fixpoint emit_assertions (l : list AssertionEntry) : SM (SW X) unit :=
  match l with
  | [] => mret ()
  | e :: l =>
    emit_event (if ae_passed e then EV_assertion_passed (ae_id e) else EV_assertion_failed (ae_id e) (ae_actual e) (ae_error e));;
    emit_assertions l
  end.

Definition run_assertions (config : AssertionConfig) (scenarioPath : string) : SM (SW X) unit :=
  match acf_assertions config with
  | [] => mret ()
  | _ =>
    r ← assess config scenarioPath;
    update_run (with_assertions r.1);;
    emit_assertions r.1;;
    if r.2 : bool then mret () else update_run (with_status RS_failed)
  end.

(** ** A run *)

Fixpoint agent_versions (defs : list VmDefinition) : SM (SW X) (list (string * option string)) :=
  match defs with
  | [] => mret []
  | d :: defs =>
    client ← has_client (vd_name d);
    v ← (if client : bool then sread (λ w : SW X, let (v, x) := sc_agentVersion (vd_name d) (sw_ext w) in (v, set_ext x w)) else mret None);
    rest ← agent_versions defs;
    mret ((vd_name d, v) :: rest)
  end.

Definition wait_agents (defs : list VmDefinition) (vmMap : list (string * VMHandle)) : SM (SW X) unit := λ w,
  let '((e, clients), x) := sc_waitForGuestAgents defs vmMap (sw_clients w) (sw_ext w) in
  (match e with Some e => inl e | None => inr () end, set_clients clients (set_ext x w)).

(** The try block. *)
Definition scenario_body (scenarioPath : string) (runId : option string) (parameters : json_object) : SM (SW X) unit :=
  loaded ← op (sc_load scenarioPath);
  let params := mergeRuntimeParams (prop_in "parameters" (lr_config loaded)) parameters in
  config ← slift (substituteRuntimeRefsDeep params (lr_config loaded));
  workflow ← slift (substituteRuntimeRefs (lr_workflow loaded) params);
  let name := match prop_in "name" config with Some (JStr n) => n | _ => "" end in
  update_run (with_name name);;
  slift (assertScenarioCapabilities config workflow);;
  hash ← slift (computeScenarioHash (lr_config loaded) (lr_assertions_json loaded) (lr_workflow loaded));
  let defs := map vm_definition (objects (prop_in "vms" config)) in
  update_run (with_hash hash []);;
  credentials ← rebuildVmCredentialsIndex defs;
  update_run (with_credentials credentials);;
  update_run (with_hash hash (fold_left (λ m d, map_set (vd_name d) (classifyNetwork (vd_pre_started d) (vd_switch d)) m) defs []));;
  vmMap ← resolveVms (slugifyScenarioName name) runId defs;
  update_run (with_vms vmMap (map setup_step (objects (prop_in "teardown" config))));;
  op (sc_spawnKernelDebug defs);;
  wait_agents defs vmMap;;
  agents ← agent_versions defs;
  update_run (with_agents (fold_left (λ m kv, map_set kv.1 kv.2 m) agents []));;
  match software_of config with
  | [] => mret ()
  | refs => r ← applyScenarioSoftware vmMap (sc_dirname scenarioPath) refs; record_setup r
  end;;
  let retry := retry_policy (prop_in "retry" config) in
  update_run (with_retry retry);;
  results ← executeSetup credentials (map setup_step (objects (prop_in "setup" config))) vmMap retry;
  record_setup results;;
  run_blocks credentials vmMap 0 (workflow_blocks workflow);;
  run_assertions (lr_assertions loaded) scenarioPath.

(** The declared teardown, once the machines were resolved. *)
Definition teardown_phase : SM (SW X) unit :=
  ru ← sget sw_run;
  match ru_vmMap ru, ru_teardownSteps ru with
  | Some vmMap, (_ :: _) as steps =>
    r ← scatch (r ← executeTeardown (ru_credentials ru) steps vmMap (ru_retry ru); mret (inr r)) (λ e, mret (inl e));
    match r with
    | inr results =>
      update_run (with_teardown results);;
      if bool_decide (ru_status ru = RS_passed) && any_failed results then update_run (with_status RS_failed) else mret ()
    | inl e =>
      update_run (with_status RS_error);;
      update_run (with_error (match truthy (ru_error ru) with
                              | Some m => m +:+ "; teardown failed: " +:+ je_message e
                              | None => "teardown failed: " +:+ je_message e
                              end))
    end
  | _, _ => mret ()
  end.

Fixpoint destroy_ephemeral (records : list EphemeralVmRecord) : SM (SW X) unit :=
  match records with
  | [] => mret ()
  | r :: l =>
    scatch (call (CL_destroyed (er_name r)) (sc_teardownEphemeralVm r)) (λ e,
      ru ← sget sw_run;
      match truthy (ru_error ru) with
      | Some _ => mret ()
      | None =>
        update_run (with_error ("ephemeral VM teardown failed for '" +:+ er_name r +:+ "': " +:+ je_message e));;
        if bool_decide (ru_status ru = RS_passed) then update_run (with_status RS_error) else mret ()
      end);;
    destroy_ephemeral l
  end.

Definition initial_run : ScenarioRun := mkRun "unknown" RS_passed None [] [] [] [] [] None [] None [] None [] [] [].

Record ScenarioResult := mkScenarioResult {
  sx_name : string;
  sx_status : RunStatus;
  sx_duration_ms : Z;
  sx_setup_results : list StepResult;
  sx_assertion_results : list AssertionEntry;
  sx_teardown_results : list StepResult;
  sx_error : option string;
  sx_scenario_hash : option string;
  sx_vm_lineage_hash : option string;
  sx_agent_version : option string;
  sx_network_class : option string;
  sx_tool_blocks : list ToolBlockResult     (* for the report *)
}.

(** ** The report *)

(** [path.join(a, b)] of a POSIX system. *)
Definition path_join (a b : string) : string := path_normalize (if a =?s "" then b else if b =?s "" then a else a +:+ "/" +:+ b).

Definition test_result (startTime durationMs : Z) (ru : ScenarioRun) : TestResult :=
  let passedCount := length (select ae_passed (ru_assertions ru)) in
  let total := length (ru_assertions ru) in
  let score := if (0 <? total)%nat then num_div (num_of_Z (Z.of_nat passedCount)) (num_of_Z (Z.of_nat total)) else num_of_Z 1 in
  mkTestResult (ru_name ru) (toISOString startTime) (toISOString (startTime + durationMs)) durationMs (bool_decide (ru_status ru = RS_passed)) score
    (map (λ r, mkAssertionResultEntry (ae_id r) (ae_description r) "medium" (ae_passed r) (ae_actual r) (ae_error r)) (ru_assertions ru))
    (ru_blocks ru) [] (match truthy (ru_error ru) with Some e => [e] | None => [] end).

Definition writeJunitReport (result : TestResult) (outputDir : string) : SM (SW X) unit :=
  op (sc_mkdir outputDir);;
  xml ← slift (junit_xml result);
  call (CL_report (path_join outputDir "results.xml")) (sc_writeHostFile (path_join outputDir "results.xml") xml).

(** [JSON.stringify(outputs, null, 2)] of an object of texts. *)
Definition outputs_text (outputs : list (string * string)) : string :=
  match outputs with
  | [] => "{}"
  | _ => "{" +:+ String LF (join (String "," (String LF "")) (map (λ kv, "  " +:+ json_quote kv.1 +:+ ": " +:+ json_quote kv.2) outputs) +:+ String LF "}")
  end.

(** The report, if there is a directory for it: only the second file may fail. *)
Definition write_report (startTime durationMs : Z) (ru : ScenarioRun) : SM (SW X) unit :=
  match truthy sc_outputDir with
  | None => mret ()
  | Some outputDir =>
    let scenarioOutputDir := path_join outputDir (ru_name ru) in
    writeJunitReport (test_result startTime durationMs ru) scenarioOutputDir;;
    scatch (exists_ ← sget (λ w, sc_exists scenarioOutputDir (sw_ext w));
            (if exists_ : bool then mret () else op (sc_mkdir scenarioOutputDir));;
            call (CL_report (path_join scenarioOutputDir "workflow-outputs.json"))
              (sc_writeHostFile (path_join scenarioOutputDir "workflow-outputs.json") (outputs_text (ru_outputs ru))))
      (λ _, mret ())
  end.

Definition runScenario (scenarioPath : string) (runId : option string) (parameters : json_object) : SM (SW X) ScenarioResult :=
  update_run (λ _, initial_run);;
  startTime ← now;
  scatch (scenario_body scenarioPath runId parameters) (λ e, update_run (with_status RS_error);; update_run (with_error (je_message e)));;
  teardown_phase;;
  sput (λ w, set_ext (sc_teardownKernelDebug (sw_ext w)) w);;
  records ← sget (λ w, ru_ephemeral (sw_run w));
  destroy_ephemeral records;;
  endTime ← now;
  ru ← sget sw_run;
  write_report startTime (endTime - startTime) ru;;
  mret (mkScenarioResult (ru_name ru) (ru_status ru) (endTime - startTime) (ru_setup ru) (ru_assertions ru) (ru_teardown ru) (ru_error ru)
    (ru_hash ru) (truthy (Some (aggregateVmLineageHashes (map er_lineage (ru_ephemeral ru)))))
    (aggregateAgentVersions (map snd (ru_agents ru))) (aggregateUniqueStrings (map (λ kv, Some kv.2) (ru_networks ru))) (ru_blocks ru)).
End orchestrator.

(** ** The plain runner (scenarios/runner.ts) *)

Section runner.
Context `{ScenarioText} `{JsEngine} {W : Type} `{AssertHost W} (executor : string → json → SM W string).

Record RunnerState := mkRunnerState {
  rn_outputs : list (string * string);
  rn_screenshots : list (string * string);
  rn_errors : list string
}.

(** The tool blocks with the heading of their step, if there are steps. *)
Fixpoint run_tools (i : nat) (l : list (option string * ToolBlock)) (st : RunnerState) : SM W RunnerState :=
  match l with
  | [] => mret st
  | (step, b) :: l =>
    let key := "step-" +:+ show_Z (Z.of_nat i) in
    outcome ← scatch (o ← executor (tb_tool b) (tb_params b); mret (inr o)) (λ e, mret (inl e));
    run_tools (S i) l
      match outcome with
      | inr output =>
        mkRunnerState (map_set key output (rn_outputs st))
          (if negb (is_null step) && (tb_tool b =?s "vm_screenshot") && negb (output =?s "") then map_set key output (rn_screenshots st)
           else rn_screenshots st)
          (rn_errors st)
      | inl e =>
        mkRunnerState (map_set key ("ERROR: " +:+ error_text e) (rn_outputs st)) (rn_screenshots st)
          (rn_errors st ++ ["Tool " +:+ tb_tool b +:+ " failed"
            +:+ match step with Some h => " in step " +:+ String dquote h +:+ String dquote "" | None => "" end +:+ ": " +:+ error_text e])
      end
  end.

Definition runner_tools (narrative : option Narrative) (workflow : string) : list (option string * ToolBlock) :=
  match narrative with
  | Some n => mjoin (map (λ s, map (pair (Some (ns_heading s))) (ns_toolBlocks s)) (nv_steps n))
  | None => map (pair None) (extractToolBlocks workflow)
  end.

Record RunnerResult := mkRunnerResult {
  rr_scenario : option json;
  rr_workflow_ok : bool;
  rr_assertion_results : list V1Result;
  rr_passed : bool;
  rr_score : jsnum;
  rr_screenshots : list string;
  rr_errors : list string
}.

(** The run after loading and before its reports are written. *)
Definition runner_run (config : json) (assertions : AssertionConfig) (workflow : string) (narrative : option Narrative) : SM W RunnerResult :=
  st ← run_tools 0 (runner_tools narrative workflow) (mkRunnerState [] [] []);
  let '(results, passed, score) := evaluateAssertions (W := W) assertions (rn_outputs st) (rn_screenshots st) in
  mret (mkRunnerResult (prop_in "name" config) (negb (some_items (rn_errors st))) results passed score (map snd (rn_screenshots st)) (rn_errors st)).
End runner.
