(* ===== verification/ScenarioSpec.v ===== *)
(** What the scenario engine promises: paths into JSON are read as they are written,
    steps are retried as often as they say and reported event by event, declared
    capabilities hold for what is run, a green run is green in all its parts, and
    whatever happens the disposable machines are destroyed. *)

From stdpp Require Import strings list.
From S2P Require Import Prelude JsVal JsonReader Signing BuildYaml Build Probes ReleaseDeploy Oci Assertions Narrative Reporter Scenario.

(** ** Reasoning about runs *)

Section monad.
Context {W : Type}.

Lemma sbind_eq {A B} (m : SM W A) (k : A → SM W B) w :
  (m ≫= k) w = match m w with (inr a, w') => k a w' | (inl e, w') => (inl e, w') end.
Proof. reflexivity. Qed.

Lemma sbind_ok {A B} (m : SM W A) (k : A → SM W B) w a w' : m w = (inr a, w') → (m ≫= k) w = k a w'.
Proof. intros E. by rewrite sbind_eq, E. Qed.

Lemma sbind_inv {A B} (m : SM W A) (k : A → SM W B) w b w2 :
  (m ≫= k) w = (inr b, w2) → ∃ a w1, m w = (inr a, w1) ∧ k a w1 = (inr b, w2).
Proof. rewrite sbind_eq. destruct (m w) as [[e|a] w1]; [done|eauto]. Qed.

Lemma slift_inv {A} (r : JsError + A) (w : W) a w' : slift r w = (inr a, w') → r = inr a ∧ w' = w.
Proof. intros [= -> <-]. done. Qed.

(** [m] moves the world along [R], whether it returns or throws. *)
Definition moves (R : relation W) {A} (m : SM W A) : Prop := ∀ w, R w (m w).2.

Section moves.
Context (R : relation W) `{!PreOrder R}.

Lemma moves_ret {A} (a : A) : moves R (mret a).
Proof. intros w. reflexivity. Qed.
Lemma moves_throw {A} e : moves R (sthrow (A := A) e).
Proof. intros w. reflexivity. Qed.
Lemma moves_lift {A} (r : JsError + A) : moves R (slift r).
Proof. intros w. reflexivity. Qed.
Lemma moves_get {A} (f : W → A) : moves R (sget f).
Proof. intros w. reflexivity. Qed.
Lemma moves_put f : (∀ w, R w (f w)) → moves R (sput f).
Proof. intros Hf w. apply Hf. Qed.
Lemma moves_bind {A B} (m : SM W A) (k : A → SM W B) : moves R m → (∀ a, moves R (k a)) → moves R (m ≫= k).
Proof.
  intros Hm Hk w. rewrite sbind_eq. specialize (Hm w). destruct (m w) as [[e|a] w']; [done|]. etrans; [exact Hm|apply Hk].
Qed.
Lemma moves_ret_bind {A B} (a : A) (k : A → SM W B) : moves R (k a) → moves R (mret a ≫= k).
Proof. done. Qed.
Lemma moves_throw_bind {A B} e (k : A → SM W B) : moves R (sthrow e ≫= k).
Proof. apply moves_throw. Qed.
Lemma moves_catch {A} (m : SM W A) h : moves R m → (∀ e, moves R (h e)) → moves R (scatch m h).
Proof.
  intros Hm Hh w. unfold scatch. specialize (Hm w). destruct (m w) as [[e|a] w']; [|done]. etrans; [exact Hm|apply Hh].
Qed.
End moves.
End monad.

Create HintDb scenario.
#[export] Hint Resolve moves_ret moves_throw moves_throw_bind moves_lift moves_get : scenario.
#[export] Hint Extern 0 (PreOrder _) => apply _ : scenario.

(** Through a program, part by part. *)
Ltac frame := repeat first
  [ solve [eauto with scenario]
  | apply moves_ret_bind; cbv beta
  | apply moves_bind; [apply _| |intros ?]
  | apply moves_catch; [apply _| |intros ?]
  | match goal with |- moves _ (match ?x with _ => _ end) => destruct x end ].

(** ** What a phase leaves alone *)

Definition is_file_call (c : Call) : bool := match c with CL_read _ _ | CL_write _ _ | CL_saved _ _ => true | _ => false end.
Definition is_lifecycle (c : Call) : bool := match c with CL_provisioned _ | CL_destroyed _ => true | _ => false end.
Definition plain (c : Call) : bool := negb (is_file_call c) && negb (is_lifecycle c).

(** A relation of worlds that an operation of the host respects, with the calls that
    it lets through; a loud one also lets events and guest clients through. *)
Class Frame {X} (R : relation (SW X)) := {
  frame_ok : Call → Prop;
  frame_preorder :: PreOrder R;
  frame_ext x w : R w (set_ext x w);
  frame_call c w : frame_ok c → R w (add_call c w);
  frame_plain c : plain c = true → frame_ok c
}.
#[export] Hint Extern 0 (Frame _) => apply _ : scenario.
Class Loud {X} (R : relation (SW X)) := { loud_frame :: Frame R; loud_event e w : R w (add_event e w); loud_clients l w : R w (set_clients l w) }.
#[export] Hint Extern 0 (Loud _) => apply _ : scenario.

(** The host file of a copy. *)
Definition host_file {X} `{ScenarioHost X} (p : string) : string := if is_absolute p then p else sc_resolve sc_cwd p.

Section frames.
Context {X : Type} `{ScenarioHost X} `{ScenarioText} `{JsEngine} (R : relation (SW X)) `{!Frame R}.

Lemma moves_log c : frame_ok c → moves R (sput (add_call c)).
Proof. intros Hc. apply moves_put. intros w. by apply frame_call. Qed.
Lemma moves_op {A} (f : Op X A) : moves R (op f).
Proof. intros w. unfold op. destruct (f (sw_ext w)). apply frame_ext. Qed.
Lemma moves_read {A} (f : X → A * X) : moves R (sread (λ w, let (a, x) := f (sw_ext w) in (a, set_ext x w))).
Proof. intros w. unfold sread. destruct (f (sw_ext w)). apply frame_ext. Qed.
Lemma moves_now : moves R now.
Proof. apply moves_read. Qed.
Lemma moves_call {A} c (f : Op X A) : frame_ok c → moves R (call c f).
Proof. intros Hc. apply moves_bind; [apply _|by apply moves_log|intros _; apply moves_op]. Qed.
Lemma moves_plain {A} c (f : Op X A) : plain c = true → moves R (call c f).
Proof. intros Hc. by apply moves_call, frame_plain. Qed.
Lemma moves_sleep ms : moves R (sleep ms).
Proof. apply moves_put. intros w. apply frame_ext. Qed.
Lemma moves_fail {A} m : moves R (fail (X := X) (A := A) m).
Proof. apply moves_throw, _. Qed.
Lemma moves_has_client vm : moves R (has_client vm).
Proof. apply moves_get, _. Qed.
Hint Extern 0 (plain _ = true) => reflexivity : scenario.
Hint Resolve moves_log moves_op moves_read moves_now moves_call moves_plain moves_sleep moves_fail moves_has_client : scenario.

Lemma moves_client vm : moves R (client_of vm).
Proof. unfold client_of. frame. Qed.
Lemma moves_backend c vm : moves R (backendForVm c vm).
Proof. unfold backendForVm. frame. Qed.
Lemma moves_pieces vm g append l : moves R (write_pieces vm g append l).
Proof. revert append. induction l as [|p l IH]; intros append; cbn [write_pieces]; frame. Qed.
Hint Resolve moves_client moves_backend moves_pieces : scenario.

(** The call of a copy with these fields, should it have a path. *)
Definition copy_call (p : json_object) (path vm : string) : Call :=
  (if is_json_text "host_to_guest" (direction_of p) then CL_read else CL_write) (host_file path) vm.
Definition copy_ok (p : json_object) : Prop := ∀ path vm, get_prop "host_path" p = Some (JStr path) → frame_ok (copy_call p path vm).

Lemma moves_copy c vm h p : copy_ok p → moves R (copy_file c vm h p).
Proof.
  intros Hok. unfold copy_file, copyFileToGuest, copyFileFromGuest. unfold copy_ok, copy_call in Hok.
  destruct (is_json_text _ _), (get_prop "host_path" p) as [v|]; try destruct v; cbn [resolveHostFilePath]; frame;
    first [apply moves_log|apply moves_call]; exact (Hok _ vm eq_refl).
Qed.
Lemma moves_install vm p : moves R (install_software vm p).
Proof. unfold install_software. frame. Qed.
Lemma moves_bundle vm p : moves R (bundle_step vm p).
Proof. unfold bundle_step. frame. Qed.
Lemma moves_healthy t l : moves R (wait_healthy t l).
Proof. induction l as [|[n st] l IH]; cbn [wait_healthy]; frame. Qed.
Lemma moves_docker : moves R (requireDocker (X := X)).
Proof. unfold requireDocker. frame. Qed.
Hint Resolve moves_copy moves_install moves_bundle moves_healthy moves_docker : scenario.
Lemma moves_up p : moves R (composeUp p).
Proof. unfold composeUp. frame. Qed.
Lemma moves_down p : moves R (composeDown p).
Proof. unfold composeDown. frame. Qed.
Lemma moves_retry {A} (m : SM (SW X) A) : moves R m → moves R (retry_deadline m).
Proof. intros Hm. unfold retry_deadline. frame. Qed.
Lemma moves_once c vm h p : moves R (run_once c vm h p).
Proof. unfold run_once. frame. Qed.
Lemma moves_handle m vm msg : moves R (handle_of m vm msg).
Proof. unfold handle_of. frame. Qed.
Lemma moves_pause p : moves R (wait_step p).
Proof. unfold wait_step. frame. Qed.
Hint Resolve moves_up moves_down moves_retry moves_once moves_handle moves_pause : scenario.

Lemma moves_body c step m : copy_ok (st_fields step) → moves R (executeStepBody c step m).
Proof. intros Hok. unfold executeStepBody. cbv zeta. frame. Qed.
Lemma moves_backoff p : moves R (computeBackoff p).
Proof. unfold computeBackoff. frame. Qed.
Lemma moves_dispatch c vm h p : moves R (dispatch_command c vm h p).
Proof. unfold dispatch_command. frame. Qed.
Hint Resolve moves_body moves_backoff moves_dispatch : scenario.
Lemma moves_run_command c vm h p : moves R (run_command_block c vm h p).
Proof. unfold run_command_block. frame. Qed.
Hint Resolve moves_run_command : scenario.
(** The picture that a block with these parameters saves, should it save one. *)
Definition saves (tool : string) (p : json_object) (output : string) : Prop :=
  takes_picture tool = true ∧ get_prop "output" p = Some (JStr output) ∧ output ≠ "".
Definition save_ok (tool : string) (p : json_object) : Prop :=
  ∀ output vm, saves tool p output → frame_ok (CL_saved (resolveWorkflowScreenshotPath output) vm).

Lemma moves_capture tool vm params p : takes_picture tool = true → save_ok tool p → moves R (capture_block tool vm params p).
Proof.
  intros Ht Hok. unfold capture_block. cbv zeta.
  destruct (get_prop "output" p) as [v|] eqn:Ep; [|frame]. destruct v as [| | |output| |]; try solve [frame].
  destruct (output =?s "") eqn:Eo; [frame|].
  assert (Hs : ∀ vm, frame_ok (CL_saved (resolveWorkflowScreenshotPath output) vm)).
  { intros vm'. apply Hok. unfold saves. apply bool_decide_eq_false in Eo. by rewrite Ep. }
  frame.
Qed.
Lemma moves_tool c tool params m :
  copy_ok (match params with JObj o => o | _ => [] end) → save_ok tool (match params with JObj o => o | _ => [] end) →
  moves R (executeToolBlock c tool params m).
Proof.
  intros Hok Hs. unfold executeToolBlock. cbv zeta. destruct (takes_picture tool) eqn:Ec; [|frame].
  pose proof (λ vm, moves_capture tool vm params _ Ec Hs) as Hm. frame.
Qed.
Lemma moves_software m dir ref : moves R (apply_software m dir ref).
Proof. unfold apply_software, software_result. destruct ref. frame. Qed.
Hint Resolve moves_tool moves_software : scenario.
Lemma moves_all_software m dir refs : moves R (applyScenarioSoftware m dir refs).
Proof. induction refs as [|r refs IH]; cbn [applyScenarioSoftware]; frame. Qed.
Lemma moves_poll fuel h d : moves R (poll_running fuel h d).
Proof. induction fuel as [|fuel IH]; cbn [poll_running]; frame. Qed.
Hint Resolve moves_poll : scenario.
Lemma moves_running h m : moves R (ensure_running h m).
Proof. unfold ensure_running. frame. Qed.
Hint Resolve moves_running : scenario.
Lemma moves_existing all def : moves R (resolve_existing all def).
Proof. unfold resolve_existing. cbv zeta. frame. Qed.
Lemma moves_versions defs : moves R (agent_versions defs).
Proof. induction defs as [|d defs IH]; cbn [agent_versions]; frame. Qed.
End frames.

#[export] Hint Extern 0 (plain _ = true) => reflexivity : scenario.
#[export] Hint Resolve moves_op moves_read moves_now moves_plain moves_sleep moves_fail moves_has_client moves_body moves_backoff moves_tool
  moves_all_software moves_running moves_existing moves_versions : scenario.

Section loud.
Context {X : Type} `{ScenarioHost X} `{ScenarioText} `{JsEngine} (R : relation (SW X)) `{!Loud R}.

Lemma moves_emit e : moves R (emit_event e).
Proof. apply moves_put. intros w. apply loud_event. Qed.
Hint Resolve moves_emit : scenario.
Lemma moves_attempts i step pol body more n fs : moves R body → moves R (attempts i step pol body more n fs).
Proof. intros Hb. revert n fs. induction more as [|more IH]; intros n fs; cbn [attempts]; frame. Qed.
Hint Resolve moves_attempts : scenario.
Lemma moves_step c m r i s : copy_ok R (st_fields s) → moves R (executeStep c m r i s).
Proof. intros Hs. unfold executeStep. cbv zeta. frame. Qed.
Hint Resolve moves_step : scenario.
Lemma moves_steps c m r i l : Forall (λ s, copy_ok R (st_fields s)) l → moves R (execute_from c m r i l).
Proof.
  intros Hl. revert i. induction Hl as [|s l Hs _ IH]; intros i; cbn [execute_from]; frame.
Qed.
Lemma moves_wait defs m : moves R (wait_agents defs m).
Proof. intros w. unfold wait_agents. destruct (sc_waitForGuestAgents _ _ _ _) as [[e c] x]. etrans; [apply frame_ext|apply loud_clients]. Qed.
Lemma moves_events l : moves R (emit_assertions l).
Proof. induction l as [|e l IH]; cbn [emit_assertions]; frame. Qed.
End loud.
#[export] Hint Resolve moves_emit moves_steps moves_wait moves_events : scenario.

Section quiet_run.
Context {X : Type} `{ScenarioHost X} `{ScenarioText} `{JsEngine}.

Definition lifecycle (l : list Call) : list Call := select is_lifecycle l.

Lemma lifecycle_app l k : lifecycle (l ++ k) = lifecycle l ++ lifecycle k.
Proof. apply select_app. Qed.

(** The variables of the run are as they were, and no disposable machine came or
    went. *)
Definition quiet_run (w w' : SW X) : Prop := sw_run w' = sw_run w ∧ lifecycle (sw_calls w') = lifecycle (sw_calls w).
#[global] Instance quiet_preorder : PreOrder quiet_run.
Proof. split; [by split|]. intros a b c [E1 E2] [E3 E4]. split; congruence. Qed.
#[global] Program Instance quiet_frame : Frame quiet_run := {| frame_ok c := is_lifecycle c = false |}.
Next Obligation. done. Qed.
Next Obligation. intros c w Hc. split; [done|]. cbn. rewrite lifecycle_app. unfold lifecycle at 2. cbn. rewrite Hc. apply app_nil_r. Qed.
Next Obligation. intros c. unfold plain. by destruct (is_lifecycle c), (is_file_call c). Qed.
#[global] Instance quiet_loud : Loud quiet_run.
Proof. by refine {| loud_frame := quiet_frame |}. Defined.

Lemma quiet_copy p : copy_ok quiet_run p.
Proof. intros path vm _. unfold copy_call. by destruct (is_json_text _ _). Qed.
Lemma quiet_save tool p : save_ok quiet_run tool p.
Proof. done. Qed.
Lemma quiet_steps c m r i l : moves quiet_run (execute_from (X := X) c m r i l).
Proof. apply (moves_steps quiet_run). induction l; constructor; auto using quiet_copy. Qed.
End quiet_run.
#[export] Hint Resolve quiet_copy quiet_save quiet_steps : scenario.

(** ** Clean-up *)

Section assertions.
Context `{JsEngine} {W : Type} `{AssertHost W} (ctx : EvaluationContext W).

(** The evaluator answers every assertion, in order. *)
Lemma evaluate_total a w : ∃ r w', evaluate ctx a w = (inr r, w') ∧ ar_id r = get_prop "id" a.
Proof.
  unfold evaluate. rewrite sbind_eq. unfold sread. destruct (ah_now w) as [t w1]. rewrite sbind_eq. unfold scatch.
  destruct (eval_type ctx a w1) as [[e|v] w2]; cbn [mret SM_ret]; unfold makeResult; try destruct v as [[[? ?] ?] ?]; rewrite sbind_eq; unfold sread;
    destruct (ah_now w2) as [t2 w3]; eauto.
Qed.

Lemma evaluateAll_total l w : ∃ rs w', evaluateAll ctx l w = (inr rs, w') ∧ map ar_id rs = map (get_prop "id") l.
Proof.
  revert w. induction l as [|a l IH]; intros w; cbn [evaluateAll]; [by eexists [], _|].
  destruct (evaluate_total a w) as (r & w1 & E1 & Hr). destruct (IH w1) as (rs & w2 & E2 & Hrs).
  rewrite (sbind_ok _ _ _ _ _ E1), (sbind_ok _ _ _ _ _ E2). do 2 eexists. split; [reflexivity|]. cbn. by rewrite Hr, Hrs.
Qed.

(** Without guest callbacks it reads files and the clock. *)
Context (R : relation W) `{!PreOrder R} (R_now : ∀ w, R w (ah_now w).2).
Hypothesis no_callbacks : ec_guestFileExists ctx = None ∧ ec_guestProcessRunning ctx = None ∧ ec_guestNetworkReachable ctx = None.

Lemma evaluate_moves a : moves R (evaluate ctx a).
Proof.
  destruct no_callbacks as (E1 & E2 & E3).
  assert (Hn : moves R (sread ah_now)) by (intros w; unfold sread; specialize (R_now w); by destruct (ah_now w)).
  assert (Ht : moves R (eval_type ctx a)).
  { unfold eval_type, evalJsonField, evalFileExists, evalProcessRunning, evalExitCode, evalNetworkReachable, evalStdoutMatches, evalStdoutContains,
      evalCommandOutput, evalScreenshotCheck, evalProcessState, json_source, json_from_file, resolve_field, failed. rewrite E1, E2, E3. cbv zeta. frame. }
  unfold evaluate, makeResult. frame.
Qed.

Lemma evaluateAll_moves l : moves R (evaluateAll ctx l).
Proof. pose proof evaluate_moves. induction l as [|a l IH]; cbn [evaluateAll]; frame. Qed.
End assertions.

Section cleanup.
Context {X : Type} `{ScenarioHost X} `{ScenarioText} `{JsEngine}.

Definition names (l : list EphemeralVmRecord) : list string := map er_name l.

(** Every machine that was created since is on the list of the run. *)
Definition provisions (w w' : SW X) : Prop := ∃ l,
  ru_ephemeral (sw_run w') = ru_ephemeral (sw_run w) ++ l ∧ lifecycle (sw_calls w') = lifecycle (sw_calls w) ++ map CL_provisioned (names l).
#[local] Instance provisions_preorder : PreOrder provisions.
Proof.
  split.
  - intros w. exists []. by rewrite !app_nil_r.
  - intros a b c (l & E1 & E2) (k & E3 & E4). exists (l ++ k). unfold names in *. by rewrite E3, E1, E4, E2, !map_app, !app_assoc.
Qed.

Lemma quiet_provisions w w' : quiet_run w w' → provisions w w'.
Proof. intros [E1 E2]. exists []. by rewrite E1, E2, !app_nil_r. Qed.

Lemma moves_quiet {A} (m : SM (SW X) A) : moves quiet_run m → moves provisions m.
Proof. intros Hm w. apply quiet_provisions, Hm. Qed.

Lemma provisions_update f : (∀ ru, ru_ephemeral (f ru) = ru_ephemeral ru) → moves provisions (update_run (X := X) f).
Proof. intros Hf w. exists []. cbn. by rewrite Hf, !app_nil_r. Qed.
Hint Resolve provisions_update moves_quiet : scenario.

(** Creating a machine and putting it on the list is one step. *)
Lemma provisions_ephemeral slug runId def : moves provisions (resolve_ephemeral (X := X) slug runId def).
Proof.
  unfold resolve_ephemeral. destruct (negb _); [auto with scenario|]. intros w. rewrite sbind_eq.
  pose proof (moves_op quiet_run (sc_provisionEphemeralVm slug runId def) w) as Hq. destruct (op _ w) as [[e|r] w1]; [by apply quiet_provisions|].
  trans w1; [by apply quiet_provisions|]. rewrite sbind_eq. cbn [sput]. rewrite sbind_eq. unfold update_run at 1. cbn [sput].
  set (w2 := set_run _ _). trans w2.
  - exists [r]. subst w2. cbn. by rewrite lifecycle_app.
  - apply quiet_provisions. apply (moves_bind quiet_run (ensure_running (er_handle r) _)); [auto with scenario|intros _; auto with scenario].
Qed.

Hint Resolve provisions_ephemeral : scenario.

Lemma provisions_defs slug runId all m defs : moves provisions (resolve_defs (X := X) slug runId all m defs).
Proof. revert all m. induction defs as [|d defs IH]; intros all m; cbn [resolve_defs]; frame. Qed.
Hint Resolve provisions_defs : scenario.

Lemma provisions_blocks c m i l : moves provisions (run_blocks (X := X) c m i l).
Proof. revert i. induction l as [|b l IH]; intros i; cbn [run_blocks]; frame; by apply provisions_update. Qed.

Lemma quiet_assess config path : moves quiet_run (assess (X := X) config path).
Proof.
  unfold assess, evaluateAssertionsV2. apply moves_bind; [apply _|auto with scenario|intros outputs].
  assert (Hn : ∀ w : SW X, quiet_run w (ah_now w).2) by (intros w; cbn; by destruct (sc_now (sw_ext w))).
  pose proof (evaluateAll_moves (v2_context outputs path) quiet_run Hn ltac:(done) (acf_assertions config)) as Hm. frame.
Qed.
Hint Resolve provisions_blocks quiet_assess : scenario.

Lemma provisions_setup l : moves provisions (record_setup (X := X) l).
Proof. unfold record_setup. frame; by apply provisions_update. Qed.
Lemma provisions_assertions config path : moves provisions (run_assertions (X := X) config path).
Proof. unfold run_assertions. frame; by apply provisions_update. Qed.
Hint Resolve provisions_setup provisions_assertions : scenario.

Lemma provisions_body path runId params : moves provisions (scenario_body (X := X) path runId params).
Proof.
  unfold scenario_body, rebuildVmCredentialsIndex, resolveVms, executeSetup. cbv zeta. frame; by apply provisions_update.
Qed.

Lemma provisions_teardown : moves provisions (teardown_phase (X := X)).
Proof. unfold teardown_phase, executeTeardown, executeSetup. frame; by apply provisions_update. Qed.

(** Each machine of the list is destroyed once, whether or not that works. *)
Lemma destroy_run l w :
  ∃ w', destroy_ephemeral (X := X) l w = (inr (), w') ∧ lifecycle (sw_calls w') = lifecycle (sw_calls w) ++ map CL_destroyed (names l) ∧
    ru_ephemeral (sw_run w') = ru_ephemeral (sw_run w).
Proof.
  revert w. induction l as [|r l IH]; intros w; cbn [destroy_ephemeral]; [exists w; by rewrite app_nil_r|].
  assert (∃ w1, scatch (call (CL_destroyed (er_name r)) (sc_teardownEphemeralVm r)) (λ e,
      ru ← sget sw_run;
      match truthy (ru_error ru) with
      | Some _ => mret ()
      | None =>
        update_run (with_error ("ephemeral VM teardown failed for '" +:+ er_name r +:+ "': " +:+ je_message e));;
        if bool_decide (ru_status ru = RS_passed) then update_run (with_status RS_error) else mret ()
      end) w = (inr (), w1) ∧ lifecycle (sw_calls w1) = lifecycle (sw_calls w) ++ [CL_destroyed (er_name r)] ∧
      ru_ephemeral (sw_run w1) = ru_ephemeral (sw_run w)) as (w1 & E1 & Hl & He).
  { unfold scatch, call. rewrite sbind_eq. cbn [sput]. unfold op. destruct (sc_teardownEphemeralVm r _) as [[e|[]] x].
    - rewrite sbind_eq. cbn [sget]. destruct (truthy _).
      + eexists. split; [reflexivity|]. cbn. by rewrite lifecycle_app.
      + rewrite sbind_eq. unfold update_run at 1. cbn [sput]. destruct (bool_decide _); (eexists; split; [reflexivity|]; cbn; by rewrite lifecycle_app).
    - eexists. split; [reflexivity|]. cbn. by rewrite lifecycle_app. }
  rewrite (sbind_ok _ _ _ _ _ E1). destruct (IH w1) as (w2 & E2 & Hl2 & He2). exists w2. rewrite Hl2, Hl, He2, He, <- app_assoc. done.
Qed.

Lemma teardown_returns w : ∃ w', teardown_phase (X := X) w = (inr (), w').
Proof.
  unfold teardown_phase. rewrite sbind_eq. cbn [sget]. destruct (ru_vmMap _); [|eauto]. destruct (ru_teardownSteps _); [eauto|].
  rewrite sbind_eq. unfold scatch. rewrite (sbind_eq (executeTeardown _ _ _ _)).
  destruct (executeTeardown _ _ _ _ w) as [[e|r] w1]; cbn [mret SM_ret].
  - rewrite sbind_eq. unfold update_run at 1. cbn [sput]. unfold update_run. eauto.
  - rewrite sbind_eq. unfold update_run at 1. cbn [sput]. destruct (_ && _); unfold update_run; eauto.
Qed.

(** The handler of the try block. *)
Definition on_error (e : JsError) : SM (SW X) unit := update_run (with_status RS_error);; update_run (with_error (je_message e)).

Definition result_of_run (duration : Z) (ru : ScenarioRun) : ScenarioResult :=
  mkScenarioResult (ru_name ru) (ru_status ru) duration (ru_setup ru) (ru_assertions ru) (ru_teardown ru) (ru_error ru)
    (ru_hash ru) (truthy (Some (aggregateVmLineageHashes (map er_lineage (ru_ephemeral ru)))))
    (aggregateAgentVersions (map snd (ru_agents ru))) (aggregateUniqueStrings (map (λ kv, Some kv.2) (ru_networks ru))) (ru_blocks ru).

Definition drop_kernel_debug (w : SW X) : SW X := set_ext (sc_teardownKernelDebug (sw_ext w)) w.

(** A run phase by phase. *)
Lemma phases_run path runId params (w : SW X) :
  ∃ t w1 w2 w3 w4 t' w5,
    now (set_run initial_run w) = (inr t, w1) ∧ scatch (scenario_body path runId params) on_error w1 = (inr (), w2) ∧
    teardown_phase w2 = (inr (), w3) ∧ destroy_ephemeral (ru_ephemeral (sw_run w3)) (drop_kernel_debug w3) = (inr (), w4) ∧
    now w4 = (inr t', w5) ∧
    runScenario path runId params w = (write_report t (t' - t) (sw_run w5);; mret (result_of_run (t' - t) (sw_run w5))) w5.
Proof.
  assert (Hnow : ∀ w : SW X, ∃ t w', now w = (inr t, w')) by (intros w'; unfold now, sread; destruct (ah_now w'); eauto).
  destruct (Hnow (set_run initial_run w)) as (t & w1 & E1).
  assert (∃ w2, scatch (scenario_body path runId params) on_error w1 = (inr (), w2)) as [w2 E2].
  { unfold scatch, on_error. destruct (scenario_body path runId params w1) as [[e|[]] w2]; [|eauto]. rewrite sbind_eq. cbn. eauto. }
  destruct (teardown_returns w2) as [w3 E3]. destruct (destroy_run (ru_ephemeral (sw_run w3)) (drop_kernel_debug w3)) as (w4 & E4 & _).
  destruct (Hnow w4) as (t' & w5 & E5). exists t, w1, w2, w3, w4, t', w5. do 5 (split; [done|]).
  unfold runScenario. rewrite sbind_eq. unfold update_run at 1. cbn [sput]. rewrite (sbind_ok _ _ _ _ _ E1).
  rewrite (sbind_ok _ _ _ _ _ E2), (sbind_ok _ _ _ _ _ E3). rewrite sbind_eq. cbn [sput]. rewrite sbind_eq. cbn [sget].
  rewrite (sbind_ok _ _ _ _ _ E4), (sbind_ok _ _ _ _ _ E5). reflexivity.
Qed.

Lemma quiet_at {A} (m : SM (SW X) A) w a w' : moves quiet_run m → m w = (inr a, w') → quiet_run w w'.
Proof. intros Hm E. specialize (Hm w). by rewrite E in Hm. Qed.

(** The report of a run that ends in this world cannot be written: its directory
    cannot be made, an assertion has no text for an id, or its file cannot be written. *)
Definition report_error (w : SW X) (e : JsError) : Prop :=
  ∃ dir t d, truthy sc_outputDir = Some dir ∧ let scenarioOutputDir := path_join dir (ru_name (sw_run w)) in
    let '(made, x) := sc_mkdir scenarioOutputDir (sw_ext w) in
    made = inl e ∨ junit_xml (test_result t d (sw_run w)) = inl e ∨
    ∃ xml, junit_xml (test_result t d (sw_run w)) = inr xml ∧ (sc_writeHostFile (path_join scenarioOutputDir "results.xml") xml x).1 = inl e.

Lemma report_throws t d w e w' : write_report (X := X) t d (sw_run w) w = (inl e, w') → report_error w e.
Proof.
  unfold write_report. destruct (truthy sc_outputDir) as [dir|] eqn:Ed; [|done]. cbv zeta. intros E. exists dir, t, d. split; [done|]. cbv zeta.
  rewrite sbind_eq in E. destruct (writeJunitReport _ _ w) as [[e'|[]] w1] eqn:E1.
  - injection E as -> _. unfold writeJunitReport in E1. rewrite sbind_eq in E1. unfold op at 1 in E1. destruct (sc_mkdir _ _) as [[e1|[]] x].
    { injection E1 as -> _. auto. }
    rewrite sbind_eq in E1. unfold slift in E1. destruct (junit_xml _) as [e3|xml]; [injection E1 as -> _; auto|].
    unfold call in E1. rewrite sbind_eq in E1. cbn [sput] in E1. unfold op in E1. cbn in E1. right. right. exists xml. split; [done|].
    destruct (sc_writeHostFile _ _ _) as [r x']. by injection E1 as -> _.
  - unfold scatch in E. match type of E with (let (_, _) := ?m in _) = _ => by destruct m as [[?|?] ?] end.
Qed.

Lemma moves_report R `{!Frame R} t d ru : moves R (write_report (X := X) t d ru).
Proof. unfold write_report, writeJunitReport. cbv zeta. frame. Qed.

(** C13: SCENARIO-CLEANUP.  However its phases fail, a run comes to its end: the
    disposable machines that it created are destroyed, each of them once and in the
    order in which they were created, even when destroying one fails, and only then is
    a report written.  It ends with a result unless that report cannot be written: a
    throw has no other reason, and without a directory for reports there is none. *)
Theorem scenario_cleanup path runId params (w : SW X) :
  ∃ out w' created, runScenario path runId params w = (out, w') ∧
    lifecycle (sw_calls w') = lifecycle (sw_calls w) ++ map CL_provisioned created ++ map CL_destroyed created ∧
    (∀ e, out = inl e → ∃ w1, sw_run w1 = sw_run w' ∧ lifecycle (sw_calls w1) = lifecycle (sw_calls w') ∧ report_error w1 e).
Proof.
  destruct (phases_run path runId params w) as (t & w1 & w2 & w3 & w4 & t' & w5 & E1 & E2 & E3 & E4 & E5 & E).
  assert (Hp : provisions (set_run initial_run w) w3).
  { trans w1; [exact (quiet_provisions _ _ (quiet_at now _ _ _ (moves_now _) E1))|]. trans w2.
    - assert (Hm : moves provisions (scatch (scenario_body path runId params) on_error)).
      { apply moves_catch; [apply _|apply provisions_body|intros e]. unfold on_error. frame; by apply provisions_update. }
      specialize (Hm w1). by rewrite E2 in Hm.
    - pose proof (provisions_teardown w2) as Ht. by rewrite E3 in Ht. }
  destruct Hp as (l & El & Hl). cbn in El, Hl. destruct (destroy_run (ru_ephemeral (sw_run w3)) (drop_kernel_debug w3)) as (w4' & E4' & Hd & _).
  rewrite E4 in E4'. injection E4' as <-. destruct (quiet_at now _ _ _ (moves_now _) E5) as [_ H5].
  pose proof (moves_report quiet_run t (t' - t) (sw_run w5) w5) as [Hr6 H6].
  assert (lifecycle (sw_calls w5) = lifecycle (sw_calls w) ++ map CL_provisioned (names l) ++ map CL_destroyed (names l)) as Hall.
  { rewrite H5, Hd, El. change (sw_calls (drop_kernel_debug w3)) with (sw_calls w3). by rewrite Hl, app_assoc. }
  rewrite E, sbind_eq. destruct (write_report t (t' - t) (sw_run w5) w5) as [[e|[]] w6] eqn:E6; cbn in Hr6, H6; do 2 eexists; exists (names l);
    (split; [reflexivity|]; rewrite H6; split; [done|]; try done).
  intros e' [= <-]. exists w5. split_and!; [done..|]. by eapply report_throws.
Qed.
End cleanup.
