(* ===== verification/ScenarioRuns.v ===== *)
(** Runs of the scenario engine from end to end: the events and the retries of a
    step, what a run that passed has done, and the capabilities that hold for the
    files it touches. *)

From stdpp Require Import strings list sets.
From S2P Require Import Prelude JsVal JsonReader Signing BuildYaml Build Probes ReleaseDeploy Oci Assertions Narrative Reporter Scenario ScenarioSpec BuildYamlSpec.

(** ** Steps and their retries *)

Section steps.
Context {X : Type} `{ScenarioHost X} `{ScenarioText} `{JsEngine}.

(** The body of a step tells the caller nothing. *)
Definition silent (w w' : SW X) : Prop := sw_events w' = sw_events w.
#[local] Instance silent_preorder : PreOrder silent.
Proof. split; [done|]. intros a b c E1 E2. red. by rewrite E2, E1. Qed.
#[local] Program Instance silent_frame : Frame silent := {| frame_ok _ := True |}.
Solve Obligations with done.

Lemma silent_at {A} (m : SM (SW X) A) w r w' : moves silent m → m w = (r, w') → sw_events w' = sw_events w.
Proof. intros Hm E. specialize (Hm w). by rewrite E in Hm. Qed.

(** The event of each retry, numbered from the attempt [k] on. *)
Fixpoint retry_events (i : nat) (step : SetupStep) (k total : nat) (l : list (string * Z)) : list Event :=
  match l with
  | [] => []
  | (message, delay) :: l => EV_retry_started i (st_action step) (st_vm step) k total message delay :: retry_events i step (S k) total l
  end.

(** The pause before a retry, when it does not vary. *)
Definition fixed_delay (policy : option RetryPolicy) (d : Z) : Prop :=
  match policy with Some p => rp_jitter p = false → d = rp_backoff_ms p | None => d = 0 end.

Lemma delay_run (policy : option RetryPolicy) (w : SW X) :
  ∃ d w', (match policy with Some p => computeBackoff p | None => mret 0 end) w = (inr d, w') ∧ sw_events w' = sw_events w ∧ fixed_delay policy d.
Proof.
  destruct policy as [p|]; [|by do 2 eexists]. unfold fixed_delay, computeBackoff. destruct (rp_jitter p); cbn [negb]; [|by do 2 eexists].
  rewrite sbind_eq. unfold sread. destruct (sc_random (sw_ext w)). by do 2 eexists.
Qed.

Lemma attempts_trace i step policy body more : moves silent body → ∀ n fs w, ∃ l out w',
  attempts i step policy body more n fs w = (inr (fs ++ map fst l, out), w') ∧
  sw_events w' = sw_events w ++ retry_events i step (S n) (n + more) l ∧
  (length l ≤ more)%nat ∧ (∀ e, out = inl e → length l = more) ∧ Forall (fixed_delay policy) (map snd l).
Proof.
  intros Hb. induction more as [|more IH]; intros n fs w; cbn [attempts]; rewrite sbind_eq; unfold scatch; rewrite sbind_eq;
    destruct (body w) as [[e|r] w1] eqn:E1; cbn [mret SM_ret]; pose proof (silent_at _ _ _ _ Hb E1) as Ev.
  1, 2: exists [], (match body w with (inl e, _) => inl e | (inr r, _) => inr r end), w1; rewrite E1; cbn; rewrite !app_nil_r; by eauto using Forall_nil.
  2: exists [], (inr r), w1; cbn; rewrite !app_nil_r; split_and!; by eauto using Forall_nil with lia.
  destruct (delay_run policy w1) as (d & w2 & E2 & Ev2 & Hd). rewrite (sbind_ok _ _ _ _ _ E2), sbind_eq. unfold emit_event at 1. cbn [sput].
  set (w3 := add_event _ w2).
  assert (∃ w4, (if 0 <? d then sleep d else mret ()) w3 = (inr (), w4) ∧ sw_events w4 = sw_events w3) as (w4 & E4 & Ev4).
  { destruct (0 <? d); eauto. }
  rewrite (sbind_ok _ _ _ _ _ E4). destruct (IH (S n) (fs ++ [je_message e]) w4) as (l & out & w' & E & Ev' & Hl & Ho & Hds).
  exists ((je_message e, d) :: l), out, w'. cbn. split_and!; [by rewrite E, <- app_assoc| |lia|by intros e' ->; rewrite (Ho e' eq_refl)|by constructor].
  rewrite Ev', Ev4. subst w3. cbn. rewrite Ev2, Ev, <- app_assoc, Nat.add_succ_r. done.
Qed.

(** The last event of a step, from its result. *)
Definition terminal_event (i : nat) (r : StepResult) : Event :=
  match sr_status r with
  | SS_success => EV_completed i (sr_action r) (sr_vm r) (sr_duration_ms r) (sr_attempts r)
  | SS_skipped => EV_skipped i (sr_action r) (sr_vm r) (sr_error r)
  | SS_failed => EV_failed i (sr_action r) (sr_vm r) (sr_duration_ms r) (sr_error r ?? "") (sr_attempts r)
  end.

Definition retry_count (scenarioRetry : option RetryPolicy) (step : SetupStep) : nat :=
  match resolveStepRetry step scenarioRetry with Some p => rp_count p | None => O end.

Lemma now_run (w : SW X) : ∃ t w', now w = (inr t, w') ∧ sw_events w' = sw_events w.
Proof. unfold now, sread. cbn. destruct (sc_now (sw_ext w)). eauto. Qed.

Lemma silent_copy p : copy_ok silent p.
Proof. done. Qed.

(** C14: STEP-RETRIES.  A setup or teardown step never throws.  It is reported by a
    first event, one event per retry, with the number of the attempt, the message of
    the failure before and the pause, and one last event that agrees with its result;
    it fails only after the retries that its policy allows are spent, is never
    attempted more often, and records its attempts and failures. *)
Theorem step_retries credentials vmMap scenarioRetry i step (w : SW X) :
  ∃ r w' l, executeStep credentials vmMap scenarioRetry i step w = (inr r, w') ∧
    sw_events w' = sw_events w ++ EV_started i (st_action step) (st_vm step) :: retry_events i step 2 (S (retry_count scenarioRetry step)) l
      ++ [terminal_event i r] ∧
    sr_action r = st_action step ∧ sr_vm r = st_vm step ∧ sr_attempt_failures r = map fst l ∧
    (length l ≤ retry_count scenarioRetry step)%nat ∧ (sr_status r = SS_failed → length l = retry_count scenarioRetry step) ∧
    sr_attempts r = (if (length l =? 0)%nat then None else Some (S (length l))) ∧
    Forall (fixed_delay (resolveStepRetry step scenarioRetry)) (map snd l).
Proof.
  unfold executeStep. cbv zeta. destruct (now_run w) as (t & w1 & E1 & Ev1). rewrite (sbind_ok _ _ _ _ _ E1), sbind_eq. unfold emit_event at 1. cbn [sput].
  fold (retry_count scenarioRetry step).
  assert (Hb : moves silent (executeStepBody credentials step vmMap)) by apply (moves_body silent), silent_copy.
  destruct (attempts_trace i step (resolveStepRetry step scenarioRetry) _ (retry_count scenarioRetry step) Hb 1 []
    (add_event (EV_started i (st_action step) (st_vm step)) w1)) as (l & out & w2 & E2 & Ev2 & Hl & Ho & Hd).
  rewrite (sbind_ok _ _ _ _ _ E2). destruct (now_run w2) as (t' & w3 & E3 & Ev3). rewrite (sbind_ok _ _ _ _ _ E3).
  assert (Hn : ∀ m, (if (1 <? S m)%nat then Some (S m) else None) = (if (m =? 0)%nat then None else Some (S m))) by (by intros [|m]).
  cbn [app]. cbn in Ev2. rewrite Ev1 in Ev2.
  destruct out as [e|[reason|]]; rewrite sbind_eq; unfold emit_event; cbn [sput mret SM_ret]; do 2 eexists; exists l;
    (split; [reflexivity|]; cbn; rewrite Ev3, Ev2, <- !app_assoc; cbn; split_and!; try done).
  all: try (rewrite length_map; apply Hn). all: rewrite <- ?(Ho e eq_refl); first [done|apply Hn].
Qed.
End steps.

(** ** A run that passed *)

Section green.
Context {X : Type} `{ScenarioHost X} `{ScenarioText} `{JsEngine}.

Lemma step_named c m r i step (w : SW X) res w' :
  executeStep c m r i step w = (inr res, w') → sr_action res = st_action step ∧ sr_vm res = st_vm step.
Proof.
  unfold executeStep. cbv zeta. intros E. apply sbind_inv in E as (t & w1 & _ & E). apply sbind_inv in E as (? & w2 & _ & E).
  apply sbind_inv in E as ([fs out] & w3 & _ & E). apply sbind_inv in E as (t' & w4 & _ & E).
  destruct out as [e|[reason|]]; apply sbind_inv in E as (? & w5 & _ & [= <- _]); done.
Qed.

Lemma steps_named c m r i l (w : SW X) rs w' :
  execute_from c m r i l w = (inr rs, w') → map (λ x, (sr_action x, sr_vm x)) rs = map (λ s, (st_action s, st_vm s)) l.
Proof.
  revert i w rs w'. induction l as [|s l IH]; intros i w rs w'; cbn [execute_from]; [by intros [= <- _]|].
  intros E. apply sbind_inv in E as (a & w1 & E1 & E). apply sbind_inv in E as (b & w2 & E2 & [= <- _]).
  cbn. destruct (step_named _ _ _ _ _ _ _ _ E1) as [-> ->]. by rewrite (IH _ _ _ _ E2).
Qed.

Lemma software_named m dir refs (w : SW X) rs w' :
  applyScenarioSoftware m dir refs w = (inr rs, w') → map sr_action rs = map (λ _, "install_bundle") refs.
Proof.
  revert w rs w'. induction refs as [|ref refs IH]; intros w rs w'; cbn [applyScenarioSoftware]; [by intros [= <- _]|].
  intros E. apply sbind_inv in E as (a & w1 & E1 & E). apply sbind_inv in E as (b & w2 & E2 & [= <- _]). cbn.
  rewrite (IH _ _ _ E2). f_equal. clear -E1. destruct ref as [path vm]. unfold apply_software, software_result in E1. repeat first
    [ progress cbv zeta in E1
    | match type of E1 with (match ?x with _ => _ end) _ = _ => destruct x end
    | apply sbind_inv in E1 as (? & ? & _ & E1)
    | (injection E1 as <- _; reflexivity) ].
Qed.

(** What a caller and the end of a run look at. *)
Definition outcome (ru : ScenarioRun) :=
  (ru_status ru, ru_error ru, ru_setup ru, ru_teardown ru, ru_assertions ru, ru_blocks ru, ru_vmMap ru, ru_teardownSteps ru).
Definition retains (w w' : SW X) : Prop := outcome (sw_run w') = outcome (sw_run w).
#[local] Instance keeps_preorder : PreOrder retains.
Proof. split; [done|]. intros a b c E1 E2. red. by rewrite E2, E1. Qed.
#[local] Program Instance keeps_frame : Frame retains := {| frame_ok _ := True |}.
Solve Obligations with done.
#[local] Instance keeps_loud : Loud retains.
Proof. by refine {| loud_frame := keeps_frame |}. Defined.

Lemma keeps_at {A} (m : SM (SW X) A) w r w' : moves retains m → m w = (r, w') → outcome (sw_run w') = outcome (sw_run w).
Proof. intros Hm E. specialize (Hm w). by rewrite E in Hm. Qed.
Lemma keeps_update f : (∀ ru, outcome (f ru) = outcome ru) → moves retains (update_run (X := X) f).
Proof. intros Hf w. apply Hf. Qed.
Lemma keeps_steps c m r i l : moves retains (execute_from (X := X) c m r i l).
Proof. apply (moves_steps retains). induction l; by constructor. Qed.
Lemma keeps_copy p : copy_ok retains p.
Proof. done. Qed.
Lemma keeps_save tool p : save_ok retains tool p.
Proof. done. Qed.
Hint Resolve keeps_update keeps_steps keeps_copy keeps_save : scenario.

Lemma keeps_log c : moves retains (sput (W := SW X) (add_call c)).
Proof. by apply moves_put. Qed.
Hint Resolve keeps_log : scenario.
Lemma keeps_vms slug runId defs : moves retains (resolveVms (X := X) slug runId defs).
Proof.
  assert (Hd : ∀ all m, moves retains (resolve_defs (X := X) slug runId all m defs)).
  { unfold resolveVms. induction defs as [|d defs IH]; intros all m; cbn [resolve_defs]; unfold resolve_ephemeral; frame. }
  unfold resolveVms. frame.
Qed.

(** ** Phase by phase: what it leaves when the status is still green *)

Definition green (w : SW X) : Prop := ru_status (sw_run w) = RS_passed.

Lemma outcome_green (w w' : SW X) : outcome (sw_run w') = outcome (sw_run w) → green w' ↔ green w.
Proof. unfold outcome, green. intros [= -> _ _ _ _ _ _ _]. done. Qed.

Lemma destroy_green l w w' : destroy_ephemeral (X := X) l w = (inr (), w') → green w' → outcome (sw_run w') = outcome (sw_run w).
Proof.
  revert w. induction l as [|r l IH]; intros w; cbn [destroy_ephemeral]; [by intros [= <-]|].
  intros E Hg. apply sbind_inv in E as ([] & w1 & E1 & E). rewrite (IH _ E Hg).
  pose proof (proj1 (outcome_green _ _ (IH _ E Hg)) Hg) as Hg1.
  unfold scatch, call in E1. rewrite sbind_eq in E1. cbn [sput] in E1. unfold op in E1.
  destruct (sc_teardownEphemeralVm r _) as [[e|[]] x]; [|by injection E1 as <-].
  rewrite sbind_eq in E1. cbn [sget] in E1. destruct (truthy _); [by injection E1 as <-|].
  rewrite sbind_eq in E1. unfold update_run at 1 in E1. cbn [sput] in E1. case_bool_decide as Hs; injection E1 as <-; [done|].
  exfalso. apply Hs. exact Hg1.
Qed.

(** The results of the declared teardown, if the machines were resolved. *)
Lemma teardown_green w w' : teardown_phase (X := X) w = (inr (), w') → green w' → green w ∧
  ∃ rs, sw_run w' = with_teardown rs (sw_run w) ∧ any_failed rs = false ∧
    (ru_vmMap (sw_run w) ≠ None → map (λ x, (sr_action x, sr_vm x)) rs = map (λ s, (st_action s, st_vm s)) (ru_teardownSteps (sw_run w))).
Proof.
  assert (Hnil : ∀ ru, ru = with_teardown [] ru) by (intros []; unfold with_teardown; cbn; by rewrite app_nil_r).
  unfold teardown_phase. intros E Hg. apply sbind_inv in E as (ru & w0 & [= <- <-] & E).
  destruct (ru_vmMap (sw_run w)) as [m|]; [|injection E as <-; split; [done|exists []; by split_and!]].
  destruct (ru_teardownSteps (sw_run w)) as [|s l]; [injection E as <-; split; [done|exists []; by split_and!]|].
  apply sbind_inv in E as (r & w1 & E1 & E). unfold scatch, executeTeardown, executeSetup in E1. rewrite sbind_eq in E1.
  destruct (execute_from _ _ _ _ _ w) as [[e|rs] w2] eqn:E2; injection E1 as <- <-.
  - apply sbind_inv in E as (? & w3 & [= _ <-] & [= <-]). done.
  - pose proof (quiet_steps (ru_credentials (sw_run w)) m (ru_retry (sw_run w)) 0 (s :: l) w) as [Hr _]. rewrite E2 in Hr. cbn in Hr.
    apply sbind_inv in E as (? & w3 & [= _ <-] & E). destruct (bool_decide _) eqn:Es, (any_failed rs) eqn:Ef; cbn in E; injection E as <-.
    1: done. all: unfold green in *; cbn in Hg |- *; rewrite Hr in Hg |- *.
    1, 3: (split; [done|]); exists rs; split_and!; [done..|by intros _; apply (steps_named _ _ _ _ _ _ _ _ E2)].
    case_bool_decide; congruence.
Qed.

Lemma record_setup_green l w w' : record_setup (X := X) l w = (inr (), w') → green w' →
  any_failed l = false ∧ outcome (sw_run w') = outcome (with_setup l (sw_run w)).
Proof.
  unfold record_setup. intros E Hg. apply sbind_inv in E as (? & w1 & [= _ <-] & E). destruct (any_failed l); injection E as <-; done.
Qed.

Definition add_blocks (rs : list ToolBlockResult) (ru : ScenarioRun) : ScenarioRun :=
  mkRun (ru_name ru) (ru_status ru) (ru_error ru) (ru_setup ru) (ru_teardown ru) (ru_assertions ru) (ru_blocks ru ++ rs) (ru_outputs ru) (ru_vmMap ru)
    (ru_teardownSteps ru) (ru_retry ru) (ru_ephemeral ru) (ru_hash ru) (ru_agents ru) (ru_networks ru) (ru_credentials ru).

Lemma outcome_blocks rs ru ru' : outcome ru = outcome ru' → outcome (add_blocks rs ru) = outcome (add_blocks rs ru').
Proof. unfold outcome. cbn. by intros [= -> -> -> -> -> -> -> ->]. Qed.

Lemma blocks_green c m i bl w w' : run_blocks (X := X) c m i bl w = (inr (), w') → green w' → green w ∧
  ∃ rs, outcome (sw_run w') = outcome (add_blocks rs (sw_run w)) ∧ map tr_tool rs = map tb_tool bl ∧ forallb tr_passed rs = true.
Proof.
  revert i w. induction bl as [|b bl IH]; intros i w; cbn [run_blocks]; [intros [= <-] Hg; split; [done|]; exists []; unfold outcome; cbn; by rewrite app_nil_r|].
  intros E Hg. apply sbind_inv in E as (o & w1 & E1 & E). apply sbind_inv in E as (? & w2 & E2 & E).
  destruct (IH _ _ E Hg) as (Hg2 & rs & Ho & Ht & Hp).
  assert (Hq : outcome (sw_run w1) = outcome (sw_run w)).
  { eapply keeps_at; [|exact E1]. frame. }
  destruct o as [e|out].
  - apply sbind_inv in E2 as (? & w3 & [= _ <-] & [= _ <-]). by unfold green in Hg2.
  - injection E2 as _ <-. split; [by apply (outcome_green _ _ Hq)|]. exists (mkToolBlockResult i (tb_tool b) true None (Some (snippet 256 out)) :: rs).
    rewrite Ho, <- (outcome_blocks _ _ _ Hq). unfold outcome. cbn. rewrite <- app_assoc. cbn. by rewrite Ht, Hp.
Qed.

(** What the verdict on the assertions has to be, given which of them passed: with a
    modern one among them the threshold decides, otherwise all have to pass. *)
Definition accepted (config : AssertionConfig) (passed : list bool) : bool :=
  if existsb (λ a, negb (is_legacy a)) (acf_assertions config) then overall config passed else forallb (λ b, b) passed.

Lemma forallb_map {A} (f : A → bool) l : forallb (λ b, b) (map f l) = forallb f l.
Proof. induction l as [|a l IH]; [done|]. cbn. by rewrite IH. Qed.

Lemma assess_verdict config path (w : SW X) r w' : assess config path w = (inr r, w') →
  map ae_id r.1 = map (get_prop "id") (acf_assertions config) ∧ r.2 = accepted config (map ae_passed r.1).
Proof.
  unfold assess, accepted. intros E. apply sbind_inv in E as (outputs & w1 & [= <- <-] & E). destruct (existsb _ _).
  - apply sbind_inv in E as ([[rs v] sc] & w2 & E2 & [= <- _]). cbn. unfold evaluateAssertionsV2 in E2.
    apply sbind_inv in E2 as (rs1 & w3 & E3 & [= -> <- _ _]).
    destruct (evaluateAll_total (v2_context (ru_outputs (sw_run w)) path) (acf_assertions config) w) as (rs2 & w4 & E4 & Hi).
    rewrite E3 in E4. injection E4 as <- _. rewrite !map_map. by split.
  - injection E as <- _. unfold evaluateAssertions. cbn [fst snd]. generalize (ru_outputs (sw_run w)). intros outputs.
    split; [|by rewrite forallb_map]. induction (acf_assertions config) as [|a l IH]; [done|]. cbn. by rewrite IH.
Qed.

Lemma assertions_green config path w w' : run_assertions (X := X) config path w = (inr (), w') → green w' → green w ∧ (ru_assertions (sw_run w) = [] →
  ∃ es, outcome (sw_run w') = outcome (with_assertions es (sw_run w)) ∧ map ae_id es = map (get_prop "id") (acf_assertions config) ∧
    accepted config (map ae_passed es) = true).
Proof.
  unfold run_assertions. intros E Hg. destruct (acf_assertions config) as [|a l] eqn:Ea.
  { injection E as <-. split; [done|]. intros Hn. exists []. unfold accepted. rewrite Ea. split; [|done]. unfold outcome. cbn. by rewrite Hn. }
  apply sbind_inv in E as (r & w1 & E1 & E). destruct (assess_verdict _ _ _ _ _ E1) as [Hi Hv].
  pose proof (quiet_assess config path w) as [Hq _]. rewrite E1 in Hq. cbn in Hq.
  apply sbind_inv in E as (? & w2 & [= _ <-] & E). apply sbind_inv in E as (? & w3 & E3 & E).
  pose proof (keeps_at _ _ _ _ (moves_events retains _) E3) as Ho.
  destruct (r.2); injection E as <-; [|done]. split; [|intros _; exists r.1; rewrite Ho, <- Ea; cbn; by rewrite Hq, <- Hv].
  apply (outcome_green _ _ Ho) in Hg. unfold green in *. cbn in Hg. by rewrite Hq in Hg.
Qed.

(** Every part of a scenario has its result, and none of them is a failure. *)
Record Performed (loaded : LoadResult) (config : json) (workflow : string) (setup teardown : list StepResult) (blocks : list ToolBlockResult)
    (entries : list AssertionEntry) : Prop := mkPerformed {
  pf_capabilities : assertScenarioCapabilities config workflow = inr ();
  pf_setup : ∃ software steps, setup = software ++ steps ∧ map sr_action software = map (λ _, "install_bundle") (software_of config) ∧
    map (λ x, (sr_action x, sr_vm x)) steps = map (λ s, (st_action s, st_vm s)) (map setup_step (objects (prop_in "setup" config)));
  pf_teardown : map (λ x, (sr_action x, sr_vm x)) teardown = map (λ s, (st_action s, st_vm s)) (map setup_step (objects (prop_in "teardown" config)));
  pf_no_failure : any_failed (setup ++ teardown) = false;
  pf_blocks : map tr_tool blocks = map tb_tool (workflow_blocks workflow) ∧ forallb tr_passed blocks = true;
  pf_assertions : map ae_id entries = map (get_prop "id") (acf_assertions (lr_assertions loaded)) ∧
    accepted (lr_assertions loaded) (map ae_passed entries) = true
}.

Lemma any_failed_app l k : any_failed (l ++ k) = any_failed l || any_failed k.
Proof. apply existsb_app. Qed.

Lemma entries_outcome es ru ru' : outcome ru = outcome ru' → outcome (with_assertions es ru) = outcome (with_assertions es ru').
Proof. unfold outcome. cbn. by intros [= -> -> -> -> _ -> -> ->]. Qed.
Lemma record_outcome l ru ru' : outcome ru = outcome ru' → outcome (with_setup l ru) = outcome (with_setup l ru').
Proof. unfold outcome. cbn. by intros [= -> -> -> -> -> -> -> ->]. Qed.

(** The phases after the machines are there. *)
Lemma workflow_green creds vmMap path dir refs retry steps blocks config w w' :
  (match refs with [] => mret () | p :: l => r ← applyScenarioSoftware (X := X) vmMap dir (p :: l); record_setup r end;;
   update_run (with_retry retry);;
   results ← executeSetup creds steps vmMap retry;
   record_setup results;; run_blocks creds vmMap 0 blocks;; run_assertions config path) w = (inr (), w') →
  green w' → ru_assertions (sw_run w) = [] → green w ∧
  ∃ l1 l2 rs es, outcome (sw_run w') = outcome (with_assertions es (add_blocks rs (with_setup l2 (with_setup l1 (sw_run w))))) ∧
    map sr_action l1 = map (λ _, "install_bundle") refs ∧ map (λ x, (sr_action x, sr_vm x)) l2 = map (λ s, (st_action s, st_vm s)) steps ∧
    any_failed l1 = false ∧ any_failed l2 = false ∧ map tr_tool rs = map tb_tool blocks ∧ forallb tr_passed rs = true ∧
    map ae_id es = map (get_prop "id") (acf_assertions config) ∧ accepted config (map ae_passed es) = true.
Proof.
  intros E Hg Hn. apply sbind_inv in E as (? & w1 & E1 & E). apply sbind_inv in E as (? & w2 & [= _ <-] & E).
  apply sbind_inv in E as (l2 & w3 & E3 & E). apply sbind_inv in E as ([] & w4 & E4 & E). apply sbind_inv in E as ([] & w5 & E5 & E).
  destruct (assertions_green _ _ _ _ E Hg) as [Hg5 Ha]. destruct (blocks_green _ _ _ _ _ _ E5 Hg5) as (Hg4 & rs & Ho5 & Ht & Hp).
  destruct (record_setup_green _ _ _ E4 Hg4) as [Hf2 Ho4]. pose proof (keeps_at _ _ _ _ (keeps_steps _ _ _ _ _) E3) as Ho3.
  pose proof (steps_named _ _ _ _ _ _ _ _ E3) as Hn2.
  assert (Hg1 : green w1).
  { unfold green in *. unfold outcome in Ho3, Ho4. cbn in Ho3, Ho4. congruence. }
  assert (∃ l1, map sr_action l1 = map (λ _, "install_bundle") refs ∧ any_failed l1 = false ∧
    outcome (sw_run w1) = outcome (with_setup l1 (sw_run w))) as (l1 & Hn1 & Hf1 & Ho1).
  { destruct refs as [|ref refs].
    - injection E1 as _ <-. exists []. split_and!; [done..|]. unfold outcome. cbn. by rewrite app_nil_r.
    - apply sbind_inv in E1 as (l1 & w1' & E0 & E1). destruct x. destruct (record_setup_green _ _ _ E1 Hg1) as [Hf1 Ho1]. exists l1.
      split_and!; [by eapply software_named|done|]. rewrite Ho1. apply record_outcome. exact (keeps_at _ _ _ _ (moves_all_software retains _ _ _) E0). }
  assert (Ho : outcome (sw_run w5) = outcome (add_blocks rs (with_setup l2 (with_setup l1 (sw_run w))))).
  { rewrite Ho5. apply outcome_blocks. rewrite Ho4. apply record_outcome. by rewrite Ho3. }
  destruct Ha as (es & Hoe & Hi & Hv); [unfold outcome in Ho; cbn in Ho; congruence|]. split.
  { unfold green in *. unfold outcome in Ho. cbn in Ho. congruence. }
  exists l1, l2, rs, es. rewrite Hoe. split; [by apply entries_outcome|]. by split_and!.
Qed.

(** What the scenario is once references are put in. *)
Definition scenario_text (parameters : json_object) (loaded : LoadResult) : JsError + json * string :=
  let params := mergeRuntimeParams (prop_in "parameters" (lr_config loaded)) parameters in
  config ← substituteRuntimeRefsDeep params (lr_config loaded);
  workflow ← substituteRuntimeRefs (lr_workflow loaded) params;
  inr (config, workflow).

Lemma keeps_credentials defs : moves retains (rebuildVmCredentialsIndex (X := X) defs).
Proof. unfold rebuildVmCredentialsIndex. cbv zeta. frame. Qed.

Lemma body_green path runId params w w' :
  outcome (sw_run w) = outcome initial_run → scenario_body (X := X) path runId params w = (inr (), w') → green w' →
  ∃ loaded x config workflow,
    sc_load path (sw_ext w) = (inr loaded, x) ∧ scenario_text params loaded = inr (config, workflow) ∧
    ru_error (sw_run w') = None ∧ ru_teardown (sw_run w') = [] ∧ ru_vmMap (sw_run w') ≠ None ∧
    ru_teardownSteps (sw_run w') = map setup_step (objects (prop_in "teardown" config)) ∧
    ∀ rs, map (λ x, (sr_action x, sr_vm x)) rs = map (λ s, (st_action s, st_vm s)) (ru_teardownSteps (sw_run w')) → any_failed rs = false →
      Performed loaded config workflow (ru_setup (sw_run w')) rs (ru_blocks (sw_run w')) (ru_assertions (sw_run w')).
Proof.
  intros Ho E Hg. unfold scenario_body in E. cbv zeta in E.
  apply sbind_inv in E as (loaded & w1 & E1 & E). apply sbind_inv in E as (config & w2 & E2 & E). apply slift_inv in E2 as [E2 ->].
  apply sbind_inv in E as (workflow & w3 & E3 & E). apply slift_inv in E3 as [E3 ->].
  apply sbind_inv in E as (? & w4 & [= _ <-] & E). apply sbind_inv in E as ([] & w5 & E5 & E). apply slift_inv in E5 as [E5 ->].
  apply sbind_inv in E as (hash & w6 & E6 & E). apply slift_inv in E6 as [E6 ->]. apply sbind_inv in E as (? & w7 & [= _ <-] & E).
  apply sbind_inv in E as (creds & w8 & E8 & E). apply sbind_inv in E as (? & w9 & [= _ <-] & E). apply sbind_inv in E as (? & w10 & [= _ <-] & E).
  apply sbind_inv in E as (vmMap & w11 & E11 & E). apply sbind_inv in E as (? & w12 & [= _ <-] & E). apply sbind_inv in E as (? & w13 & E13 & E).
  apply sbind_inv in E as (? & w14 & E14 & E). apply sbind_inv in E as (agents & w15 & E15 & E). apply sbind_inv in E as (? & w16 & [= _ <-] & E).
  apply (keeps_at _ _ _ _ (moves_op retains _)) in E1 as Ho1. apply (keeps_at _ _ _ _ (keeps_credentials _)) in E8.
  apply (keeps_at _ _ _ _ (keeps_vms _ _ _)) in E11. apply (keeps_at _ _ _ _ (moves_op retains _)) in E13.
  apply (keeps_at _ _ _ _ (moves_wait retains _ _)) in E14. apply (keeps_at _ _ _ _ (moves_versions retains _)) in E15.
  destruct (workflow_green _ _ _ _ _ _ _ _ _ _ _ E Hg) as (_ & l1 & l2 & rs & es & Hw & Hn1 & Hn2 & Hf1 & Hf2 & Hb & Hp & Hi & Hv).
  { unfold outcome in *. cbn in *. congruence. }
  assert (Hr : outcome (sw_run w') = (RS_passed, None, l1 ++ l2, [], es, rs, Some vmMap, map setup_step (objects (prop_in "teardown" config)))).
  { assert (H15 : outcome (sw_run w15) = (RS_passed, None, [], [], [], [], Some vmMap, map setup_step (objects (prop_in "teardown" config)))).
    { clear -Ho Ho1 E8 E11 E13 E14 E15. unfold outcome in *. cbn in *. congruence. }
    rewrite Hw. unfold outcome in *. cbn. by injection H15 as -> -> -> -> _ -> -> ->. }
  unfold op in E1. destruct (sc_load path (sw_ext w)) as [r xl]. injection E1 as -> _. unfold outcome in Hr. injection Hr as _ -> -> -> -> -> -> ->.
  exists loaded, xl, config, workflow. split_and!; try done. { unfold scenario_text. by rewrite E2; cbn; rewrite E3. }
  intros ts Hts Hft. split; try done. { by exists l1, l2. } by rewrite !any_failed_app, Hf1, Hf2, Hft.
Qed.

(** C11: GREEN-RUN.  A run that ends with the status passed is green in all its parts:
    its scenario was loaded, the references were resolved and the capability check
    accepted it; there is no error; each declared software bundle, setup step and
    teardown step has a result, in order, and none of them is a failure (a step with an
    unknown action is skipped, which is not one); each tool block that the narrative
    parser finds in the workflow has a result and passed; and each assertion has an
    answer, with the verdict that the threshold and the critical assertions give. *)
Theorem green_run path runId params (w : SW X) r w' :
  runScenario path runId params w = (inr r, w') → sx_status r = RS_passed →
  sx_error r = None ∧ ∃ loaded x config workflow,
    sc_load path (sc_now (sw_ext w)).2 = (inr loaded, x) ∧ scenario_text params loaded = inr (config, workflow) ∧
    Performed loaded config workflow (sx_setup_results r) (sx_teardown_results r) (sx_tool_blocks r) (sx_assertion_results r).
Proof.
  intros E Hs. destruct (phases_run path runId params w) as (t & w1 & w2 & w3 & w4 & t' & w5 & E1 & E2 & E3 & E4 & E5 & E').
  rewrite E in E'. symmetry in E'. apply sbind_inv in E' as ([] & w6 & _ & [= <- _]). cbn in *.
  assert (Hx : sw_ext w1 = (sc_now (sw_ext w)).2).
  { unfold now, sread in E1. cbn in E1. destruct (sc_now (sw_ext w)). by injection E1 as _ <-. }
  pose proof (keeps_at _ _ _ _ (moves_now retains) E1) as Ho1. pose proof (keeps_at _ _ _ _ (moves_now retains) E5) as Ho5.
  pose proof (proj1 (outcome_green _ _ Ho5) Hs) as Hg4. pose proof (destroy_green _ _ _ E4 Hg4) as Ho4. rewrite Ho4 in Ho5.
  pose proof (proj1 (outcome_green (drop_kernel_debug w3) _ Ho4) Hg4) as Hg3. destruct (teardown_green _ _ E3 Hg3) as (Hg2 & rs & Hr & Hf & Hn).
  change (sw_run (drop_kernel_debug w3)) with (sw_run w3) in Ho5. rewrite Hr in Ho5.
  unfold scatch in E2. destruct (scenario_body path runId params w1) as [[e|[]] w2'] eqn:Eb.
  { unfold on_error in E2. rewrite sbind_eq in E2. by injection E2 as <-. }
  injection E2 as ->. destruct (body_green _ _ _ _ _ Ho1 Eb Hg2) as (loaded & x & config & workflow & El & Et & He & Htd & Hm & Hts & Hp).
  unfold outcome in Ho5. cbn in Ho5. rewrite Htd in Ho5. injection Ho5 as _ -> -> -> -> -> _ _. split; [done|].
  exists loaded, x, config, workflow. rewrite <- Hx. split_and!; [done..|]. apply Hp; auto.
Qed.
End green.

(** ** Capabilities *)

Section capabilities.
Context {X : Type} `{ScenarioHost X} `{ScenarioText} `{JsEngine}.

Definition block_params (b : ToolBlock) : json_object := match tb_params b with JObj o => o | _ => [] end.

(** A host file that goes into a guest or comes from one is one that the scenario
    names, and the declared patterns cover it; the empty path is not looked at.  The
    pictures that the given tool blocks save go where their output says. *)
Definition permitted (caps : Capabilities) (blocks : list ToolBlock) (c : Call) : Prop :=
  match c with
  | CL_read p _ => ∃ path, p = host_file path ∧ (path = "" ∨ pathAllowed path (cp_read caps) = true)
  | CL_write p _ => ∃ path, p = host_file path ∧ (path = "" ∨ pathAllowed path (cp_write caps) = true)
  | CL_saved p _ => ∃ b output, b ∈ blocks ∧ saves (tb_tool b) (block_params b) output ∧ p = resolveWorkflowScreenshotPath output
  | _ => True
  end.

(** The directions that the check and the copy understand in the same way. *)
Definition known_direction (fields : json_object) : bool := is_json_text "host_to_guest" (direction_of fields) || writes_host fields.

Lemma check_permits caps blocks o path vm : check_step caps o = inr () → known_direction o = true → get_prop "host_path" o = Some (JStr path) →
  permitted caps blocks (copy_call (X := X) o path vm).
Proof.
  unfold check_step, known_direction, copy_call, copyStepHostPath. intros Hc Hd Hp. rewrite Hp in Hc.
  assert (Hw : is_json_text "host_to_guest" (direction_of o) = negb (writes_host o)).
  { unfold writes_host in *. destruct (direction_of o); try done. cbn in *. destruct (s =?s "host_to_guest") eqn:E; cbn in Hd; [|by rewrite Hd].
    apply bool_decide_eq_true in E as ->. done. }
  rewrite Hw. destruct (match json_truthy (get_prop "vm" o) with Some _ => _ | None => _ end) as [e|[]]; [done|]. cbn [mbind JsError_bind] in Hc. cbn [truthy] in Hc.
  destruct (path =?s "") eqn:Ep; [apply bool_decide_eq_true in Ep as ->; destruct (writes_host o); cbn; exists ""; auto|].
  unfold requireCapability in Hc. destruct (writes_host o); cbn in *; destruct (pathAllowed _ _) eqn:Ea; try done; exists path; auto.
Qed.

Lemma check_all_in {A} (check : A → JsError + ()) l x : check_all check l = inr () → x ∈ l → check x = inr ().
Proof.
  induction l as [|y l IH]; [by intros _ ?%not_elem_of_nil|]. cbn. destruct (check y) as [e|[]] eqn:E; [done|]. cbn.
  intros Hl [->|Hx]%elem_of_cons; auto.
Qed.

Section guarded.
Context (caps : Capabilities) (blocks : list ToolBlock).

Definition step_permitted (fields : json_object) : Prop :=
  ∀ path vm, get_prop "host_path" fields = Some (JStr path) → permitted caps blocks (copy_call (X := X) fields path vm).

(** The calls made are permitted, and the steps still to come are. *)
Definition guarded (w w' : SW X) : Prop :=
  (∃ l, sw_calls w' = sw_calls w ++ l ∧ Forall (permitted caps blocks) l) ∧
  (Forall (λ s, step_permitted (st_fields s)) (ru_teardownSteps (sw_run w)) → Forall (λ s, step_permitted (st_fields s)) (ru_teardownSteps (sw_run w'))).
#[local] Instance guarded_preorder : PreOrder guarded.
Proof.
  split; [intros w; split; [exists []; by rewrite app_nil_r|done]|].
  intros a b c [(l & E1 & Hl) Ht1] [(k & E2 & Hk) Ht2]. split; [|auto]. exists (l ++ k). rewrite E2, E1, app_assoc. by split; [|apply Forall_app].
Qed.
Lemma guarded_same w w' : sw_calls w' = sw_calls w → sw_run w' = sw_run w → guarded w w'.
Proof. intros E1 E2. split; [|by rewrite E2]. exists []. by rewrite E1, app_nil_r. Qed.
Lemma guarded_log c w : permitted caps blocks c → guarded w (add_call c w).
Proof. intros Hc. split; [|done]. exists [c]. by repeat constructor. Qed.
#[local] Program Instance guarded_frame : Frame guarded := {| frame_ok c := permitted caps blocks c |}.
Next Obligation. intros. by apply guarded_same. Qed.
Next Obligation. intros. by apply guarded_log. Qed.
Next Obligation. by intros []. Qed.
#[local] Instance guarded_loud : Loud guarded.
Proof. refine {| loud_frame := guarded_frame |}; intros; by apply guarded_same. Defined.

Lemma guarded_update f : (∀ ru, ru_teardownSteps (f ru) = ru_teardownSteps ru) → moves guarded (update_run (X := X) f).
Proof. intros Hf w. split; [exists []; cbn; by rewrite app_nil_r|]. cbn. by rewrite Hf. Qed.
Lemma guarded_vms m l : Forall (λ s, step_permitted (st_fields s)) l → moves guarded (update_run (X := X) (with_vms m l)).
Proof. intros Hl w. split; [exists []; cbn; by rewrite app_nil_r|]. done. Qed.
Lemma guarded_put c : permitted caps blocks c → moves guarded (sput (W := SW X) (add_call c)).
Proof. intros Hc w. by apply guarded_log. Qed.
Lemma guarded_steps c m r i l : Forall (λ s, step_permitted (st_fields s)) l → moves guarded (execute_from (X := X) c m r i l).
Proof. intros Hl. by apply (moves_steps guarded). Qed.
Hint Resolve guarded_update guarded_vms guarded_put guarded_steps : scenario.
Hint Extern 0 (permitted _ _ _) => exact I : scenario.

Lemma guarded_defs slug runId all m defs : moves guarded (resolve_defs (X := X) slug runId all m defs).
Proof. revert all m. induction defs as [|d defs IH]; intros all m; cbn [resolve_defs]; unfold resolve_ephemeral; frame. Qed.
Lemma guarded_blocks c m i l : l ⊆ blocks → Forall (λ b, step_permitted (block_params b)) l → moves guarded (run_blocks (X := X) c m i l).
Proof.
  intros Hin Hl. revert i. induction Hl as [|b l Hb _ IH]; intros i; cbn [run_blocks]; [frame|].
  assert (Ht : moves guarded (executeToolBlock (X := X) c (tb_tool b) (tb_params b) m)).
  { apply (moves_tool guarded); [done|]. intros output vm Hs. exists b, output. split_and!; [set_solver|done..]. }
  specialize (IH ltac:(set_solver)). frame.
Qed.
Lemma guarded_destroy l : moves guarded (destroy_ephemeral (X := X) l).
Proof. induction l as [|r l IH]; cbn [destroy_ephemeral]; frame. Qed.
Hint Resolve guarded_defs guarded_blocks : scenario.

Lemma guarded_record l : moves guarded (record_setup (X := X) l).
Proof. unfold record_setup. frame. Qed.
Lemma guarded_assertions config path : moves guarded (run_assertions (X := X) config path).
Proof.
  assert (Ha : moves guarded (assess (X := X) config path)).
  { unfold assess, evaluateAssertionsV2. apply moves_bind; [apply _|auto with scenario|intros outputs].
    assert (Hn : ∀ w : SW X, guarded w (ah_now w).2) by (intros w; cbn; destruct (sc_now (sw_ext w)); by apply guarded_same).
    pose proof (evaluateAll_moves (v2_context outputs path) guarded Hn ltac:(done) (acf_assertions config)) as Hm. frame. }
  unfold run_assertions. frame.
Qed.
Hint Resolve guarded_record guarded_assertions : scenario.

(** The run once the references are resolved. *)
Lemma guarded_phases path runId loaded config workflow : (assertScenarioCapabilities config workflow = inr () →
    Forall (λ s, step_permitted (st_fields s)) (map setup_step (objects (prop_in "setup" config))) ∧
    Forall (λ s, step_permitted (st_fields s)) (map setup_step (objects (prop_in "teardown" config))) ∧
    Forall (λ b, step_permitted (block_params b)) (workflow_blocks workflow) ∧ workflow_blocks workflow ⊆ blocks) →
  ∀ params w x, sc_load path (sw_ext w) = (inr loaded, x) → scenario_text params loaded = inr (config, workflow) →
  guarded w (scenario_body (X := X) path runId params w).2.
Proof.
  intros Hs params w x El Et. unfold scenario_text in Et. unfold scenario_body. cbv zeta in *. rewrite sbind_eq. unfold op at 1. rewrite El.
  trans (set_ext x w); [by apply guarded_same|]. rewrite sbind_eq. unfold slift at 1. destruct (substituteRuntimeRefsDeep _ _) as [e|config']; [done|]. cbn in Et.
  rewrite sbind_eq. unfold slift at 1. destruct (substituteRuntimeRefs _ _) as [e|workflow']; [done|]. injection Et as -> ->.
  match goal with |- guarded ?w (?m ?w).2 => refine ((_ : moves guarded m) w) end. apply moves_bind; [apply _|by apply guarded_update|intros _].
  destruct (assertScenarioCapabilities config workflow) as [e|[]]; [apply moves_throw_bind, _|]. destruct (Hs eq_refl) as (H2 & H3 & H4 & H5).
  unfold rebuildVmCredentialsIndex, resolveVms, executeSetup. cbv zeta. frame; by apply guarded_update.
Qed.

Lemma guarded_teardown w : Forall (λ s, step_permitted (st_fields s)) (ru_teardownSteps (sw_run w)) → guarded w (teardown_phase (X := X) w).2.
Proof.
  intros Ht. unfold teardown_phase. rewrite sbind_eq. cbn [sget]. destruct (ru_vmMap _) as [m|]; [|reflexivity].
  destruct (ru_teardownSteps (sw_run w)) as [|s l]; [reflexivity|]. unfold executeTeardown, executeSetup.
  match goal with |- guarded ?w (?m ?w).2 => refine ((_ : moves guarded m) w) end. frame.
Qed.

Lemma guarded_end t d ru : moves guarded (write_report (X := X) t d ru;; mret (result_of_run d ru)).
Proof. apply moves_bind; [apply _|by apply (moves_report guarded)|intros _; by apply moves_ret, _]. Qed.
End guarded.

(** The steps and blocks of an accepted scenario. *)
Lemma accepted_steps config workflow c :
  json_truthy (prop_in "capabilities" config) = Some c → assertScenarioCapabilities config workflow = inr () →
  forallb known_direction (objects (prop_in "setup" config) ++ objects (prop_in "teardown" config) ++ map block_step (workflow_blocks workflow)) = true →
  map block_step (workflow_blocks workflow) ⊆ map block_step (extractToolBlocks workflow) →
  Forall (λ s, step_permitted (capabilities_of c) (workflow_blocks workflow) (st_fields s)) (map setup_step (objects (prop_in "setup" config))) ∧
  Forall (λ s, step_permitted (capabilities_of c) (workflow_blocks workflow) (st_fields s)) (map setup_step (objects (prop_in "teardown" config))) ∧
  Forall (λ b, step_permitted (capabilities_of c) (workflow_blocks workflow) (block_params b)) (workflow_blocks workflow) ∧
  workflow_blocks workflow ⊆ workflow_blocks workflow.
Proof.
  unfold assertScenarioCapabilities. intros -> Hc Hk Hb. destruct (check_all (check_vm _) _) as [e|[]]; [done|]. cbn in Hc.
  rewrite !forallb_app, !andb_true_iff, !forallb_forall in Hk. destruct Hk as (K1 & K2 & K3).
  assert (Hs : ∀ o, o ∈ objects (prop_in "setup" config) ++ objects (prop_in "teardown" config) ++ map block_step (extractToolBlocks workflow) →
    known_direction o = true → step_permitted (capabilities_of c) (workflow_blocks workflow) o).
  { intros o Ho Hd path vm Hp. by apply check_permits; [eapply check_all_in| |]. }
  setoid_rewrite elem_of_app in Hs. setoid_rewrite elem_of_app in Hs. split_and!.
  1, 2: rewrite Forall_map; apply Forall_forall; intros o Ho; apply Hs; [auto|]; apply list_elem_of_In in Ho; auto.
  2: done. apply Forall_forall. intros b Hbl. assert (Hbs : step_permitted (capabilities_of c) (workflow_blocks workflow) (block_step b)).
  { apply Hs; [right; right; apply Hb, list_elem_of_In, in_map, list_elem_of_In, Hbl|]. apply K3, in_map, list_elem_of_In, Hbl. }
  intros path vm Hp. unfold step_permitted, block_params, block_step, copy_call, direction_of in *. specialize (Hbs path vm). 
  destruct (tb_params b); try done. rewrite !get_prop_app, Hp in Hbs. specialize (Hbs eq_refl). by destruct (get_prop "direction" fields).
Qed.

End capabilities.

(** ** Uploads *)

Lemma take_drop_str n s : str_take n s +:+ str_drop n s = s.
Proof.
  unfold str_take, str_drop. revert n. induction s as [|c s IH]; intros [|n]; try done.
  - change (String.substring 0 0 (String c s)) with "". rewrite Nat.sub_0_r. apply substring_whole.
  - exact (f_equal (String c) (IH n)).
Qed.
Lemma length_str_take n s : (n ≤ String.length s)%nat → String.length (str_take n s) = n.
Proof. unfold str_take. revert n. induction s as [|c s IH]; intros [|n] Hn; cbn in *; try lia. by rewrite IH by lia. Qed.
Lemma length_str_drop n s : String.length (str_drop n s) = (String.length s - n)%nat.
Proof.
  unfold str_drop. revert n. induction s as [|c s IH]; intros [|n]; try done; [|by apply IH]. 
  rewrite Nat.sub_0_r. by rewrite substring_whole.
Qed.
(** An upload writes the whole file, in pieces of at most a megabyte and at least one. *)
Lemma pieces_whole fuel s : (String.length s < fuel)%nat → join "" (pieces fuel s) = s ∧ pieces fuel s ≠ [] ∧
  Forall (λ p, Z.of_nat (String.length p) ≤ GUEST_FILE_CHUNK_BYTES) (pieces fuel s).
Proof.
  assert (Hj : ∀ a l, l ≠ [] → join "" (a :: l) = a +:+ join "" l) by (intros a [|b l]; done).
  revert s. induction fuel as [|fuel IH]; intros s Hs; [lia|]. cbn [pieces]. destruct (Z.leb_spec (Z.of_nat (String.length s)) GUEST_FILE_CHUNK_BYTES) as [Hl|Hl].
  - split_and!; [done..|]. by constructor.
  - cbv zeta. set (n := Z.to_nat GUEST_FILE_CHUNK_BYTES). assert (Hn : (Z.of_nat n = GUEST_FILE_CHUNK_BYTES)%Z) by (unfold n; rewrite Z2Nat.id; done).
    assert (Hp : 0 < GUEST_FILE_CHUNK_BYTES) by done. clearbody n.
    destruct (IH (str_drop n s)) as (E & Hne & Hf); [rewrite length_str_drop; lia|]. rewrite Hj, E by done. split_and!; [apply take_drop_str|done|].
    constructor; [rewrite length_str_take; lia|done].
Qed.

(** ** The wait for a machine *)

Section poll.
Context {X : Type} `{ScenarioHost X} `{ScenarioText} `{JsEngine} (clock : X → Z).
Hypothesis clock_now : ∀ x, (sc_now x).1 = clock x ∧ clock x ≤ clock (sc_now x).2.
Hypothesis clock_status : ∀ h x, clock x ≤ clock (sc_getStatus h x).2.
Hypothesis clock_sleep : ∀ ms x, clock x + ms ≤ clock (sc_sleep ms x).

Lemma now_clock w : ∃ w', now w = (inr (clock (sw_ext w)), w') ∧ clock (sw_ext w) ≤ clock (sw_ext w').
Proof.
  unfold now, sread. cbn. destruct (clock_now (sw_ext w)) as [E1 E2]. destruct (sc_now (sw_ext w)) as [t x]. cbn in *. subst t. by eexists.
Qed.

(** One turn per second is enough: more turns make no difference.  A machine that is
    started has a minute, so that 61 of them decide. *)
Lemma poll_enough h deadline fuel k w :
  (1 ≤ fuel)%nat → deadline - clock (sw_ext w) ≤ 1000 * (Z.of_nat fuel - 1) → poll_running (fuel + k) h deadline w = poll_running fuel h deadline w.
Proof.
  revert w. induction fuel as [|fuel IH]; intros w Hf Hd; [lia|]. cbn [poll_running Nat.add]. destruct (now_clock w) as (w1 & E1 & C1).
  rewrite !(sbind_ok _ _ _ _ _ E1). destruct (Z.leb_spec deadline (clock (sw_ext w))) as [Hl|Hl]; [done|]. rewrite !sbind_eq. unfold op.
  pose proof (clock_status h (sw_ext w1)) as C2. destruct (sc_getStatus h (sw_ext w1)) as [[e|st] x2]; [done|]. cbn in C2. destruct (st =?s "running"); [done|].
  destruct (now_clock (set_ext x2 w1)) as (w3 & E3 & C3). rewrite !(sbind_ok _ _ _ _ _ E3). cbn in C3 |- *. destruct (Z.leb_spec (deadline - clock x2) 0); [done|].
  rewrite !sbind_eq. unfold sleep. cbn [sput]. pose proof (clock_sleep (Z.min 1000 (deadline - clock x2)) (sw_ext w3)) as C4.
  apply IH; [|cbn]; lia.
Qed.
End poll.
