(* ===== verification/ScenarioExamples.v ===== *)
(** Scenarios on a small host: the theorems on runs at work, and what a run does with
    assertions, directions and line endings that it takes in a different way than
    their documentation says. *)

From stdpp Require Import strings list.
From S2P Require Import Prelude JsVal JsonReader Signing BuildYaml Build Probes ReleaseDeploy Oci Assertions Narrative Reporter Scenario ScenarioSpec ScenarioRuns Fixture OciSpec.

#[local] Existing Instance rx_engine.

(** YAML that is JSON. *)
#[local] Instance lab_text : ScenarioText := {|
  yaml_parse t := match JSON_parse t with Some v => inr v | None => inl (plain_error "YAML") end;
  environment n := if n =?s "SIGNALMAN_SECRET_TOKEN" then Some "s3cret" else None;
  scenario_sha256 t := "sha256:" +:+ show_Z (Z.of_nat (String.length t))
|}.

Definition lab_command (exit : Z) : GuestResult := mkGuestResult exit "all good" "".

(** A Hyper-V host with a clock: it can create disposable machines, and the commands
    in its guests exit with [exit]; a client is connected for each machine in
    [clients]; reports go to [reports], on a disk that may be full. *)
Definition lab_with (reports : option string) (full : bool) (clients : list string) (exit : Z) (loaded : LoadResult) : ScenarioHost Z := {|
  sc_now t := (t, t + 1);
  sc_sleep ms t := t + ms;
  sc_random t := (num_half, t);
  sc_exists p _ := p =?s "/scenarios/smoke/here.txt";
  sc_readFile p _ := inr "text";
  sc_resolve from p := if starts_with "/" p then path_normalize p else path_normalize (from +:+ "/" +:+ p);
  sc_cwd := "/work";
  sc_dirname p := path_normalize (p +:+ "/..");
  sc_regex _ pattern := inr (λ t, str_includes t pattern);
  sc_not_a_text v := mkJsError "TypeError" "not a text";
  sc_load _ t := (inr loaded, t);
  sc_alias _ := None;
  sc_outputDir := reports;
  sc_configOutputDir := "/work/output";
  sc_screenshotDir := "/work/output/screenshots";
  sc_backend := "hyperv";
  sc_credentials := true;
  sc_heartbeat := None;
  sc_listVMs t := (inr [mkVMHandle "1" "web" "hyperv"], t);
  sc_getStatus h t := (inr "running", t);
  sc_startVM h t := (inr (), t);
  sc_restoreCheckpoint h l t := (if t <? 10000 then inl (plain_error "busy") else inr (), t);
  sc_createCheckpoint h l t := (inr (), t);
  sc_executeCommand c h cmd args ms t := (inr (lab_command exit), t);
  sc_copyFileToVM c h p g t := (inr (), t);
  sc_copyFileFromVM c h g p t := (inr (), t);
  sc_provisionVM n d t := (inr (mkVMHandle "2" n "hyperv"), t);
  sc_provisionEphemeralVm slug runId d t :=
    (if vd_template d =?s "missing" then inl (plain_error "no such template")
     else inr (mkEphemeralVmRecord (slug +:+ "-" +:+ vd_name d) (mkVMHandle "3" (vd_name d) "hyperv") "lineage"), t);
  sc_teardownEphemeralVm r t := (inl (plain_error "in use"), t);
  sc_installSoftware vm p s v ms t := (inr (), t);
  sc_runCommand vm cmd args ms r t := (inr (lab_command exit), t);
  sc_writeFile vm g p a t := (inr (), t);
  sc_readGuestFile vm g t := (inr "guest text", t);
  sc_httpCopy vm p g t := (inr (), t);
  sc_agentVersion vm t := (Some "0.4.0", t);
  sc_installBundle vm p t := (inr (mkBundleResult 0 1 None), t);
  sc_writeHostFile p c t := (if full then inl (plain_error "ENOSPC: no space left on device, write") else inr (), t);
  sc_mkdir p t := (inr (), t);
  sc_waitForGuestAgents defs m old t := ((None, clients), t);
  sc_spawnKernelDebug defs t := (inr (), t);
  sc_teardownKernelDebug t := t;
  sc_docker := false;
  sc_composeUp c s t := (inr (), t);
  sc_composePs c t := (inr [], t);
  sc_waitForHealthy n ms t := (inr true, t);
  sc_composeDown c v t := (inr (), t);
  sc_capture tool vm p t := (inr (Some "PNG", λ saved, json_stringify (or_else (JStr <$> saved) JNull)), t);
  sc_tool _ := None;
  sc_fuel := 100
|}.
Definition lab : list string → Z → LoadResult → ScenarioHost Z := lab_with None false.

Definition lab_world : SW Z := mkSW 0 [] [] [] initial_run.
Definition line (s : string) : string := s +:+ String LF "".

(** A workflow with one heading and one tool block. *)
Definition lab_block (tool : string) (params : json_object) : string := json_stringify (JObj [(tool, JObj params)]).
Definition lab_workflow (opening : string) (end_line : string → string) (block : string) : string :=
  end_line "# Smoke" +:+ end_line "" +:+ end_line "## Ask" +:+ end_line opening +:+ end_line block +:+ end_line fence.

Definition copy_step (direction : json_object) (path : string) : json_object :=
  [("action", JStr "vm_copy_file"); ("vm", JStr "web"); ("host_path", JStr path); ("guest_path", JStr "/tmp/x")] ++ direction.

Definition lab_config (vms setup teardown : list json_object) (more : json_object) : json :=
  JObj ([("name", JStr "Smoke Test"); ("vms", JArr (map JObj vms)); ("setup", JArr (map JObj setup)); ("teardown", JArr (map JObj teardown));
    ("capabilities", JObj [("vms", JArr [JStr "web"]);
      ("host_paths", JObj [("read", JArr [JStr "fixtures/**"]); ("write", JArr [JStr "out/**"])])])] ++ more).

Definition lab_assertions (l : list Assertion) : AssertionConfig := mkAssertionConfig l (num_of_Z 1) true.
Definition says (what : string) : Assertion :=
  [("id", JStr "says"); ("type", JStr "command_output"); ("source", JStr "step-0"); ("expect", JObj [("stdout_contains", JStr what)])].

Definition web : json_object := [("name", JStr "web"); ("template", JStr "ubuntu")].
Definition restore : json_object :=
  [("action", JStr "vm_restore"); ("vm", JStr "web"); ("checkpoint", JStr "clean"); ("retry", JObj [("count", JInt 3); ("backoff_ms", JInt 6000)])].
Definition from_guest : json_object := [("direction", JStr "guest_to_host")].
Definition ask : string := lab_block "vm_run_command" [("command", JStr "status")].

Definition smoke : LoadResult :=
  mkLoadResult (lab_config [web] [copy_step [] "fixtures/a.txt"; restore] [copy_step from_guest "out/log.txt"] []) (lab_assertions [says "good"]) JNull
    (lab_workflow tool_fence line ask).

#[local] Notation run_lab clients exit loaded :=
  (@runScenario Z (lab clients exit loaded) lab_text rx_engine "/scenarios/smoke" None [] lab_world).

Definition status_of (r : (JsError + ScenarioResult) * SW Z) : option (RunStatus * option string) :=
  match r.1 with inr x => Some (sx_status x, sx_error x) | inl _ => None end.

Example smoke_passes : status_of (run_lab [] 0 smoke) = Some (RS_passed, None).
Proof. vm_compute. reflexivity. Qed.

Lemma green_run_witness : ∃ r w', run_lab [] 0 smoke = (inr r, w') ∧ sx_status r = RS_passed ∧
  sx_error r = None ∧ ∃ loaded (x : Z) config workflow,
    @sc_load Z (lab [] 0 smoke) "/scenarios/smoke" 1 = (inr loaded, x) ∧ scenario_text [] loaded = inr (config, workflow) ∧
    Performed loaded config workflow (sx_setup_results r) (sx_teardown_results r) (sx_tool_blocks r) (sx_assertion_results r).
Proof.
  pose proof smoke_passes as Hs. destruct (run_lab [] 0 smoke) as [[e|r] w'] eqn:E; [done|]. injection Hs as H1 H2. exists r, w'. do 2 (split; [done|]).
  exact (@green_run Z (lab [] 0 smoke) lab_text rx_engine "/scenarios/smoke" None [] lab_world r w' E H1).
Defined.

Definition smoke_workflow : string := lr_workflow smoke.


(** The copies of that run, one in each direction. *)
Example smoke_calls : sw_calls (run_lab [] 0 smoke).2 =
  [CL_read "/work/fixtures/a.txt" "web"; CL_restore "web"; CL_restore "web"; CL_restore "web"; CL_exec "web"; CL_write "/work/out/log.txt" "web"].
Proof. vm_compute. reflexivity. Qed.

(** A scenario that reads outside its patterns is refused before anything runs. *)
Example denied_before_anything_runs :
  let loaded := mkLoadResult (lab_config [web] [copy_step [] "fixtures/../secrets.txt"] [] []) (lab_assertions []) JNull "" in
  status_of (run_lab [] 0 loaded) = Some (RS_error, Some "capability-denied: step 'vm_copy_file' reads undeclared host path 'fixtures/../secrets.txt'") ∧
  sw_calls (run_lab [] 0 loaded).2 = [].
Proof. vm_compute. by split. Qed.

(** The second machine cannot be created: the first one is destroyed all the same,
    and that this fails is not what the run reports. *)
Example first_machine_is_destroyed :
  let vm name template := [("name", JStr name); ("template", JStr template); ("ephemeral", JBool true)] in
  let loaded := mkLoadResult (JObj [("name", JStr "Two"); ("vms", JArr [JObj (vm "a" "ubuntu"); JObj (vm "b" "missing")])]) (lab_assertions []) JNull "" in
  status_of (run_lab [] 0 loaded) = Some (RS_error, Some "no such template") ∧
  sw_calls (run_lab [] 0 loaded).2 = [CL_provisioned "two-a"; CL_destroyed "two-a"].
Proof. vm_compute. by split. Qed.

(** With a directory for reports the run writes two files at its end. *)
Example smoke_is_reported :
  let r := @runScenario Z (lab_with (Some "/work/output") false [] 0 smoke) lab_text rx_engine "/scenarios/smoke" None [] lab_world in
  status_of r = Some (RS_passed, None) ∧
  sw_calls r.2 = sw_calls (run_lab [] 0 smoke).2 ++
    [CL_report "/work/output/Smoke Test/results.xml"; CL_report "/work/output/Smoke Test/workflow-outputs.json"].
Proof. vm_compute. by split. Qed.

(** ** Where the code and its documentation part *)

(** A report that cannot be written takes the result of the run with it; the machine
    has been destroyed by then. *)
Example full_disk_loses_the_result :
  let vm : json_object := [("name", JStr "a"); ("template", JStr "ubuntu"); ("ephemeral", JBool true)] in
  let loaded := mkLoadResult (JObj [("name", JStr "One"); ("vms", JArr [JObj vm])]) (lab_assertions []) JNull "" in
  let r := @runScenario Z (lab_with (Some "/work/output") true [] 0 loaded) lab_text rx_engine "/scenarios/smoke" None [] lab_world in
  r.1 = inl (plain_error "ENOSPC: no space left on device, write") ∧
  sw_calls r.2 = [CL_provisioned "one-a"; CL_destroyed "one-a"; CL_report "/work/output/One/results.xml"].
Proof. vm_compute. by split. Qed.

(** A screenshot goes to any path of the host, whatever the write patterns are. *)
Example screenshot_path_is_not_checked :
  let shot := lab_block "ui_screenshot" [("vm", JStr "web"); ("output", JStr "/etc/cron.d/job")] in
  let loaded := mkLoadResult (lab_config [web] [] [] []) (lab_assertions []) JNull (lab_workflow tool_fence line shot) in
  status_of (run_lab ["web"] 0 loaded) = Some (RS_passed, None) ∧
  sw_calls (run_lab ["web"] 0 loaded).2 = [CL_tool "ui_screenshot"; CL_saved "/etc/cron.d/job" "web"] ∧
  pathAllowed "/etc/cron.d/job" ["out/**"] = false.
Proof. vm_compute. by split_and!. Qed.

(** The direction [to_vm] of the migration plan is a write of the host file, with the
    permission to read it. *)
Example to_vm_writes_the_host :
  let loaded := mkLoadResult (lab_config [web] [copy_step [("direction", JStr "to_vm")] "fixtures/a.txt"] [] []) (lab_assertions []) JNull "" in
  status_of (run_lab [] 0 loaded) = Some (RS_passed, None) ∧ sw_calls (run_lab [] 0 loaded).2 = [CL_write "/work/fixtures/a.txt" "web"].
Proof. vm_compute. by split. Qed.

(** A blank after the fence hides a tool block from the check, but not from the run. *)
Example hidden_block_is_run :
  let steal := lab_block "vm_copy_file" [("vm", JStr "web"); ("host_path", JStr "/etc/shadow"); ("guest_path", JStr "/tmp/x")] in
  let loaded := mkLoadResult (lab_config [web] [] [] []) (lab_assertions []) JNull (lab_workflow (tool_fence +:+ " ") line steal) in
  status_of (run_lab [] 0 loaded) = Some (RS_passed, None) ∧ sw_calls (run_lab [] 0 loaded).2 = [CL_read "/etc/shadow" "web"].
Proof. vm_compute. by split. Qed.

(** A workflow with Windows line endings has no tool block: nothing is run, and the
    run passes; its hash is that of the workflow with the block. *)
Example crlf_workflow_runs_nothing :
  let crlf s := s +:+ String CR (String LF "") in
  let loaded := mkLoadResult (lab_config [web] [] [] []) (lab_assertions []) JNull (lab_workflow tool_fence crlf ask) in
  status_of (run_lab [] 0 loaded) = Some (RS_passed, None) ∧ sw_calls (run_lab [] 0 loaded).2 = [] ∧
  normalizeWorkflow (lr_workflow loaded) = normalizeWorkflow (lab_workflow tool_fence line ask).
Proof. vm_compute. by split_and!. Qed.

(** The same failing command in the setup fails the run without a guest client, and
    passes with one. *)
Example client_ignores_exit_code :
  let cmd : json_object := [("action", JStr "vm_run_command"); ("vm", JStr "web"); ("command", JStr "false")] in
  let loaded := mkLoadResult (lab_config [web] [cmd] [] []) (lab_assertions []) JNull "" in
  status_of (run_lab [] 1 loaded) = Some (RS_failed, None) ∧ status_of (run_lab ["web"] 1 loaded) = Some (RS_passed, None).
Proof. vm_compute. by split. Qed.

(** A bundle is looked for beside the directory of the scenario, not in it. *)
Example bundle_beside_the_scenario :
  let loaded := mkLoadResult (lab_config [web] [] [] [("software", JArr [JStr "tools.yaml"])]) (lab_assertions []) JNull "" in
  sw_calls (run_lab ["web"] 0 loaded).2 = [CL_bundle "web" "/scenarios/tools.yaml"].
Proof. vm_compute. reflexivity. Qed.

(** The context of a run carries no exit code and no way into the guest, so that
    three kinds of assertion fail whatever happened. *)
Section blind.
Context {X : Type} `{ScenarioHost X} (outputs : list (string * string)) (path : string).
#[local] Notation ctx := (v2_context (X := X) outputs path).

Lemma no_exit_code source r : result_of ctx source = Some r → cmd_exitCode r = None.
Proof.
  assert (Hl : ∀ kr, In kr (ec_commandResults ctx) → cmd_exitCode kr.2 = None).
  { intros kr Hk. apply in_map_iff in Hk as (ko & <- & _). done. }
  unfold result_of. destruct (json_truthy source) as [k|].
  - unfold get_json, map_get. destruct k; try done. destruct (find_first _ _) as [kr|] eqn:E; [|done]. intros [= <-]. apply find_first_Some in E as [E _]. by apply Hl, list_elem_of_In.
  - destruct (last (ec_commandResults ctx)) as [kr|] eqn:E; [|done]. intros [= <-]. apply Hl. apply last_Some_elem_of, list_elem_of_In in E. done.
Qed.

Lemma blind_verdict a t (w : SW X) : In t ["exit_code"; "process_running"; "network_reachable"] → get_prop "type" a = Some (JStr t) →
  ∃ act ex m, eval_type ctx a w = (inr (false, act, ex, m), w).
Proof.
  intros Ht Ha. destruct Ht as [<-|[<-|[<-|[]]]].
  - assert (eval_type ctx a = evalExitCode ctx a) as -> by (unfold eval_type; rewrite Ha; reflexivity). unfold evalExitCode.
    destruct (get_prop "expected" a) as [v|]; [|by do 3 eexists]. destruct (result_of _ _) as [cr|] eqn:Er; [|by do 3 eexists].
    rewrite (no_exit_code _ _ Er). by do 3 eexists.
  - assert (eval_type ctx a = evalProcessRunning ctx a) as -> by (unfold eval_type; rewrite Ha; reflexivity). unfold evalProcessRunning.
    destruct (json_truthy _); by do 3 eexists.
  - assert (eval_type ctx a = evalNetworkReachable ctx a) as -> by (unfold eval_type; rewrite Ha; reflexivity). unfold evalNetworkReachable.
    destruct (json_truthy _), (get_prop "port" a); by do 3 eexists.
Qed.

Lemma blind_assertions a t (w : SW X) r w' : In t ["exit_code"; "process_running"; "network_reachable"] → get_prop "type" a = Some (JStr t) →
  evaluate ctx a w = (inr r, w') → ar_passed r = false.
Proof.
  intros Ht Ha E. unfold evaluate in E. apply sbind_inv in E as (t0 & w1 & _ & E). apply sbind_inv in E as ([[[p act] ex] m] & w2 & E2 & E).
  unfold makeResult in E. apply sbind_inv in E as (t1 & w3 & _ & [= <- _]). cbn.
  destruct (blind_verdict a t w1 Ht Ha) as (act' & ex' & m' & Ev). unfold scatch in E2. rewrite Ev in E2. by injection E2.
Qed.
End blind.

(** A run whose command exits with 0 fails an assertion that it does. *)
Example exit_code_zero_fails :
  let asks : Assertion := [("id", JStr "exit"); ("type", JStr "exit_code"); ("source", JStr "step-0"); ("expected", JInt 0)] in
  let loaded := mkLoadResult (lab_config [web] [] [] []) (lab_assertions [asks]) JNull (lab_workflow tool_fence line ask) in
  status_of (run_lab [] 0 loaded) = Some (RS_failed, None).
Proof. vm_compute. reflexivity. Qed.
