(* ===== verification/Bundles.v ===== *)
(** Software bundles (provisioning/bundle-types.ts and install-bundle.ts): the schema,
    the levels of the dependency graph, one installer per package source, and the
    installation of a bundle. *)

From stdpp Require Import strings list.
From S2P Require Import Prelude JsVal JsonReader Signing BuildYaml Build Probes ReleaseDeploy Oci OciVirtual Assertions Narrative Scenario.

(** ** Data *)

Inductive Interpreter := IP_pwsh | IP_bash.
Definition Interpreter_text (i : Interpreter) : string := match i with IP_pwsh => "pwsh" | IP_bash => "bash" end.
Inductive Manager := MG_winget | MG_choco | MG_msstore.
Definition Manager_text (m : Manager) : string := match m with MG_winget => "winget" | MG_choco => "choco" | MG_msstore => "msstore" end.

Record DockerSpec := mkDockerSpec {
  dk_image : string;
  dk_image_sha256 : string;
  dk_container_name : option string;
  dk_ports : option (list string);
  dk_env : option (list (string * string));
  dk_restart_policy : option string;
  dk_command : option (list string)
}.

(** What a package source has beyond the common fields. *)
Inductive PackageSource :=
| PK_manager (manager : Manager)
| PK_direct (url sha256 : string) (args : option (list string)) (install_dir : option string)
| PK_docker (spec : DockerSpec)
| PK_scoop (package_id : string)
| PK_github_release (repo asset_name_pattern : string) (sha256 : option string) (args : option (list string)) (install_dir : option string)
| PK_git_repo (url : string) (ref : option string) (dest : string) (submodules : option bool) (sparse : option (list string))
| PK_powershell (module_id : string) (scope : option string)
| PK_npm (package_id : string)
| PK_pip (package_id : string)
| PK_cargo (crate_id : string)
| PK_custom_script (url sha256 : string) (interpreter : Interpreter) (args : option (list string)).

Definition source_text (s : PackageSource) : string :=
  match s with
  | PK_manager m => Manager_text m
  | PK_direct _ _ _ _ => "direct"
  | PK_docker _ => "docker"
  | PK_scoop _ => "scoop"
  | PK_github_release _ _ _ _ _ => "github_release"
  | PK_git_repo _ _ _ _ _ => "git_repo"
  | PK_powershell _ _ => "powershell"
  | PK_npm _ => "npm"
  | PK_pip _ => "pip"
  | PK_cargo _ => "cargo"
  | PK_custom_script _ _ _ _ => "custom_script"
  end.

Record Package := mkPackage {
  pk_id : string;
  pk_version : option string;
  pk_requires : option (list string);
  pk_verify : option string;
  pk_verify_expect : option string;
  pk_source : PackageSource
}.

Inductive BundleEntry := BE_package (p : Package) | BE_parallel (l : list Package).

Record SoftwareBundle := mkSoftwareBundle { sb_name : string; sb_description : option string; sb_packages : list BundleEntry }.

(** ** The schema *)

(** [new URL(s)]: protocol and pathname *)
Class UrlParser := { url_parts : string → option (string * string) }.

Definition is_hex_digit (c : ascii) : bool :=
  is_digit c || (let n := Ascii.nat_of_ascii c in (97 <=? n)%nat && (n <=? 102)%nat).
Definition is_any_hex (c : ascii) : bool :=
  is_hex_digit c || (let n := Ascii.nat_of_ascii c in (65 <=? n)%nat && (n <=? 70)%nat).

Definition SHA256_HEX (s : string) : bool := (String.length s =? 64)%nat && all_chars is_hex_digit s.
Definition IMAGE_DIGEST (s : string) : bool :=
  match s with
  | String c r =>
    let (alg, r) := span (λ c, is_lower c || is_digit c) r in
    is_lower c && match r with String ":" hex => (32 <=? String.length hex)%nat && all_chars is_any_hex hex | _ => false end
  | EmptyString => false
  end.
Definition is_pkg_char (c : ascii) : bool := is_letter c || is_digit c || is_underscore c || is_dash c || is_char "." c.
Definition PACKAGE_ID_RE (s : string) : bool := non_empty s && all_chars is_pkg_char s.
Definition GITHUB_REPO_RE (s : string) : bool :=
  let (owner, r) := span is_pkg_char s in
  non_empty owner && match r with String "/" repo => PACKAGE_ID_RE repo | _ => false end.
Definition GIT_REF_RE (s : string) : bool := non_empty s && all_chars (λ c, is_pkg_char c || is_char "/" c) s.
Definition ALLOWED_DIRECT_EXTS : list string := [".msi"; ".exe"; ".msix"; ".appx"].

Definition dec_bool : decoder bool := λ v, match v with JBool b => Some b | _ => None end.
Definition dec_enum {A} (cases : list (string * A)) : decoder A := λ v,
  match v with JStr s => map_get s cases | _ => None end.
Definition dec_strings : decoder (list string) := dec_array dec_string.
Definition dec_filled : decoder string := dec_check non_empty dec_string.
Definition dec_id : decoder string := dec_check PACKAGE_ID_RE dec_filled.

Definition docker_fields (o : json_object) : option DockerSpec :=
  image ← req "image" dec_filled o;
  digest ← req "image_sha256" (dec_check IMAGE_DIGEST dec_string) o;
  name ← opt "container_name" dec_string o;
  ports ← opt "ports" dec_strings o;
  env ← opt "env" dec_record o;
  policy ← opt "restart_policy" (dec_enum (map (λ s, (s, s)) ["no"; "always"; "unless-stopped"; "on-failure"])) o;
  command ← opt "command" dec_strings o;
  Some (mkDockerSpec image digest name ports env policy command).

(** The fields of one source of the discriminated union. *)
Definition source_fields (source : string) (o : json_object) : option PackageSource :=
  if source =?s "winget" then Some (PK_manager MG_winget)
  else if source =?s "choco" then Some (PK_manager MG_choco)
  else if source =?s "msstore" then Some (PK_manager MG_msstore)
  else if source =?s "direct" then
    url ← req "url" dec_filled o; sha ← req "sha256" (dec_check SHA256_HEX dec_string) o;
    args ← opt "args" dec_strings o; dir ← opt "install_dir" dec_string o;
    Some (PK_direct url sha args dir)
  else if source =?s "docker" then spec ← docker_fields o; Some (PK_docker spec)
  else if source =?s "scoop" then id ← req "package_id" dec_id o; Some (PK_scoop id)
  else if source =?s "github_release" then
    repo ← req "repo" dec_filled o; pattern ← req "asset_name_pattern" dec_filled o;
    sha ← opt "sha256" (dec_check SHA256_HEX dec_string) o;
    args ← opt "args" dec_strings o; dir ← opt "install_dir" dec_string o;
    Some (PK_github_release repo pattern sha args dir)
  else if source =?s "git_repo" then
    url ← req "url" dec_filled o; ref ← opt "ref" dec_string o; dest ← req "dest" dec_filled o;
    submodules ← opt "submodules" dec_bool o; sparse ← opt "sparse" dec_strings o;
    Some (PK_git_repo url ref dest submodules sparse)
  else if source =?s "powershell" then
    id ← req "module_id" dec_id o;
    scope ← opt "scope" (dec_enum [("AllUsers", "AllUsers"); ("CurrentUser", "CurrentUser")]) o;
    Some (PK_powershell id scope)
  else if source =?s "npm" then id ← req "package_id" dec_id o; Some (PK_npm id)
  else if source =?s "pip" then id ← req "package_id" dec_id o; Some (PK_pip id)
  else if source =?s "cargo" then id ← req "crate_id" dec_id o; Some (PK_cargo id)
  else if source =?s "custom_script" then
    url ← req "url" dec_filled o; sha ← req "sha256" (dec_check SHA256_HEX dec_string) o;
    interpreter ← req "interpreter" (dec_enum [("pwsh", IP_pwsh); ("bash", IP_bash)]) o;
    args ← opt "args" dec_strings o;
    Some (PK_custom_script url sha interpreter args)
  else None.

(** The segments between runs of slashes and backslashes. *)
Definition path_segments (p : string) : list string := split_on "/" (squash false p).

Section schema.
Context `{UrlParser}.

Definition is_https (url : string) : bool := match url_parts url with Some (protocol, _) => protocol =?s "https:" | None => false end.

(** [superRefine]: no issue for this source. *)
Definition refined (s : PackageSource) : bool :=
  match s with
  | PK_direct url _ _ _ =>
    match url_parts url with
    | Some (protocol, path) => (protocol =?s "https:") && existsb (λ ext, ends_with ext (lower path)) ALLOWED_DIRECT_EXTS
    | None => false
    end
  | PK_github_release repo pattern _ _ _ => GITHUB_REPO_RE repo && negb (str_includes pattern "/" || str_includes pattern "..")
  | PK_git_repo url ref dest _ _ =>
    is_https url && match ref with Some r => GIT_REF_RE r | None => true end
    && (is_win_drive dest || starts_with "/" dest) && negb (existsb (λ s, s =?s "..") (path_segments dest))
  | PK_custom_script url _ _ _ => is_https url
  | _ => true
  end.

Definition packageSchema : decoder Package := λ v,
  match v with
  | JObj o =>
    id ← req "id" dec_filled o;
    version ← opt "version" dec_string o;
    requires ← opt "requires" (dec_array dec_filled) o;
    verify ← opt "verify" dec_string o;
    verify_expect ← opt "verify_expect" dec_string o;
    name ← req "source" dec_string o;
    source ← source_fields name o;
    if refined source then Some (mkPackage id version requires verify verify_expect source) else None
  | _ => None
  end.

Definition bundleEntrySchema : decoder BundleEntry := λ v,
  match packageSchema v with
  | Some p => Some (BE_package p)
  | None =>
    match v with
    | JObj o => option_map BE_parallel (req "parallel" (dec_check some_items (dec_array packageSchema)) o)
    | _ => None
    end
  end.

Definition bundleSchema : decoder SoftwareBundle := λ v,
  match v with
  | JObj o =>
    _ ← req "apiVersion" (dec_check (λ s, s =?s "signalman.dev/v1alpha1") dec_string) o;
    _ ← req "kind" (dec_check (λ s, s =?s "Bundle") dec_string) o;
    metadata ← req "metadata" (λ v, match v with
                                    | JObj m => name ← req "name" dec_filled m; description ← opt "description" dec_string m; Some (name, description)
                                    | _ => None
                                    end) o;
    packages ← opt "packages" (dec_array bundleEntrySchema) o;
    Some (mkSoftwareBundle metadata.1 metadata.2 (packages ?? []))
  | _ => None
  end.

(** The issues of a rejected document are Zod's. *)
Definition bundle_issues (issues : list (list string * string)) : JsError :=
  mkJsError "BundleValidationError" ("Bundle validation failed:" +:+ newline
    +:+ join newline (map (λ i, "  - " +:+ (let p := join "." i.1 in if p =?s "" then "(root)" else p) +:+ ": " +:+ i.2) issues)).

Definition parse_bundle `{Zod} (raw : json) : JsError + SoftwareBundle :=
  match bundleSchema raw with Some b => inr b | None => inl (bundle_issues (zod_issues raw)) end.
End schema.

(** ** The dependency graph *)

Definition requires_of (p : Package) : list string := pk_requires p ?? [].
Definition has_id (ids : list string) (id : string) : bool := existsb (λ x, x =?s id) ids.

Definition flattenBundleEntries (entries : list BundleEntry) : list Package :=
  mjoin (map (λ e, match e with BE_package p => [p] | BE_parallel l => l end) entries).

Definition hasDeclaredDependencies (entries : list BundleEntry) : bool := existsb (λ p, some_items (requires_of p)) (flattenBundleEntries entries).

Definition dependency_error {A} (message : string) : JsError + A := inl (mkJsError "BundleDependencyError" message).
Definition in_quotes (s : string) : string := String dquote s +:+ String dquote "".

Fixpoint check_ids (seen : list string) (l : list Package) : JsError + () :=
  match l with
  | [] => inr ()
  | p :: l =>
    if has_id seen (pk_id p) then dependency_error ("bundle dependency graph has duplicate package id " +:+ in_quotes (pk_id p))
    else check_ids (pk_id p :: seen) l
  end.

Definition check_requires (packages : list Package) (p : Package) : JsError + () :=
  check_all (λ dep,
    if negb (has_id (map pk_id packages) dep) then dependency_error ("package " +:+ in_quotes (pk_id p) +:+ " requires unknown package " +:+ in_quotes dep)
    else if dep =?s pk_id p then dependency_error ("package " +:+ in_quotes (pk_id p) +:+ " cannot require itself")
    else inr ()) (requires_of p).

Definition is_ready (completed : list string) (p : Package) : bool := forallb (has_id completed) (requires_of p).

(** Each turn completes a package, so that there are no more turns than packages. *)
Fixpoint levels_from (fuel : nat) (packages remaining : list Package) (completed : list string) : JsError + list (list Package) :=
  match remaining, fuel with
  | [], _ => inr []
  | _, O => dependency_error "unreachable"
  | _, S fuel =>
    let ready := select (λ p, has_id (map pk_id remaining) (pk_id p) && is_ready completed p) packages in
    match ready with
    | [] =>
      dependency_error ("bundle dependency graph contains a cycle or unsatisfied edge: "
        +:+ join "; " (map (λ p, pk_id p +:+ " -> " +:+ join ", " (requires_of p)) remaining))
    | _ =>
      let done := map pk_id ready in
      rest ← levels_from fuel packages (select (λ p, negb (has_id done (pk_id p))) remaining) (done ++ completed);
      inr (ready :: rest)
    end
  end.

Definition dependencyLevels (entries : list BundleEntry) : JsError + list (list Package) :=
  let packages := flattenBundleEntries entries in
  check_ids [] packages ≫= λ _,
  check_all (check_requires packages) packages ≫= λ _,
  levels_from (length packages) packages packages [].

(** ** The guest *)

Record InstallResult := mkInstallResult {
  in_success : bool;
  in_exitCode : Z;
  in_stdout : string;
  in_stderr : string;
  in_alreadyInstalled : bool
}.

Record DirectRequest := mkDirectRequest { dq_id : string; dq_url : string; dq_sha256 : string; dq_args : option (list string); dq_installDir : option string }.
Record GithubAsset := mkGithubAsset { ga_name : string; ga_url : string }.
Record GithubResponse := mkGithubResponse { gh_status : Z; gh_statusText : string; gh_assets : option (list GithubAsset) }.

(** The client of the guest agent, GitHub's API, and the order in which the installs
    of a group of [n] that starts together come to their turn. *)
Class BundleHost (X : Type) := {
  bh_now : X → Z * X;
  bh_installSoftware : string → string → option string → Z → Op X InstallResult;
  bh_installDirect : DirectRequest → Z → Op X InstallResult;
  bh_installDocker : string → DockerSpec → string → Z → Op X InstallResult;
  bh_runCommand : string → list string → Z → Op X GuestResult;
  bh_github : string → Op X GithubResponse;
  bh_turns : nat → X → list nat;
  bh_turns_all : ∀ n x, bh_turns n x ≡ₚ seq 0 n
}.

(** The host, and the packages whose installation was started. *)
Record BW (X : Type) := mkBW { bw_ext : X; bw_started : list string }.
Arguments mkBW {X}. Arguments bw_ext {X}. Arguments bw_started {X}.

Definition DEFAULT_INSTALL_TIMEOUT_MS : Z := 600000.
Definition VERIFY_TIMEOUT_MS : Z := 30000.

Definition haystack_of (stdout stderr : string) : string := lower (stdout +:+ newline +:+ stderr).

(** The word already, white space, and the word exists. *)
Fixpoint already_exists (s : string) : bool :=
  match s with
  | EmptyString => false
  | String _ s' =>
    match after "already" s with
    | Some r => let (blanks, r) := span is_js_space r in non_empty blanks && starts_with "exists" r
    | None => false
    end || already_exists s'
  end.

Definition isAlreadyInstalled (r : InstallResult) : bool :=
  let h := haystack_of (in_stdout r) (in_stderr r) in
  existsb (str_includes h) ["already installed"; "no applicable upgrade"; "no installed package found matching"; "is already installed";
    "container already exists"; "name is already in use by container"] || already_exists h.

Definition errorIndicatesAlreadyExists (e : JsError) : bool :=
  existsb (str_includes (lower (je_message e))) ["already installed"; "already exists"; "name is already in use"; "no applicable upgrade"].

(** [text.replace] of each quote by two, between quotes: a literal of PowerShell. *)
Fixpoint double_quotes (s : string) : string :=
  match s with
  | EmptyString => ""
  | String c s' => if bool_decide (c = squote) then String squote (String squote (double_quotes s')) else String c (double_quotes s')
  end.
Definition psQuote (s : string) : string := String squote (double_quotes s +:+ String squote "").

Definition custom_script_lines (url sha256 : string) (interpreter : Interpreter) (args : list string) : list string :=
  let ext := match interpreter with IP_pwsh => ".ps1" | IP_bash => ".sh" end in
  [
    "$tmp = [System.IO.Path]::Combine($env:TEMP, [System.Guid]::NewGuid().ToString() + '" +:+ ext +:+ "')";
    "try {";
    "  Invoke-WebRequest -Uri " +:+ psQuote url +:+ " -OutFile $tmp -UseBasicParsing -ErrorAction Stop";
    "  $hash = (Get-FileHash -Path $tmp -Algorithm SHA256).Hash.ToLower()";
    "  if ($hash -ne " +:+ psQuote (lower sha256) +:+ ") { throw "
      +:+ in_quotes ("custom_script sha256 mismatch: expected " +:+ lower sha256 +:+ ", got $hash") +:+ " }";
    "  & " +:+ psQuote (Interpreter_text interpreter) +:+ " $tmp " +:+ join " " (map psQuote args);
    "  exit $LASTEXITCODE";
    "} finally {";
    "  if (Test-Path $tmp) { Remove-Item $tmp -Force -ErrorAction SilentlyContinue }";
    "}"].
Definition custom_script_body (url sha256 : string) (interpreter : Interpreter) (args : list string) : string :=
  join "; " (custom_script_lines url sha256 interpreter args).

Definition buildCustomScriptCommand (url sha256 : string) (interpreter : Interpreter) (args : list string) : string * list string :=
  ("powershell", ["-NoProfile"; "-NonInteractive"; "-Command"; custom_script_body url sha256 interpreter args]).

Section installer.
Context {X : Type} `{BundleHost X}.

Definition bop {A} (f : Op X A) : SM (BW X) A := λ w, let (r, x) := f (bw_ext w) in (r, mkBW x (bw_started w)).
Definition bnow : SM (BW X) Z := λ w, let (t, x) := bh_now (bw_ext w) in (inr t, mkBW x (bw_started w)).
Definition bfail {A} (message : string) : SM (BW X) A := sthrow (plain_error message).

Definition resolveGithubReleaseAsset (repo glob : string) : SM (BW X) GithubAsset :=
  r ← scatch (bop (bh_github ("https://api.github.com/repos/" +:+ repo +:+ "/releases/latest")))
        (λ e, bfail ("github_release: failed to reach GitHub API: " +:+ je_message e));
  if negb ((200 <=? gh_status r) && (gh_status r <=? 299)) then
    bfail ("github_release: GitHub API " +:+ show_Z (gh_status r) +:+ " " +:+ gh_statusText r
      +:+ (if gh_status r =? 403 then " (possible GitHub API rate limit — set GITHUB_TOKEN or stagger bundle runs)" else ""))
  else
    let assets := gh_assets r ?? [] in
    match find_first (λ a, globMatch glob (ga_name a)) assets with
    | Some a => mret a
    | None =>
      bfail ("github_release: no asset in latest release of " +:+ in_quotes repo +:+ " matched " +:+ in_quotes glob
        +:+ " (" +:+ show_Z (Z.of_nat (length assets)) +:+ " candidates)")
    end.

(** [None] is success. *)
Definition verify_package (p : Package) : SM (BW X) (option string) :=
  match truthy (pk_verify p) with
  | None => mret None
  | Some command =>
    r ← scatch (r ← bop (bh_runCommand command [] VERIFY_TIMEOUT_MS); mret (inr r)) (λ e, mret (inl e));
    mret match r with
         | inl e => Some ("verify command failed to execute: " +:+ je_message e)
         | inr r =>
           if negb (gr_exitCode r =? 0) then Some ("verify exited " +:+ show_Z (gr_exitCode r) +:+ ": " +:+ said r)
           else match truthy (pk_verify_expect p) with
           | Some t => if str_includes (gr_stdout r) t then None
                       else Some ("verify stdout did not contain " +:+ in_quotes t +:+ "; got: " +:+ gr_stdout r)
           | None => None
           end
         end
  end.

Inductive Dispatched := DI_installed | DI_skipped.

Definition install_said (r : InstallResult) : string := if in_stderr r =?s "" then in_stdout r else in_stderr r.
Definition exit_text (label : string) (code : Z) (text : string) : string := label +:+ " failed (exit " +:+ show_Z code +:+ "): " +:+ text.

(** An install operation of the agent, and what its answer means. *)
Definition by_rpc (label : string) (trust_flag : bool) (f : Op X InstallResult) : SM (BW X) Dispatched :=
  r ← scatch (r ← bop f; mret (Some r)) (λ e, if errorIndicatesAlreadyExists e then mret None else sthrow e);
  match r with
  | None => mret DI_skipped
  | Some r =>
    if (trust_flag && in_alreadyInstalled r) || isAlreadyInstalled r then mret DI_skipped
    else if negb (in_success r) && negb (in_exitCode r =? 0) then bfail (exit_text label (in_exitCode r) (install_said r))
    else mret DI_installed
  end.

Definition run (command : string) (args : list string) : SM (BW X) GuestResult := bop (bh_runCommand command args DEFAULT_INSTALL_TIMEOUT_MS).

(** A command that has to exit with 0. *)
Definition expect_zero (label : string) (r : GuestResult) : SM (BW X) unit :=
  if gr_exitCode r =? 0 then mret () else bfail (exit_text label (gr_exitCode r) (said r)).

Definition output_has (r : GuestResult) (texts : list string) : bool := existsb (str_includes (haystack_of (gr_stdout r) (gr_stderr r))) texts.

Definition clone_args (url : string) (ref : option string) (dest : string) (submodules sparse : bool) : list string :=
  ["clone"] ++ (if sparse then ["--filter=blob:none"; "--no-checkout"] else [])
  ++ match truthy ref with Some r => ["--branch"; r] | None => [] end
  ++ (if submodules then ["--recurse-submodules"] else []) ++ [url; dest].

Definition install_git_repo (url : string) (ref : option string) (dest : string) (submodules : option bool) (sparse : option (list string))
    : SM (BW X) Dispatched :=
  let paths := sparse ?? [] in
  let is_sparse := some_items paths in
  r ← scatch (r ← run "git" (clone_args url ref dest (submodules ?? false) is_sparse); mret (Some r))
        (λ e, if errorIndicatesAlreadyExists e then mret None else sthrow e);
  match r with
  | None => mret DI_skipped
  | Some r =>
    if negb (gr_exitCode r =? 0) && output_has r ["already exists"] then mret DI_skipped
    else
      expect_zero "git_repo clone" r;;
      if is_sparse then
        i ← run "git" ["-C"; dest; "sparse-checkout"; "init"; "--cone"];
        expect_zero "git_repo sparse-checkout init" i;;
        s ← run "git" (["-C"; dest; "sparse-checkout"; "set"] ++ paths);
        expect_zero "git_repo sparse-checkout set" s;;
        mret DI_installed
      else mret DI_installed
  end.

(** [pkg.version ? f(pkg.version) : d] *)
Definition versioned {A} (p : Package) (f : string → A) (d : A) : A := match truthy (pk_version p) with Some v => f v | None => d end.

Definition install_manager (p : Package) (m : Manager) : SM (BW X) Dispatched :=
  by_rpc "install" false (bh_installSoftware (pk_id p) (Manager_text m) (pk_version p) DEFAULT_INSTALL_TIMEOUT_MS).

Definition install_direct (p : Package) (url sha : string) (args : option (list string)) (dir : option string) : SM (BW X) Dispatched :=
  by_rpc "direct install" true (bh_installDirect (mkDirectRequest (pk_id p) url sha args dir) DEFAULT_INSTALL_TIMEOUT_MS).

Definition install_docker (p : Package) (spec : DockerSpec) : SM (BW X) Dispatched :=
  by_rpc "docker install" true (bh_installDocker (pk_id p) spec (dk_restart_policy spec ?? "unless-stopped") DEFAULT_INSTALL_TIMEOUT_MS).

Definition install_scoop (p : Package) (id : string) : SM (BW X) Dispatched :=
  by_rpc "scoop install" true (bh_installSoftware id "scoop" (pk_version p) DEFAULT_INSTALL_TIMEOUT_MS).

Definition install_github_release (p : Package) (repo glob : string) (sha : option string) (args : option (list string)) (dir : option string)
    : SM (BW X) Dispatched :=
  asset ← resolveGithubReleaseAsset repo glob;
  by_rpc "github_release install" true
    (bh_installDirect (mkDirectRequest (pk_id p) (ga_url asset) (sha ?? "") args dir) DEFAULT_INSTALL_TIMEOUT_MS).

Definition install_powershell (p : Package) (id : string) (scope : option string) : SM (BW X) Dispatched :=
  r ← run "pwsh" (["-NonInteractive"; "-NoProfile"; "-Command"; "Install-Module"; "-Name"; id; "-Force"; "-Scope"; scope ?? "AllUsers"]
        ++ versioned p (λ v, ["-RequiredVersion"; v]) []);
  if (gr_exitCode r =? 0) && output_has r ["already installed"; "is already installed"] then mret DI_skipped
  else expect_zero "powershell Install-Module" r;; mret DI_installed.

Definition install_npm (p : Package) (id : string) : SM (BW X) Dispatched :=
  r ← run "npm" ["install"; "-g"; versioned p (λ v, id +:+ "@" +:+ v) id];
  expect_zero "npm install" r;;
  mret (if output_has r ["up to date"; "added 0 packages"] then DI_skipped else DI_installed).

Definition install_pip (p : Package) (id : string) : SM (BW X) Dispatched :=
  r ← run "pip" ["install"; versioned p (λ v, id +:+ "==" +:+ v) id];
  expect_zero "pip install" r;;
  mret (if output_has r ["requirement already satisfied"] then DI_skipped else DI_installed).

Definition install_cargo (p : Package) (id : string) : SM (BW X) Dispatched :=
  r ← run "cargo" (["install"; id] ++ versioned p (λ v, ["--version"; v]) []);
  if negb (gr_exitCode r =? 0) && output_has r ["already exists"] then mret DI_skipped
  else expect_zero "cargo install" r;; mret DI_installed.

Definition install_custom_script (url sha : string) (interpreter : Interpreter) (args : option (list string)) : SM (BW X) Dispatched :=
  let command := buildCustomScriptCommand url sha interpreter (args ?? []) in
  r ← run command.1 command.2;
  expect_zero "custom_script" r;; mret DI_installed.

Definition dispatchInstall (p : Package) : SM (BW X) Dispatched :=
  match pk_source p with
  | PK_manager m => install_manager p m
  | PK_direct url sha args dir => install_direct p url sha args dir
  | PK_docker spec => install_docker p spec
  | PK_scoop id => install_scoop p id
  | PK_github_release repo glob sha args dir => install_github_release p repo glob sha args dir
  | PK_git_repo url ref dest submodules sparse => install_git_repo url ref dest submodules sparse
  | PK_powershell id scope => install_powershell p id scope
  | PK_npm id => install_npm p id
  | PK_pip id => install_pip p id
  | PK_cargo id => install_cargo p id
  | PK_custom_script url sha interpreter args => install_custom_script url sha interpreter args
  end.

Definition installOne (p : Package) : SM (BW X) PerPackageResult :=
  sput (λ w, mkBW (bw_ext w) (bw_started w ++ [pk_id p]));;
  start ← bnow;
  r ← scatch (d ← dispatchInstall p;
              match d with
              | DI_skipped => mret (PS_skipped, None)
              | DI_installed => v ← verify_package p; mret (match truthy v with Some e => (PS_failed, Some e) | None => (PS_installed, None) end)
              end)
        (λ e, mret (PS_failed, Some (je_message e)));
  t ← bnow;
  mret (mkPerPackageResult (pk_id p) (source_text (pk_source p)) r.1 r.2 (t - start)).

(** [Promise.all] over a group: the installs run in the order of their turns, the
    results are in the order of the group. *)
Fixpoint in_turn (l : list Package) (turns : list nat) : SM (BW X) (list (nat * PerPackageResult)) :=
  match turns with
  | [] => mret []
  | i :: turns =>
    match l !! i with
    | Some p => r ← installOne p; rs ← in_turn l turns; mret ((i, r) :: rs)
    | None => in_turn l turns
    end
  end.

Definition install_group (l : list Package) : SM (BW X) (list PerPackageResult) :=
  turns ← sget (λ w, bh_turns (length l) (bw_ext w));
  rs ← in_turn l turns;
  mret (omap (λ i, option_map snd (find_first (λ ir, bool_decide (ir.1 = i)) rs)) (seq 0 (length l))).

Definition installEntry (e : BundleEntry) : SM (BW X) (list PerPackageResult) :=
  match e with
  | BE_package p => r ← installOne p; mret [r]
  | BE_parallel l => install_group l
  end.

Definition not_attempted (p : Package) : PerPackageResult :=
  mkPerPackageResult (pk_id p) (source_text (pk_source p)) PS_failed (Some "dependency failed; package was not attempted") 0.

Definition is_failed (r : PerPackageResult) : bool := match pkg_status r with PS_failed => true | _ => false end.

Fixpoint install_levels (failed : list string) (levels : list (list Package)) : SM (BW X) (list PerPackageResult) :=
  match levels with
  | [] => mret []
  | level :: levels =>
    let blocked := select (λ p, existsb (has_id failed) (requires_of p)) level in
    let failed := failed ++ map pk_id blocked in
    let runnable := select (λ p, negb (has_id failed (pk_id p))) level in
    rs ← match runnable with [] => mret [] | _ => install_group runnable end;
    rest ← install_levels (failed ++ map pkg_package (select is_failed rs)) levels;
    mret (map not_attempted blocked ++ rs ++ rest)
  end.

Fixpoint install_entries (entries : list BundleEntry) : SM (BW X) (list PerPackageResult) :=
  match entries with
  | [] => mret []
  | e :: l => r ← installEntry e; rs ← install_entries l; mret (r ++ rs)
  end.

Definition with_status_count (s : PackageStatus) (l : list PerPackageResult) : Z :=
  Z.of_nat (length (select (λ r, match pkg_status r, s with
                                 | PS_installed, PS_installed | PS_skipped, PS_skipped | PS_failed, PS_failed => true
                                 | _, _ => false
                                 end) l)).

(** The result without the name of the machine and the duration, which it only repeats. *)
Definition installBundle (b : SoftwareBundle) : SM (BW X) InstallBundleResult :=
  rs ← (if hasDeclaredDependencies (sb_packages b) then
          levels ← slift (dependencyLevels (sb_packages b)); install_levels [] levels
        else install_entries (sb_packages b));
  mret (mkInstallBundleResult (Z.of_nat (length rs)) (with_status_count PS_installed rs) (with_status_count PS_skipped rs)
    (with_status_count PS_failed rs) rs).
End installer.
