(* ===== verification/BundlesSpec.v ===== *)
(** What software bundles promise: the levels of the dependency graph, the account of
    an installation, and the arguments of a downloaded script. *)

From stdpp Require Import strings list.
From S2P Require Import Prelude JsVal JsonReader Signing BuildYaml Build Probes ReleaseDeploy Oci OciVirtual Assertions Narrative Scenario ScenarioSpec ScenarioRuns Bundles.

(** ** Identifiers and selections *)

Definition ids (l : list Package) : list string := pk_id <$> l.

Lemma has_id_spec l id : has_id l id = true ↔ id ∈ l.
Proof.
  unfold has_id. rewrite existsb_exists. setoid_rewrite <- list_elem_of_In. split.
  - intros (x & Hx & E). by apply bool_decide_eq_true in E as <-.
  - intros Hid. exists id. split; [done|]. by apply bool_decide_eq_true.
Qed.
Lemma has_id_false l id : has_id l id = false ↔ id ∉ l.
Proof. rewrite <- has_id_spec. by destruct (has_id l id). Qed.

Lemma is_ready_spec c p : is_ready c p = true ↔ ∀ d, d ∈ requires_of p → d ∈ c.
Proof.
  unfold is_ready. rewrite forallb_forall. setoid_rewrite has_id_spec. by setoid_rewrite <- list_elem_of_In.
Qed.

Lemma ids_elem l id : id ∈ ids l ↔ ∃ p, p ∈ l ∧ pk_id p = id.
Proof. unfold ids. rewrite list_elem_of_fmap. naive_solver. Qed.
Lemma ids_here l p : p ∈ l → pk_id p ∈ ids l.
Proof. intros Hp. apply ids_elem. eauto. Qed.
Lemma ids_inj l p q : NoDup (ids l) → p ∈ l → q ∈ l → pk_id p = pk_id q → p = q.
Proof.
  intros Hn [i Hi]%list_elem_of_lookup [j Hj]%list_elem_of_lookup E.
  assert (i = j) as -> by (eapply (NoDup_lookup (ids l)); [done|..]; unfold ids; rewrite list_lookup_fmap; [by rewrite Hi|by rewrite Hj, E]).
  congruence.
Qed.

Lemma select_split {R} (p : R → bool) l : select p l ++ select (λ x, negb (p x)) l ≡ₚ l.
Proof.
  induction l as [|x l IH]; cbn; [done|]. destruct (p x); cbn; [by rewrite IH|].
  rewrite <- Permutation_middle. by rewrite IH.
Qed.

(** Out of a list without duplicate identifiers, what remains after a selection is
    what was not selected. *)
Lemma select_rest f l : NoDup (ids l) →
  select (λ p, negb (has_id (ids (select f l)) (pk_id p))) l = select (λ p, negb (f p)) l.
Proof.
  intros Hn. apply select_ext. intros p Hp. f_equal. apply eq_true_iff_eq. rewrite has_id_spec, ids_elem. split.
  - intros (q & [Hq Hf]%select_elem & E). by rewrite (ids_inj l p q).
  - intros Hf. exists p. by rewrite select_elem.
Qed.

(** ** The dependency graph *)

(** Identifiers are unique, requirements are packages of the bundle, and there is no
    cycle: packages can be ranked above what they require. *)
Record graph_ok (ps : list Package) : Prop := {
  graph_unique : NoDup (ids ps);
  graph_known : ∀ p d, p ∈ ps → d ∈ requires_of p → d ∈ ids ps;
  graph_ranked : ∃ rank : string → nat, ∀ p d, p ∈ ps → d ∈ requires_of p → (rank d < rank (pk_id p))%nat
}.

(** No level is empty, and each holds just those of the packages left whose
    requirements are all in earlier levels. *)
Fixpoint layered (earlier : list string) (levels : list (list Package)) : Prop :=
  match levels with
  | [] => True
  | level :: rest =>
    level ≠ [] ∧ (∀ p, p ∈ mjoin (level :: rest) → (p ∈ level ↔ ∀ d, d ∈ requires_of p → d ∈ earlier))
    ∧ layered (ids level ++ earlier) rest
  end.

Lemma check_ids_spec l : ∀ seen, check_ids seen l = inr () ↔ NoDup (ids l) ∧ ∀ id, id ∈ ids l → id ∉ seen.
Proof.
  induction l as [|p l IH]; intros seen; cbn.
  - split; [|done]. intros _. split; [constructor|]. by intros id ?%not_elem_of_nil.
  - destruct (has_id seen (pk_id p)) eqn:E.
    + apply has_id_spec in E. split; [done|]. intros [_ Hs]. destruct (Hs (pk_id p)); [left|done].
    + apply has_id_false in E. rewrite IH, NoDup_cons. fold (ids l). setoid_rewrite elem_of_cons.
      split.
      * intros [Hn Hs]. split; [split; [|done]|].
        -- intros Hp. apply (Hs _ Hp). by left.
        -- intros id [->|Hid]; [done|]. intros Hseen. apply (Hs _ Hid). by right.
      * intros [[Hp Hn] Hs]. split; [done|]. intros id Hid [->|Hseen]; [done|]. apply (Hs id); auto.
Qed.

Lemma check_all_spec {A} (check : A → JsError + ()) l : check_all check l = inr () ↔ ∀ x, x ∈ l → check x = inr ().
Proof.
  split; [intros Hl x; by apply check_all_in|]. induction l as [|x l IH]; cbn; [done|]. intros Hl.
  rewrite (Hl x (list_elem_of_here _ _)). cbn. apply IH. intros y Hy. apply Hl. by right.
Qed.

Lemma check_requires_spec ps p :
  check_requires ps p = inr () ↔ ∀ d, d ∈ requires_of p → d ∈ ids ps ∧ d ≠ pk_id p.
Proof.
  unfold check_requires. rewrite check_all_spec. split; intros Hd d Hreq; specialize (Hd d Hreq); revert Hd.
  - destruct (has_id _ d) eqn:E; [|done]. apply has_id_spec in E. cbn. destruct (d =?s pk_id p) eqn:Es; [done|].
    by apply bool_decide_eq_false in Es.
  - intros [Hid Hne]. apply has_id_spec in Hid. unfold ids in Hid. cbn. replace (has_id (map pk_id ps) d) with true by (symmetry; exact Hid). cbn.
    replace (d =?s pk_id p) with false by (symmetry; by apply bool_decide_eq_false). done.
Qed.

Section levels.
Context (ps : list Package) (Hn : NoDup (ids ps)).

(** The packages that are not completed. *)
Definition left_of (c : list string) : list Package := select (λ p, negb (has_id c (pk_id p))) ps.

Lemma left_of_elem c p : p ∈ left_of c ↔ p ∈ ps ∧ pk_id p ∉ c.
Proof. unfold left_of. rewrite select_elem, negb_true_iff, has_id_false. done. Qed.
Lemma left_of_NoDup c : NoDup (ids (left_of c)).
Proof. by apply select_NoDup_fmap. Qed.

Lemma levels_nil fuel c : levels_from fuel ps [] c = inr [].
Proof. by destruct fuel. Qed.

(** A turn of the loop. *)
Lemma ready_eq c :
  select (λ p, has_id (map pk_id (left_of c)) (pk_id p) && is_ready c p) ps = select (is_ready c) (left_of c).
Proof.
  unfold left_of at 2. rewrite select_select. apply select_ext. intros p Hp. f_equal. apply eq_true_iff_eq.
  rewrite has_id_spec. fold (ids (left_of c)). rewrite ids_elem, negb_true_iff, has_id_false. split.
  - intros (q & [_ Hq]%left_of_elem & <-). done.
  - intros Hc. exists p. by rewrite left_of_elem.
Qed.
Lemma left_next c done :
  select (λ p, negb (has_id done (pk_id p))) (left_of c) = left_of (done ++ c).
Proof.
  unfold left_of. rewrite select_select. apply select_ext. intros p _. unfold has_id. rewrite existsb_app.
  by rewrite negb_orb, andb_comm.
Qed.

Lemma levels_step fuel c : left_of c ≠ [] →
  levels_from (S fuel) ps (left_of c) c =
  let ready := select (is_ready c) (left_of c) in
  match ready with
  | [] => dependency_error ("bundle dependency graph contains a cycle or unsatisfied edge: "
            +:+ join "; " (map (λ p, pk_id p +:+ " -> " +:+ join ", " (requires_of p)) (left_of c)))
  | _ => rest ← levels_from fuel ps (left_of (ids ready ++ c)) (ids ready ++ c); inr (ready :: rest)
  end.
Proof.
  intros Hl. cbn [levels_from]. rewrite ready_eq. destruct (left_of c) as [|p l] eqn:E; [done|].
  rewrite <- E. cbv zeta. destruct (select (is_ready c) (left_of c)) as [|q r] eqn:Er; [done|].
  rewrite left_next. done.
Qed.

Lemma levels_sound fuel : ∀ c levels,
  levels_from fuel ps (left_of c) c = inr levels → mjoin levels ≡ₚ left_of c ∧ layered c levels.
Proof.
  induction fuel as [|fuel IH]; intros c levels; (destruct (decide (left_of c = [])) as [E|Hl]; [rewrite E, levels_nil; by intros [= <-]|]).
  { cbn. by destruct (left_of c). }
  rewrite levels_step by done. cbv zeta. destruct (select _ _) as [|q r] eqn:Er; [done|]. rewrite <- Er.
  set (ready := select (is_ready c) (left_of c)) in *. intros Hb.
  destruct (levels_from _ _ _ _) as [e|rest] eqn:Erest; [done|]. cbn in Hb. injection Hb as <-.
  apply IH in Erest as [Hp Hlay].
  rewrite <- left_next in Hp. unfold ready in Hp. rewrite select_rest in Hp by apply left_of_NoDup. fold ready in Hp.
  assert (mjoin (ready :: rest) ≡ₚ left_of c) as Hall.
  { cbn. rewrite Hp. apply select_split. }
  split; [done|]. split; [congruence|]. split; [|done]. intros p Hin. rewrite Hall in Hin.
  unfold ready. rewrite select_elem, is_ready_spec. naive_solver.
Qed.

(** Without a cycle some package is ready. *)
Lemma some_ready rank c n : (∀ p d, p ∈ ps → d ∈ requires_of p → d ∈ ids ps ∧ (rank d < rank (pk_id p))%nat) →
  ∀ p, p ∈ left_of c → (rank (pk_id p) < n)%nat → ∃ q, q ∈ select (is_ready c) (left_of c).
Proof.
  intros Hr. induction n as [|n IH]; intros p Hp Hlt; [lia|].
  destruct (is_ready c p) eqn:E; [exists p; by rewrite select_elem|].
  unfold is_ready in E. rewrite <- not_true_iff_false, forallb_forall in E.
  destruct (existsb (λ d, negb (has_id c d)) (requires_of p)) eqn:Ex.
  - apply existsb_exists in Ex as (d & Hd%list_elem_of_In & Hc). apply negb_true_iff, has_id_false in Hc.
    pose proof Hp as [Hps _]%left_of_elem. destruct (Hr p d Hps Hd) as [(q & Hq & <-)%ids_elem Hlt'].
    apply (IH q); [by apply left_of_elem|lia].
  - destruct E. intros d Hd%list_elem_of_In. destruct (has_id c d) eqn:Ed; [done|].
    rewrite <- not_true_iff_false, existsb_exists in Ex. destruct Ex. exists d. rewrite Ed. split; [by apply list_elem_of_In|done].
Qed.

Lemma levels_complete rank fuel : (∀ p d, p ∈ ps → d ∈ requires_of p → d ∈ ids ps ∧ (rank d < rank (pk_id p))%nat) →
  ∀ c, (length (left_of c) ≤ fuel)%nat → ∃ levels, levels_from fuel ps (left_of c) c = inr levels.
Proof.
  intros Hr. induction fuel as [|fuel IH]; intros c Hlen; (destruct (decide (left_of c = [])) as [E|Hl]; [rewrite E, levels_nil; by eexists|]).
  { destruct (left_of c); [done|cbn in Hlen; lia]. }
  rewrite levels_step by done. cbv zeta.
  destruct (left_of c) as [|p l] eqn:E; [done|].
  destruct (some_ready rank c (S (rank (pk_id p))) Hr p) as [q Hq]; [rewrite E; left|lia|]. rewrite <- E in *.
  set (ready := select (is_ready c) (left_of c)) in *.
  destruct (IH (ids ready ++ c)) as [rest Hrest].
  { rewrite <- left_next. unfold ready. rewrite select_rest by apply left_of_NoDup.
    pose proof (select_split (is_ready c) (left_of c)) as Hs%Permutation_length. rewrite length_app in Hs. fold ready in Hs.
    destruct ready; [by apply not_elem_of_nil in Hq|cbn in Hs; lia]. }
  rewrite Hrest. destruct ready; [by apply not_elem_of_nil in Hq|]. by eexists.
Qed.
End levels.

Lemma layered_ranked levels : ∀ c, NoDup (ids (mjoin levels)) → (∀ p, p ∈ mjoin levels → pk_id p ∉ c) → layered c levels →
  ∃ rank : string → nat, (∀ x, x ∈ c → rank x = 0%nat)
    ∧ ∀ p d, p ∈ mjoin levels → d ∈ requires_of p → (rank d < rank (pk_id p))%nat.
Proof.
  induction levels as [|l rest IH]; intros c Hn Hc; cbn.
  { intros _. exists (λ _, 0%nat). split; [done|]. by intros p d ?%not_elem_of_nil. }
  intros (_ & Hl & Hrest). cbn in Hn, Hc. unfold ids in Hn. rewrite fmap_app in Hn. apply NoDup_app in Hn as (_ & Hdis & Hn).
  destruct (IH (ids l ++ c)) as (rank & H0 & Hrank); [done| |done|].
  { intros p Hp [Hi|Hi]%elem_of_app; [|by apply (Hc p); [apply elem_of_app; right|]].
    apply (Hdis _ Hi). by apply ids_here. }
  exists (λ x, if bool_decide (x ∈ c) then 0%nat else S (rank x)). split; [intros x Hx; by rewrite bool_decide_true|].
  intros p d Hp Hd. rewrite (bool_decide_false (pk_id p ∈ c)) by auto. case_bool_decide as Ed; [lia|].
  pose proof Hp as [Hpl|Hpr]%elem_of_app.
  - destruct Ed. by apply (Hl p).
  - specialize (Hrank p d Hpr Hd). lia.
Qed.

Lemma left_of_all ps : left_of ps [] = ps.
Proof. apply select_all. done. Qed.

Lemma dependencyLevels_inv entries levels : dependencyLevels entries = inr levels →
  let ps := flattenBundleEntries entries in
  NoDup (ids ps) ∧ (∀ p d, p ∈ ps → d ∈ requires_of p → d ∈ ids ps) ∧ mjoin levels ≡ₚ ps ∧ layered [] levels.
Proof.
  unfold dependencyLevels. cbv zeta. set (ps := flattenBundleEntries entries).
  destruct (check_ids [] ps) as [e|[]] eqn:Ei; [done|]. cbn. destruct (check_all _ ps) as [e|[]] eqn:Er; [done|]. cbn.
  apply check_ids_spec in Ei as [Hn _]. rewrite check_all_spec in Er. setoid_rewrite check_requires_spec in Er.
  rewrite <- (left_of_all ps) at 3. intros Hl%levels_sound; [|done]. rewrite left_of_all in Hl.
  split_and!; [done| |apply Hl|apply Hl]. intros p d Hp Hd. by apply (Er p Hp d Hd).
Qed.

Lemma dependencyLevels_ok entries : graph_ok (flattenBundleEntries entries) → ∃ levels, dependencyLevels entries = inr levels.
Proof.
  intros [Hn Hk [rank Hr]]. unfold dependencyLevels. cbv zeta. set (ps := flattenBundleEntries entries) in *.
  replace (check_ids [] ps) with (inr () : JsError + ()) by (symmetry; apply check_ids_spec; split; [done|by intros id _ ?%not_elem_of_nil]).
  cbn. replace (check_all (check_requires ps) ps) with (inr () : JsError + ()).
  2: { symmetry. apply check_all_spec. intros p Hp. apply check_requires_spec. intros d Hd. split; [eauto|].
       intros ->. specialize (Hr p _ Hp Hd). lia. }
  unfold mbind, JsError_bind. destruct (levels_complete ps Hn rank (length ps)) with (c := @nil string) as [levels Hl]; [eauto|by rewrite left_of_all|].
  rewrite left_of_all in Hl. eauto.
Qed.

(** C16: a dependency graph is sorted just when it can be: the packages have distinct
    identifiers, require only packages of the bundle, and there is no cycle among them.
    The levels then hold every package once, and each level just those of the packages
    left whose requirements are all in earlier levels. *)
Theorem dependency_levels_exact entries :
  let ps := flattenBundleEntries entries in
  match dependencyLevels entries with
  | inr levels => graph_ok ps ∧ mjoin levels ≡ₚ ps ∧ layered [] levels
  | inl _ => ¬ graph_ok ps
  end.
Proof.
  cbv zeta. destruct (dependencyLevels entries) as [e|levels] eqn:E.
  - intros [levels E']%dependencyLevels_ok. congruence.
  - apply dependencyLevels_inv in E as (Hn & Hk & Hp & Hl). split; [|done]. split; [done|done|].
    destruct (layered_ranked levels []) as (rank & _ & Hr); [unfold ids; by rewrite Hp|by intros p _ ?%not_elem_of_nil|done|].
    exists rank. intros p d. rewrite <- Hp. apply Hr.
Qed.

(** ** What an installation accounts for *)

Definition package_label (p : Package) : string * string := (pk_id p, source_text (pk_source p)).
Definition result_label (r : PerPackageResult) : string * string := (pkg_package r, pkg_source r).

Lemma label_id l rs : result_label <$> rs = package_label <$> l → pkg_package <$> rs = ids l.
Proof. intros E. apply (f_equal (fmap fst)) in E. rewrite <- !list_fmap_compose in E. exact E. Qed.
Lemma label_id_perm l rs : result_label <$> rs ≡ₚ package_label <$> l → pkg_package <$> rs ≡ₚ ids l.
Proof. intros E. apply (fmap_Permutation fst) in E. rewrite <- !list_fmap_compose in E. exact E. Qed.

(** Element by element through the indices of a list. *)
Lemma omap_seq {A B C} (f : nat → option A) (g : A → B) (h : C → B) l : ∀ k,
  (∀ i c, l !! i = Some c → ∃ a, f (k + i)%nat = Some a ∧ g a = h c) → g <$> omap f (seq k (length l)) = h <$> l.
Proof.
  induction l as [|c l IH]; intros k Hl; [done|]. cbn.
  destruct (Hl 0%nat c eq_refl) as (a & Ha & E). rewrite Nat.add_0_r in Ha. rewrite Ha. cbn. f_equal; [done|].
  apply IH. intros i c' Hi. rewrite Nat.add_succ_comm. by apply (Hl (S i)).
Qed.

Section account.
Context {X : Type} `{BundleHost X}.

Definition same_started : relation (BW X) := λ w w', bw_started w' = bw_started w.
#[local] Instance same_started_preorder : PreOrder same_started.
Proof. unfold same_started. split; [by intros w|intros w1 w2 w3; congruence]. Qed.

Lemma moves_bop {A} (f : Op X A) : moves same_started (bop f).
Proof. intros w. unfold bop. by destruct (f (bw_ext w)). Qed.
Lemma moves_bfail {A} m : moves same_started (bfail (X := X) (A := A) m).
Proof. apply moves_throw, _. Qed.
Lemma moves_run c a : moves same_started (run c a).
Proof. apply moves_bop. Qed.
Lemma moves_expect l r : moves same_started (expect_zero l r).
Proof. unfold expect_zero. destruct (_ =? _); [apply moves_ret, _|apply moves_bfail]. Qed.
Hint Resolve moves_bop moves_bfail moves_run moves_expect : scenario.

Lemma moves_by_rpc l t f : moves same_started (by_rpc l t f).
Proof. unfold by_rpc. frame. Qed.
Lemma moves_verify p : moves same_started (verify_package p).
Proof. unfold verify_package. frame. Qed.
Lemma moves_asset r g : moves same_started (resolveGithubReleaseAsset r g).
Proof. unfold resolveGithubReleaseAsset. cbv zeta. frame. Qed.
Lemma moves_git u r d s p : moves same_started (install_git_repo u r d s p).
Proof. unfold install_git_repo. cbv zeta. frame. Qed.
Hint Resolve moves_by_rpc moves_verify moves_asset moves_git : scenario.
Lemma moves_dispatchInstall p : moves same_started (dispatchInstall p).
Proof.
  unfold dispatchInstall, install_manager, install_direct, install_docker, install_scoop, install_github_release, install_powershell, install_npm,
    install_pip, install_cargo, install_custom_script. cbv zeta. frame.
Qed.
Hint Resolve moves_dispatchInstall : scenario.

(** What cannot fail, and leaves the list of the started packages alone. *)
Definition settles {A} (m : SM (BW X) A) : Prop := ∀ w, ∃ a x, m w = (inr a, mkBW x (bw_started w)).

Lemma settles_catch {A} (m : SM (BW X) A) f : moves same_started m → settles (scatch m (λ e, mret (f e))).
Proof.
  intros Hm w. specialize (Hm w). unfold scatch. destruct (m w) as [[e|a] [x st]]; cbv in Hm; subst st; by eexists _, x.
Qed.
Lemma settles_now : settles bnow.
Proof. intros w. unfold bnow. destruct (bh_now (bw_ext w)) as [t x]. by eexists _, _. Qed.

(** An installation always returns a result, whatever the guest answers. *)
Lemma installOne_run p w :
  ∃ r x, installOne p w = (inr r, mkBW x (bw_started w ++ [pk_id p])) ∧ result_label r = package_label p.
Proof.
  unfold installOne. rewrite sbind_eq. cbn [sput]. rewrite sbind_eq.
  destruct (settles_now (mkBW (bw_ext w) (bw_started w ++ [pk_id p]))) as (t & x & ->). rewrite sbind_eq. cbn [bw_started].
  match goal with |- context [scatch ?m (λ e, mret (@?f e))] => destruct (settles_catch m f ltac:(frame) (mkBW x (bw_started w ++ [pk_id p]))) as (a & x' & ->) end.
  rewrite sbind_eq. destruct (settles_now (mkBW x' (bw_started w ++ [pk_id p]))) as (t' & x'' & E). cbn [bw_started] in *. rewrite E.
  by eexists _, x''.
Qed.

(** The installs of a group that have had their turn. *)
Lemma in_turn_run l turns : ∀ w, ∃ rs x,
  in_turn l turns w = (inr rs, mkBW x (bw_started w ++ omap (λ i, pk_id <$> l !! i) turns))
  ∧ (∀ i p, i ∈ turns → l !! i = Some p → ∃ r, (i, r) ∈ rs)
  ∧ ∀ i r, (i, r) ∈ rs → ∃ p, l !! i = Some p ∧ result_label r = package_label p.
Proof.
  induction turns as [|i turns IH]; intros w; cbn [in_turn].
  { exists [], (bw_ext w). cbn. rewrite app_nil_r. split; [by destruct w|]. split; [by intros i p ?%not_elem_of_nil|by intros i r ?%not_elem_of_nil]. }
  destruct (l !! i) as [p|] eqn:Ei; cbn [omap list_omap]; rewrite Ei; cbn [fmap option_fmap option_map].
  - destruct (installOne_run p w) as (r & x & E & Hlab). rewrite (sbind_ok _ _ _ _ _ E).
    destruct (IH (mkBW x (bw_started w ++ [pk_id p]))) as (rs & x' & E' & Hin & Hrs). rewrite (sbind_ok _ _ _ _ _ E').
    exists ((i, r) :: rs), x'. cbn [bw_started]. rewrite <- app_assoc. split; [done|]. split.
    + intros j q [->|Hj]%elem_of_cons Hq; [exists r; left|]. destruct (Hin j q Hj Hq) as [r' Hr']. exists r'. by right.
    + intros j r' [[= -> ->]|Hj]%elem_of_cons; eauto.
  - destruct (IH w) as (rs & x & E & Hin & Hrs). exists rs, x. split; [done|]. split; [|done].
    intros j q [->|Hj]%elem_of_cons Hq; [congruence|eauto].
Qed.

Lemma install_group_run l w : ∃ rs x st,
  install_group l w = (inr rs, mkBW x (bw_started w ++ st)) ∧ st ≡ₚ ids l ∧ result_label <$> rs = package_label <$> l.
Proof.
  unfold install_group. rewrite sbind_eq. cbn [sget]. set (turns := bh_turns (length l) (bw_ext w)).
  assert (turns ≡ₚ seq 0 (length l)) as Ht by apply bh_turns_all.
  destruct (in_turn_run l turns w) as (rs & x & E & Hin & Hrs). rewrite (sbind_ok _ _ _ _ _ E).
  eexists _, x, _. split; [done|]. split.
  - rewrite Ht. replace (ids l) with ((λ s, s) <$> omap (λ i, pk_id <$> l !! i) (seq 0 (length l))); [by rewrite list_fmap_id|].
    apply omap_seq. intros i p Hi. exists (pk_id p). by rewrite Nat.add_0_l, Hi.
  - apply omap_seq. intros i p Hi. cbn. destruct (Hin i p) as [r Hr]; [|done|].
    { rewrite Ht. apply elem_of_seq. apply lookup_lt_Some in Hi. lia. }
    destruct (find_first_is_Some (λ ir, bool_decide (ir.1 = i)) rs (i, r) Hr) as [[j r'] Hf]; [by apply bool_decide_eq_true|].
    rewrite Hf. pose proof Hf as [Hr' Ej]%find_first_Some. apply bool_decide_eq_true in Ej. cbn in Ej. subst j.
    exists r'. split; [done|]. destruct (Hrs _ _ Hr') as (q & Hq & ->). congruence.
Qed.

(** ** Levels *)

Definition failed_ids (rs : list PerPackageResult) : list string := pkg_package <$> select is_failed rs.
Definition blocked_by (failed : list string) (p : Package) : bool := existsb (has_id failed) (requires_of p).
(** [x] comes before [y]. *)
Definition before (x y : string) (l : list string) : Prop := ∃ l1 l2, l = l1 ++ l2 ∧ x ∈ l1 ∧ y ∈ l2.

Lemma before_app_r x y l1 l2 : before x y l2 → before x y (l1 ++ l2).
Proof. intros (a & b & -> & Hx & Hy). exists (l1 ++ a), b. rewrite app_assoc. split; [done|]. split; [|done]. apply elem_of_app. by right. Qed.

Lemma blocked_spec F p : blocked_by F p = false ↔ ∀ d, d ∈ requires_of p → d ∉ F.
Proof.
  unfold blocked_by. rewrite <- not_true_iff_false, existsb_exists. setoid_rewrite <- list_elem_of_In. setoid_rewrite has_id_spec. naive_solver.
Qed.

Lemma failed_ids_app a b : failed_ids (a ++ b) = failed_ids a ++ failed_ids b.
Proof. unfold failed_ids. by rewrite select_app, fmap_app. Qed.
Lemma failed_ids_blocked l : failed_ids (not_attempted <$> l) = ids l.
Proof. induction l as [|p l IH]; [done|]. cbn. f_equal. exact IH. Qed.
Lemma failed_ids_in rs x : x ∈ failed_ids rs → x ∈ pkg_package <$> rs.
Proof. unfold failed_ids. rewrite !list_elem_of_fmap. setoid_rewrite select_elem. naive_solver. Qed.

(** One level: the packages whose requirements failed are not attempted, the others
    are started. *)
Lemma install_level F level rest w : (∀ p, p ∈ level → pk_id p ∉ F) → NoDup (ids level) →
  let blocked := select (blocked_by F) level in
  let runnable := select (λ p, negb (blocked_by F p)) level in
  ∃ rs x st, st ≡ₚ ids runnable ∧ result_label <$> rs = package_label <$> runnable
  ∧ install_levels F (level :: rest) w =
    (later ← install_levels ((F ++ ids blocked) ++ failed_ids rs) rest; mret ((not_attempted <$> blocked) ++ rs ++ later))
      (mkBW x (bw_started w ++ st)).
Proof.
  intros HF Hn. cbv zeta. set (blocked := select (blocked_by F) level). set (runnable := select (λ p, negb (blocked_by F p)) level).
  assert (select (λ p, negb (has_id (F ++ ids blocked) (pk_id p))) level = runnable) as Hr.
  { unfold runnable. rewrite <- (select_rest (blocked_by F)) by done. apply select_ext. intros p Hp. unfold has_id. rewrite existsb_app.
    specialize (HF p Hp). apply has_id_false in HF. unfold has_id in HF. by rewrite HF. }
  assert (∃ rs x st, match runnable with [] => mret [] | _ => install_group runnable end w = (inr rs, mkBW x (bw_started w ++ st))
            ∧ st ≡ₚ ids runnable ∧ result_label <$> rs = package_label <$> runnable) as (rs & x & st & E & Hst & Hrs).
  { destruct runnable as [|p l]; [|apply install_group_run]. exists [], (bw_ext w), []. rewrite app_nil_r. by destruct w. }
  exists rs, x, st. split; [done|]. split; [done|]. cbn [install_levels]. fold (blocked_by F) blocked (ids blocked).
  change (map pk_id blocked) with (ids blocked). rewrite Hr. by rewrite (sbind_ok _ _ _ _ _ E).
Qed.

(** What the levels after [c] leave: [F] is what has failed in [c]. *)
Record levels_run (F c : list string) (ps : list Package) (rs : list PerPackageResult) (st : list string) : Prop := {
  run_labels : result_label <$> rs ≡ₚ package_label <$> ps;
  run_unique : NoDup st;
  run_known : ∀ id, id ∈ st → id ∈ ids ps;
  run_started : ∀ p, p ∈ ps → (pk_id p ∈ st ↔ ∀ d, d ∈ requires_of p → d ∉ F ++ failed_ids rs);
  run_blocked : ∀ p, p ∈ ps → pk_id p ∉ st → not_attempted p ∈ rs;
  run_order : ∀ p d, p ∈ ps → pk_id p ∈ st → d ∈ requires_of p → d ∉ c → before d (pk_id p) st
}.

(** A level, then the later ones. *)
Section level.
Context (F c : list string) (level rest : list Package) (rs later : list PerPackageResult) (st st' : list string).
Let blocked := select (blocked_by F) level.
Let runnable := select (λ p, negb (blocked_by F p)) level.
Context (HF : ∀ id, id ∈ F → id ∈ c) (Hc : ∀ p, p ∈ level ++ rest → pk_id p ∉ c) (Hn : NoDup (ids (level ++ rest))).
Context (Hready : ∀ p d, p ∈ level → d ∈ requires_of p → d ∈ c).
Context (Hst : st ≡ₚ ids runnable) (Hrs : result_label <$> rs = package_label <$> runnable).
Context (Hlater : levels_run ((F ++ ids blocked) ++ failed_ids rs) (ids level ++ c) rest later st').

Lemma level_disjoint p q : p ∈ level → q ∈ rest → pk_id p ≠ pk_id q.
Proof.
  intros Hp Hq E. unfold ids in Hn. rewrite fmap_app in Hn. apply NoDup_app in Hn as (_ & Hd & _).
  apply (Hd (pk_id p)); [by apply ids_here|]. rewrite E. by apply ids_here.
Qed.
Lemma level_NoDup : NoDup (ids level).
Proof. unfold ids in *. rewrite fmap_app in Hn. by apply NoDup_app in Hn as (? & _). Qed.

Lemma started_here id : id ∈ st → ∃ p, p ∈ level ∧ blocked_by F p = false ∧ pk_id p = id.
Proof. rewrite Hst. intros (p & [Hp Hb%negb_true_iff]%select_elem & <-)%ids_elem. eauto. Qed.
Lemma here_started p : p ∈ level → (pk_id p ∈ st ↔ blocked_by F p = false).
Proof.
  intros Hp. split.
  - intros (q & Hq & Hb & E)%started_here. by rewrite (ids_inj level p q level_NoDup).
  - intros Hb. rewrite Hst. apply ids_here, select_elem. by rewrite Hb.
Qed.

Lemma level_failed id : id ∈ failed_ids ((not_attempted <$> blocked) ++ rs ++ later) ↔ id ∈ ids blocked ++ failed_ids rs ++ failed_ids later.
Proof. by rewrite !failed_ids_app, failed_ids_blocked. Qed.
Lemma failed_not_earlier id : id ∈ failed_ids ((not_attempted <$> blocked) ++ rs ++ later) → id ∉ c.
Proof.
  rewrite level_failed, !elem_of_app. intros [Hi|[Hi%failed_ids_in|Hi%failed_ids_in]].
  - apply ids_elem in Hi as (p & [Hp _]%select_elem & <-). apply Hc, elem_of_app. by left.
  - rewrite (label_id _ _ Hrs) in Hi. apply ids_elem in Hi as (p & [Hp _]%select_elem & <-). apply Hc, elem_of_app. by left.
  - rewrite (label_id_perm _ _ (run_labels _ _ _ _ _ Hlater)) in Hi. apply ids_elem in Hi as (p & Hp & <-). apply Hc, elem_of_app. by right.
Qed.

Lemma level_labels : result_label <$> (not_attempted <$> blocked) ++ rs ++ later ≡ₚ package_label <$> level ++ rest.
Proof.
  rewrite !fmap_app, Hrs, (run_labels _ _ _ _ _ Hlater), app_assoc. apply Permutation_app_tail.
  rewrite <- list_fmap_compose. change (result_label ∘ not_attempted) with package_label. rewrite <- fmap_app.
  apply fmap_Permutation, select_split.
Qed.

Lemma level_unique : NoDup (st ++ st').
Proof.
  apply NoDup_app. split_and!; [|intros id Hi Hi'|exact (run_unique _ _ _ _ _ Hlater)].
  - rewrite Hst. apply select_NoDup_fmap, level_NoDup.
  - apply started_here in Hi as (p & Hp & _ & <-). apply (run_known _ _ _ _ _ Hlater), ids_elem in Hi' as (q & Hq & E).
    by apply (level_disjoint p q).
Qed.

Lemma level_started p : p ∈ level ++ rest →
  (pk_id p ∈ st ++ st' ↔ ∀ d, d ∈ requires_of p → d ∉ F ++ failed_ids ((not_attempted <$> blocked) ++ rs ++ later)).
Proof.
  intros Hp. pose proof Hp as [Hl|Hr]%elem_of_app; rewrite elem_of_app.
  - transitivity (pk_id p ∈ st).
    { split; [|by left]. intros [?|Hi]; [done|]. apply (run_known _ _ _ _ _ Hlater), ids_elem in Hi as (q & Hq & E). by destruct (level_disjoint p q). }
    rewrite here_started, blocked_spec by done. split; intros Hd d Hreq; specialize (Hd d Hreq); rewrite elem_of_app in *; [|tauto].
    intros [?|Hi%failed_not_earlier]; [done|]. by apply Hi, (Hready p).
  - transitivity (pk_id p ∈ st').
    { split; [|by right]. intros [Hi|?]; [|done]. apply started_here in Hi as (q & Hq & _ & E). by destruct (level_disjoint q p). }
    rewrite (run_started _ _ _ _ _ Hlater) by done. setoid_rewrite elem_of_app. setoid_rewrite level_failed. setoid_rewrite elem_of_app. setoid_rewrite elem_of_app. naive_solver.
Qed.

Lemma level_blocked p : p ∈ level ++ rest → pk_id p ∉ st ++ st' → not_attempted p ∈ (not_attempted <$> blocked) ++ rs ++ later.
Proof.
  rewrite !elem_of_app. intros [Hl|Hr] Hno.
  - left. apply list_elem_of_fmap. exists p. split; [done|]. apply select_elem. split; [done|].
    apply not_false_iff_true. intros Hb. apply here_started in Hb; [|done]. tauto.
  - right. right. apply (run_blocked _ _ _ _ _ Hlater p Hr). tauto.
Qed.

Lemma level_order p d : p ∈ level ++ rest → pk_id p ∈ st ++ st' → d ∈ requires_of p → d ∉ c → before d (pk_id p) (st ++ st').
Proof.
  intros Hp Hi Hd Hdc. pose proof Hp as [Hl|Hr]%elem_of_app; [by destruct Hdc; apply (Hready p)|].
  assert (pk_id p ∈ st') as Hi'.
  { apply elem_of_app in Hi as [Hi|?]; [|done]. apply started_here in Hi as (q & Hq & _ & E). by destruct (level_disjoint q p). }
  destruct (decide (d ∈ ids level)) as [(q & Hq & <-)%ids_elem|Hnl].
  - exists st, st'. split; [done|]. split; [|done]. apply here_started; [done|].
    apply (run_started _ _ _ _ _ Hlater p Hr) in Hd; [|done]. rewrite !elem_of_app in Hd.
    destruct (blocked_by F q) eqn:Eb; [|done].
    assert (pk_id q ∈ ids blocked) by (by apply ids_here, select_elem). tauto.
  - apply before_app_r, (run_order _ _ _ _ _ Hlater p d Hr Hi' Hd). rewrite elem_of_app. tauto.
Qed.

Lemma levels_run_cons : levels_run F c (level ++ rest) ((not_attempted <$> blocked) ++ rs ++ later) (st ++ st').
Proof.
  split; [apply level_labels|apply level_unique| |apply level_started|apply level_blocked|apply level_order].
  intros id. rewrite elem_of_app. intros [(p & Hp & _ & <-)%started_here|(p & Hp & <-)%(run_known _ _ _ _ _ Hlater)%ids_elem];
    apply ids_here, elem_of_app; auto.
Qed.
End level.

Lemma install_levels_run levels : ∀ F c w, layered c levels → NoDup (ids (mjoin levels)) →
  (∀ p, p ∈ mjoin levels → pk_id p ∉ c) → (∀ id, id ∈ F → id ∈ c) →
  ∃ rs x st, install_levels F levels w = (inr rs, mkBW x (bw_started w ++ st)) ∧ levels_run F c (mjoin levels) rs st.
Proof.
  induction levels as [|level levels IH]; intros F c w Hlay Hn Hc HF.
  { exists [], (bw_ext w), []. rewrite app_nil_r. split; [by destruct w|]. split; [done|by apply NoDup_nil_2|by intros id ?%not_elem_of_nil|..]; intros p; first [by intros ?%not_elem_of_nil|by intros d ?%not_elem_of_nil]. }
  destruct Hlay as (_ & Hl & Hlay). cbn in Hn, Hc, Hl.
  destruct (install_level F level levels w) as (rs & x & st & Hst & Hrs & E).
  { intros p Hp Hi. apply (Hc p); [apply elem_of_app; by left|auto]. }
  { eapply level_NoDup, Hn. }
  set (blocked := select (blocked_by F) level) in *.
  destruct (IH ((F ++ ids blocked) ++ failed_ids rs) (ids level ++ c) (mkBW x (bw_started w ++ st)) Hlay) as (later & x' & st' & E' & Hlater).
  { unfold ids in *. rewrite fmap_app in Hn. by apply NoDup_app in Hn as (_ & _ & ?). }
  { intros p Hp [Hi|Hi]%elem_of_app; [|by apply (Hc p); [apply elem_of_app; right|]].
    apply ids_elem in Hi as (q & Hq & Eq). by apply (level_disjoint level (mjoin levels) Hn q p). }
  { intros id. rewrite !elem_of_app. intros [[?|Hi]|Hi%failed_ids_in]; [auto| |].
    - left. apply ids_elem in Hi as (p & [Hp _]%select_elem & <-). by apply ids_here.
    - left. rewrite (label_id _ _ Hrs) in Hi. apply ids_elem in Hi as (p & [Hp _]%select_elem & <-). by apply ids_here. }
  eexists _, x', (st ++ st'). split; [rewrite E, (sbind_ok _ _ _ _ _ E'); cbn [bw_started]; rewrite <- app_assoc; reflexivity|].
  cbn. apply levels_run_cons; try done. intros p d Hp Hd. eapply Hl; [|done|done]. apply elem_of_app. by left.
Qed.

(** ** Author order *)

(** The entries one after the other, those of a group in any order. *)
Definition in_author_order (entries : list BundleEntry) (st : list string) : Prop :=
  ∃ groups, st = mjoin groups ∧ Forall2 (λ e g, g ≡ₚ ids (flattenBundleEntries [e])) entries groups.

Lemma installEntry_run e w : ∃ rs x st, installEntry e w = (inr rs, mkBW x (bw_started w ++ st))
  ∧ st ≡ₚ ids (flattenBundleEntries [e]) ∧ result_label <$> rs = package_label <$> flattenBundleEntries [e].
Proof.
  unfold flattenBundleEntries. cbn. rewrite app_nil_r. destruct e as [p|l]; [|apply install_group_run].
  destruct (installOne_run p w) as (r & x & E & Hr). cbn [installEntry]. rewrite (sbind_ok _ _ _ _ _ E).
  exists [r], x, [pk_id p]. split; [done|]. split; [done|]. cbn. by rewrite Hr.
Qed.

Lemma flatten_cons e l : flattenBundleEntries (e :: l) = flattenBundleEntries [e] ++ flattenBundleEntries l.
Proof. unfold flattenBundleEntries. cbn. by rewrite app_nil_r. Qed.

Lemma install_entries_run l : ∀ w, ∃ rs x st, install_entries l w = (inr rs, mkBW x (bw_started w ++ st))
  ∧ in_author_order l st ∧ result_label <$> rs = package_label <$> flattenBundleEntries l.
Proof.
  induction l as [|e l IH]; intros w; cbn [install_entries].
  { exists [], (bw_ext w), []. rewrite app_nil_r. split; [by destruct w|]. split; [|done]. exists []. split; [done|constructor]. }
  destruct (installEntry_run e w) as (rs & x & st & E & Hst & Hrs). rewrite (sbind_ok _ _ _ _ _ E).
  destruct (IH (mkBW x (bw_started w ++ st))) as (rs' & x' & st' & E' & (groups & -> & Hg) & Hrs'). rewrite (sbind_ok _ _ _ _ _ E').
  exists (rs ++ rs'), x', (st ++ mjoin groups). cbn [bw_started]. rewrite app_assoc. split; [done|]. split.
  - exists (st :: groups). split; [done|]. by constructor.
  - by rewrite flatten_cons, !fmap_app, Hrs, Hrs'.
Qed.

(** ** The result of a bundle *)

Lemma counts rs : with_status_count PS_installed rs + with_status_count PS_skipped rs + with_status_count PS_failed rs = Z.of_nat (length rs).
Proof.
  unfold with_status_count. induction rs as [|r rs IH]; [done|]. cbn [select length]. destruct (pkg_status r); cbn [length]; lia.
Qed.

(** The result of package [id] is not a failure. *)
Definition succeeded (rs : list PerPackageResult) (id : string) : Prop := ∃ r, r ∈ rs ∧ pkg_package r = id ∧ is_failed r = false.

Lemma succeeded_spec rs id : NoDup (pkg_package <$> rs) → id ∈ pkg_package <$> rs → (id ∉ failed_ids rs ↔ succeeded rs id).
Proof.
  intros Hn Hi. unfold failed_ids, succeeded. rewrite list_elem_of_fmap in Hi |- *. destruct Hi as (r & -> & Hr). split.
  - intros Hno. exists r. split_and!; [done|done|]. apply not_true_iff_false. intros Hf. apply Hno. exists r. by rewrite select_elem.
  - intros (r' & Hr' & E & Hf) (q & E' & [Hq Hq']%select_elem). cut (q = r'); [congruence|].
    apply list_elem_of_lookup in Hq as [i Hq], Hr' as [j Hr'].
    assert (i = j) as -> by (eapply (NoDup_lookup _ _ _ (pkg_package q) Hn); rewrite list_lookup_fmap; [by rewrite Hq|by rewrite Hr'; cbn; congruence]).
    congruence.
Qed.

(** Each package is started at most once and after all it requires, just when all that
    it requires has been installed or was there; else it is reported as not attempted. *)
Record in_dependency_order (ps : list Package) (rs : list PerPackageResult) (st : list string) : Prop := {
  order_once : NoDup st;
  order_known : ∀ id, id ∈ st → id ∈ ids ps;
  order_started : ∀ p, p ∈ ps → (pk_id p ∈ st ↔ ∀ d, d ∈ requires_of p → succeeded rs d);
  order_blocked : ∀ p, p ∈ ps → pk_id p ∉ st → not_attempted p ∈ rs;
  order_before : ∀ p d, p ∈ ps → pk_id p ∈ st → d ∈ requires_of p → before d (pk_id p) st
}.

Lemma levels_in_order entries levels w : dependencyLevels entries = inr levels →
  let ps := flattenBundleEntries entries in
  ∃ rs x st, install_levels [] levels w = (inr rs, mkBW x (bw_started w ++ st))
  ∧ result_label <$> rs ≡ₚ package_label <$> ps ∧ in_dependency_order ps rs st.
Proof.
  intros (Hn & Hk & Hp & Hlay)%dependencyLevels_inv. cbv zeta. set (ps := flattenBundleEntries entries) in *.
  destruct (install_levels_run levels [] [] w Hlay) as (rs & x & st & E & [Hlab Hu Hin Hst Hb Ho]);
    [unfold ids; by rewrite Hp|by intros p _ ?%not_elem_of_nil|done|].
  exists rs, x, st. split; [done|]. split; [by rewrite Hlab, Hp|].
  assert (pkg_package <$> rs ≡ₚ ids ps) as Hids by (apply label_id_perm; by rewrite Hlab, Hp).
  split; [done| | | |].
  - intros id Hi. specialize (Hin id Hi). unfold ids in *. by rewrite Hp in Hin.
  - intros p Hps. rewrite Hst by (by rewrite Hp). split; intros Hd d Hreq; specialize (Hd d Hreq).
    + apply succeeded_spec; [by rewrite Hids|rewrite Hids; eauto|done].
    + apply succeeded_spec; [by rewrite Hids|rewrite Hids; eauto|done].
  - intros p Hps. apply Hb. by rewrite Hp.
  - intros p d Hps Hi Hd. apply (Ho p d); [by rewrite Hp|done|done|by apply not_elem_of_nil].
Qed.

(** C15: the installation of a bundle returns an account of it, or refuses a wrong
    dependency graph before it has touched the guest. The account has one result for
    each package, whatever the guest answers, and its counts add up. Without declared
    dependencies the entries are installed in the author's order; with them a package
    is started just when none of what it requires failed, after all of it, and else it
    is reported as failed without having been started. *)
Theorem bundle_account (b : SoftwareBundle) (w : BW X) :
  let ps := flattenBundleEntries (sb_packages b) in
  match installBundle b w with
  | (inl e, w') => w' = w ∧ hasDeclaredDependencies (sb_packages b) = true ∧ dependencyLevels (sb_packages b) = inl e
  | (inr res, w') => ∃ st, bw_started w' = bw_started w ++ st
    ∧ result_label <$> ib_perPackageResults res ≡ₚ package_label <$> ps
    ∧ ib_totalPackages res = Z.of_nat (length ps) ∧ ib_installed res + ib_skipped res + ib_failed res = ib_totalPackages res
    ∧ if hasDeclaredDependencies (sb_packages b) then in_dependency_order ps (ib_perPackageResults res) st
      else result_label <$> ib_perPackageResults res = package_label <$> ps ∧ in_author_order (sb_packages b) st
  end.
Proof.
  cbv zeta. set (ps := flattenBundleEntries (sb_packages b)).
  assert (∀ rs : list PerPackageResult, result_label <$> rs ≡ₚ package_label <$> ps → Z.of_nat (length rs) = Z.of_nat (length ps)) as Hlen.
  { intros rs Hrs%Permutation_length. rewrite !length_fmap in Hrs. lia. }
  unfold installBundle. destruct (hasDeclaredDependencies (sb_packages b)).
  - destruct (dependencyLevels (sb_packages b)) as [e|levels] eqn:E; [done|].
    destruct (levels_in_order _ _ w E) as (rs & x & st & Ei & Hlab & Ho).
    rewrite sbind_eq, sbind_eq. cbn [slift]. rewrite Ei. exists st. cbn. rewrite counts. auto 10.
  - destruct (install_entries_run (sb_packages b) w) as (rs & x & st & Ei & Ho & Hlab). rewrite sbind_eq, Ei.
    exists st. cbn. rewrite counts, Hlab. split_and!; auto. apply Hlen. by rewrite Hlab.
Qed.
End account.

(** ** Literals of PowerShell *)

(** PowerShell takes the typographic single quotes, U+2018 to U+201B, and double
    quotes, U+201C to U+201E, for the plain ones. Here are the characters of a text,
    with these in one piece. *)
Definition is_curly (a b c : ascii) : bool :=
  (Ascii.nat_of_ascii a =? 226)%nat && (Ascii.nat_of_ascii b =? 128)%nat && (152 <=? Ascii.nat_of_ascii c)%nat && (Ascii.nat_of_ascii c <=? 158)%nat.

Fixpoint ps_chars (s : string) : list string :=
  match s with
  | EmptyString => []
  | String a s' =>
    match s' with
    | String b (String c r) =>
      if is_curly a b c then String a (String b (String c "")) :: ps_chars r else String a "" :: ps_chars s'
    | _ => String a "" :: ps_chars s'
    end
  end.

Definition is_ps_quote (c : string) : bool :=
  match c with
  | String a "" => bool_decide (a = squote)
  | String a (String b (String c "")) => is_curly a b c && (Ascii.nat_of_ascii c <=? 155)%nat
  | _ => false
  end.
Definition is_ps_dquote (c : string) : bool :=
  match c with
  | String a "" => bool_decide (a = dquote)
  | String a (String b (String c "")) => is_curly a b c && (156 <=? Ascii.nat_of_ascii c)%nat
  | _ => false
  end.

(** The rest of a literal after its first quote: two quotes stand for one. *)
Fixpoint read_ps_literal (l : list string) : option (string * list string) :=
  match l with
  | [] => None
  | c :: l' =>
    if is_ps_quote c then
      match l' with
      | d :: r => if is_ps_quote d then ar ← read_ps_literal r; Some (c +:+ ar.1, ar.2) else Some ("", l')
      | [] => Some ("", [])
      end
    else ar ← read_ps_literal l'; Some (c +:+ ar.1, ar.2)
  end.

Definition literal_at (l : list string) : option (string * list string) :=
  match l with c :: l' => if is_ps_quote c then read_ps_literal l' else None | [] => None end.

(** Literals with blanks between them. *)
Fixpoint read_literals (fuel : nat) (l : list string) : option (list string) :=
  match l, fuel with
  | [], _ => Some []
  | _, O => None
  | c :: l', S fuel =>
    if c =?s " " then read_literals fuel l'
    else ar ← literal_at l; rest ← read_literals fuel ar.2; Some (ar.1 :: rest)
  end.

(** A text between double quotes: characters, and variables that are replaced by their
    value. Escapes, doubled quotes and expressions after a dollar sign are not read. *)
Inductive Piece := P_text (t : string) | P_var (v : string).

Definition with_text (t : string) (l : list Piece) : list Piece :=
  match t, l with "", _ => l | _, P_text u :: l' => P_text (t +:+ u) :: l' | _, _ => P_text t :: l end.
Definition is_var_char (c : string) : bool :=
  match c with String a "" => is_letter a || is_digit a || is_underscore a || is_char ":" a | _ => false end.

Fixpoint read_expandable (var : option string) (l : list string) : option (list Piece * list string) :=
  match l with
  | [] => None
  | c :: l' =>
    let in_text :=
      if is_ps_dquote c then
        match l' with d :: _ => if is_ps_dquote d then None else Some ([], l') | [] => Some ([], []) end
      else if c =?s "$" then read_expandable (Some "") l'
      else if c =?s "`" then None
      else pr ← read_expandable None l'; Some (with_text c pr.1, pr.2) in
    match var with
    | None => in_text
    | Some v =>
      if is_var_char c then read_expandable (Some (v +:+ c)) l'
      else if v =?s "" then None
      else pr ← in_text; Some (P_var v :: pr.1, pr.2)
    end
  end.

Definition expandable_at (l : list string) : option (list Piece * list string) :=
  match l with c :: l' => if is_ps_dquote c then read_expandable None l' else None | [] => None end.

Definition strip (p : string) (l : list string) : option (list string) :=
  if bool_decide (take (length (ps_chars p)) l = ps_chars p) then Some (drop (length (ps_chars p)) l) else None.

(** The literal of a line after [prefix], and the parts of the call [& 'program' $tmp 'arg' ...]
    and of the whole line [if ($hash -ne 'hash') { throw message }]. *)
Definition read_word (prefix line : string) : option string := option_map fst (strip prefix (ps_chars line) ≫= literal_at).
Definition read_call (line : string) : option (string * list string) :=
  l ← strip "  & " (ps_chars line); pr ← literal_at l; l ← strip " $tmp " pr.2; args ← read_literals (length l) l; Some (pr.1, args).

Definition read_compare (line : string) : option (string * list Piece) :=
  l ← strip "  if ($hash -ne " (ps_chars line); hr ← literal_at l; l ← strip ") { throw " hr.2; mr ← expandable_at l;
  if bool_decide (mr.2 = ps_chars " }") then Some (hr.1, mr.1) else None.

(** No character whose code starts as that of the typographic quotes does. *)
Definition straight (s : string) : bool := all_chars (λ c, negb (Ascii.nat_of_ascii c =? 226)%nat) s.

Lemma ps_chars_cons a s : (Ascii.nat_of_ascii a =? 226)%nat = false → ps_chars (String a s) = String a "" :: ps_chars s.
Proof. intros Ha. cbn. destruct s as [|b [|c r]]; [done..|]. unfold is_curly. by rewrite Ha. Qed.

Lemma ps_chars_app s t : straight s = true → ps_chars (s +:+ t) = ps_chars s ++ ps_chars t.
Proof.
  induction s as [|a s IH]; [done|]. unfold straight. cbn [all_chars]. intros [Ha Hs]%andb_true_iff. apply negb_true_iff in Ha.
  change (String a s +:+ t) with (String a (s +:+ t)). rewrite !ps_chars_cons by done. cbn [app]. f_equal. by apply IH.
Qed.

Lemma strip_app p s : straight p = true → strip p (ps_chars (p +:+ s)) = Some (ps_chars s).
Proof. intros Hp. unfold strip. rewrite ps_chars_app, take_app_length, drop_app_length by done. by rewrite bool_decide_true. Qed.

(** Text after a literal that does not continue it. *)
Definition ends_literal (l : list string) : Prop := match l with c :: _ => is_ps_quote c = false | [] => True end.

Lemma read_quoted s l : straight s = true → ends_literal l → read_ps_literal (ps_chars (double_quotes s) ++ "'" :: l) = Some (s, l).
Proof.
  intros Hs Hl. induction s as [|a s IH]; cbn [double_quotes].
  - cbn. destruct l as [|c l]; [done|]. cbn in Hl. by rewrite Hl.
  - unfold straight in Hs. cbn [all_chars] in Hs. apply andb_true_iff in Hs as [Ha Hs]. apply negb_true_iff in Ha.
    case_bool_decide as Eq.
    + subst a. rewrite !ps_chars_cons by done. cbn [app read_ps_literal]. cbn [is_ps_quote]. rewrite bool_decide_true by done.
      by rewrite IH.
    + rewrite ps_chars_cons by done. cbn [app read_ps_literal is_ps_quote]. rewrite bool_decide_false by done. by rewrite IH.
Qed.

Lemma straight_doubled s : straight s = true → straight (double_quotes s) = true.
Proof.
  induction s as [|a s IH]; [done|]. unfold straight in *. cbn [all_chars double_quotes]. intros [Ha Hs]%andb_true_iff.
  case_bool_decide as Eq; cbn [all_chars]; [rewrite IH by done; by subst a|by rewrite Ha, IH].
Qed.

(** Characters without a meaning between double quotes. *)
Definition inert (s : string) : bool :=
  straight s && all_chars (λ c, negb (bool_decide (c = dquote)) && negb (is_char "$" c) && negb (is_char "`" c)) s.

Lemma with_text_cons a t l : with_text (String a "") (with_text t l) = with_text (String a t) l.
Proof. by destruct t as [|b t], l as [|[u|v] l]. Qed.

Lemma read_inert s l : inert s = true →
  read_expandable None (ps_chars s ++ l) = (pr ← read_expandable None l; Some (with_text s pr.1, pr.2)).
Proof.
  unfold inert, straight. induction s as [|a s IH]; cbn [all_chars].
  { intros _. cbn. by destruct (read_expandable None l) as [[]|]. }
  intros [[Ha Hs]%andb_true_iff [[[Hq Hd]%andb_true_iff Hb]%andb_true_iff Hr]%andb_true_iff]%andb_true_iff.
  apply negb_true_iff in Ha, Hq, Hd, Hb. rewrite ps_chars_cons by done. cbn [app read_expandable is_ps_dquote]. rewrite Hq.
  replace (String a "" =?s "$") with false by (symmetry; apply bool_decide_eq_false; intros [= ->]; by vm_compute in Hd).
  replace (String a "" =?s "`") with false by (symmetry; apply bool_decide_eq_false; intros [= ->]; by vm_compute in Hb).
  rewrite IH by (by rewrite Hs, Hr). destruct (read_expandable None l) as [[ps r]|]; [|done]. cbn [mbind option_bind fst snd]. by rewrite with_text_cons.
Qed.

Lemma hex_facts c : is_hex_digit c = true → to_lower c = c ∧ negb (Ascii.nat_of_ascii c =? 226)%nat = true
  ∧ negb (bool_decide (c = dquote)) && negb (is_char "$" c) && negb (is_char "`" c) = true.
Proof. destruct c as [[] [] [] [] [] [] [] []]; vm_compute; try discriminate; auto. Qed.
Lemma hex_inert s : all_chars is_hex_digit s = true → lower s = s ∧ inert s = true.
Proof.
  unfold inert, straight. induction s as [|c s IH]; [done|]. cbn [all_chars lower]. intros [(-> & -> & ->)%hex_facts Hs]%andb_true_iff.
  destruct (IH Hs) as [-> Hi]. split; [done|exact Hi].
Qed.

Lemma quoted_chars s t : straight s = true → ps_chars (psQuote s +:+ t) = "'" :: ps_chars (double_quotes s) ++ "'" :: ps_chars t.
Proof.
  intros Hs. unfold psQuote. change (String squote ?x +:+ t) with (String squote (x +:+ t)). rewrite ps_chars_cons by done.
  rewrite <- str_app_assoc, ps_chars_app by (by apply straight_doubled). change (String squote "" +:+ t) with (String squote t).
  by rewrite (ps_chars_cons squote).
Qed.

Lemma literal_quoted s t : straight s = true → ends_literal (ps_chars t) → literal_at (ps_chars (psQuote s +:+ t)) = Some (s, ps_chars t).
Proof. intros Hs Ht. rewrite quoted_chars by done. cbn. by apply read_quoted. Qed.

Lemma read_literals_blank fuel l : read_literals (S fuel) (" " :: l) = read_literals fuel l.
Proof. done. Qed.
Lemma read_literals_quoted fuel s t : straight s = true → ends_literal (ps_chars t) →
  read_literals (S fuel) (ps_chars (psQuote s +:+ t)) = (rest ← read_literals fuel (ps_chars t); Some (s :: rest)).
Proof. intros Hs Ht. pose proof (literal_quoted s t Hs Ht) as Hl. rewrite quoted_chars in * by done. cbn [read_literals]. by rewrite Hl. Qed.

Lemma read_args args : ∀ fuel, forallb straight args = true → (2 * length args ≤ fuel)%nat →
  read_literals fuel (ps_chars (join " " (map psQuote args))) = Some args.
Proof.
  induction args as [|a args IH]; intros fuel Hs Hf; [by destruct fuel|].
  cbn [forallb] in Hs. apply andb_true_iff in Hs as [Ha Hs]. cbn [length] in Hf. destruct fuel as [|[|fuel]]; [lia..|].
  destruct args as [|b args].
  - cbn [map join]. rewrite <- (str_app_nil_r (psQuote a)), read_literals_quoted by done. done.
  - change (join " " (map psQuote (a :: b :: args))) with (psQuote a +:+ String " " (join " " (map psQuote (b :: args)))).
    rewrite read_literals_quoted; [|done|rewrite ps_chars_cons; done].
    rewrite (ps_chars_cons " "), read_literals_blank by done. by rewrite IH by (done || lia).
Qed.

Lemma args_length args : forallb straight args = true → (2 * length args ≤ length (ps_chars (join " " (map psQuote args))))%nat.
Proof.
  induction args as [|a args IH]; [done|]. intros [Ha Hs]%andb_true_iff. specialize (IH Hs). destruct args as [|b args].
  - cbn [map join]. rewrite <- (str_app_nil_r (psQuote a)), quoted_chars by done. cbn. rewrite length_app. cbn. lia.
  - change (join " " (map psQuote (a :: b :: args))) with (psQuote a +:+ String " " (join " " (map psQuote (b :: args)))).
    rewrite quoted_chars, ps_chars_cons by done. cbn [length] in *. rewrite length_app. cbn [length]. lia.
Qed.

Lemma read_word_quoted prefix s t : straight prefix = true → straight s = true → ends_literal (ps_chars t) →
  read_word prefix (prefix +:+ psQuote s +:+ t) = Some s.
Proof.
  intros Hp Hs Ht. unfold read_word. rewrite strip_app by done. cbn [mbind option_bind]. by rewrite literal_quoted.
Qed.

Lemma with_text_before t u l : t ≠ "" → with_text t (P_text u :: l) = P_text (t +:+ u) :: l.
Proof. by destruct t. Qed.

(** The line that compares, with any message. *)
Definition compare_with (message sha : string) : string :=
  "  if ($hash -ne " +:+ psQuote sha +:+ ") { throw " +:+ in_quotes (message +:+ sha +:+ ", got $hash") +:+ " }".

Lemma compare_line message sha : sha ≠ "" → inert message = true → message ≠ "" → inert sha = true →
  read_compare (compare_with message sha) = Some (sha, [P_text (message +:+ sha +:+ ", got "); P_var "hash"]).
Proof.
  intros Hne Hm Hmne Hi. pose proof Hi as [Hst _]%andb_true_iff. pose proof Hm as [Hmst _]%andb_true_iff.
  unfold read_compare, compare_with. rewrite strip_app by done. cbn [mbind option_bind].
  rewrite literal_quoted by done. cbn [mbind option_bind fst snd]. rewrite strip_app by done. cbn [mbind option_bind].
  set (tail := ", got $hash" +:+ String dquote " }").
  assert (in_quotes (message +:+ sha +:+ ", got $hash") +:+ " }" = String dquote (message +:+ sha +:+ tail)) as ->.
  { unfold in_quotes, tail. rewrite !str_app_cons. by rewrite <- !str_app_assoc. }
  rewrite (ps_chars_cons dquote) by done. unfold expandable_at. change (is_ps_dquote (String dquote "")) with true. cbv iota.
  rewrite ps_chars_app, read_inert by done. rewrite ps_chars_app, read_inert by done.
  assert (read_expandable None (ps_chars tail) = Some ([P_text ", got "; P_var "hash"], ps_chars " }")) as -> by (vm_compute; reflexivity).
  cbn [mbind option_bind fst snd]. rewrite bool_decide_eq_true_2 by done. by rewrite !with_text_before.
Qed.

(** C17: The script that PowerShell is given for a [custom_script] downloads the URL of
    the bundle, throws unless the hash of what it got is the one of the bundle, and
    calls the interpreter of the bundle with its arguments, none of which can leave
    its literal: for the hashes that the schema accepts, and as long as the URL and
    the arguments have no character whose code starts as that of the typographic
    quotes. *)
Theorem script_literals url sha i args : SHA256_HEX sha = true → forallb straight (url :: args) = true →
  match custom_script_lines url sha i args with
  | [_; _; download; _; compare; call; _; _; _; _] =>
    read_word "  Invoke-WebRequest -Uri " download = Some url
    ∧ read_compare compare = Some (sha, [P_text ("custom_script sha256 mismatch: expected " +:+ sha +:+ ", got "); P_var "hash"])
    ∧ read_call call = Some (Interpreter_text i, args)
  | _ => False
  end.
Proof.
  intros [Hlen Hsha]%andb_true_iff [Hu Ha]%andb_true_iff. destruct (hex_inert _ Hsha) as [El Hi]. unfold custom_script_lines. rewrite El. split_and!.
  - by apply read_word_quoted.
  - assert (sha ≠ "") as Hne by (intros ->; discriminate Hlen).
    rewrite <- (compare_line "custom_script sha256 mismatch: expected " sha); [|done|vm_compute; reflexivity|done|done]. reflexivity.
  - unfold read_call. rewrite strip_app by done. unfold mbind at 1, option_bind at 1.
    rewrite literal_quoted by (by destruct i). cbn [mbind option_bind fst snd]. rewrite strip_app by done.
    cbn [mbind option_bind]. rewrite read_args by (done || by apply args_length). done.
Qed.

Lemma script_literals_witness :
  read_call "  & 'pwsh' $tmp 'O''Brien' '-Force'" = Some ("pwsh", ["O'Brien"; "-Force"]).
Proof.
  apply (script_literals "https://example.org/setup.ps1" "e3b0c44298fc1c149afbf4c8996fb92427ae41e4649b934ca495991b7852b855" IP_pwsh
    ["O'Brien"; "-Force"] eq_refl eq_refl).
Defined.
