(* ===== verification/BundlesExamples.v ===== *)
(** Bundles on a concrete guest: installations that go as declared, and answers of the
    package managers that are taken for something else. *)

From stdpp Require Import strings list.
From S2P Require Import Prelude JsVal JsonReader Signing BuildYaml Build Probes ReleaseDeploy Oci OciVirtual Assertions Narrative Scenario Bundles BundlesSpec.

Definition agent_answer (code : Z) (text : string) : InstallResult := mkInstallResult (code =? 0) code text "" false.

(** A guest whose clock ticks with each look at it, and that takes the packages of a
    group from the last to the first. *)
#[global, refine] Instance desk : BundleHost Z := {|
  bh_now x := (x, x + 1);
  bh_installSoftware id _ _ _ := λ x,
    (inr (if id =?s "Broken.Tool" then agent_answer 1 "network down"
          else if id =?s "Unknown.Tool" then agent_answer 20 "No installed package found matching input criteria."
          else if id =?s "Refused.Tool" then mkInstallResult false 0 "" "installer hash does not match" false
          else agent_answer 0 "done"), x);
  bh_installDirect _ _ := λ x, (inr (agent_answer 0 "done"), x);
  bh_installDocker _ _ _ _ := λ x, (inr (agent_answer 0 "done"), x);
  bh_runCommand command args _ := λ x,
    (inr (if command =?s "pip" then mkGuestResult 0 ("Requirement already satisfied: six in /usr/lib" +:+ newline +:+ "Successfully installed dateutil-2.9") ""
          else mkGuestResult 1 "" "not found"), x);
  bh_github _ := λ x, (inr (mkGithubResponse 403 "Forbidden" None), x);
  bh_turns n _ := rev (seq 0 n)
|}.
Proof. intros n _. symmetry. apply Permutation_rev. Defined.

Definition tool (id : string) (requires : list string) : Package := mkPackage id None (Some requires) None None (PK_manager MG_winget).
Definition bundle_of (l : list BundleEntry) : SoftwareBundle := mkSoftwareBundle "tools" None l.
Definition statuses (b : SoftwareBundle) : option (list (string * PackageStatus) * list string) :=
  match installBundle b (mkBW 0 []) with
  | (inr r, w) => Some (map (λ r, (pkg_package r, pkg_status r)) (ib_perPackageResults r), bw_started w)
  | _ => None
  end.

(** What needs the broken tool is not attempted, the rest is. *)
Example broken_chain :
  statuses (bundle_of [BE_package (tool "App" ["Lib"]); BE_parallel [tool "Lib" ["Broken.Tool"]; tool "Git" []; tool "Broken.Tool" []]; BE_package (tool "Gui" ["Git"])])
  = Some ([("Git", PS_installed); ("Broken.Tool", PS_failed); ("Lib", PS_failed); ("Gui", PS_installed); ("App", PS_failed)], ["Broken.Tool"; "Git"; "Gui"]).
Proof. vm_compute. reflexivity. Qed.

Example cycle_refused :
  installBundle (bundle_of [BE_package (tool "A" ["B"]); BE_package (tool "B" ["A"]); BE_package (tool "C" [])]) (mkBW 0 [])
  = (inl (mkJsError "BundleDependencyError" "bundle dependency graph contains a cycle or unsatisfied edge: A -> B; B -> A"), mkBW 0 []).
Proof. vm_compute. reflexivity. Qed.

(** [pip] says of a dependency that it is there already: the package that it has just
    installed counts as skipped, and its verify command, which would fail, is not run. *)
Example pip_dependency_skips :
  statuses (bundle_of [BE_package (mkPackage "dateutil" None None (Some "dateutil --version") None (PK_pip "dateutil"))])
  = Some ([("dateutil", PS_skipped)], ["dateutil"]).
Proof. vm_compute. reflexivity. Qed.

(** A failed install whose output says that no installed package was found counts as
    one that is installed already. *)
Example not_found_skips : statuses (bundle_of [BE_package (tool "Unknown.Tool" [])]) = Some ([("Unknown.Tool", PS_skipped)], ["Unknown.Tool"]).
Proof. vm_compute. reflexivity. Qed.

(** An install that the agent reports as not successful counts as installed when the
    exit code is 0. *)
Example refused_installs : statuses (bundle_of [BE_package (tool "Refused.Tool" [])]) = Some ([("Refused.Tool", PS_installed)], ["Refused.Tool"]).
Proof. vm_compute. reflexivity. Qed.

#[local] Instance https_only : UrlParser := {| url_parts s := if starts_with "https://" s then Some ("https:", str_drop 8 s) else None |}.

(** A reference with [..] passes, although the comment on its pattern says otherwise. *)
Example ref_with_dots : refined (PK_git_repo "https://example.org/a.git" (Some "main/../../x") "/opt/a" None None) = true.
Proof. vm_compute. reflexivity. Qed.
Example dest_with_dots : refined (PK_git_repo "https://example.org/a.git" None "C:\opt\..\a" None None) = false.
Proof. vm_compute. reflexivity. Qed.

(** An identifier can be an option of the package manager. *)
Example id_is_option : PACKAGE_ID_RE "--list" = true.
Proof. vm_compute. reflexivity. Qed.

(** A typographic quote ends the literal of an argument: what follows is code. *)
Example curly_quote_escapes :
  literal_at (ps_chars (psQuote "’; Restart-Computer; ‘")) = Some ("", ps_chars "; Restart-Computer; ‘'").
Proof. vm_compute. reflexivity. Qed.
